(* ===== verification/_CoqProject ===== *)
-Q . S2P
Prelude.v
Ber.v
Asn1.v
Asn1Int.v
Asn1Str.v
Asn1Oid.v
Asn1Int64.v
Asn1Float.v
Asn1Rbuild.v
Codec.v
Int64.v
OidCompare.v
VarBind.v
Pdu.v
PduRbuild.v
PduParse.v
PduRoundtrip.v
Safety.v
Message.v
Client.v
Session.v
SessionQueue.v
SessionLife.v
Stream.v
BinaryArray.v
ArraySort.v
ArraySet.v
Container.v
V3.v
Scapi.v
LcdTime.v
Usm.v
UsmList.v
UsmMsg.v
UsmRound.v
UsmSafe.v
Vacm.v
VacmView.v
VacmTables.v
VacmCheck.v
ClientVar.v
ConfigText.v
SlList.v
Alarm.v
OidStash.v
StashNext.v
Callback.v
Md5.v
Synch.v
Probe.v
DefaultStore.v
