(* ===== verification/Prelude.v ===== *)
(** * A verification of the SNMP client library of net-snmp 5.5

    snmpcollector polls network devices with the bundled net-snmp 5.5 library
    (directory src/pkg/net-snmp-5.5, called NS below).  Everything it learns
    about a device passes through the code that turns SNMP protocol data units
    into octets and back and that matches responses with requests; this
    development models that code and proves it correct, or proves in what way it
    is not.

    The build is the one of NS/include/net-snmp/net-snmp-config.h: long, size_t
    and pointers have 32 bits, the machine is little-endian, the special Opaque
    types are on (NETSNMP_WITH_OPAQUE_SPECIAL_TYPES), messages are encoded in
    reverse (NETSNMP_USE_REVERSE_ASNENCODING), debug output is compiled out.

    ** Parts of the program and the files that model them

    - this file: the outcome monad [M] ([Ok], [Err] for an error return,
      [UB] for an access outside an object or use of an uninitialised
      variable), 32-bit and 8-bit wrap-around, byte buffers, tactics and hints;
    - Ber: the reference encoding, as pure functions from values to octet lists
      ([ber_tlv], [int_contents], [ber_oid] ...): what the code should produce;
    - Asn1, Asn1Int, Asn1Str, Asn1Oid, Asn1Int64, Asn1Float: the functions
      asn_parse_* and asn_build_* of NS/snmplib/asn1.c.  A buffer is a list of
      octets, a [u_char *] into it a position, [*datalength] a 32-bit [Z];
      a caller's output buffer is the list of its allocated bytes.  The
      predicates [Encodes] and [Decodes] relate a function to a Ber encoding;
    - Asn1Rbuild: asn_realloc and the asn_realloc_rbuild_* functions, which
      write a packet from its end to its front and enlarge it at the front; the
      state [rstate] is the packet and the offset.  realloc is the class
      [Allocator]: it may refuse, and new bytes have an indeterminate value;
    - Codec: theorems that pair each encoder with its decoder;
    - Int64: NS/snmplib/int64.c, arithmetic, decimal text and wrap detection on
      64-bit counters held as two 32-bit words;
    - OidCompare: the object identifier comparisons of NS/snmplib/snmp_api.c;
    - VarBind: NS/snmplib/snmp.c, one variable binding (snmp_build_var_op,
      snmp_realloc_rbuild_var_op, snmp_parse_var_op); the value is the bytes of
      the C object behind the pointer, read at the type the tag selects;
    - Pdu, PduRbuild, PduParse: snmp_pdu_build, snmp_pdu_realloc_rbuild (with
      its ring of fifty pointers over the singly linked list of bindings) and
      snmp_pdu_parse of snmp_api.c;
    - PduRoundtrip: encoders and decoder of PDUs together;
    - Safety: the decoders on arbitrary bytes, with the calculus [safe];
    - Message: SNMPv1 and SNMPv2c messages, NS/snmplib/snmp_auth.c and
      snmp_build, snmp_parse and their helpers of snmp_api.c, with the defaults a
      PDU is completed with and the error codes left in the session;
    - Client: copying, splitting and repairing PDUs, NS/snmplib/snmp_client.c, on
      a heap with pointers; ClientVar: creating PDUs, setting values, adding
      variables and releasing them, snmp_client.c and snmp_api.c;
    - Session: one session of snmp_api.c and its list of outstanding requests:
      sending, receiving, retransmission, timeouts, the time select may wait
      and closing.  The list is linked nodes in a heap; clock, transport,
      callbacks and security models are fields of [env];
    - SessionQueue: that list as a queue; SessionLife: what becomes of a request;
    - Stream: _sess_read of snmp_api.c, which cuts a stream into messages;
    - BinaryArray: NS/snmplib/container_binary_array.c, the lazily sorted array
      and its iterator; ArraySort: its quicksort; ArraySet: the sorted set it
      implements, and the class [Comparison] of the orders it can use;
    - Container: NS/snmplib/container.c, chains of containers over the
      interface [SetContainer], and entries ordered by object identifier;
    - V3: SNMPv3 messages, snmpv3_build with its reverse encoder and
      snmpv3_parse of snmp_api.c, over the class [SecurityModel] of what a
      security model promises;
    - Scapi: NS/snmplib/scapi.c and keytools.c, keyed hashes, encryption, keys from
      passphrases, localised keys and key changes; the digests and ciphers of
      OpenSSL are the class [Crypto] with the laws [CryptoLaws];
    - LcdTime: NS/snmplib/lcd_time.c, the hash table of the boots and times of remote
      engines;
    - Usm: the users of the user-based security model, NS/snmplib/snmpusm.c, a sorted
      doubly linked list in a heap, and the state kept of a message; UsmList: that
      list as a map;
    - UsmMsg: sending and receiving with that model, usm_rgenerate_out_msg,
      usm_parse_security_parameters, usm_check_and_update_timeliness and
      usm_process_in_msg; UsmRound: it is an instance of [SecurityModel]; UsmSafe: what
      it accepts;
    - Vacm: the view, group and access tables of NS/snmplib/vacm.c; VacmView: views as
      families of subtrees; VacmTables: the tables as sorted lists;
    - VacmCheck: the access decision, vacm_in_view and vacm_check_view_contents of
      NS/agent/mibgroup/mibII/vacm_conf.c, with the community mapping of
      snmpUDPDomain.c;
    - ConfigText: words and octet strings of configuration lines, NS/snmplib/read_config.c;
    - SlList: NS/snmplib/container_list_ssll.c, sorted lists, stacks and queues of nodes
      in a heap, and their iterator;
    - Alarm: NS/snmplib/snmp_alarm.c, the list of timers, over the times of Session;
    - OidStash: NS/snmplib/oid_stash.c, a tree of hash tables for data kept by object
      identifier; StashNext: its search for the next entry;
    - Callback: NS/snmplib/callback.c, the registry of callbacks and its locks, over the
      nodes of SlList;
    - Md5: NS/snmplib/md5.c, the digest and keyed digest of builds without OpenSSL;
    - Synch: requests that wait for their answer, snmp_sess_synch_response of
      NS/snmplib/snmp_client.c, over Session and Stream; Probe: the probe for an engine
      identifier that a send may start, snmpv3_engineID_probe of snmp_api.c, which is such
      a request on the same session, and the invariant of a session;
    - DefaultStore: NS/snmplib/default_store.c, the settings and the configuration tokens
      that set them, over ConfigText.

    snmp_build calls a PDU encoder, which calls the binding encoder, which calls
    the value encoders of asn1.c; snmp_parse descends in the same order.  Each
    layer is specified by a Ber encoding, through the classes [Encodes] and
    [Decodes] or the relation [rspec], and the next layer's proofs use only that
    specification.  A session sends what snmp_build makes of a request and hands
    what Stream delivers to snmp_parse; Session is built on Message and Client
    in the same way, and its theorems use their specifications.  snmpv3_build and
    snmpv3_parse call a security model through the record [secmod]; the user-based one
    calls the engine times, the list of users and the cryptographic interface, and its
    theorem discharges the interface V3 is proved against.  The access decision calls
    the lookups of the three tables, which share the object identifier order.

    ** What the theorems show

    - round trips for every pair of encoder and decoder, from integers to whole
      messages, each with the exact number of octets consumed and with the error
      branch when the buffer is too short;
    - memory safety and termination of the decoders on arbitrary packets, given
      seven readable bytes behind the packet, and that fewer do not suffice;
    - what snmp_build and snmpv3_build refuse and with which error;
    - SNMPv3 messages arrive as they were sent between security models that
      undo each other, and none is accepted that the security model rejected;
      with the user-based model, signed, encrypted and padded, they arrive between
      users who share a key;
    - that model accepts a message only with a valid signature of a known user and in
      its time window, and no message of before the newest authentic one of an engine
      by more than the window; a user who is not active passes the test of the level;
    - the list of users and the table of engine times refine finite maps; key changes
      and encryption undo themselves;
    - the entry of a view that decides about an object is the one RFC 3415 names, a
      definite answer about a subtree is right for each object in it, the tables stay
      in order; the access decision is the one of RFC 3415 on active rows where the rights a
      request could use name the same view, and otherwise has the order of preference
      among access rights turned round;
    - 64-bit arithmetic, its decimal text, and that a counter seen through 32-bit
      readings is followed exactly;
    - equivalence of the forward and the reverse encoder on values up to 64 KiB and
      object identifiers of at least two arcs;
    - exact space use of the reverse encoder, and independence of the number of
      bindings from the size of the pointer ring;
    - minimality of integer contents;
    - object identifier comparison as a lexicographic order, subtree tests as
      the prefix relation;
    - a copied, split or repaired PDU has the intended variables, up to 10000 of them,
      and shares no memory with the original but the state of the security model; what an application adds to a request shows in it,
      and is released once and completely, the variables themselves included;
    - the requests of a session are never lost, duplicated or released twice, probes for
      an engine identifier included; the pointer operations implement a queue; an
      unanswered request is retransmitted exactly as often as its limit allows, given up
      and reported; a response reaches the request with its
      identifier; select wakes up for the earliest expiry;
    - a synchronous request returns the response that comes within its retries, whatever
      comes before it, and STAT_TIMEOUT when none comes; it leaves nothing behind;
    - messages survive any segmentation of a stream;
    - list containers are lists, a sorted one stays sorted, and a search gives the entry
      with the key; in a sorted one it gives the next entry when the key is missing;
    - running the timers ends, calls what is due once and in order, whatever the callbacks
      register and unregister, and leaves nothing due; the delay until the next timer;
    - the registry of callbacks is lists ordered by priority, a call reaches every callback
      of a list once, clearing frees every client argument once; a callback that
      unregisters itself is freed under the loop that runs it;
    - data kept by object identifier is a finite map, and the search from an identifier in
      it finds the next one in lexicographic order;
    - the library's MD5 and HMAC-MD5 are those of RFC 1321 and RFC 2104;
    - the default store is four finite maps that configuration lines set, and owns
      exactly the strings in it;
    - octet strings in configuration lines are read back as they were saved, by a caller
      without an array of its own, and
      copying a word stays within its room;
    - the array container is a sorted set, its sort terminates, walks and
      iterators visit every entry in order (and an iterator overlooks an entry
      after a removal), subsets are subtrees, and an insertion into several
      indexes happens in all or in none;
    - the cases in which the code loses information: signed 64-bit values from
      -2^31 to -1, the object identifiers 0.40, the prefix length off by one,
      communities of 256 octets, and an uninitialised length in
      asn_check_packet.

    ** Fuel

    Loops without a structural argument take fuel: the length loops at most 4
    or 5 rounds (32 bits), the integer loops 4 or 8, asn_parse_objid one per
    octet, the growth loops of the reverse encoder one per byte asked for, the
    decoder of bindings one per octet left, the pointer ring one per binding,
    the loops over requests one per request (for a synchronous request
    on an idle session 1, and a list of select results), the loop over the messages in a
    buffer one per octet, the quicksort one per entry (its depth; the number of its calls
    is bounded too), a search one per entry,
    the loops over linked lists in a heap one per node of the heap, the hash of
    an engine identifier and the expansion of a passphrase one per octet or block.
    Each definition supplies its own fuel and the theorems show a result with
    that fuel, so no theorem is vacuous for lack of it; running out would be
    [UB].

    ** Not modelled

    The SNMPv3 branches of snmp_build and snmp_parse are arguments of their
    models; V3 has the functions that belong there, with a richer PDU, without their
    forward encoder and reports.  Of the user-based model the forward encoder
    (usm_generate_out_msg), the reports with their statistics, and users and passwords in
    configuration files are left out; so are random numbers (sc_random) and the
    configuration of the own engine (snmpv3.c), and of access control the scans, the
    configuration lines and the mapping of IPv6 and Unix transports; of configuration lines
    object identifiers, which need the MIB parser; of synchronous requests those over the
    list of all sessions (snmp_synch_response_cb), and a probe for an engine identifier that
    a callback starts.  Further parts worth modelling, in this
    order: the forward encoder of snmpusm.c, and the session list.

    Left out for good: transports (socket I/O), the algorithms of OpenSSL, the MIB
    parser and printer, logging, the rest of the agent, the command line tools, the
    language bindings, and the collector's own shell and Perl scripts. *)

From stdpp Require Import prelude numbers list.
From Stdlib Require Import ZArith Lia.

Open Scope Z_scope.

(** ** Outcomes of a C function

    [Ok a]: the function returned normally with results [a];
    [Err]: it took an error path (returned [NULL], 0 or an error code);
    [UB]: it accessed memory outside the object it was given, or used an
    uninitialised variable. *)
Inductive M (A : Type) : Type :=
| Ok (a : A)
| Err
| UB.
Arguments Ok {A} _.
Arguments Err {A}.
Arguments UB {A}.

#[global] Instance M_eq_dec {A} `{EqDecision A} : EqDecision (M A).
Proof. solve_decision. Defined.

#[global] Instance M_ret : MRet M := @Ok.
#[global] Instance M_bind : MBind M := fun A B f m =>
  match m with Ok a => f a | Err => Err | UB => UB end.

Lemma M_bind_Ok {A B} (m : M A) (f : A → M B) b :
  m ≫= f = Ok b ↔ ∃ a, m = Ok a ∧ f a = Ok b.
Proof.
  destruct m as [a| |]; simpl; split; try done.
  - intros H. by exists a.
  - by intros (a' & [= ->] & H).
  - by intros (a' & [=] & _).
  - by intros (a' & [=] & _).
Qed.

Lemma M_bind_assoc {A B C} (m : M A) (f : A → M B) (g : B → M C) :
  (m ≫= f) ≫= g = m ≫= (λ a, f a ≫= g).
Proof. by destruct m. Qed.

(** [defined m]: no undefined behaviour was met. *)
Definition defined {A} (m : M A) : Prop := m ≠ UB.

Lemma defined_bind {A B} (m : M A) (f : A → M B) :
  defined m → (∀ a, m = Ok a → defined (f a)) → defined (m ≫= f).
Proof. unfold defined. destruct m; simpl; naive_solver. Qed.

(** ** Machine integers: a [w]-bit value is a [Z], the wrap-around explicit. *)
Definition u8 (z : Z) : Z := z mod 2 ^ 8.
Definition u32 (z : Z) : Z := z mod 2 ^ 32.
Definition s32 (z : Z) : Z := (z + 2 ^ 31) mod 2 ^ 32 - 2 ^ 31.

#[global] Arguments u8 : simpl never.
#[global] Arguments u32 : simpl never.
#[global] Arguments s32 : simpl never.

Definition is_byte (b : Z) : Prop := 0 ≤ b < 256.
#[global] Instance is_byte_dec b : Decision (is_byte b).
Proof. unfold is_byte. apply _. Defined.

Lemma u8_byte z : is_byte (u8 z).
Proof. unfold is_byte, u8. apply Z.mod_pos_bound. lia. Qed.

Lemma u8_id b : is_byte b → u8 b = b.
Proof. unfold is_byte, u8. intros. apply Z.mod_small. lia. Qed.

Lemma u32_range z : 0 ≤ u32 z < 2 ^ 32.
Proof. apply Z.mod_pos_bound. lia. Qed.

Lemma u32_id z : 0 ≤ z < 2 ^ 32 → u32 z = z.
Proof. apply Z.mod_small. Qed.

Lemma s32_range z : - 2 ^ 31 ≤ s32 z < 2 ^ 31.
Proof.
  unfold s32. pose proof (Z.mod_pos_bound (z + 2 ^ 31) (2 ^ 32)). lia.
Qed.

Lemma s32_id z : - 2 ^ 31 ≤ z < 2 ^ 31 → s32 z = z.
Proof. intros. unfold s32. rewrite Z.mod_small; lia. Qed.

Lemma s32_u32 z : s32 (u32 z) = s32 z.
Proof. unfold s32, u32. by rewrite Z.add_mod_idemp_l by lia. Qed.

Lemma u32_s32 z : u32 (s32 z) = u32 z.
Proof.
  unfold s32, u32.
  rewrite Zminus_mod_idemp_l. f_equal. lia.
Qed.

Lemma s32_cong z z' : z mod 2 ^ 32 = z' mod 2 ^ 32 → s32 z = s32 z'.
Proof. intros H. rewrite <- (s32_u32 z), <- (s32_u32 z'). unfold u32. by rewrite H. Qed.

(** ** Bit operations as arithmetic *)
Lemma shiftl_mul z k : 0 ≤ k → Z.shiftl z k = z * 2 ^ k.
Proof. apply Z.shiftl_mul_pow2. Qed.

Lemma shiftr_div z k : 0 ≤ k → Z.shiftr z k = z / 2 ^ k.
Proof. apply Z.shiftr_div_pow2. Qed.

Lemma lor_shift_low v b k :
  0 ≤ k → 0 ≤ b < 2 ^ k → Z.lor (Z.shiftl v k) b = v * 2 ^ k + b.
Proof.
  intros Hk Hb. rewrite <- (shiftl_mul v k Hk).
  assert (Z.land (Z.shiftl v k) b = 0) as Hd.
  { apply Z.bits_inj'. intros i Hi. rewrite Z.land_spec, Z.bits_0.
    destruct (Z_lt_le_dec i k); [by rewrite Z.shiftl_spec_low by lia|].
    rewrite <- (Z.mod_small b (2 ^ k)) by done.
    by rewrite Z.mod_pow2_bits_high, andb_false_r by lia. }
  rewrite Z.add_nocarry_lxor by done. by rewrite Z.lxor_lor.
Qed.

Lemma land_ones_mod z k : 0 ≤ k → Z.land z (2 ^ k - 1) = z mod 2 ^ k.
Proof. intros. rewrite <- Z.land_ones by done. f_equal. rewrite Z.ones_equiv. lia. Qed.

(** A mask of [n] ones above [k] zeros selects a digit. *)
Lemma land_field z n k :
  0 ≤ n → 0 ≤ k →
  Z.land z ((2 ^ n - 1) * 2 ^ k) = z / 2 ^ k mod 2 ^ n * 2 ^ k.
Proof.
  intros Hn Hk.
  rewrite <- (land_ones_mod _ n Hn), <- !(shiftl_mul _ k Hk), <- (shiftr_div _ k Hk).
  apply Z.bits_inj'. intros i Hi. rewrite Z.land_spec.
  destruct (Z_lt_le_dec i k).
  - by rewrite !Z.shiftl_spec_low, andb_false_r by lia.
  - rewrite !Z.shiftl_spec, Z.land_spec, Z.shiftr_spec by lia.
    do 2 f_equal. lia.
Qed.

Lemma lor_high_bit b : 0 ≤ b < 128 → Z.lor b 128 = b + 128.
Proof.
  intros. rewrite Z.lor_comm.
  pose proof (lor_shift_low 1 b 7) as HH. change (Z.shiftl 1 7) with 128 in HH.
  rewrite HH; lia.
Qed.

(** The top bit of a byte. *)
Lemma land_128 b : is_byte b → Z.land b 128 = if decide (b < 128) then 0 else 128.
Proof.
  unfold is_byte. intros Hb.
  change 128 with ((2 ^ 1 - 1) * 2 ^ 7) at 1. rewrite land_field by lia.
  case_decide.
  - by rewrite Z.div_small by lia.
  - replace (b / 2 ^ 7) with 1; [done|]. apply Z.div_unique with (b - 128); lia.
Qed.

(** A boolean fact about all bytes, by computation. *)
Lemma byte_forall (P : Z → bool) b :
  forallb P (Z.of_nat <$> seq 0 256) = true → is_byte b → P b = true.
Proof.
  intros H Hb. rewrite forallb_forall in H. apply H.
  apply list_elem_of_In, list_elem_of_fmap. exists (Z.to_nat b).
  unfold is_byte in Hb. split; [lia|]. apply elem_of_seq. lia.
Qed.

Lemma land_lnot_128 b : is_byte b → Z.land b (Z.lnot 128) = b mod 128.
Proof.
  intros Hb. apply Z.eqb_eq. revert Hb.
  apply (byte_forall (λ b, Z.land b (Z.lnot 128) =? b mod 128)). done.
Qed.

(** ** Memory

    A C object is the list of its bytes, a pointer into it an index.  A read
    or a write outside the object is [UB]. *)
Definition rd (buf : list Z) (p : nat) : M Z :=
  match buf !! p with Some b => Ok b | None => UB end.

Definition wr (buf : list Z) (p : nat) (b : Z) : M (list Z) :=
  if decide (p < length buf)%nat then Ok (<[p := b]> buf) else UB.

#[global] Arguments rd : simpl never.
#[global] Arguments wr : simpl never.

(** [memmove] of a whole block into [buf] at [p]. *)
Fixpoint wr_list (buf : list Z) (p : nat) (l : list Z) : M (list Z) :=
  match l with
  | [] => Ok buf
  | b :: l => buf ← wr buf p b; wr_list buf (S p) l
  end.

(** The [n] bytes read from [p] on. *)
Fixpoint rd_list (buf : list Z) (p : nat) (n : nat) : M (list Z) :=
  match n with
  | O => Ok []
  | S n => b ← rd buf p; l ← rd_list buf (S p) n; Ok (b :: l)
  end.

Lemma rd_lt buf p : (p < length buf)%nat → ∃ b, rd buf p = Ok b ∧ buf !! p = Some b.
Proof. intros H%lookup_lt_is_Some. destruct H as [b Hb]. exists b. unfold rd. by rewrite Hb. Qed.

Lemma rd_Ok buf p b : rd buf p = Ok b ↔ buf !! p = Some b.
Proof. unfold rd. destruct (buf !! p); naive_solver. Qed.

Lemma rd_defined buf p : (p < length buf)%nat → defined (rd buf p).
Proof. intros (b & -> & _)%rd_lt. done. Qed.

Lemma rd_byte buf p b : Forall is_byte buf → rd buf p = Ok b → is_byte b.
Proof. intros Hb ?%rd_Ok. by eapply Forall_lookup_1. Qed.

Lemma rd_app_l pre b post : rd (pre ++ b :: post) (length pre) = Ok b.
Proof. apply rd_Ok. by apply list_lookup_middle. Qed.

Lemma rd_app pre l post i b :
  l !! i = Some b → rd (pre ++ l ++ post) (length pre + i) = Ok b.
Proof.
  intros Hb. apply rd_Ok.
  rewrite lookup_app_r by lia. replace (length pre + i - length pre)%nat with i by lia.
  by rewrite lookup_app_l by (by eapply lookup_lt_Some).
Qed.

Lemma wr_app pre x post b :
  wr (pre ++ x :: post) (length pre) b = Ok (pre ++ b :: post).
Proof.
  unfold wr. rewrite decide_True by (rewrite length_app; simpl; lia).
  f_equal. rewrite insert_app_r_alt, Nat.sub_diag by lia. done.
Qed.

Lemma wr_list_app l pre old post :
  length old = length l →
  wr_list (pre ++ old ++ post) (length pre) l = Ok (pre ++ l ++ post).
Proof.
  revert pre old. induction l as [|b l IH]; intros pre old Hl.
  - destruct old; done.
  - destruct old as [|x old]; [done|]. simpl.
    rewrite wr_app. simpl.
    specialize (IH (pre ++ [b]) old). rewrite <- !app_assoc in IH. simpl in IH.
    rewrite length_app in IH. simpl in IH. rewrite Nat.add_1_r in IH. apply IH. simpl in Hl. lia.
Qed.

Lemma wr_list_eq buf p l :
  (p + length l ≤ length buf)%nat →
  wr_list buf p l = Ok (take p buf ++ l ++ drop (p + length l) buf).
Proof.
  intros Hp. rewrite <- (wr_list_app l (take p buf) (take (length l) (drop p buf)))
    by (rewrite length_take, length_drop; lia).
  rewrite <- drop_drop, take_drop, take_drop, length_take. f_equal. lia.
Qed.

(** Writes to adjacent blocks commute. *)
Lemma wr_list_swap buf p l1 l2 buf' :
  (p + length l1 + length l2 ≤ length buf)%nat →
  wr_list buf (p + length l1) l2 = Ok buf' →
  wr_list buf' p l1 = wr_list buf p (l1 ++ l2).
Proof.
  intros Hp. rewrite wr_list_eq by lia. intros [= <-].
  rewrite !wr_list_eq by (rewrite ?length_app, ?length_take, ?length_drop; simpl; lia).
  rewrite take_app_le by (rewrite length_take; lia).
  rewrite take_take, Nat.min_l by lia.
  rewrite drop_app_length' by (rewrite length_take; lia).
  by rewrite <- app_assoc, length_app, Nat.add_assoc.
Qed.

Lemma wr_length buf p b buf' : wr buf p b = Ok buf' → length buf' = length buf.
Proof. unfold wr. case_decide; [|done]. intros [= <-]. apply length_insert. Qed.

Lemma wr_list_ok buf p l :
  (p + length l ≤ length buf)%nat →
  ∃ buf', wr_list buf p l = Ok buf' ∧ length buf' = length buf.
Proof.
  revert buf p. induction l as [|b l IH]; intros buf p Hp; simpl in *; [by eauto|].
  unfold wr. rewrite decide_True by lia. simpl.
  destruct (IH (<[p:=b]> buf) (S p)) as (buf' & Hw & Hl).
  - rewrite length_insert. lia.
  - exists buf'. rewrite length_insert in Hl. by rewrite Hw.
Qed.

(** A block that does not fit. *)
Lemma wr_list_overrun buf p l :
  (length buf < p + length l)%nat → l ≠ [] → wr_list buf p l = UB.
Proof.
  revert buf p. induction l as [|b l IH]; intros buf p Hp Hl; [done|]. simpl in *.
  unfold wr. case_decide; [|done]. simpl. apply IH; [rewrite length_insert; lia|].
  intros ->. simpl in *. lia.
Qed.

Lemma wr_list_cat buf p l1 l2 :
  wr_list buf p (l1 ++ l2)
  = (buf' ← wr_list buf p l1; wr_list buf' (p + length l1) l2).
Proof.
  revert buf p. induction l1 as [|b l1 IH]; intros buf p; simpl.
  - by rewrite Nat.add_0_r.
  - destruct (wr buf p b); simpl; [|done..]. rewrite IH.
    by replace (S p + length l1)%nat with (p + S (length l1))%nat by lia.
Qed.

Lemma rd_list_app l pre post :
  rd_list (pre ++ l ++ post) (length pre) (length l) = Ok l.
Proof.
  revert pre. induction l as [|b l IH]; intros pre; [done|]. simpl.
  rewrite rd_app_l. simpl.
  specialize (IH (pre ++ [b])). rewrite <- app_assoc in IH. simpl in IH.
  rewrite length_app in IH. simpl in IH. rewrite Nat.add_1_r in IH. by rewrite IH.
Qed.

Lemma rd_list_spec buf p n :
  (p + n ≤ length buf)%nat → rd_list buf p n = Ok (take n (drop p buf)).
Proof.
  revert p. induction n as [|n IH]; intros p Hp; [done|]. simpl.
  destruct (rd_lt buf p) as (b & -> & Hb); [lia|]. simpl.
  rewrite IH by lia. simpl. by rewrite (drop_S _ _ _ Hb).
Qed.

(** ** Big-endian digit strings *)
Fixpoint be_bytes (n : nat) (z : Z) : list Z :=
  match n with
  | O => []
  | S n => z / 256 ^ Z.of_nat n mod 256 :: be_bytes n z
  end.

Definition be_val (v : Z) (l : list Z) : Z := fold_left (λ a b, a * 256 + b) l v.

Lemma length_be_bytes n z : length (be_bytes n z) = n.
Proof. induction n; simpl; congruence. Qed.

Lemma be_bytes_ok n z : Forall is_byte (be_bytes n z).
Proof.
  induction n; simpl; constructor; [|done]. apply Z.mod_pos_bound. lia.
Qed.

Lemma be_val_be_bytes n v z :
  be_val v (be_bytes n z) = v * 256 ^ Z.of_nat n + z mod 256 ^ Z.of_nat n.
Proof.
  revert v. induction n as [|n IH]; intros v; simpl be_bytes.
  - simpl. rewrite Z.mod_1_r. lia.
  - unfold be_val in *. simpl fold_left. rewrite IH.
    rewrite Nat2Z.inj_succ, Z.pow_succ_r by lia.
    set (P := 256 ^ Z.of_nat n). assert (0 < P) by (apply Z.pow_pos_nonneg; lia).
    rewrite (Z.mul_comm 256 P). rewrite Z.rem_mul_r by lia. lia.
Qed.

Lemma be_val_bound v l :
  Forall is_byte l → 0 ≤ v →
  v * 256 ^ Z.of_nat (length l) ≤ be_val v l < (v + 1) * 256 ^ Z.of_nat (length l).
Proof.
  intros Hl. revert v. induction Hl as [|b l Hb Hl IH]; intros v Hv; simpl.
  - lia.
  - specialize (IH (v * 256 + b)). unfold is_byte in Hb.
    rewrite Nat2Z.inj_succ, Z.pow_succ_r by lia.
    set (P := 256 ^ Z.of_nat (length l)) in *.
    assert (0 < P) by (apply Z.pow_pos_nonneg; lia).
    unfold be_val in *. simpl. nia.
Qed.

(** ** Lists *)

Lemma filter_all {B} (P : B → Prop) `{∀ x, Decision (P x)} l : Forall P l → filter P l = l.
Proof. induction 1 as [|x l Hx _ IH]; [done|]. by rewrite filter_cons_True, IH. Qed.

Lemma filter_none {B} (P : B → Prop) `{∀ x, Decision (P x)} l :
  Forall (λ x, ¬ P x) l → filter P l = [].
Proof. induction 1 as [|x l Hx _ IH]; [done|]. by rewrite filter_cons_False. Qed.

(** ** Automation *)
Create HintDb snmp.
Create Rewrite HintDb snmp.
#[export] Hint Resolve u8_byte be_bytes_ok rd_defined : snmp.

(** Take the monadic computation in a hypothesis apart. *)
Ltac m_inv :=
  repeat match goal with
  | H : mbind _ _ = Ok _ |- _ =>
      let a := fresh "a" in let H1 := fresh "Hm" in
      apply M_bind_Ok in H as (a & H1 & H); simpl in H
  | H : @eq (M _) (Ok _) (Ok _) |- _ => progress simplify_eq
  | H : @eq (M _) Err (Ok _) |- _ => discriminate H
  | H : @eq (M _) UB (Ok _) |- _ => discriminate H
  | H : (let '(_, _) := ?p in _) = Ok _ |- _ => destruct p; simpl in H
  | H : (if ?b then _ else _) = Ok _ |- _ => let E := fresh "E" in destruct b eqn:E
  end.

(** Go through the outcomes of a chain of writes. *)
Ltac wr_cases :=
  repeat (match goal with |- context [wr ?b ?p ?v] => destruct (wr b p v) end; simpl);
  try done.

(** Reduce binds whose first computation is known, and nothing else. *)
Ltac m_step := cbn [mbind M_bind negb orb andb].

(** Compare two explicit lists element by element. *)
Ltac list_eq :=
  repeat match goal with
  | |- @eq (list _) (_ :: _) (_ :: _) => apply f_equal2
  | |- @eq (list _) [] [] => reflexivity
  end.

(** Literals for the exponents that [Z.of_nat] hides. *)
Ltac const_powers := cbn [Z.of_nat Pos.of_succ_nat Pos.succ] in *.
