(* ===== verification/Ber.v ===== *)
(** * Reference BER encodings

    What the encoders of asn1.c are meant to produce and its decoders to
    accept (X.690 restricted as in RFC 3417 section 8): definite lengths in
    the shortest form, two's complement integers in the fewest octets, base-128
    object identifier arcs.  These definitions are written from the encoding
    rules, not from the C code: the refinement theorems of the Asn1 files
    relate the two. *)

From S2P Require Import Prelude.
From stdpp Require Import prelude numbers list.
From Stdlib Require Import ZArith Lia.
Open Scope Z_scope.

(** ** Lengths and tag-length-value triples *)

(** Fewest base-256 digits of [n], for [n < 2^32]. *)
Definition length_size (n : Z) : nat :=
  if n <? 2 ^ 8 then 1 else if n <? 2 ^ 16 then 2 else if n <? 2 ^ 24 then 3 else 4.

Definition ber_length (n : Z) : list Z :=
  if n <? 128 then [n]
  else 128 + Z.of_nat (length_size n) :: be_bytes (length_size n) n.

Definition zlen (l : list Z) : Z := Z.of_nat (length l).

Definition ber_tlv (tag : Z) (contents : list Z) : list Z :=
  tag :: ber_length (zlen contents) ++ contents.

(** ** Integers *)

(** [z] fits in [n] octets of two's complement. *)
Definition fits (n : nat) (z : Z) : bool :=
  (- 2 ^ (8 * Z.of_nat n - 1) <=? z) && (z <? 2 ^ (8 * Z.of_nat n - 1)).

(** The first of [n], [n+1], ... (at most [fuel] steps) in which [z] fits. *)
Fixpoint size_from (fuel n : nat) (z : Z) : nat :=
  match fuel with
  | O => n
  | S fuel => if fits n z then n else size_from fuel (S n) z
  end.

(** Fewest octets of two's complement; nine are enough for every signed or
    unsigned 64-bit value. *)
Definition int_size (z : Z) : nat := size_from 8 1 z.

Definition int_contents (z : Z) : list Z := be_bytes (int_size z) z.

Definition ber_int (tag z : Z) : list Z := ber_tlv tag (int_contents z).

(** ** Strings and null *)
Definition ber_string (tag : Z) (s : list Z) : list Z := ber_tlv tag s.
Definition ber_null (tag : Z) : list Z := ber_tlv tag [].

(** ** Object identifiers *)

(** Base-128 digits of [z], most significant first, the continuation bit set
    on all but the last; five digits cover 32 bits. *)
Fixpoint arc_high (fuel : nat) (z : Z) (acc : list Z) : list Z :=
  match fuel with
  | O => acc
  | S fuel => if z =? 0 then acc else arc_high fuel (z / 128) (128 + z mod 128 :: acc)
  end.

Definition ber_arc (z : Z) : list Z := arc_high 4 (z / 128) [z mod 128].

(** The first two arcs share one subidentifier. *)
Definition oid_subids (o : list Z) : list Z :=
  match o with
  | x :: y :: rest => x * 40 + y :: rest
  | _ => []
  end.

Definition oid_contents (o : list Z) : list Z := concat (ber_arc <$> oid_subids o).
Definition ber_oid (tag : Z) (o : list Z) : list Z := ber_tlv tag (oid_contents o).

#[global] Arguments ber_length : simpl never.
#[global] Arguments ber_tlv : simpl never.
#[global] Arguments ber_int : simpl never.
#[global] Arguments ber_string : simpl never.
#[global] Arguments ber_null : simpl never.
#[global] Arguments ber_oid : simpl never.
#[global] Arguments ber_arc : simpl never.
#[global] Arguments zlen : simpl never.

(** ** Facts *)

Lemma Z_to_nat_zlen l : Z.to_nat (zlen l) = length l.
Proof. unfold zlen. lia. Qed.

Lemma zlen_app l1 l2 : zlen (l1 ++ l2) = zlen l1 + zlen l2.
Proof. unfold zlen. rewrite length_app. lia. Qed.

Lemma zlen_cons b l : zlen (b :: l) = 1 + zlen l.
Proof. unfold zlen. simpl length. lia. Qed.

Lemma zlen_nil : zlen [] = 0.
Proof. done. Qed.

Lemma zlen_nonneg l : 0 ≤ zlen l.
Proof. unfold zlen. lia. Qed.

Lemma zlen_be_bytes n z : zlen (be_bytes n z) = Z.of_nat n.
Proof. unfold zlen. by rewrite length_be_bytes. Qed.

Lemma zlen_ber_length n :
  zlen (ber_length n) = if n <? 128 then 1 else 1 + Z.of_nat (length_size n).
Proof.
  unfold ber_length. destruct (n <? 128); [done|].
  by rewrite zlen_cons, zlen_be_bytes.
Qed.

Lemma length_size_spec n :
  0 ≤ n < 2 ^ 32 → 0 ≤ n < 256 ^ Z.of_nat (length_size n) ∧ (1 ≤ length_size n ≤ 4)%nat.
Proof.
  intros. unfold length_size.
  repeat match goal with |- context [?a <? ?b] => destruct (Z.ltb_spec a b) end;
    simpl; lia.
Qed.

Lemma ber_length_bytes n : 0 ≤ n → Forall is_byte (ber_length n).
Proof.
  intros. unfold ber_length. destruct (Z.ltb_spec n 128).
  - constructor; [unfold is_byte; lia|constructor].
  - constructor; [|apply be_bytes_ok].
    unfold is_byte, length_size.
    repeat match goal with |- context [?a <? ?b] => destruct (a <? b) end; lia.
Qed.

Lemma zlen_ber_tlv tag c : zlen (ber_tlv tag c) = 1 + zlen (ber_length (zlen c)) + zlen c.
Proof. unfold ber_tlv. rewrite zlen_cons, zlen_app. lia. Qed.

Lemma fits_spec n z :
  fits n z = true ↔ - 2 ^ (8 * Z.of_nat n - 1) ≤ z < 2 ^ (8 * Z.of_nat n - 1).
Proof. unfold fits. lia. Qed.

Lemma fits_le n m z : (1 ≤ n ≤ m)%nat → fits n z = true → fits m z = true.
Proof.
  rewrite !fits_spec. intros.
  assert (2 ^ (8 * Z.of_nat n - 1) ≤ 2 ^ (8 * Z.of_nat m - 1)); [|lia].
  apply Z.pow_le_mono_r; lia.
Qed.

Lemma size_from_fits fuel n z :
  fits (n + fuel) z = true → fits (size_from fuel n z) z = true.
Proof.
  revert n. induction fuel as [|fuel IH]; intros n H; simpl.
  - by rewrite Nat.add_0_r in H.
  - destruct (fits n z) eqn:E; [done|]. apply IH. by rewrite Nat.add_succ_comm.
Qed.

Lemma size_from_least fuel n m z :
  (n ≤ m < size_from fuel n z)%nat → fits m z = false.
Proof.
  revert n. induction fuel as [|fuel IH]; intros n H; simpl in H; [lia|].
  destruct (fits n z) eqn:E; [lia|].
  destruct (decide (m = n)) as [->|]; [done|]. apply (IH (S n)). lia.
Qed.

Lemma size_from_bounds fuel n z : (n ≤ size_from fuel n z ≤ n + fuel)%nat.
Proof.
  revert n. induction fuel as [|fuel IH]; intros n; simpl; [lia|].
  destruct (fits n z); [lia|]. specialize (IH (S n)). lia.
Qed.

Lemma int_size_bounds z : (1 ≤ int_size z ≤ 9)%nat.
Proof. apply (size_from_bounds 8 1). Qed.

Lemma int_size_fits z : fits 9 z = true → fits (int_size z) z = true.
Proof. apply (size_from_fits 8 1). Qed.

(** The size is the only one that fits and has no smaller fitting size. *)
Lemma int_size_unique n z :
  (1 ≤ n ≤ 9)%nat → fits n z = true → (n = 1%nat ∨ fits (n - 1) z = false) →
  int_size z = n.
Proof.
  intros Hn Hf Hl.
  assert (fits (int_size z) z = true) as Hs.
  { apply int_size_fits. eapply fits_le; [|exact Hf]; lia. }
  destruct (Nat.lt_trichotomy (int_size z) n) as [?|[?|?]]; [|done|].
  - destruct Hl as [->|Hl]; [pose proof (int_size_bounds z); lia|].
    assert (fits (n - 1) z = true); [|congruence].
    eapply fits_le; [|exact Hs]. pose proof (int_size_bounds z). lia.
  - assert (fits n z = false); [|congruence].
    apply (size_from_least 8 1). fold (int_size z). lia.
Qed.

Lemma int_size_le n z : (1 ≤ n)%nat → fits n z = true → (int_size z ≤ n)%nat.
Proof.
  intros ? Hf. destruct (Nat.le_gt_cases (int_size z) n) as [?|?]; [done|].
  assert (fits n z = false); [|congruence].
  apply (size_from_least 8 1). fold (int_size z). lia.
Qed.

Lemma length_int_contents z : length (int_contents z) = int_size z.
Proof. apply length_be_bytes. Qed.

Lemma zlen_ber_int tag z : zlen (ber_int tag z) = 2 + Z.of_nat (int_size z).
Proof.
  unfold ber_int. rewrite zlen_ber_tlv, zlen_ber_length.
  unfold zlen. rewrite length_int_contents.
  pose proof (int_size_bounds z). destruct (Z.ltb_spec (Z.of_nat (int_size z)) 128); lia.
Qed.

#[export] Hint Resolve zlen_nonneg ber_length_bytes : snmp.
#[export] Hint Rewrite zlen_app zlen_cons zlen_nil zlen_be_bytes zlen_ber_tlv : snmp.
