(* ===== verification/Asn1.v ===== *)
(** * BER headers: identifiers, lengths and the shared checks of asn1.c

    Models the length and header routines of
    src/pkg/net-snmp-5.5/snmplib/asn1.c for the configuration recorded in
    include/net-snmp/net-snmp-config.h: [SIZEOF_LONG] is 4, so [long],
    [u_long], [size_t] and pointers are 32 bits wide and the
    [CHECK_OVERFLOW_*] macros are empty; the opaque special types are on.

    A parse routine takes the buffer, the index of [data] in it and the value
    of [*datalength]; a build routine also returns the written buffer.
    A [NULL] result is [Err]. *)

From S2P Require Import Prelude Ber.
From stdpp Require Import prelude numbers list.
From Stdlib Require Import ZArith Lia.
Open Scope Z_scope.

(** ** Constants of asn1.h and snmp_impl.h *)
Definition ASN_BOOLEAN : Z := 0x01.
Definition ASN_INTEGER : Z := 0x02.
Definition ASN_BIT_STR : Z := 0x03.
Definition ASN_OCTET_STR : Z := 0x04.
Definition ASN_NULL : Z := 0x05.
Definition ASN_OBJECT_ID : Z := 0x06.
Definition ASN_SEQUENCE : Z := 0x10.
Definition ASN_APPLICATION : Z := 0x40.
Definition ASN_CONTEXT : Z := 0x80.
Definition ASN_CONSTRUCTOR : Z := 0x20.
Definition ASN_LONG_LEN : Z := 0x80.
Definition ASN_EXTENSION_ID : Z := 0x1F.
Definition ASN_BIT8 : Z := 0x80.
Definition ASN_IPADDRESS : Z := Z.lor ASN_APPLICATION 0.
Definition ASN_COUNTER : Z := Z.lor ASN_APPLICATION 1.
Definition ASN_GAUGE : Z := Z.lor ASN_APPLICATION 2.
Definition ASN_TIMETICKS : Z := Z.lor ASN_APPLICATION 3.
Definition ASN_OPAQUE : Z := Z.lor ASN_APPLICATION 4.
Definition ASN_NSAP : Z := Z.lor ASN_APPLICATION 5.
Definition ASN_COUNTER64 : Z := Z.lor ASN_APPLICATION 6.
Definition ASN_UINTEGER : Z := Z.lor ASN_APPLICATION 7.
Definition ASN_OPAQUE_TAG1 : Z := Z.lor ASN_CONTEXT ASN_EXTENSION_ID.
Definition ASN_OPAQUE_TAG2 : Z := 0x30.
Definition ASN_OPAQUE_COUNTER64 : Z := ASN_OPAQUE_TAG2 + Z.lor ASN_APPLICATION 6.
Definition ASN_OPAQUE_FLOAT : Z := ASN_OPAQUE_TAG2 + Z.lor ASN_APPLICATION 8.
Definition ASN_OPAQUE_DOUBLE : Z := ASN_OPAQUE_TAG2 + Z.lor ASN_APPLICATION 9.
Definition ASN_OPAQUE_I64 : Z := ASN_OPAQUE_TAG2 + Z.lor ASN_APPLICATION 10.
Definition ASN_OPAQUE_U64 : Z := ASN_OPAQUE_TAG2 + Z.lor ASN_APPLICATION 11.
Definition ASN_OPAQUE_COUNTER64_MX_BER_LEN : Z := 12.
Definition ASN_OPAQUE_FLOAT_BER_LEN : Z := 7.
Definition ASN_OPAQUE_DOUBLE_BER_LEN : Z := 11.
Definition SIZEOF_LONG : Z := 4.
Definition MAX_OID_LEN : Z := 128.

Definition IS_EXTENSION_ID (byte : Z) : bool :=
  Z.land byte ASN_EXTENSION_ID =? ASN_EXTENSION_ID.

(** ** Lengths *)

(** [while (lengthbyte--) { *length <<= 8; *length |= *data++; }] *)
Fixpoint parse_length_loop (buf : list Z) (lengthbyte : nat) (data : nat)
    (length : Z) : M (nat * Z) :=
  match lengthbyte with
  | O => Ok (data, length)
  | S lengthbyte =>
      b ← rd buf data;
      parse_length_loop buf lengthbyte (S data) (u32 (Z.lor (u32 (Z.shiftl length 8)) b))
  end.

(** The result is the returned pointer ([None] for [NULL]) and what was stored
    in [*length] ([None] when nothing was). *)
Definition asn_parse_length (buf : list Z) (data : option nat)
    : M (option nat * option Z) :=
  match data with
  | None => Ok (None, None)
  | Some data =>
      lengthbyte ← rd buf data;
      if negb (Z.land lengthbyte ASN_LONG_LEN =? 0) then
        let lengthbyte := Z.land lengthbyte (Z.lnot ASN_LONG_LEN) in
        if lengthbyte =? 0 then Ok (None, None)
        else if SIZEOF_LONG <? lengthbyte then Ok (None, None)
        else
          '(data, length) ← parse_length_loop buf (Z.to_nat lengthbyte) (S data) 0;
          if s32 length <? 0 then Ok (None, Some length)
          else Ok (Some data, Some length)
      else Ok (Some (S data), Some lengthbyte)
  end.

(** [true] is the C result 1: an error. *)
Definition _asn_parse_length_check (bufp : option nat) (data : nat) (plen dlen : Z)
    : bool :=
  match bufp with
  | None => true
  | Some bufp =>
      let header_len := u32 (Z.of_nat bufp - Z.of_nat data) in
      (0x7fffffff <? plen) || (0x7fffffff <? header_len)
      || (dlen <? u32 (plen + header_len))
  end.

(** The pair of calls every parse routine opens with: [asn_parse_length] at [p]
    and [_asn_parse_length_check] against the object's start [data]. *)
Definition parse_length_checked (buf : list Z) (data p : nat) (datalength : Z)
    : M (nat * Z) :=
  '(bufp, len) ← asn_parse_length buf (Some p);
  let asn_length := default 0 len in
  if _asn_parse_length_check bufp data asn_length datalength then Err
  else match bufp with Some bufp => Ok (bufp, asn_length) | None => Err end.

(** Build routines return the buffer, the advanced pointer and [*datalength]. *)
Definition asn_build_length (buf : list Z) (data : nat) (datalength length : Z)
    : M (list Z * nat * Z) :=
  if length <? 0x80 then
    if datalength <? 1 then Err
    else
      buf ← wr buf data (u8 length);
      Ok (buf, (data + 1)%nat, u32 (datalength - 1))
  else if length <=? 0xFF then
    if datalength <? 2 then Err
    else
      buf ← wr buf data (u8 (Z.lor 0x01 ASN_LONG_LEN));
      buf ← wr buf (data + 1) (u8 length);
      Ok (buf, (data + 2)%nat, u32 (datalength - 2))
  else
    if datalength <? 3 then Err
    else
      buf ← wr buf data (u8 (Z.lor 0x02 ASN_LONG_LEN));
      buf ← wr buf (data + 1) (u8 (Z.land (Z.shiftr length 8) 0xFF));
      buf ← wr buf (data + 2) (u8 (Z.land length 0xFF));
      Ok (buf, (data + 3)%nat, u32 (datalength - 3)).

Definition asn_build_header (buf : list Z) (data : nat) (datalength type length : Z)
    : M (list Z * nat * Z) :=
  if datalength <? 1 then Err
  else
    buf ← wr buf data type;
    asn_build_length buf (S data) (u32 (datalength - 1)) length.

(** [true] is the C result 1; [data] cannot be [NULL] here, since a [NULL] from
    [asn_build_header] is the [Err] outcome. *)
Definition _asn_build_header_check (datalen typedlen : Z) : bool :=
  datalen <? typedlen.

(** [asn_build_header] followed by [_asn_build_header_check], as every build
    routine calls them. *)
Definition build_header_checked (buf : list Z) (data : nat)
    (datalength type length : Z) : M (list Z * nat * Z) :=
  '(buf, data, datalength) ← asn_build_header buf data datalength type length;
  if _asn_build_header_check datalength length then Err
  else Ok (buf, data, datalength).

Definition asn_build_sequence (buf : list Z) (data : nat) (datalength type length : Z)
    : M (list Z * nat * Z) :=
  if datalength <? 4 then Err
  else
    buf ← wr buf data type;
    buf ← wr buf (data + 1) (u8 (Z.lor 0x02 ASN_LONG_LEN));
    buf ← wr buf (data + 2) (u8 (Z.land (Z.shiftr length 8) 0xFF));
    buf ← wr buf (data + 3) (u8 (Z.land length 0xFF));
    Ok (buf, (data + 4)%nat, u32 (datalength - 4)).

(** The five opaque special tags of the [switch] in [asn_parse_header]. *)
Definition is_opaque_special (b : Z) : bool :=
  (b =? ASN_OPAQUE_COUNTER64) || (b =? ASN_OPAQUE_U64) || (b =? ASN_OPAQUE_FLOAT)
  || (b =? ASN_OPAQUE_DOUBLE) || (b =? ASN_OPAQUE_I64).

(** Result: the contents pointer, [*datalength] and [*type].  [data] is [None]
    for [NULL]; the other two pointers are always given. *)
Definition asn_parse_header (buf : list Z) (data : option nat) (datalength : Z)
    : M (nat * Z * Z) :=
  match data with
  | None => Err
  | Some data =>
      id ← rd buf data;
      if IS_EXTENSION_ID id then Err
      else
        '(bufp, asn_length) ← parse_length_checked buf data (data + 1) datalength;
        if id =? ASN_OPAQUE then
          tag1 ← rd buf bufp;
          if tag1 =? ASN_OPAQUE_TAG1 then
            tag2 ← rd buf (bufp + 1);
            if is_opaque_special tag2 then
              '(bufp, asn_length) ← parse_length_checked buf data (bufp + 2) datalength;
              Ok (bufp, asn_length, tag2)
            else Ok (bufp, asn_length, id)
          else Ok (bufp, asn_length, id)
        else Ok (bufp, asn_length, id)
  end.

Definition asn_parse_sequence (buf : list Z) (data : option nat)
    (datalength expected_type : Z) : M (nat * Z * Z) :=
  '(data, datalength, type) ← asn_parse_header buf data datalength;
  if negb (type =? expected_type) then Err else Ok (data, datalength, type).

(** The packet length a stream transport is waiting for: 0 when more bytes are
    needed, -1 for a wrong type.  The result of [asn_parse_length] is not
    examined, so [asn_length] may be used without having been stored. *)
Definition asn_check_packet (pkt : list Z) (len : Z) : M Z :=
  if len <? 2 then Ok 0
  else
    t ← rd pkt 0;
    if negb (t =? Z.lor ASN_SEQUENCE ASN_CONSTRUCTOR) then Ok (-1)
    else
      l ← rd pkt 1;
      if negb (Z.land l 0x80 =? 0) then
        if s32 len <? Z.land l (Z.lnot 0x80) + 2 then Ok 0
        else
          '(_, asn_length) ← asn_parse_length pkt (Some 1%nat);
          match asn_length with
          | Some asn_length => Ok (s32 (asn_length + 2 + Z.land l (Z.lnot 0x80)))
          | None => UB
          end
      else Ok (l + 2).

#[global] Arguments asn_parse_length : simpl never.
#[global] Arguments _asn_parse_length_check : simpl never.
#[global] Arguments parse_length_checked : simpl never.
#[global] Arguments asn_build_length : simpl never.
#[global] Arguments asn_build_header : simpl never.
#[global] Arguments build_header_checked : simpl never.

(** ** Facts about lengths *)

Lemma u32_lor_byte v b :
  is_byte b → 0 ≤ v → v * 256 + b < 2 ^ 32 →
  u32 (Z.lor (u32 (Z.shiftl v 8)) b) = v * 256 + b.
Proof.
  unfold is_byte. intros Hb Hv Hlt.
  rewrite (u32_id (Z.shiftl v 8)) by (rewrite shiftl_mul; lia).
  rewrite lor_shift_low by lia. apply u32_id. lia.
Qed.

Lemma be_val_mono v l : Forall is_byte l → 0 ≤ v → v ≤ be_val v l.
Proof.
  intros Hl Hv. pose proof (be_val_bound v l Hl Hv) as [H _].
  assert (1 ≤ 256 ^ Z.of_nat (length l)); [|nia].
  pose proof (Z.pow_pos_nonneg 256 (Z.of_nat (length l))). lia.
Qed.

Lemma parse_length_loop_spec l pre post v :
  Forall is_byte l → 0 ≤ v → be_val v l < 2 ^ 32 →
  parse_length_loop (pre ++ l ++ post) (length l) (length pre) v
  = Ok ((length pre + length l)%nat, be_val v l).
Proof.
  intros Hl. revert pre v. induction Hl as [|b l Hb Hl IH]; intros pre v Hv Hlt; simpl.
  - rewrite Nat.add_0_r. done.
  - rewrite rd_app_l. simpl.
    assert (0 ≤ v * 256 + b) as Hv' by (unfold is_byte in Hb; lia).
    pose proof (be_val_mono (v * 256 + b) l Hl Hv') as Hm.
    change (be_val v (b :: l)) with (be_val (v * 256 + b) l) in *.
    rewrite u32_lor_byte by (done || lia).
    specialize (IH (pre ++ [b]) (v * 256 + b)).
    rewrite <- app_assoc, length_app, Nat.add_1_r in IH. simpl in IH.
    rewrite IH by done. do 2 f_equal. lia.
Qed.

(** The long form, shortest or not. *)
Lemma asn_parse_length_long k n pre post :
  (1 ≤ k ≤ 4)%nat → 0 ≤ n < 2 ^ 31 → n < 256 ^ Z.of_nat k →
  asn_parse_length (pre ++ (128 + Z.of_nat k :: be_bytes k n) ++ post) (Some (length pre))
  = Ok (Some (length pre + S k)%nat, Some n).
Proof.
  intros Hk Hn Hb. unfold asn_parse_length. cbn [app].
  rewrite rd_app_l. simpl mbind. change ASN_LONG_LEN with 128.
  rewrite land_128, decide_False by (unfold is_byte; lia).
  assert (Z.land (128 + Z.of_nat k) (Z.lnot 128) = Z.of_nat k) as ->.
  { assert (k = 1 ∨ k = 2 ∨ k = 3 ∨ k = 4)%nat as [E|[E|[E|E]]] by lia; by rewrite E. }
  cbn [negb Z.eqb].
  destruct (Z.eqb_spec (Z.of_nat k) 0); [lia|].
  destruct (Z.ltb_spec SIZEOF_LONG (Z.of_nat k)); [unfold SIZEOF_LONG in *; lia|].
  rewrite Nat2Z.id.
  pose proof (parse_length_loop_spec (be_bytes k n) (pre ++ [128 + Z.of_nat k]) post 0) as HL.
  rewrite length_app, length_be_bytes, be_val_be_bytes, <- app_assoc in HL.
  simpl in HL. rewrite Nat.add_1_r in HL. rewrite Z.mod_small, Z.mul_0_l, Z.add_0_l in HL by lia.
  rewrite HL by (auto with snmp; lia). simpl.
  rewrite s32_id by lia. destruct (Z.ltb_spec n 0); [lia|].
  do 3 f_equal. lia.
Qed.

Lemma asn_parse_length_ber n pre post :
  0 ≤ n < 2 ^ 31 →
  asn_parse_length (pre ++ ber_length n ++ post) (Some (length pre))
  = Ok (Some (length pre + length (ber_length n))%nat, Some n).
Proof.
  intros Hn. unfold ber_length. destruct (Z.ltb_spec n 128).
  - unfold asn_parse_length. cbn [app]. rewrite rd_app_l. simpl.
    rewrite land_128, decide_True by (unfold is_byte; lia).
    simpl. rewrite Nat.add_1_r. done.
  - destruct (length_size_spec n) as [Hb Hk]; [lia|].
    rewrite asn_parse_length_long by (done || lia). simpl. by rewrite length_be_bytes.
Qed.

Lemma _asn_parse_length_check_ok bufp data plen dlen :
  (data ≤ bufp)%nat → 0 ≤ plen < 2 ^ 31 → 0 ≤ dlen < 2 ^ 32 →
  Z.of_nat bufp - Z.of_nat data < 2 ^ 31 →
  plen + (Z.of_nat bufp - Z.of_nat data) ≤ dlen →
  _asn_parse_length_check (Some bufp) data plen dlen = false.
Proof.
  intros. unfold _asn_parse_length_check.
  rewrite (u32_id (Z.of_nat bufp - Z.of_nat data)) by lia. rewrite u32_id by lia. lia.
Qed.

Lemma parse_length_checked_ber n pre post data datalength :
  0 ≤ n < 2 ^ 31 → (data ≤ length pre)%nat → (length pre - data ≤ 1000)%nat →
  0 ≤ datalength < 2 ^ 32 →
  Z.of_nat (length pre) - Z.of_nat data + zlen (ber_length n) + n ≤ datalength →
  parse_length_checked (pre ++ ber_length n ++ post) data (length pre) datalength
  = Ok ((length pre + length (ber_length n))%nat, n).
Proof.
  intros Hn Hd Hd' Hdl Hfit. unfold parse_length_checked.
  rewrite asn_parse_length_ber by done. simpl.
  pose proof (zlen_ber_length n) as Hz. unfold zlen in *.
  assert (Z.of_nat (length (ber_length n)) ≤ 5).
  { rewrite Hz. destruct (length_size_spec n); [lia|]. destruct (n <? 128); lia. }
  rewrite _asn_parse_length_check_ok by lia. done.
Qed.

(** What a successful length check guarantees. *)
Lemma parse_length_loop_bounds buf n data length q z :
  parse_length_loop buf n data length = Ok (q, z) →
  q = (data + n)%nat ∧ (0 ≤ length < 2 ^ 32 → 0 ≤ z < 2 ^ 32).
Proof.
  revert data length. induction n as [|n IH]; intros data length H; simpl in H; m_inv.
  - split; [lia|done].
  - destruct (IH _ _ H) as [-> Hr]. split; [lia|]. intros _. apply Hr, u32_range.
Qed.

Lemma s32_nonneg z : 0 ≤ z < 2 ^ 32 → (s32 z <? 0) = false → z < 2 ^ 31.
Proof. unfold s32. intros. Z.div_mod_to_equations. lia. Qed.

Lemma asn_parse_length_bounds buf p q len :
  Forall is_byte buf → asn_parse_length buf (Some p) = Ok (Some q, Some len) →
  (p < q ≤ p + 5)%nat ∧ 0 ≤ len < 2 ^ 31.
Proof.
  intros Hb H. unfold asn_parse_length in H. m_inv.
  - apply parse_length_loop_bounds in Hm0 as [-> Hr]. unfold SIZEOF_LONG in *.
    specialize (Hr ltac:(lia)). pose proof (s32_nonneg len Hr). split; [lia|]. auto with lia.
  - pose proof (rd_byte _ _ _ Hb Hm) as Hbyte. unfold is_byte in Hbyte. lia.
Qed.

(** ** Facts about the header parser's memory accesses *)

Lemma parse_length_loop_defined buf n data length :
  (data + n ≤ List.length buf)%nat → defined (parse_length_loop buf n data length).
Proof.
  revert data length. induction n as [|n IH]; intros data length H; simpl; [done|].
  apply defined_bind; [apply rd_defined; lia|]. intros b _. apply IH. lia.
Qed.

Lemma asn_parse_length_defined buf p :
  (p + 5 ≤ length buf)%nat → defined (asn_parse_length buf (Some p)).
Proof.
  intros H. unfold asn_parse_length. apply defined_bind; [apply rd_defined; lia|].
  intros b _. destruct (negb _); [|done]. destruct (_ =? 0); [done|].
  destruct (Z.ltb_spec SIZEOF_LONG (Z.land b (Z.lnot ASN_LONG_LEN))) as [|Hle]; [done|].
  unfold SIZEOF_LONG in Hle. apply defined_bind.
  - apply parse_length_loop_defined. lia.
  - intros [q len] _. by destruct (_ <? 0).
Qed.

Lemma parse_length_checked_defined buf data p datalength :
  (p + 5 ≤ length buf)%nat → defined (parse_length_checked buf data p datalength).
Proof.
  intros H. apply defined_bind; [by apply asn_parse_length_defined|].
  intros [[q|] len] _; simpl; [by case_match|done].
Qed.

Lemma parse_length_checked_bounds buf data p datalength q len :
  Forall is_byte buf → (data ≤ p)%nat → (p - data ≤ 1000)%nat → datalength < 2 ^ 32 →
  parse_length_checked buf data p datalength = Ok (q, len) →
  (p < q ≤ p + 5)%nat ∧ 0 ≤ len < 2 ^ 31 ∧
  Z.of_nat q - Z.of_nat data + len ≤ datalength.
Proof.
  intros Hb Hp Hp' Hd H. unfold parse_length_checked in H. m_inv.
  destruct o as [q'|]; [|done]. m_inv.
  destruct o0 as [len|].
  - destruct (asn_parse_length_bounds _ _ _ _ Hb Hm) as [? ?].
    simpl in *. split_and!; [lia..|].
    unfold _asn_parse_length_check in E.
    rewrite (u32_id (Z.of_nat q - Z.of_nat data)) in E by lia.
    rewrite u32_id in E by lia. lia.
  - exfalso. unfold asn_parse_length in Hm. m_inv.
Qed.

(** ** The contract of an encoder

    [put enc] appends the bytes [enc] at [data] when [datalength] leaves room
    for all of them and is an error otherwise. *)
Definition put (enc : list Z) (buf : list Z) (data : nat) (datalength : Z)
    : M (list Z * nat * Z) :=
  if datalength <? zlen enc then Err
  else
    buf ← wr_list buf data enc;
    Ok (buf, (data + length enc)%nat, datalength - zlen enc).

(** A build routine meets the contract when it is [put enc] on every output
    buffer that really has [datalength] bytes at [data]. *)
Class Encodes (f : list Z → nat → Z → M (list Z * nat * Z)) (enc : list Z) : Prop :=
  encodes buf data datalength :
    0 ≤ datalength < 2 ^ 32 → (data + Z.to_nat datalength ≤ length buf)%nat →
    f buf data datalength = put enc buf data datalength.

Lemma put_app enc pre old post datalength :
  length old = length enc → zlen enc ≤ datalength →
  put enc (pre ++ old ++ post) (length pre) datalength
  = Ok (pre ++ enc ++ post, (length pre + length enc)%nat, datalength - zlen enc).
Proof.
  intros Hl Hd. unfold put. destruct (Z.ltb_spec datalength (zlen enc)); [lia|].
  by rewrite wr_list_app by done.
Qed.

Lemma put_small enc buf data datalength :
  datalength < zlen enc → put enc buf data datalength = Err.
Proof. intros. unfold put. by destruct (Z.ltb_spec datalength (zlen enc)); [|lia]. Qed.

Lemma put_ok enc buf data datalength :
  zlen enc ≤ datalength → (data + Z.to_nat datalength ≤ length buf)%nat →
  ∃ buf', put enc buf data datalength
    = Ok (buf', (data + length enc)%nat, datalength - zlen enc) ∧
    wr_list buf data enc = Ok buf' ∧ length buf' = length buf.
Proof.
  intros Hd Hb. unfold put, zlen in *.
  destruct (Z.ltb_spec datalength (Z.of_nat (length enc))); [lia|].
  destruct (wr_list_ok buf data enc) as (buf' & Hw & Hl); [lia|].
  exists buf'. by rewrite Hw.
Qed.

(** Encoders compose: one after the other encodes the concatenation. *)
Lemma put_cat e1 e2 buf data datalength :
  0 ≤ datalength → (data + Z.to_nat datalength ≤ length buf)%nat →
  ('(buf, data, datalength) ← put e1 buf data datalength; put e2 buf data datalength)
  = put (e1 ++ e2) buf data datalength.
Proof.
  intros Hd Hb. destruct (Z.lt_ge_cases datalength (zlen e1)) as [Hlt|Hge].
  - rewrite !put_small; [done|rewrite zlen_app; pose proof (zlen_nonneg e2); lia|lia].
  - destruct (put_ok e1 buf data datalength Hge Hb) as (buf' & -> & Hw & Hl). simpl.
    unfold put at 1 2. rewrite zlen_app.
    destruct (Z.ltb_spec (datalength - zlen e1) (zlen e2)),
      (Z.ltb_spec datalength (zlen e1 + zlen e2)); try lia; [done|].
    rewrite wr_list_cat, Hw. simpl.
    destruct (wr_list buf' _ e2); simpl; [|done..].
    rewrite length_app. do 2 f_equal; [f_equal|]; lia.
Qed.

Lemma Encodes_seq f g e1 e2 :
  Encodes f e1 → Encodes g e2 →
  Encodes (λ buf data datalength,
    '(buf, data, datalength) ← f buf data datalength; g buf data datalength) (e1 ++ e2).
Proof.
  intros Hf Hg buf data datalength Hd Hb.
  rewrite Hf by done. rewrite <- put_cat by (done || lia).
  destruct (Z.lt_ge_cases datalength (zlen e1)) as [Hlt|Hge]; [by rewrite put_small|].
  destruct (put_ok e1 buf data datalength Hge Hb) as (buf' & -> & Hw & Hl). simpl.
  pose proof (zlen_nonneg e1). unfold zlen in *. apply Hg; lia.
Qed.

(** ** The header encoders meet the contract *)

Lemma put_unfold enc buf data datalength :
  0 ≤ datalength < 2 ^ 32 → zlen enc ≤ datalength →
  put enc buf data datalength =
  (buf ← wr_list buf data enc;
   Ok (buf, (data + length enc)%nat, u32 (datalength - zlen enc))).
Proof.
  intros. unfold put. pose proof (zlen_nonneg enc).
  destruct (Z.ltb_spec datalength (zlen enc)); [lia|]. by rewrite u32_id by lia.
Qed.

Lemma be_bytes_2 n : 0 ≤ n < 2 ^ 16 → be_bytes 2 n = [n / 256; n mod 256].
Proof.
  intros. simpl. rewrite Z.div_1_r. f_equal.
  rewrite Z.mod_small by (Z.div_mod_to_equations; lia). done.
Qed.

Lemma asn_build_length_encodes n :
  0 ≤ n < 2 ^ 16 →
  Encodes (λ buf data datalength, asn_build_length buf data datalength n) (ber_length n).
Proof.
  intros Hn buf data datalength Hd _.
  unfold asn_build_length, ber_length, length_size.
  destruct (Z.ltb_spec n 0x80).
  { destruct (Z.ltb_spec datalength 1); [by rewrite put_small|].
    rewrite put_unfold by done. simpl.
    rewrite u8_id by (unfold is_byte; lia). wr_cases. }
  destruct (Z.leb_spec n 0xFF), (Z.ltb_spec n (2 ^ 8)); try lia.
  { destruct (Z.ltb_spec datalength 2); [by rewrite put_small|].
    rewrite put_unfold by done. simpl. rewrite Z.div_1_r, Nat.add_1_r.
    change (n mod 256) with (u8 n). change (u8 (Z.lor 1 ASN_LONG_LEN)) with 129.
    change (128 + Z.of_nat 1) with 129. wr_cases. }
  destruct (Z.ltb_spec n (2 ^ 16)); [|lia].
  destruct (Z.ltb_spec datalength 3); [by rewrite put_small|].
  rewrite put_unfold by done. rewrite be_bytes_2 by done. simpl.
  change 255 with (2 ^ 8 - 1). rewrite !land_ones_mod, shiftr_div by lia.
  change (2 ^ 8) with 256.
  rewrite (Z.mod_small (n / 256)) by (Z.div_mod_to_equations; lia).
  rewrite !u8_id by (unfold is_byte; Z.div_mod_to_equations; lia).
  replace (data + 1)%nat with (S data) by lia.
  replace (data + 2)%nat with (S (S data)) by lia.
  change (u8 (Z.lor 2 ASN_LONG_LEN)) with 130. change (128 + Z.of_nat 2) with 130.
  wr_cases.
Qed.

Lemma cons_cat {A} (x : A) l : x :: l = [x] ++ l.
Proof. done. Qed.

Lemma asn_build_header_encodes tag n :
  0 ≤ n < 2 ^ 16 →
  Encodes (λ buf data datalength, asn_build_header buf data datalength tag n)
    (tag :: ber_length n).
Proof.
  intros Hn buf data datalength Hd Hb. unfold asn_build_header.
  rewrite (cons_cat tag), <- put_cat by (done || lia).
  destruct (Z.ltb_spec datalength 1); [by rewrite put_small|].
  rewrite put_unfold by done. simpl.
  unfold wr. rewrite decide_True by lia. simpl.
  rewrite Nat.add_1_r. change (zlen [tag]) with 1. rewrite u32_id by lia.
  apply asn_build_length_encodes; [done|lia|]. rewrite length_insert. lia.
Qed.

(** Header, check, contents: the shape of every primitive encoder. *)
Lemma build_tlv_put tag c buf data datalength :
  zlen c < 2 ^ 16 → 0 ≤ datalength < 2 ^ 32 →
  (data + Z.to_nat datalength ≤ length buf)%nat →
  ('(buf, data, datalength) ← build_header_checked buf data datalength tag (zlen c);
   buf ← wr_list buf data c;
   Ok (buf, (data + length c)%nat, u32 (datalength - zlen c)))
  = put (ber_tlv tag c) buf data datalength.
Proof.
  intros Hc Hd Hb. pose proof (zlen_nonneg c). unfold build_header_checked, ber_tlv.
  rewrite asn_build_header_encodes by (done || lia).
  change (tag :: ber_length (zlen c) ++ c) with ((tag :: ber_length (zlen c)) ++ c).
  set (h := tag :: ber_length (zlen c)). pose proof (zlen_nonneg h).
  rewrite <- put_cat by (done || lia).
  destruct (Z.lt_ge_cases datalength (zlen h)) as [Hlt|Hge]; [by rewrite put_small|].
  destruct (put_ok h buf data datalength Hge Hb) as (buf' & -> & Hw & Hl). simpl.
  unfold _asn_build_header_check.
  destruct (Z.ltb_spec (datalength - zlen h) (zlen c)); [by rewrite put_small|].
  rewrite put_unfold by lia. done.
Qed.

Lemma asn_build_sequence_put tag n buf data datalength :
  0 ≤ n < 2 ^ 16 → 0 ≤ datalength < 2 ^ 32 →
  asn_build_sequence buf data datalength tag n
  = put (tag :: 0x82 :: be_bytes 2 n) buf data datalength.
Proof.
  intros Hn Hd. unfold asn_build_sequence.
  rewrite be_bytes_2 by done.
  destruct (Z.ltb_spec datalength 4); [by rewrite put_small|].
  rewrite put_unfold by done. simpl.
  change 255 with (2 ^ 8 - 1). rewrite !land_ones_mod, shiftr_div by lia.
  change (2 ^ 8) with 256.
  rewrite (Z.mod_small (n / 256)) by (Z.div_mod_to_equations; lia).
  rewrite !u8_id by (unfold is_byte; Z.div_mod_to_equations; lia).
  replace (data + 1)%nat with (S data) by lia.
  replace (data + 2)%nat with (S (S data)) by lia.
  replace (data + 3)%nat with (S (S (S data))) by lia.
  change (u8 (Z.lor 2 ASN_LONG_LEN)) with 130. wr_cases.
Qed.

Lemma asn_build_sequence_encodes tag n :
  0 ≤ n < 2 ^ 16 →
  Encodes (λ buf data datalength, asn_build_sequence buf data datalength tag n)
    (tag :: 0x82 :: be_bytes 2 n).
Proof. intros Hn buf data datalength Hd _. by apply asn_build_sequence_put. Qed.

(** ** The contract of a decoder

    On a buffer holding the encoding [enc], the decoder returns the position
    after it, the bytes left, the tag and the value. *)
Class Decodes {A} (f : list Z → nat → Z → M (nat * Z * Z * A)) (tag : Z)
    (enc : list Z) (v : A) : Prop :=
  decodes pre post datalength :
    zlen enc ≤ datalength < 2 ^ 32 →
    f (pre ++ enc ++ post) (length pre) datalength
    = Ok ((length pre + length enc)%nat, datalength - zlen enc, tag, v).

(** The identifier and length octets in front of [c]. *)
Definition tlv_head (tag : Z) (c : list Z) : list Z := tag :: ber_length (zlen c).

Lemma ber_tlv_split tag c pre post :
  pre ++ ber_tlv tag c ++ post = (pre ++ tlv_head tag c) ++ c ++ post.
Proof. unfold ber_tlv, tlv_head. rewrite <- !app_assoc. simpl. by rewrite <- app_assoc. Qed.

Lemma length_ber_tlv tag c : length (ber_tlv tag c) = (length (tlv_head tag c) + length c)%nat.
Proof. unfold ber_tlv, tlv_head. simpl. by rewrite length_app. Qed.

(** How every decoder opens a tag-length-value triple. *)
Lemma open_tlv tag c pre post datalength :
  zlen c < 2 ^ 31 → zlen (ber_tlv tag c) ≤ datalength < 2 ^ 32 →
  rd (pre ++ ber_tlv tag c ++ post) (length pre) = Ok tag ∧
  parse_length_checked (pre ++ ber_tlv tag c ++ post) (length pre) (length pre + 1) datalength
  = Ok (length (pre ++ tlv_head tag c), zlen c).
Proof.
  intros Hc Hd. pose proof (zlen_nonneg c). split; [apply rd_app_l|].
  unfold ber_tlv at 1. simpl. rewrite <- app_assoc.
  change (pre ++ tag :: ?l) with (pre ++ [tag] ++ l).
  rewrite (app_assoc pre [tag]).
  replace (length pre + 1)%nat with (length (pre ++ [tag])) by (rewrite length_app; done).
  rewrite zlen_ber_tlv in Hd. pose proof (zlen_nonneg (ber_length (zlen c))).
  rewrite parse_length_checked_ber; rewrite ?length_app; simpl length; [|lia..].
  do 2 f_equal. lia.
Qed.

(** [*datalength -= (int) asn_length + (bufp - data)] for such a triple. *)
Lemma tlv_datalength tag c pre datalength :
  zlen (ber_tlv tag c) ≤ datalength < 2 ^ 32 →
  u32 (datalength - (zlen c + (Z.of_nat (length (pre ++ tlv_head tag c))
                               - Z.of_nat (length pre))))
  = datalength - zlen (ber_tlv tag c).
Proof.
  intros Hd. pose proof (zlen_nonneg (ber_tlv tag c)).
  rewrite length_app. unfold zlen in *. rewrite length_ber_tlv in *.
  rewrite u32_id; lia.
Qed.

(** An encoder and a decoder of the same encoding undo each other, and the
    bytes around the object are untouched. *)
Definition inverse_at {A} (f : list Z → nat → Z → M (list Z * nat * Z))
    (g : list Z → nat → Z → M (nat * Z * Z * A)) (tag : Z) (v : A) (size : Z)
    (buf : list Z) (data : nat) (datalength : Z) : Prop :=
  if decide (size ≤ datalength) then
    ∃ buf' p, f buf data datalength = Ok (buf', p, datalength - size) ∧
      g buf' data datalength = Ok (p, datalength - size, tag, v) ∧
      Z.of_nat p = Z.of_nat data + size ∧ length buf' = length buf ∧
      take data buf' = take data buf ∧ drop p buf' = drop p buf
  else f buf data datalength = Err.

Lemma encode_decode {A} f g tag enc (v : A) buf data datalength :
  Encodes f enc → Decodes g tag enc v → 0 ≤ datalength < 2 ^ 32 →
  (data + Z.to_nat datalength ≤ length buf)%nat →
  inverse_at f g tag v (zlen enc) buf data datalength.
Proof.
  intros Hf Hg Hd Hb. unfold inverse_at. rewrite Hf by done. case_decide as Hs;
    [|by rewrite put_small by lia].
  destruct (put_ok enc buf data datalength Hs Hb) as (buf' & -> & Hw & Hl).
  exists buf', (data + length enc)%nat. unfold zlen in *.
  rewrite wr_list_eq in Hw by lia. injection Hw as <-.
  assert (length (take data buf) = data) as Ht by (rewrite length_take; lia).
  split_and!; [done| |lia|done|..].
  - pose proof (Hg (take data buf) (drop (data + length enc) buf) datalength) as HH.
    rewrite Ht in HH. apply HH. unfold zlen. lia.
  - by rewrite take_app_length'.
  - rewrite app_assoc, drop_app_length'; [done|]. rewrite length_app. lia.
Qed.
