(* ===== verification/Asn1Int.v ===== *)
(** * INTEGER and unsigned 32-bit types: asn_parse_int, asn_parse_unsigned_int,
    asn_build_int and asn_build_unsigned_int of snmplib/asn1.c

    [long] and [u_long] are 32 bits wide.  A shift of a [long] keeps the low
    32 bits as a two's complement value, as the compilers the library is built
    with do. *)

From S2P Require Import Prelude Ber Asn1.
From stdpp Require Import prelude numbers list.
From Stdlib Require Import ZArith Lia.
Open Scope Z_scope.

(** [while (asn_length--) value = (value << 8) | *bufp++;] where [wrap] is the
    conversion to the type of [value]. *)
Fixpoint parse_int_loop (wrap : Z → Z) (buf : list Z) (asn_length bufp : nat) (value : Z)
    : M (nat * Z) :=
  match asn_length with
  | O => Ok (bufp, value)
  | S asn_length =>
      b ← rd buf bufp;
      parse_int_loop wrap buf asn_length (S bufp) (wrap (Z.lor (Z.shiftl value 8) b))
  end.

(** Results: the next object's position, [*datalength], [*type], [*intp]. *)
Definition asn_parse_int (buf : list Z) (data : nat) (datalength intsize : Z)
    : M (nat * Z * Z * Z) :=
  if negb (intsize =? SIZEOF_LONG) then Err
  else
    type ← rd buf data;
    '(bufp, asn_length) ← parse_length_checked buf data (data + 1) datalength;
    if intsize <? asn_length then Err
    else
      let datalength := u32 (datalength - (asn_length + (Z.of_nat bufp - Z.of_nat data))) in
      b ← rd buf bufp;
      let value := if negb (Z.land b 0x80 =? 0) then -1 else 0 in
      '(bufp, value) ← parse_int_loop s32 buf (Z.to_nat asn_length) bufp value;
      Ok (bufp, datalength, type, value).

Definition asn_parse_unsigned_int (buf : list Z) (data : nat) (datalength intsize : Z)
    : M (nat * Z * Z * Z) :=
  if negb (intsize =? SIZEOF_LONG) then Err
  else
    type ← rd buf data;
    '(bufp, asn_length) ← parse_length_checked buf data (data + 1) datalength;
    if intsize + 1 <? asn_length then Err
    else
      too_long ← (if asn_length =? intsize + 1
                  then b ← rd buf bufp; Ok (negb (b =? 0x00)) else Ok false);
      if too_long : bool then Err
      else
        let datalength := u32 (datalength - (asn_length + (Z.of_nat bufp - Z.of_nat data))) in
        b ← rd buf bufp;
        let value := if negb (Z.land b 0x80 =? 0) then u32 (Z.lnot 0) else 0 in
        '(bufp, value) ← parse_int_loop u32 buf (Z.to_nat asn_length) bufp value;
        Ok (bufp, datalength, type, value).

(** The masks [0x1FF << 23] and [0xFF << 24]. *)
Definition mask9 : Z := u32 (Z.shiftl 0x1FF (8 * (SIZEOF_LONG - 1) - 1)).
Definition mask8 : Z := u32 (Z.shiftl 0xFF (8 * (SIZEOF_LONG - 1))).

(** [while (((integer & mask) == 0 || (integer & mask) == mask) && intsize > 1)
    { intsize--; integer <<= 8; }] *)
Fixpoint trunc_loop (wrap : Z → Z) (intsize : nat) (integer : Z) : nat * Z :=
  match intsize with
  | S (S _ as intsize') =>
      if (Z.land (u32 integer) mask9 =? 0) || (Z.land (u32 integer) mask9 =? mask9)
      then trunc_loop wrap intsize' (wrap (Z.shiftl integer 8))
      else (intsize, integer)
  | _ => (intsize, integer)
  end.

(** [while (intsize--) { *data++ = (u_char) ((integer & mask) >> 24);
    integer <<= 8; }] *)
Fixpoint store_loop (wrap : Z → Z) (intsize : nat) (buf : list Z) (data : nat)
    (integer : Z) : M (list Z * nat) :=
  match intsize with
  | O => Ok (buf, data)
  | S intsize =>
      buf ← wr buf data
        (u8 (Z.shiftr (Z.land (u32 integer) mask8) (8 * (SIZEOF_LONG - 1))));
      store_loop wrap intsize buf (S data) (wrap (Z.shiftl integer 8))
  end.

(** [integer] is [*intp]. *)
Definition asn_build_int (buf : list Z) (data : nat) (datalength type integer intsize : Z)
    : M (list Z * nat * Z) :=
  if negb (intsize =? SIZEOF_LONG) then Err
  else
    let '(intsize, integer) := trunc_loop s32 (Z.to_nat intsize) integer in
    '(buf, data, datalength) ←
      build_header_checked buf data datalength type (Z.of_nat intsize);
    let datalength := u32 (datalength - Z.of_nat intsize) in
    '(buf, data) ← store_loop s32 intsize buf data integer;
    Ok (buf, data, datalength).

Definition asn_build_unsigned_int (buf : list Z) (data : nat)
    (datalength type integer intsize : Z) : M (list Z * nat * Z) :=
  if negb (intsize =? SIZEOF_LONG) then Err
  else
    let msb := u8 (Z.shiftr (Z.land integer mask8) (8 * (SIZEOF_LONG - 1))) in
    let '(add_null_byte, intsize, integer) :=
      if negb (Z.land msb 0x80 =? 0)
      then (true, S (Z.to_nat intsize), integer)
      else let '(intsize, integer) := trunc_loop u32 (Z.to_nat intsize) integer in
           (false, intsize, integer) in
    '(buf, data, datalength) ←
      build_header_checked buf data datalength type (Z.of_nat intsize);
    let datalength := u32 (datalength - Z.of_nat intsize) in
    '(buf, data, intsize) ←
      (if add_null_byte : bool
       then buf ← wr buf data 0; Ok (buf, S data, Nat.pred intsize)
       else Ok (buf, data, intsize));
    '(buf, data) ← store_loop u32 intsize buf data integer;
    Ok (buf, data, datalength).

(** ** Decoding *)

(** [wrap] reduces modulo 2^32 to a range of representatives. *)
Class Wraps (wrap : Z → Z) : Prop := {
  wraps_cong z z' : u32 z = u32 z' → wrap z = wrap z';
  wraps_u32 z : u32 (wrap z) = u32 z;
}.

#[global] Instance s32_wraps : Wraps s32.
Proof. split; [apply s32_cong|apply u32_s32]. Qed.

#[global] Instance u32_wraps : Wraps u32.
Proof. split; [done|]. intros. apply Z.mod_mod. lia. Qed.

Lemma u32_mul_add v v' k b : u32 v = u32 v' → u32 (v * k + b) = u32 (v' * k + b).
Proof.
  unfold u32. intros H.
  rewrite <- (Z.add_mod_idemp_l (v * k)), <- (Z.mul_mod_idemp_l v), H by lia.
  by rewrite Z.mul_mod_idemp_l, Z.add_mod_idemp_l by lia.
Qed.

Section Loop.
Context (wrap : Z → Z) `{!Wraps wrap}.

Lemma wrap_step v b :
  is_byte b → wrap (Z.lor (Z.shiftl (wrap v) 8) b) = wrap (v * 256 + b).
Proof.
  unfold is_byte. intros. rewrite lor_shift_low by lia. apply wraps_cong.
  apply u32_mul_add, wraps_u32.
Qed.

Lemma parse_int_loop_spec l pre post v :
  Forall is_byte l →
  parse_int_loop wrap (pre ++ l ++ post) (length l) (length pre) (wrap v)
  = Ok ((length pre + length l)%nat, wrap (be_val v l)).
Proof.
  intros Hl. revert pre v. induction Hl as [|b l Hb Hl IH]; intros pre v; simpl.
  - by rewrite Nat.add_0_r.
  - rewrite rd_app_l. simpl. rewrite wrap_step by done.
    specialize (IH (pre ++ [b]) (v * 256 + b)).
    rewrite <- app_assoc, length_app, Nat.add_1_r in IH. simpl in IH. rewrite IH.
    do 2 f_equal. lia.
Qed.

Lemma parse_int_loop_defined buf n p v :
  (p + n ≤ length buf)%nat → defined (parse_int_loop wrap buf n p v).
Proof.
  revert p v. induction n as [|n IH]; intros p v H; simpl; [done|].
  apply defined_bind; [apply rd_defined; lia|]. intros b _. apply IH. lia.
Qed.
End Loop.

(** The leading octet carries the sign. *)
Lemma be_bytes_sign n z b l :
  fits n z = true → be_bytes n z = b :: l → (Z.land b 0x80 =? 0) = (0 <=? z).
Proof.
  intros Hf%fits_spec Hb. destruct n as [|n]; simpl in Hb; [done|].
  injection Hb as <- <-.
  replace (8 * Z.of_nat (S n) - 1) with (7 + 8 * Z.of_nat n) in Hf by lia.
  rewrite Z.pow_add_r, Z.pow_mul_r in Hf by lia. change (2 ^ 8) with 256 in Hf.
  set (P := 256 ^ Z.of_nat n) in *. assert (0 < P) by (apply Z.pow_pos_nonneg; lia).
  assert (-128 ≤ z / P < 128).
  { split; [apply Z.div_le_lower_bound|apply Z.div_lt_upper_bound]; lia. }
  rewrite land_128 by (apply Z.mod_pos_bound; lia).
  destruct (Z.leb_spec 0 z).
  - assert (0 ≤ z / P) by (apply Z.div_pos; lia).
    rewrite Z.mod_small, decide_True by lia. done.
  - assert (z / P < 0) by (apply Z.div_lt_upper_bound; lia).
    rewrite decide_False; [done|]. Z.div_mod_to_equations. lia.
Qed.

Lemma be_val_signed n z :
  (1 ≤ n)%nat → fits n z = true → be_val (if 0 <=? z then 0 else -1) (be_bytes n z) = z.
Proof.
  intros Hn Hf%fits_spec. rewrite be_val_be_bytes.
  replace (8 * Z.of_nat n - 1) with (7 + 8 * (Z.of_nat n - 1)) in Hf by lia.
  rewrite Z.pow_add_r, Z.pow_mul_r in Hf by lia. change (2 ^ 8) with 256 in Hf.
  replace (Z.of_nat n) with (Z.succ (Z.of_nat n - 1)) by lia.
  rewrite Z.pow_succ_r by lia.
  set (P := 256 ^ (Z.of_nat n - 1)) in *. assert (0 < P) by (apply Z.pow_pos_nonneg; lia).
  destruct (Z.leb_spec 0 z).
  - rewrite Z.mod_small; lia.
  - rewrite <- (Z.mod_unique z (256 * P) (-1) (z + 256 * P)); lia.
Qed.

Lemma int_contents_cons z :
  ∃ b l, int_contents z = b :: l.
Proof.
  pose proof (int_size_bounds z). unfold int_contents.
  destruct (int_size z); [lia|]. simpl. eauto.
Qed.

Lemma fits_4 z : fits 4 z = true ↔ - 2 ^ 31 ≤ z < 2 ^ 31.
Proof. apply (fits_spec 4). Qed.

Lemma fits_5 z : 0 ≤ z < 2 ^ 32 → fits 5 z = true.
Proof. intros. apply fits_spec. change (8 * Z.of_nat 5 - 1) with 39. lia. Qed.

Lemma zlen_int_contents z : zlen (int_contents z) = Z.of_nat (int_size z).
Proof. unfold zlen. by rewrite length_int_contents. Qed.

(** The common end of the two decoders: sign octet, then the loop. *)
Lemma parse_int_contents (wrap : Z → Z) `{!Wraps wrap} tag z pre post :
  fits 9 z = true →
  let buf := pre ++ ber_int tag z ++ post in
  let p := length (pre ++ tlv_head tag (int_contents z)) in
  ∃ b, rd buf p = Ok b ∧ int_contents z !! 0%nat = Some b ∧ (Z.land b 0x80 =? 0) = (0 <=? z) ∧
  ∀ v, wrap v = wrap (if 0 <=? z then 0 else -1) → wrap v = v →
  parse_int_loop wrap buf (int_size z) p v
  = Ok ((length pre + length (ber_int tag z))%nat, wrap z).
Proof.
  intros Hf buf p. subst buf p. unfold ber_int. rewrite ber_tlv_split.
  pose proof (int_size_bounds z) as Hs. apply int_size_fits in Hf.
  destruct (int_contents_cons z) as (b & l & Hbl). exists b. split_and!.
  - rewrite Hbl. apply rd_app_l.
  - by rewrite Hbl.
  - eapply be_bytes_sign; [exact Hf|]. exact Hbl.
  - intros v Hv Hv'. rewrite <- Hv', Hv, <- (length_int_contents z).
    rewrite parse_int_loop_spec by (done || apply be_bytes_ok).
    unfold int_contents at 3. rewrite be_val_signed by (done || lia).
    rewrite length_ber_tlv, length_app. do 2 f_equal. lia.
Qed.

Lemma asn_parse_int_decodes tag z :
  - 2 ^ 31 ≤ z < 2 ^ 31 →
  Decodes (λ buf data dl, asn_parse_int buf data dl SIZEOF_LONG) tag (ber_int tag z) z.
Proof.
  intros Hz pre post dl Hd. unfold asn_parse_int. rewrite Z.eqb_refl. m_step.
  pose proof (int_size_le 4 z ltac:(lia) (proj2 (fits_4 z) Hz)) as Hs.
  pose proof (zlen_int_contents z) as Hc.
  destruct (open_tlv tag (int_contents z) pre post dl) as [Ht Hl]; [lia|done|].
  change (ber_tlv tag (int_contents z)) with (ber_int tag z) in *.
  rewrite Ht. m_step. rewrite Hl. m_step.
  destruct (Z.ltb_spec SIZEOF_LONG (zlen (int_contents z)));
    [unfold SIZEOF_LONG in *; lia|].
  destruct (parse_int_contents s32 tag z pre post) as (b & -> & _ & Hb & Hloop).
  { apply (fits_le 4); [lia|]. by apply fits_4. }
  m_step. rewrite Hb, Hc, Nat2Z.id.
  rewrite Hloop; [|by destruct (0 <=? z)..]. m_step.
  rewrite s32_id, <- Hc by done. by rewrite (tlv_datalength tag) by done.
Qed.

(** Five octets are only needed for a leading zero. *)
Lemma lead_octet_5 z b :
  0 ≤ z < 2 ^ 32 → int_contents z !! 0%nat = Some b →
  (if zlen (int_contents z) =? SIZEOF_LONG + 1 then Ok (negb (b =? 0)) else Ok false)
  = Ok false.
Proof.
  intros Hz Hb. destruct (Z.eqb_spec (zlen (int_contents z)) (SIZEOF_LONG + 1)) as [E|]; [|done].
  rewrite zlen_int_contents in E. unfold int_contents in Hb.
  replace (int_size z) with 5%nat in Hb by (unfold SIZEOF_LONG in E; lia).
  simpl in Hb. injection Hb as <-. by rewrite Z.div_small by lia.
Qed.

Lemma asn_parse_unsigned_int_decodes tag z :
  0 ≤ z < 2 ^ 32 →
  Decodes (λ buf data dl, asn_parse_unsigned_int buf data dl SIZEOF_LONG) tag
    (ber_int tag z) z.
Proof.
  intros Hz pre post dl Hd. unfold asn_parse_unsigned_int. rewrite Z.eqb_refl. m_step.
  pose proof (int_size_le 5 z ltac:(lia) (fits_5 z Hz)) as Hs.
  pose proof (zlen_int_contents z) as Hc.
  destruct (open_tlv tag (int_contents z) pre post dl) as [Ht Hl]; [lia|done|].
  change (ber_tlv tag (int_contents z)) with (ber_int tag z) in *.
  rewrite Ht. m_step. rewrite Hl. m_step.
  destruct (Z.ltb_spec (SIZEOF_LONG + 1) (zlen (int_contents z))); [unfold SIZEOF_LONG in *; lia|].
  destruct (parse_int_contents u32 tag z pre post) as (b & Hrd & Hb0 & Hb & Hloop).
  { apply (fits_le 5); [lia|]. by apply fits_5. }
  destruct (Z.leb_spec 0 z); [|lia]. rewrite Hrd. m_step. rewrite Hb. m_step.
  rewrite (lead_octet_5 z b) by done. m_step.
  rewrite Hc, Nat2Z.id.
  rewrite Hloop by done. m_step.
  rewrite (u32_id z), <- Hc by done. by rewrite (tlv_datalength tag) by done.
Qed.

(** ** Encoding *)

(** [integer] holds [z] in its top [n] octets. *)
Definition aligned (n : nat) (z integer : Z) : Prop :=
  u32 integer = u32 (z * 256 ^ (4 - Z.of_nat n)).

Lemma four_cases n (P : nat → Prop) :
  (1 ≤ n ≤ 4)%nat → P 1%nat → P 2%nat → P 3%nat → P 4%nat → P n.
Proof.
  intros Hn ????. by assert (n = 1 ∨ n = 2 ∨ n = 3 ∨ n = 4)%nat as [->|[->|[->| ->]]] by lia.
Qed.

Lemma top_octet n z I :
  (1 ≤ n ≤ 4)%nat → aligned n z I →
  u8 (Z.shiftr (Z.land (u32 I) mask8) (8 * (SIZEOF_LONG - 1)))
  = z / 256 ^ Z.of_nat (n - 1) mod 256.
Proof.
  intros Hn HI. change mask8 with ((2 ^ 8 - 1) * 2 ^ 24).
  rewrite land_field by lia. change (8 * (SIZEOF_LONG - 1)) with 24.
  rewrite shiftr_div, Z.div_mul by lia.
  rewrite u8_id by (apply Z.mod_pos_bound; lia).
  unfold aligned in HI. rewrite HI. unfold u32. clear HI.
  pattern n. apply four_cases; [done|..]; simpl; Z.div_mod_to_equations; lia.
Qed.

(** The nine top bits of [z] in [n] octets are equal exactly when one octet
    fewer is enough. *)
Lemma trunc_test n z I :
  (2 ≤ n ≤ 4)%nat → fits n z = true → aligned n z I →
  (Z.land (u32 I) mask9 =? 0) || (Z.land (u32 I) mask9 =? mask9) = fits (n - 1) z.
Proof.
  intros Hn Hf%fits_spec HI. change mask9 with ((2 ^ 9 - 1) * 2 ^ 23).
  rewrite land_field by lia. unfold aligned in HI. rewrite HI. unfold u32. clear HI.
  apply eq_true_iff_eq. rewrite orb_true_iff, !Z.eqb_eq, fits_spec.
  assert (n = 2 ∨ n = 3 ∨ n = 4)%nat as [->|[->| ->]] by lia;
    simpl in *; split; intros; Z.div_mod_to_equations; lia.
Qed.

Lemma aligned_shift (wrap : Z → Z) `{!Wraps wrap} n z I :
  (1 ≤ n ≤ 4)%nat → aligned n z I → aligned (n - 1) z (wrap (Z.shiftl I 8)).
Proof.
  unfold aligned. intros Hn HI. rewrite wraps_u32, shiftl_mul by lia.
  pose proof (u32_mul_add _ _ (2 ^ 8) 0 HI) as H. rewrite !Z.add_0_r in H. rewrite H.
  f_equal. rewrite <- Z.mul_assoc. f_equal. change (2 ^ 8) with (256 ^ 1).
  rewrite <- Z.pow_add_r by lia. f_equal. lia.
Qed.

Lemma trunc_loop_spec (wrap : Z → Z) `{!Wraps wrap} n z I :
  (1 ≤ n ≤ 4)%nat → fits n z = true → aligned n z I →
  (trunc_loop wrap n I).1 = int_size z ∧ aligned (int_size z) z (trunc_loop wrap n I).2.
Proof.
  revert I. induction n as [|n IH]; intros I Hn Hf HI; [lia|].
  destruct n as [|n].
  { simpl. rewrite (int_size_unique 1 z) by (done || lia || auto). done. }
  cbn [trunc_loop]. rewrite (trunc_test (S (S n)) z) by (done || lia).
  simpl Nat.sub. destruct (fits (S n) z) eqn:E.
  - apply IH; [lia|done|]. by apply (aligned_shift wrap (S (S n))); [lia|].
  - simpl. rewrite (int_size_unique (S (S n)) z); [done|lia|done|].
    right. simpl. by rewrite E.
Qed.

Lemma store_loop_spec (wrap : Z → Z) `{!Wraps wrap} n z I buf data :
  (n ≤ 4)%nat → aligned n z I →
  store_loop wrap n buf data I
  = (buf ← wr_list buf data (be_bytes n z); Ok (buf, (data + n)%nat)).
Proof.
  revert I buf data. induction n as [|n IH]; intros I buf data Hn HI.
  - simpl. by rewrite Nat.add_0_r.
  - cbn [store_loop be_bytes wr_list]. rewrite (top_octet (S n) z) by (done || lia).
    simpl Nat.sub. rewrite Nat.sub_0_r.
    destruct (wr _ _ _); simpl; [|done..].
    rewrite IH; [|lia|].
    + destruct (wr_list _ _ _); simpl; [|done..]. do 2 f_equal. lia.
    + pose proof (aligned_shift wrap (S n) z I) as H. simpl in H.
      rewrite Nat.sub_0_r in H. apply H; [lia|done].
Qed.

Lemma aligned_4 z : aligned 4 z z.
Proof. unfold aligned. simpl. by rewrite Z.mul_1_r. Qed.

(** [asn_build_int] writes the shortest BER INTEGER, or fails when the buffer
    is too small. *)
Lemma asn_build_int_encodes tag z :
  - 2 ^ 31 ≤ z < 2 ^ 31 →
  Encodes (λ buf data dl, asn_build_int buf data dl tag z SIZEOF_LONG) (ber_int tag z).
Proof.
  intros Hz buf data dl Hd Hb. unfold asn_build_int. rewrite Z.eqb_refl. m_step.
  change (Z.to_nat SIZEOF_LONG) with 4%nat.
  destruct (trunc_loop_spec s32 4 z z) as [Hs Ha]; [lia|by apply fits_4|apply aligned_4|].
  destruct (trunc_loop s32 4 z) as [n I]. simpl in Hs, Ha. subst n.
  pose proof (int_size_le 4 z ltac:(lia) (proj2 (fits_4 z) Hz)) as Hle.
  unfold ber_int. rewrite <- build_tlv_put by (rewrite ?zlen_int_contents; lia).
  rewrite zlen_int_contents.
  destruct (build_header_checked _ _ _ _ _) as [[[buf' data'] dl']| |]; m_step; [|done..].
  rewrite (store_loop_spec s32 _ z) by done. fold (int_contents z).
  destruct (wr_list _ _ _); m_step; [|done..]. by rewrite length_int_contents.
Qed.

Lemma msb_set z : 0 ≤ z < 2 ^ 32 →
  (Z.land (u8 (Z.shiftr (Z.land z mask8) (8 * (SIZEOF_LONG - 1)))) 0x80 =? 0)
  = (z <? 2 ^ 31).
Proof.
  intros Hz. rewrite <- (u32_id z Hz) at 1.
  rewrite (top_octet 4 z) by (lia || apply aligned_4).
  rewrite land_128 by (apply Z.mod_pos_bound; lia). simpl.
  destruct (Z.ltb_spec z 2147483648);
    [rewrite decide_True|rewrite decide_False]; (done || (Z.div_mod_to_equations; lia)).
Qed.

Lemma asn_build_unsigned_int_encodes tag z :
  0 ≤ z < 2 ^ 32 →
  Encodes (λ buf data dl, asn_build_unsigned_int buf data dl tag z SIZEOF_LONG)
    (ber_int tag z).
Proof.
  intros Hz buf data dl Hd Hb. unfold asn_build_unsigned_int. rewrite Z.eqb_refl. m_step.
  rewrite msb_set by done. change (Z.to_nat SIZEOF_LONG) with 4%nat.
  unfold ber_int. pose proof (int_size_bounds z).
  rewrite <- build_tlv_put by (rewrite ?zlen_int_contents; lia).
  rewrite zlen_int_contents.
  destruct (Z.ltb_spec z (2 ^ 31)); m_step.
  - destruct (trunc_loop_spec u32 4 z z) as [Hs Ha];
      [lia|apply fits_4; lia|apply aligned_4|].
    destruct (trunc_loop u32 4 z) as [n I]. simpl in Hs, Ha. subst n.
    assert (int_size z ≤ 4)%nat by (apply int_size_le; [lia|apply fits_4; lia]).
    destruct (build_header_checked _ _ _ _ _) as [[[buf' data'] dl']| |]; m_step; [|done..].
    rewrite (store_loop_spec u32 _ z) by done. fold (int_contents z).
    destruct (wr_list _ _ _); m_step; [|done..]. by rewrite length_int_contents.
  - assert (int_size z = 5%nat) as Hs.
    { apply int_size_unique; [lia|by apply fits_5|]. right.
      apply not_true_is_false. rewrite fits_4. lia. }
    rewrite Hs.
    destruct (build_header_checked _ _ _ _ _) as [[[buf' data'] dl']| |]; m_step; [|done..].
    unfold int_contents. rewrite Hs. change (be_bytes 5 z) with
      (z / 256 ^ Z.of_nat 4 mod 256 :: be_bytes 4 z).
    rewrite Z.div_small by lia. change (0 mod 256) with 0. cbn [wr_list].
    destruct (wr buf' data' 0); m_step; [|done..]. simpl Nat.pred.
    rewrite (store_loop_spec u32 4 z) by (done || apply aligned_4).
    destruct (wr_list _ _ _); m_step; [|done..].
    do 2 f_equal. f_equal. simpl. lia.
Qed.
