(* ===== verification/Asn1Str.v ===== *)
(** * OCTET STRING, NULL and BIT STRING: the string routines of snmplib/asn1.c

    The output buffer [str] of a parse routine is the caller's object; the
    routine is given its size in [strlength]. *)

From S2P Require Import Prelude Ber Asn1.
From stdpp Require Import prelude numbers list.
From Stdlib Require Import ZArith Lia.
Open Scope Z_scope.

(** Results: next object, [*datalength], [*type], then the output buffer and
    [*strlength]. *)
Definition asn_parse_string (buf : list Z) (data : nat) (datalength : Z)
    (str : list Z) (strlength : Z) : M (nat * Z * Z * (list Z * Z)) :=
  type ← rd buf data;
  '(bufp, asn_length) ← parse_length_checked buf data (data + 1) datalength;
  if strlength <? asn_length then Err
  else
    src ← rd_list buf bufp (Z.to_nat asn_length);
    str ← wr_list str 0 src;
    str ← (if asn_length <? strlength then wr str (Z.to_nat asn_length) 0 else Ok str);
    let datalength := u32 (datalength - (asn_length + (Z.of_nat bufp - Z.of_nat data))) in
    Ok ((bufp + Z.to_nat asn_length)%nat, datalength, type, (str, asn_length)).

(** [str] is [None] for a [NULL] pointer. *)
Definition asn_build_string (buf : list Z) (data : nat) (datalength type : Z)
    (str : option (list Z)) (strlength : Z) : M (list Z * nat * Z) :=
  '(buf, data, datalength) ← build_header_checked buf data datalength type strlength;
  buf ← (if strlength =? 0 then Ok buf
         else match str with
              | None => wr_list buf data (replicate (Z.to_nat strlength) 0)
              | Some str =>
                  src ← rd_list str 0 (Z.to_nat strlength);
                  wr_list buf data src
              end);
  Ok (buf, (data + Z.to_nat strlength)%nat, u32 (datalength - strlength)).

(** The length is not checked against [*datalength]. *)
Definition asn_parse_null (buf : list Z) (data : nat) (datalength : Z)
    : M (nat * Z * Z * unit) :=
  type ← rd buf data;
  '(bufp, len) ← asn_parse_length buf (Some (data + 1)%nat);
  match bufp with
  | None => Err
  | Some bufp =>
      let asn_length := default 0 len in
      if negb (asn_length =? 0) then Err
      else
        Ok ((bufp + Z.to_nat asn_length)%nat,
            u32 (datalength - (Z.of_nat bufp - Z.of_nat data)), type, tt)
  end.

Definition asn_build_null (buf : list Z) (data : nat) (datalength type : Z)
    : M (list Z * nat * Z) :=
  asn_build_header buf data datalength type 0.

(** [datum] is not examined: the test on it is commented out in the source. *)
Definition _asn_bitstring_check (asn_length datum : Z) : bool := asn_length <? 1.

Definition asn_parse_bitstring (buf : list Z) (data : nat) (datalength : Z)
    (str : list Z) (strlength : Z) : M (nat * Z * Z * (list Z * Z)) :=
  type ← rd buf data;
  '(bufp, asn_length) ← parse_length_checked buf data (data + 1) datalength;
  if strlength <? asn_length then Err
  else
    datum ← rd buf bufp;
    if _asn_bitstring_check asn_length datum then Err
    else
      src ← rd_list buf bufp (Z.to_nat asn_length);
      str ← wr_list str 0 src;
      let datalength := u32 (datalength - (asn_length + (Z.of_nat bufp - Z.of_nat data))) in
      Ok ((bufp + Z.to_nat asn_length)%nat, datalength, type, (str, asn_length)).

Definition asn_build_bitstring (buf : list Z) (data : nat) (datalength type : Z)
    (str : option (list Z)) (strlength : Z) : M (list Z * nat * Z) :=
  datum ← match str with Some str => rd str 0 | None => Ok 0 end;
  if _asn_bitstring_check strlength datum then Err
  else
    '(buf, data, datalength) ← build_header_checked buf data datalength type strlength;
    match str with
    | Some str =>
        if 0 <? strlength then
          src ← rd_list str 0 (Z.to_nat strlength);
          buf ← wr_list buf data src;
          Ok (buf, (data + Z.to_nat strlength)%nat, u32 (datalength - strlength))
        else Ok (buf, (data + Z.to_nat strlength)%nat, u32 (datalength - strlength))
    | None => Err
    end.

(** ** Encoding *)

(** A block of the source object, seen as the bytes themselves. *)
Lemma rd_list_prefix s rest : rd_list (s ++ rest) 0 (length s) = Ok s.
Proof. apply (rd_list_app s []). Qed.

Lemma asn_build_string_encodes tag s rest :
  zlen s < 2 ^ 16 →
  Encodes (λ buf data dl, asn_build_string buf data dl tag (Some (s ++ rest)) (zlen s))
    (ber_string tag s).
Proof.
  intros Hs buf data dl Hd Hb. unfold asn_build_string, ber_string.
  rewrite <- build_tlv_put by (done || lia). rewrite Z_to_nat_zlen.
  destruct (build_header_checked _ _ _ _ _) as [[[buf' data'] dl']| |]; m_step; [|done..].
  destruct (Z.eqb_spec (zlen s) 0) as [E|].
  - destruct s; [|done]. done.
  - rewrite rd_list_prefix. m_step. by destruct (wr_list buf' data' s).
Qed.

(** A [NULL] string is sent as zeros. *)
Lemma asn_build_string_null_encodes tag n :
  0 ≤ n < 2 ^ 16 →
  Encodes (λ buf data dl, asn_build_string buf data dl tag None n)
    (ber_string tag (replicate (Z.to_nat n) 0)).
Proof.
  intros Hn buf data dl Hd Hb. unfold asn_build_string, ber_string.
  assert (zlen (replicate (Z.to_nat n) 0) = n) as Hz
    by (unfold zlen; rewrite length_replicate; lia).
  rewrite <- build_tlv_put by (rewrite ?Hz; done || lia). rewrite Hz, length_replicate.
  destruct (build_header_checked _ _ _ _ _) as [[[buf' data'] dl']| |]; m_step; [|done..].
  destruct (Z.eqb_spec n 0) as [->|]; [done|].
  by destruct (wr_list buf' data' _).
Qed.

Lemma asn_build_null_encodes tag :
  Encodes (λ buf data dl, asn_build_null buf data dl tag) (ber_null tag).
Proof. apply (asn_build_header_encodes tag 0). lia. Qed.

Lemma asn_build_bitstring_encodes tag s rest :
  1 ≤ zlen s < 2 ^ 16 →
  Encodes (λ buf data dl, asn_build_bitstring buf data dl tag (Some (s ++ rest)) (zlen s))
    (ber_string tag s).
Proof.
  intros Hs buf data dl Hd Hb. unfold asn_build_bitstring, ber_string.
  destruct s as [|x s']; [rewrite zlen_nil in Hs; lia|]. set (s := x :: s') in *.
  change (rd (s ++ rest) 0) with (rd ([] ++ x :: (s' ++ rest)) (length (A:=Z) [])).
  rewrite rd_app_l. m_step. unfold _asn_bitstring_check.
  destruct (Z.ltb_spec (zlen s) 1); [lia|].
  rewrite <- build_tlv_put by lia. rewrite Z_to_nat_zlen.
  destruct (build_header_checked _ _ _ _ _) as [[[buf' data'] dl']| |]; m_step; [|done..].
  destruct (Z.ltb_spec 0 (zlen s)); [|lia]. by rewrite rd_list_prefix.
Qed.

(** ** Decoding *)

(** What [asn_parse_string] leaves in the caller's buffer. *)
Definition string_result (s str : list Z) (strlength : Z) : list Z :=
  if zlen s <? strlength then s ++ 0 :: drop (S (length s)) str
  else s ++ drop (length s) str.

Lemma wr_list_prefix s str :
  (length s ≤ length str)%nat → wr_list str 0 s = Ok (s ++ drop (length s) str).
Proof.
  intros H. rewrite <- (take_drop (length s) str) at 1.
  apply (wr_list_app s []). rewrite length_take. lia.
Qed.

Lemma asn_parse_string_decodes tag s str strlength :
  zlen s ≤ strlength ≤ zlen str → zlen s < 2 ^ 31 →
  Decodes (λ buf data dl, asn_parse_string buf data dl str strlength) tag
    (ber_string tag s) (string_result s str strlength, zlen s).
Proof.
  intros Hs Hs' pre post dl Hd. unfold asn_parse_string.
  destruct (open_tlv tag s pre post dl) as [Ht Hl]; [lia|done|].
  unfold ber_string in *. rewrite Ht. m_step. rewrite Hl. m_step.
  destruct (Z.ltb_spec strlength (zlen s)); [lia|].
  rewrite ber_tlv_split, Z_to_nat_zlen, rd_list_app. m_step.
  rewrite wr_list_prefix by (unfold zlen in *; lia). m_step.
  rewrite (tlv_datalength tag) by done. unfold string_result.
  rewrite length_ber_tlv, length_app, Nat.add_assoc.
  destruct (Z.ltb_spec (zlen s) strlength) as [Hlt|]; [|done].
  destruct (drop (length s) str) as [|x rest] eqn:Hdrop.
  { apply (f_equal length) in Hdrop. rewrite length_drop in Hdrop.
    unfold zlen in *. simpl in *. lia. }
  rewrite wr_app. m_step. do 4 f_equal.
  by rewrite <- Nat.add_1_r, <- drop_drop, Hdrop.
Qed.

Lemma asn_parse_bitstring_decodes tag s str strlength :
  1 ≤ zlen s ≤ strlength → strlength ≤ zlen str → zlen s < 2 ^ 31 →
  Decodes (λ buf data dl, asn_parse_bitstring buf data dl str strlength) tag
    (ber_string tag s) (s ++ drop (length s) str, zlen s).
Proof.
  intros Hs Hs' Hs'' pre post dl Hd. unfold asn_parse_bitstring.
  destruct (open_tlv tag s pre post dl) as [Ht Hl]; [lia|done|].
  unfold ber_string in *. rewrite Ht. m_step. rewrite Hl. m_step.
  destruct (Z.ltb_spec strlength (zlen s)); [lia|].
  rewrite ber_tlv_split, Z_to_nat_zlen.
  destruct s as [|x s']; [rewrite zlen_nil in Hs; lia|]. set (s := x :: s') in *.
  assert (rd ((pre ++ tlv_head tag s) ++ s ++ post) (length (pre ++ tlv_head tag s)) = Ok x)
    as -> by apply rd_app_l.
  m_step. unfold _asn_bitstring_check. destruct (Z.ltb_spec (zlen s) 1); [lia|].
  rewrite rd_list_app. m_step.
  rewrite wr_list_prefix by (unfold zlen in *; lia). m_step.
  by rewrite (tlv_datalength tag), length_ber_tlv, length_app, Nat.add_assoc by done.
Qed.

Lemma asn_parse_null_decodes tag :
  Decodes asn_parse_null tag (ber_null tag) tt.
Proof.
  intros pre post dl Hd. unfold asn_parse_null.
  change (pre ++ ber_null tag ++ post) with (pre ++ tag :: (ber_length 0 ++ post)).
  rewrite rd_app_l. m_step. rewrite cons_cat, (app_assoc pre [tag]).
  replace (length pre + 1)%nat with (length (pre ++ [tag])) by (rewrite length_app; done).
  rewrite asn_parse_length_ber by lia. m_step. rewrite length_app.
  change (zlen (ber_null tag)) with 2 in *. change (length (ber_null tag)) with 2%nat.
  change (length (ber_length 0)) with 1%nat. simpl.
  rewrite u32_id by lia. do 4 f_equal; lia.
Qed.
