(* ===== verification/Asn1Oid.v ===== *)
(** * OBJECT IDENTIFIER: asn_parse_objid and asn_build_objid of snmplib/asn1.c

    An [oid] is a 32-bit [u_long]; the check of a subidentifier against
    [MAX_SUBID] is not compiled in this configuration, so an oversized
    subidentifier is reduced modulo 2^32.  The caller's array of arcs is an
    object of its own, [objid]. *)

From S2P Require Import Prelude Ber Asn1.
From stdpp Require Import prelude numbers list.
From Stdlib Require Import ZArith Lia.
Open Scope Z_scope.

(** [do { subidentifier = (subidentifier << 7) + ( *bufp & ~ASN_BIT8);
    length--; } while (( *bufp++ & ASN_BIT8) && (length > 0));]
    entered with [length > 0].  Returns [length], [bufp], [subidentifier]. *)
Fixpoint subid_loop (buf : list Z) (length bufp : nat) (subidentifier : Z)
    : M (nat * nat * Z) :=
  match length with
  | O => Ok (O, bufp, subidentifier)
  | S length =>
      b ← rd buf bufp;
      let subidentifier :=
        u32 (u32 (Z.shiftl subidentifier 7) + Z.land b (Z.lnot ASN_BIT8)) in
      if negb (Z.land b ASN_BIT8 =? 0) && (0 <? length)%nat
      then subid_loop buf length (S bufp) subidentifier
      else Ok (length, S bufp, subidentifier)
  end.

(** The outer loop; every iteration consumes at least one octet, so [length]
    iterations suffice and running out of [fuel] is reported as [UB]. *)
Fixpoint objid_loop (fuel : nat) (buf : list Z) (length bufp : nat) (objidlength : Z)
    (objid : list Z) (oidp : nat) : M (nat * nat * list Z * nat) :=
  match fuel with
  | O => UB
  | S fuel =>
      if (0 <? length)%nat && (0 <? objidlength) then
        '(length, bufp, subidentifier) ← subid_loop buf length bufp 0;
        unfinished ← (if (length =? 0)%nat
                      then last_byte ← rd buf (bufp - 1);
                           Ok (negb (Z.land last_byte ASN_BIT8 =? 0))
                      else Ok false);
        if unfinished : bool then Err
        else
          objid ← wr objid oidp subidentifier;
          objid_loop fuel buf length bufp (u32 (objidlength - 1)) objid (S oidp)
      else Ok (length, bufp, objid, oidp)
  end.

(** Results: next object, [*datalength], [*type], then the array and
    [*objidlength]. *)
Definition asn_parse_objid (buf : list Z) (data : nat) (datalength : Z)
    (objid : list Z) (objidlength : Z) : M (nat * Z * Z * (list Z * Z)) :=
  type ← rd buf data;
  '(bufp, asn_length) ← parse_length_checked buf data (data + 1) datalength;
  let datalength := u32 (datalength - (asn_length + (Z.of_nat bufp - Z.of_nat data))) in
  objid ← (if asn_length =? 0
           then objid ← wr objid 1 0; wr objid 0 0 else Ok objid);
  '(length, bufp, objid, oidp) ←
    objid_loop (S (Z.to_nat asn_length)) buf (Z.to_nat asn_length) bufp
      (u32 (objidlength - 1)) objid 1;
  if negb (length =? 0)%nat then Err
  else
    subidentifier ← rd objid 1;
    let '(x, y) :=
      if subidentifier =? 0x2B then (1, 3)
      else if subidentifier <? 40 then (0, subidentifier)
      else if subidentifier <? 80 then (1, subidentifier - 40)
      else (2, subidentifier - 80) in
    objid ← wr objid 0 x;
    objid ← wr objid 1 y;
    Ok (bufp, datalength, type, (objid, Z.of_nat oidp)).

(** Number of octets chosen for a subidentifier. *)
Definition objid_size (objid_val : Z) : Z :=
  if objid_val <? 0x80 then 1
  else if objid_val <? 0x4000 then 2
  else if objid_val <? 0x200000 then 3
  else if objid_val <? 0x10000000 then 4
  else 5.

(** The sizing loop: [objid_val] is the current value, [n] how many more arcs
    are read at [op]. *)
Fixpoint objid_sizes (n : nat) (objid : list Z) (op : nat) (objid_val : Z)
    : M (list Z) :=
  match n with
  | O => Ok [objid_size objid_val]
  | S n =>
      v ← rd objid op;
      l ← objid_sizes n objid (S op) v;
      Ok (objid_size objid_val :: l)
  end.

(** The [switch (objid_size[i])] of the storing loop. *)
Definition store_subid (buf : list Z) (data : nat) (size objid_val : Z)
    : M (list Z * nat) :=
  let sh k := Z.lor (Z.land (Z.shiftr objid_val k) 0x7f) 0x80 in
  let octets :=
    if size =? 1 then [u8 objid_val]
    else if size =? 2 then
      [u8 (Z.lor (Z.shiftr objid_val 7) 0x80); u8 (Z.land objid_val 0x7f)]
    else if size =? 3 then
      [u8 (Z.lor (Z.shiftr objid_val 14) 0x80); u8 (sh 7); u8 (Z.land objid_val 0x7f)]
    else if size =? 4 then
      [u8 (Z.lor (Z.shiftr objid_val 21) 0x80); u8 (sh 14); u8 (sh 7);
       u8 (Z.land objid_val 0x7f)]
    else if size =? 5 then
      [u8 (Z.lor (Z.shiftr objid_val 28) 0x80); u8 (sh 21); u8 (sh 14); u8 (sh 7);
       u8 (Z.land objid_val 0x7f)]
    else [] in
  buf ← wr_list buf data octets;
  Ok (buf, (data + length octets)%nat).

(** The storing loop over the recorded sizes, reading the arcs again. *)
Fixpoint store_objid (sizes : list Z) (buf : list Z) (data : nat)
    (objid : list Z) (op : nat) (objid_val : Z) : M (list Z * nat) :=
  match sizes with
  | [] => Ok (buf, data)
  | [sz] => store_subid buf data sz objid_val
  | sz :: sizes =>
      '(buf, data) ← store_subid buf data sz objid_val;
      v ← rd objid op;
      store_objid sizes buf data objid (S op) v
  end.

Definition asn_build_objid (buf : list Z) (data : nat) (datalength type : Z)
    (objid : list Z) (objidlength : Z) : M (list Z * nat * Z) :=
  '(objid_val, objidlength) ←
    (if objidlength =? 0 then Ok (0, 2)
     else
       x ← rd objid 0;
       if 2 <? x then Err
       else if objidlength =? 1 then Ok (u32 (x * 40), 2)
       else
         y ← rd objid 1;
         if (40 <? y) && (x <? 2) then Err
         else Ok (u32 (x * 40 + y), objidlength));
  if MAX_OID_LEN <? objidlength then Err
  else
    sizes ← objid_sizes (Z.to_nat (objidlength - 2)) objid 2 objid_val;
    let asnlength := foldr Z.add 0 sizes in
    '(buf, data, datalength) ← build_header_checked buf data datalength type asnlength;
    '(buf, data) ← store_objid sizes buf data objid 2 objid_val;
    Ok (buf, data, u32 (datalength - asnlength)).

(** ** Facts about arcs *)

Lemma ber_arc_by_size z :
  0 ≤ z < 2 ^ 32 →
  ber_arc z =
    if z <? 0x80 then [z]
    else if z <? 0x4000 then [128 + z / 128; z mod 128]
    else if z <? 0x200000 then [128 + z / 128 / 128; 128 + z / 128 mod 128; z mod 128]
    else if z <? 0x10000000 then
      [128 + z / 128 / 128 / 128; 128 + z / 128 / 128 mod 128; 128 + z / 128 mod 128;
       z mod 128]
    else
      [128 + z / 128 / 128 / 128 / 128; 128 + z / 128 / 128 / 128 mod 128;
       128 + z / 128 / 128 mod 128; 128 + z / 128 mod 128; z mod 128].
Proof.
  intros Hz. unfold ber_arc, arc_high.
  repeat match goal with
  | |- context [?a <? ?b] => destruct (Z.ltb_spec a b)
  | |- context [?a =? 0] => destruct (Z.eqb_spec a 0)
  end; try (exfalso; Z.div_mod_to_equations; lia); repeat f_equal;
    rewrite ?Z.mod_small; try done; Z.div_mod_to_equations; lia.
Qed.

Definition is_u32 (z : Z) : Prop := 0 ≤ z < 2 ^ 32.
#[global] Instance is_u32_dec z : Decision (is_u32 z).
Proof. unfold is_u32. apply _. Defined.

Lemma objid_size_arc v : is_u32 v → objid_size v = zlen (ber_arc v).
Proof.
  intros Hv. rewrite ber_arc_by_size by done. unfold objid_size.
  by repeat match goal with |- context [?a <? ?b] => destruct (a <? b) end.
Qed.

Lemma arc_shift v k : 0 ≤ k → Z.lor (Z.land (Z.shiftr v k) 0x7f) 0x80 = 128 + v / 2 ^ k mod 128.
Proof.
  intros. change 0x7f with (2 ^ 7 - 1). rewrite land_ones_mod, shiftr_div by lia.
  rewrite lor_high_bit by (apply Z.mod_pos_bound; lia). change (2 ^ 7) with 128. lia.
Qed.

Lemma store_subid_spec buf data v :
  is_u32 v →
  store_subid buf data (objid_size v) v
  = (buf ← wr_list buf data (ber_arc v); Ok (buf, (data + length (ber_arc v))%nat)).
Proof.
  intros Hv. unfold is_u32 in Hv. unfold store_subid.
  match goal with |- (buf ← wr_list buf data ?l; _) = _ =>
    assert (l = ber_arc v) as ->; [|done] end.
  rewrite ber_arc_by_size, !arc_shift by (done || lia).
  assert (Z.land v 0x7f = v mod 128) as ->.
  { change 0x7f with (2 ^ 7 - 1). by rewrite land_ones_mod by lia. }
  rewrite !Z.div_div by lia. unfold objid_size.
  repeat match goal with |- context [?a <? ?b] => destruct (Z.ltb_spec a b) end;
    simpl; rewrite ?shiftr_div by lia; rewrite ?lor_high_bit by (Z.div_mod_to_equations; lia);
    rewrite ?u8_id by (unfold is_byte; Z.div_mod_to_equations; lia);
    list_eq; first [reflexivity | apply Z.add_comm | lia].
Qed.

Lemma foldr_add_zlen ls :
  foldr Z.add 0 (zlen <$> ls) = zlen (concat ls).
Proof. induction ls as [|l ls IH]; [done|]. csimpl. by rewrite IH, zlen_app. Qed.

Lemma objid_sizes_spec vs pre post v :
  Forall is_u32 (v :: vs) →
  objid_sizes (length vs) (pre ++ vs ++ post) (length pre) v
  = Ok (zlen <$> (ber_arc <$> (v :: vs))).
Proof.
  revert pre v. induction vs as [|w vs IH]; intros pre v [Hv Hvs]%Forall_cons; simpl.
  - by rewrite objid_size_arc.
  - rewrite rd_app_l. m_step.
    specialize (IH (pre ++ [w]) w Hvs).
    rewrite <- app_assoc, length_app, Nat.add_1_r in IH. simpl in IH. rewrite IH. m_step.
    by rewrite objid_size_arc.
Qed.

Lemma store_objid_step sz sz' sizes buf data objid op v :
  store_objid (sz :: sz' :: sizes) buf data objid op v =
  ('(buf, data) ← store_subid buf data sz v;
   w ← rd objid op;
   store_objid (sz' :: sizes) buf data objid (S op) w).
Proof. done. Qed.

Lemma store_objid_spec vs pre post v buf data :
  Forall is_u32 (v :: vs) →
  store_objid (zlen <$> (ber_arc <$> (v :: vs))) buf data (pre ++ vs ++ post) (length pre) v
  = (buf ← wr_list buf data (concat (ber_arc <$> (v :: vs)));
     Ok (buf, (data + length (concat (ber_arc <$> (v :: vs))))%nat)).
Proof.
  revert pre v buf data.
  induction vs as [|w vs IH]; intros pre v buf data [Hv Hvs]%Forall_cons; cbn [fmap list_fmap].
  - cbn [store_objid concat]. rewrite <- (objid_size_arc v Hv), app_nil_r.
    by apply store_subid_spec.
  - specialize (IH (pre ++ [w]) w). rewrite <- app_assoc, length_app, Nat.add_1_r in IH.
    cbn [app fmap list_fmap] in IH.
    rewrite store_objid_step. cbn [concat] in IH |- *. rewrite <- (objid_size_arc v Hv).
    rewrite store_subid_spec by done.
    rewrite wr_list_cat.
    destruct (wr_list buf data (ber_arc v)) as [buf'| |]; m_step; [|done..].
    change (pre ++ (w :: vs) ++ post) with (pre ++ w :: (vs ++ post)). rewrite rd_app_l. m_step.
    rewrite IH by done.
    destruct (wr_list buf' _ _); m_step; [|done..].
    rewrite (length_app (ber_arc v)), Nat.add_assoc. done.
Qed.

(** An object identifier the encoder accepts and encodes faithfully. *)
Definition oid_encodable (o : list Z) : Prop :=
  match o with
  | x :: y :: rest =>
      0 ≤ x ≤ 2 ∧ 0 ≤ y ∧ (x < 2 → y ≤ 40) ∧ x * 40 + y < 2 ^ 32 ∧
      Forall is_u32 rest ∧ zlen o ≤ MAX_OID_LEN
  | _ => False
  end.

Lemma zlen_ber_arc v : is_u32 v → 1 ≤ zlen (ber_arc v) ≤ 5.
Proof.
  intros Hv. rewrite <- (objid_size_arc v Hv). unfold objid_size.
  repeat match goal with |- context [?a <? ?b] => destruct (a <? b) end; lia.
Qed.

Lemma zlen_arcs vs :
  Forall is_u32 vs → zlen vs ≤ zlen (concat (ber_arc <$> vs)) ≤ 5 * zlen vs.
Proof.
  induction 1 as [|v vs Hv Hvs IH]; [done|]. cbn [fmap list_fmap concat].
  rewrite zlen_app, zlen_cons. pose proof (zlen_ber_arc v Hv). lia.
Qed.

Lemma oid_encodable_subids o :
  oid_encodable o →
  Forall is_u32 (oid_subids o) ∧ zlen (oid_contents o) < 1000.
Proof.
  destruct o as [|x [|y rest]]; [done..|].
  intros (Hx & Hy & _ & Hxy & Hr & Hl).
  assert (Forall is_u32 (oid_subids (x :: y :: rest))) as Hs.
  { simpl. constructor; [unfold is_u32; lia|done]. }
  split; [done|]. pose proof (zlen_arcs _ Hs). unfold oid_contents.
  cbn [oid_subids] in *. rewrite !zlen_cons in *. unfold MAX_OID_LEN in *. lia.
Qed.

Lemma asn_build_objid_encodes tag o rest :
  oid_encodable o →
  Encodes (λ buf data dl, asn_build_objid buf data dl tag (o ++ rest) (zlen o))
    (ber_oid tag o).
Proof.
  intros Ho buf data dl Hd Hb. pose proof (oid_encodable_subids o Ho) as [Hs Hlen].
  destruct o as [|x [|y vs]]; [done..|]. destruct Ho as (Hx & Hy & Hxy & Hm & Hvs & Hl).
  unfold asn_build_objid.
  pose proof (zlen_nonneg vs). rewrite !zlen_cons in Hl |- *.
  destruct (Z.eqb_spec (1 + (1 + zlen vs)) 0); [lia|].
  change (rd ((x :: y :: vs) ++ rest) 0) with (Ok x). m_step.
  destruct (Z.ltb_spec 2 x); [lia|].
  destruct (Z.eqb_spec (1 + (1 + zlen vs)) 1); [lia|].
  change (rd ((x :: y :: vs) ++ rest) 1) with (Ok y). m_step.
  destruct (Z.ltb_spec 40 y), (Z.ltb_spec x 2); try lia; m_step;
    rewrite u32_id by lia;
    (destruct (Z.ltb_spec MAX_OID_LEN (1 + (1 + zlen vs))); [lia|]);
    replace (Z.to_nat (1 + (1 + zlen vs) - 2)) with (length vs) by (unfold zlen in *; lia);
    change 2%nat with (length [x; y]);
    change ((x :: y :: vs) ++ rest) with ([x; y] ++ vs ++ rest);
    rewrite objid_sizes_spec by done; m_step;
    rewrite foldr_add_zlen;
    change (concat (ber_arc <$> x * 40 + y :: vs)) with (oid_contents (x :: y :: vs));
    unfold ber_oid; (rewrite <- build_tlv_put by (done || lia));
    (destruct (build_header_checked _ _ _ _ _) as [[[buf' data'] dl']| |]; m_step; [|done..]);
    (rewrite store_objid_spec by done);
    change (concat (ber_arc <$> x * 40 + y :: vs)) with (oid_contents (x :: y :: vs));
    by destruct (wr_list buf' data' _).
Qed.

(** ** Decoding *)

Definition arc_val (v : Z) (l : list Z) : Z := fold_left (λ a b, a * 128 + b mod 128) l v.

Lemma arc_val_arc_high fuel z acc :
  0 ≤ z < 128 ^ Z.of_nat fuel → arc_val 0 (arc_high fuel z acc) = arc_val z acc.
Proof.
  revert z acc. induction fuel as [|fuel IH]; intros z acc Hz; simpl.
  - by replace z with 0 by lia.
  - destruct (Z.eqb_spec z 0) as [->|]; [done|].
    rewrite Nat2Z.inj_succ, Z.pow_succ_r in Hz by lia.
    rewrite IH by (split; [apply Z.div_pos; lia|apply Z.div_lt_upper_bound; lia]).
    unfold arc_val. simpl. f_equal.
    rewrite (Z.add_mod 128) by lia. change (128 mod 128) with 0.
    rewrite Z.add_0_l, !Z.mod_mod by lia. pose proof (Z.div_mod z 128). lia.
Qed.

Lemma ber_arc_val z : is_u32 z → arc_val 0 (ber_arc z) = z.
Proof.
  unfold is_u32. intros. unfold ber_arc.
  rewrite arc_val_arc_high by (simpl; Z.div_mod_to_equations; lia).
  unfold arc_val. simpl. rewrite Z.mod_mod by lia. pose proof (Z.div_mod z 128). lia.
Qed.

(** All octets of an arc but the last have the continuation bit. *)
Lemma ber_arc_shape z :
  ∃ hs lo, ber_arc z = hs ++ [lo] ∧ Forall (λ b, 128 ≤ b < 256) hs ∧ 0 ≤ lo < 128.
Proof.
  assert (∀ fuel z acc, ∃ hs, arc_high fuel z acc = hs ++ acc ∧
            Forall (λ b, 128 ≤ b < 256) hs) as H.
  { induction fuel as [|fuel IH]; intros z' acc; simpl; [by exists []|].
    destruct (z' =? 0); [by exists []|].
    destruct (IH (z' / 128) (128 + z' mod 128 :: acc)) as (hs & -> & Hhs).
    exists (hs ++ [128 + z' mod 128]). rewrite <- app_assoc. split; [done|].
    apply Forall_app_2; [done|]. constructor; [|constructor].
    pose proof (Z.mod_pos_bound z' 128). lia. }
  destruct (H 4%nat (z / 128) [z mod 128]) as (hs & Hh & Hhs).
  exists hs, (z mod 128). split_and!; [done|done|apply Z.mod_pos_bound; lia..].
Qed.

Lemma subid_step a b :
  is_byte b →
  u32 (u32 (Z.shiftl (u32 a) 7) + Z.land b (Z.lnot ASN_BIT8)) = u32 (a * 128 + b mod 128).
Proof.
  intros Hb. change ASN_BIT8 with 128. rewrite land_lnot_128, shiftl_mul by (done || lia).
  unfold u32. rewrite Z.add_mod_idemp_l by lia.
  rewrite <- (Z.add_mod_idemp_l (a mod 2 ^ 32 * 2 ^ 7)), Z.mul_mod_idemp_l by lia.
  by rewrite Z.add_mod_idemp_l by lia.
Qed.

Lemma subid_loop_spec hs lo pre post k a :
  Forall (λ b, 128 ≤ b < 256) hs → 0 ≤ lo < 128 →
  subid_loop (pre ++ (hs ++ [lo]) ++ post) (S (length hs + k)) (length pre) (u32 a)
  = Ok (k, (length pre + length (hs ++ [lo]))%nat, u32 (arc_val a (hs ++ [lo]))).
Proof.
  intros Hhs Hlo. revert pre a.
  induction Hhs as [|b hs Hb Hhs IH]; intros pre a.
  - simpl app. cbn [Nat.add length subid_loop]. rewrite rd_app_l. m_step.
    rewrite subid_step by (unfold is_byte; lia). change ASN_BIT8 with 128.
    rewrite land_128, decide_True by (unfold is_byte; lia). simpl.
    do 3 f_equal. lia.
  - simpl app. cbn [length subid_loop]. rewrite rd_app_l. m_step.
    rewrite subid_step by (unfold is_byte; lia). change ASN_BIT8 with 128.
    rewrite land_128, decide_False by (unfold is_byte; lia). cbn [Nat.add].
    destruct (Nat.ltb_spec 0 (S (length hs + k))); [|lia]. simpl negb. m_step.
    specialize (IH (pre ++ [b]) (a * 128 + b mod 128)).
    rewrite <- app_assoc, (length_app pre), Nat.add_1_r in IH. cbn [app] in IH.
    rewrite IH. cbn [length]. do 3 f_equal. lia.
Qed.

Lemma subid_loop_arc z pre post k :
  is_u32 z →
  subid_loop (pre ++ ber_arc z ++ post) (length (ber_arc z) + k) (length pre) 0
  = Ok (k, (length pre + length (ber_arc z))%nat, z) ∧
  ∃ lo, rd (pre ++ ber_arc z ++ post) (length pre + length (ber_arc z) - 1) = Ok lo
        ∧ Z.land lo ASN_BIT8 = 0.
Proof.
  intros Hz. pose proof (ber_arc_val z Hz) as Hv.
  destruct (ber_arc_shape z) as (hs & lo & E & Hhs & Hlo). rewrite E in *.
  rewrite length_app, Nat.add_1_r. split.
  - pose proof (subid_loop_spec hs lo pre post k 0 Hhs Hlo) as H.
    change (u32 0) with 0 in H. cbn [Nat.add]. rewrite H, Hv.
    rewrite u32_id, length_app, Nat.add_1_r by done. done.
  - exists lo. split.
    + replace (length pre + S (length hs) - 1)%nat with (length (pre ++ hs))
        by (rewrite length_app; lia).
      rewrite <- app_assoc, (app_assoc pre hs). apply rd_app_l.
    + change ASN_BIT8 with 128. by rewrite land_128, decide_True by (unfold is_byte; lia).
Qed.

Lemma objid_loop_spec vs fuel pre post cap objid oidp :
  Forall is_u32 vs → (length vs < fuel)%nat → zlen vs ≤ cap < 2 ^ 32 →
  objid_loop fuel (pre ++ concat (ber_arc <$> vs) ++ post)
    (length (concat (ber_arc <$> vs))) (length pre) cap objid oidp
  = (objid ← wr_list objid oidp vs;
     Ok (O, (length pre + length (concat (ber_arc <$> vs)))%nat, objid,
         (oidp + length vs)%nat)).
Proof.
  intros Hvs. revert fuel pre cap objid oidp.
  induction Hvs as [|v vs Hv Hvs IH]; intros fuel pre cap objid oidp Hf Hcap;
    (destruct fuel as [|fuel]; [simpl in Hf; lia|]).
  - simpl. by rewrite !Nat.add_0_r.
  - csimpl. rewrite length_app. pose proof (zlen_ber_arc v Hv) as Hlen. unfold zlen in Hlen.
    rewrite zlen_cons in Hcap. pose proof (zlen_nonneg vs).
    destruct (Nat.ltb_spec 0 (length (ber_arc v) + length (concat (ber_arc <$> vs)))); [|lia].
    destruct (Z.ltb_spec 0 cap); [|lia]. m_step. rewrite <- app_assoc.
    destruct (subid_loop_arc v pre (concat (ber_arc <$> vs) ++ post)
      (length (concat (ber_arc <$> vs))) Hv) as [-> (lo & Hrd & Hlo)]. m_step.
    rewrite Hrd. m_step. rewrite Hlo. simpl negb.
    assert ((if (length (concat (ber_arc <$> vs)) =? 0)%nat then Ok false else Ok false)
      = Ok (A:=bool) false) as -> by by destruct (_ =? _)%nat.
    m_step. destruct (wr objid oidp v) as [objid'| |]; m_step; [|done..].
    specialize (IH fuel (pre ++ ber_arc v) (u32 (cap - 1)) objid' (S oidp)).
    rewrite <- app_assoc, length_app in IH. rewrite u32_id in IH by lia.
    rewrite u32_id by lia. rewrite IH by (simpl in Hf; lia).
    destruct (wr_list objid' (S oidp) vs); m_step; [|done..].
    do 2 f_equal; [f_equal; f_equal|]; lia.
Qed.

(** The split of the first subidentifier into two arcs. *)
Lemma decode_first_arc x y :
  0 ≤ x ≤ 2 → 0 ≤ y → (x < 2 → y < 40) →
  (if x * 40 + y =? 0x2B then (1, 3)
   else if x * 40 + y <? 40 then (0, x * 40 + y)
   else if x * 40 + y <? 80 then (1, x * 40 + y - 40)
   else (2, x * 40 + y - 80)) = (x, y).
Proof.
  intros. destruct (Z.eqb_spec (x * 40 + y) 0x2B).
  - f_equal; lia.
  - destruct (Z.ltb_spec (x * 40 + y) 40), (Z.ltb_spec (x * 40 + y) 80); f_equal; lia.
Qed.

(** Decoding gives back every object identifier whose second arc is below 40
    when the first is 0 or 1. *)
Lemma asn_parse_objid_decodes tag o objid objidlength :
  oid_encodable o → (∀ x y rest, o = x :: y :: rest → x < 2 → y < 40) →
  zlen o ≤ objidlength < 2 ^ 32 → (length o ≤ length objid)%nat →
  Decodes (λ buf data dl, asn_parse_objid buf data dl objid objidlength) tag
    (ber_oid tag o) (o ++ drop (length o) objid, zlen o).
Proof.
  intros Ho H40 Hcap Hobj pre post dl Hd.
  pose proof (oid_encodable_subids o Ho) as [Hs Hlen].
  destruct o as [|x [|y vs]]; [done..|]. specialize (H40 x y vs eq_refl).
  destruct Ho as (Hx & Hy & _ & Hm & Hvs & Hl).
  destruct objid as [|a0 [|a1 objid]]; [simpl in Hobj; lia..|].
  set (o := x :: y :: vs) in *. unfold asn_parse_objid, ber_oid in *.
  destruct (open_tlv tag (oid_contents o) pre post dl) as [Ht Hlc]; [lia|done|].
  rewrite Ht. m_step. rewrite Hlc. m_step. rewrite ber_tlv_split, Z_to_nat_zlen.
  assert (zlen (oid_contents o) ≠ 0) as Hnz.
  { pose proof (zlen_arcs _ Hs) as Hz. unfold oid_contents.
    subst o. cbn [oid_subids] in Hz |- *. rewrite zlen_cons in Hz.
    pose proof (zlen_nonneg vs). lia. }
  destruct (Z.eqb_spec (zlen (oid_contents o)) 0); [done|]. m_step.
  unfold oid_contents in *. pose proof (zlen_arcs _ Hs) as Hz.
  subst o. rewrite !zlen_cons in Hcap, Hl. pose proof (zlen_nonneg vs).
  change (oid_subids (x :: y :: vs)) with (x * 40 + y :: vs) in *.
  rewrite (u32_id (objidlength - 1)) by lia.
  rewrite objid_loop_spec; [|done|unfold zlen in *; lia|
    rewrite zlen_cons; lia].
  assert (wr_list (a0 :: a1 :: objid) 1 (x * 40 + y :: vs)
          = Ok (a0 :: x * 40 + y :: vs ++ drop (length vs) objid)) as ->.
  { rewrite <- (take_drop (length vs) objid) at 1.
    apply (wr_list_app (x * 40 + y :: vs) [a0] (a1 :: take (length vs) objid)).
    simpl. rewrite length_take. simpl in Hobj. lia. }
  m_step. change (rd (a0 :: x * 40 + y :: ?l) 1) with (Ok (x * 40 + y)). m_step.
  rewrite (decode_first_arc x y) by (done || lia).
  change (0%nat =? 0%nat)%nat with true. m_step.
  change (oid_contents (x :: y :: vs)) with (concat (ber_arc <$> x * 40 + y :: vs)).
  change (wr (?a :: ?b :: ?l) 0 x) with (Ok (x :: b :: l)). m_step.
  change (wr (?a :: ?b :: ?l) 1 y) with (Ok (a :: y :: l)). m_step.
  rewrite (tlv_datalength tag) by done. rewrite length_ber_tlv, length_app, Nat.add_assoc.
  done.
Qed.
