(* ===== verification/Asn1Int64.v ===== *)
(** * Counter64, U64 and I64: the 64-bit integer routines of snmplib/asn1.c

    A [struct counter64] holds two 32-bit halves.  Plain Counter64 values are
    encoded like integers; the opaque special types wrap them in an Opaque
    whose contents start with the octet 0x9f and the special tag. *)

From S2P Require Import Prelude Ber Asn1 Asn1Int.
From stdpp Require Import prelude numbers list.
From Stdlib Require Import ZArith Lia.
Open Scope Z_scope.

Record counter64 : Set := Counter64 { c_high : Z; c_low : Z }.

#[global] Instance counter64_eq_dec : EqDecision counter64.
Proof. solve_decision. Defined.

Definition SIZEOF_COUNTER64 : Z := 8.

(** [high = ((0x00FFFFFF & high) << 8) | ((low & 0xFF000000) >> 24);
    low = ((low & 0x00FFFFFF) << 8) | *bufp++;] *)
Definition c64_push (c : counter64) (b : Z) : counter64 :=
  Counter64
    (Z.lor (Z.shiftl (Z.land 0x00FFFFFF (c_high c)) 8)
       (Z.shiftr (Z.land (c_low c) 0xFF000000) 24))
    (Z.lor (Z.shiftl (Z.land (c_low c) 0x00FFFFFF) 8) b).

Fixpoint parse_c64_loop (buf : list Z) (asn_length bufp : nat) (c : counter64)
    : M (nat * counter64) :=
  match asn_length with
  | O => Ok (bufp, c)
  | S asn_length =>
      b ← rd buf bufp;
      parse_c64_loop buf asn_length (S bufp) (c64_push c b)
  end.

(** From the size check on, the two decoders are the same text. *)
Definition parse_c64_contents (buf : list Z) (data bufp : nat)
    (datalength type asn_length : Z) : M (nat * Z * Z * counter64) :=
  if 9 <? asn_length then Err
  else
    too_long ← (if asn_length =? 9 then b ← rd buf bufp; Ok (negb (b =? 0x00))
                else Ok false);
    if too_long : bool then Err
    else
      let datalength := u32 (datalength - (asn_length + (Z.of_nat bufp - Z.of_nat data))) in
      b ← rd buf bufp;
      let c := if negb (Z.land b 0x80 =? 0) then Counter64 0xFFFFFF 0xFFFFFF
               else Counter64 0 0 in
      '(bufp, c) ← parse_c64_loop buf (Z.to_nat asn_length) bufp c;
      Ok (bufp, datalength, type, c).

(** [*bufp == ASN_OPAQUE_TAG1 && ( *(bufp + 1) ...)]: the second octet is only
    read when the first matches. *)
Definition opaque_tag (buf : list Z) (bufp : nat) (tags : Z → bool) : M (option Z) :=
  tag1 ← rd buf bufp;
  if tag1 =? ASN_OPAQUE_TAG1 then
    tag2 ← rd buf (bufp + 1);
    Ok (if tags tag2 then Some tag2 else None)
  else Ok None.

Definition asn_parse_unsigned_int64 (buf : list Z) (data : nat)
    (datalength countersize : Z) : M (nat * Z * Z * counter64) :=
  if negb (countersize =? SIZEOF_COUNTER64) then Err
  else
    type ← rd buf data;
    '(bufp, asn_length) ← parse_length_checked buf data (data + 1) datalength;
    special ← (if (type =? ASN_OPAQUE) && (asn_length <=? ASN_OPAQUE_COUNTER64_MX_BER_LEN)
               then opaque_tag buf bufp
                      (λ t, (t =? ASN_OPAQUE_COUNTER64) || (t =? ASN_OPAQUE_U64))
               else Ok None);
    match special with
    | Some type =>
        '(bufp, asn_length) ← parse_length_checked buf data (bufp + 2) datalength;
        parse_c64_contents buf data bufp datalength type asn_length
    | None => parse_c64_contents buf data bufp datalength type asn_length
    end.

Definition asn_parse_signed_int64 (buf : list Z) (data : nat)
    (datalength countersize : Z) : M (nat * Z * Z * counter64) :=
  if negb (countersize =? SIZEOF_COUNTER64) then Err
  else
    type ← rd buf data;
    '(bufp, asn_length) ← parse_length_checked buf data (data + 1) datalength;
    special ← (if (type =? ASN_OPAQUE) && (asn_length <=? ASN_OPAQUE_COUNTER64_MX_BER_LEN)
               then opaque_tag buf bufp (λ t, t =? ASN_OPAQUE_I64)
               else Ok None);
    match special with
    | Some type =>
        '(bufp, asn_length) ← parse_length_checked buf data (bufp + 2) datalength;
        parse_c64_contents buf data bufp datalength type asn_length
    | None =>
        (* the error message quotes two octets *)
        _ ← rd buf bufp;
        _ ← rd buf (bufp + 1);
        Err
    end.

(** [high = (high << 8) | ((low & mask) >> 24); low <<= 8;] *)
Definition c64_shift (c : counter64) : counter64 :=
  Counter64
    (Z.lor (u32 (Z.shiftl (c_high c) 8))
       (Z.shiftr (Z.land (c_low c) mask8) (8 * (SIZEOF_LONG - 1))))
    (u32 (Z.shiftl (c_low c) 8)).

Fixpoint trunc_c64_loop (intsize : nat) (c : counter64) : nat * counter64 :=
  match intsize with
  | S (S _ as intsize') =>
      if (Z.land (c_high c) mask9 =? 0) || (Z.land (c_high c) mask9 =? mask9)
      then trunc_c64_loop intsize' (c64_shift c)
      else (intsize, c)
  | _ => (intsize, c)
  end.

Fixpoint store_c64_loop (intsize : nat) (buf : list Z) (data : nat) (c : counter64)
    : M (list Z * nat) :=
  match intsize with
  | O => Ok (buf, data)
  | S intsize =>
      buf ← wr buf data
        (u8 (Z.shiftr (Z.land (c_high c) mask8) (8 * (SIZEOF_LONG - 1))));
      store_c64_loop intsize buf (S data) (c64_shift c)
  end.

(** Opaque wrapper: header, 0x9f, the special tag and the inner length. *)
Definition build_opaque_header (buf : list Z) (data : nat)
    (datalength special intsize : Z) : M (list Z * nat * Z) :=
  '(buf, data, datalength) ←
    build_header_checked buf data datalength ASN_OPAQUE (intsize + 3);
  buf ← wr buf data ASN_OPAQUE_TAG1;
  buf ← wr buf (data + 1) special;
  buf ← wr buf (data + 2) (u8 intsize);
  Ok (buf, (data + 3)%nat, u32 (datalength - 3)).

Definition asn_build_unsigned_int64 (buf : list Z) (data : nat) (datalength type : Z)
    (cp : counter64) (countersize : Z) : M (list Z * nat * Z) :=
  if negb (countersize =? SIZEOF_COUNTER64) then Err
  else
    let msb := u8 (Z.shiftr (Z.land (c_high cp) mask8) (8 * (SIZEOF_LONG - 1))) in
    let '(add_null_byte, intsize, c) :=
      if negb (Z.land msb 0x80 =? 0) then (true, 9%nat, cp)
      else let '(intsize, c) := trunc_c64_loop 8 cp in (false, intsize, c) in
    '(buf, data, datalength) ←
      (if type =? ASN_OPAQUE_COUNTER64
       then build_opaque_header buf data datalength ASN_OPAQUE_COUNTER64 (Z.of_nat intsize)
       else if type =? ASN_OPAQUE_U64
       then build_opaque_header buf data datalength ASN_OPAQUE_U64 (Z.of_nat intsize)
       else build_header_checked buf data datalength type (Z.of_nat intsize));
    let datalength := u32 (datalength - Z.of_nat intsize) in
    '(buf, data, intsize) ←
      (if add_null_byte : bool
       then buf ← wr buf data 0; Ok (buf, S data, Nat.pred intsize)
       else Ok (buf, data, intsize));
    '(buf, data) ← store_c64_loop intsize buf data c;
    Ok (buf, data, datalength).

Definition asn_build_signed_int64 (buf : list Z) (data : nat) (datalength type : Z)
    (cp : counter64) (countersize : Z) : M (list Z * nat * Z) :=
  if negb (countersize =? SIZEOF_COUNTER64) then Err
  else
    let '(intsize, c) := trunc_c64_loop 8 cp in
    '(buf, data, datalength) ←
      build_header_checked buf data datalength ASN_OPAQUE (Z.of_nat intsize + 3);
    buf ← wr buf data ASN_OPAQUE_TAG1;
    buf ← wr buf (data + 1) ASN_OPAQUE_I64;
    buf ← wr buf (data + 2) (u8 (Z.of_nat intsize));
    let datalength := u32 (datalength - (3 + Z.of_nat intsize)) in
    '(buf, data) ← store_c64_loop intsize buf (data + 3) c;
    Ok (buf, data, datalength).

(** ** The reference encoding and the value of a counter64 *)

Definition is_c64 (c : counter64) : Prop :=
  0 ≤ c_high c < 2 ^ 32 ∧ 0 ≤ c_low c < 2 ^ 32.

Definition c64_u (c : counter64) : Z := c_high c * 2 ^ 32 + c_low c.

(** Two's complement reading. *)
Definition c64_s (c : counter64) : Z :=
  if c_high c <? 2 ^ 31 then c64_u c else c64_u c - 2 ^ 64.

Definition c64_of (z : Z) : counter64 :=
  Counter64 (z / 2 ^ 32 mod 2 ^ 32) (z mod 2 ^ 32).

Definition opaque_contents (special : Z) (c : list Z) : list Z :=
  ASN_OPAQUE_TAG1 :: special :: zlen c :: c.

Definition ber_opaque (special : Z) (c : list Z) : list Z :=
  ber_tlv ASN_OPAQUE (opaque_contents special c).

(** What [asn_build_unsigned_int64] should produce for a tag. *)
Definition ber_c64 (type z : Z) : list Z :=
  if (type =? ASN_OPAQUE_COUNTER64) || (type =? ASN_OPAQUE_U64)
  then ber_opaque type (int_contents z)
  else ber_int type z.

#[global] Arguments ber_opaque : simpl never.
#[global] Arguments opaque_contents : simpl never.

(** ** Facts about the halves *)

Lemma c64_push_val c b :
  is_c64 c → is_byte b →
  is_c64 (c64_push c b) ∧ c64_u (c64_push c b) = (c64_u c * 256 + b) mod 2 ^ 64.
Proof.
  destruct c as [h l]. unfold is_c64, c64_push, c64_u, is_byte. cbn [c_high c_low].
  intros [Hh Hl] Hb.
  change 0x00FFFFFF with (2 ^ 24 - 1). rewrite (Z.land_comm (2 ^ 24 - 1)).
  change 0xFF000000 with ((2 ^ 8 - 1) * 2 ^ 24).
  rewrite !land_ones_mod, land_field, shiftr_div, Z.div_mul by lia.
  rewrite (Z.mod_small (l / 2 ^ 24)) by (Z.div_mod_to_equations; lia).
  rewrite !lor_shift_low by (Z.div_mod_to_equations; lia).
  Z.div_mod_to_equations; lia.
Qed.

Lemma c64_shift_val c :
  is_c64 c → is_c64 (c64_shift c) ∧ c64_u (c64_shift c) = (c64_u c * 256) mod 2 ^ 64.
Proof.
  destruct c as [h l]. unfold is_c64, c64_shift, c64_u. cbn [c_high c_low].
  intros [Hh Hl]. change mask8 with ((2 ^ 8 - 1) * 2 ^ 24).
  change (8 * (SIZEOF_LONG - 1)) with 24.
  rewrite land_field, shiftr_div, Z.div_mul by lia.
  rewrite (Z.mod_small (l / 2 ^ 24)) by (Z.div_mod_to_equations; lia).
  assert (u32 (Z.shiftl h 8) = Z.shiftl (h mod 2 ^ 24) 8) as ->.
  { unfold u32. rewrite !shiftl_mul by lia. Z.div_mod_to_equations; lia. }
  rewrite lor_shift_low by (Z.div_mod_to_equations; lia).
  unfold u32. rewrite shiftl_mul by lia. Z.div_mod_to_equations; lia.
Qed.

Lemma is_c64_of z : is_c64 (c64_of z).
Proof. split; apply Z.mod_pos_bound; lia. Qed.

Lemma c64_u_of z : c64_u (c64_of z) = z mod 2 ^ 64.
Proof. unfold c64_u, c64_of. cbn [c_high c_low]. Z.div_mod_to_equations; lia. Qed.

Lemma c64_u_inj c c' : is_c64 c → is_c64 c' → c64_u c = c64_u c' → c = c'.
Proof.
  destruct c as [h l], c' as [h' l']. unfold is_c64, c64_u. cbn. intros. f_equal; lia.
Qed.

Lemma c64_of_eq c z : is_c64 c → c64_u c = z mod 2 ^ 64 → c = c64_of z.
Proof. intros Hc H. apply c64_u_inj; [done|apply is_c64_of|]. by rewrite c64_u_of. Qed.

(** ** Encoding *)

Definition aligned64 (n : nat) (z : Z) (c : counter64) : Prop :=
  is_c64 c ∧ c64_u c = (z * 256 ^ (8 - Z.of_nat n)) mod 2 ^ 64.

Lemma c64_high c : is_c64 c → c_high c = c64_u c / 2 ^ 32.
Proof. destruct c as [h l]. unfold is_c64, c64_u. cbn. intros. Z.div_mod_to_equations; lia. Qed.

Lemma eight_cases n (P : nat → Prop) :
  (1 ≤ n ≤ 8)%nat → P 1%nat → P 2%nat → P 3%nat → P 4%nat → P 5%nat → P 6%nat →
  P 7%nat → P 8%nat → P n.
Proof. intros Hn ????????. do 9 (destruct n as [|n]; [done || lia|]). lia. Qed.

Lemma top_octet64 n z c :
  (1 ≤ n ≤ 8)%nat → aligned64 n z c →
  u8 (Z.shiftr (Z.land (c_high c) mask8) (8 * (SIZEOF_LONG - 1)))
  = z / 256 ^ Z.of_nat (n - 1) mod 256.
Proof.
  intros Hn [Hc Hu]. change mask8 with ((2 ^ 8 - 1) * 2 ^ 24).
  rewrite land_field by lia. change (8 * (SIZEOF_LONG - 1)) with 24.
  rewrite shiftr_div, Z.div_mul by lia.
  rewrite u8_id by (apply Z.mod_pos_bound; lia).
  rewrite (c64_high c Hc), Hu, Z.div_div by lia. clear Hu Hc.
  pattern n. apply eight_cases; [done|..]; simpl; Z.div_mod_to_equations; lia.
Qed.

Lemma trunc_test64 n z c :
  (2 ≤ n ≤ 8)%nat → fits n z = true → aligned64 n z c →
  (Z.land (c_high c) mask9 =? 0) || (Z.land (c_high c) mask9 =? mask9) = fits (n - 1) z.
Proof.
  intros Hn Hf%fits_spec [Hc Hu]. change mask9 with ((2 ^ 9 - 1) * 2 ^ 23).
  rewrite land_field by lia. rewrite (c64_high c Hc), Hu, Z.div_div by lia. clear Hu Hc.
  apply eq_true_iff_eq. rewrite orb_true_iff, !Z.eqb_eq, fits_spec.
  destruct n as [|n]; [lia|]. destruct n as [|n]; [lia|].
  assert (n = 0 ∨ n = 1 ∨ n = 2 ∨ n = 3 ∨ n = 4 ∨ n = 5 ∨ n = 6)%nat
    as [->|[->|[->|[->|[->|[->| ->]]]]]] by lia;
    simpl in *; split; intros; Z.div_mod_to_equations; lia.
Qed.

Lemma aligned64_shift n z c :
  (1 ≤ n ≤ 8)%nat → aligned64 n z c → aligned64 (n - 1) z (c64_shift c).
Proof.
  intros Hn [Hc Hu]. destruct (c64_shift_val c Hc) as [Hc' Hu'].
  split; [done|]. rewrite Hu', Hu, Z.mul_mod_idemp_l by lia.
  f_equal. rewrite <- Z.mul_assoc. f_equal.
  rewrite <- (Z.pow_1_r 256) at 2. rewrite <- Z.pow_add_r by lia. f_equal. lia.
Qed.

Lemma trunc_c64_loop_spec n z c :
  (1 ≤ n ≤ 8)%nat → fits n z = true → aligned64 n z c →
  (trunc_c64_loop n c).1 = int_size z ∧ aligned64 (int_size z) z (trunc_c64_loop n c).2.
Proof.
  revert c. induction n as [|n IH]; intros c Hn Hf Hc; [lia|].
  destruct n as [|n].
  { simpl. rewrite (int_size_unique 1 z) by (done || lia || auto). done. }
  cbn [trunc_c64_loop]. rewrite (trunc_test64 (S (S n)) z) by (done || lia).
  simpl Nat.sub. destruct (fits (S n) z) eqn:E.
  - apply IH; [lia|done|]. by apply (aligned64_shift (S (S n))); [lia|].
  - simpl. rewrite (int_size_unique (S (S n)) z); [done|lia|done|].
    right. simpl. by rewrite E.
Qed.

Lemma store_c64_loop_spec n z c buf data :
  (n ≤ 8)%nat → aligned64 n z c →
  store_c64_loop n buf data c
  = (buf ← wr_list buf data (be_bytes n z); Ok (buf, (data + n)%nat)).
Proof.
  revert c buf data. induction n as [|n IH]; intros c buf data Hn Hc.
  - simpl. by rewrite Nat.add_0_r.
  - cbn [store_c64_loop be_bytes wr_list]. rewrite (top_octet64 (S n) z) by (done || lia).
    simpl Nat.sub. rewrite Nat.sub_0_r.
    destruct (wr _ _ _); simpl; [|done..].
    rewrite IH; [|lia|].
    + destruct (wr_list _ _ _); simpl; [|done..]. do 2 f_equal. lia.
    + pose proof (aligned64_shift (S n) z c) as H. simpl in H.
      rewrite Nat.sub_0_r in H. apply H; [lia|done].
Qed.

Lemma aligned64_8 z : aligned64 8 z (c64_of z).
Proof.
  split; [apply is_c64_of|]. rewrite c64_u_of. simpl. by rewrite Z.mul_1_r.
Qed.

Lemma fits_8 z : fits 8 z = true ↔ - 2 ^ 63 ≤ z < 2 ^ 63.
Proof. apply (fits_spec 8). Qed.

Lemma fits_9 z : - 2 ^ 63 ≤ z < 2 ^ 64 → fits 9 z = true.
Proof. intros. apply fits_spec. change (8 * Z.of_nat 9 - 1) with 71. lia. Qed.

Lemma zlen_opaque_contents special c : zlen (opaque_contents special c) = zlen c + 3.
Proof. unfold opaque_contents. rewrite !zlen_cons. lia. Qed.

(** The wrapper followed by the contents is the opaque encoding. *)
Lemma build_opaque_put special c buf data dl :
  zlen c ≤ 100 → 0 ≤ dl < 2 ^ 32 → (data + Z.to_nat dl ≤ length buf)%nat →
  ('(buf, data, dl) ← build_opaque_header buf data dl special (zlen c);
   buf ← wr_list buf data c;
   Ok (buf, (data + length c)%nat, u32 (dl - zlen c)))
  = put (ber_opaque special c) buf data dl.
Proof.
  intros Hc Hd Hb. pose proof (zlen_nonneg c). unfold build_opaque_header, ber_opaque.
  rewrite <- build_tlv_put by (rewrite ?zlen_opaque_contents; done || lia).
  rewrite zlen_opaque_contents.
  destruct (build_header_checked _ _ _ _ _) as [[[buf' data'] dl']| |]; m_step; [|done..].
  unfold opaque_contents. cbn [wr_list length].
  rewrite (u8_id (zlen c)) by (unfold is_byte; lia).
  replace (data' + 1)%nat with (S data') by lia.
  replace (data' + 2)%nat with (S (S data')) by lia.
  replace (data' + 3)%nat with (S (S (S data'))) by lia.
  do 3 (destruct (wr _ _ _); m_step; [|done..]).
  destruct (wr_list _ _ _); m_step; [|done..].
  do 2 f_equal; [f_equal; lia|].
  unfold u32. rewrite Zminus_mod_idemp_l. f_equal. lia.
Qed.

Lemma msb64_set z : 0 ≤ z < 2 ^ 64 →
  (Z.land (u8 (Z.shiftr (Z.land (c_high (c64_of z)) mask8) (8 * (SIZEOF_LONG - 1)))) 0x80 =? 0)
  = (z <? 2 ^ 63).
Proof.
  intros Hz. rewrite (top_octet64 8 z) by (lia || apply aligned64_8).
  rewrite land_128 by (apply Z.mod_pos_bound; lia). simpl.
  destruct (Z.ltb_spec z 9223372036854775808);
    [rewrite decide_True|rewrite decide_False]; (done || (Z.div_mod_to_equations; lia)).
Qed.

(** The header chosen by [type], followed by the contents. *)
Lemma build_c64_put type c buf data dl :
  zlen c ≤ 100 → 0 ≤ dl < 2 ^ 32 → (data + Z.to_nat dl ≤ length buf)%nat →
  ('(buf, data, dl) ←
     (if type =? ASN_OPAQUE_COUNTER64
      then build_opaque_header buf data dl ASN_OPAQUE_COUNTER64 (zlen c)
      else if type =? ASN_OPAQUE_U64
      then build_opaque_header buf data dl ASN_OPAQUE_U64 (zlen c)
      else build_header_checked buf data dl type (zlen c));
   buf ← wr_list buf data c;
   Ok (buf, (data + length c)%nat, u32 (dl - zlen c)))
  = put (if (type =? ASN_OPAQUE_COUNTER64) || (type =? ASN_OPAQUE_U64)
         then ber_opaque type c else ber_tlv type c) buf data dl.
Proof.
  intros. destruct (Z.eqb_spec type ASN_OPAQUE_COUNTER64) as [->|]; m_step.
  { by apply build_opaque_put. }
  destruct (Z.eqb_spec type ASN_OPAQUE_U64) as [->|].
  - by apply build_opaque_put.
  - apply build_tlv_put; lia.
Qed.

Lemma asn_build_unsigned_int64_encodes type z :
  0 ≤ z < 2 ^ 64 →
  Encodes (λ buf data dl,
    asn_build_unsigned_int64 buf data dl type (c64_of z) SIZEOF_COUNTER64) (ber_c64 type z).
Proof.
  intros Hz buf data dl Hd Hb. unfold asn_build_unsigned_int64. rewrite Z.eqb_refl. m_step.
  rewrite msb64_set by done. unfold ber_c64, ber_int. pose proof (int_size_bounds z).
  rewrite <- build_c64_put by (rewrite ?zlen_int_contents; lia).
  rewrite zlen_int_contents.
  destruct (Z.ltb_spec z (2 ^ 63)); m_step.
  - destruct (trunc_c64_loop_spec 8 z (c64_of z)) as [Hs Ha];
      [lia|apply fits_8; lia|apply aligned64_8|].
    destruct (trunc_c64_loop 8 (c64_of z)) as [n c]. simpl in Hs, Ha. subst n.
    assert (int_size z ≤ 8)%nat by (apply int_size_le; [lia|apply fits_8; lia]).
    destruct (if type =? ASN_OPAQUE_COUNTER64 then _ else _) as [[[buf' data'] dl']| |];
      m_step; [|done..].
    rewrite (store_c64_loop_spec _ z) by done. fold (int_contents z).
    destruct (wr_list _ _ _); m_step; [|done..]. by rewrite length_int_contents.
  - assert (int_size z = 9%nat) as Hs.
    { apply int_size_unique; [lia|apply fits_9; lia|]. right.
      apply not_true_is_false. rewrite fits_8. lia. }
    rewrite Hs.
    destruct (if type =? ASN_OPAQUE_COUNTER64 then _ else _) as [[[buf' data'] dl']| |];
      m_step; [|done..].
    unfold int_contents. rewrite Hs. change (be_bytes 9 z) with
      (z / 256 ^ Z.of_nat 8 mod 256 :: be_bytes 8 z).
    rewrite Z.div_small by lia. change (0 mod 256) with 0. cbn [wr_list].
    destruct (wr buf' data' 0); m_step; [|done..]. simpl Nat.pred.
    rewrite (store_c64_loop_spec 8 z) by (done || apply aligned64_8).
    destruct (wr_list _ _ _); m_step; [|done..].
    do 2 f_equal. f_equal. simpl. lia.
Qed.

Lemma asn_build_signed_int64_encodes type z :
  - 2 ^ 63 ≤ z < 2 ^ 63 →
  Encodes (λ buf data dl,
    asn_build_signed_int64 buf data dl type (c64_of z) SIZEOF_COUNTER64)
    (ber_opaque ASN_OPAQUE_I64 (int_contents z)).
Proof.
  intros Hz buf data dl Hd Hb. unfold asn_build_signed_int64. rewrite Z.eqb_refl. m_step.
  destruct (trunc_c64_loop_spec 8 z (c64_of z)) as [Hs Ha];
    [lia|by apply fits_8|apply aligned64_8|].
  destruct (trunc_c64_loop 8 (c64_of z)) as [n c]. simpl in Hs, Ha. subst n.
  assert (int_size z ≤ 8)%nat by (apply int_size_le; [lia|by apply fits_8]).
  rewrite <- build_opaque_put by (rewrite ?zlen_int_contents; lia).
  unfold build_opaque_header. rewrite zlen_int_contents.
  destruct (build_header_checked _ _ _ _ _) as [[[buf' data'] dl']| |]; m_step; [|done..].
  do 3 (destruct (wr _ _ _); m_step; [|done..]).
  rewrite (store_c64_loop_spec _ z) by done. fold (int_contents z).
  destruct (wr_list _ _ _); m_step; [|done..]. rewrite length_int_contents.
  do 2 f_equal. unfold u32. rewrite Zminus_mod_idemp_l. f_equal. lia.
Qed.

(** ** Decoding *)

Lemma parse_c64_loop_spec l pre post c :
  Forall is_byte l → is_c64 c →
  ∃ c', parse_c64_loop (pre ++ l ++ post) (length l) (length pre) c
        = Ok ((length pre + length l)%nat, c') ∧
        is_c64 c' ∧ c64_u c' = be_val (c64_u c) l mod 2 ^ 64.
Proof.
  intros Hl. revert pre c. induction Hl as [|b l Hb Hl IH]; intros pre c Hc; simpl.
  - exists c. rewrite Nat.add_0_r. split_and!; try apply Hc; [done|].
    unfold be_val. simpl. rewrite Z.mod_small; [done|].
    unfold is_c64, c64_u in *. lia.
  - rewrite rd_app_l. m_step. destruct (c64_push_val c b Hc Hb) as [Hc' Hu].
    destruct (IH (pre ++ [b]) (c64_push c b) Hc') as (c' & Hp & Hc'' & Hu').
    rewrite <- app_assoc, length_app, Nat.add_1_r in Hp. cbn [app] in Hp.
    exists c'. rewrite Hp. split_and!; [do 2 f_equal; lia|apply Hc''..|].
    rewrite Hu', Hu. clear. unfold be_val. cbn [fold_left].
    generalize (c64_u c * 256 + b). intros v. fold (be_val (v mod 2 ^ 64) l) (be_val v l).
    assert (∀ v w, v mod 2 ^ 64 = w mod 2 ^ 64 →
              be_val v l mod 2 ^ 64 = be_val w l mod 2 ^ 64) as H.
    { clear. unfold be_val. induction l as [|b l IH]; intros v w Hvw; [done|].
      cbn [fold_left]. apply IH.
      rewrite <- (Z.add_mod_idemp_l (v * 256)), <- (Z.mul_mod_idemp_l v), Hvw by lia.
      by rewrite Z.mul_mod_idemp_l, Z.add_mod_idemp_l by lia. }
    apply H, Z.mod_mod. lia.
Qed.

(** The value the decoder starts from when the leading bit is set: the halves
    are each filled with 24 ones. *)
Definition sign_fill : Z := c64_u (Counter64 0xFFFFFF 0xFFFFFF).

(** What the decoders compute from the shortest contents of [z]. *)
Definition c64_decoded (z : Z) : counter64 :=
  if 0 <=? z then c64_of z
  else c64_of (sign_fill * 256 ^ Z.of_nat (int_size z) + z mod 256 ^ Z.of_nat (int_size z)).

Lemma parse_c64_contents_spec pre z post data dl type :
  - 2 ^ 63 ≤ z < 2 ^ 64 →
  parse_c64_contents (pre ++ int_contents z ++ post) data (length pre) dl type
    (zlen (int_contents z))
  = Ok ((length pre + int_size z)%nat,
        u32 (dl - (zlen (int_contents z) + (Z.of_nat (length pre) - Z.of_nat data))),
        type, c64_decoded z).
Proof.
  intros Hz. pose proof (fits_9 z Hz) as Hf9. pose proof (int_size_bounds z) as Hs.
  pose proof (int_size_fits z Hf9) as Hf.
  destruct (int_contents_cons z) as (b & l & Hbl).
  pose proof (be_bytes_sign _ _ _ _ Hf Hbl) as Hsign.
  assert (rd (pre ++ int_contents z ++ post) (length pre) = Ok b) as Hrd.
  { rewrite Hbl. apply rd_app_l. }
  unfold parse_c64_contents. rewrite Hrd, zlen_int_contents. m_step. rewrite Hsign.
  destruct (Z.ltb_spec 9 (Z.of_nat (int_size z))); [lia|].
  assert ((if Z.of_nat (int_size z) =? 9 then Ok (negb (b =? 0)) else Ok false)
          = Ok (A:=bool) false) as ->.
  { destruct (Z.eqb_spec (Z.of_nat (int_size z)) 9) as [E|]; [|done].
    assert (2 ^ 63 ≤ z).
    { apply Z.nlt_ge. intros ?. pose proof (int_size_le 8 z ltac:(lia)) as H'.
      rewrite fits_8 in H'. lia. }
    unfold int_contents in Hbl. replace (int_size z) with 9%nat in Hbl by lia.
    simpl in Hbl. injection Hbl as <- _. by rewrite Z.div_small by lia. }
  m_step. rewrite Nat2Z.id.
  rewrite <- (length_int_contents z).
  destruct (parse_c64_loop_spec (int_contents z) pre post
    (if negb (0 <=? z) then Counter64 0xFFFFFF 0xFFFFFF else Counter64 0 0))
    as (c' & -> & Hc' & Hu); [apply be_bytes_ok|by destruct (0 <=? z)|].
  m_step. do 2 f_equal. apply c64_u_inj; [done|unfold c64_decoded; destruct (0 <=? z); apply is_c64_of|].
  rewrite Hu. unfold c64_decoded, int_contents. rewrite be_val_be_bytes.
  destruct (Z.leb_spec 0 z); simpl negb; cbn iota; rewrite c64_u_of; [|done].
  change (c64_u (Counter64 0 0)) with 0. rewrite Z.mul_0_l, Z.add_0_l. f_equal.
  apply Z.mod_small. apply fits_spec in Hf. split; [lia|].
  eapply Z.lt_le_trans; [apply Hf|]. change 256 with (2 ^ 8).
  rewrite <- Z.pow_mul_r by lia. apply Z.pow_le_mono_r; lia.
Qed.

(** Opening an opaque special value: outer header, the two tag octets, the
    inner length. *)
Lemma open_opaque special c pre post dl :
  zlen c ≤ 100 → zlen (ber_opaque special c) ≤ dl < 2 ^ 32 →
  let buf := pre ++ ber_opaque special c ++ post in
  let p := length (pre ++ tlv_head ASN_OPAQUE (opaque_contents special c)) in
  let q := length ((pre ++ tlv_head ASN_OPAQUE (opaque_contents special c))
                   ++ [ASN_OPAQUE_TAG1; special; zlen c]) in
  rd buf (length pre) = Ok ASN_OPAQUE ∧
  parse_length_checked buf (length pre) (length pre + 1) dl
  = Ok (p, zlen c + 3) ∧
  rd buf p = Ok ASN_OPAQUE_TAG1 ∧ rd buf (p + 1) = Ok special ∧
  parse_length_checked buf (length pre) (p + 2) dl = Ok (q, zlen c) ∧
  buf = ((pre ++ tlv_head ASN_OPAQUE (opaque_contents special c))
         ++ [ASN_OPAQUE_TAG1; special; zlen c]) ++ c ++ post ∧
  (q + length c)%nat = (length pre + length (ber_opaque special c))%nat ∧
  u32 (dl - (zlen c + (Z.of_nat q - Z.of_nat (length pre))))
  = dl - zlen (ber_opaque special c).
Proof.
  intros Hc Hd buf p q. pose proof (zlen_nonneg c).
  pose proof (zlen_opaque_contents special c) as Hoc.
  destruct (open_tlv ASN_OPAQUE (opaque_contents special c) pre post dl) as [Ht Hl];
    [lia|done|].
  assert (buf = (pre ++ tlv_head ASN_OPAQUE (opaque_contents special c))
                ++ opaque_contents special c ++ post) as Hbuf by apply ber_tlv_split.
  assert (zlen (ber_opaque special c)
          = zlen (tlv_head ASN_OPAQUE (opaque_contents special c)) + 3 + zlen c) as Hz.
  { unfold zlen in *. unfold ber_opaque. rewrite length_ber_tlv. lia. }
  set (h := pre ++ tlv_head ASN_OPAQUE (opaque_contents special c)) in *.
  assert (Z.of_nat (length h) = Z.of_nat (length pre)
          + zlen (tlv_head ASN_OPAQUE (opaque_contents special c))) as Hh.
  { unfold h, zlen. rewrite length_app. lia. }
  assert (zlen (tlv_head ASN_OPAQUE (opaque_contents special c)) = 2) as Ht2.
  { unfold tlv_head. rewrite zlen_cons, zlen_ber_length, Hoc.
    destruct (Z.ltb_spec (zlen c + 3) 128); lia. }
  split_and!; [done|by rewrite <- Hoc| | | | | |].
  - rewrite Hbuf. apply rd_app_l.
  - rewrite Hbuf. by apply rd_app.
  - assert (buf = (h ++ [ASN_OPAQUE_TAG1; special]) ++ ber_length (zlen c) ++ (c ++ post))
      as ->.
    { rewrite Hbuf. unfold opaque_contents, ber_length.
      destruct (Z.ltb_spec (zlen c) 128); [|lia]. by rewrite <- app_assoc. }
    replace (p + 2)%nat with (length (h ++ [ASN_OPAQUE_TAG1; special]))
      by (rewrite length_app; done).
    pose proof (zlen_ber_length (zlen c)) as Hbl.
    destruct (Z.ltb_spec (zlen c) 128); [|lia].
    rewrite parse_length_checked_ber; rewrite ?length_app; simpl length; [|lia..].
    do 2 f_equal. subst q. rewrite (length_app h). simpl length. unfold zlen at 1 in Hbl. lia.
  - rewrite Hbuf. unfold opaque_contents. by rewrite <- app_assoc.
  - subst q. unfold zlen in *. rewrite (length_app h).
    change (length [_; _; _]) with 3%nat. lia.
  - subst q. rewrite (length_app h). change (length [_; _; _]) with 3%nat.
    unfold zlen in *. rewrite u32_id; lia.
Qed.

Lemma asn_parse_unsigned_int64_decodes type z :
  0 ≤ z < 2 ^ 64 → type ≠ ASN_OPAQUE →
  Decodes (λ buf data dl, asn_parse_unsigned_int64 buf data dl SIZEOF_COUNTER64)
    type (ber_c64 type z) (c64_of z).
Proof.
  intros Hz Ht pre post dl Hd. unfold asn_parse_unsigned_int64. rewrite Z.eqb_refl. m_step.
  pose proof (int_size_bounds z) as Hs. pose proof (zlen_int_contents z) as Hc.
  assert (c64_decoded z = c64_of z) as Hdec.
  { unfold c64_decoded. by destruct (Z.leb_spec 0 z); [|lia]. }
  unfold ber_c64 in *.
  destruct ((type =? ASN_OPAQUE_COUNTER64) || (type =? ASN_OPAQUE_U64)) eqn:Hty.
  - destruct (open_opaque type (int_contents z) pre post dl)
      as (-> & Hl & Ht1 & Ht2 & Hl2 & Hbuf & Hq & Hdl); [lia|done|].
    m_step. rewrite Hl, Hc. m_step. rewrite Z.eqb_refl.
    unfold ASN_OPAQUE_COUNTER64_MX_BER_LEN.
    destruct (Z.leb_spec (Z.of_nat (int_size z) + 3) 12); [|lia]. m_step.
    unfold opaque_tag. rewrite Ht1. m_step. rewrite Z.eqb_refl, Ht2. m_step. rewrite Hty.
    rewrite Hl2. m_step. rewrite Hbuf, parse_c64_contents_spec by lia.
    by rewrite Hdl, <- (length_int_contents z), Hq, Hdec.
  - unfold ber_int in *.
    destruct (open_tlv type (int_contents z) pre post dl) as [Hr Hl]; [lia|done|].
    rewrite Hr. m_step. rewrite Hl. m_step.
    destruct (Z.eqb_spec type ASN_OPAQUE); [done|]. m_step.
    rewrite ber_tlv_split, parse_c64_contents_spec by lia.
    rewrite (tlv_datalength type) by done.
    by rewrite Hdec, length_ber_tlv, length_app, Nat.add_assoc, length_int_contents.
Qed.

Lemma asn_parse_signed_int64_decodes z :
  - 2 ^ 63 ≤ z < 2 ^ 63 →
  Decodes (λ buf data dl, asn_parse_signed_int64 buf data dl SIZEOF_COUNTER64)
    ASN_OPAQUE_I64 (ber_opaque ASN_OPAQUE_I64 (int_contents z)) (c64_decoded z).
Proof.
  intros Hz pre post dl Hd. unfold asn_parse_signed_int64. rewrite Z.eqb_refl. m_step.
  pose proof (int_size_bounds z) as Hs. pose proof (zlen_int_contents z) as Hc.
  destruct (open_opaque ASN_OPAQUE_I64 (int_contents z) pre post dl)
    as (-> & Hl & Ht1 & Ht2 & Hl2 & Hbuf & Hq & Hdl); [lia|done|].
  m_step. rewrite Hl, Hc. m_step. rewrite Z.eqb_refl.
  unfold ASN_OPAQUE_COUNTER64_MX_BER_LEN.
  destruct (Z.leb_spec (Z.of_nat (int_size z) + 3) 12); [|lia]. m_step.
  unfold opaque_tag. rewrite Ht1. m_step. rewrite Z.eqb_refl, Ht2. m_step.
  rewrite Z.eqb_refl, Hl2. m_step. rewrite Hbuf, parse_c64_contents_spec by lia.
  by rewrite Hdl, <- (length_int_contents z), Hq.
Qed.

(** The sign fill is right from five octets on, and wrong for one to four. *)
Lemma c64_decoded_ok z :
  0 ≤ z < 2 ^ 64 ∨ - 2 ^ 63 ≤ z < - 2 ^ 31 → c64_decoded z = c64_of z.
Proof.
  unfold c64_decoded. destruct (Z.leb_spec 0 z); [done|]. intros [?|Hz]; [lia|].
  apply c64_of_eq; [apply is_c64_of|]. rewrite c64_u_of.
  assert (5 ≤ int_size z ≤ 8)%nat as Hs.
  { split; [|apply int_size_le; [lia|apply fits_8; lia]].
    apply Nat.nlt_ge. intros ?.
    assert (fits 4 z = true) as H4; [|rewrite fits_4 in H4; lia].
    eapply fits_le; [|apply int_size_fits, fits_9; lia]. pose proof (int_size_bounds z). lia. }
  assert (fits (int_size z) z = true) as Hf by (apply int_size_fits, fits_9; lia).
  apply fits_spec in Hf. change sign_fill with 72057589759737855.
  destruct (int_size z) as [|[|[|[|[|n]]]]]; [lia..|].
  assert (n = 0 ∨ n = 1 ∨ n = 2 ∨ n = 3)%nat as [->|[->|[->| ->]]] by lia;
    simpl in *; Z.div_mod_to_equations; lia.
Qed.

Lemma c64_decoded_wrong z : - 2 ^ 31 ≤ z < 0 → c64_decoded z ≠ c64_of z.
Proof.
  intros Hz E%(f_equal c64_u). unfold c64_decoded in E.
  destruct (Z.leb_spec 0 z); [lia|]. rewrite !c64_u_of in E.
  assert (1 ≤ int_size z ≤ 4)%nat as Hs.
  { pose proof (int_size_bounds z). split; [lia|]. apply int_size_le; [lia|apply fits_4; lia]. }
  assert (fits (int_size z) z = true) as Hf by (apply int_size_fits, fits_9; lia).
  apply fits_spec in Hf. change sign_fill with 72057589759737855 in E.
  revert Hf E. pattern (int_size z). apply four_cases; [done|..]; simpl; intros;
    Z.div_mod_to_equations; lia.
Qed.
