(* ===== verification/Asn1Float.v ===== *)
(** * Float and double: asn_parse_float, asn_build_float, asn_parse_double and
    asn_build_double of snmplib/asn1.c

    A [float] or [double] is its object representation, a 32- or 64-bit
    pattern; the routines only move octets and never compute with the value.
    The host is little-endian. *)

From S2P Require Import Prelude Ber Asn1 Asn1Int Asn1Int64.
From stdpp Require Import prelude numbers list.
From Stdlib Require Import ZArith Lia.
Open Scope Z_scope.

Definition SIZEOF_FLOAT : Z := 4.
Definition SIZEOF_DOUBLE : Z := 8.

(** Object representation of a 32-bit word, and back. *)
Definition store32 (w : Z) : list Z := rev (be_bytes 4 w).
Definition load32 (l : list Z) : Z := be_val 0 (rev l).

(** [htonl] and [ntohl] swap the octets on this host. *)
Definition htonl (w : Z) : Z := be_val 0 (rev (be_bytes 4 w)).
Definition ntohl (w : Z) : Z := be_val 0 (rev (be_bytes 4 w)).

(** The octets of the union [fu] after [fu.intVal = htonl(fu.intVal)]. *)
Definition float_octets (bits : Z) : list Z := store32 (htonl bits).

(** [tmp = htonl(intVal[0]); intVal[0] = htonl(intVal[1]); intVal[1] = tmp;]
    where [intVal[0]] is the low word. *)
Definition double_octets (bits : Z) : list Z :=
  let intVal0 := bits mod 2 ^ 32 in
  let intVal1 := bits / 2 ^ 32 in
  let tmp := htonl intVal0 in
  store32 (htonl intVal1) ++ store32 tmp.

Definition float_of_octets (l : list Z) : Z := ntohl (load32 l).

Definition double_of_octets (l : list Z) : Z :=
  let intVal0 := load32 (take 4 l) in
  let intVal1 := load32 (drop 4 l) in
  let tmp := ntohl intVal0 in
  let intVal0 := ntohl intVal1 in
  tmp * 2 ^ 32 + intVal0.

(** The returned pointer is [bufp], the start of the value's octets. *)
Definition asn_parse_float (buf : list Z) (data : nat) (datalength floatsize : Z)
    : M (nat * Z * Z * Z) :=
  if negb (floatsize =? SIZEOF_FLOAT) then Err
  else
    type ← rd buf data;
    '(bufp, asn_length) ← parse_length_checked buf data (data + 1) datalength;
    special ← (if (type =? ASN_OPAQUE) && (asn_length =? ASN_OPAQUE_FLOAT_BER_LEN)
               then opaque_tag buf bufp (λ t, t =? ASN_OPAQUE_FLOAT) else Ok None);
    '(bufp, asn_length, type) ←
      (match special with
       | Some _ =>
           '(bufp, asn_length) ← parse_length_checked buf data (bufp + 2) datalength;
           Ok (bufp, asn_length, ASN_OPAQUE_FLOAT)
       | None => Ok (bufp, asn_length, type)
       end);
    if negb (asn_length =? SIZEOF_FLOAT) then Err
    else
      let datalength := u32 (datalength - (asn_length + (Z.of_nat bufp - Z.of_nat data))) in
      c ← rd_list buf bufp (Z.to_nat asn_length);
      Ok (bufp, datalength, type, float_of_octets c).

Definition asn_parse_double (buf : list Z) (data : nat) (datalength doublesize : Z)
    : M (nat * Z * Z * Z) :=
  if negb (doublesize =? SIZEOF_DOUBLE) then Err
  else
    type ← rd buf data;
    '(bufp, asn_length) ← parse_length_checked buf data (data + 1) datalength;
    special ← (if (type =? ASN_OPAQUE) && (asn_length =? ASN_OPAQUE_DOUBLE_BER_LEN)
               then opaque_tag buf bufp (λ t, t =? ASN_OPAQUE_DOUBLE) else Ok None);
    '(bufp, asn_length, type) ←
      (match special with
       | Some _ =>
           '(bufp, asn_length) ← parse_length_checked buf data (bufp + 2) datalength;
           Ok (bufp, asn_length, ASN_OPAQUE_DOUBLE)
       | None => Ok (bufp, asn_length, type)
       end);
    if negb (asn_length =? SIZEOF_DOUBLE) then Err
    else
      let datalength := u32 (datalength - (asn_length + (Z.of_nat bufp - Z.of_nat data))) in
      c ← rd_list buf bufp (Z.to_nat asn_length);
      Ok (bufp, datalength, type, double_of_octets c).

Definition asn_build_float (buf : list Z) (data : nat)
    (datalength type bits floatsize : Z) : M (list Z * nat * Z) :=
  if negb (floatsize =? SIZEOF_FLOAT) then Err
  else
    '(buf, data, datalength) ←
      build_opaque_header buf data datalength ASN_OPAQUE_FLOAT floatsize;
    let datalength := u32 (datalength - floatsize) in
    buf ← wr_list buf data (float_octets bits);
    Ok (buf, (data + Z.to_nat floatsize)%nat, datalength).

Definition asn_build_double (buf : list Z) (data : nat)
    (datalength type bits doublesize : Z) : M (list Z * nat * Z) :=
  if negb (doublesize =? SIZEOF_DOUBLE) then Err
  else
    '(buf, data, datalength) ←
      build_opaque_header buf data datalength ASN_OPAQUE_DOUBLE doublesize;
    let datalength := u32 (datalength - doublesize) in
    buf ← wr_list buf data (double_octets bits);
    Ok (buf, (data + Z.to_nat doublesize)%nat, datalength).

(** ** Octet order *)

Lemma be_bytes_be_val l :
  Forall is_byte l → be_bytes (length l) (be_val 0 l) = l.
Proof.
  assert (∀ v, 0 ≤ v → Forall is_byte l → be_bytes (length l) (be_val v l) = l) as H;
    [|by apply H].
  induction l as [|b l IH]; intros v Hv Hl; [done|]. apply Forall_cons in Hl as [Hb Hl].
  cbn [length be_bytes]. change (be_val v (b :: l)) with (be_val (v * 256 + b) l).
  unfold is_byte in Hb. f_equal; [|apply IH; [lia|done]].
  pose proof (be_val_bound (v * 256 + b) l Hl ltac:(lia)) as Hbd.
  set (P := 256 ^ Z.of_nat (length l)) in *.
  rewrite <- (Z.div_unique (be_val (v * 256 + b) l) P (v * 256 + b)
                (be_val (v * 256 + b) l - P * (v * 256 + b))) by lia.
  rewrite Z.add_comm, Z.mod_add by lia. apply Z.mod_small. lia.
Qed.

Lemma store32_htonl w : store32 (htonl w) = be_bytes 4 w.
Proof.
  unfold store32, htonl.
  rewrite <- (length_be_bytes 4 w) at 1. rewrite <- length_rev.
  rewrite be_bytes_be_val by (apply Forall_rev, be_bytes_ok). apply rev_involutive.
Qed.

Lemma ntohl_load32 w : 0 ≤ w < 2 ^ 32 → ntohl (load32 (be_bytes 4 w)) = w.
Proof.
  intros Hw. unfold ntohl, load32.
  rewrite <- (length_be_bytes 4 w) at 1. rewrite <- length_rev.
  rewrite be_bytes_be_val by (apply Forall_rev, be_bytes_ok). rewrite rev_involutive.
  rewrite be_val_be_bytes. simpl. rewrite Z.mod_small; lia.
Qed.

Lemma float_octets_be bits : float_octets bits = be_bytes 4 bits.
Proof. apply store32_htonl. Qed.

Lemma be_bytes_4_low bits : be_bytes 4 (bits mod 2 ^ 32) = be_bytes 4 bits.
Proof. simpl. list_eq; Z.div_mod_to_equations; lia. Qed.

Lemma double_octets_be bits : double_octets bits = be_bytes 8 bits.
Proof.
  unfold double_octets. rewrite !store32_htonl, be_bytes_4_low. simpl.
  list_eq; try done; rewrite ?Z.div_div by lia; done.
Qed.

Lemma float_of_octets_be bits : 0 ≤ bits < 2 ^ 32 → float_of_octets (be_bytes 4 bits) = bits.
Proof. apply ntohl_load32. Qed.

Lemma double_of_octets_be bits :
  0 ≤ bits < 2 ^ 64 → double_of_octets (be_bytes 8 bits) = bits.
Proof.
  intros Hb. unfold double_of_octets. rewrite <- double_octets_be. unfold double_octets.
  rewrite !store32_htonl.
  rewrite take_app_length', drop_app_length' by (symmetry; apply length_be_bytes).
  rewrite !ntohl_load32 by (Z.div_mod_to_equations; lia).
  pose proof (Z.div_mod bits (2 ^ 32)). lia.
Qed.

(** ** Encoding and decoding *)

Lemma asn_build_float_encodes type bits :
  Encodes (λ buf data dl, asn_build_float buf data dl type bits SIZEOF_FLOAT)
    (ber_opaque ASN_OPAQUE_FLOAT (be_bytes 4 bits)).
Proof.
  intros buf data dl Hd Hb. unfold asn_build_float. rewrite Z.eqb_refl. m_step.
  rewrite <- build_opaque_put by (rewrite ?zlen_be_bytes; done || lia).
  rewrite zlen_be_bytes, length_be_bytes, float_octets_be.
  change (Z.of_nat 4) with SIZEOF_FLOAT.
  destruct (build_opaque_header _ _ _ _ _) as [[[buf' data'] dl']| |]; m_step; done.
Qed.

Lemma asn_build_double_encodes type bits :
  Encodes (λ buf data dl, asn_build_double buf data dl type bits SIZEOF_DOUBLE)
    (ber_opaque ASN_OPAQUE_DOUBLE (be_bytes 8 bits)).
Proof.
  intros buf data dl Hd Hb. unfold asn_build_double. rewrite Z.eqb_refl. m_step.
  rewrite <- build_opaque_put by (rewrite ?zlen_be_bytes; done || lia).
  rewrite zlen_be_bytes, length_be_bytes, double_octets_be.
  change (Z.of_nat 8) with SIZEOF_DOUBLE.
  destruct (build_opaque_header _ _ _ _ _) as [[[buf' data'] dl']| |]; m_step; done.
Qed.

(** The value is recovered; the returned position is that of the value's
    octets, not the one after them. *)
Lemma asn_parse_float_spec bits pre post dl :
  0 ≤ bits < 2 ^ 32 →
  let enc := ber_opaque ASN_OPAQUE_FLOAT (be_bytes 4 bits) in
  zlen enc ≤ dl < 2 ^ 32 →
  asn_parse_float (pre ++ enc ++ post) (length pre) dl SIZEOF_FLOAT
  = Ok ((length pre + length enc - 4)%nat, dl - zlen enc, ASN_OPAQUE_FLOAT, bits).
Proof.
  intros Hb enc Hd. subst enc. unfold asn_parse_float. rewrite Z.eqb_refl. m_step.
  destruct (open_opaque ASN_OPAQUE_FLOAT (be_bytes 4 bits) pre post dl)
    as (-> & Hl & Ht1 & Ht2 & Hl2 & Hbuf & Hq & Hdl); [by rewrite zlen_be_bytes|done|].
  rewrite zlen_be_bytes in *. m_step. rewrite Hl. m_step. rewrite Z.eqb_refl.
  change (Z.of_nat 4 + 3 =? ASN_OPAQUE_FLOAT_BER_LEN) with true. m_step.
  unfold opaque_tag. rewrite Ht1. m_step. rewrite Z.eqb_refl, Ht2. m_step.
  rewrite Z.eqb_refl, Hl2. m_step. change (Z.of_nat 4 =? SIZEOF_FLOAT) with true. m_step.
  rewrite Hbuf, Nat2Z.id. rewrite <- (length_be_bytes 4 bits) at 7.
  rewrite rd_list_app. m_step. rewrite Hdl, float_of_octets_be by done.
  rewrite length_be_bytes in *. do 4 f_equal. lia.
Qed.

Lemma asn_parse_double_spec bits pre post dl :
  0 ≤ bits < 2 ^ 64 →
  let enc := ber_opaque ASN_OPAQUE_DOUBLE (be_bytes 8 bits) in
  zlen enc ≤ dl < 2 ^ 32 →
  asn_parse_double (pre ++ enc ++ post) (length pre) dl SIZEOF_DOUBLE
  = Ok ((length pre + length enc - 8)%nat, dl - zlen enc, ASN_OPAQUE_DOUBLE, bits).
Proof.
  intros Hb enc Hd. subst enc. unfold asn_parse_double. rewrite Z.eqb_refl. m_step.
  destruct (open_opaque ASN_OPAQUE_DOUBLE (be_bytes 8 bits) pre post dl)
    as (-> & Hl & Ht1 & Ht2 & Hl2 & Hbuf & Hq & Hdl); [by rewrite zlen_be_bytes|done|].
  rewrite zlen_be_bytes in *. m_step. rewrite Hl. m_step. rewrite Z.eqb_refl.
  change (Z.of_nat 8 + 3 =? ASN_OPAQUE_DOUBLE_BER_LEN) with true. m_step.
  unfold opaque_tag. rewrite Ht1. m_step. rewrite Z.eqb_refl, Ht2. m_step.
  rewrite Z.eqb_refl, Hl2. m_step. change (Z.of_nat 8 =? SIZEOF_DOUBLE) with true. m_step.
  rewrite Hbuf, Nat2Z.id. rewrite <- (length_be_bytes 8 bits) at 7.
  rewrite rd_list_app. m_step. rewrite Hdl, double_of_octets_be by done.
  rewrite length_be_bytes in *. do 4 f_equal. lia.
Qed.
