(* ===== verification/Asn1Rbuild.v ===== *)
(** * Reverse encoding: the asn_realloc_rbuild_* routines of snmplib/asn1.c

    The reverse encoders fill the packet buffer from its end; [offset] bytes
    are in use at the top.  When [r] is set the buffer is enlarged through
    [snmp_realloc] of snmplib/tools.c, whose [realloc] may fail: the C library's
    allocator is the parameter [Allocator]. *)

From S2P Require Import Prelude Ber Asn1 Asn1Int Asn1Oid Asn1Int64 Asn1Float.
From stdpp Require Import prelude numbers list.
From Stdlib Require Import ZArith Lia.
Open Scope Z_scope.

(** The allocator: which sizes [realloc] grants, and the value found in bytes
    that were never written.  No object is larger than [PTRDIFF_MAX]. *)
Class Allocator := {
  can_realloc : Z → bool;
  indeterminate : Z;
  can_realloc_bound n : can_realloc n = true → n < 2 ^ 31;
}.

(** The buffer [*pkt], of [*pkt_len] bytes, and [*offset]. *)
Record rstate := RState { pkt : list Z; offset : nat }.

Section Rbuild.
Context {alloc : Allocator}.

(** [snmp_realloc]: contents are kept at the bottom of the new buffer. *)
Definition snmp_realloc (buf : list Z) : option (list Z) :=
  let buf_len := zlen buf in
  let new_buf_len :=
    if buf_len <=? 255 then u32 (buf_len + 256)
    else if (255 <? buf_len) && (buf_len <=? 8191) then u32 (buf_len * 2)
    else u32 (buf_len + 8192) in
  if can_realloc new_buf_len
  then Some (take (Z.to_nat new_buf_len) buf
             ++ replicate (Z.to_nat new_buf_len - length buf) indeterminate)
  else None.

(** [asn_realloc]: the old contents are moved to the top end and the rest is
    filled with spaces. *)
Definition asn_realloc (p : list Z) : option (list Z) :=
  let old_pkt_len := length p in
  match snmp_realloc p with
  | Some p' =>
      let gap := (length p' - old_pkt_len)%nat in
      let moved := take gap p' ++ take old_pkt_len p' in
      Some (replicate gap 0x20 ++ drop gap moved)
  | None => None
  end.

(** [*pkt_len - *offset] *)
Definition room (st : rstate) : Z := u32 (zlen (pkt st) - Z.of_nat (offset st)).

(** [r && asn_realloc(pkt, pkt_len)] *)
Definition grow (r : bool) (st : rstate) : option rstate :=
  if r then
    match asn_realloc (pkt st) with
    | Some p => Some (RState p (offset st))
    | None => None
    end
  else None.

(** [if (( *pkt_len - *offset) < 1 && !(r && asn_realloc(...))) return 0;] *)
Definition need1 (r : bool) (st : rstate) : M rstate :=
  if room st <? 1
  then match grow r st with Some st => Ok st | None => Err end
  else Ok st.

(** [while (( *pkt_len - *offset) < n) if (!(r && asn_realloc(...))) return 0;]
    Each turn adds at least 256 bytes, so [n] turns are enough. *)
Fixpoint need_loop (fuel : nat) (r : bool) (n : Z) (st : rstate) : M rstate :=
  match fuel with
  | O => UB
  | S fuel =>
      if room st <? n
      then match grow r st with Some st => need_loop fuel r n st | None => Err end
      else Ok st
  end.

Definition need (r : bool) (n : Z) (st : rstate) : M rstate :=
  need_loop (S (Z.to_nat n)) r n st.

(** [*( *pkt + *pkt_len - (++*offset)) = b;] *)
Definition push (b : Z) (st : rstate) : M rstate :=
  if decide (length (pkt st) < S (offset st))%nat then UB
  else
    p ← wr (pkt st) (length (pkt st) - S (offset st)) b;
    Ok (RState p (S (offset st))).

(** One octet, with the space check in front of it. *)
Definition push1 (r : bool) (b : Z) (st : rstate) : M rstate :=
  st ← need1 r st; push b st.

(** [*( *pkt + *pkt_len - *offset)]: the octet written last. *)
Definition top (st : rstate) : M Z := rd (pkt st) (length (pkt st) - offset st).

(** [*offset += n; memcpy( *pkt + *pkt_len - *offset, str, n);] *)
Definition push_block (l : list Z) (st : rstate) : M rstate :=
  let offset' := (offset st + length l)%nat in
  if decide (length (pkt st) < offset')%nat then UB
  else
    p ← wr_list (pkt st) (length (pkt st) - offset') l;
    Ok (RState p offset').

(** [while (length > 0xff) { ...; length >>= 8; }]; a [size_t] needs at most
    three turns. *)
Fixpoint rbuild_length_loop (fuel : nat) (r : bool) (length : Z) (st : rstate)
    : M (Z * rstate) :=
  match fuel with
  | O => UB
  | S fuel =>
      if 0xff <? length then
        st ← push1 r (Z.land length 0xff) st;
        rbuild_length_loop fuel r (Z.shiftr length 8) st
      else Ok (length, st)
  end.

Definition asn_realloc_rbuild_length (r : bool) (length : Z) (st : rstate) : M rstate :=
  let start_offset := offset st in
  if length <=? 0x7f then push1 r length st
  else
    '(length, st) ← rbuild_length_loop 4 r length st;
    st ← need r 2 st;
    st ← push (Z.land length 0xff) st;
    let tmp_int := Z.of_nat (offset st) - Z.of_nat start_offset in
    push (u8 (Z.lor tmp_int 0x80)) st.

Definition asn_realloc_rbuild_header (r : bool) (type length : Z) (st : rstate)
    : M rstate :=
  st ← asn_realloc_rbuild_length r length st;
  push1 r type st.

(** [true] is the C result 1; [pkt] and [*pkt] are not [NULL]. *)
Definition _asn_realloc_build_header_check (st : rstate) (typedlen : Z) : bool :=
  zlen (pkt st) <? typedlen.

(** [*offset - start_offset] *)
Definition since (start_offset : nat) (st : rstate) : Z :=
  Z.of_nat (offset st) - Z.of_nat start_offset.

(** Header of the contents written since [start_offset], then the check with
    the length [*offset - start_offset] taken after it. *)
Definition rbuild_header_since (r : bool) (type : Z) (start_offset : nat) (st : rstate)
    : M rstate :=
  st ← asn_realloc_rbuild_header r type (since start_offset st) st;
  if _asn_realloc_build_header_check st (since start_offset st) then Err else Ok st.

(** [while (integer != testvalue) { *... = (u_char) integer; integer >>= 8; }] *)
Fixpoint rbuild_int_loop (fuel : nat) (r : bool) (testvalue integer : Z) (st : rstate)
    : M rstate :=
  match fuel with
  | O => UB
  | S fuel =>
      if integer =? testvalue then Ok st
      else
        st ← push1 r (u8 integer) st;
        rbuild_int_loop fuel r testvalue (Z.shiftr integer 8) st
  end.

(** [if (( *( *pkt + *pkt_len - *offset) & 0x80) != (testvalue & 0x80)) ...] *)
Definition rbuild_sign (r : bool) (testvalue pad : Z) (st : rstate) : M rstate :=
  b ← top st;
  if negb (Z.land b 0x80 =? Z.land testvalue 0x80) then push1 r pad st else Ok st.

Definition asn_realloc_rbuild_int (r : bool) (type integer intsize : Z) (st : rstate)
    : M rstate :=
  let start_offset := offset st in
  if negb (intsize =? SIZEOF_LONG) then Err
  else
    let testvalue := if integer <? 0 then -1 else 0 in
    st ← push1 r (u8 integer) st;
    st ← rbuild_int_loop 5 r testvalue (Z.shiftr integer 8) st;
    st ← rbuild_sign r testvalue (Z.land testvalue 0xff) st;
    rbuild_header_since r type start_offset st.

Definition asn_realloc_rbuild_unsigned_int (r : bool) (type integer intsize : Z)
    (st : rstate) : M rstate :=
  let start_offset := offset st in
  if negb (intsize =? SIZEOF_LONG) then Err
  else
    st ← push1 r (u8 integer) st;
    st ← rbuild_int_loop 5 r 0 (Z.shiftr integer 8) st;
    st ← rbuild_sign r 0 0 st;
    rbuild_header_since r type start_offset st.

(** [str] is the source object. *)
Definition asn_realloc_rbuild_string (r : bool) (type : Z) (str : list Z)
    (strlength : Z) (st : rstate) : M rstate :=
  st ← need r strlength st;
  src ← rd_list str 0 (Z.to_nat strlength);
  st ← push_block src st;
  st ← asn_realloc_rbuild_header r type strlength st;
  if _asn_realloc_build_header_check st strlength then Err else Ok st.

(** The same text as for strings. *)
Definition asn_realloc_rbuild_bitstring (r : bool) (type : Z) (str : list Z)
    (strlength : Z) (st : rstate) : M rstate :=
  st ← need r strlength st;
  src ← rd_list str 0 (Z.to_nat strlength);
  st ← push_block src st;
  st ← asn_realloc_rbuild_header r type strlength st;
  if _asn_realloc_build_header_check st strlength then Err else Ok st.

Definition asn_realloc_rbuild_sequence (r : bool) (type length : Z) (st : rstate)
    : M rstate :=
  asn_realloc_rbuild_header r type length st.

Definition asn_realloc_rbuild_null (r : bool) (type : Z) (st : rstate) : M rstate :=
  asn_realloc_rbuild_header r type 0 st.

(** [while (tmpint > 0) { *... = (u_char) ((tmpint & 0x7f) | 0x80); tmpint >>= 7; }] *)
Fixpoint rbuild_arc_loop (fuel : nat) (r : bool) (tmpint : Z) (st : rstate) : M rstate :=
  match fuel with
  | O => UB
  | S fuel =>
      if 0 <? tmpint then
        st ← push1 r (u8 (Z.lor (Z.land tmpint 0x7f) 0x80)) st;
        rbuild_arc_loop fuel r (Z.shiftr tmpint 7) st
      else Ok st
  end.

(** One subidentifier, last octet first. *)
Definition rbuild_arc (r : bool) (tmpint : Z) (st : rstate) : M rstate :=
  st ← push1 r (Z.land (u8 tmpint) 0x7f) st;
  rbuild_arc_loop 5 r (Z.shiftr tmpint 7) st.

(** [for (i = objidlength; i > 2; i--)] over [objid[i - 1]]; [n] is [i - 2]. *)
Fixpoint rbuild_arcs (n : nat) (r : bool) (objid : list Z) (st : rstate) : M rstate :=
  match n with
  | O => Ok st
  | S n =>
      tmpint ← rd objid (n + 2);
      st ← rbuild_arc r tmpint st;
      rbuild_arcs n r objid st
  end.

Definition asn_realloc_rbuild_objid (r : bool) (type : Z) (objid : list Z)
    (objidlength : Z) (st : rstate) : M rstate :=
  let start_offset := offset st in
  st ← (if objidlength =? 0 then
          st ← need r 2 st;
          st ← push 0 st;
          push 0 st
        else
          x ← rd objid 0;
          if 2 <? x then Err
          else if objidlength =? 1 then push1 r (u8 x) st
          else
            st ← rbuild_arcs (Z.to_nat (objidlength - 2)) r objid st;
            y ← rd objid 1;
            if (40 <? y) && (x <? 2) then Err
            else rbuild_arc r (u32 (x * 40 + y)) st);
  rbuild_header_since r type start_offset st.

(** [while (low != 0) { count++; ...; low >>= 8; }] *)
Fixpoint rbuild_low_loop (fuel : nat) (r : bool) (low : Z) (count : nat) (st : rstate)
    : M (nat * rstate) :=
  match fuel with
  | O => UB
  | S fuel =>
      if low =? 0 then Ok (count, st)
      else
        st ← push1 r (u8 low) st;
        rbuild_low_loop fuel r (Z.shiftr low 8) (S count) st
  end.

(** [while ((int) low != testvalue && count < 4)]; [rest] is [4 - count]. *)
Fixpoint rbuild_slow_loop (rest : nat) (r : bool) (testvalue low : Z) (st : rstate)
    : M (nat * rstate) :=
  match rest with
  | O => Ok (O, st)
  | S rest' =>
      if low =? testvalue then Ok (rest, st)
      else
        st ← push1 r (u8 low) st;
        rbuild_slow_loop rest' r testvalue (Z.shiftr low 8) st
  end.

(** [for (; count < 4; count++)]; [rest] is [4 - count]. *)
Fixpoint rbuild_pad_loop (rest : nat) (r : bool) (pad : Z) (st : rstate) : M rstate :=
  match rest with
  | O => Ok st
  | S rest => st ← push1 r pad st; rbuild_pad_loop rest r pad st
  end.

(** The inner length, the special tag and 0x9f, in front of them the header of
    the Opaque. *)
Definition rbuild_opaque (r : bool) (special size : Z) (st : rstate) : M rstate :=
  st ← push (u8 size) st;
  st ← push special st;
  st ← push ASN_OPAQUE_TAG1 st;
  st ← asn_realloc_rbuild_header r ASN_OPAQUE (size + 3) st;
  if _asn_realloc_build_header_check st (size + 3) then Err else Ok st.

Definition asn_realloc_rbuild_unsigned_int64 (r : bool) (type : Z) (cp : counter64)
    (countersize : Z) (st : rstate) : M rstate :=
  let low := c_low cp in
  let high := c_high cp in
  let start_offset := offset st in
  if negb (countersize =? SIZEOF_COUNTER64) then Err
  else
    st ← push1 r (u8 low) st;
    '(count, st) ← rbuild_low_loop 5 r (Z.shiftr low 8) 1 st;
    st ← (if high =? 0 then Ok st
          else
            st ← rbuild_pad_loop (4 - count) r 0 st;
            st ← push1 r (u8 high) st;
            rbuild_int_loop 5 r 0 (Z.shiftr high 8) st);
    st ← rbuild_sign r 0 0 st;
    let intsize := since start_offset st in
    if type =? ASN_OPAQUE_COUNTER64 then
      st ← need r 5 st; rbuild_opaque r ASN_OPAQUE_COUNTER64 intsize st
    else if type =? ASN_OPAQUE_U64 then
      st ← need r 5 st; rbuild_opaque r ASN_OPAQUE_U64 intsize st
    else
      st ← asn_realloc_rbuild_header r type intsize st;
      if _asn_realloc_build_header_check st intsize then Err else Ok st.

(** [low] and [high] are [long] variables here: [>>] keeps the sign. *)
Definition asn_realloc_rbuild_signed_int64 (r : bool) (type : Z) (cp : counter64)
    (countersize : Z) (st : rstate) : M rstate :=
  let low := s32 (c_low cp) in
  let high := s32 (c_high cp) in
  let start_offset := offset st in
  let testvalue := if negb (Z.land high 0x80000000 =? 0) then -1 else 0 in
  let pad := if testvalue =? 0 then 0 else 0xff in
  if negb (countersize =? SIZEOF_COUNTER64) then Err
  else
    st ← push1 r (u8 low) st;
    '(rest, st) ← rbuild_slow_loop 3 r testvalue (Z.shiftr low 8) st;
    st ← (if high =? testvalue then Ok st
          else
            st ← rbuild_pad_loop rest r pad st;
            st ← push1 r (u8 high) st;
            rbuild_int_loop 5 r testvalue (Z.shiftr high 8) st);
    st ← rbuild_sign r testvalue pad st;
    let intsize := since start_offset st in
    st ← need r 5 st;
    rbuild_opaque r ASN_OPAQUE_I64 intsize st.

Definition asn_realloc_rbuild_float (r : bool) (type bits floatsize : Z) (st : rstate)
    : M rstate :=
  if negb (floatsize =? SIZEOF_FLOAT) || (122 <? floatsize) then Err
  else
    st ← need r (floatsize + 3) st;
    st ← push_block (float_octets bits) st;
    rbuild_opaque r ASN_OPAQUE_FLOAT floatsize st.

Definition asn_realloc_rbuild_double (r : bool) (type bits doublesize : Z) (st : rstate)
    : M rstate :=
  if negb (doublesize =? SIZEOF_DOUBLE) || (122 <? doublesize) then Err
  else
    st ← need r (doublesize + 3) st;
    st ← push_block (double_octets bits) st;
    rbuild_opaque r ASN_OPAQUE_DOUBLE doublesize st.

(** ** What the operations do to the written part *)

Definition written (st : rstate) : list Z := drop (length (pkt st) - offset st) (pkt st).

Definition wf (st : rstate) : Prop :=
  (offset st ≤ length (pkt st))%nat ∧ zlen (pkt st) < 2 ^ 31.

(** Why an operation that needs the buffer to reach [T] bytes may fail: the
    buffer may not grow and is shorter, or the allocator refused a size it was
    asked for, at most 8192 bytes above what is needed. *)
Definition short (r : bool) (L T : nat) : Prop :=
  if r then ∃ n, 0 ≤ n ≤ Z.of_nat T + 8192 ∧ can_realloc n = false else (L < T)%nat.

(** [st'] has [enc] in front of what was written in [st]. *)
Definition rpost (r : bool) (enc : list Z) (st st' : rstate) : Prop :=
  wf st' ∧ written st' = enc ++ written st ∧
  offset st' = (offset st + length enc)%nat ∧
  (r = false → length (pkt st') = length (pkt st)).

(** [f] puts [enc] in front of the written part, or fails for lack of space. *)
Definition rspec (r : bool) (f : rstate → M rstate) (enc : list Z) : Prop :=
  ∀ st, wf st →
  match f st with
  | Ok st' => rpost r enc st st'
  | Err => short r (length (pkt st)) (offset st + length enc)
  | UB => False
  end.

Lemma short_mono r L L' T T' :
  (T ≤ T')%nat → (r = false → L' = L) → short r L' T → short r L T'.
Proof.
  intros HT HL. destruct r; simpl.
  - intros (n & Hn & Hc). exists n. split; [lia|done].
  - rewrite HL by done. lia.
Qed.

Lemma rpost_trans r e1 e2 st st1 st2 :
  rpost r e1 st st1 → rpost r e2 st1 st2 → rpost r (e2 ++ e1) st st2.
Proof.
  intros (Hwf1 & Hw1 & Ho1 & Hl1) (Hwf2 & Hw2 & Ho2 & Hl2). split_and!; [done| |..].
  - by rewrite Hw2, Hw1, app_assoc.
  - rewrite length_app. lia.
  - intros Hr. rewrite Hl2, Hl1; done.
Qed.

(** A later failure is one of the whole computation. *)
Lemma short_later r (e1 e2 : list Z) st st1 :
  rpost r e1 st st1 →
  short r (length (pkt st1)) (offset st1 + length e2) →
  short r (length (pkt st)) (offset st + length (e2 ++ e1)).
Proof.
  intros (_ & _ & Ho1 & Hl1). apply short_mono; [|done]. rewrite length_app. lia.
Qed.

Lemma short_app r (e1 e2 : list Z) st :
  short r (length (pkt st)) (offset st + length e1) →
  short r (length (pkt st)) (offset st + length (e2 ++ e1)).
Proof. apply short_mono; [|done]. rewrite length_app. lia. Qed.

Lemma rspec_seq r f g e1 e2 :
  rspec r f e1 → rspec r g e2 → rspec r (λ st, st ← f st; g st) (e2 ++ e1).
Proof.
  intros Hf Hg st Hwf. specialize (Hf st Hwf).
  destruct (f st) as [st1| |]; m_step; [|by apply short_app|done].
  specialize (Hg st1 (proj1 Hf)).
  destruct (g st1) as [st2| |]; [|by eapply short_later|done].
  by eapply rpost_trans.
Qed.

Lemma rspec_ret r : rspec r Ok [].
Proof. intros st Hwf. split_and!; [done..|simpl; lia|done]. Qed.

Lemma rspec_ext r f g e : (∀ st, wf st → f st = g st) → rspec r f e → rspec r g e.
Proof. intros Hfg Hf st Hwf. rewrite <- Hfg by done. by apply Hf. Qed.

Lemma length_written st : wf st → length (written st) = offset st.
Proof. intros [H _]. unfold written. rewrite length_drop. lia. Qed.

(** *** Space *)

Lemma asn_realloc_spec p :
  zlen p < 2 ^ 31 →
  match asn_realloc p with
  | Some p' => zlen p' < 2 ^ 31 ∧ (length p + 255 ≤ length p')%nat ∧
      drop (length p' - length p) p' = p
  | None => ∃ n, 0 ≤ n ≤ zlen p + 8192 ∧ can_realloc n = false
  end.
Proof.
  intros Hp. unfold asn_realloc, snmp_realloc.
  set (n := if zlen p <=? 255 then _ else _).
  assert (zlen p + 256 ≤ n ≤ zlen p + 8192) as Hn.
  { pose proof (zlen_nonneg p). subst n.
    destruct (Z.leb_spec (zlen p) 255); [rewrite u32_id; lia|].
    destruct (Z.ltb_spec 255 (zlen p)); [|lia].
    destruct (Z.leb_spec (zlen p) 8191); simpl; rewrite u32_id; lia. }
  clearbody n. destruct (can_realloc n) eqn:E; [|by exists n; pose proof (zlen_nonneg p); auto with lia].
  apply can_realloc_bound in E. unfold zlen in *.
  set (p' := _ ++ replicate _ indeterminate).
  assert (p' = p ++ replicate (Z.to_nat n - length p) indeterminate) as Hp'
    by (unfold p'; by rewrite take_ge by lia).
  assert (length p' = Z.to_nat n) as Hlen
    by (rewrite Hp', length_app, length_replicate; lia).
  assert (length (take (length p' - length p) p') = (length p' - length p)%nat) as Hg
    by (rewrite length_take; lia).
  rewrite drop_app_length' by done. rewrite Hp', take_app_length, <- Hp', Hlen.
  rewrite length_app, length_replicate. split_and!; [lia..|].
  rewrite drop_app_length'; [done|]. rewrite length_replicate. lia.
Qed.

(** The state after a space check: nothing written, [n] bytes free. *)
Definition made_room (r : bool) (n : nat) (st st' : rstate) : Prop :=
  wf st' ∧ written st' = written st ∧ offset st' = offset st ∧
  (offset st + n ≤ length (pkt st'))%nat ∧
  (r = false → length (pkt st') = length (pkt st)).

Lemma room_wf st : wf st → room st = Z.of_nat (length (pkt st) - offset st).
Proof.
  intros [Ho Hl]. unfold room, zlen in *. rewrite u32_id; lia.
Qed.

Lemma grow_spec r n st :
  wf st → room st < Z.of_nat n →
  match grow r st with
  | Some st' =>
      made_room r 0 st st' ∧ r = true ∧ (length (pkt st) + 255 ≤ length (pkt st'))%nat
  | None => short r (length (pkt st)) (offset st + n)
  end.
Proof.
  intros Hwf Hn. rewrite room_wf in Hn by done. destruct Hwf as [Ho Hl].
  destruct r; simpl; [|lia].
  pose proof (asn_realloc_spec (pkt st) Hl) as Hr.
  destruct (asn_realloc (pkt st)) as [p|].
  - destruct Hr as (Hp & Hlen & Hd). unfold made_room, wf, written. simpl.
    split_and!; try done; try lia.
    rewrite <- Hd at 2. rewrite drop_drop. f_equal. lia.
  - destruct Hr as (m & Hm & Hc). exists m. split; [|done]. unfold zlen in *. lia.
Qed.

Lemma made_room_refl r n st :
  wf st → Z.of_nat n ≤ room st → made_room r n st st.
Proof.
  intros Hwf Hn. rewrite room_wf in Hn by done.
  destruct Hwf. unfold made_room, wf. split_and!; try done; lia.
Qed.

Lemma made_room_more r n n' st st' :
  made_room r n st st' → (offset st + n' ≤ length (pkt st'))%nat → made_room r n' st st'.
Proof. intros (? & ? & ? & ? & ?) ?. by split_and!. Qed.

Lemma made_room_trans r n n' st st' st'' :
  made_room r n st st' → made_room r n' st' st'' → made_room r n' st st''.
Proof.
  intros (? & ? & ? & ? & Hl) (? & ? & ? & ? & Hl'). unfold made_room.
  split_and!; [done|congruence|congruence|lia|]. intros Hr. by rewrite Hl', Hl.
Qed.

Lemma need1_spec r st :
  wf st →
  match need1 r st with
  | Ok st' => made_room r 1 st st'
  | Err => short r (length (pkt st)) (offset st + 1)
  | UB => False
  end.
Proof.
  intros Hwf. unfold need1. destruct (Z.ltb_spec (room st) 1) as [Hr|Hr].
  - pose proof (grow_spec r 1 st Hwf Hr) as Hg. destruct (grow r st) as [st'|]; [|done].
    destruct Hg as (Hm & _ & Hl). eapply made_room_more; [done|]. destruct Hwf. lia.
  - by apply (made_room_refl r 1).
Qed.

Lemma need_loop_spec fuel r n st :
  wf st → (n ≤ length (pkt st) - offset st + 255 * (fuel - 1))%nat → (0 < fuel)%nat →
  match need_loop fuel r (Z.of_nat n) st with
  | Ok st' => made_room r n st st'
  | Err => short r (length (pkt st)) (offset st + n)
  | UB => False
  end.
Proof.
  revert st. induction fuel as [|fuel IH]; intros st Hwf Hf Hp; [lia|]. cbn [need_loop].
  destruct (Z.ltb_spec (room st) (Z.of_nat n)) as [Hr|Hr]; [|by apply made_room_refl].
  pose proof (grow_spec r n st Hwf Hr) as Hg.
  rewrite room_wf in Hr by done. destruct (grow r st) as [st1|]; [|done].
  destruct Hg as (Hm & -> & Hl). destruct Hm as (Hwf1 & Hw1 & Ho1 & _ & _).
  specialize (IH st1 Hwf1). destruct Hwf as [Ho _].
  destruct (need_loop fuel true (Z.of_nat n) st1) as [st2| |].
  - eapply made_room_trans; [|apply IH; lia]. instantiate (1 := O).
    unfold made_room. split_and!; done || lia.
  - rewrite <- Ho1. apply short_mono with (L' := length (pkt st1)) (T := (offset st1 + n)%nat);
      [lia|done|apply IH; lia].
  - apply IH; lia.
Qed.

Lemma need_spec r n st :
  wf st →
  match need r (Z.of_nat n) st with
  | Ok st' => made_room r n st st'
  | Err => short r (length (pkt st)) (offset st + n)
  | UB => False
  end.
Proof. intros Hwf. unfold need. apply need_loop_spec; [done|lia|lia]. Qed.

(** *** Octets *)

Lemma push_spec b st :
  wf st → (offset st < length (pkt st))%nat →
  ∃ st', push b st = Ok st' ∧ wf st' ∧ written st' = b :: written st ∧
    offset st' = S (offset st) ∧ length (pkt st') = length (pkt st).
Proof.
  intros [Ho Hl] Hr. destruct st as [p o]. unfold push, written, wf, zlen in *. simpl in *.
  rewrite decide_False by lia. unfold wr. rewrite decide_True by lia. m_step.
  eexists. split; [reflexivity|]. simpl. rewrite length_insert. split_and!; try lia.
  rewrite (drop_S _ b (length p - S o)) by (apply list_lookup_insert_eq; lia).
  f_equal. rewrite drop_insert_lt by lia. f_equal. lia.
Qed.

Lemma push1_rspec r b : rspec r (push1 r b) [b].
Proof.
  intros st Hwf. unfold push1. pose proof (need1_spec r st Hwf) as Hn.
  destruct (need1 r st) as [st1| |]; m_step; [|done..].
  destruct Hn as (Hwf1 & Hw1 & Ho1 & Hr1 & Hl1).
  destruct (push_spec b st1) as (st2 & -> & Hwf2 & Hw2 & Ho2 & Hl2); [done|lia|].
  split_and!; [done|by rewrite Hw2, Hw1|rewrite Ho2, Ho1; simpl; lia|].
  intros Hr. rewrite Hl2. by apply Hl1.
Qed.

Lemma push_block_spec l st :
  wf st → (offset st + length l ≤ length (pkt st))%nat →
  ∃ st', push_block l st = Ok st' ∧ wf st' ∧ written st' = l ++ written st ∧
    offset st' = (offset st + length l)%nat ∧ length (pkt st') = length (pkt st).
Proof.
  intros [Ho Hl] Hr. destruct st as [p o]. unfold push_block, written, wf, zlen in *.
  simpl in *. rewrite decide_False by lia.
  set (k := (length p - (o + length l))%nat).
  assert (p = take k p ++ take (length l) (drop k p) ++ drop (length p - o) p) as Hp.
  { rewrite <- (take_drop k p) at 1. f_equal.
    rewrite <- (take_drop (length l) (drop k p)) at 1. f_equal.
    rewrite drop_drop. f_equal. lia. }
  pose proof (wr_list_app l (take k p) (take (length l) (drop k p)) (drop (length p - o) p))
    as Hw.
  rewrite <- Hp in Hw. rewrite !length_take, length_drop in Hw.
  replace (k `min` length p)%nat with k in Hw by lia. rewrite Hw by lia. m_step.
  eexists. split; [reflexivity|]. simpl.
  rewrite !length_app, length_take, length_drop. split_and!; try lia.
  rewrite drop_app_length'; [done|]. rewrite length_take. lia.
Qed.

(** A block for which space was made. *)
Lemma need_block_rspec r l :
  rspec r (λ st, st ← need r (zlen l) st; push_block l st) l.
Proof.
  intros st Hwf. pose proof (need_spec r (length l) st Hwf) as Hn. fold (zlen l) in Hn.
  destruct (need r (zlen l) st) as [st1| |]; m_step; [|done..].
  destruct Hn as (Hwf1 & Hw1 & Ho1 & Hr1 & Hl1).
  destruct (push_block_spec l st1) as (st2 & -> & Hwf2 & Hw2 & Ho2 & Hl2); [done|lia|].
  split_and!; [done|by rewrite Hw2, Hw1|lia|]. intros Hr. rewrite Hl2. by apply Hl1.
Qed.

Lemma top_rpost r b l st st' : rpost r (b :: l) st st' → top st' = Ok b.
Proof.
  intros ([Ho _] & Hw & Hof & _). unfold top, written in *. simpl in *. apply rd_Ok.
  pose proof (lookup_drop (pkt st') (length (pkt st') - offset st') 0) as Hd.
  rewrite Nat.add_0_r in Hd. by rewrite <- Hd, Hw.
Qed.

(** *** Lengths and headers *)

Lemma be_bytes_snoc n z : be_bytes (S n) z = be_bytes n (z / 256) ++ [z mod 256].
Proof.
  induction n as [|n IH]; [by simpl; rewrite Z.div_1_r|].
  change (be_bytes (S (S n)) z) with (z / 256 ^ Z.of_nat (S n) mod 256 :: be_bytes (S n) z).
  rewrite IH. simpl. f_equal. f_equal.
  rewrite Z.div_div by lia. f_equal.
  rewrite <- (Z.pow_succ_r 256) by lia. f_equal. lia.
Qed.

Lemma length_size_step n :
  0xff < n < 2 ^ 32 → length_size n = S (length_size (Z.shiftr n 8)).
Proof.
  intros Hn. rewrite shiftr_div by lia. unfold length_size.
  repeat match goal with |- context [?a <? ?b] => destruct (Z.ltb_spec a b) end;
    try done; Z.div_mod_to_equations; lia.
Qed.

Lemma land_ff z : Z.land z 0xff = z mod 256.
Proof. change 0xff with (2 ^ 8 - 1). by rewrite land_ones_mod. Qed.

Lemma rbuild_length_loop_spec fuel r n st :
  0 ≤ n < 2 ^ 32 → (length_size n ≤ fuel)%nat → wf st →
  match rbuild_length_loop fuel r n st with
  | Ok (n', st') =>
      n' = n / 256 ^ Z.of_nat (length_size n - 1) ∧ 0 ≤ n' < 256 ∧
      rpost r (be_bytes (length_size n - 1) n) st st'
  | Err => short r (length (pkt st)) (offset st + (length_size n - 1))
  | UB => False
  end.
Proof.
  revert n st. induction fuel as [|fuel IH]; intros n st Hn Hf Hwf.
  { pose proof (length_size_spec n Hn). lia. }
  cbn [rbuild_length_loop]. destruct (Z.ltb_spec 0xff n) as [Hl|Hl].
  - rewrite length_size_step in * by lia. simpl Nat.sub. rewrite Nat.sub_0_r.
    rewrite shiftr_div in * by lia. change (2 ^ 8) with 256 in *.
    assert (0 ≤ n / 256 < 2 ^ 32) as Hn' by (Z.div_mod_to_equations; lia).
    pose proof (length_size_spec (n / 256) Hn') as [_ Hs].
    pose proof (push1_rspec r (Z.land n 0xff) st Hwf) as Hp.
    destruct (push1 r (Z.land n 0xff) st) as [st1| |]; m_step;
      [|eapply short_mono; [|done|exact Hp]; simpl; lia|done].
    specialize (IH (n / 256) st1 Hn' ltac:(lia) (proj1 Hp)).
    destruct (length_size (n / 256)) as [|k] eqn:Ek; [lia|].
    simpl Nat.sub in IH. rewrite Nat.sub_0_r in IH. rewrite be_bytes_snoc, <- land_ff.
    destruct (rbuild_length_loop fuel r (n / 256) st1) as [[n' st2]| |]; [| |done].
    + destruct IH as (-> & Hn'' & HP). split; [|split; [done|by eapply rpost_trans]].
      rewrite Z.div_div, <- Z.pow_succ_r by lia. do 2 f_equal. lia.
    + pose proof (short_later r [Z.land n 0xff] (be_bytes k (n / 256)) st st1 Hp) as Hs'.
      rewrite length_app, length_be_bytes in Hs'. simpl in Hs'.
      rewrite Nat.add_1_r in Hs'. by apply Hs'.
  - unfold length_size. destruct (Z.ltb_spec n (2 ^ 8)); [|lia]. simpl.
    rewrite Z.div_1_r. split; [done|split; [lia|apply (rspec_ret r st Hwf)]].
Qed.

Lemma rbuild_length_rspec r n :
  0 ≤ n < 2 ^ 32 → rspec r (asn_realloc_rbuild_length r n) (ber_length n).
Proof.
  intros Hn st Hwf. unfold asn_realloc_rbuild_length, ber_length.
  destruct (Z.leb_spec n 0x7f) as [Hl|Hl]; destruct (Z.ltb_spec n 128); try lia.
  { by apply push1_rspec. }
  pose proof (length_size_spec n Hn) as [Hk Hk'].
  pose proof (rbuild_length_loop_spec 4 r n st Hn ltac:(lia) Hwf) as HL.
  destruct (length_size n) as [|k] eqn:Ek; [lia|].
  simpl Nat.sub in HL. rewrite Nat.sub_0_r in HL.
  destruct (rbuild_length_loop 4 r n st) as [[n' st1]| |]; m_step; [| |done].
  2:{ eapply short_mono; [|done|exact HL]. simpl. rewrite length_be_bytes. lia. }
  destruct HL as (-> & Hn' & HP). pose proof HP as (Hwf1 & Hw1 & Ho1 & Hl1).
  rewrite length_be_bytes in Ho1.
  pose proof (need_spec r 2 st1 Hwf1) as Hnd. change (Z.of_nat 2) with 2 in Hnd.
  destruct (need r 2 st1) as [st2| |]; m_step; [| |done].
  2:{ eapply short_mono; [|exact Hl1|exact Hnd]. simpl. rewrite length_be_bytes. lia. }
  destruct Hnd as (Hwf2 & Hw2 & Ho2 & Hr2 & Hl2).
  edestruct (push_spec (Z.land (n / 256 ^ Z.of_nat k) 255) st2)
    as (st3 & -> & Hwf3 & Hw3 & Ho3 & Hl3); [done|lia|]. m_step.
  edestruct push_spec as (st4 & -> & Hwf4 & Hw4 & Ho4 & Hl4); [exact Hwf3|lia|].
  rewrite Ho3, Ho2, Ho1 in Hw4.
  replace (Z.of_nat (S (offset st + k)) - Z.of_nat (offset st)) with (Z.of_nat (S k))
    in Hw4 by lia.
  rewrite (lor_high_bit (Z.of_nat (S k))), u8_id in Hw4 by (unfold is_byte; lia).
  split_and!; [done|..].
  - rewrite Hw4, Hw3, Hw2, Hw1, land_ff. simpl. f_equal; lia.
  - simpl. rewrite length_be_bytes. lia.
  - intros Hr. rewrite Hl4, Hl3, Hl2, Hl1; done.
Qed.

Lemma rbuild_header_rspec r type n :
  0 ≤ n < 2 ^ 32 → rspec r (asn_realloc_rbuild_header r type n) (type :: ber_length n).
Proof.
  intros Hn. apply (rspec_seq r _ _ (ber_length n) [type]);
    [by apply rbuild_length_rspec|apply push1_rspec].
Qed.

(** Sequencing when the second part refers to the initial state. *)
Definition rgoal (r : bool) (m : M rstate) (enc : list Z) (st : rstate) : Prop :=
  match m with
  | Ok st' => rpost r enc st st'
  | Err => short r (length (pkt st)) (offset st + length enc)
  | UB => False
  end.

Lemma rgoal_app r m e1 e2 st st1 :
  rpost r e1 st st1 → rgoal r m e2 st1 → rgoal r m (e2 ++ e1) st.
Proof.
  unfold rgoal. intros HP Hg.
  destruct m as [st2| |]; [by eapply rpost_trans|by eapply short_later|done].
Qed.

Lemma rspec_then r f g e1 e2 :
  rspec r f e1 → (∀ st st1, wf st → rpost r e1 st st1 → rgoal r (g st st1) e2 st1) →
  rspec r (λ st, st1 ← f st; g st st1) (e2 ++ e1).
Proof.
  intros Hf Hg st Hwf. specialize (Hf st Hwf).
  destruct (f st) as [st1| |]; m_step; [|by apply short_app|done].
  by apply (rgoal_app r _ e1 e2 st st1); auto.
Qed.

(** Writing into the buffer bounds what is written. *)
Lemma rpost_zlen r c st st' : rpost r c st st' → 0 ≤ zlen c ≤ zlen (pkt st') ∧ zlen c < 2 ^ 31.
Proof. intros ([Ho Hl] & _ & Hof & _). unfold zlen in *. lia. Qed.

(** The check behind a header never fires. *)
Lemma header_check_rgoal r f enc n st :
  rspec r f enc → wf st → n ≤ Z.of_nat (offset st) + zlen enc →
  rgoal r (st' ← f st; if _asn_realloc_build_header_check st' n then Err else Ok st') enc st.
Proof.
  intros Hf Hwf Hn. specialize (Hf st Hwf). destruct (f st) as [st'| |]; m_step; [|done..].
  unfold _asn_realloc_build_header_check. destruct Hf as ([Ho Hl] & Hrest & Hof & Hsame).
  unfold zlen in *. destruct (Z.ltb_spec (Z.of_nat (length (pkt st'))) n); [lia|].
  split; [done|]. auto.
Qed.

Lemma ber_tlv_cons type c : ber_tlv type c = (type :: ber_length (zlen c)) ++ c.
Proof. done. Qed.

Lemma rbuild_tlv_rspec r type f c :
  rspec r f c →
  rspec r (λ st, st1 ← f st; rbuild_header_since r type (offset st) st1) (ber_tlv type c).
Proof.
  intros Hf. rewrite ber_tlv_cons. apply rspec_then; [done|].
  intros st st1 Hwf HP. pose proof (rpost_zlen _ _ _ _ HP) as [Hz Hz'].
  destruct HP as (Hwf1 & Hw1 & Ho1 & Hl1). unfold rbuild_header_since, since.
  replace (Z.of_nat (offset st1) - Z.of_nat (offset st)) with (zlen c) by (unfold zlen; lia).
  pose proof (rbuild_header_rspec r type (zlen c) ltac:(lia) st1 Hwf1) as Hh.
  destruct (asn_realloc_rbuild_header r type (zlen c) st1) as [st2| |]; m_step; [|done..].
  unfold _asn_realloc_build_header_check. destruct Hh as ([Ho Hl] & Hw2 & Hof & Hsame).
  destruct (Z.ltb_spec (zlen (pkt st2)) (Z.of_nat (offset st2) - Z.of_nat (offset st)));
    [unfold zlen in *; lia|].
  split; [done|]. auto.
Qed.

(** The same with the length computed before the header. *)
Lemma rbuild_sized_rspec r type f c :
  rspec r f c →
  rspec r (λ st, st1 ← f st; st2 ← asn_realloc_rbuild_header r type (since (offset st) st1) st1;
             if _asn_realloc_build_header_check st2 (since (offset st) st1)
             then Err else Ok st2)
    (ber_tlv type c).
Proof.
  intros Hf. rewrite ber_tlv_cons.
  apply (rspec_then r f (λ st st1, st2 ← asn_realloc_rbuild_header r type
    (since (offset st) st1) st1;
    if _asn_realloc_build_header_check st2 (since (offset st) st1) then Err else Ok st2));
    [done|].
  intros st st1 Hwf HP. pose proof (rpost_zlen _ _ _ _ HP) as [Hz Hz'].
  destruct HP as (Hwf1 & _ & Ho1 & _). unfold since.
  replace (Z.of_nat (offset st1) - Z.of_nat (offset st)) with (zlen c)
    by (unfold zlen; lia).
  apply header_check_rgoal; [apply rbuild_header_rspec; lia|done|].
  pose proof (zlen_nonneg (type :: ber_length (zlen c))). unfold zlen at 1. lia.
Qed.

(** ** The encoders write the reference encodings *)

Lemma rbuild_string_rspec r type str :
  rspec r (asn_realloc_rbuild_string r type str (zlen str)) (ber_string type str).
Proof.
  unfold ber_string. rewrite ber_tlv_cons.
  assert (rspec r (λ st, st1 ← (st1 ← need r (zlen str) st; push_block str st1);
            (st2 ← asn_realloc_rbuild_header r type (zlen str) st1;
             if _asn_realloc_build_header_check st2 (zlen str) then Err else Ok st2))
            ((type :: ber_length (zlen str)) ++ str)) as HH.
  { apply (rspec_then r _ (λ _ st1, st2 ← asn_realloc_rbuild_header r type (zlen str) st1;
             if _asn_realloc_build_header_check st2 (zlen str) then Err else Ok st2));
      [apply need_block_rspec|].
    intros st st1 Hwf HP. pose proof (rpost_zlen _ _ _ _ HP) as [Hz Hz'].
    destruct HP as (Hwf1 & _ & Ho1 & _).
    apply header_check_rgoal; [apply rbuild_header_rspec; lia|done|].
    pose proof (zlen_nonneg (type :: ber_length (zlen str))). unfold zlen at 1. lia. }
  eapply rspec_ext; [|exact HH]. intros st _. unfold asn_realloc_rbuild_string.
  rewrite Z_to_nat_zlen.
  rewrite (rd_list_spec str 0 (length str)) by lia. rewrite drop_0, firstn_all.
  destruct (need r (zlen str) st); m_step; done.
Qed.

Lemma rbuild_bitstring_rspec r type str :
  rspec r (asn_realloc_rbuild_bitstring r type str (zlen str)) (ber_string type str).
Proof. apply rbuild_string_rspec. Qed.

Lemma rbuild_null_rspec r type : rspec r (asn_realloc_rbuild_null r type) (ber_null type).
Proof. apply rbuild_header_rspec. lia. Qed.

Lemma rbuild_sequence_rspec r type n :
  0 ≤ n < 2 ^ 32 → rspec r (asn_realloc_rbuild_sequence r type n) (type :: ber_length n).
Proof. apply rbuild_header_rspec. Qed.

(** *** Integers *)

(** [tv] is the sign fill of [z]: -1 for negative values, otherwise 0. *)
Definition sign_of (tv z : Z) : Prop := (tv = -1 ∧ z < 0) ∨ (tv = 0 ∧ 0 ≤ z).

(** [n] octets are the fewest above which only sign fill is left. *)
Definition minimal (tv : Z) (n : nat) (z : Z) : Prop :=
  (1 ≤ n)%nat ∧ z / 256 ^ Z.of_nat n = tv ∧ (n = 1%nat ∨ z / 256 ^ Z.of_nat (n - 1) ≠ tv).

Lemma div_pow_256_S z n : z / 256 ^ Z.of_nat (S n) = z / 256 / 256 ^ Z.of_nat n.
Proof. rewrite Z.div_div, <- Z.pow_succ_r by lia. do 2 f_equal. lia. Qed.

Lemma fits_div n z : fits (S n) z = true ↔ -128 ≤ z / 256 ^ Z.of_nat n < 128.
Proof.
  rewrite fits_spec.
  assert (2 ^ (8 * Z.of_nat (S n) - 1) = 128 * 256 ^ Z.of_nat n) as ->.
  { change 128 with (2 ^ 7). change 256 with (2 ^ 8).
    rewrite <- Z.pow_mul_r, <- Z.pow_add_r by lia. f_equal. lia. }
  assert (0 < 256 ^ Z.of_nat n) as HP by (apply Z.pow_pos_nonneg; lia).
  set (P := 256 ^ Z.of_nat n) in *. clearbody P.
  pose proof (Z.div_mod z P ltac:(lia)). pose proof (Z.mod_pos_bound z P HP).
  split; intros; nia.
Qed.

(** The octets of [z] down to the sign fill, with one more in front when the
    top bit differs from it, are the contents of its encoding. *)
Lemma sign_octets tv n z :
  sign_of tv z → minimal tv (S n) z → (n < 8)%nat →
  int_contents z
  = if decide (-128 ≤ z / 256 ^ Z.of_nat n < 128) then be_bytes (S n) z
    else tv mod 256 :: be_bytes (S n) z.
Proof.
  intros Hs (_ & Hq & Hm) Hn. unfold int_contents. simpl Nat.sub in Hm.
  rewrite Nat.sub_0_r in Hm. case_decide as Hd.
  - rewrite (int_size_unique (S n) z); [done|lia|by apply fits_div|].
    destruct n as [|n]; [by left|]. right. destruct Hm as [?|Hm]; [lia|].
    apply not_true_is_false. rewrite Nat.sub_1_r. simpl. intros Hf%fits_div.
    apply Hm. rewrite Nat2Z.inj_succ, Z.pow_succ_r, Z.mul_comm, <- Z.div_div by lia.
    assert (0 < 256 ^ Z.of_nat n) by (apply Z.pow_pos_nonneg; lia).
    destruct Hs as [[-> Hz]|[-> Hz]].
    + assert (z / 256 ^ Z.of_nat n < 0) by (apply Z.div_lt_upper_bound; lia).
      Z.div_mod_to_equations; lia.
    + assert (0 ≤ z / 256 ^ Z.of_nat n) by (apply Z.div_pos; lia).
      Z.div_mod_to_equations; lia.
  - rewrite (int_size_unique (S (S n)) z); [|lia|apply fits_div|].
    + cbn [be_bytes]. by rewrite Hq.
    + rewrite Hq. destruct Hs as [[-> _]|[-> _]]; lia.
    + right. apply not_true_is_false. rewrite Nat.sub_1_r. simpl. by intros Hf%fits_div.
Qed.

(** The comparison of the top bits decides the same. *)
Lemma sign_test tv q :
  tv = -1 ∨ tv = 0 → q / 256 = tv →
  (Z.land (q mod 256) 0x80 =? Z.land tv 0x80) = bool_decide (-128 ≤ q < 128).
Proof.
  intros Ht Hq. rewrite land_128 by (apply Z.mod_pos_bound; lia).
  apply eq_true_iff_eq. rewrite Z.eqb_eq, bool_decide_eq_true.
  destruct Ht as [-> | ->]; case_decide; simpl; split; intros; try done;
    Z.div_mod_to_equations; lia.
Qed.

Lemma rbuild_sign_rspec r tv pad n f z :
  rspec r f (be_bytes n z) → sign_of tv z → minimal tv n z → (n ≤ 8)%nat →
  pad = tv mod 256 →
  rspec r (λ st, st1 ← f st; rbuild_sign r tv pad st1) (int_contents z).
Proof.
  intros Hf Hs Hm Hn ->. destruct n as [|n]; [by destruct Hm; lia|].
  rewrite (sign_octets tv n z) by (done || lia). intros st Hwf. specialize (Hf st Hwf).
  destruct Hm as (_ & Hq & _).
  assert ((Z.land (z / 256 ^ Z.of_nat n mod 256) 0x80 =? Z.land tv 0x80)
          = bool_decide (-128 ≤ z / 256 ^ Z.of_nat n < 128)) as Ht.
  { apply sign_test; [unfold sign_of in Hs; lia|].
    rewrite Z.div_div, (Z.mul_comm _ 256), <- Z.pow_succ_r by lia.
    by rewrite <- Nat2Z.inj_succ. }
  destruct (f st) as [st1| |]; m_step; [| |done].
  - unfold rbuild_sign. rewrite (top_rpost _ _ _ _ _ Hf). m_step. rewrite Ht.
    case_bool_decide; [by rewrite decide_True|]. rewrite decide_False by done. m_step.
    pose proof (push1_rspec r (tv mod 256) st1 (proj1 Hf)) as Hp.
    destruct (push1 r (tv mod 256) st1) as [st2| |]; [|by eapply (short_later r _ [_])|done].
    by apply (rpost_trans r _ [_] _ st1).
  - destruct (decide (-128 ≤ z / 256 ^ Z.of_nat n < 128)); [done|]. by apply (short_app r _ [_]).
Qed.

Lemma rbuild_int_loop_rspec fuel r tv v :
  tv / 256 = tv → v / 256 ^ Z.of_nat fuel = tv →
  ∃ k, (k ≤ fuel)%nat ∧ v / 256 ^ Z.of_nat k = tv ∧
    (k = O ∨ v / 256 ^ Z.of_nat (k - 1) ≠ tv) ∧
    rspec r (rbuild_int_loop (S fuel) r tv v) (be_bytes k v).
Proof.
  intros Ht. revert v. induction fuel as [|fuel IH]; intros v Hv.
  - exists O. split_and!; [lia|done|by left|]. simpl in *. rewrite Z.div_1_r in Hv. subst.
    rewrite Z.eqb_refl. apply rspec_ret.
  - destruct (decide (v = tv)) as [->|Hne].
    + exists O. split_and!; [lia|by rewrite Z.div_1_r|by left|].
      cbn [rbuild_int_loop]. rewrite Z.eqb_refl. apply rspec_ret.
    + rewrite div_pow_256_S in Hv. destruct (IH (v / 256) Hv) as (k & Hk & Hq & Hm & Hr).
      exists (S k). rewrite div_pow_256_S. split_and!; [lia|done| |].
      * right. simpl Nat.sub. rewrite Nat.sub_0_r.
        destruct k as [|k]; [by rewrite Z.div_1_r|].
        rewrite div_pow_256_S. simpl Nat.sub in Hm. rewrite Nat.sub_0_r in Hm.
        destruct Hm; [lia|done].
      * rewrite be_bytes_snoc.
        assert (rspec r (λ st, st ← push1 r (u8 v) st;
                  rbuild_int_loop (S fuel) r tv (Z.shiftr v 8) st)
                  (be_bytes k (v / 256) ++ [v mod 256])) as HH.
        { apply rspec_seq; [apply push1_rspec|]. by rewrite shiftr_div by lia. }
        eapply rspec_ext; [|exact HH]. intros st _.
        change (rbuild_int_loop (S (S fuel)) r tv v st) with
          (if v =? tv then Ok st else st ← push1 r (u8 v) st;
             rbuild_int_loop (S fuel) r tv (Z.shiftr v 8) st).
        destruct (Z.eqb_spec v tv); done.
Qed.

(** First octet and loop. *)
Lemma rbuild_octets_rspec fuel r tv z :
  tv / 256 = tv → z / 256 ^ Z.of_nat (S fuel) = tv →
  ∃ n, (n ≤ S fuel)%nat ∧ minimal tv n z ∧
    rspec r (λ st, st ← push1 r (u8 z) st; rbuild_int_loop (S fuel) r tv (Z.shiftr z 8) st)
      (be_bytes n z).
Proof.
  intros Ht Hz. rewrite div_pow_256_S in Hz.
  destruct (rbuild_int_loop_rspec fuel r tv (z / 256) Ht Hz) as (k & Hk & Hq & Hm & Hr).
  exists (S k). split_and!; [lia|split; [lia|]|].
  - rewrite div_pow_256_S. split; [done|]. destruct k as [|k]; [by left|right].
    simpl Nat.sub. rewrite div_pow_256_S. simpl Nat.sub in Hm. rewrite Nat.sub_0_r in Hm.
    destruct Hm; [lia|done].
  - rewrite be_bytes_snoc, shiftr_div by lia. by apply rspec_seq; [apply push1_rspec|].
Qed.

Lemma rbuild_int_rspec r type z :
  - 2 ^ 31 ≤ z < 2 ^ 31 →
  rspec r (asn_realloc_rbuild_int r type z SIZEOF_LONG) (ber_int type z).
Proof.
  intros Hz. set (tv := if z <? 0 then -1 else 0).
  assert (sign_of tv z) as Hs.
  { subst tv. destruct (Z.ltb_spec z 0); [by left|by right]. }
  destruct (rbuild_octets_rspec 4 r tv z) as (n & Hn & Hm & Hf).
  { destruct Hs as [[-> _]|[-> _]]; done. }
  { destruct Hs as [[-> ?]|[-> ?]]; simpl; Z.div_mod_to_equations; lia. }
  unfold ber_int. eapply rspec_ext; [|apply rbuild_tlv_rspec;
    apply (rbuild_sign_rspec r tv (Z.land tv 0xff) n _ z Hf Hs Hm); [lia|apply land_ff]].
  intros st _. unfold asn_realloc_rbuild_int. rewrite Z.eqb_refl. m_step. fold tv.
  by rewrite !M_bind_assoc.
Qed.

Lemma rbuild_unsigned_int_rspec r type z :
  0 ≤ z < 2 ^ 32 →
  rspec r (asn_realloc_rbuild_unsigned_int r type z SIZEOF_LONG) (ber_int type z).
Proof.
  intros Hz. destruct (rbuild_octets_rspec 4 r 0 z) as (n & Hn & Hm & Hf); [done| |].
  { simpl; Z.div_mod_to_equations; lia. }
  unfold ber_int. eapply rspec_ext; [|apply rbuild_tlv_rspec;
    apply (rbuild_sign_rspec r 0 0 n _ z Hf); [right; lia|done|lia|done]].
  intros st _. unfold asn_realloc_rbuild_unsigned_int. rewrite Z.eqb_refl. m_step.
  by rewrite !M_bind_assoc.
Qed.

(** *** Opaque wrappers *)

(** Three octets for which there is room, then the header of the Opaque. *)
Lemma rbuild_opaque_rgoal r special size st :
  wf st → (offset st + 3 ≤ length (pkt st))%nat → 0 ≤ size ≤ Z.of_nat (offset st) →
  size < 128 - 3 →
  rgoal r (rbuild_opaque r special size st)
    (ASN_OPAQUE :: ber_length (size + 3) ++ [ASN_OPAQUE_TAG1; special; size]) st.
Proof.
  intros Hwf Hr Hs Hs'. unfold rbuild_opaque.
  destruct (push_spec (u8 size) st) as (st1 & -> & Hwf1 & Hw1 & Ho1 & Hl1); [done|lia|].
  m_step.
  destruct (push_spec special st1) as (st2 & -> & Hwf2 & Hw2 & Ho2 & Hl2); [done|lia|].
  m_step.
  destruct (push_spec ASN_OPAQUE_TAG1 st2) as (st3 & -> & Hwf3 & Hw3 & Ho3 & Hl3);
    [done|lia|].
  m_step. rewrite u8_id in Hw1 by (unfold is_byte; lia).
  assert (rpost r [ASN_OPAQUE_TAG1; special; size] st st3) as HP.
  { split_and!; [done|by rewrite Hw3, Hw2, Hw1|simpl; lia|intros; congruence]. }
  pose proof (header_check_rgoal r _ (ASN_OPAQUE :: ber_length (size + 3)) (size + 3) st3
    (rbuild_header_rspec r ASN_OPAQUE (size + 3) ltac:(lia)) Hwf3) as Hg.
  specialize (Hg ltac:(pose proof (zlen_nonneg (ASN_OPAQUE :: ber_length (size + 3))); lia)).
  by apply (rgoal_app r _ [ASN_OPAQUE_TAG1; special; size] (ASN_OPAQUE :: _) st st3).
Qed.

Lemma ber_opaque_split special c :
  ber_opaque special c
  = (ASN_OPAQUE :: ber_length (zlen c + 3) ++ [ASN_OPAQUE_TAG1; special; zlen c]) ++ c.
Proof.
  unfold ber_opaque. rewrite ber_tlv_cons, zlen_opaque_contents. unfold opaque_contents.
  cbn [app]. by rewrite <- app_assoc.
Qed.

Lemma length_opaque_head special size :
  size < 125 →
  length (ASN_OPAQUE :: ber_length (size + 3) ++ [ASN_OPAQUE_TAG1; special; size]) = 5%nat.
Proof.
  intros. unfold ber_length. destruct (Z.ltb_spec (size + 3) 128); [done|lia].
Qed.

(** An integer in an Opaque: the contents are written first. *)
Lemma rbuild_opaque_int_rspec r special f z :
  rspec r f (int_contents z) →
  rspec r (λ st, st1 ← f st; st2 ← need r 5 st1;
             rbuild_opaque r special (since (offset st) st1) st2)
    (ber_opaque special (int_contents z)).
Proof.
  intros Hf. rewrite ber_opaque_split.
  apply (rspec_then r f (λ st st1, st2 ← need r 5 st1;
             rbuild_opaque r special (since (offset st) st1) st2)); [done|].
  intros st st1 Hwf (Hwf1 & Hw1 & Ho1 & Hl1). unfold since. fold (zlen (int_contents z)).
  replace (Z.of_nat (offset st1) - Z.of_nat (offset st)) with (zlen (int_contents z))
    by (unfold zlen; lia).
  assert (0 ≤ zlen (int_contents z) ≤ 9) as Hz.
  { unfold zlen. rewrite length_int_contents. pose proof (int_size_bounds z). lia. }
  pose proof (need_spec r 5 st1 Hwf1) as Hn. change (Z.of_nat 5) with 5 in Hn.
  destruct (need r 5 st1) as [st2| |]; m_step;
    [|by unfold rgoal; rewrite length_opaque_head by lia|done].
  destruct Hn as (Hwf2 & Hw2 & Ho2 & Hr2 & Hl2).
  pose proof (rbuild_opaque_rgoal r special (zlen (int_contents z)) st2 Hwf2) as Hg.
  specialize (Hg ltac:(lia) ltac:(unfold zlen in *; lia) ltac:(lia)).
  unfold rgoal in *. destruct (rbuild_opaque _ _ _ _) as [st3| |]; [|..|done].
  - destruct Hg as (Hwf3 & Hw3 & Ho3 & Hl3). split_and!;
      [done|by rewrite Hw3, Hw2|by rewrite Ho3, Ho2|intros Hr; by rewrite Hl3, Hl2].
  - rewrite Ho2 in Hg. eapply short_mono; [|exact Hl2|exact Hg]. done.
Qed.

(** A block of [size] octets in an Opaque. *)
Lemma rbuild_opaque_block_rspec r special l :
  zlen l < 125 →
  rspec r (λ st, st ← need r (zlen l + 3) st; st ← push_block l st;
             rbuild_opaque r special (zlen l) st)
    (ber_opaque special l).
Proof.
  intros Hz st Hwf. rewrite ber_opaque_split.
  pose proof (need_spec r (length l + 3) st Hwf) as Hn.
  replace (Z.of_nat (length l + 3)) with (zlen l + 3) in Hn by (unfold zlen; lia).
  destruct (need r (zlen l + 3) st) as [st1| |]; m_step; [| |done].
  2:{ eapply short_mono; [|done|exact Hn].
      rewrite length_app, length_opaque_head by lia. lia. }
  destruct Hn as (Hwf1 & Hw1 & Ho1 & Hr1 & Hl1).
  destruct (push_block_spec l st1) as (st2 & -> & Hwf2 & Hw2 & Ho2 & Hl2); [done|lia|].
  m_step. assert (rpost r l st st2) as HP.
  { split_and!; [done|by rewrite Hw2, Hw1|lia|intros Hr; by rewrite Hl2, Hl1]. }
  pose proof (rbuild_opaque_rgoal r special (zlen l) st2 Hwf2) as Hg.
  specialize (Hg ltac:(lia) ltac:(unfold zlen in *; lia) ltac:(lia)).
  by apply (rgoal_app r _ l _ st st2).
Qed.

Lemma rbuild_float_rspec r type bits :
  rspec r (asn_realloc_rbuild_float r type bits SIZEOF_FLOAT)
    (ber_opaque ASN_OPAQUE_FLOAT (be_bytes 4 bits)).
Proof.
  rewrite <- float_octets_be. apply (rbuild_opaque_block_rspec r ASN_OPAQUE_FLOAT).
  by rewrite float_octets_be, zlen_be_bytes.
Qed.

Lemma rbuild_double_rspec r type bits :
  rspec r (asn_realloc_rbuild_double r type bits SIZEOF_DOUBLE)
    (ber_opaque ASN_OPAQUE_DOUBLE (be_bytes 8 bits)).
Proof.
  rewrite <- double_octets_be. apply (rbuild_opaque_block_rspec r ASN_OPAQUE_DOUBLE).
  by rewrite double_octets_be, zlen_be_bytes.
Qed.

(** *** 64-bit integers *)

Lemma rbuild_pad_rspec n r pad : rspec r (rbuild_pad_loop n r pad) (replicate n pad).
Proof.
  induction n as [|n IH]; [apply rspec_ret|].
  rewrite replicate_S_end. apply rspec_seq; [apply push1_rspec|done].
Qed.

Lemma rbuild_slow_loop_rspec n r tv v :
  ∃ k g, (k ≤ n)%nat ∧ (k = n ∨ v / 256 ^ Z.of_nat k = tv) ∧
    (k = O ∨ v / 256 ^ Z.of_nat (k - 1) ≠ tv) ∧ rspec r g (be_bytes k v) ∧
    ∀ st, rbuild_slow_loop n r tv v st = (st ← g st; Ok ((n - k)%nat, st)).
Proof.
  revert v. induction n as [|n IH]; intros v.
  { exists O, Ok. split_and!; [lia|by left|by left|apply rspec_ret|done]. }
  cbn [rbuild_slow_loop]. destruct (Z.eqb_spec v tv) as [->|Hne].
  { exists O, Ok. split_and!; [lia|right; apply Z.div_1_r|by left|apply rspec_ret|done]. }
  destruct (IH (v / 256)) as (k & g & Hk & Hq & Hm & Hg & Heq).
  exists (S k), (λ st, st ← push1 r (u8 v) st; g st). rewrite div_pow_256_S.
  split_and!; [lia|destruct Hq; [left; lia|by right]|right|..].
  - simpl Nat.sub. rewrite Nat.sub_0_r. destruct k as [|k]; [by rewrite Z.div_1_r|].
    rewrite div_pow_256_S. simpl Nat.sub in Hm. rewrite Nat.sub_0_r in Hm.
    destruct Hm; [lia|done].
  - rewrite be_bytes_snoc. by apply rspec_seq; [apply push1_rspec|].
  - intros st. rewrite shiftr_div by lia. rewrite M_bind_assoc.
    destruct (push1 r (u8 v) st); m_step; [|done..]. apply Heq.
Qed.

(** The unsigned low loop stops by itself after three turns. *)
Lemma rbuild_low_loop_eq n fuel r v c st :
  0 ≤ v < 256 ^ Z.of_nat n → (n < fuel)%nat → (n + c = 4)%nat →
  rbuild_low_loop fuel r v c st
  = ('(rest, st) ← rbuild_slow_loop n r 0 v st; Ok ((4 - rest)%nat, st)).
Proof.
  revert fuel v c st. induction n as [|n IH]; intros fuel v c st Hv Hf Hc;
    (destruct fuel as [|fuel]; [lia|]); cbn [rbuild_low_loop rbuild_slow_loop].
  - replace v with 0 by (simpl in Hv; lia). m_step. do 2 f_equal. lia.
  - destruct (Z.eqb_spec v 0) as [->|Hne]; m_step; [do 2 f_equal; lia|].
    destruct (push1 r (u8 v) st); m_step; [|done..].
    apply IH; [|lia|lia]. rewrite shiftr_div by lia.
    rewrite Nat2Z.inj_succ, Z.pow_succ_r in Hv by lia. change (2 ^ 8) with 256.
    split; [apply Z.div_pos; lia|apply Z.div_lt_upper_bound; lia].
Qed.

(** The octets up to the sign fill, from a low half [l] and a high half [h]. *)
Definition rbuild_halves (r : bool) (tv pad l h : Z) (st : rstate) : M rstate :=
  st ← push1 r (u8 l) st;
  '(rest, st) ← rbuild_slow_loop 3 r tv (Z.shiftr l 8) st;
  if h =? tv then Ok st
  else
    st ← rbuild_pad_loop rest r pad st;
    st ← push1 r (u8 h) st;
    rbuild_int_loop 5 r tv (Z.shiftr h 8) st.

Lemma be_bytes_fill k l tv :
  tv = -1 ∨ tv = 0 → (k ≤ 3)%nat → (k = 3%nat ∨ l / 256 ^ Z.of_nat (S k) = tv) →
  be_bytes 4 l = replicate (3 - k) (tv mod 256) ++ be_bytes (S k) l.
Proof.
  intros Ht Hk [->|Hq]; [done|].
  assert (k = 0 ∨ k = 1 ∨ k = 2 ∨ k = 3)%nat as [->|[->|[->| ->]]] by lia;
    simpl in *; const_powers; list_eq; try done;
    destruct Ht as [-> | ->]; Z.div_mod_to_equations; lia.
Qed.

Lemma div_halves n h l :
  (h * 2 ^ 32 + l mod 2 ^ 32) / 256 ^ Z.of_nat (n + 4) = h / 256 ^ Z.of_nat n.
Proof.
  rewrite Nat2Z.inj_add, (Z.add_comm (Z.of_nat n)), Z.pow_add_r, <- Z.div_div by lia.
  f_equal. change (256 ^ Z.of_nat 4) with (2 ^ 32). Z.div_mod_to_equations; lia.
Qed.

Lemma be_bytes_halves n h l :
  be_bytes (n + 4) (h * 2 ^ 32 + l mod 2 ^ 32) = be_bytes n h ++ be_bytes 4 l.
Proof.
  induction n as [|n IH].
  - simpl. const_powers. list_eq; Z.div_mod_to_equations; lia.
  - cbn [Nat.add be_bytes app]. by rewrite IH, div_halves.
Qed.

(** When the high half is sign fill, [S k] octets of the low half are enough. *)
Lemma low_minimal k tv l :
  tv = -1 ∨ tv = 0 → - 2 ^ 31 ≤ l < 2 ^ 32 → (k ≤ 3)%nat →
  (k = 3%nat ∨ l / 256 ^ Z.of_nat (S k) = tv) → (k = O ∨ l / 256 ^ Z.of_nat k ≠ tv) →
  (tv = 0 ∨ l < 2 ^ 31) →
  let z := tv * 2 ^ 32 + l mod 2 ^ 32 in
  minimal tv (S k) z ∧ be_bytes (S k) z = be_bytes (S k) l.
Proof.
  intros Ht Hl Hk Hq Hm Hs z. subst z. unfold minimal.
  assert (k = 0 ∨ k = 1 ∨ k = 2 ∨ k = 3)%nat as [->|[->|[->| ->]]] by lia;
    simpl in *; const_powers; (split; [split; [lia|split]|list_eq; try done]);
    destruct Ht as [-> | ->]; Z.div_mod_to_equations; lia.
Qed.

Lemma rbuild_halves_rspec r tv l h :
  tv = -1 ∨ tv = 0 → - 2 ^ 31 ≤ l < 2 ^ 32 → (tv = 0 ∨ l < 2 ^ 31) → h / 2 ^ 32 = tv →
  let z := h * 2 ^ 32 + l mod 2 ^ 32 in
  ∃ n, (n ≤ 8)%nat ∧ minimal tv n z ∧
    rspec r (rbuild_halves r tv (tv mod 256) l h) (be_bytes n z).
Proof.
  intros Ht Hl Hs Hh z.
  assert (tv / 256 = tv) as Ht' by (destruct Ht; subst; done).
  destruct (rbuild_slow_loop_rspec 3 r tv (l / 256)) as (k & g & Hk & Hq & Hm & Hg & Heq).
  rewrite <- div_pow_256_S in Hq.
  assert (rspec r (λ st, st ← push1 r (u8 l) st; g st) (be_bytes (S k) l)) as Hlow.
  { rewrite be_bytes_snoc. apply rspec_seq; [apply push1_rspec|done]. }
  destruct (Z.eqb_spec h tv) as [->|Hne].
  - destruct (low_minimal k tv l) as [Hmin Hbytes]; [done..| |done|].
    { destruct k as [|k]; [by left|right]. rewrite div_pow_256_S.
      simpl Nat.sub in Hm. rewrite Nat.sub_0_r in Hm. by destruct Hm. }
    exists (S k). split_and!; [lia|done|]. subst z. rewrite Hbytes.
    eapply rspec_ext; [|exact Hlow]. intros st _. unfold rbuild_halves.
    rewrite (shiftr_div l), Z.eqb_refl by lia. change (2 ^ 8) with 256.
    destruct (push1 r (u8 l) st) as [st1| |]; m_step; [|done..]. rewrite Heq.
    by destruct (g st1).
  - destruct (rbuild_octets_rspec 4 r tv h Ht') as (n & Hn & Hmin & Hhigh).
    { change (Z.of_nat 5) with (4 + 1). rewrite Z.pow_add_r, <- Z.div_div by lia.
      change (256 ^ 4) with (2 ^ 32). by rewrite Hh. }
    assert (n ≤ 4)%nat as Hn4.
    { destruct Hmin as (_ & _ & [->|Hmin]); [lia|].
      destruct (decide (n = 5%nat)) as [->|]; [|lia]. by destruct Hmin. }
    exists (n + 4)%nat. split_and!; [lia|..].
    + destruct Hmin as (Hn1 & Hmq & Hmm). unfold z. split_and!; [lia|by rewrite div_halves|].
      right. replace (n + 4 - 1)%nat with (n - 1 + 4)%nat by lia. rewrite div_halves.
      destruct Hmm as [->|?]; [|done]. simpl. by rewrite Z.div_1_r.
    + subst z. rewrite be_bytes_halves.
      rewrite (be_bytes_fill k l tv Ht Hk) by done.
      eapply rspec_ext; [|apply rspec_seq; [apply rspec_seq;
        [exact Hlow|apply (rbuild_pad_rspec (3 - k) r (tv mod 256))]|exact Hhigh]].
      intros st _. unfold rbuild_halves. rewrite (shiftr_div l) by lia.
      change (2 ^ 8) with 256.
      destruct (Z.eqb_spec h tv); [done|]. rewrite !M_bind_assoc.
      destruct (push1 r (u8 l) st) as [st1| |]; m_step; [|done..]. rewrite Heq.
      by destruct (g st1).
Qed.

Lemma rbuild_unsigned_halves r low high st {B} (f : rstate → M B) :
  0 ≤ low < 2 ^ 32 →
  (st ← push1 r (u8 low) st;
   '(count, st) ← rbuild_low_loop 5 r (Z.shiftr low 8) 1 st;
   st ← (if high =? 0 then Ok st
         else
           st ← rbuild_pad_loop (4 - count) r 0 st;
           st ← push1 r (u8 high) st;
           rbuild_int_loop 5 r 0 (Z.shiftr high 8) st);
   f st)
  = (st ← rbuild_halves r 0 0 low high st; f st).
Proof.
  intros Hl. unfold rbuild_halves. rewrite M_bind_assoc.
  destruct (push1 r (u8 low) st) as [st1| |]; m_step; [|done..].
  rewrite (rbuild_low_loop_eq 3) by
    (try rewrite shiftr_div by lia; simpl; const_powers; Z.div_mod_to_equations; lia).
  destruct (rbuild_slow_loop_rspec 3 r 0 (Z.shiftr low 8)) as (k & g & Hk & _ & _ & _ & ->).
  destruct (g st1) as [st2| |]; m_step; [|done..].
  replace (4 - (4 - (3 - k)))%nat with (3 - k)%nat by lia. done.
Qed.

Lemma rbuild_unsigned_int64_rspec r type c :
  is_c64 c →
  rspec r (asn_realloc_rbuild_unsigned_int64 r type c SIZEOF_COUNTER64)
    (ber_c64 type (c64_u c)).
Proof.
  intros [Hh Hl]. destruct (rbuild_halves_rspec r 0 (c_low c) (c_high c))
    as (n & Hn & Hm & Hf); [by right|lia|by left|Z.div_mod_to_equations; lia|].
  rewrite (Z.mod_small (c_low c)) in Hm, Hf by lia. fold (c64_u c) in Hm, Hf.
  assert (sign_of 0 (c64_u c)) as Hs by (right; unfold c64_u; lia).
  pose proof (rbuild_sign_rspec r 0 0 n _ _ Hf Hs Hm Hn eq_refl) as Hc.
  assert (∀ st, asn_realloc_rbuild_unsigned_int64 r type c SIZEOF_COUNTER64 st
    = (st1 ← (st1 ← rbuild_halves r 0 0 (c_low c) (c_high c) st; rbuild_sign r 0 0 st1);
       let intsize := since (offset st) st1 in
       if type =? ASN_OPAQUE_COUNTER64 then
         st ← need r 5 st1; rbuild_opaque r ASN_OPAQUE_COUNTER64 intsize st
       else if type =? ASN_OPAQUE_U64 then
         st ← need r 5 st1; rbuild_opaque r ASN_OPAQUE_U64 intsize st
       else
         st ← asn_realloc_rbuild_header r type intsize st1;
         if _asn_realloc_build_header_check st intsize then Err else Ok st)) as Heq.
  { intros st. unfold asn_realloc_rbuild_unsigned_int64. rewrite Z.eqb_refl. m_step.
    rewrite M_bind_assoc. by apply rbuild_unsigned_halves. }
  unfold ber_c64. destruct (Z.eqb_spec type ASN_OPAQUE_COUNTER64) as [->|H1];
    [|destruct (Z.eqb_spec type ASN_OPAQUE_U64) as [->|H2]]; cbn [orb].
  - eapply rspec_ext; [|by apply (rbuild_opaque_int_rspec r ASN_OPAQUE_COUNTER64)].
    intros st _. by rewrite Heq.
  - eapply rspec_ext; [|by apply (rbuild_opaque_int_rspec r ASN_OPAQUE_U64)].
    intros st _. by rewrite Heq.
  - eapply rspec_ext; [|by apply (rbuild_sized_rspec r type)].
    intros st _. by rewrite Heq.
Qed.

Lemma sign_bit_32 z :
  - 2 ^ 31 ≤ z < 2 ^ 31 → negb (Z.land z 0x80000000 =? 0) = (z <? 0).
Proof.
  intros Hz. change 0x80000000 with ((2 ^ 1 - 1) * 2 ^ 31). rewrite land_field by lia.
  apply eq_true_iff_eq. rewrite negb_true_iff, Z.eqb_neq, Z.ltb_lt.
  split; intros; Z.div_mod_to_equations; lia.
Qed.

Lemma rbuild_signed_int64_rspec r type c :
  is_c64 c →
  rspec r (asn_realloc_rbuild_signed_int64 r type c SIZEOF_COUNTER64)
    (ber_opaque ASN_OPAQUE_I64 (int_contents (c64_s c))).
Proof.
  intros [Hh Hl]. set (high := s32 (c_high c)). set (low := s32 (c_low c)).
  pose proof (s32_range (c_high c)) as Hhr. pose proof (s32_range (c_low c)) as Hlr.
  fold high in Hhr. fold low in Hlr.
  set (tv := if high <? 0 then -1 else 0).
  assert (tv = -1 ∧ high < 0 ∨ tv = 0 ∧ 0 ≤ high) as Ht.
  { subst tv. destruct (Z.ltb_spec high 0); auto. }
  assert (high * 2 ^ 32 + low mod 2 ^ 32 = c64_s c) as Hv.
  { unfold c64_s, c64_u. subst high low. unfold s32.
    destruct (Z.ltb_spec (c_high c) (2 ^ 31)); Z.div_mod_to_equations; lia. }
  destruct (rbuild_halves_rspec r tv low high) as (n & Hn & Hm & Hf);
    [lia|lia|lia|Z.div_mod_to_equations; lia|].
  rewrite Hv in Hm, Hf.
  assert (sign_of tv (c64_s c)) as Hs.
  { rewrite <- Hv. unfold sign_of. pose proof (Z.mod_pos_bound low (2 ^ 32)). lia. }
  pose proof (rbuild_sign_rspec r tv (tv mod 256) n _ _ Hf Hs Hm Hn eq_refl) as Hc.
  eapply rspec_ext; [|by apply (rbuild_opaque_int_rspec r ASN_OPAQUE_I64)].
  intros st _. unfold asn_realloc_rbuild_signed_int64, rbuild_halves.
  fold high low. rewrite Z.eqb_refl, sign_bit_32 by done. fold tv. m_step.
  replace (if tv =? 0 then 0 else 255) with (tv mod 256)
    by (destruct Ht as [[-> _]|[-> _]]; done).
  rewrite !M_bind_assoc. destruct (push1 r (u8 low) st) as [st1| |]; m_step; [|done..].
  rewrite !M_bind_assoc.
  by destruct (rbuild_slow_loop 3 r tv (Z.shiftr low 8) st1) as [[rest st2]| |].
Qed.

(** *** Object identifiers *)

Lemma arc_high_app fuel z acc : arc_high fuel z acc = arc_high fuel z [] ++ acc.
Proof.
  revert z acc. induction fuel as [|fuel IH]; intros z acc; [done|]. simpl.
  destruct (z =? 0); [done|]. rewrite IH, (IH _ [_]), <- app_assoc. done.
Qed.

Lemma rbuild_arc_loop_rspec fuel r v :
  0 ≤ v < 128 ^ Z.of_nat fuel → rspec r (rbuild_arc_loop (S fuel) r v) (arc_high fuel v []).
Proof.
  revert v. induction fuel as [|fuel IH]; intros v Hv.
  - cbn [rbuild_arc_loop arc_high]. destruct (Z.ltb_spec 0 v); [simpl in Hv; lia|].
    apply rspec_ret.
  - cbn [arc_high]. destruct (Z.eqb_spec v 0) as [->|Hne]; [apply rspec_ret|].
    rewrite arc_high_app.
    assert (u8 (Z.lor (Z.land v 0x7f) 0x80) = 128 + v mod 128) as Hb.
    { change 0x7f with (2 ^ 7 - 1). rewrite land_ones_mod by lia.
      change (2 ^ 7) with 128. pose proof (Z.mod_pos_bound v 128).
      rewrite lor_high_bit, u8_id by (unfold is_byte; lia). lia. }
    eapply rspec_ext; [|apply rspec_seq; [apply (push1_rspec r (128 + v mod 128))|
      apply (IH (v / 128))]].
    + intros st _. rewrite <- Hb. change (v / 128) with (v / 2 ^ 7).
      rewrite <- shiftr_div by lia.
      change (rbuild_arc_loop (S (S fuel)) r v st) with
        (if 0 <? v then st ← push1 r (u8 (Z.lor (Z.land v 0x7f) 0x80)) st;
           rbuild_arc_loop (S fuel) r (Z.shiftr v 7) st else Ok st).
      destruct (Z.ltb_spec 0 v); [done|lia].
    + rewrite Nat2Z.inj_succ, Z.pow_succ_r in Hv by lia.
      split; [apply Z.div_pos; lia|apply Z.div_lt_upper_bound; lia].
Qed.

Lemma rbuild_arc_rspec r v : is_u32 v → rspec r (rbuild_arc r v) (ber_arc v).
Proof.
  unfold is_u32. intros Hv. unfold ber_arc. rewrite arc_high_app.
  assert (Z.land (u8 v) 0x7f = v mod 128) as Hb.
  { change 0x7f with (2 ^ 7 - 1). rewrite land_ones_mod by lia.
    unfold u8. Z.div_mod_to_equations; lia. }
  unfold rbuild_arc. rewrite Hb, shiftr_div by lia.
  apply rspec_seq; [apply push1_rspec|].
  apply rbuild_arc_loop_rspec. simpl. const_powers. Z.div_mod_to_equations; lia.
Qed.

Lemma rbuild_arcs_rspec n r x y rest :
  Forall is_u32 rest → (n ≤ length rest)%nat →
  rspec r (rbuild_arcs n r (x :: y :: rest)) (concat (ber_arc <$> take n rest)).
Proof.
  intros Hr. induction n as [|n IH]; intros Hn; [apply rspec_ret|].
  destruct (lookup_lt_is_Some_2 rest n) as [v Hv]; [lia|].
  rewrite (take_S_r _ _ _ Hv), fmap_app, concat_app. cbn [fmap list_fmap concat].
  rewrite app_nil_r.
  eapply rspec_ext; [|apply rspec_seq; [apply rbuild_arc_rspec|apply IH; lia]].
  - intros st _. cbn [rbuild_arcs]. rewrite Nat.add_comm.
    assert (rd (x :: y :: rest) (2 + n) = Ok v) as -> by by apply rd_Ok.
    done.
  - by eapply Forall_lookup_1.
Qed.

Lemma rbuild_objid_rspec r type o :
  oid_encodable o →
  rspec r (asn_realloc_rbuild_objid r type o (zlen o)) (ber_oid type o).
Proof.
  intros Ho. pose proof (oid_encodable_subids o Ho) as [Hs _].
  destruct o as [|x [|y rest]]; [done..|]. destruct Ho as (Hx & Hy & Hxy & Hlt & Hr & _).
  cbn [oid_subids] in Hs. apply Forall_cons in Hs as [Hs _].
  unfold ber_oid, oid_contents. cbn [oid_subids fmap list_fmap concat].
  pose proof (rbuild_arcs_rspec (length rest) r x y rest Hr (le_n _)) as Harcs.
  rewrite firstn_all in Harcs.
  eapply rspec_ext; [|apply rbuild_tlv_rspec; apply rspec_seq;
    [exact Harcs|apply (rbuild_arc_rspec r _ Hs)]].
  intros st _. unfold asn_realloc_rbuild_objid. rewrite !zlen_cons.
  pose proof (zlen_nonneg rest).
  destruct (Z.eqb_spec (1 + (1 + zlen rest)) 0); [lia|].
  change (rd (x :: y :: rest) 0) with (@Ok Z x).
  change (rd (x :: y :: rest) 1) with (@Ok Z y). m_step.
  destruct (Z.ltb_spec 2 x); [lia|]. destruct (Z.eqb_spec (1 + (1 + zlen rest)) 1); [lia|].
  replace (Z.to_nat (1 + (1 + zlen rest) - 2)) with (length rest) by (unfold zlen; lia).
  replace ((40 <? y) && (x <? 2)) with false by lia.
  rewrite u32_id by done. done.
Qed.

End Rbuild.
