(* ===== verification/Codec.v ===== *)
(** * Round trips of the BER codec

    The properties of the forward encoders and the decoders of snmplib/asn1.c
    that a user of the pair relies on, from the contracts proved in the Asn1
    files. *)

From S2P Require Import Prelude Ber Asn1 Asn1Int Asn1Str Asn1Oid Asn1Int64 Asn1Float.
From stdpp Require Import prelude numbers list.
From Stdlib Require Import ZArith Lia.
Open Scope Z_scope.

(** ** Integers *)

(** What asn_build_int writes for any 32-bit signed integer, asn_parse_int
    reads back; the object takes 2 octets and the fewest two's complement
    octets, the rest of the buffer is unchanged, and a buffer without that many
    octets is rejected. *)
Theorem asn_int_roundtrip tag z buf data dl :
  - 2 ^ 31 ≤ z < 2 ^ 31 → 0 ≤ dl < 2 ^ 32 → (data + Z.to_nat dl ≤ length buf)%nat →
  inverse_at (λ b d l, asn_build_int b d l tag z SIZEOF_LONG)
    (λ b d l, asn_parse_int b d l SIZEOF_LONG) tag z (2 + Z.of_nat (int_size z)) buf data dl.
Proof.
  intros Hz Hd Hb. rewrite <- (zlen_ber_int tag). apply encode_decode;
    [by apply asn_build_int_encodes|by apply asn_parse_int_decodes|done|done].
Qed.

Lemma asn_int_roundtrip_witness :
  inverse_at (λ b d l, asn_build_int b d l ASN_INTEGER (-129) SIZEOF_LONG)
    (λ b d l, asn_parse_int b d l SIZEOF_LONG) ASN_INTEGER (-129)
    (2 + Z.of_nat (int_size (-129))) (replicate 8 7) 1 6.
Proof. apply asn_int_roundtrip; [lia|lia|simpl; lia]. Defined.

(** The same for asn_build_unsigned_int, asn_parse_unsigned_int and every
    32-bit unsigned integer. *)
Theorem asn_unsigned_int_roundtrip tag z buf data dl :
  0 ≤ z < 2 ^ 32 → 0 ≤ dl < 2 ^ 32 → (data + Z.to_nat dl ≤ length buf)%nat →
  inverse_at (λ b d l, asn_build_unsigned_int b d l tag z SIZEOF_LONG)
    (λ b d l, asn_parse_unsigned_int b d l SIZEOF_LONG) tag z (2 + Z.of_nat (int_size z))
    buf data dl.
Proof.
  intros Hz Hd Hb. rewrite <- (zlen_ber_int tag). apply encode_decode;
    [by apply asn_build_unsigned_int_encodes|by apply asn_parse_unsigned_int_decodes|done|done].
Qed.

Lemma asn_unsigned_int_roundtrip_witness :
  inverse_at (λ b d l, asn_build_unsigned_int b d l ASN_GAUGE 0xFFFFFFFF SIZEOF_LONG)
    (λ b d l, asn_parse_unsigned_int b d l SIZEOF_LONG) ASN_GAUGE 0xFFFFFFFF
    (2 + Z.of_nat (int_size 0xFFFFFFFF)) (replicate 10 7) 1 8.
Proof. apply asn_unsigned_int_roundtrip; [lia|lia|simpl; lia]. Defined.

(** Value of an octet string read as two's complement. *)
Definition tc_val (l : list Z) : Z :=
  match l with
  | [] => 0
  | b :: _ => if b <? 128 then be_val 0 l else be_val 0 l - 256 ^ Z.of_nat (length l)
  end.

Lemma tc_val_fits l : Forall is_byte l → l ≠ [] → fits (length l) (tc_val l) = true.
Proof.
  intros Hl Hn. destruct l as [|b l]; [done|]. apply Forall_cons in Hl as [Hb Hl].
  apply fits_spec. unfold tc_val. unfold is_byte in Hb.
  pose proof (be_val_bound b l Hl ltac:(lia)) as Hv.
  change (be_val 0 (b :: l)) with (be_val b l).
  assert (2 ^ (8 * Z.of_nat (length (b :: l)) - 1) = 128 * 256 ^ Z.of_nat (length l)) as ->.
  { change 128 with (2 ^ 7). change 256 with (2 ^ 8).
    rewrite <- Z.pow_mul_r, <- Z.pow_add_r by lia. f_equal. simpl length. lia. }
  assert (256 ^ Z.of_nat (length (b :: l)) = 256 * 256 ^ Z.of_nat (length l)) as ->.
  { simpl length. rewrite Nat2Z.inj_succ, Z.pow_succ_r by lia. done. }
  set (P := 256 ^ Z.of_nat (length l)) in *.
  destruct (Z.ltb_spec b 128); nia.
Qed.

Lemma tc_val_int_contents z : - 2 ^ 63 ≤ z < 2 ^ 64 → tc_val (int_contents z) = z.
Proof.
  intros Hz.
  assert (fits (int_size z) z = true) as Hf.
  { apply int_size_fits, fits_spec. change (8 * Z.of_nat 9 - 1) with 71. lia. }
  apply fits_spec in Hf. unfold int_contents, tc_val.
  pose proof (int_size_bounds z) as Hs. rewrite be_val_be_bytes.
  destruct (int_size z) as [|n]; [lia|]. cbn [be_bytes].
  replace (2 ^ (8 * Z.of_nat (S n) - 1)) with (128 * 256 ^ Z.of_nat n) in Hf.
  2:{ change 128 with (2 ^ 7). change 256 with (2 ^ 8).
      rewrite <- Z.pow_mul_r, <- Z.pow_add_r by lia. f_equal. lia. }
  change (length (?x :: be_bytes n z)) with (S (length (be_bytes n z))).
  rewrite length_be_bytes, Nat2Z.inj_succ, Z.pow_succ_r by lia.
  assert (0 < 256 ^ Z.of_nat n) by (apply Z.pow_pos_nonneg; lia).
  set (P := 256 ^ Z.of_nat n) in *. clearbody P.
  destruct (Z.lt_ge_cases z 0) as [Hneg|Hpos].
  + rewrite <- (Z.mod_unique z (256 * P) (-1) (z + 256 * P)) by lia.
    assert (z / P mod 256 = z / P + 256) as ->.
    { symmetry. apply (Z.mod_unique _ _ (-1)); [|lia]. left.
      assert (-128 ≤ z / P) by (apply Z.div_le_lower_bound; lia).
      assert (z / P < 0) by (apply Z.div_lt_upper_bound; lia). lia. }
    assert (-128 ≤ z / P) by (apply Z.div_le_lower_bound; lia).
    destruct (Z.ltb_spec (z / P + 256) 128); lia.
  + rewrite (Z.mod_small z) by lia.
    assert (z / P < 128) by (apply Z.div_lt_upper_bound; lia).
    assert (0 ≤ z / P) by (apply Z.div_pos; lia).
    rewrite Z.mod_small by lia. destruct (Z.ltb_spec (z / P) 128); lia.
Qed.

(** asn_build_int writes the tag, the length octet and contents that
    no other two's complement representation of the value undercuts. *)
Theorem asn_build_int_shortest tag z l buf data dl :
  - 2 ^ 31 ≤ z < 2 ^ 31 → 0 ≤ dl < 2 ^ 32 → (data + Z.to_nat dl ≤ length buf)%nat →
  Forall is_byte l → l ≠ [] → tc_val l = z →
  asn_build_int buf data dl tag z SIZEOF_LONG
  = put (tag :: zlen (int_contents z) :: int_contents z) buf data dl ∧
  tc_val (int_contents z) = z ∧ (length (int_contents z) ≤ length l)%nat.
Proof.
  intros Hz Hd Hb Hl Hn Ht. split_and!.
  - rewrite asn_build_int_encodes by done. unfold ber_int, ber_tlv.
    pose proof (zlen_int_contents z) as Hc. pose proof (int_size_bounds z).
    unfold ber_length. destruct (Z.ltb_spec (zlen (int_contents z)) 128); [done|lia].
  - apply tc_val_int_contents. lia.
  - rewrite length_int_contents. apply int_size_le; [destruct l; [done|simpl; lia]|].
    rewrite <- Ht. by apply tc_val_fits.
Qed.

Lemma asn_build_int_shortest_witness :
  asn_build_int (replicate 6 0) 0 6 ASN_INTEGER (-2) SIZEOF_LONG
  = put (ASN_INTEGER :: zlen (int_contents (-2)) :: int_contents (-2)) (replicate 6 0) 0 6 ∧
  tc_val (int_contents (-2)) = -2 ∧
  (length (int_contents (-2)) ≤ length ([0xff; 0xff; 0xfe]%Z : list Z))%nat.
Proof.
  apply asn_build_int_shortest; [lia|lia|simpl; lia| |done|done].
  repeat constructor; unfold is_byte; lia.
Defined.

(** ** Strings *)

(** asn_parse_string copies back what asn_build_string wrote, into a buffer
    of [strlength] bytes at least as long, adds a terminating zero octet when
    one fits, and leaves the rest of that buffer alone. *)
Theorem asn_string_roundtrip tag s rest str strlength buf data dl :
  zlen s < 2 ^ 16 → zlen s ≤ strlength ≤ zlen str →
  0 ≤ dl < 2 ^ 32 → (data + Z.to_nat dl ≤ length buf)%nat →
  inverse_at (λ b d l, asn_build_string b d l tag (Some (s ++ rest)) (zlen s))
    (λ b d l, asn_parse_string b d l str strlength) tag
    (if zlen s <? strlength then s ++ 0 :: drop (S (length s)) str
     else s ++ drop (length s) str, zlen s)
    (zlen (ber_string tag s)) buf data dl.
Proof.
  intros Hs Hstr Hd Hb. apply encode_decode;
    [by apply asn_build_string_encodes|apply asn_parse_string_decodes; lia|done|done].
Qed.

Lemma asn_string_roundtrip_witness :
  inverse_at (λ b d l, asn_build_string b d l ASN_OCTET_STR (Some ([104; 105] ++ [33])) 2)
    (λ b d l, asn_parse_string b d l [1; 2; 3; 4] 4) ASN_OCTET_STR
    ([104; 105; 0; 4], 2) (zlen (ber_string ASN_OCTET_STR [104; 105])) (replicate 8 7) 1 6.
Proof.
  apply (asn_string_roundtrip ASN_OCTET_STR [104; 105] [33] [1; 2; 3; 4] 4);
    [done|split; done|lia|simpl; lia].
Defined.

(** The same for asn_build_bitstring and asn_parse_bitstring, which accept
    only non-empty strings. *)
Theorem asn_bitstring_roundtrip tag s rest str strlength buf data dl :
  1 ≤ zlen s < 2 ^ 16 → zlen s ≤ strlength ≤ zlen str →
  0 ≤ dl < 2 ^ 32 → (data + Z.to_nat dl ≤ length buf)%nat →
  inverse_at (λ b d l, asn_build_bitstring b d l tag (Some (s ++ rest)) (zlen s))
    (λ b d l, asn_parse_bitstring b d l str strlength) tag
    (s ++ drop (length s) str, zlen s) (zlen (ber_string tag s)) buf data dl.
Proof.
  intros Hs Hstr Hd Hb. apply encode_decode;
    [by apply asn_build_bitstring_encodes|apply asn_parse_bitstring_decodes; lia|done|done].
Qed.

Lemma asn_bitstring_roundtrip_witness :
  inverse_at (λ b d l, asn_build_bitstring b d l ASN_BIT_STR (Some ([0; 128] ++ [])) 2)
    (λ b d l, asn_parse_bitstring b d l [1; 2; 3] 3) ASN_BIT_STR
    ([0; 128; 3], 2) (zlen (ber_string ASN_BIT_STR [0; 128])) (replicate 8 7) 1 6.
Proof.
  apply (asn_bitstring_roundtrip ASN_BIT_STR [0; 128] [] [1; 2; 3] 3);
    [done|split; done|lia|simpl; lia].
Defined.

(** ** Object identifiers *)

(** Asn_parse_objid gives back the object identifier asn_build_objid wrote,
    for first arc 0, 1 or 2, second arc below 40 under the first two, and
    32-bit arcs, up to 128 of them. *)
Theorem asn_objid_roundtrip tag o rest objid objidlength buf data dl :
  oid_encodable o → (∀ x y r, o = x :: y :: r → x < 2 → y < 40) →
  zlen o ≤ objidlength < 2 ^ 32 → (length o ≤ length objid)%nat →
  0 ≤ dl < 2 ^ 32 → (data + Z.to_nat dl ≤ length buf)%nat →
  inverse_at (λ b d l, asn_build_objid b d l tag (o ++ rest) (zlen o))
    (λ b d l, asn_parse_objid b d l objid objidlength) tag
    (o ++ drop (length o) objid, zlen o) (zlen (ber_oid tag o)) buf data dl.
Proof.
  intros Ho H40 Hcap Hobj Hd Hb. apply encode_decode;
    [by apply asn_build_objid_encodes|by apply asn_parse_objid_decodes|done|done].
Qed.

Lemma asn_objid_roundtrip_witness :
  inverse_at (λ b d l, asn_build_objid b d l ASN_OBJECT_ID [1; 3; 6; 0xFFFFFFFF] 4)
    (λ b d l, asn_parse_objid b d l (replicate 5 9) 5) ASN_OBJECT_ID
    ([1; 3; 6; 0xFFFFFFFF; 9], 4) (zlen (ber_oid ASN_OBJECT_ID [1; 3; 6; 0xFFFFFFFF]))
    (replicate 12 7) 1 10.
Proof.
  apply (asn_objid_roundtrip ASN_OBJECT_ID [1; 3; 6; 0xFFFFFFFF] [] (replicate 5 9) 5).
  - repeat split; try done; repeat constructor; unfold is_u32; lia.
  - intros x y r [= <- <- _]. lia.
  - split; done.
  - simpl. lia.
  - lia.
  - simpl. lia.
Defined.

(** asn_build_objid lets the second arc be 40 under the first arc 0, and
    writes for it the octets of 1.0 under the same tail. *)
Theorem asn_build_objid_40_collides tag rest buf data dl :
  Forall is_u32 rest → zlen rest + 2 ≤ MAX_OID_LEN →
  0 ≤ dl < 2 ^ 32 → (data + Z.to_nat dl ≤ length buf)%nat →
  asn_build_objid buf data dl tag (0 :: 40 :: rest) (zlen (0 :: 40 :: rest))
  = asn_build_objid buf data dl tag (1 :: 0 :: rest) (zlen (1 :: 0 :: rest)).
Proof.
  intros Hr Hl Hd Hb.
  assert (∀ x y, (x = 0 ∧ y = 40) ∨ (x = 1 ∧ y = 0) → oid_encodable (x :: y :: rest)) as Ho.
  { intros x y Hxy. unfold oid_encodable. rewrite !zlen_cons. split_and!; try done; lia. }
  pose proof (asn_build_objid_encodes tag (0 :: 40 :: rest) [] (Ho 0 40 ltac:(auto))) as H0.
  pose proof (asn_build_objid_encodes tag (1 :: 0 :: rest) [] (Ho 1 0 ltac:(auto))) as H1.
  rewrite app_nil_r in H0, H1. by rewrite H0, H1.
Qed.

Lemma asn_build_objid_40_collides_witness :
  asn_build_objid (replicate 6 0) 0 6 ASN_OBJECT_ID [0; 40; 5] 3
  = asn_build_objid (replicate 6 0) 0 6 ASN_OBJECT_ID [1; 0; 5] 3.
Proof.
  apply (asn_build_objid_40_collides ASN_OBJECT_ID [5]); [|done|lia|simpl; lia].
  repeat constructor; unfold is_u32; lia.
Defined.

(** ** 64-bit integers *)

(** Every unsigned 64-bit value survives asn_build_unsigned_int64 and
    asn_parse_unsigned_int64, as a plain Counter64 or in the Opaque wrapping
    of the special types. *)
Theorem asn_unsigned_int64_roundtrip type c buf data dl :
  is_c64 c → type ≠ ASN_OPAQUE →
  0 ≤ dl < 2 ^ 32 → (data + Z.to_nat dl ≤ length buf)%nat →
  inverse_at (λ b d l, asn_build_unsigned_int64 b d l type c SIZEOF_COUNTER64)
    (λ b d l, asn_parse_unsigned_int64 b d l SIZEOF_COUNTER64) type c
    (zlen (ber_c64 type (c64_u c))) buf data dl.
Proof.
  intros Hc Ht Hd Hb.
  assert (0 ≤ c64_u c < 2 ^ 64) as Hu by (unfold is_c64, c64_u in *; lia).
  assert (c = c64_of (c64_u c)) as Hc' by (apply c64_of_eq; [done|by rewrite Z.mod_small]).
  pose proof (encode_decode _ _ type _ (c64_of (c64_u c)) buf data dl
    (asn_build_unsigned_int64_encodes type _ Hu)
    (asn_parse_unsigned_int64_decodes type _ Hu Ht) Hd Hb) as Hi.
  by rewrite <- Hc' in Hi.
Qed.

Lemma asn_unsigned_int64_roundtrip_witness :
  inverse_at (λ b d l, asn_build_unsigned_int64 b d l ASN_OPAQUE_COUNTER64
      (Counter64 0xFFFFFFFF 0x80000001) SIZEOF_COUNTER64)
    (λ b d l, asn_parse_unsigned_int64 b d l SIZEOF_COUNTER64) ASN_OPAQUE_COUNTER64
    (Counter64 0xFFFFFFFF 0x80000001)
    (zlen (ber_c64 ASN_OPAQUE_COUNTER64 (c64_u (Counter64 0xFFFFFFFF 0x80000001))))
    (replicate 20 7) 2 18.
Proof.
  apply asn_unsigned_int64_roundtrip; [split; cbn; lia|done|lia|simpl; lia].
Defined.

(** A signed 64-bit value survives asn_build_signed_int64 and
    asn_parse_signed_int64 when it is not negative or is below -2^31. *)
Theorem asn_signed_int64_roundtrip type z buf data dl :
  0 ≤ z < 2 ^ 63 ∨ - 2 ^ 63 ≤ z < - 2 ^ 31 →
  0 ≤ dl < 2 ^ 32 → (data + Z.to_nat dl ≤ length buf)%nat →
  inverse_at (λ b d l, asn_build_signed_int64 b d l type (c64_of z) SIZEOF_COUNTER64)
    (λ b d l, asn_parse_signed_int64 b d l SIZEOF_COUNTER64) ASN_OPAQUE_I64 (c64_of z)
    (zlen (ber_opaque ASN_OPAQUE_I64 (int_contents z))) buf data dl.
Proof.
  intros Hz Hd Hb.
  pose proof (encode_decode _ _ ASN_OPAQUE_I64 _ (c64_decoded z) buf data dl
    (asn_build_signed_int64_encodes type z ltac:(lia))
    (asn_parse_signed_int64_decodes z ltac:(lia)) Hd Hb) as Hi.
  by rewrite c64_decoded_ok in Hi by lia.
Qed.

Lemma asn_signed_int64_roundtrip_witness :
  inverse_at (λ b d l, asn_build_signed_int64 b d l ASN_OPAQUE_I64 (c64_of (- 2 ^ 40))
      SIZEOF_COUNTER64)
    (λ b d l, asn_parse_signed_int64 b d l SIZEOF_COUNTER64) ASN_OPAQUE_I64 (c64_of (- 2 ^ 40))
    (zlen (ber_opaque ASN_OPAQUE_I64 (int_contents (- 2 ^ 40)))) (replicate 20 7) 2 18.
Proof. apply asn_signed_int64_roundtrip; [lia|lia|simpl; lia]. Defined.

(** No value from -2^31 to -1 survives: the decoder's sign fill leaves a
    zero octet between the halves, so the counter it returns is another. *)
Theorem asn_signed_int64_small_negative_lost type z buf data dl :
  - 2 ^ 31 ≤ z < 0 → 0 ≤ dl < 2 ^ 32 → (data + Z.to_nat dl ≤ length buf)%nat →
  zlen (ber_opaque ASN_OPAQUE_I64 (int_contents z)) ≤ dl →
  ∃ buf' p c, asn_build_signed_int64 buf data dl type (c64_of z) SIZEOF_COUNTER64
    = Ok (buf', p, dl - zlen (ber_opaque ASN_OPAQUE_I64 (int_contents z))) ∧
    asn_parse_signed_int64 buf' data dl SIZEOF_COUNTER64
    = Ok (p, dl - zlen (ber_opaque ASN_OPAQUE_I64 (int_contents z)), ASN_OPAQUE_I64, c) ∧
    c ≠ c64_of z.
Proof.
  intros Hz Hd Hb Hl.
  pose proof (encode_decode _ _ ASN_OPAQUE_I64 _ (c64_decoded z) buf data dl
    (asn_build_signed_int64_encodes type z ltac:(lia))
    (asn_parse_signed_int64_decodes z ltac:(lia)) Hd Hb) as Hi.
  unfold inverse_at in Hi. rewrite decide_True in Hi by done.
  destruct Hi as (buf' & p & Hf & Hg & _). exists buf', p, (c64_decoded z).
  split_and!; [done|done|]. apply c64_decoded_wrong. lia.
Qed.

Lemma asn_signed_int64_small_negative_lost_witness :
  ∃ buf' p c, asn_build_signed_int64 (replicate 8 0) 0 8 ASN_OPAQUE_I64 (c64_of (-1))
      SIZEOF_COUNTER64
    = Ok (buf', p, 8 - zlen (ber_opaque ASN_OPAQUE_I64 (int_contents (-1)))) ∧
    asn_parse_signed_int64 buf' 0 8 SIZEOF_COUNTER64
    = Ok (p, 8 - zlen (ber_opaque ASN_OPAQUE_I64 (int_contents (-1))), ASN_OPAQUE_I64, c) ∧
    c ≠ c64_of (-1).
Proof. apply asn_signed_int64_small_negative_lost; [lia|lia|simpl; lia|done]. Defined.

(** ** Floating point *)

(** Asn_parse_float and asn_parse_double recover the bit pattern that
    asn_build_float and asn_build_double wrote, with [*datalength] reduced by the
    size of the object; the pointer they return is that of the value's octets,
    not the one after them. *)
Theorem asn_float_double_roundtrip type f d buf data dl :
  0 ≤ f < 2 ^ 32 → 0 ≤ d < 2 ^ 64 →
  14 ≤ dl < 2 ^ 32 → (data + Z.to_nat dl ≤ length buf)%nat →
  (∃ buf', asn_build_float buf data dl type f SIZEOF_FLOAT
     = Ok (buf', (data + 9)%nat, dl - 9) ∧
     asn_parse_float buf' data dl SIZEOF_FLOAT
     = Ok ((data + 9 - 4)%nat, dl - 9, ASN_OPAQUE_FLOAT, f)) ∧
  (∃ buf', asn_build_double buf data dl type d SIZEOF_DOUBLE
     = Ok (buf', (data + 13)%nat, dl - 13) ∧
     asn_parse_double buf' data dl SIZEOF_DOUBLE
     = Ok ((data + 13 - 8)%nat, dl - 13, ASN_OPAQUE_DOUBLE, d)).
Proof.
  intros Hf Hd Hdl Hb. assert (length (take data buf) = data) as Ht by (rewrite length_take; lia).
  assert (zlen (ber_opaque ASN_OPAQUE_FLOAT (be_bytes 4 f)) = 9) as Hzf by done.
  assert (zlen (ber_opaque ASN_OPAQUE_DOUBLE (be_bytes 8 d)) = 13) as Hzd by done.
  split.
  - rewrite (asn_build_float_encodes type f) by lia.
    destruct (put_ok (ber_opaque ASN_OPAQUE_FLOAT (be_bytes 4 f)) buf data dl)
      as (buf' & -> & Hw & _); [lia|done|].
    exists buf'. split; [done|].
    rewrite wr_list_eq in Hw by (unfold zlen in Hzf; lia). injection Hw as <-.
    pose proof (asn_parse_float_spec f (take data buf)
      (drop (data + length (ber_opaque ASN_OPAQUE_FLOAT (be_bytes 4 f))) buf) dl
      ltac:(lia) ltac:(lia)) as Hp.
    by rewrite Ht, Hzf in Hp.
  - rewrite (asn_build_double_encodes type d) by lia.
    destruct (put_ok (ber_opaque ASN_OPAQUE_DOUBLE (be_bytes 8 d)) buf data dl)
      as (buf' & -> & Hw & _); [lia|done|].
    exists buf'. split; [done|].
    rewrite wr_list_eq in Hw by (unfold zlen in Hzd; lia). injection Hw as <-.
    pose proof (asn_parse_double_spec d (take data buf)
      (drop (data + length (ber_opaque ASN_OPAQUE_DOUBLE (be_bytes 8 d))) buf) dl
      ltac:(lia) ltac:(lia)) as Hp.
    by rewrite Ht, Hzd in Hp.
Qed.

Lemma asn_float_double_roundtrip_witness :
  (∃ buf', asn_build_float (replicate 16 0) 1 15 ASN_OPAQUE_FLOAT 0x40490FDB SIZEOF_FLOAT
     = Ok (buf', (1 + 9)%nat, 15 - 9) ∧
     asn_parse_float buf' 1 15 SIZEOF_FLOAT
     = Ok ((1 + 9 - 4)%nat, 15 - 9, ASN_OPAQUE_FLOAT, 0x40490FDB)) ∧
  (∃ buf', asn_build_double (replicate 16 0) 1 15 ASN_OPAQUE_FLOAT 0x400921FB54442D18
       SIZEOF_DOUBLE
     = Ok (buf', (1 + 13)%nat, 15 - 13) ∧
     asn_parse_double buf' 1 15 SIZEOF_DOUBLE
     = Ok ((1 + 13 - 8)%nat, 15 - 13, ASN_OPAQUE_DOUBLE, 0x400921FB54442D18)).
Proof. apply asn_float_double_roundtrip; [lia|lia|lia|simpl; lia]. Defined.

(** ** Framing on a stream *)

(** asn_check_packet tells a stream transport the full size of a message as soon as
    the identifier and length octets are there, and 0 (wait) when fewer than two octets
    or not all length octets have arrived; what follows them does not matter. *)
Lemma asn_check_packet_head n tail len :
  let t := Z.lor ASN_SEQUENCE ASN_CONSTRUCTOR in
  0 ≤ n → 1 + zlen (ber_length n) + n < 2 ^ 31 → 0 ≤ len < 2 ^ 31 →
  asn_check_packet (t :: ber_length n ++ tail) len
  = Ok (if decide (1 + zlen (ber_length n) ≤ len) then 1 + zlen (ber_length n) + n else 0).
Proof.
  intros t Hn Hz Hlen. pose proof (zlen_ber_length n) as Hbl. unfold asn_check_packet. fold t.
  assert (1 ≤ zlen (ber_length n)) as Hge by (rewrite Hbl; destruct (_ <? _); lia).
  destruct (Z.ltb_spec len 2).
  { by rewrite decide_False by lia. }
  change (rd (t :: ?l) 0) with (Ok t). m_step. rewrite Z.eqb_refl. m_step.
  pose proof (asn_parse_length_ber n [t] tail ltac:(lia)) as Hp.
  change ([t] ++ ?l) with (t :: l) in Hp. change (length [t]) with 1%nat in Hp.
  revert Hz Hbl Hp. unfold ber_length. destruct (Z.ltb_spec n 128); intros Hz Hbl Hp.
  - change (rd (t :: [n] ++ ?l) 1) with (Ok n). m_step.
    rewrite land_128 by (unfold is_byte; lia). rewrite decide_True by lia. m_step.
    rewrite decide_True by lia. f_equal. lia.
  - destruct (length_size_spec n) as [_ Hk]; [lia|]. set (k := length_size n) in *.
    change (rd (t :: (?x :: ?y) ++ ?l) 1) with (Ok x). m_step.
    rewrite land_128 by (unfold is_byte; lia). rewrite decide_False by lia. m_step.
    assert (Z.land (128 + Z.of_nat k) (Z.lnot 0x80) = Z.of_nat k) as ->.
    { rewrite land_lnot_128 by (unfold is_byte; lia). Z.div_mod_to_equations; lia. }
    rewrite s32_id by lia. destruct (Z.ltb_spec len (Z.of_nat k + 2)).
    + by rewrite decide_False by lia.
    + rewrite Hp. m_step. rewrite decide_True by lia. rewrite s32_id by lia. f_equal. lia.
Qed.
