(* ===== verification/Int64.v ===== *)
(** * 64-bit counters: snmplib/int64.c

    The build has no 64-bit integer type: a [U64] is a [struct counter64] of
    two 32-bit words, and int64.c does its arithmetic sixteen bits at a time.
    Every addition, multiplication and shift of an [unsigned long] is reduced
    modulo 2^32 where it is written. *)

From S2P Require Import Prelude Ber Asn1 Asn1Int Asn1Int64.
From stdpp Require Import prelude numbers list.
From Stdlib Require Import ZArith Lia.
Open Scope Z_scope.

Definition I64CHARSZ : nat := 21.

(** ** Arithmetic *)

(** [( *pu64Q, *puR)] *)
Definition divBy10 (u64 : counter64) : counter64 * Z :=
  let ulT := Z.land (Z.shiftr (c_high u64) 16) 0x0ffff in
  let ulQ := ulT / 10 in
  let ulR := ulT mod 10 in
  let high := u32 (Z.shiftl ulQ 16) in
  let ulT := Z.land (c_high u64) 0x0ffff in
  let ulT := u32 (ulT + u32 (Z.shiftl ulR 16)) in
  let ulQ := ulT / 10 in
  let ulR := ulT mod 10 in
  let high := Z.lor high ulQ in
  let ulT := u32 (Z.land (Z.shiftr (c_low u64) 16) 0x0ffff + u32 (Z.shiftl ulR 16)) in
  let ulQ := ulT / 10 in
  let ulR := ulT mod 10 in
  let low := u32 (Z.shiftl ulQ 16) in
  let ulT := Z.land (c_low u64) 0x0ffff in
  let ulT := u32 (ulT + u32 (Z.shiftl ulR 16)) in
  let ulQ := ulT / 10 in
  let ulR := ulT mod 10 in
  let low := Z.lor low ulQ in
  (Counter64 high low, ulR).

Definition multBy10 (u64 : counter64) : counter64 :=
  let ulT := Z.land (c_low u64) 0x0ffff in
  let ulP := u32 (ulT * 10) in
  let ulK := Z.shiftr ulP 16 in
  let low := Z.land ulP 0x0ffff in
  let ulT := Z.land (Z.shiftr (c_low u64) 16) 0x0ffff in
  let ulP := u32 (u32 (ulT * 10) + ulK) in
  let ulK := Z.shiftr ulP 16 in
  let low := Z.lor (u32 (Z.shiftl (Z.land ulP 0x0ffff) 16)) low in
  let ulT := Z.land (c_high u64) 0x0ffff in
  let ulP := u32 (u32 (ulT * 10) + ulK) in
  let ulK := Z.shiftr ulP 16 in
  let high := Z.land ulP 0x0ffff in
  let ulT := Z.land (Z.shiftr (c_high u64) 16) 0x0ffff in
  let ulP := u32 (u32 (ulT * 10) + ulK) in
  let high := Z.lor (u32 (Z.shiftl (Z.land ulP 0x0ffff) 16)) high in
  Counter64 high low.

Definition incrByU16 (pu64 : counter64) (u16 : Z) : counter64 :=
  let ulT1 := c_low pu64 in
  let ulT2 := Z.land ulT1 0x0ffff in
  let ulR := u32 (ulT2 + u16) in
  let ulK := Z.shiftr ulR 16 in
  if ulK =? 0 then Counter64 (c_high pu64) (u32 (ulT1 + u16))
  else
    let ulT2 := Z.land (Z.shiftr ulT1 16) 0x0ffff in
    let ulR := u32 (ulT2 + 1) in
    let ulK := Z.shiftr ulR 16 in
    if ulK =? 0 then Counter64 (c_high pu64) (u32 (ulT1 + u16))
    else Counter64 (u32 (c_high pu64 + 1)) (Z.land (u32 (ulT1 + u16)) 0x0FFFFFFFF).

(** The parameter is called [u32] in the source. *)
Definition incrByU32 (pu64 : counter64) (n : Z) : counter64 :=
  let tmp := c_low pu64 in
  let low := u32 (c_low pu64 + n) in
  if low <? tmp then Counter64 (u32 (c_high pu64 + 1)) low
  else Counter64 (c_high pu64) low.

Definition u64Subtract (pu64one pu64two : counter64) : counter64 :=
  if c_low pu64one <? c_low pu64two then
    Counter64 (u32 (u32 (c_high pu64one - c_high pu64two) - 1))
      (u32 (u32 (u32 (0xffffffff - c_low pu64two) + c_low pu64one) + 1))
  else
    Counter64 (u32 (c_high pu64one - c_high pu64two))
      (u32 (c_low pu64one - c_low pu64two)).

Definition u64Incr (pu64out pu64one : counter64) : counter64 :=
  incrByU32 (Counter64 (u32 (c_high pu64out + c_high pu64one)) (c_low pu64out))
    (c_low pu64one).

Definition u64UpdateCounter (pu64out pu64one pu64two : counter64) : counter64 :=
  let tmp := u64Subtract pu64one pu64two in
  u64Incr pu64out tmp.

Definition u64Copy (pu64one pu64two : counter64) : counter64 :=
  Counter64 (c_high pu64two) (c_low pu64two).

Definition zeroU64 : counter64 := Counter64 0 0.

Definition isZeroU64 (pu64 : counter64) : bool :=
  (c_low pu64 =? 0) && (c_high pu64 =? 0).

(** ** Counters that may wrap at 32 bits *)

(** A [NULL] argument is [None].  Results: the return value and [*new_val]. *)
Definition netsnmp_c64_check_for_32bit_wrap (old_val new_val : option counter64)
    (adjust : bool) : Z * option counter64 :=
  match old_val, new_val with
  | Some old_val, Some new_val =>
      if (c_low old_val <=? c_low new_val) && (c_high new_val =? c_high old_val)
      then (0, Some new_val)
      else if c_high new_val =? c_high old_val then
        (32, Some (if adjust then Counter64 (u32 (c_high new_val + 1)) (c_low new_val)
                   else new_val))
      else if (c_high new_val =? u32 (c_high old_val + 1))
              || ((0 =? c_high new_val) && (0xffffffff =? c_high old_val))
      then (64, Some new_val)
      else (-2, Some new_val)
  | _, _ => (-1, new_val)
  end.

(** The objects behind the pointers, which are distinct, after the call. *)
Record c64_update := C64Update {
  cu_rc : Z;
  cu_prev : counter64;
  cu_new : counter64;
  cu_need : option Z;
}.

(** [need_wrap_check] is [None] for [NULL]. *)
Definition netsnmp_c64_check32_and_update (prev_val new_val old_prev_val : counter64)
    (need_wrap_check : option Z) : c64_update :=
  let '(rc, new_val) :=
    if match need_wrap_check with None => true | Some n => negb (0 =? n) end then
      let '(rc, new) := netsnmp_c64_check_for_32bit_wrap (Some old_prev_val) (Some new_val) true in
      (rc, default new_val new)
    else (0, new_val) in
  if rc <? 0 then C64Update (-1) prev_val new_val need_wrap_check
  else
    let prev_val := u64UpdateCounter prev_val new_val old_prev_val in
    if rc =? 32 then
      C64Update 0 prev_val (Counter64 0 (c_low new_val)) need_wrap_check
    else if rc =? 64 then
      if negb (c_low prev_val =? c_low new_val) || negb (c_high prev_val =? c_high new_val)
      then C64Update (-2) prev_val new_val need_wrap_check
      else C64Update 0 prev_val new_val (option_map (λ _, 0) need_wrap_check)
    else C64Update 0 prev_val new_val need_wrap_check.

(** ** Decimal text

    A [char] array is the list of its bytes. *)

(** The bytes in front of the first NUL, as [strcpy] and [read64] see a string;
    [None] when the object has no NUL. *)
Fixpoint c_string (l : list Z) : option (list Z) :=
  match l with
  | [] => None
  | b :: l => if b =? 0 then Some [] else cons b <$> c_string l
  end.

Definition strcpy (dst : list Z) (src : list Z) (p : nat) : M (list Z) :=
  match c_string (drop p src) with
  | Some s => wr_list dst 0 (s ++ [0])
  | None => UB
  end.

(** [for (j = 0; j < I64CHARSZ; j++) { divBy10(u64a, &u64b, &u);
    aRes[(I64CHARSZ - 1) - j] = (char) ('0' + u); u64a = u64b;
    if (isZeroU64(&u64a)) break; }] with [n] iterations left; returns [aRes] and
    [j]. *)
Fixpoint digits_loop (n : nat) (aRes : list Z) (u64a : counter64) (j : nat)
    : M (list Z * nat) :=
  match n with
  | O => Ok (aRes, j)
  | S n =>
      let '(u64b, u) := divBy10 u64a in
      aRes ← wr aRes (I64CHARSZ - 1 - j) (48 + u);
      let u64a := u64b in
      if isZeroU64 u64a then Ok (aRes, j) else digits_loop n aRes u64a (S j)
  end.

Section Print.
(** The local array, [I64CHARSZ + 1] bytes of unknown value. *)
Variable uninit : list Z.

(** [&aRes[(I64CHARSZ - 1) - j]] is outside the array when [j] is [I64CHARSZ]. *)
Definition printU64 (buf : list Z) (pu64 : counter64) : M (list Z) :=
  aRes ← wr uninit I64CHARSZ 0;
  '(aRes, j) ← digits_loop I64CHARSZ aRes pu64 0;
  if (I64CHARSZ - 1 <? j)%nat then UB else strcpy buf aRes (I64CHARSZ - 1 - j).

Definition printI64 (buf : list Z) (pu64 : counter64) : M (list Z) :=
  let sign := negb (Z.land (c_high pu64) 0x80000000 =? 0) in
  let u64a :=
    if sign
    then incrByU32 (Counter64 (u32 (Z.lnot (c_high pu64))) (u32 (Z.lnot (c_low pu64)))) 1
    else pu64 in
  aRes ← wr uninit I64CHARSZ 0;
  '(aRes, j) ← digits_loop I64CHARSZ aRes u64a 0;
  if sign then
    if (I64CHARSZ - 1 <? j + 1)%nat then UB
    else
      aRes ← wr aRes (I64CHARSZ - 1 - j - 1) 45;
      strcpy buf aRes (I64CHARSZ - 1 - j - 1)
  else
    if (I64CHARSZ - 1 <? j)%nat then UB else strcpy buf aRes (I64CHARSZ - 1 - j).
End Print.

Definition isdigit (c : Z) : bool := (48 <=? c) && (c <=? 57).

(** [while ( *str && isdigit( *str)) { ... }] *)
Fixpoint read_digits (str : list Z) (i64 : counter64) (ok : bool) : M (counter64 * bool) :=
  match str with
  | [] => UB
  | c :: str =>
      if negb (c =? 0) && isdigit c
      then read_digits str (incrByU16 (multBy10 i64) (c - 48)) true
      else Ok (i64, ok)
  end.

(** Results: the number and the return value. *)
Definition read64 (str : list Z) : M (counter64 * bool) :=
  c ← rd str 0;
  let sign := c =? 45 in
  let str := if sign then drop 1 str else str in
  '(i64, ok) ← read_digits str zeroU64 false;
  if sign
  then Ok (incrByU16 (Counter64 (u32 (Z.lnot (c_high i64))) (u32 (Z.lnot (c_low i64)))) 1, ok)
  else Ok (i64, ok).

(** ** Correctness of the arithmetic *)

Lemma low16 x : Z.land x 0x0ffff = x mod 2 ^ 16.
Proof. apply (land_ones_mod x 16). lia. Qed.

Lemma high16 x : 0 ≤ x < 2 ^ 32 → Z.land (Z.shiftr x 16) 0x0ffff = x / 2 ^ 16.
Proof.
  intros. rewrite low16, shiftr_div by lia. apply Z.mod_small.
  Z.div_mod_to_equations. lia.
Qed.

Lemma shl16 x : 0 ≤ x < 2 ^ 16 → u32 (Z.shiftl x 16) = x * 2 ^ 16.
Proof. intros. rewrite shiftl_mul by lia. apply u32_id. lia. Qed.

Lemma join16 x y :
  0 ≤ x < 2 ^ 16 → 0 ≤ y < 2 ^ 16 → Z.lor (x * 2 ^ 16) y = x * 2 ^ 16 + y.
Proof. intros. rewrite <- (shiftl_mul x 16) at 1 by lia. apply lor_shift_low; lia. Qed.

(** One digit of a long division in base 2^16. *)
Lemma div_digit x y :
  (x * 2 ^ 16 + y) / 10 = x / 10 * 2 ^ 16 + (y + x mod 10 * 2 ^ 16) / 10 ∧
  (x * 2 ^ 16 + y) mod 10 = (y + x mod 10 * 2 ^ 16) mod 10.
Proof. Z.div_mod_to_equations. lia. Qed.

Lemma c64_digits c :
  is_c64 c →
  c64_u c = ((c_high c / 2 ^ 16 * 2 ^ 16 + c_high c mod 2 ^ 16) * 2 ^ 16
             + c_low c / 2 ^ 16) * 2 ^ 16 + c_low c mod 2 ^ 16.
Proof.
  unfold c64_u. intros _. pose proof (Z.div_mod (c_high c) (2 ^ 16) ltac:(lia)).
  pose proof (Z.div_mod (c_low c) (2 ^ 16) ltac:(lia)). lia.
Qed.

Lemma half_digits x :
  0 ≤ x < 2 ^ 32 → 0 ≤ x / 2 ^ 16 < 2 ^ 16 ∧ 0 ≤ x mod 2 ^ 16 < 2 ^ 16.
Proof. intros. Z.div_mod_to_equations. lia. Qed.

Lemma divBy10_spec c :
  is_c64 c →
  is_c64 (divBy10 c).1 ∧ c64_u (divBy10 c).1 = c64_u c / 10 ∧
  (divBy10 c).2 = c64_u c mod 10.
Proof.
  intros Hc. rewrite (c64_digits c) by done. destruct Hc as [Hh Hl]. unfold divBy10.
  rewrite !high16, !low16 by done. cbn [fst snd].
  destruct (half_digits _ Hh) as [Ha Hb], (half_digits _ Hl) as [Hx Hy].
  revert Ha Hb Hx Hy.
  generalize (c_high c / 2 ^ 16) (c_high c mod 2 ^ 16) (c_low c / 2 ^ 16) (c_low c mod 2 ^ 16).
  clear. intros a b x y Ha Hb Hx Hy.
  assert (∀ v w, 0 ≤ v < 2 ^ 16 → u32 (v + u32 (Z.shiftl (w mod 10) 16)) = v + w mod 10 * 2 ^ 16)
    as Hu.
  { intros v w Hv. pose proof (Z.mod_pos_bound w 10 ltac:(lia)).
    rewrite shl16 by lia. apply u32_id. lia. }
  assert (∀ v w, 0 ≤ v < 2 ^ 16 → 0 ≤ (v + w mod 10 * 2 ^ 16) / 10 < 2 ^ 16) as Hq.
  { intros v w Hv. pose proof (Z.mod_pos_bound w 10 ltac:(lia)). Z.div_mod_to_equations. lia. }
  rewrite !Hu by done.
  destruct (div_digit a b) as [E1 R1].
  destruct (div_digit (a * 2 ^ 16 + b) x) as [E2 R2].
  destruct (div_digit ((a * 2 ^ 16 + b) * 2 ^ 16 + x) y) as [E3 R3].
  assert (0 ≤ a / 10 < 2 ^ 16) as Hqa by (Z.div_mod_to_equations; lia).
  rewrite !shl16 by auto. rewrite !join16 by auto.
  rewrite E3, R3, E2, R2, E1, R1.
  pose proof (Hq b a Hb) as Hq1. pose proof (Hq x (b + a mod 10 * 2 ^ 16) Hx) as Hq2.
  pose proof (Hq y (x + (b + a mod 10 * 2 ^ 16) mod 10 * 2 ^ 16) Hy) as Hq3.
  unfold is_c64, c64_u. cbn [c_high c_low]. split_and!; try lia.
Qed.

(** One digit of a multiplication in base 2^16, [k] carried in. *)
Lemma mult_digit t k :
  0 ≤ t < 2 ^ 16 → 0 ≤ k < 10 →
  u32 (u32 (t * 10) + k) = t * 10 + k ∧ 0 ≤ Z.shiftr (t * 10 + k) 16 < 10 ∧
  t * 10 + k = Z.shiftr (t * 10 + k) 16 * 2 ^ 16 + Z.land (t * 10 + k) 0x0ffff ∧
  0 ≤ Z.land (t * 10 + k) 0x0ffff < 2 ^ 16.
Proof.
  intros Ht Hk. rewrite (u32_id (t * 10)) by lia. rewrite u32_id by lia.
  rewrite low16, shiftr_div by lia. split; [done|]. Z.div_mod_to_equations. lia.
Qed.

Lemma multBy10_spec c :
  is_c64 c → is_c64 (multBy10 c) ∧ c64_u (multBy10 c) = (c64_u c * 10) mod 2 ^ 64.
Proof.
  intros Hc. rewrite (c64_digits c) by done. destruct Hc as [Hh Hl]. unfold multBy10.
  rewrite !high16, !(low16 (c_high c)), !(low16 (c_low c)) by done.
  destruct (half_digits _ Hh) as [Ha Hb], (half_digits _ Hl) as [Hx Hy].
  revert Ha Hb Hx Hy.
  generalize (c_high c / 2 ^ 16) (c_high c mod 2 ^ 16) (c_low c / 2 ^ 16) (c_low c mod 2 ^ 16).
  clear. intros a b x y Ha Hb Hx Hy.
  rewrite (u32_id (y * 10)) by lia.
  destruct (mult_digit y 0) as (_ & K0 & D0 & L0); [done|lia|]. rewrite Z.add_0_r in K0, D0, L0.
  set (k0 := Z.shiftr (y * 10) 16) in *. set (l0 := Z.land (y * 10) 65535) in *.
  destruct (mult_digit x k0) as (E1 & K1 & D1 & L1); [done|lia|]. rewrite !E1.
  set (k1 := Z.shiftr (x * 10 + k0) 16) in *. set (l1 := Z.land (x * 10 + k0) 65535) in *.
  destruct (mult_digit b k1) as (E2 & K2 & D2 & L2); [done|lia|]. rewrite !E2.
  set (k2 := Z.shiftr (b * 10 + k1) 16) in *. set (l2 := Z.land (b * 10 + k1) 65535) in *.
  destruct (mult_digit a k2) as (E3 & K3 & D3 & L3); [done|lia|]. rewrite !E3.
  set (k3 := Z.shiftr (a * 10 + k2) 16) in *. set (l3 := Z.land (a * 10 + k2) 65535) in *.
  rewrite !shl16, !join16 by done. unfold is_c64, c64_u. cbn [c_high c_low].
  split; [lia|]. apply (Z.mod_unique _ _ k3); lia.
Qed.

(** A pair of words with the right sum is the number modulo 2^64: [k] counts the
    carries (or borrows) out of the high word. *)
Lemma c64_carry h l z k :
  0 ≤ h < 2 ^ 32 → 0 ≤ l < 2 ^ 32 → h * 2 ^ 32 + l + k * 2 ^ 64 = z →
  Counter64 h l = c64_of z.
Proof.
  intros Hh Hl E. apply c64_of_eq; [done|]. unfold c64_u. cbn [c_high c_low].
  apply (Z.mod_unique _ _ k); lia.
Qed.

(** [u32] of a sum or difference of two words. *)
Lemma u32_sum x : 0 ≤ x < 2 ^ 33 → u32 x = if decide (x < 2 ^ 32) then x else x - 2 ^ 32.
Proof.
  intros. case_decide; [apply u32_id; lia|]. unfold u32.
  symmetry. apply (Z.mod_unique _ _ 1); lia.
Qed.

Lemma u32_diff x : - 2 ^ 32 ≤ x < 2 ^ 32 → u32 x = if decide (x < 0) then x + 2 ^ 32 else x.
Proof.
  intros. case_decide; [|apply u32_id; lia]. unfold u32.
  symmetry. apply (Z.mod_unique _ _ (-1)); lia.
Qed.

Lemma incrByU16_of c n :
  is_c64 c → 0 ≤ n < 2 ^ 16 → incrByU16 c n = c64_of (c64_u c + n).
Proof.
  destruct c as [h l]. unfold is_c64, incrByU16, c64_u. cbn [c_high c_low]. intros [Hh Hl] Hn.
  rewrite low16, high16 by done. destruct (half_digits l Hl) as [Hx Hy].
  rewrite (u32_id (l mod 2 ^ 16 + n)), (u32_id (l / 2 ^ 16 + 1)) by lia.
  rewrite !shiftr_div by lia. change 0x0FFFFFFFF with (2 ^ 32 - 1).
  rewrite land_ones_mod by lia. pose proof (Z.div_mod l (2 ^ 16) ltac:(lia)) as El.
  destruct (Z.eqb_spec ((l mod 2 ^ 16 + n) / 2 ^ 16) 0) as [E|E].
  { assert (l mod 2 ^ 16 + n < 2 ^ 16) by (Z.div_mod_to_equations; lia).
    rewrite u32_id by lia. apply (c64_carry _ _ _ 0); lia. }
  assert (2 ^ 16 ≤ l mod 2 ^ 16 + n) by (Z.div_mod_to_equations; lia).
  destruct (Z.eqb_spec ((l / 2 ^ 16 + 1) / 2 ^ 16) 0) as [E'|E'].
  { assert (l / 2 ^ 16 + 1 < 2 ^ 16) by (Z.div_mod_to_equations; lia).
    rewrite u32_id by lia. apply (c64_carry _ _ _ 0); lia. }
  assert (2 ^ 16 ≤ l / 2 ^ 16 + 1) by (Z.div_mod_to_equations; lia).
  rewrite (u32_sum (l + n)), decide_False by lia. rewrite Z.mod_small by lia.
  rewrite u32_sum by lia. case_decide.
  - apply (c64_carry _ _ _ 0); lia.
  - apply (c64_carry _ _ _ 1); lia.
Qed.

Lemma incrByU32_of c n :
  is_c64 c → 0 ≤ n < 2 ^ 32 → incrByU32 c n = c64_of (c64_u c + n).
Proof.
  destruct c as [h l]. unfold is_c64, incrByU32, c64_u. cbn [c_high c_low]. intros [Hh Hl] Hn.
  rewrite (u32_sum (l + n)) by lia. case_decide.
  - destruct (Z.ltb_spec (l + n) l); [lia|]. apply (c64_carry _ _ _ 0); lia.
  - destruct (Z.ltb_spec (l + n - 2 ^ 32) l); [|lia]. rewrite u32_sum by lia. case_decide.
    + apply (c64_carry _ _ _ 0); lia.
    + apply (c64_carry _ _ _ 1); lia.
Qed.

Lemma u64Subtract_of a b :
  is_c64 a → is_c64 b → u64Subtract a b = c64_of (c64_u a - c64_u b).
Proof.
  destruct a as [h l], b as [h' l']. unfold is_c64, u64Subtract, c64_u. cbn [c_high c_low].
  intros [Hh Hl] [Hh' Hl']. destruct (Z.ltb_spec l l').
  - rewrite (u32_id (0xffffffff - l')), (u32_id (0xffffffff - l' + l)) by lia.
    rewrite (u32_id (0xffffffff - l' + l + 1)) by lia.
    rewrite (u32_diff (h - h')) by lia. case_decide.
    + rewrite u32_id by lia. apply (c64_carry _ _ _ (-1)); lia.
    + rewrite u32_diff by lia. case_decide.
      * apply (c64_carry _ _ _ (-1)); lia.
      * apply (c64_carry _ _ _ 0); lia.
  - rewrite (u32_id (l - l')) by lia. rewrite u32_diff by lia. case_decide.
    + apply (c64_carry _ _ _ (-1)); lia.
    + apply (c64_carry _ _ _ 0); lia.
Qed.

(** Reduction of an argument modulo 2^64 is immaterial. *)
Lemma c64_of_mod z z' : z mod 2 ^ 64 = z' mod 2 ^ 64 → c64_of z = c64_of z'.
Proof. intros E. apply c64_of_eq; [apply is_c64_of|]. by rewrite c64_u_of. Qed.

Lemma c64_of_u c : is_c64 c → c64_of (c64_u c) = c.
Proof.
  intros Hc. symmetry. apply c64_of_eq; [done|]. destruct Hc. unfold c64_u.
  rewrite Z.mod_small; lia.
Qed.

Lemma u64Incr_of a b :
  is_c64 a → is_c64 b → u64Incr a b = c64_of (c64_u a + c64_u b).
Proof.
  intros [Hh Hl] [Hh' Hl']. unfold u64Incr. rewrite incrByU32_of by (done || (split; [apply u32_range|done])).
  apply c64_of_mod. unfold c64_u, u32. cbn [c_high c_low].
  Z.div_mod_to_equations. lia.
Qed.

Lemma u64UpdateCounter_of a b c :
  is_c64 a → is_c64 b → is_c64 c →
  u64UpdateCounter a b c = c64_of (c64_u a + (c64_u b - c64_u c)).
Proof.
  intros Ha Hb Hc. unfold u64UpdateCounter. rewrite u64Subtract_of by done.
  rewrite u64Incr_of by (done || apply is_c64_of). rewrite c64_u_of.
  apply c64_of_mod. by rewrite Z.add_mod_idemp_r by lia.
Qed.

(** ** Following a counter

    The use the comment of [netsnmp_c64_check32_and_update] suggests: a running
    64-bit value, the previous reading, and a flag that is cleared once the
    readings are seen to have 64 bits. *)
Record tracker := Tracker {
  current : counter64;
  prev_val : counter64;
  needwrapcheck : Z;
}.

Definition poll (t : tracker) (new_val : counter64) : tracker :=
  if 0 =? needwrapcheck t then Tracker new_val (prev_val t) (needwrapcheck t)
  else
    let u := netsnmp_c64_check32_and_update (current t) new_val (prev_val t)
               (Some (needwrapcheck t)) in
    Tracker (cu_prev u) (cu_new u) (default (needwrapcheck t) (cu_need u)).

(** The readings are taken often enough: less than 2^32 counts apart. *)
Fixpoint paced (T : Z) (readings : list Z) : Prop :=
  match readings with
  | [] => True
  | T' :: readings => T ≤ T' < T + 2 ^ 32 ∧ paced T' readings
  end.

(** What an agent with 32-bit counters reports for the count [T]. *)
Definition reading32 (T : Z) : counter64 := Counter64 0 (T mod 2 ^ 32).

Lemma is_c64_reading32 T : is_c64 (reading32 T).
Proof. split; cbn; [lia|]. apply Z.mod_pos_bound. lia. Qed.

Lemma check32_update_32bit c T T' need :
  is_c64 c → T ≤ T' < T + 2 ^ 32 → need ≠ Some 0 →
  netsnmp_c64_check32_and_update c (reading32 T') (reading32 T) need
  = C64Update 0 (c64_of (c64_u c + (T' - T))) (reading32 T') need.
Proof.
  intros Hc HT Hneed. unfold netsnmp_c64_check32_and_update.
  replace (match need with None => true | Some n => negb (0 =? n) end) with true
    by (destruct need as [n|]; [|done]; destruct (Z.eqb_spec 0 n) as [<-|]; done).
  unfold netsnmp_c64_check_for_32bit_wrap, reading32. cbn [c_high c_low Z.eqb].
  rewrite andb_true_r. pose proof (Z.mod_pos_bound T (2 ^ 32) ltac:(lia)).
  pose proof (Z.mod_pos_bound T' (2 ^ 32) ltac:(lia)).
  pose proof (Z.div_mod T (2 ^ 32) ltac:(lia)). pose proof (Z.div_mod T' (2 ^ 32) ltac:(lia)).
  destruct (Z.leb_spec (T mod 2 ^ 32) (T' mod 2 ^ 32)); cbn [Z.ltb Z.eqb Z.compare default from_option id].
  - rewrite u64UpdateCounter_of by (done || apply is_c64_reading32).
    unfold c64_u. cbn [c_high c_low]. do 2 f_equal. lia.
  - rewrite u64UpdateCounter_of by (done || apply is_c64_reading32).
    unfold c64_u. cbn [c_high c_low]. change (u32 (0 + 1)) with 1. cbn [option_map].
    do 2 f_equal. lia.
Qed.

(** A full 64-bit reading, the running value agreeing with the previous one. *)
Lemma check32_update_64bit T T' :
  T ≤ T' < T + 2 ^ 32 →
  ∃ need, netsnmp_c64_check32_and_update (c64_of T) (c64_of T') (c64_of T) (Some 1)
          = C64Update 0 (c64_of T') (c64_of T') (Some need) ∧ (need = 1 ∨ need = 0).
Proof.
  intros HT. unfold netsnmp_c64_check32_and_update. cbn [negb Z.eqb].
  assert (u64UpdateCounter (c64_of T) (c64_of T') (c64_of T) = c64_of T') as Hu.
  { rewrite u64UpdateCounter_of by apply is_c64_of. rewrite !c64_u_of.
    apply c64_of_mod. rewrite Z.add_sub_assoc, Z.add_simpl_l. apply Z.mod_mod. lia. }
  unfold netsnmp_c64_check_for_32bit_wrap.
  assert (c_high (c64_of T') = c_high (c64_of T) ∧ c_low (c64_of T) ≤ c_low (c64_of T') ∨
          c_high (c64_of T') = u32 (c_high (c64_of T) + 1) ∧
          c_high (c64_of T') ≠ c_high (c64_of T)) as [[Eh El]|[Eh Ne]].
  { unfold u32, c64_of. cbn [c_high c_low]. rewrite Z.add_mod_idemp_l by lia.
    Z.div_mod_to_equations. lia. }
  - rewrite Eh, Z.eqb_refl, (proj2 (Z.leb_le _ _) El). cbn. rewrite Hu. eauto.
  - rewrite (proj2 (Z.eqb_neq _ _) Ne), andb_false_r. rewrite Eh, Z.eqb_refl. cbn [orb].
    cbn [Z.ltb Z.eqb Z.compare Pos.compare Pos.compare_cont default from_option id].
    rewrite Hu, !Z.eqb_refl. cbn. eauto.
Qed.

(** ** Decimal text *)

(** The number a run of digits denotes, after the digits already in [v]. *)
Definition dec_from (v : Z) (s : list Z) : Z := foldl (λ v c, v * 10 + (c - 48)) v s.

(** [s] is the decimal text of [z], without leading zeros. *)
Definition decimal (s : list Z) (z : Z) : Prop :=
  Forall (λ c, 48 ≤ c ≤ 57) s ∧ dec_from 0 s = z ∧
  ∃ c s', s = c :: s' ∧ (c = 48 → s' = []).

Lemma dec_from_app v s t : dec_from v (s ++ t) = dec_from (dec_from v s) t.
Proof. apply foldl_app. Qed.

Lemma decimal_digit z : 0 ≤ z < 10 → decimal [48 + z] z.
Proof.
  intros. split_and!; [|unfold dec_from; simpl; lia|eauto].
  constructor; [lia|constructor].
Qed.

Lemma decimal_snoc s q u :
  decimal s q → q ≠ 0 → 0 ≤ u < 10 → decimal (s ++ [48 + u]) (q * 10 + u).
Proof.
  intros (Hs & Hv & c & s' & -> & Hc) Hq Hu. split_and!.
  - apply Forall_app. split; [done|]. constructor; [lia|constructor].
  - rewrite dec_from_app, Hv. unfold dec_from. simpl. lia.
  - exists c, (s' ++ [48 + u]). split; [done|]. intros ->. exfalso. apply Hq.
    rewrite <- Hv, Hc by done. done.
Qed.

Lemma isZeroU64_spec c : is_c64 c → isZeroU64 c = (c64_u c =? 0).
Proof.
  destruct c as [h l]. unfold is_c64, isZeroU64, c64_u. cbn [c_high c_low]. intros. lia.
Qed.

(** The digits replace the bytes in front of index [I64CHARSZ - j]. *)
Lemma digits_loop_spec n aRes c :
  is_c64 c → (1 ≤ n ≤ 21)%nat → length aRes = 22%nat → c64_u c < 10 ^ Z.of_nat n →
  ∃ s j', digits_loop n aRes c (21 - n)
          = Ok (take (20 - j') aRes ++ s ++ drop n aRes, j') ∧
    decimal s (c64_u c) ∧ (21 - n ≤ j' ≤ 20)%nat ∧ length s = (j' + n - 20)%nat.
Proof.
  revert aRes c. induction n as [|n IH]; intros aRes c Hc Hn Hlen Hlt; [lia|].
  cbn [digits_loop]. destruct (divBy10_spec c Hc) as (Hq & Eq & Eu).
  destruct (divBy10 c) as [q u]. cbn [fst snd] in *. unfold I64CHARSZ.
  replace (21 - 1 - (21 - S n))%nat with n by lia.
  pose proof (Z.mod_pos_bound (c64_u c) 10 ltac:(lia)) as Hu. rewrite <- Eu in Hu.
  pose proof (Z.div_mod (c64_u c) 10 ltac:(lia)) as Ec. rewrite <- Eq, <- Eu in Ec.
  assert (n < length aRes)%nat as Hlt' by lia.
  unfold wr. rewrite decide_True by lia. m_step. rewrite isZeroU64_spec by done.
  assert (∀ k, (k ≤ n)%nat → take k (<[n:=48 + u]> aRes) = take k aRes) as Htk
    by (intros; apply take_insert_ge; lia).
  assert (drop n (<[n:=48 + u]> aRes) = (48 + u) :: drop (S n) aRes) as Hdr.
  { rewrite (drop_S _ (48 + u)) by (by apply list_lookup_insert_eq).
    by rewrite drop_insert_lt by lia. }
  destruct (Z.eqb_spec (c64_u q) 0) as [E|E].
  - exists [48 + u], (20 - n)%nat. split_and!; [|rewrite Ec, E; by apply decimal_digit|simpl; lia..].
    rewrite <- (take_drop n (<[n:=48 + u]> aRes)) at 1. rewrite Hdr, Htk by lia.
    replace (20 - (20 - n))%nat with n by lia. done.
  - assert (c64_u q < 10 ^ Z.of_nat n) as Hlt2.
    { rewrite Nat2Z.inj_succ, Z.pow_succ_r in Hlt by lia. lia. }
    assert (1 ≤ n)%nat. { destruct n; [|lia]. simpl in Hlt2. unfold c64_u in *. destruct Hq. lia. }
    destruct (IH (<[n:=48 + u]> aRes) q Hq) as (s & j' & E' & Hs & Hj & Hl);
      [lia|by rewrite length_insert|done|].
    replace (S (21 - S n)) with (21 - n)%nat by lia. rewrite E'.
    exists (s ++ [48 + u]), j'. split_and!; [| |lia..|rewrite length_app; simpl; lia].
    + rewrite Hdr, Htk, <- app_assoc by lia. done.
    + rewrite Ec, Z.mul_comm. by apply decimal_snoc.
Qed.

Lemma c_string_app s rest : Forall (λ c, c ≠ 0) s → c_string (s ++ 0 :: rest) = Some s.
Proof.
  induction 1 as [|c s Hc Hs IH]; [done|]. simpl.
  destruct (Z.eqb_spec c 0); [done|]. by rewrite IH.
Qed.

Lemma decimal_nonzero s z : decimal s z → Forall (λ c, c ≠ 0) s.
Proof. intros [Hs _]. eapply Forall_impl; [done|]. simpl. lia. Qed.

Lemma strcpy_app dst src p s rest :
  drop p src = s ++ 0 :: rest → Forall (λ c, c ≠ 0) s → (length s < length dst)%nat →
  strcpy dst src p = Ok (s ++ 0 :: drop (S (length s)) dst).
Proof.
  intros E Hs Hl. unfold strcpy. rewrite E, c_string_app by done.
  rewrite wr_list_eq by (rewrite length_app; simpl; lia). simpl.
  rewrite length_app, <- app_assoc. simpl. by rewrite Nat.add_1_r.
Qed.

(** Where the loop leaves the digits in the local array. *)
Lemma print_digits uninit c :
  is_c64 c → length uninit = 22%nat →
  ∃ s j pre, (aRes ← wr uninit I64CHARSZ 0; digits_loop I64CHARSZ aRes c 0)
             = Ok (pre ++ s ++ [0], j) ∧
    decimal s (c64_u c) ∧ length pre = (20 - j)%nat ∧ length s = S j ∧ (j ≤ 20)%nat.
Proof.
  intros Hc Hu. unfold wr, I64CHARSZ. rewrite decide_True by lia. m_step.
  destruct (digits_loop_spec 21 (<[21%nat:=0]> uninit) c) as (s & j & E & Hs & Hj & Hl);
    [done|lia|by rewrite length_insert| |].
  { destruct Hc. unfold c64_u. assert (2 ^ 64 < 10 ^ Z.of_nat 21) by done. lia. }
  exists s, j, (take (20 - j) (<[21%nat:=0]> uninit)).
  change (21 - 21)%nat with 0%nat in E. rewrite E. split_and!; [|done|..|lia|lia].
  - rewrite (drop_S _ 0) by (apply list_lookup_insert_eq; lia).
    rewrite drop_ge by (rewrite length_insert; lia). done.
  - rewrite length_take, length_insert. lia.
Qed.

(** At most nineteen digits for less than 10^19: room for a sign is left. *)
Lemma decimal_length s z n :
  decimal s z → z < 10 ^ Z.of_nat n → (1 ≤ n)%nat → (length s ≤ n)%nat.
Proof.
  intros (Hs & Hv & c & s' & -> & Hc) Hz Hn.
  assert (∀ t v, Forall (λ c, 48 ≤ c ≤ 57) t → 0 ≤ v →
            v * 10 ^ Z.of_nat (length t) ≤ dec_from v t) as Hge.
  { induction t as [|d t IH]; intros v Ht Hv'; [simpl; lia|].
    apply Forall_cons in Ht as [Hd Ht]. change (dec_from v (d :: t)) with
      (dec_from (v * 10 + (d - 48)) t). cbn [length]. rewrite Nat2Z.inj_succ, Z.pow_succ_r by lia.
    specialize (IH (v * 10 + (d - 48)) Ht ltac:(lia)).
    pose proof (Z.pow_pos_nonneg 10 (Z.of_nat (length t))). nia. }
  destruct (decide (c = 48)) as [->|Hne]; [by rewrite Hc by done|].
  apply Forall_cons in Hs as [Hd Hs'].
  change (dec_from 0 (c :: s')) with (dec_from (0 * 10 + (c - 48)) s') in Hv.
  specialize (Hge s' (0 * 10 + (c - 48)) Hs' ltac:(lia)).
  assert (10 ^ Z.of_nat (length s') < 10 ^ Z.of_nat n) as Hp by nia.
  apply Z.pow_lt_mono_r_iff in Hp; simpl; lia.
Qed.

(** Decimal text of a two's complement number. *)
Definition sdecimal (s : list Z) (z : Z) : Prop :=
  if z <? 0 then ∃ t, s = 45 :: t ∧ decimal t (- z) else decimal s z.

Lemma sign_bit_high h : 0 ≤ h < 2 ^ 32 → negb (Z.land h 0x80000000 =? 0) = (2 ^ 31 <=? h).
Proof.
  intros Hh. change 0x80000000 with ((2 ^ 1 - 1) * 2 ^ 31). rewrite land_field by lia.
  destruct (Z.leb_spec (2 ^ 31) h).
  - replace (h / 2 ^ 31) with 1 by (apply Z.div_unique with (h - 2 ^ 31); lia). done.
  - by rewrite Z.div_small by lia.
Qed.

Lemma u32_lnot x : 0 ≤ x < 2 ^ 32 → u32 (Z.lnot x) = 2 ^ 32 - 1 - x.
Proof. intros. unfold u32, Z.lnot. symmetry. apply (Z.mod_unique _ _ (-1)); lia. Qed.

(** [~high, ~low] plus one is the negation. *)
Lemma negate_of c n :
  is_c64 c → n = 1 →
  c64_u (Counter64 (u32 (Z.lnot (c_high c))) (u32 (Z.lnot (c_low c)))) + n = 2 ^ 64 - c64_u c ∧
  is_c64 (Counter64 (u32 (Z.lnot (c_high c))) (u32 (Z.lnot (c_low c)))).
Proof.
  intros [Hh Hl] ->. unfold is_c64, c64_u. cbn [c_high c_low]. rewrite !u32_lnot by done. lia.
Qed.

Lemma printU64_spec uninit buf c :
  is_c64 c → length uninit = 22%nat → (22 ≤ length buf)%nat →
  ∃ s, printU64 uninit buf c = Ok (s ++ 0 :: drop (S (length s)) buf) ∧
    decimal s (c64_u c) ∧ (length s ≤ 20)%nat.
Proof.
  intros Hc Hu Hb. destruct (print_digits uninit c Hc Hu) as (s & j & pre & E & Hs & Hp & Hl & Hj).
  assert (length s ≤ 20)%nat as Hls.
  { apply (decimal_length s (c64_u c)); [done| |lia]. destruct Hc. unfold c64_u.
    assert (2 ^ 64 < 10 ^ Z.of_nat 20) by done. lia. }
  exists s. split_and!; [|done|done]. unfold printU64. rewrite <- M_bind_assoc, E. m_step.
  change (I64CHARSZ - 1)%nat with 20%nat. destruct (Nat.ltb_spec 20 j); [lia|].
  apply (strcpy_app _ _ _ _ []); [|by eapply decimal_nonzero|lia].
  rewrite drop_app_length' by lia. done.
Qed.

Lemma printI64_spec uninit buf c :
  is_c64 c → length uninit = 22%nat → (22 ≤ length buf)%nat →
  ∃ s, printI64 uninit buf c = Ok (s ++ 0 :: drop (S (length s)) buf) ∧
    sdecimal s (c64_s c) ∧ (length s ≤ 20)%nat.
Proof.
  intros Hc Hu Hb. pose proof Hc as [Hh Hl].
  unfold printI64, sdecimal, c64_s. rewrite sign_bit_high by done.
  change (I64CHARSZ - 1)%nat with 20%nat.
  destruct (Z.leb_spec (2 ^ 31) (c_high c)), (Z.ltb_spec (c_high c) (2 ^ 31)); try lia.
  - destruct (negate_of c 1 Hc eq_refl) as [En Hn].
    rewrite incrByU32_of by (done || lia). rewrite En.
    set (m := 2 ^ 64 - c64_u c). assert (0 < m ≤ 2 ^ 63) as Hm by (unfold m, c64_u; lia).
    destruct (print_digits uninit (c64_of m) (is_c64_of m) Hu)
      as (s & j & pre & E & Hs & Hp & Hls & Hj).
    rewrite c64_u_of, Z.mod_small in Hs by lia.
    assert (length s ≤ 19)%nat as Hls'.
    { apply (decimal_length s m); [done| |lia]. assert (2 ^ 63 < 10 ^ Z.of_nat 19) by done. lia. }
    rewrite <- M_bind_assoc, E. m_step. destruct (Nat.ltb_spec 20 (j + 1)); [lia|].
    destruct (exists_last (l := pre)) as (pre' & x & ->); [by intros ->; simpl in Hp; lia|].
    rewrite length_app in Hp. simpl in Hp.
    rewrite <- app_assoc. simpl. replace (20 - j - 1)%nat with (length pre') by lia.
    rewrite wr_app. m_step. exists (45 :: s). split_and!; [| |simpl; lia].
    + apply (strcpy_app _ _ _ (45 :: s) []).
      * by rewrite drop_app_length.
      * constructor; [lia|]. by eapply decimal_nonzero.
      * simpl. lia.
    + destruct (Z.ltb_spec (c64_u c - 2 ^ 64) 0); [|lia]. exists s. split; [done|].
      by replace (- (c64_u c - 2 ^ 64)) with m by (unfold m; lia).
  - destruct (print_digits uninit c Hc Hu) as (s & j & pre & E & Hs & Hp & Hls & Hj).
    assert (0 ≤ c64_u c < 2 ^ 63) as Hr by (unfold c64_u; lia).
    assert (length s ≤ 19)%nat as Hls'.
    { apply (decimal_length s (c64_u c)); [done| |lia].
      assert (2 ^ 63 < 10 ^ Z.of_nat 19) by done. lia. }
    rewrite <- M_bind_assoc, E. m_step. destruct (Nat.ltb_spec 20 j); [lia|].
    exists s. split_and!; [| |lia].
    + apply (strcpy_app _ _ _ _ []); [|by eapply decimal_nonzero|lia].
      by rewrite drop_app_length' by lia.
    + destruct (Z.ltb_spec (c64_u c) 0); [lia|done].
Qed.

Lemma dec_from_mod v w s :
  v mod 2 ^ 64 = w mod 2 ^ 64 → dec_from v s mod 2 ^ 64 = dec_from w s mod 2 ^ 64.
Proof.
  revert v w. induction s as [|c s IH]; intros v w E; [done|].
  apply IH. rewrite <- (Z.add_mod_idemp_l (v * 10)), <- (Z.mul_mod_idemp_l v), E by lia.
  by rewrite Z.mul_mod_idemp_l, Z.add_mod_idemp_l by lia.
Qed.

(** A character that ends a number. *)
Lemma read_digits_spec s t rest c ok :
  is_c64 c → Forall (λ c, 48 ≤ c ≤ 57) s → isdigit t = false →
  read_digits (s ++ t :: rest) c ok
  = Ok (c64_of (dec_from (c64_u c) s), ok || negb (bool_decide (s = []))).
Proof.
  intros Hc Hs Ht. revert c ok Hc. induction Hs as [|d s Hd Hs IH]; intros c ok Hc; simpl.
  - rewrite Ht, andb_false_r, c64_of_u, orb_false_r by done. done.
  - destruct (Z.eqb_spec d 0); [lia|]. unfold isdigit.
    rewrite (proj2 (Z.leb_le 48 d)), (proj2 (Z.leb_le d 57)) by lia. simpl.
    destruct (multBy10_spec c Hc) as [Hm Em].
    rewrite incrByU16_of by (done || lia). rewrite IH by apply is_c64_of.
    rewrite c64_u_of, Em, orb_true_r. do 2 f_equal. apply c64_of_mod, dec_from_mod.
    rewrite Z.mod_mod by lia. by rewrite Z.add_mod_idemp_l by lia.
Qed.

(** [read64] of a number that is followed by another character. *)
Lemma read64_spec s z t rest :
  sdecimal s z → isdigit t = false → read64 (s ++ t :: rest) = Ok (c64_of z, true).
Proof.
  intros Hs Ht. unfold sdecimal in Hs. destruct (Z.ltb_spec z 0) as [Hz|Hz].
  - destruct Hs as (d & -> & Hd & Hv & x & d' & -> & _). unfold read64.
    change (rd ((45 :: x :: d') ++ t :: rest) 0) with (Ok 45). m_step.
    change (45 =? 45) with true. cbn [drop app].
    pose proof (read_digits_spec (x :: d') t rest zeroU64 false) as HR. cbn [app] in HR.
    rewrite HR by (done || split; done). change (c64_u zeroU64) with 0. rewrite Hv. m_step.
    destruct (negate_of (c64_of (- z)) 1 (is_c64_of _) eq_refl) as [En Hn].
    rewrite incrByU16_of by (done || lia). rewrite En, c64_u_of. do 2 f_equal.
    apply c64_of_mod. Z.div_mod_to_equations. lia.
  - destruct Hs as (Hd & Hv & x & d' & -> & _). unfold read64.
    change (rd ((x :: d') ++ t :: rest) 0) with (Ok x). m_step.
    pose proof Hd as [Hx _]%Forall_cons. destruct (Z.eqb_spec x 45); [lia|].
    rewrite read_digits_spec by (done || split; done).
    change (c64_u zeroU64) with 0. rewrite Hv. done.
Qed.

Lemma last_cons_default (x : Z) l d : List.last (x :: l) d = List.last l x.
Proof.
  revert x d. induction l as [|y l IH]; intros x d; [done|].
  transitivity (List.last l y); [apply (IH y d)|symmetry; apply (IH y x)].
Qed.

(** Once the wrap check is off, every reading is taken as it is. *)
Lemma tracks_direct readings T p :
  current (foldl poll (Tracker (c64_of T) p 0) (c64_of <$> readings))
  = c64_of (List.last readings T).
Proof.
  revert T. induction readings as [|T' r IH]; intros T; [done|].
  rewrite last_cons_default. apply IH.
Qed.

(** ** Properties *)

(** The sixteen-bit steps of int64.c compute what their names say on
    64-bit numbers: quotient and remainder by ten, and product, sum and
    difference modulo 2^64. *)
Theorem u64_arithmetic a b n :
  is_c64 a → is_c64 b → 0 ≤ n < 2 ^ 16 →
  divBy10 a = (c64_of (c64_u a / 10), c64_u a mod 10) ∧
  multBy10 a = c64_of (c64_u a * 10) ∧
  incrByU16 a n = c64_of (c64_u a + n) ∧
  incrByU32 a (c_low b) = c64_of (c64_u a + c_low b) ∧
  u64Subtract a b = c64_of (c64_u a - c64_u b) ∧
  u64Incr a b = c64_of (c64_u a + c64_u b).
Proof.
  intros Ha Hb Hn. split_and!.
  - destruct (divBy10_spec a Ha) as (Hq & Eq & Er). destruct (divBy10 a) as [q r].
    cbn [fst snd] in *. rewrite Er, <- Eq, c64_of_u by done. done.
  - destruct (multBy10_spec a Ha). by apply c64_of_eq.
  - by apply incrByU16_of.
  - apply incrByU32_of; [done|]. apply Hb.
  - by apply u64Subtract_of.
  - by apply u64Incr_of.
Qed.

Lemma u64_arithmetic_witness :
  divBy10 (Counter64 1 5) = (Counter64 0 429496730, 1) ∧
  divBy10 (Counter64 1 5) = (c64_of (4294967301 / 10), 4294967301 mod 10).
Proof.
  split; [by vm_compute|].
  apply (u64_arithmetic (Counter64 1 5) (Counter64 0 0) 0); [done|done|lia].
Defined.

(** PrintU64 and printI64 write the decimal text of the unsigned and of
    the two's complement value, at most twenty characters and a NUL, and leave
    the rest of the buffer alone. *)
Theorem print64_decimal uninit buf c :
  is_c64 c → length uninit = S I64CHARSZ → (S I64CHARSZ ≤ length buf)%nat →
  (∃ s, printU64 uninit buf c = Ok (s ++ 0 :: drop (S (length s)) buf) ∧
     decimal s (c64_u c) ∧ (length s ≤ 20)%nat) ∧
  (∃ s, printI64 uninit buf c = Ok (s ++ 0 :: drop (S (length s)) buf) ∧
     sdecimal s (c64_s c) ∧ (length s ≤ 20)%nat).
Proof. intros. split; [by apply printU64_spec|by apply printI64_spec]. Qed.

Lemma print64_decimal_witness :
  printI64 (replicate 22 7) (replicate 22 1) (c64_of (-12))
  = Ok ([45; 49; 50] ++ 0 :: replicate 18 1) ∧
  ∃ s, printI64 (replicate 22 7) (replicate 22 1) (c64_of (-12))
       = Ok (s ++ 0 :: drop (S (length s)) (replicate 22 1)) ∧
    sdecimal s (c64_s (c64_of (-12))) ∧ (length s ≤ 20)%nat.
Proof.
  split; [by vm_compute|].
  apply (print64_decimal (replicate 22 7) (replicate 22 1) (c64_of (-12)));
    [apply is_c64_of|done|done].
Defined.

(** Read64 gives back every counter that printU64 or printI64 wrote. *)
Theorem print_read64_roundtrip uninit buf c :
  is_c64 c → length uninit = S I64CHARSZ → (S I64CHARSZ ≤ length buf)%nat →
  (printU64 uninit buf c ≫= read64) = Ok (c, true) ∧
  (printI64 uninit buf c ≫= read64) = Ok (c, true).
Proof.
  intros Hc Hu Hb. split.
  - destruct (printU64_spec uninit buf c Hc Hu Hb) as (s & -> & Hs & _). m_step.
    rewrite (read64_spec s (c64_u c)), c64_of_u; [done..| |done].
    unfold sdecimal. destruct (Z.ltb_spec (c64_u c) 0); [|done].
    destruct Hc. unfold c64_u in *. lia.
  - destruct (printI64_spec uninit buf c Hc Hu Hb) as (s & -> & Hs & _). m_step.
    rewrite (read64_spec s (c64_s c)) by done. do 2 f_equal.
    rewrite <- (c64_of_u c Hc) at 2. apply c64_of_mod. unfold c64_s.
    destruct (_ <? _); [done|]. Z.div_mod_to_equations. lia.
Qed.

Lemma print_read64_roundtrip_witness :
  (printI64 (replicate 22 7) (replicate 22 1) (Counter64 0x80000000 0) ≫= read64)
  = Ok (Counter64 0x80000000 0, true).
Proof.
  apply (print_read64_roundtrip (replicate 22 7) (replicate 22 1) (Counter64 0x80000000 0));
    [split; cbn; lia|done|done].
Defined.

(** C33: with 32-bit readings less than 2^32 counts apart, the running value
    of netsnmp_c64_check32_and_update follows the true count modulo 2^64 through
    any number of wraps, and the wrap check stays on. *)
Theorem tracks_32bit_counter c T readings :
  is_c64 c → paced T readings →
  foldl poll (Tracker c (reading32 T) 1) (reading32 <$> readings)
  = Tracker (c64_of (c64_u c + (List.last readings T - T))) (reading32 (List.last readings T)) 1.
Proof.
  revert c T. induction readings as [|T' readings IH]; intros c T Hc Hp.
  - simpl. rewrite Z.sub_diag, Z.add_0_r, c64_of_u by done. done.
  - destruct Hp as [HT Hp]. cbn [fmap list_fmap foldl]. unfold poll at 2.
    cbn [needwrapcheck Z.eqb current prev_val].
    rewrite check32_update_32bit by done. cbn [cu_prev cu_new cu_need default from_option id].
    rewrite IH by (done || apply is_c64_of). rewrite c64_u_of.
    rewrite last_cons_default.
    f_equal. apply c64_of_mod. rewrite Z.add_mod_idemp_l by lia. f_equal. lia.
Qed.

Lemma tracks_32bit_counter_witness :
  paced (2 ^ 32 - 10) [2 ^ 32 + 5; 2 ^ 33 + 1] ∧
  foldl poll (Tracker (Counter64 0 0) (reading32 (2 ^ 32 - 10)) 1)
    (reading32 <$> [2 ^ 32 + 5; 2 ^ 33 + 1])
  = Tracker (Counter64 1 11) (Counter64 0 1) 1.
Proof.
  assert (paced (2 ^ 32 - 10) [2 ^ 32 + 5; 2 ^ 33 + 1]) as Hp by (cbn [paced]; lia).
  split; [done|].
  etransitivity; [apply (tracks_32bit_counter (Counter64 0 0) (2 ^ 32 - 10))|by vm_compute];
    [split; cbn; lia|exact Hp].
Defined.

(** With 64-bit readings, no matter at what point the code notices that
    they have 64 bits, the running value always equals the last reading. *)
Theorem tracks_64bit_counter T readings :
  paced T readings →
  current (foldl poll (Tracker (c64_of T) (c64_of T) 1) (c64_of <$> readings))
  = c64_of (List.last readings T).
Proof.
  revert T. induction readings as [|T' readings IH]; intros T Hp; [done|].
  destruct Hp as [HT Hp]. cbn [fmap list_fmap foldl]. rewrite last_cons_default.
  destruct (check32_update_64bit T T' HT) as (need & E & Hneed).
  replace (poll (Tracker (c64_of T) (c64_of T) 1) (c64_of T'))
    with (Tracker (c64_of T') (c64_of T') need).
  2:{ unfold poll. cbn [needwrapcheck Z.eqb current prev_val]. by rewrite E. }
  destruct Hneed as [->| ->]; [by apply IH|]. by apply tracks_direct.
Qed.

Lemma tracks_64bit_counter_witness :
  paced 7 [2 ^ 32 + 1; 2 ^ 32 + 9] ∧
  current (foldl poll (Tracker (c64_of 7) (c64_of 7) 1) (c64_of <$> [2 ^ 32 + 1; 2 ^ 32 + 9]))
  = Counter64 1 9.
Proof.
  assert (paced 7 [2 ^ 32 + 1; 2 ^ 32 + 9]) as Hp by (cbn [paced]; lia).
  split; [done|]. apply (tracks_64bit_counter 7). exact Hp.
Defined.
