(* ===== verification/OidCompare.v ===== *)
(** * Comparing object identifiers: snmp_oid_compare and its variants in
    snmplib/snmp_api.c

    A name is the object it is stored in, read through [rd], with its length
    as a [size_t] beside it; the loop counters of the source are [int]s. *)

From S2P Require Import Prelude Ber.
From stdpp Require Import prelude numbers list.
From Stdlib Require Import ZArith Lia.
Open Scope Z_scope.

(** [while (len-- > 0) { if ( *name1 != *name2) ...; name1++; name2++; }]
    from index [p] on.  [Some (r, len)]: the result returned inside the loop
    and the value of [len] there; [None]: the loop ended. *)
Fixpoint compare_loop (len : nat) (name1 name2 : list Z) (p : nat) : M (option (Z * Z)) :=
  match len with
  | O => Ok None
  | S len =>
      a ← rd name1 p;
      b ← rd name2 p;
      if negb (a =? b) then Ok (Some (if a <? b then -1 else 1, Z.of_nat len))
      else compare_loop len name1 name2 (S p)
  end.

(** The comparison of lengths after the loop. *)
Definition compare_lengths (len1 len2 : Z) : Z :=
  if len1 <? len2 then -1 else if len2 <? len1 then 1 else 0.

Definition snmp_oid_ncompare (name1 : list Z) (len1 : Z) (name2 : list Z) (len2 max_len : Z)
    : M Z :=
  let min_len := if len1 <? len2 then len1 else len2 in
  let min_len := if max_len <? min_len then max_len else min_len in
  let len := s32 min_len in
  r ← compare_loop (Z.to_nat len) name1 name2 0;
  match r with
  | Some (r, _) => Ok r
  | None => Ok (if negb (min_len =? max_len) then compare_lengths len1 len2 else 0)
  end.

Definition snmp_oid_compare (name1 : list Z) (len1 : Z) (name2 : list Z) (len2 : Z) : M Z :=
  let len := s32 (if len1 <? len2 then len1 else len2) in
  r ← compare_loop (Z.to_nat len) name1 name2 0;
  match r with
  | Some (r, _) => Ok r
  | None => Ok (compare_lengths len1 len2)
  end.

(** The second result is [*offpt]; after the loop [len] is -1. *)
Definition netsnmp_oid_compare_ll (name1 : list Z) (len1 : Z) (name2 : list Z) (len2 : Z)
    : M (Z * Z) :=
  let initlen := s32 (if len1 <? len2 then len1 else len2) in
  r ← compare_loop (Z.to_nat initlen) name1 name2 0;
  match r with
  | Some (r, len) => Ok (r, u32 (initlen - len))
  | None => Ok (compare_lengths len1 len2, u32 (initlen - (-1)))
  end.

Definition snmp_oidtree_compare (name1 : list Z) (len1 : Z) (name2 : list Z) (len2 : Z)
    : M Z :=
  let len := s32 (if len1 <? len2 then len1 else len2) in
  snmp_oid_compare name1 (u32 len) name2 (u32 len).

Definition snmp_oidsubtree_compare (name1 : list Z) (len1 : Z) (name2 : list Z) (len2 : Z)
    : M Z :=
  let len := s32 (if len1 <? len2 then len1 else len2) in
  snmp_oid_compare name1 len1 name2 (u32 len).

Fixpoint equals_loop (len : nat) (name1 name2 : list Z) (p : nat) : M Z :=
  match len with
  | O => Ok 0
  | S len =>
      a ← rd name1 p;
      b ← rd name2 p;
      if negb (a =? b) then Ok 1 else equals_loop len name1 name2 (S p)
  end.

Definition netsnmp_oid_equals (name1 : list Z) (len1 : Z) (name2 : list Z) (len2 : Z)
    : M Z :=
  if negb (len1 =? len2) then Ok 1
  else equals_loop (Z.to_nat (s32 len1)) name1 name2 0.

(** [memcmp] over the whole of [len1] words. *)
Definition netsnmp_oid_is_subtree (name1 : list Z) (len1 : Z) (name2 : list Z) (len2 : Z)
    : M Z :=
  if len2 <? len1 then Ok 1
  else
    a ← rd_list name1 0 (Z.to_nat len1);
    b ← rd_list name2 0 (Z.to_nat len1);
    if bool_decide (a = b) then Ok 0 else Ok 1.

(** [for(i = 0; i < (int)min_size; i++)]; [n] is what is left of it. *)
Fixpoint prefix_loop (n : nat) (name1 name2 : list Z) (i : nat) : M (option Z) :=
  match n with
  | O => Ok None
  | S n =>
      a ← rd name1 i;
      b ← rd name2 i;
      if negb (a =? b) then Ok (Some (Z.of_nat i + 1)) else prefix_loop n name1 name2 (S i)
  end.

(** [None] stands for a [NULL] name. *)
Definition netsnmp_oid_find_prefix (in_name1 : option (list Z)) (len1 : Z)
    (in_name2 : option (list Z)) (len2 : Z) : M Z :=
  match in_name1, in_name2 with
  | Some name1, Some name2 =>
      if (len1 =? 0) || (len2 =? 0) then Ok (-1)
      else
        a ← rd name1 0;
        b ← rd name2 0;
        if negb (a =? b) then Ok 0
        else
          let min_size := if len1 <? len2 then len1 else len2 in
          r ← prefix_loop (Z.to_nat (s32 min_size)) name1 name2 0;
          match r with
          | Some r => Ok r
          | None => Ok (s32 min_size)
          end
  | _, _ => Ok (-1)
  end.

(** ** The order of object identifiers *)

(** Lexicographic, a proper prefix first. *)
Fixpoint oid_cmp (o1 o2 : list Z) : Z :=
  match o1, o2 with
  | [], [] => 0
  | [], _ :: _ => -1
  | _ :: _, [] => 1
  | a :: o1, b :: o2 => if a =? b then oid_cmp o1 o2 else if a <? b then -1 else 1
  end.

Definition oid_lt (o1 o2 : list Z) : Prop := oid_cmp o1 o2 = -1.

Lemma oid_cmp_refl o : oid_cmp o o = 0.
Proof. induction o as [|a o IH]; simpl; [done|]. by rewrite Z.eqb_refl. Qed.

Lemma oid_cmp_eq o1 o2 : oid_cmp o1 o2 = 0 ↔ o1 = o2.
Proof.
  split; [|intros ->; apply oid_cmp_refl].
  revert o2. induction o1 as [|a o1 IH]; intros [|b o2]; simpl; try done.
  destruct (Z.eqb_spec a b) as [->|]; [intros H; f_equal; auto|].
  destruct (a <? b); done.
Qed.

Lemma oid_cmp_antisym o1 o2 : oid_cmp o2 o1 = - oid_cmp o1 o2.
Proof.
  revert o2. induction o1 as [|a o1 IH]; intros [|b o2]; simpl; try done.
  destruct (Z.eqb_spec a b), (Z.eqb_spec b a); try lia; [auto|].
  destruct (Z.ltb_spec a b), (Z.ltb_spec b a); lia.
Qed.

#[global] Instance oid_lt_trans : Transitive oid_lt.
Proof.
  intros o1. unfold oid_lt. induction o1 as [|a o1 IH]; intros [|b o2] [|c o3]; simpl; try done.
  destruct (Z.eqb_spec a b), (Z.eqb_spec b c), (Z.eqb_spec a c); subst; try lia; eauto;
    repeat match goal with |- context [?x <? ?y] => destruct (Z.ltb_spec x y) end; try lia.
Qed.

#[global] Instance oid_lt_irrefl : Irreflexive oid_lt.
Proof. intros o H. unfold oid_lt in H. by rewrite oid_cmp_refl in H. Qed.

Lemma oid_cmp_range o1 o2 : oid_cmp o1 o2 = -1 ∨ oid_cmp o1 o2 = 0 ∨ oid_cmp o1 o2 = 1.
Proof.
  revert o2. induction o1 as [|a o1 IH]; intros [|b o2]; simpl; auto.
  destruct (a =? b); [apply IH|]. destruct (a <? b); auto.
Qed.

Lemma oid_cmp_trans o1 o2 o3 : oid_cmp o1 o2 ≤ 0 → oid_cmp o2 o3 ≤ 0 → oid_cmp o1 o3 ≤ 0.
Proof.
  intros H1 H2. destruct (oid_cmp_range o1 o2) as [L1|[L1|L1]]; [| |lia].
  - destruct (oid_cmp_range o2 o3) as [L2|[L2|L2]]; [| |lia].
    + assert (oid_lt o1 o3) as L by (by trans o2). unfold oid_lt in L. lia.
    + apply oid_cmp_eq in L2 as <-. lia.
  - apply oid_cmp_eq in L1 as ->. lia.
Qed.

#[global] Instance oid_lt_trichotomy : TrichotomyT oid_lt.
Proof.
  intros o1 o2. unfold oid_lt. rewrite (oid_cmp_antisym o1 o2).
  destruct (decide (oid_cmp o1 o2 = -1)) as [?|H1]; [by left; left|].
  destruct (decide (o1 = o2)) as [?|H2]; [by left; right|].
  right. pose proof (oid_cmp_range o1 o2). rewrite <- oid_cmp_eq in H2. lia.
Defined.

(** Length of the longest common prefix. *)
Fixpoint common (o1 o2 : list Z) : nat :=
  match o1, o2 with
  | a :: o1, b :: o2 => if a =? b then S (common o1 o2) else O
  | _, _ => O
  end.

Lemma common_le o1 o2 : (common o1 o2 ≤ length o1 ∧ common o1 o2 ≤ length o2)%nat.
Proof.
  revert o2. induction o1 as [|a o1 IH]; intros [|b o2]; simpl; try lia.
  destruct (a =? b); [|lia]. specialize (IH o2). lia.
Qed.

Lemma common_prefix o1 o2 : take (common o1 o2) o1 = take (common o1 o2) o2.
Proof.
  revert o2. induction o1 as [|a o1 IH]; intros [|b o2]; simpl; try done.
  destruct (Z.eqb_spec a b) as [->|]; [|done]. simpl. by rewrite IH.
Qed.

(** ** The loops *)

Definition stored (name : list Z) (len : Z) (o : list Z) : Prop :=
  ∃ rest, name = o ++ rest ∧ len = zlen o ∧ len < 2 ^ 31.

Lemma compare_loop_spec n o1 o2 p1 p2 r1 r2 :
  length p1 = length p2 → (n ≤ length o1)%nat → (n ≤ length o2)%nat →
  compare_loop n (p1 ++ o1 ++ r1) (p2 ++ o2 ++ r2) (length p1)
  = Ok (if decide (common o1 o2 < n)%nat
        then Some (oid_cmp o1 o2, Z.of_nat n - Z.of_nat (common o1 o2) - 1) else None).
Proof.
  revert o1 o2 p1 p2. induction n as [|n IH]; intros o1 o2 p1 p2 Hp H1 H2; [done|].
  destruct o1 as [|a o1], o2 as [|b o2]; simpl in *; try lia.
  rewrite rd_app_l. m_step.
  assert (rd (p2 ++ b :: o2 ++ r2) (length p1) = Ok b) as -> by (rewrite Hp; apply rd_app_l).
  m_step.
  destruct (Z.eqb_spec a b) as [->|Hne]; m_step.
  - specialize (IH o1 o2 (p1 ++ [b]) (p2 ++ [b])).
    rewrite !length_app, <- !app_assoc in IH. cbn [length app] in IH.
    rewrite Nat.add_1_r in IH. rewrite IH by lia.
    destruct (decide (common o1 o2 < n)%nat); [rewrite decide_True by lia|by rewrite decide_False by lia].
    do 3 f_equal. lia.
  - rewrite decide_True by lia. do 3 f_equal. lia.
Qed.

Lemma compare_loop_whole o1 o2 r1 r2 n :
  n = (length o1 `min` length o2)%nat →
  compare_loop n (o1 ++ r1) (o2 ++ r2) 0
  = Ok (if decide (common o1 o2 < n)%nat
        then Some (oid_cmp o1 o2, Z.of_nat n - Z.of_nat (common o1 o2) - 1) else None).
Proof. intros ->. apply (compare_loop_spec _ o1 o2 [] [] r1 r2); simpl; lia. Qed.

(** Equal up to the shorter one: the lengths decide. *)
Lemma oid_cmp_common o1 o2 :
  (length o1 `min` length o2 ≤ common o1 o2)%nat →
  oid_cmp o1 o2 = compare_lengths (zlen o1) (zlen o2).
Proof.
  unfold compare_lengths, zlen. revert o2.
  induction o1 as [|a o1 IH]; intros [|b o2]; simpl; intros H; try done.
  destruct (a =? b); [|lia]. rewrite IH by lia.
  repeat match goal with |- context [?x <? ?y] => destruct (Z.ltb_spec x y) end; lia.
Qed.

Lemma stored_min name1 len1 o1 name2 len2 o2 :
  stored name1 len1 o1 → stored name2 len2 o2 →
  s32 (if len1 <? len2 then len1 else len2) = Z.of_nat (length o1 `min` length o2) ∧
  (if len1 <? len2 then len1 else len2) = Z.of_nat (length o1 `min` length o2).
Proof.
  intros (? & _ & -> & ?) (? & _ & -> & ?). pose proof (zlen_nonneg o1).
  pose proof (zlen_nonneg o2). unfold zlen in *.
  destruct (Z.ltb_spec (Z.of_nat (length o1)) (Z.of_nat (length o2))); rewrite ?s32_id; lia.
Qed.

Lemma compare_stored name1 len1 o1 name2 len2 o2 :
  stored name1 len1 o1 → stored name2 len2 o2 →
  snmp_oid_compare name1 len1 name2 len2 = Ok (oid_cmp o1 o2).
Proof.
  intros S1 S2. unfold snmp_oid_compare. rewrite (proj1 (stored_min _ _ _ _ _ _ S1 S2)).
  destruct S1 as (r1 & -> & -> & _), S2 as (r2 & -> & -> & _).
  rewrite Nat2Z.id, compare_loop_whole by done. m_step.
  destruct (decide _); [done|]. by rewrite oid_cmp_common by lia.
Qed.

Lemma stored_take name len o n :
  stored name len o → 0 ≤ n ≤ len → stored name n (take (Z.to_nat n) o).
Proof.
  intros (r & -> & -> & Hl) Hn. exists (drop (Z.to_nat n) o ++ r).
  rewrite app_assoc, take_drop. unfold zlen in *. rewrite length_take.
  split_and!; [done|lia..].
Qed.

(** The order of RFC 1905, as a relation. *)
Inductive oid_less : list Z → list Z → Prop :=
| less_nil b o2 : oid_less [] (b :: o2)
| less_head a b o1 o2 : a < b → oid_less (a :: o1) (b :: o2)
| less_tail a o1 o2 : oid_less o1 o2 → oid_less (a :: o1) (a :: o2).

Lemma oid_cmp_less o1 o2 : oid_cmp o1 o2 = -1 ↔ oid_less o1 o2.
Proof.
  split.
  - revert o2. induction o1 as [|a o1 IH]; intros [|b o2]; simpl; try done; [constructor|].
    destruct (Z.eqb_spec a b) as [->|]; [intros; by apply less_tail, IH|].
    destruct (Z.ltb_spec a b); [intros _; by constructor|done].
  - induction 1 as [|a b o1 o2 Hab|a o1 o2 _ IH]; simpl; [done| |by rewrite Z.eqb_refl].
    destruct (Z.eqb_spec a b); [lia|]. by destruct (Z.ltb_spec a b); [|lia].
Qed.

Lemma stored_full o : zlen o < 2 ^ 31 → stored o (zlen o) o.
Proof. intros. exists []. by rewrite app_nil_r. Qed.

(** Comparing prefixes of equal length [n]. *)
Lemma common_take n o1 o2 : common (take n o1) (take n o2) = (n `min` common o1 o2)%nat.
Proof.
  revert o1 o2. induction n as [|n IH]; intros [|a o1] [|b o2]; simpl; try done; try lia.
  destruct (a =? b); [|lia]. rewrite IH. lia.
Qed.

Lemma oid_cmp_take n o1 o2 :
  (common o1 o2 < n)%nat → oid_cmp (take n o1) (take n o2) = oid_cmp o1 o2.
Proof.
  revert o1 o2. induction n as [|n IH]; intros [|a o1] [|b o2]; simpl; try done; try lia.
  destruct (a =? b); [|done]. intros. apply IH. lia.
Qed.

Lemma prefix_common o1 o2 : o1 `prefix_of` o2 ↔ common o1 o2 = length o1.
Proof.
  split.
  - intros [k ->]. induction o1 as [|a o1 IH]; simpl; [by destruct k|].
    rewrite Z.eqb_refl. by rewrite IH.
  - revert o2. induction o1 as [|a o1 IH]; intros [|b o2]; simpl; intros H; try done;
      try apply prefix_nil.
    destruct (Z.eqb_spec a b) as [->|]; [|done]. apply prefix_cons, IH. lia.
Qed.

Lemma equals_loop_spec n o1 o2 p1 p2 r1 r2 :
  length p1 = length p2 → (n ≤ length o1)%nat → (n ≤ length o2)%nat →
  equals_loop n (p1 ++ o1 ++ r1) (p2 ++ o2 ++ r2) (length p1)
  = Ok (if decide (common o1 o2 < n)%nat then 1 else 0).
Proof.
  revert o1 o2 p1 p2. induction n as [|n IH]; intros o1 o2 p1 p2 Hp H1 H2; [done|].
  destruct o1 as [|a o1], o2 as [|b o2]; simpl in *; try lia.
  rewrite rd_app_l. m_step.
  assert (rd (p2 ++ b :: o2 ++ r2) (length p1) = Ok b) as -> by (rewrite Hp; apply rd_app_l).
  m_step. destruct (Z.eqb_spec a b) as [->|Hne]; m_step; [|by rewrite decide_True by lia].
  specialize (IH o1 o2 (p1 ++ [b]) (p2 ++ [b])).
  rewrite !length_app, <- !app_assoc in IH. cbn [length app] in IH.
  rewrite Nat.add_1_r in IH. rewrite IH by lia.
  destruct (decide (common o1 o2 < n)%nat);
    [by rewrite decide_True by lia|by rewrite decide_False by lia].
Qed.

Lemma prefix_loop_spec n o1 o2 p1 p2 r1 r2 :
  length p1 = length p2 → (n ≤ length o1)%nat → (n ≤ length o2)%nat →
  prefix_loop n (p1 ++ o1 ++ r1) (p2 ++ o2 ++ r2) (length p1)
  = Ok (if decide (common o1 o2 < n)%nat
        then Some (Z.of_nat (length p1 + common o1 o2) + 1) else None).
Proof.
  revert o1 o2 p1 p2. induction n as [|n IH]; intros o1 o2 p1 p2 Hp H1 H2; [done|].
  destruct o1 as [|a o1], o2 as [|b o2]; simpl in *; try lia.
  rewrite rd_app_l. m_step.
  assert (rd (p2 ++ b :: o2 ++ r2) (length p1) = Ok b) as -> by (rewrite Hp; apply rd_app_l).
  m_step. destruct (Z.eqb_spec a b) as [->|Hne]; m_step.
  - specialize (IH o1 o2 (p1 ++ [b]) (p2 ++ [b])).
    rewrite !length_app, <- !app_assoc in IH. cbn [length app] in IH.
    rewrite Nat.add_1_r in IH. rewrite IH by lia.
    destruct (decide (common o1 o2 < n)%nat);
      [rewrite decide_True by lia|by rewrite decide_False by lia].
    do 2 f_equal. lia.
  - rewrite decide_True by lia. do 2 f_equal. lia.
Qed.

Lemma equals_stored name1 len1 o1 name2 len2 o2 :
  stored name1 len1 o1 → stored name2 len2 o2 →
  netsnmp_oid_equals name1 len1 name2 len2 = Ok (if decide (o1 = o2) then 0 else 1).
Proof.
  intros (r1 & -> & -> & H1) (r2 & -> & -> & H2). unfold netsnmp_oid_equals.
  destruct (Z.eqb_spec (zlen o1) (zlen o2)) as [Hl|Hl]; m_step.
  - rewrite s32_id by (pose proof (zlen_nonneg o1); lia). rewrite Z_to_nat_zlen.
    pose proof (equals_loop_spec (length o1) o1 o2 [] [] r1 r2) as HL.
    unfold zlen in Hl. simpl in HL. rewrite HL by lia.
    pose proof (common_le o1 o2). pose proof (prefix_common o1 o2) as [Hp1 Hp2].
    destruct (decide (o1 = o2)) as [->|Hne].
    + rewrite decide_False; [done|]. rewrite Hp1; [lia|done].
    + rewrite decide_True; [done|]. destruct (decide (common o1 o2 = length o1)); [|lia].
      destruct Hne. apply prefix_length_eq; [by apply Hp2|lia].
  - rewrite decide_False; [done|]. congruence.
Qed.

(** ** Properties *)

(** Snmp_oid_compare returns 0, -1 or 1 exactly when the first name is
    equal to, lexicographically before, or after the second. *)
Theorem snmp_oid_compare_order name1 len1 o1 name2 len2 o2 :
  stored name1 len1 o1 → stored name2 len2 o2 →
  ∃ r, snmp_oid_compare name1 len1 name2 len2 = Ok r ∧
    (r = 0 ↔ o1 = o2) ∧ (r = -1 ↔ oid_less o1 o2) ∧ (r = 1 ↔ oid_less o2 o1).
Proof.
  intros S1 S2. exists (oid_cmp o1 o2).
  split_and!; [by apply compare_stored|apply oid_cmp_eq|apply oid_cmp_less|].
  rewrite <- oid_cmp_less, (oid_cmp_antisym o1 o2). lia.
Qed.

Lemma snmp_oid_compare_order_witness :
  ∃ r, snmp_oid_compare [1; 3; 6; 1] 4 [1; 3; 0xFFFFFFFF; 9] 3 = Ok r ∧
    (r = 0 ↔ [1; 3; 6; 1] = [1; 3; 0xFFFFFFFF]) ∧
    (r = -1 ↔ oid_less [1; 3; 6; 1] [1; 3; 0xFFFFFFFF]) ∧
    (r = 1 ↔ oid_less [1; 3; 0xFFFFFFFF] [1; 3; 6; 1]).
Proof.
  apply snmp_oid_compare_order; [by exists []|by exists [9]].
Defined.

(** snmp_oid_ncompare compares the two names cut to [max_len]
    subidentifiers, and netsnmp_oid_compare_ll additionally reports the
    position after the common prefix. *)
Theorem snmp_oid_compare_variants name1 len1 o1 name2 len2 o2 max_len :
  stored name1 len1 o1 → stored name2 len2 o2 → 0 ≤ max_len < 2 ^ 31 →
  snmp_oid_ncompare name1 len1 name2 len2 max_len
  = Ok (oid_cmp (take (Z.to_nat max_len) o1) (take (Z.to_nat max_len) o2)) ∧
  netsnmp_oid_compare_ll name1 len1 name2 len2
  = Ok (oid_cmp o1 o2, Z.of_nat (common o1 o2) + 1).
Proof.
  intros S1 S2 Hm. pose proof (stored_min _ _ _ _ _ _ S1 S2) as [Hmin Hmin'].
  pose proof (common_le o1 o2) as Hc. split.
  - unfold snmp_oid_ncompare. rewrite Hmin'. clear Hmin Hmin'.
    destruct S1 as (r1 & -> & -> & Hl1), S2 as (r2 & -> & -> & Hl2).
    set (m := if max_len <? _ then _ else _).
    assert (m = Z.of_nat (Z.to_nat max_len `min` (length o1 `min` length o2))) as Hmm.
    { subst m. destruct (Z.ltb_spec max_len (Z.of_nat (length o1 `min` length o2))); lia. }
    clearbody m. unfold zlen in *. rewrite s32_id, Hmm, Nat2Z.id by lia.
    rewrite (compare_loop_spec _ o1 o2 [] [] r1 r2) by (simpl; lia). m_step.
    destruct (decide (common o1 o2 < _)%nat) as [Hlt|Hge].
    + rewrite oid_cmp_take by lia. done.
    + rewrite (oid_cmp_common (take _ o1)) by (rewrite common_take, !length_take; lia).
      unfold compare_lengths, zlen. rewrite !length_take.
      destruct (Z.eqb_spec (Z.of_nat (Z.to_nat max_len `min` (length o1 `min` length o2)))
                  max_len) as [He|He]; cbn [negb]; f_equal;
        repeat match goal with |- context [?x <? ?y] => destruct (Z.ltb_spec x y) end; lia.
  - unfold netsnmp_oid_compare_ll. rewrite Hmin.
    destruct S1 as (r1 & -> & -> & Hl1), S2 as (r2 & -> & -> & Hl2). unfold zlen in *.
    rewrite Nat2Z.id, compare_loop_whole by done. m_step.
    destruct (decide _); rewrite u32_id by lia; [do 2 f_equal; lia|].
    rewrite (oid_cmp_common o1 o2) by lia. unfold zlen. do 2 f_equal. lia.
Qed.

Lemma snmp_oid_compare_variants_witness :
  snmp_oid_ncompare [1; 3; 6; 1] 4 [1; 3; 6; 2] 4 3
  = Ok (oid_cmp (take (Z.to_nat 3) [1; 3; 6; 1]) (take (Z.to_nat 3) [1; 3; 6; 2])) ∧
  netsnmp_oid_compare_ll [1; 3; 6; 1] 4 [1; 3; 6; 2] 4
  = Ok (oid_cmp [1; 3; 6; 1] [1; 3; 6; 2],
        Z.of_nat (common [1; 3; 6; 1] [1; 3; 6; 2]) + 1).
Proof.
  apply snmp_oid_compare_variants; [by exists []|by exists []|lia].
Defined.

(** The three tests for "name2 lies in the subtree of name1"
    agree: snmp_oidsubtree_compare gives 0, netsnmp_oid_is_subtree gives 0, and
    name1 is a prefix of name2; netsnmp_oid_equals gives 0 exactly for equal
    names. *)
Theorem snmp_oid_subtree_tests name1 len1 o1 name2 len2 o2 :
  stored name1 len1 o1 → stored name2 len2 o2 →
  (snmp_oidsubtree_compare name1 len1 name2 len2 = Ok 0 ↔ o1 `prefix_of` o2) ∧
  (netsnmp_oid_is_subtree name1 len1 name2 len2 = Ok 0 ↔ o1 `prefix_of` o2) ∧
  (netsnmp_oid_equals name1 len1 name2 len2 = Ok 0 ↔ o1 = o2).
Proof.
  intros S1 S2. pose proof (stored_min _ _ _ _ _ _ S1 S2) as [Hmin Hmin'].
  split_and!.
  - unfold snmp_oidsubtree_compare. rewrite Hmin.
    pose proof S1 as (r1 & Hn1 & Hz1 & Hl1). pose proof S2 as (r2 & Hn2 & Hz2 & Hl2).
    unfold zlen in *. rewrite u32_id by lia.
    rewrite (compare_stored name1 len1 o1 name2 _
      (take (Z.to_nat (Z.of_nat (length o1 `min` length o2))) o2)) by
      (done || (apply (stored_take _ len2); [done|lia])).
    rewrite Nat2Z.id. split.
    + intros [= Heq%oid_cmp_eq]. rewrite Heq. apply prefix_take.
    + intros Hp. pose proof (prefix_length _ _ Hp). rewrite Nat.min_l by lia.
      destruct Hp as [k ->]. rewrite take_app_length. by rewrite oid_cmp_refl.
  - destruct S1 as (r1 & -> & -> & Hl1), S2 as (r2 & -> & -> & Hl2).
    unfold netsnmp_oid_is_subtree, zlen.
    destruct (Z.ltb_spec (Z.of_nat (length o2)) (Z.of_nat (length o1))) as [Hlt|Hge].
    { split; [done|]. intros Hp%prefix_length. lia. }
    rewrite Nat2Z.id, !rd_list_spec by (rewrite length_app; lia). m_step.
    rewrite !drop_0, take_app_length, take_app_le by lia.
    case_bool_decide as Heq; split; try done.
    + intros _. rewrite Heq. apply prefix_take.
    + intros [k ->]. by rewrite take_app_length in Heq.
  - rewrite (equals_stored _ _ _ _ _ _ S1 S2). destruct (decide _); naive_solver.
Qed.

Lemma snmp_oid_subtree_tests_witness :
  (snmp_oidsubtree_compare [1; 3; 6] 3 [1; 3; 6; 1] 4 = Ok 0
     ↔ [1; 3; 6] `prefix_of` [1; 3; 6; 1]) ∧
  (netsnmp_oid_is_subtree [1; 3; 6] 3 [1; 3; 6; 1] 4 = Ok 0
     ↔ [1; 3; 6] `prefix_of` [1; 3; 6; 1]) ∧
  (netsnmp_oid_equals [1; 3; 6] 3 [1; 3; 6; 1] 4 = Ok 0 ↔ [1; 3; 6] = [1; 3; 6; 1]).
Proof.
  apply snmp_oid_subtree_tests; by exists [].
Defined.

(** netsnmp_oid_find_prefix on non-empty names: 0 when they differ at
    once, the length of the shorter when it is a prefix of the other, and
    otherwise one more than the length of the common prefix. *)
Theorem netsnmp_oid_find_prefix_result name1 len1 o1 name2 len2 o2 :
  stored name1 len1 o1 → stored name2 len2 o2 → o1 ≠ [] → o2 ≠ [] →
  netsnmp_oid_find_prefix (Some name1) len1 (Some name2) len2
  = Ok (if decide (common o1 o2 = O) then 0
        else if decide (common o1 o2 = length o1 `min` length o2)%nat
        then Z.of_nat (common o1 o2)
        else Z.of_nat (common o1 o2) + 1).
Proof.
  intros S1 S2 Hn1 Hn2. pose proof (stored_min _ _ _ _ _ _ S1 S2) as [Hmin Hmin'].
  unfold netsnmp_oid_find_prefix. rewrite Hmin.
  destruct S1 as (r1 & -> & -> & Hl1), S2 as (r2 & -> & -> & Hl2).
  pose proof (prefix_loop_spec (length o1 `min` length o2) o1 o2 [] [] r1 r2
    eq_refl ltac:(lia) ltac:(lia)) as HL. simpl in HL.
  pose proof (common_le o1 o2) as Hc.
  destruct o1 as [|a o1]; [done|]. destruct o2 as [|b o2]; [done|].
  rewrite !zlen_cons in *. pose proof (zlen_nonneg o1). pose proof (zlen_nonneg o2).
  destruct (Z.eqb_spec (1 + zlen o1) 0); [lia|].
  destruct (Z.eqb_spec (1 + zlen o2) 0); [lia|]. m_step.
  change (rd ((a :: o1) ++ r1) 0) with (Ok a). change (rd ((b :: o2) ++ r2) 0) with (Ok b).
  m_step. destruct (Z.eqb_spec a b) as [->|Hne]; m_step.
  - rewrite Nat2Z.id. simpl app in *. rewrite HL. m_step. simpl common in *.
    rewrite Z.eqb_refl in *. simpl length in *. rewrite (decide_False (P := S _ = O)) by lia.
    destruct (decide (S (common o1 o2) < _)%nat).
    + rewrite decide_False by lia. do 2 f_equal.
    + rewrite decide_True by lia. f_equal. lia.
  - simpl. destruct (Z.eqb_spec a b); done.
Qed.

Lemma netsnmp_oid_find_prefix_result_witness :
  netsnmp_oid_find_prefix (Some [1; 3; 6; 1]) 4 (Some [1; 3; 7]) 3 = Ok 3.
Proof.
  apply (netsnmp_oid_find_prefix_result [1; 3; 6; 1] 4 [1; 3; 6; 1] [1; 3; 7] 3 [1; 3; 7]);
    [by exists []|by exists []|done|done].
Defined.
