(* ===== verification/VarBind.v ===== *)
(** * Variable bindings: snmp_parse_var_op, snmp_build_var_op and
    snmp_realloc_rbuild_var_op of snmplib/snmp.c

    A variable's value is the object [var_val] points to, given as its bytes;
    the [switch] on [var_val_type] reads it through a cast pointer.  The host
    is little-endian. *)

From S2P Require Import Prelude Ber Asn1 Asn1Int Asn1Str Asn1Oid Asn1Int64 Asn1Float.
From S2P Require Import Asn1Rbuild.
From stdpp Require Import prelude numbers list.
From Stdlib Require Import ZArith Lia.
Open Scope Z_scope.

Definition SNMP_NOSUCHOBJECT : Z := Z.lor ASN_CONTEXT 0x0.
Definition SNMP_NOSUCHINSTANCE : Z := Z.lor ASN_CONTEXT 0x1.
Definition SNMP_ENDOFMIBVIEW : Z := Z.lor ASN_CONTEXT 0x2.

(** ** Reading the value object *)

Definition obj32 (obj : list Z) (i : nat) : M Z :=
  l ← rd_list obj i 4; Ok (load32 l).

(** [*(long * ) var_val] and [*(u_long * ) var_val] *)
Definition var_long (obj : list Z) : M Z := w ← obj32 obj 0; Ok (s32 w).
Definition var_ulong (obj : list Z) : M Z := obj32 obj 0.

(** [*(struct counter64 * ) var_val]: [high] comes first. *)
Definition var_counter64 (obj : list Z) : M counter64 :=
  high ← obj32 obj 0; low ← obj32 obj 4; Ok (Counter64 high low).

Definition var_float (obj : list Z) : M Z := obj32 obj 0.
Definition var_double (obj : list Z) : M Z :=
  low ← obj32 obj 0; high ← obj32 obj 4; Ok (high * 2 ^ 32 + low).

(** [(oid * ) var_val]: the complete words of the object. *)
Fixpoint var_oids (obj : list Z) : list Z :=
  match obj with
  | a :: b :: c :: d :: obj => load32 [a; b; c; d] :: var_oids obj
  | _ => []
  end.

(** The labels of a [case]. *)
Definition tag_in (t : Z) (tags : list Z) : bool := existsb (Z.eqb t) tags.

(** [e] when the size is the expected one; the callee's size test comes before
    its first use of the pointer. *)
Definition if_size {A} (size expected : Z) (e : M A) : M A :=
  if size =? expected then e else Err.

(** The [switch] of [snmp_build_var_op]; [None] is a [NULL] [var_val]. *)
Definition build_value (buf : list Z) (data : nat) (listlength var_val_type var_val_len : Z)
    (var_val : option (list Z)) : M (list Z * nat * Z) :=
  let obj := default [] var_val in
  if tag_in var_val_type [ASN_INTEGER] then
    if_size var_val_len SIZEOF_LONG
      (i ← var_long obj; asn_build_int buf data listlength var_val_type i var_val_len)
  else if tag_in var_val_type [ASN_GAUGE; ASN_COUNTER; ASN_TIMETICKS; ASN_UINTEGER] then
    if_size var_val_len SIZEOF_LONG
      (i ← var_ulong obj;
       asn_build_unsigned_int buf data listlength var_val_type i var_val_len)
  else if tag_in var_val_type [ASN_OPAQUE_COUNTER64; ASN_OPAQUE_U64; ASN_COUNTER64] then
    if_size var_val_len SIZEOF_COUNTER64
      (c ← var_counter64 obj;
       asn_build_unsigned_int64 buf data listlength var_val_type c var_val_len)
  else if tag_in var_val_type [ASN_OCTET_STR; ASN_IPADDRESS; ASN_OPAQUE; ASN_NSAP] then
    asn_build_string buf data listlength var_val_type var_val var_val_len
  else if tag_in var_val_type [ASN_OBJECT_ID] then
    asn_build_objid buf data listlength var_val_type (var_oids obj) (var_val_len / 4)
  else if tag_in var_val_type [ASN_NULL] then
    asn_build_null buf data listlength var_val_type
  else if tag_in var_val_type [ASN_BIT_STR] then
    asn_build_bitstring buf data listlength var_val_type var_val var_val_len
  else if tag_in var_val_type
            [SNMP_NOSUCHOBJECT; SNMP_NOSUCHINSTANCE; SNMP_ENDOFMIBVIEW] then
    asn_build_null buf data listlength var_val_type
  else if tag_in var_val_type [ASN_OPAQUE_FLOAT] then
    if_size var_val_len SIZEOF_FLOAT
      (f ← var_float obj; asn_build_float buf data listlength var_val_type f var_val_len)
  else if tag_in var_val_type [ASN_OPAQUE_DOUBLE] then
    if_size var_val_len SIZEOF_DOUBLE
      (d ← var_double obj; asn_build_double buf data listlength var_val_type d var_val_len)
  else if tag_in var_val_type [ASN_OPAQUE_I64] then
    if_size var_val_len SIZEOF_COUNTER64
      (c ← var_counter64 obj;
       asn_build_signed_int64 buf data listlength var_val_type c var_val_len)
  else Err.

(** The result of the closing [asn_build_sequence] is not used: on a [NULL] the
    header is simply not written. *)
Definition snmp_build_var_op (buf : list Z) (data : nat) (var_name : list Z)
    (var_name_len var_val_type var_val_len : Z) (var_val : option (list Z))
    (listlength : Z) : M (list Z * nat * Z) :=
  let dataPtr := data in
  if listlength <? 4 then Err
  else
    let data := (data + 4)%nat in
    let headerLen := 4 in
    let listlength := u32 (listlength - headerLen) in
    '(buf, data, listlength) ←
      asn_build_objid buf data listlength ASN_OBJECT_ID var_name var_name_len;
    '(buf, data, listlength) ←
      build_value buf data listlength var_val_type var_val_len var_val;
    let dummyLen := u32 (Z.of_nat data - Z.of_nat dataPtr - headerLen) in
    match asn_build_sequence buf dataPtr dummyLen
            (Z.lor ASN_SEQUENCE ASN_CONSTRUCTOR) dummyLen with
    | Ok (buf, _, _) => Ok (buf, data, listlength)
    | Err => Ok (buf, data, listlength)
    | UB => UB
    end.

Section Rbuild.
Context {alloc : Allocator}.

(** The [switch] of [snmp_realloc_rbuild_var_op].  The integer encoders read
    the value before they test its size, the floating point ones after. *)
Definition rbuild_value (r : bool) (var_val_type : Z) (obj : list Z) (var_val_len : Z)
    (st : rstate) : M rstate :=
  if tag_in var_val_type [ASN_INTEGER] then
    i ← var_long obj; asn_realloc_rbuild_int r var_val_type i var_val_len st
  else if tag_in var_val_type [ASN_GAUGE; ASN_COUNTER; ASN_TIMETICKS; ASN_UINTEGER] then
    i ← var_ulong obj; asn_realloc_rbuild_unsigned_int r var_val_type i var_val_len st
  else if tag_in var_val_type [ASN_OPAQUE_COUNTER64; ASN_OPAQUE_U64; ASN_COUNTER64] then
    c ← var_counter64 obj;
    asn_realloc_rbuild_unsigned_int64 r var_val_type c var_val_len st
  else if tag_in var_val_type [ASN_OCTET_STR; ASN_IPADDRESS; ASN_OPAQUE; ASN_NSAP] then
    asn_realloc_rbuild_string r var_val_type obj var_val_len st
  else if tag_in var_val_type [ASN_OBJECT_ID] then
    asn_realloc_rbuild_objid r var_val_type (var_oids obj) (var_val_len / 4) st
  else if tag_in var_val_type [ASN_NULL] then
    asn_realloc_rbuild_null r var_val_type st
  else if tag_in var_val_type [ASN_BIT_STR] then
    asn_realloc_rbuild_bitstring r var_val_type obj var_val_len st
  else if tag_in var_val_type
            [SNMP_NOSUCHOBJECT; SNMP_NOSUCHINSTANCE; SNMP_ENDOFMIBVIEW] then
    asn_realloc_rbuild_null r var_val_type st
  else if tag_in var_val_type [ASN_OPAQUE_FLOAT] then
    if_size var_val_len SIZEOF_FLOAT
      (f ← var_float obj; asn_realloc_rbuild_float r var_val_type f var_val_len st)
  else if tag_in var_val_type [ASN_OPAQUE_DOUBLE] then
    if_size var_val_len SIZEOF_DOUBLE
      (d ← var_double obj; asn_realloc_rbuild_double r var_val_type d var_val_len st)
  else if tag_in var_val_type [ASN_OPAQUE_I64] then
    c ← var_counter64 obj;
    asn_realloc_rbuild_signed_int64 r var_val_type c var_val_len st
  else Err.

Definition snmp_realloc_rbuild_var_op (r : bool) (var_name : list Z)
    (var_name_len var_val_type : Z) (var_val : list Z) (var_val_len : Z) (st : rstate)
    : M rstate :=
  let start_offset := offset st in
  st ← rbuild_value r var_val_type var_val var_val_len st;
  st ← asn_realloc_rbuild_objid r ASN_OBJECT_ID var_name var_name_len st;
  asn_realloc_rbuild_sequence r (Z.lor ASN_SEQUENCE ASN_CONSTRUCTOR)
    (since start_offset st) st.
End Rbuild.

(** What [snmp_parse_var_op] stores through its pointers. *)
Record var_op := VarOp {
  vo_name : list Z;
  vo_name_len : Z;
  vo_type : Z;
  vo_val : nat;
  vo_val_len : Z;
}.

(** Results: the next binding, [*listlength] and the outputs. *)
Definition snmp_parse_var_op (buf : list Z) (data : nat) (var_name : list Z)
    (var_name_len listlength : Z) : M (nat * Z * var_op) :=
  let var_op_start := data in
  '(data, var_op_len, _) ←
    asn_parse_sequence buf (Some data) listlength (Z.lor ASN_SEQUENCE ASN_CONSTRUCTOR);
  '(data, var_op_len, var_op_type, (var_name, var_name_len)) ←
    asn_parse_objid buf data var_op_len var_name var_name_len;
  if negb (var_op_type =? ASN_OBJECT_ID) then Err
  else
    let var_val := data in
    '(data, var_op_len, var_val_type) ← asn_parse_header buf (Some data) var_op_len;
    let data := (data + Z.to_nat var_op_len)%nat in
    let listlength := u32 (listlength - (Z.of_nat data - Z.of_nat var_op_start)) in
    Ok (data, listlength, VarOp var_name var_name_len var_val_type var_val var_op_len).

(** ** Values and their reference encoding *)

Inductive value :=
| VInteger (z : Z)
| VUnsigned (t z : Z)
| VCounter64 (t z : Z)
| VString (t : Z) (s : list Z)
| VObjid (o : list Z)
| VNull (t : Z)
| VBits (s : list Z)
| VFloat (bits : Z)
| VDouble (bits : Z)
| VI64 (z : Z).

Definition value_type (v : value) : Z :=
  match v with
  | VInteger _ => ASN_INTEGER
  | VUnsigned t _ | VCounter64 t _ | VString t _ | VNull t => t
  | VObjid _ => ASN_OBJECT_ID
  | VBits _ => ASN_BIT_STR
  | VFloat _ => ASN_OPAQUE_FLOAT
  | VDouble _ => ASN_OPAQUE_DOUBLE
  | VI64 _ => ASN_OPAQUE_I64
  end.

(** The bytes of the object that holds the value. *)
Definition value_obj (v : value) : list Z :=
  match v with
  | VInteger z | VUnsigned _ z | VFloat z => store32 z
  | VCounter64 _ z | VI64 z => store32 (z / 2 ^ 32) ++ store32 z
  | VDouble z => store32 z ++ store32 (z / 2 ^ 32)
  | VString _ s | VBits s => s
  | VObjid o => concat (store32 <$> o)
  | VNull _ => []
  end.

Definition value_ok (v : value) : Prop :=
  match v with
  | VInteger z => - 2 ^ 31 ≤ z < 2 ^ 31
  | VUnsigned t z =>
      t ∈ [ASN_GAUGE; ASN_COUNTER; ASN_TIMETICKS; ASN_UINTEGER] ∧ 0 ≤ z < 2 ^ 32
  | VCounter64 t z =>
      t ∈ [ASN_OPAQUE_COUNTER64; ASN_OPAQUE_U64; ASN_COUNTER64] ∧ 0 ≤ z < 2 ^ 64
  | VString t s =>
      t ∈ [ASN_OCTET_STR; ASN_IPADDRESS; ASN_OPAQUE; ASN_NSAP] ∧ zlen s < 2 ^ 16
  | VObjid o => oid_encodable o
  | VNull t =>
      t ∈ [ASN_NULL; SNMP_NOSUCHOBJECT; SNMP_NOSUCHINSTANCE; SNMP_ENDOFMIBVIEW]
  | VBits s => 1 ≤ zlen s < 2 ^ 16
  | VFloat bits => 0 ≤ bits < 2 ^ 32
  | VDouble bits => 0 ≤ bits < 2 ^ 64
  | VI64 z => - 2 ^ 63 ≤ z < 2 ^ 63
  end.

Definition ber_value (v : value) : list Z :=
  match v with
  | VInteger z => ber_int ASN_INTEGER z
  | VUnsigned t z => ber_int t z
  | VCounter64 t z => ber_c64 t z
  | VString t s => ber_string t s
  | VObjid o => ber_oid ASN_OBJECT_ID o
  | VNull t => ber_null t
  | VBits s => ber_string ASN_BIT_STR s
  | VFloat bits => ber_opaque ASN_OPAQUE_FLOAT (be_bytes 4 bits)
  | VDouble bits => ber_opaque ASN_OPAQUE_DOUBLE (be_bytes 8 bits)
  | VI64 z => ber_opaque ASN_OPAQUE_I64 (int_contents z)
  end.

(** Contents of the binding's SEQUENCE. *)
Definition var_op_contents (name : list Z) (v : value) : list Z :=
  ber_oid ASN_OBJECT_ID name ++ ber_value v.

Definition var_op_tag : Z := Z.lor ASN_SEQUENCE ASN_CONSTRUCTOR.

(** The forward encoder always uses the three-octet length form. *)
Definition var_op_long (name : list Z) (v : value) : list Z :=
  (var_op_tag :: 0x82 :: be_bytes 2 (zlen (var_op_contents name v)))
  ++ var_op_contents name v.

Definition ber_var_op (name : list Z) (v : value) : list Z :=
  ber_tlv var_op_tag (var_op_contents name v).

(** Evaluate the tests of the [switch] on known tags. *)
Ltac eval_tags :=
  repeat match goal with
  | |- context [tag_in ?a ?b] =>
      let x := eval vm_compute in (tag_in a b) in change (tag_in a b) with x
  end; cbv iota zeta.

(** One case per tag of the list. *)
Ltac case_tags H :=
  repeat (apply elem_of_cons in H as [->|H]); [..|by apply elem_of_nil in H].

(** *** The object gives back the value *)

Lemma length_store32 w : length (store32 w) = 4%nat.
Proof. unfold store32. by rewrite length_rev, length_be_bytes. Qed.

Lemma load32_store32 w : load32 (store32 w) = u32 w.
Proof.
  unfold load32, store32. rewrite rev_involutive, be_val_be_bytes. done.
Qed.

Lemma obj32_app pre w post : obj32 (pre ++ store32 w ++ post) (length pre) = Ok (u32 w).
Proof.
  unfold obj32. rewrite <- (length_store32 w), rd_list_app. m_step.
  by rewrite load32_store32.
Qed.

Lemma obj32_head w post : obj32 (store32 w ++ post) 0 = Ok (u32 w).
Proof. apply (obj32_app [] w post). Qed.

Lemma obj32_single w : obj32 (store32 w) 0 = Ok (u32 w).
Proof. pose proof (obj32_head w []) as Hr. by rewrite app_nil_r in Hr. Qed.

Lemma var_counter64_obj z : var_counter64 (store32 (z / 2 ^ 32) ++ store32 z) = Ok (c64_of z).
Proof.
  unfold var_counter64. rewrite obj32_head. m_step.
  pose proof (obj32_app (store32 (z / 2 ^ 32)) z []) as Hr.
  rewrite app_nil_r, length_store32 in Hr. rewrite Hr. done.
Qed.

Lemma var_double_obj z : 0 ≤ z < 2 ^ 64 → var_double (store32 z ++ store32 (z / 2 ^ 32)) = Ok z.
Proof.
  intros Hz. unfold var_double. rewrite obj32_head. m_step.
  pose proof (obj32_app (store32 z) (z / 2 ^ 32) []) as Hr.
  rewrite app_nil_r, length_store32 in Hr. rewrite Hr. m_step.
  f_equal. unfold u32. Z.div_mod_to_equations; lia.
Qed.

Lemma var_oids_obj o : Forall is_u32 o → var_oids (concat (store32 <$> o)) = o.
Proof.
  induction 1 as [|w o Hw Ho IH]; [done|]. cbn [fmap list_fmap concat].
  pose proof (load32_store32 w) as Hl. pose proof (length_store32 w) as Hlen.
  destruct (store32 w) as [|a [|b [|c [|d [|? ?]]]]]; try done.
  cbn [app var_oids]. rewrite IH, Hl, (u32_id w) by done. done.
Qed.

Lemma zlen_oids_obj o : zlen (concat (store32 <$> o)) = 4 * zlen o.
Proof.
  induction o as [|w o IH]; [done|]. cbn [fmap list_fmap concat].
  rewrite zlen_app, zlen_cons, IH. unfold zlen. rewrite length_store32. lia.
Qed.

Lemma oid_encodable_u32 o : oid_encodable o → Forall is_u32 o.
Proof.
  destruct o as [|x [|y rest]]; [done..|]. intros (? & ? & ? & ? & ? & ?).
  repeat constructor; unfold is_u32 in *; done || lia.
Qed.

(** ** Encoding a value *)

Lemma build_value_encodes v :
  value_ok v →
  Encodes (λ buf data dl, build_value buf data dl (value_type v)
             (zlen (value_obj v)) (Some (value_obj v)))
    (ber_value v).
Proof.
  intros Hv buf data dl Hd Hb. unfold build_value. cbv zeta.
  destruct v; cbn [value_type value_obj value_ok ber_value default from_option id] in *.
  - eval_tags. unfold if_size, var_long, zlen. rewrite length_store32, obj32_single.
    m_step. change (Z.of_nat 4) with SIZEOF_LONG. rewrite Z.eqb_refl, s32_u32, s32_id by done.
    by apply asn_build_int_encodes.
  - destruct Hv as [Ht Hz]. unfold if_size, var_ulong, zlen.
    rewrite length_store32, obj32_single, u32_id by done. m_step.
    change (Z.of_nat 4) with SIZEOF_LONG. rewrite Z.eqb_refl.
    case_tags Ht; eval_tags; by apply asn_build_unsigned_int_encodes.
  - destruct Hv as [Ht Hz]. unfold if_size.
    rewrite var_counter64_obj. unfold zlen. rewrite length_app, !length_store32. m_step.
    change (Z.of_nat (4 + 4)) with SIZEOF_COUNTER64. rewrite Z.eqb_refl.
    case_tags Ht; eval_tags; by apply asn_build_unsigned_int64_encodes.
  - destruct Hv as [Ht Hz]. pose proof (asn_build_string_encodes t s [] Hz) as Hs.
    rewrite app_nil_r in Hs. case_tags Ht; eval_tags; by apply Hs.
  - eval_tags. rewrite var_oids_obj, zlen_oids_obj by by apply oid_encodable_u32.
    rewrite Z.mul_comm, Z.div_mul by lia.
    pose proof (asn_build_objid_encodes ASN_OBJECT_ID o [] Hv) as Ho.
    rewrite app_nil_r in Ho. by apply Ho.
  - case_tags Hv; eval_tags; by apply asn_build_null_encodes.
  - eval_tags. pose proof (asn_build_bitstring_encodes ASN_BIT_STR s [] Hv) as Hs.
    rewrite app_nil_r in Hs. by apply Hs.
  - eval_tags. unfold if_size, var_float, zlen. rewrite length_store32, obj32_single.
    m_step. change (Z.of_nat 4) with SIZEOF_FLOAT. rewrite Z.eqb_refl, u32_id by done.
    by apply asn_build_float_encodes.
  - eval_tags. unfold if_size. rewrite var_double_obj by done. unfold zlen.
    rewrite length_app, !length_store32. m_step.
    change (Z.of_nat (4 + 4)) with SIZEOF_DOUBLE. rewrite Z.eqb_refl.
    by apply asn_build_double_encodes.
  - eval_tags. unfold if_size. rewrite var_counter64_obj. unfold zlen.
    rewrite length_app, !length_store32. m_step.
    change (Z.of_nat (4 + 4)) with SIZEOF_COUNTER64. rewrite Z.eqb_refl.
    by apply asn_build_signed_int64_encodes.
Qed.

Lemma c64_of_value z : 0 ≤ z < 2 ^ 64 → c64_u (c64_of z) = z.
Proof. intros. rewrite c64_u_of. by apply Z.mod_small. Qed.

Lemma c64_of_signed z : - 2 ^ 63 ≤ z < 2 ^ 63 → c64_s (c64_of z) = z.
Proof.
  intros. unfold c64_s. rewrite c64_u_of. unfold c64_of. cbn [c_high].
  destruct (Z.ltb_spec (z / 2 ^ 32 mod 2 ^ 32) (2 ^ 31)); Z.div_mod_to_equations; lia.
Qed.

Lemma rbuild_value_rspec `{Allocator} r v :
  value_ok v →
  rspec r (rbuild_value r (value_type v) (value_obj v) (zlen (value_obj v))) (ber_value v).
Proof.
  intros Hv st Hwf. unfold rbuild_value.
  destruct v; cbn [value_type value_obj value_ok ber_value] in *.
  - eval_tags. unfold var_long, zlen. rewrite length_store32, obj32_single.
    m_step. rewrite s32_u32, s32_id by done. by apply rbuild_int_rspec.
  - destruct Hv as [Ht Hz]. unfold var_ulong, zlen.
    rewrite length_store32, obj32_single, u32_id by done. m_step.
    case_tags Ht; eval_tags; by apply rbuild_unsigned_int_rspec.
  - destruct Hv as [Ht Hz].
    rewrite var_counter64_obj. unfold zlen. rewrite length_app, !length_store32. m_step.
    assert (rspec r (asn_realloc_rbuild_unsigned_int64 r t (c64_of z) SIZEOF_COUNTER64)
              (ber_c64 t z)) as Hr.
    { rewrite <- (c64_of_value z Hz) at 2. apply rbuild_unsigned_int64_rspec, is_c64_of. }
    case_tags Ht; eval_tags; by apply Hr.
  - destruct Hv as [Ht Hz]. case_tags Ht; eval_tags; by apply rbuild_string_rspec.
  - eval_tags. rewrite var_oids_obj, zlen_oids_obj by by apply oid_encodable_u32.
    rewrite Z.mul_comm, Z.div_mul by lia. by apply rbuild_objid_rspec.
  - case_tags Hv; eval_tags; by apply rbuild_null_rspec.
  - eval_tags. by apply rbuild_bitstring_rspec.
  - eval_tags. unfold if_size, var_float, zlen. rewrite length_store32, obj32_single.
    m_step. change (Z.of_nat 4) with SIZEOF_FLOAT. rewrite Z.eqb_refl, u32_id by done.
    by apply rbuild_float_rspec.
  - eval_tags. unfold if_size. rewrite var_double_obj by done. unfold zlen.
    rewrite length_app, !length_store32. m_step.
    change (Z.of_nat (4 + 4)) with SIZEOF_DOUBLE. rewrite Z.eqb_refl.
    by apply rbuild_double_rspec.
  - eval_tags. rewrite var_counter64_obj. unfold zlen.
    rewrite length_app, !length_store32. m_step.
    pose proof (rbuild_signed_int64_rspec r ASN_OPAQUE_I64 (c64_of z) (is_c64_of z)) as Hr.
    rewrite c64_of_signed in Hr by done. by apply Hr.
Qed.

(** ** Encoding a binding *)

Lemma rbuild_var_op_rspec `{Allocator} r name v :
  oid_encodable name → value_ok v →
  rspec r (snmp_realloc_rbuild_var_op r name (zlen name) (value_type v) (value_obj v)
             (zlen (value_obj v)))
    (ber_var_op name v).
Proof.
  intros Hn Hv. unfold ber_var_op. rewrite ber_tlv_cons.
  eapply rspec_ext; [|apply (rspec_then r
    (λ st, st ← rbuild_value r (value_type v) (value_obj v) (zlen (value_obj v)) st;
           asn_realloc_rbuild_objid r ASN_OBJECT_ID name (zlen name) st)
    (λ st st1, asn_realloc_rbuild_sequence r var_op_tag (since (offset st) st1) st1))].
  - intros st _. unfold snmp_realloc_rbuild_var_op. by rewrite M_bind_assoc.
  - apply rspec_seq; [by apply rbuild_value_rspec|by apply rbuild_objid_rspec].
  - intros st st1 Hwf HP. pose proof (rpost_zlen _ _ _ _ HP) as [Hz Hz'].
    destruct HP as (Hwf1 & _ & Ho1 & _). unfold since.
    fold (var_op_contents name v) in *.
    replace (Z.of_nat (offset st1) - Z.of_nat (offset st)) with
      (zlen (var_op_contents name v)) by (unfold zlen; lia).
    apply rbuild_sequence_rspec; [lia|done].
Qed.

Lemma zlen_tlv_ge_2 tag c : 2 ≤ zlen (ber_tlv tag c).
Proof.
  rewrite zlen_ber_tlv, zlen_ber_length. pose proof (zlen_nonneg c).
  destruct (_ <? _); lia.
Qed.

Lemma zlen_var_op_contents name v : 4 ≤ zlen (var_op_contents name v).
Proof.
  unfold var_op_contents. rewrite zlen_app.
  assert (2 ≤ zlen (ber_oid ASN_OBJECT_ID name)) by apply zlen_tlv_ge_2.
  assert (2 ≤ zlen (ber_value v)); [|lia].
  destruct v; cbn [ber_value]; try apply zlen_tlv_ge_2.
  unfold ber_c64. destruct (_ || _); apply zlen_tlv_ge_2.
Qed.

Lemma snmp_build_var_op_encodes name v rest :
  oid_encodable name → value_ok v → zlen (var_op_contents name v) < 2 ^ 16 →
  Encodes (λ buf data dl, snmp_build_var_op buf data (name ++ rest) (zlen name)
             (value_type v) (zlen (value_obj v)) (Some (value_obj v)) dl)
    (var_op_long name v).
Proof.
  intros Hn Hv Hl buf data dl Hd Hb. pose proof (zlen_var_op_contents name v) as H4.
  unfold snmp_build_var_op, var_op_long.
  set (h := var_op_tag :: 0x82 :: be_bytes 2 (zlen (var_op_contents name v))).
  assert (zlen h = 4 ∧ length h = 4%nat) as [Hh Hh']
    by (split; [|subst h; simpl; done]; subst h; rewrite !zlen_cons, zlen_be_bytes; lia).
  destruct (Z.ltb_spec dl 4) as [Hlt|Hge].
  { rewrite put_small; [done|]. rewrite zlen_app. lia. }
  rewrite u32_id by lia.
  pose proof (Encodes_seq _ _ _ _ (asn_build_objid_encodes ASN_OBJECT_ID name rest Hn)
    (build_value_encodes v Hv) buf (data + 4)%nat (dl - 4) ltac:(lia) ltac:(lia)) as Hseq.
  cbn beta in Hseq. fold (var_op_contents name v) in Hseq. set (c := var_op_contents name v) in *.
  set (m := asn_build_objid _ _ _ _ _ _) in *.
  assert (∀ B (g : list Z * nat * Z → M B),
    m ≫= (λ '(buf, data, ll), build_value buf data ll (value_type v)
       (zlen (value_obj v)) (Some (value_obj v)) ≫= g)
    = put c buf (data + 4) (dl - 4) ≫= g) as Hput.
  { intros B g. rewrite <- Hseq, M_bind_assoc. by destruct m as [[[? ?] ?]| |]. }
  rewrite Hput. destruct (Z.lt_ge_cases (dl - 4) (zlen c)) as [Hs|Hs].
  { rewrite !put_small; [done|rewrite zlen_app; lia|done]. }
  destruct (put_ok c buf (data + 4) (dl - 4) Hs ltac:(lia)) as (buf' & -> & Hw & Hlen).
  m_step. unfold zlen in Hs.
  replace (Z.of_nat (data + 4 + length c) - Z.of_nat data - 4) with (zlen c)
    by (unfold zlen; lia).
  rewrite u32_id by lia.
  pose proof (asn_build_sequence_encodes var_op_tag (zlen c) ltac:(lia) buf' data (zlen c)
    ltac:(lia) ltac:(rewrite Z_to_nat_zlen; lia)) as Hsq.
  change (Z.lor ASN_SEQUENCE ASN_CONSTRUCTOR) with var_op_tag.
  cbn beta in Hsq. rewrite Hsq. fold h.
  destruct (put_ok h buf' data (zlen c)) as (buf'' & -> & Hw' & _);
    [lia|rewrite Z_to_nat_zlen; lia|].
  unfold put. rewrite zlen_app.
  destruct (Z.ltb_spec dl (zlen h + zlen c)); [unfold zlen in *; lia|].
  rewrite <- Hh' in Hw. rewrite <- (wr_list_swap buf data h c buf') by (done || lia).
  rewrite Hw'. m_step. rewrite length_app, Hh', Hh. do 2 f_equal; [f_equal|]; lia.
Qed.

(** ** Decoding a binding *)

(** The two length forms the encoders use for the SEQUENCE. *)
Definition length_form (n : Z) (h : list Z) : Prop :=
  h = ber_length n ∨ (h = 0x82 :: be_bytes 2 n ∧ n < 2 ^ 16).

Lemma parse_seq_length n h pre post :
  0 ≤ n < 2 ^ 31 → length_form n h →
  asn_parse_length (pre ++ h ++ post) (Some (length pre))
  = Ok (Some (length pre + length h)%nat, Some n) ∧ 1 ≤ zlen h ≤ 5.
Proof.
  intros Hn [->|[-> Hn']].
  - split; [by apply asn_parse_length_ber|]. rewrite zlen_ber_length.
    destruct (length_size_spec n); [lia|]. destruct (n <? 128); lia.
  - change (0x82 :: be_bytes 2 n) with (128 + Z.of_nat 2 :: be_bytes 2 n).
    split; [|rewrite zlen_cons, zlen_be_bytes; lia].
    rewrite asn_parse_length_long by (done || lia). done.
Qed.

Lemma parse_form_header tag n h pre post dl :
  0 ≤ n < 2 ^ 31 → length_form n h → 1 + zlen h + n ≤ dl < 2 ^ 32 →
  IS_EXTENSION_ID tag = false → tag ≠ ASN_OPAQUE →
  asn_parse_header (pre ++ (tag :: h) ++ post) (Some (length pre)) dl
  = Ok (length (pre ++ tag :: h), n, tag).
Proof.
  intros Hn Hh Hd He Ho. unfold asn_parse_header. cbn [app].
  rewrite rd_app_l. m_step. rewrite He.
  destruct (parse_seq_length n h (pre ++ [tag]) post Hn Hh) as [Hp Hz].
  rewrite <- app_assoc, length_app in Hp. cbn [app length] in Hp.
  unfold parse_length_checked. rewrite Hp. m_step. unfold zlen in *.
  rewrite _asn_parse_length_check_ok by (cbn [default from_option id]; lia).
  m_step. destruct (Z.eqb_spec tag ASN_OPAQUE); [done|].
  rewrite length_app. cbn [length default from_option id]. do 3 f_equal. lia.
Qed.

Lemma parse_seq_header n h pre post dl :
  0 ≤ n < 2 ^ 31 → length_form n h → 1 + zlen h + n ≤ dl < 2 ^ 32 →
  asn_parse_sequence (pre ++ (var_op_tag :: h) ++ post) (Some (length pre)) dl var_op_tag
  = Ok (length (pre ++ var_op_tag :: h), n, var_op_tag).
Proof.
  intros Hn Hh Hd. unfold asn_parse_sequence. rewrite (parse_form_header _ n) by done.
  m_step. by rewrite Z.eqb_refl.
Qed.

(** The octets of the value proper, in front of which is a header. *)
Definition value_contents (v : value) : list Z :=
  match v with
  | VInteger z | VUnsigned _ z | VCounter64 _ z | VI64 z => int_contents z
  | VString _ s | VBits s => s
  | VObjid o => oid_contents o
  | VNull _ => []
  | VFloat bits => be_bytes 4 bits
  | VDouble bits => be_bytes 8 bits
  end.

(** A plain Opaque is told from a special one by its first octet. *)
Definition value_plain (v : value) : Prop :=
  match v with
  | VString t s => t = ASN_OPAQUE → ∃ b s', s = b :: s' ∧ b ≠ ASN_OPAQUE_TAG1
  | _ => True
  end.

Lemma parse_header_tlv tag c pre post dl :
  zlen c < 2 ^ 31 → zlen (ber_tlv tag c) ≤ dl < 2 ^ 32 → IS_EXTENSION_ID tag = false →
  (tag = ASN_OPAQUE → ∃ b c', c = b :: c' ∧ b ≠ ASN_OPAQUE_TAG1) →
  ∃ q, asn_parse_header (pre ++ ber_tlv tag c ++ post) (Some (length pre)) dl
       = Ok (q, zlen c, tag) ∧
       (q + length c = length pre + length (ber_tlv tag c))%nat.
Proof.
  intros Hc Hd He Ho. unfold asn_parse_header.
  destruct (open_tlv tag c pre post dl Hc Hd) as [-> Hl]. m_step. rewrite He, Hl. m_step.
  exists (length (pre ++ tlv_head tag c)).
  rewrite length_ber_tlv, length_app. split; [|lia].
  destruct (Z.eqb_spec tag ASN_OPAQUE) as [->|]; [|done].
  destruct (Ho eq_refl) as (b & c' & -> & Hb).
  rewrite ber_tlv_split. cbn [app]. rewrite <- length_app, rd_app_l. m_step.
  by destruct (Z.eqb_spec b ASN_OPAQUE_TAG1).
Qed.

Lemma parse_header_opaque special c pre post dl :
  zlen c ≤ 100 → zlen (ber_opaque special c) ≤ dl < 2 ^ 32 →
  is_opaque_special special = true →
  ∃ q, asn_parse_header (pre ++ ber_opaque special c ++ post) (Some (length pre)) dl
       = Ok (q, zlen c, special) ∧
       (q + length c = length pre + length (ber_opaque special c))%nat.
Proof.
  intros Hc Hd Hs. unfold asn_parse_header.
  destruct (open_opaque special c pre post dl Hc Hd)
    as (-> & Hl & Ht1 & Ht2 & Hl2 & _ & Hq & _).
  m_step. change (IS_EXTENSION_ID ASN_OPAQUE) with false. cbv iota. rewrite Hl. m_step.
  rewrite Z.eqb_refl, Ht1. m_step. rewrite Z.eqb_refl, Ht2. m_step. rewrite Hs, Hl2. m_step.
  eexists. by split.
Qed.

Lemma zlen_int_contents_le z : zlen (int_contents z) ≤ 9.
Proof. unfold zlen. rewrite length_int_contents. pose proof (int_size_bounds z). lia. Qed.

Lemma parse_header_value v pre post dl :
  value_ok v → value_plain v → zlen (ber_value v) ≤ dl < 2 ^ 32 →
  ∃ q, asn_parse_header (pre ++ ber_value v ++ post) (Some (length pre)) dl
       = Ok (q, zlen (value_contents v), value_type v) ∧
       (q + length (value_contents v) = length pre + length (ber_value v))%nat.
Proof.
  intros Hv Hp Hd.
  destruct v; cbn [value_type value_ok value_plain ber_value value_contents] in *.
  - pose proof (zlen_int_contents_le z). apply parse_header_tlv; done || lia.
  - pose proof (zlen_int_contents_le z). destruct Hv as [Ht _].
    case_tags Ht; apply parse_header_tlv; done || lia.
  - pose proof (zlen_int_contents_le z). destruct Hv as [Ht _].
    case_tags Ht; [apply parse_header_opaque; done || lia..|].
    apply parse_header_tlv; done || lia.
  - destruct Hv as [Ht Hs]. case_tags Ht; apply parse_header_tlv; done || lia || auto.
  - pose proof (oid_encodable_subids o Hv) as [_ Hl].
    apply parse_header_tlv; done || lia.
  - case_tags Hv; apply parse_header_tlv; done || lia.
  - apply parse_header_tlv; done || lia.
  - apply parse_header_opaque; rewrite ?zlen_be_bytes; done || lia.
  - apply parse_header_opaque; rewrite ?zlen_be_bytes; done || lia.
  - pose proof (zlen_int_contents_le z). apply parse_header_opaque; done || lia.
Qed.

(** The name, the type and the position of the value come back, whichever
    length form the SEQUENCE has. *)
Lemma snmp_parse_var_op_decodes name v h pre post dl nm nlen :
  oid_encodable name → (∀ x y rest, name = x :: y :: rest → x < 2 → y < 40) →
  value_ok v → value_plain v →
  let c := var_op_contents name v in
  zlen c < 2 ^ 31 → length_form (zlen c) h → 1 + zlen h + zlen c ≤ dl < 2 ^ 32 →
  zlen name ≤ nlen < 2 ^ 32 → (length name ≤ length nm)%nat →
  let enc := (var_op_tag :: h) ++ c in
  snmp_parse_var_op (pre ++ enc ++ post) (length pre) nm nlen dl
  = Ok ((length pre + length enc)%nat, dl - zlen enc,
        VarOp (name ++ drop (length name) nm) (zlen name) (value_type v)
          (length (pre ++ (var_op_tag :: h) ++ ber_oid ASN_OBJECT_ID name))
          (zlen (value_contents v))).
Proof.
  intros Hn H40 Hv Hp c Hc Hh Hd Hl Hl' enc. pose proof (zlen_nonneg c).
  assert (zlen enc = 1 + zlen h + zlen c) as Hz
    by (unfold enc; rewrite zlen_app, zlen_cons; lia).
  unfold snmp_parse_var_op, enc. rewrite <- app_assoc.
  change (Z.lor ASN_SEQUENCE ASN_CONSTRUCTOR) with var_op_tag.
  rewrite (parse_seq_header (zlen c)) by (done || lia). m_step.
  rewrite (app_assoc pre).
  assert (c ++ post = ber_oid ASN_OBJECT_ID name ++ ber_value v ++ post) as ->
    by (unfold c, var_op_contents; by rewrite <- app_assoc).
  assert (zlen c = zlen (ber_oid ASN_OBJECT_ID name) + zlen (ber_value v)) as Hcz
    by apply zlen_app.
  pose proof (zlen_nonneg (ber_value v)). pose proof (zlen_nonneg (ber_oid ASN_OBJECT_ID name)).
  rewrite (asn_parse_objid_decodes ASN_OBJECT_ID name nm nlen Hn H40 Hl Hl'
    (pre ++ var_op_tag :: h) (ber_value v ++ post)) by lia.
  m_step. rewrite Z.eqb_refl. m_step.
  rewrite (app_assoc (pre ++ _)), <- length_app.
  destruct (parse_header_value v ((pre ++ var_op_tag :: h) ++ ber_oid ASN_OBJECT_ID name)
    post (zlen c - zlen (ber_oid ASN_OBJECT_ID name)) Hv Hp) as (q & -> & Hq); [lia|].
  m_step. rewrite Z_to_nat_zlen, Hq, <- !app_assoc.
  rewrite u32_id; rewrite !length_app in *; cbn [length] in *; unfold zlen in *; [|lia].
  fold enc. do 3 f_equal; lia.
Qed.

(** ** Properties *)

(** An allocator that grants every object size. *)
#[global] Instance malloc_all : Allocator := {|
  can_realloc n := n <? 2 ^ 31;
  indeterminate := 0xAA;
  can_realloc_bound n := proj1 (Z.ltb_lt n (2 ^ 31));
|}.

(** C37: where both encoders succeed on a value of [value_ok], the reverse one puts in front
    of the packet exactly the octets the forward one writes.  These are the values of
    every supported type, with strings below 64 KiB, bit strings of 1 octet to 64 KiB, and
    object identifiers of 2 to 128 arcs whose first is at most 2 and whose second is at most
    40 unless the first is 2 (for fewer than two arcs the encoders differ). *)
Theorem value_encoders_agree `{Allocator} r v buf data dl buf' p dl' st st' :
  value_ok v → 0 ≤ dl < 2 ^ 32 → (data + Z.to_nat dl ≤ length buf)%nat → wf st →
  build_value buf data dl (value_type v) (zlen (value_obj v)) (Some (value_obj v))
  = Ok (buf', p, dl') →
  rbuild_value r (value_type v) (value_obj v) (zlen (value_obj v)) st = Ok st' →
  written st' = take (p - data) (drop data buf') ++ written st.
Proof.
  intros Hv Hd Hb Hwf Hf Hr. rewrite (build_value_encodes v Hv) in Hf by done.
  pose proof (rbuild_value_rspec r v Hv st Hwf) as HP. rewrite Hr in HP.
  destruct HP as (_ & -> & _). f_equal. unfold put in Hf.
  destruct (Z.ltb_spec dl (zlen (ber_value v))); [done|]. unfold zlen in *. m_inv.
  rewrite wr_list_eq in Hm by lia. injection Hm as <-.
  rewrite drop_app_length' by (rewrite length_take; lia).
  by rewrite take_app_length' by lia.
Qed.

Lemma value_encoders_agree_witness :
  written (RState [0; 0; 0; 0; 4; 2; 1; 0; 7] 5)
  = take (5 - 1) (drop 1 [9; 4; 2; 1; 0; 9]) ++ written (RState [0; 0; 0; 0; 0; 0; 0; 0; 7] 1).
Proof.
  apply (value_encoders_agree false (VString ASN_OCTET_STR [1; 0]) [9; 9; 9; 9; 9; 9] 1 5
    [9; 4; 2; 1; 0; 9] 5 1 (RState [0; 0; 0; 0; 0; 0; 0; 0; 7] 1)).
  - split; [set_solver|done].
  - lia.
  - simpl. lia.
  - split; [simpl; lia|done].
  - reflexivity.
  - reflexivity.
Defined.

(** Without permission to grow the packet buffer, encoding a value in
    reverse succeeds exactly when its encoding fits in the bytes left, and the
    buffer keeps its size. *)
Theorem rbuild_value_space `{Allocator} v st :
  value_ok v → wf st →
  let m := rbuild_value false (value_type v) (value_obj v) (zlen (value_obj v)) st in
  if decide (offset st + length (ber_value v) ≤ length (pkt st))%nat
  then ∃ st', m = Ok st' ∧ written st' = ber_value v ++ written st ∧
         length (pkt st') = length (pkt st)
  else m = Err.
Proof.
  intros Hv Hwf m. pose proof (rbuild_value_rspec false v Hv st Hwf) as HP. fold m in HP.
  destruct m as [st'| |]; [| |done].
  - destruct HP as ([Ho' _] & Hw & Ho & Hl). specialize (Hl eq_refl).
    rewrite decide_True by lia. by exists st'.
  - simpl in HP. by rewrite decide_False by lia.
Qed.

Lemma rbuild_value_space_witness :
  if decide (0 + length (ber_value (VInteger 300)) ≤ 3)%nat
  then ∃ st', rbuild_value false ASN_INTEGER (store32 300) 4 (RState [0; 0; 0] 0) = Ok st' ∧
         written st' = ber_value (VInteger 300) ++ written (RState [0; 0; 0] 0) ∧
         length (pkt st') = 3%nat
  else rbuild_value false ASN_INTEGER (store32 300) 4 (RState [0; 0; 0] 0) = Err.
Proof.
  apply (rbuild_value_space (VInteger 300) (RState [0; 0; 0] 0)); [simpl; lia|].
  split; [simpl; lia|done].
Defined.

(** Snmp_parse_var_op recovers from what snmp_build_var_op wrote the name,
    the type, the position and the length of the value, and moves to the byte
    after the binding. *)
Theorem snmp_var_op_roundtrip name v rest nm nlen buf data dl :
  oid_encodable name → (∀ x y r, name = x :: y :: r → x < 2 → y < 40) →
  value_ok v → value_plain v → zlen (var_op_contents name v) < 2 ^ 16 →
  zlen name ≤ nlen < 2 ^ 32 → (length name ≤ length nm)%nat →
  zlen (var_op_long name v) ≤ dl < 2 ^ 32 → (data + Z.to_nat dl ≤ length buf)%nat →
  ∃ buf' p,
    snmp_build_var_op buf data (name ++ rest) (zlen name) (value_type v)
      (zlen (value_obj v)) (Some (value_obj v)) dl
    = Ok (buf', p, dl - zlen (var_op_long name v)) ∧
    snmp_parse_var_op buf' data nm nlen dl
    = Ok (p, dl - zlen (var_op_long name v),
          VarOp (name ++ drop (length name) nm) (zlen name) (value_type v)
            (data + 4 + length (ber_oid ASN_OBJECT_ID name)) (zlen (value_contents v))).
Proof.
  intros Hn H40 Hv Hp Hc Hl Hl' Hd Hb. pose proof (zlen_nonneg (var_op_long name v)).
  rewrite (snmp_build_var_op_encodes name v rest) by (done || lia).
  destruct (put_ok (var_op_long name v) buf data dl) as (buf' & -> & Hw & _); [lia|done|].
  eexists buf', _. split; [done|].
  rewrite wr_list_eq in Hw by (unfold zlen in *; lia).
  set (post := drop _ buf) in Hw.
  assert (buf' = take data buf ++ var_op_long name v ++ post) as -> by congruence.
  assert (length (take data buf) = data) as Ht
    by (rewrite length_take; lia).
  set (h := 0x82 :: be_bytes 2 (zlen (var_op_contents name v))).
  assert (1 + zlen h + zlen (var_op_contents name v) = zlen (var_op_long name v)) as Hz.
  { unfold var_op_long, h. rewrite zlen_app, !zlen_cons. lia. }
  pose proof (snmp_parse_var_op_decodes name v h (take data buf) post dl nm nlen Hn H40 Hv Hp
    ltac:(lia) ltac:(by right) ltac:(lia) Hl Hl') as HP. cbv zeta in HP.
  change ((var_op_tag :: h) ++ var_op_contents name v) with (var_op_long name v) in HP.
  rewrite Ht in HP. rewrite HP. do 3 f_equal.
  rewrite !length_app, Ht. subst h. cbn [length]. rewrite length_be_bytes. lia.
Qed.

Lemma snmp_var_op_roundtrip_witness :
  ∃ buf' p,
    snmp_build_var_op (replicate 30 0) 2 [1; 3; 6; 1] 4 ASN_INTEGER 4 (Some (store32 5)) 28
    = Ok (buf', p, 28 - zlen (var_op_long [1; 3; 6; 1] (VInteger 5))) ∧
    snmp_parse_var_op buf' 2 (replicate 128 0) 128 28
    = Ok (p, 28 - zlen (var_op_long [1; 3; 6; 1] (VInteger 5)),
          VarOp ([1; 3; 6; 1] ++ drop 4 (replicate 128 0)) 4 ASN_INTEGER
            (2 + 4 + length (ber_oid ASN_OBJECT_ID [1; 3; 6; 1])) 1).
Proof.
  apply (snmp_var_op_roundtrip [1; 3; 6; 1] (VInteger 5) []).
  - repeat split; try done; repeat constructor; unfold is_u32; lia.
  - intros x y r [= <- <- _]. lia.
  - simpl. lia.
  - done.
  - done.
  - split; done.
  - simpl. lia.
  - split; done.
  - simpl. lia.
Defined.
