(* ===== verification/Pdu.v ===== *)
(** * Protocol data units: snmp_pdu_build and snmp_pdu_realloc_rbuild of
    snmplib/snmp_api.c

    A PDU is a record of the fields of [struct snmp_pdu] these routines use; the
    linked list of variable bindings is a Rocq list, a pointer into it a
    position. *)

From S2P Require Import Prelude Ber Asn1 Asn1Int Asn1Str Asn1Oid Asn1Rbuild VarBind.
From stdpp Require Import prelude numbers list.
From Stdlib Require Import ZArith Lia.
Open Scope Z_scope.

Definition SNMP_MSG_GET : Z := Z.lor (Z.lor ASN_CONTEXT ASN_CONSTRUCTOR) 0x0.
Definition SNMP_MSG_GETNEXT : Z := Z.lor (Z.lor ASN_CONTEXT ASN_CONSTRUCTOR) 0x1.
Definition SNMP_MSG_RESPONSE : Z := Z.lor (Z.lor ASN_CONTEXT ASN_CONSTRUCTOR) 0x2.
Definition SNMP_MSG_SET : Z := Z.lor (Z.lor ASN_CONTEXT ASN_CONSTRUCTOR) 0x3.
Definition SNMP_MSG_TRAP : Z := Z.lor (Z.lor ASN_CONTEXT ASN_CONSTRUCTOR) 0x4.
Definition SNMP_MSG_GETBULK : Z := Z.lor (Z.lor ASN_CONTEXT ASN_CONSTRUCTOR) 0x5.
Definition SNMP_MSG_INFORM : Z := Z.lor (Z.lor ASN_CONTEXT ASN_CONSTRUCTOR) 0x6.
Definition SNMP_MSG_TRAP2 : Z := Z.lor (Z.lor ASN_CONTEXT ASN_CONSTRUCTOR) 0x7.
Definition SNMP_MSG_REPORT : Z := Z.lor (Z.lor ASN_CONTEXT ASN_CONSTRUCTOR) 0x8.

(** [struct variable_list]; [v_val] is the object [val] points to. *)
Record variable_list := Var {
  v_name : list Z;
  v_name_length : Z;
  v_type : Z;
  v_val : option (list Z);
  v_val_len : Z;
}.

(** [struct snmp_pdu] *)
Record netsnmp_pdu := NetsnmpPdu {
  command : Z;
  reqid : Z;
  errstat : Z;
  errindex : Z;
  enterprise : list Z;
  enterprise_length : Z;
  agent_addr : list Z;
  trap_type : Z;
  specific_type : Z;
  time : Z;
  variables : list variable_list;
}.

(** ** Forward encoding *)

(** The fields in front of the variable bindings. *)
Definition build_fields (pdu : netsnmp_pdu) (buf : list Z) (cp : nat) (out_length : Z)
    : M (list Z * nat * Z) :=
  if negb (command pdu =? SNMP_MSG_TRAP) then
    '(buf, cp, out_length) ←
      asn_build_int buf cp out_length ASN_INTEGER (reqid pdu) SIZEOF_LONG;
    '(buf, cp, out_length) ←
      asn_build_int buf cp out_length ASN_INTEGER (errstat pdu) SIZEOF_LONG;
    asn_build_int buf cp out_length ASN_INTEGER (errindex pdu) SIZEOF_LONG
  else
    '(buf, cp, out_length) ←
      asn_build_objid buf cp out_length ASN_OBJECT_ID (enterprise pdu)
        (enterprise_length pdu);
    '(buf, cp, out_length) ←
      asn_build_string buf cp out_length ASN_IPADDRESS (Some (agent_addr pdu)) 4;
    '(buf, cp, out_length) ←
      asn_build_int buf cp out_length ASN_INTEGER (trap_type pdu) SIZEOF_LONG;
    '(buf, cp, out_length) ←
      asn_build_int buf cp out_length ASN_INTEGER (specific_type pdu) SIZEOF_LONG;
    asn_build_unsigned_int buf cp out_length ASN_TIMETICKS (time pdu) SIZEOF_LONG.

(** [for (vp = pdu->variables; vp; vp = vp->next_variable)] *)
Fixpoint build_varbinds (vars : list variable_list) (buf : list Z) (cp : nat)
    (out_length : Z) : M (list Z * nat * Z) :=
  match vars with
  | [] => Ok (buf, cp, out_length)
  | vp :: vars =>
      '(buf, cp, out_length) ←
        snmp_build_var_op buf cp (v_name vp) (v_name_length vp) (v_type vp)
          (v_val_len vp) (v_val vp) out_length;
      build_varbinds vars buf cp out_length
  end.

(** A call of [asn_build_sequence] whose result is not examined. *)
Definition patch_sequence (buf : list Z) (h : nat) (length type n : Z)
    : M (list Z * Z) :=
  match asn_build_sequence buf h length type n with
  | Ok (buf, _, length) => Ok (buf, length)
  | Err => Ok (buf, length)
  | UB => UB
  end.

Definition snmp_pdu_build (pdu : netsnmp_pdu) (buf : list Z) (cp : nat) (out_length : Z)
    : M (list Z * nat * Z) :=
  let length := out_length in
  let h1 := cp in
  '(buf, cp, out_length) ←
    asn_build_sequence buf cp out_length (u8 (command pdu)) 0;
  let h1e := cp in
  '(buf, cp, out_length) ← build_fields pdu buf cp out_length;
  let h2 := cp in
  '(buf, cp, out_length) ←
    asn_build_sequence buf cp out_length (Z.lor ASN_SEQUENCE ASN_CONSTRUCTOR) 0;
  let h2e := cp in
  '(buf, cp, out_length) ← build_varbinds (variables pdu) buf cp out_length;
  '(buf, length) ←
    patch_sequence buf h2 length (Z.lor ASN_SEQUENCE ASN_CONSTRUCTOR)
      (u32 (Z.of_nat cp - Z.of_nat h2e));
  '(buf, _) ←
    patch_sequence buf h1 length (u8 (command pdu)) (u32 (Z.of_nat cp - Z.of_nat h1e));
  Ok (buf, cp, out_length).

(** ** Reference encodings *)

(** The binding [(name, value)] is what [vp] holds. *)
Definition holds (vp : variable_list) (b : list Z * value) : Prop :=
  ∃ rest, v_name vp = b.1 ++ rest ∧ v_name_length vp = zlen b.1 ∧
    v_type vp = value_type b.2 ∧ v_val vp = Some (value_obj b.2) ∧
    v_val_len vp = zlen (value_obj b.2) ∧
    oid_encodable b.1 ∧ value_ok b.2 ∧ zlen (var_op_contents b.1 b.2) < 2 ^ 16.

Definition fields_ok (pdu : netsnmp_pdu) : Prop :=
  is_byte (command pdu) ∧
  if decide (command pdu = SNMP_MSG_TRAP) then
    oid_encodable (enterprise pdu) ∧ enterprise_length pdu = zlen (enterprise pdu) ∧
    zlen (agent_addr pdu) = 4 ∧ - 2 ^ 31 ≤ trap_type pdu < 2 ^ 31 ∧
    - 2 ^ 31 ≤ specific_type pdu < 2 ^ 31 ∧ 0 ≤ time pdu < 2 ^ 32
  else
    - 2 ^ 31 ≤ reqid pdu < 2 ^ 31 ∧ - 2 ^ 31 ≤ errstat pdu < 2 ^ 31 ∧
    - 2 ^ 31 ≤ errindex pdu < 2 ^ 31.

Definition ber_fields (pdu : netsnmp_pdu) : list Z :=
  if decide (command pdu = SNMP_MSG_TRAP) then
    ber_oid ASN_OBJECT_ID (enterprise pdu) ++ ber_string ASN_IPADDRESS (agent_addr pdu)
    ++ ber_int ASN_INTEGER (trap_type pdu) ++ ber_int ASN_INTEGER (specific_type pdu)
    ++ ber_int ASN_TIMETICKS (time pdu)
  else
    ber_int ASN_INTEGER (reqid pdu) ++ ber_int ASN_INTEGER (errstat pdu)
    ++ ber_int ASN_INTEGER (errindex pdu).

(** A sequence with the three-octet length [asn_build_sequence] writes. *)
Definition seq_long (tag : Z) (c : list Z) : list Z :=
  (tag :: 0x82 :: be_bytes 2 (zlen c)) ++ c.

Definition pdu_long (pdu : netsnmp_pdu) (bs : list (list Z * value)) : list Z :=
  seq_long (command pdu)
    (ber_fields pdu ++ seq_long var_op_tag (concat ((λ b, var_op_long b.1 b.2) <$> bs))).

Definition ber_pdu (pdu : netsnmp_pdu) (bs : list (list Z * value)) : list Z :=
  ber_tlv (command pdu)
    (ber_fields pdu ++ ber_tlv var_op_tag (concat ((λ b, ber_var_op b.1 b.2) <$> bs))).

(** ** The forward encoder *)

Lemma build_fields_encodes pdu :
  fields_ok pdu → Encodes (build_fields pdu) (ber_fields pdu).
Proof.
  intros [_ Hok]. unfold build_fields, ber_fields.
  destruct (decide (command pdu = SNMP_MSG_TRAP)) as [E|E];
    destruct (Z.eqb_spec (command pdu) SNMP_MSG_TRAP); try done; cbn [negb].
  - destruct Hok as (He & -> & Ha & Ht & Hs & Hti).
    pose proof (asn_build_objid_encodes ASN_OBJECT_ID (enterprise pdu) [] He) as Ho.
    pose proof (asn_build_string_encodes ASN_IPADDRESS (agent_addr pdu) [] ltac:(lia)) as Hst.
    rewrite app_nil_r in Ho, Hst. rewrite Ha in Hst.
    apply Encodes_seq; [exact Ho|]. apply Encodes_seq; [exact Hst|].
    apply Encodes_seq; [by apply asn_build_int_encodes|].
    apply Encodes_seq; [by apply asn_build_int_encodes|].
    by apply asn_build_unsigned_int_encodes.
  - destruct Hok as (Hr & Hs & Hi).
    apply Encodes_seq; [by apply asn_build_int_encodes|].
    apply Encodes_seq; by apply asn_build_int_encodes.
Qed.

Lemma build_varbinds_encodes vars bs :
  Forall2 holds vars bs →
  Encodes (build_varbinds vars) (concat ((λ b, var_op_long b.1 b.2) <$> bs)).
Proof.
  induction 1 as [|vp b vars bs Hvp Hvars IH]; cbn [fmap list_fmap concat].
  - intros buf cp dl Hd Hb. unfold put. cbn. rewrite zlen_nil, Nat.add_0_r, Z.sub_0_r.
    by destruct (Z.ltb_spec dl 0); [lia|].
  - cbn [build_varbinds]. apply Encodes_seq; [|exact IH].
    destruct Hvp as (rest & -> & -> & -> & -> & -> & Hn & Hv & Hl).
    by apply snmp_build_var_op_encodes.
Qed.

Lemma patch_sequence_spec pre old post len type n p :
  length old = 4%nat → 4 ≤ len < 2 ^ 32 → 0 ≤ n < 2 ^ 16 → p = length pre →
  patch_sequence (pre ++ old ++ post) p len type n
  = Ok (pre ++ (type :: 0x82 :: be_bytes 2 n) ++ post, len - 4).
Proof.
  intros Ho Hl Hn ->. unfold patch_sequence.
  rewrite asn_build_sequence_put by lia.
  rewrite put_app by (rewrite ?Ho; cbn [length]; rewrite ?zlen_cons, ?length_be_bytes,
    ?zlen_be_bytes; lia).
  rewrite !zlen_cons, zlen_be_bytes. done.
Qed.

(** One stage of a chain of encoders: it either fails for lack of room or leaves
    the writes of [e] behind. *)
Lemma encode_stage f e buf cp dl :
  Encodes f e → 0 ≤ dl < 2 ^ 32 → (cp + Z.to_nat dl ≤ length buf)%nat →
  (dl < zlen e ∧ f buf cp dl = Err) ∨
  (zlen e ≤ dl ∧ ∃ buf', f buf cp dl = Ok (buf', (cp + length e)%nat, dl - zlen e) ∧
     wr_list buf cp e = Ok buf' ∧ length buf' = length buf ∧
     (cp + length e + Z.to_nat (dl - zlen e) ≤ length buf')%nat ∧
     0 ≤ dl - zlen e < 2 ^ 32).
Proof.
  intros Hf Hd Hb. rewrite !(Hf buf cp dl Hd Hb). pose proof (zlen_nonneg e).
  destruct (Z.lt_ge_cases dl (zlen e)) as [Hlt|Hge]; [left; by rewrite put_small|right].
  destruct (put_ok e buf cp dl Hge Hb) as (buf' & Hp & Hw & Hl).
  split; [done|]. exists buf'. unfold zlen in *. split_and!; try done; lia.
Qed.

(** A placeholder header, a body, and the header again with the true length. *)
Lemma seq_framed f c extra tag buf data dl :
  Encodes f c → 0 ≤ dl < 2 ^ 32 → (data + Z.to_nat dl ≤ length buf)%nat →
  0 ≤ extra → zlen c + extra < 2 ^ 16 →
  ('(b, p, l) ← asn_build_sequence buf data dl tag 0;
   '(b, p', l) ← f b p l;
   '(b, _) ← patch_sequence b data dl tag (u32 (Z.of_nat p' - Z.of_nat p + extra));
   Ok (b, p', l))
  = put ((tag :: 0x82 :: be_bytes 2 (zlen c + extra)) ++ c) buf data dl.
Proof.
  intros Hf Hd Hb He Hn. pose proof (zlen_nonneg c).
  set (h := tag :: 0x82 :: be_bytes 2 (zlen c + extra)). set (h0 := tag :: 0x82 :: be_bytes 2 0).
  assert (zlen h = 4 ∧ zlen h0 = 4) as [Zh Zh0] by done.
  assert (length h = 4 ∧ length h0 = 4)%nat as [Lh Lh0] by done.
  assert (zlen (h ++ c) = 4 + zlen c) as Zc by (rewrite zlen_app; lia).
  destruct (encode_stage _ h0 buf data dl (asn_build_sequence_encodes tag 0 ltac:(lia)) Hd Hb)
    as [[Hlt ->]|(Hge & b1 & -> & Hw1 & Hl1 & Hb1 & Hd1)];
    [rewrite put_small by lia; done|]. m_step.
  destruct (encode_stage _ c b1 (data + length h0) (dl - zlen h0) Hf Hd1 Hb1)
    as [[Hlt ->]|(Hge2 & b2 & -> & Hw2 & Hl2 & Hb2 & Hd2)];
    [rewrite put_small by lia; done|]. m_step.
  assert (wr_list buf data (h0 ++ c) = Ok b2) as Hw by (rewrite wr_list_cat, Hw1; exact Hw2).
  unfold zlen in *. rewrite wr_list_eq in Hw by (rewrite length_app; lia).
  assert (b2 = take data buf ++ h0 ++ c ++ drop (data + length (h0 ++ c)) buf) as -> by
    (rewrite <- (app_assoc h0) in Hw; congruence).
  assert (length (take data buf) = data) as Ht by (rewrite length_take; lia).
  rewrite patch_sequence_spec; [|done|lia|rewrite u32_id; lia|done].
  m_step. unfold put, zlen. destruct (Z.ltb_spec dl (Z.of_nat (length (h ++ c)))); [lia|].
  rewrite wr_list_eq by (rewrite length_app in *; lia). m_step. rewrite <- !app_assoc.
  rewrite u32_id by lia.
  replace (Z.of_nat (data + length h0 + length c) - Z.of_nat (data + length h0) + extra)
    with (Z.of_nat (length c) + extra) by lia.
  fold (zlen c). change (tag :: 130 :: be_bytes 2 (zlen c + extra)) with h. clearbody h h0.
  rewrite !length_app, Lh, Lh0 in *. do 2 f_equal; [f_equal|]; unfold zlen; lia.
Qed.

(** The length given to [patch_sequence] only has to allow four octets. *)
Lemma patch_sequence_any buf h l l' type n :
  4 ≤ l < 2 ^ 32 → 4 ≤ l' < 2 ^ 32 →
  patch_sequence buf h l' type n
  = ('(b, _) ← patch_sequence buf h l type n; Ok (b, l' - 4)).
Proof.
  intros Hl Hl'. unfold patch_sequence, asn_build_sequence.
  destruct (Z.ltb_spec l 4), (Z.ltb_spec l' 4); try lia.
  unfold wr. repeat (case_decide; m_step; [|done]). by rewrite !u32_id by lia.
Qed.

(** [asn_build_sequence] succeeds only with four octets to write. *)
Lemma asn_build_sequence_room buf data dl type n b p l :
  0 ≤ dl < 2 ^ 32 → asn_build_sequence buf data dl type n = Ok (b, p, l) →
  4 ≤ dl ∧ l = dl - 4.
Proof.
  intros Hd H. unfold asn_build_sequence in H.
  destruct (Z.ltb_spec dl 4); [done|]. m_inv. rewrite u32_id by lia. lia.
Qed.

(** The two sequences of a PDU as nested frames. *)
Definition pdu_body (pdu : netsnmp_pdu) (buf : list Z) (cp : nat) (l : Z)
    : M (list Z * nat * Z) :=
  '(buf, cp, l) ← build_fields pdu buf cp l;
  '(b, p, l') ← asn_build_sequence buf cp l var_op_tag 0;
  '(b, p', l') ← build_varbinds (variables pdu) b p l';
  '(b, _) ← patch_sequence b cp l var_op_tag (u32 (Z.of_nat p' - Z.of_nat p + 0));
  Ok (b, p', l').

Lemma pdu_body_encodes pdu bs :
  fields_ok pdu → Forall2 holds (variables pdu) bs → zlen (pdu_long pdu bs) < 2 ^ 16 →
  Encodes (pdu_body pdu)
    (ber_fields pdu ++ seq_long var_op_tag (concat ((λ b, var_op_long b.1 b.2) <$> bs))).
Proof.
  intros Hf Hv Hsz. unfold pdu_long, seq_long in Hsz. rewrite !zlen_app in Hsz.
  pose proof (zlen_nonneg (ber_fields pdu)).
  apply Encodes_seq; [by apply build_fields_encodes|]. intros buf cp l Hl Hb.
  unfold seq_long. rewrite <- (Z.add_0_r (zlen (concat _))). apply seq_framed; try done; [|].
  - by apply build_varbinds_encodes.
  - rewrite !zlen_cons, !zlen_be_bytes in Hsz. lia.
Qed.

Lemma snmp_pdu_build_body pdu buf cp dl :
  0 ≤ dl < 2 ^ 32 → (cp + Z.to_nat dl ≤ length buf)%nat → fields_ok pdu →
  snmp_pdu_build pdu buf cp dl
  = ('(b, p, l) ← asn_build_sequence buf cp dl (command pdu) 0;
     '(b, p', l) ← pdu_body pdu b p l;
     '(b, _) ← patch_sequence b cp dl (command pdu) (u32 (Z.of_nat p' - Z.of_nat p + 0));
     Ok (b, p', l)).
Proof.
  intros Hd Hb Hf. pose proof Hf as [Hcmd _]. unfold snmp_pdu_build, pdu_body.
  rewrite u8_id by done. change (Z.lor ASN_SEQUENCE ASN_CONSTRUCTOR) with var_op_tag.
  pose proof (asn_build_sequence_encodes (command pdu) 0 ltac:(lia)) as Hs.
  destruct (encode_stage _ _ buf cp dl Hs Hd Hb)
    as [[_ ->]|(Hge & b1 & -> & _ & _ & Hb1 & Hd1)]; [done|]. m_step.
  rewrite !zlen_cons, zlen_be_bytes in *.
  destruct (encode_stage _ _ b1 _ _ (build_fields_encodes pdu Hf) Hd1 Hb1)
    as [[_ ->]|(Hge2 & b2 & -> & _ & _ & Hb2 & Hd2)]; [done|]. m_step.
  destruct (asn_build_sequence b2 _ _ var_op_tag 0) as [[[b3 p3] l3]| |] eqn:E3; m_step; [|done..].
  apply asn_build_sequence_room in E3 as [Hl3 _]; [|done].
  destruct (build_varbinds _ _ _ _) as [[[b4 p4] l4]| |]; m_step; [|done..].
  pose proof (zlen_nonneg (ber_fields pdu)).
  rewrite Z.add_0_r, (patch_sequence_any b4 _
    (dl - (1 + (1 + Z.of_nat 2)) - zlen (ber_fields pdu)) dl) by lia.
  destruct (patch_sequence b4 _ _ var_op_tag _) as [[b5 l5]| |]; m_step; [|done..].
  rewrite Z.add_0_r, (patch_sequence_any b5 cp (dl - 4) dl); [|lia..].
  by destruct (patch_sequence b5 cp (dl - 4) _ _) as [[b6 l6]| |].
Qed.

Lemma snmp_pdu_build_encodes pdu bs :
  fields_ok pdu → Forall2 holds (variables pdu) bs → zlen (pdu_long pdu bs) < 2 ^ 16 →
  Encodes (snmp_pdu_build pdu) (pdu_long pdu bs).
Proof.
  intros Hf Hv Hsz buf cp dl Hd Hb. rewrite snmp_pdu_build_body by done.
  unfold pdu_long, seq_long at 1. rewrite <- (Z.add_0_r (zlen (_ ++ seq_long _ _))).
  apply seq_framed; try done; [by apply pdu_body_encodes|].
  unfold pdu_long, seq_long at 1 in Hsz. rewrite zlen_app, !zlen_cons, zlen_be_bytes in Hsz. lia.
Qed.
