(* ===== verification/PduRbuild.v ===== *)
(** * Reverse PDU encoding: snmp_pdu_realloc_rbuild of snmplib/snmp_api.c

    Bindings have to be written last to first, and the list is singly linked:
    the routine walks it remembering the last [VPCACHE_SIZE] bindings in a
    ring, writes those, and walks the list again for the rest.  [vpcache] is
    the list of its cells, [None] before the first assignment; a pointer to a
    binding is its position in [pdu->variables]. *)

From S2P Require Import Prelude Ber Asn1 Asn1Int Asn1Str Asn1Oid Asn1Rbuild VarBind Pdu.
From stdpp Require Import prelude numbers list.
From Stdlib Require Import ZArith Lia.
Open Scope Z_scope.

Definition VPCACHE_SIZE : nat := 50.

(** ** A sequence header whose failure is not acted upon

    The result code of the call that writes the header of the bindings is
    overwritten by the next call, so the state a failed call leaves behind
    matters.  These are the length and header encoders of Asn1Rbuild with that
    state kept: the boolean is the C result. *)
Section Rbuild.
Context {alloc : Allocator}.

Definition push1_rc (r : bool) (b : Z) (st : rstate) : M (bool * rstate) :=
  match need1 r st with
  | Ok st => st ← push b st; Ok (true, st)
  | Err => Ok (false, st)
  | UB => UB
  end.

Fixpoint need_loop_rc (fuel : nat) (r : bool) (n : Z) (st : rstate) : M (bool * rstate) :=
  match fuel with
  | O => UB
  | S fuel =>
      if room st <? n
      then match grow r st with
           | Some st => need_loop_rc fuel r n st
           | None => Ok (false, st)
           end
      else Ok (true, st)
  end.

Fixpoint rbuild_length_loop_rc (fuel : nat) (r : bool) (length : Z) (st : rstate)
    : M (bool * Z * rstate) :=
  match fuel with
  | O => UB
  | S fuel =>
      if 0xff <? length then
        '(ok, st) ← push1_rc r (Z.land length 0xff) st;
        if ok : bool then rbuild_length_loop_rc fuel r (Z.shiftr length 8) st
        else Ok (false, length, st)
      else Ok (true, length, st)
  end.

Definition asn_realloc_rbuild_length_rc (r : bool) (length : Z) (st : rstate)
    : M (bool * rstate) :=
  let start_offset := offset st in
  if length <=? 0x7f then push1_rc r length st
  else
    '(ok, length, st) ← rbuild_length_loop_rc 4 r length st;
    if negb ok then Ok (false, st)
    else
      '(ok, st) ← need_loop_rc 3 r 2 st;
      if negb ok then Ok (false, st)
      else
        st ← push (Z.land length 0xff) st;
        let tmp_int := Z.of_nat (offset st) - Z.of_nat start_offset in
        st ← push (u8 (Z.lor tmp_int 0x80)) st;
        Ok (true, st).

Definition asn_realloc_rbuild_sequence_rc (r : bool) (type length : Z) (st : rstate)
    : M (bool * rstate) :=
  '(ok, st) ← asn_realloc_rbuild_length_rc r length st;
  if ok : bool then push1_rc r type st else Ok (false, st).

(** ** The ring of bindings *)


(** [for (vp = pdu->variables, i = VPCACHE_SIZE - 1; vp && vp != tmpvp;
         vp = vp->next_variable, i--)]; without [tmpvp] in the first walk.
    Returns [wrapped], [i] and the ring. *)
Fixpoint fill (vps : list nat) (tmpvp : option nat) (wrapped : bool) (i : Z)
    (vpcache : list (option nat)) : M (bool * Z * list (option nat)) :=
  match vps with
  | [] => Ok (wrapped, i, vpcache)
  | vp :: vps =>
      if bool_decide (Some vp = tmpvp) then Ok (wrapped, i, vpcache)
      else
        let '(wrapped, i) :=
          if i <? 0 then (true, Z.of_nat VPCACHE_SIZE - 1) else (wrapped, i) in
        if decide (0 ≤ i < Z.of_nat (length vpcache))
        then fill vps tmpvp wrapped (i - 1) (<[Z.to_nat i := Some vp]> vpcache)
        else UB
  end.

(** [vp = vpcache[i]]: an unset cell holds no pointer. *)
Definition cell (vpcache : list (option nat)) (i : nat) : M nat :=
  match vpcache !! i with Some (Some vp) => Ok vp | _ => UB end.

(** [vp->next_variable] has been followed from the head, so [vp] is a binding
    of the list. *)
Definition binding (pdu : netsnmp_pdu) (vp : nat) : M variable_list :=
  match variables pdu !! vp with Some v => Ok v | None => UB end.

Definition rbuild_binding (pdu : netsnmp_pdu) (vp : nat) (st : rstate) : M rstate :=
  v ← binding pdu vp;
  snmp_realloc_rbuild_var_op true (v_name v) (v_name_length v) (v_type v)
    (default [] (v_val v)) (v_val_len v) st.

(** [for (i = from; i < from + n; i++) { vp = vpcache[i]; ... }] *)
Fixpoint emit (n from : nat) (pdu : netsnmp_pdu) (vpcache : list (option nat)) (st : rstate)
    : M rstate :=
  match n with
  | O => Ok st
  | S n =>
      vp ← cell vpcache from;
      st ← rbuild_binding pdu vp st;
      emit n (S from) pdu vpcache st
  end.

(** The [do ... while (notdone)] loop; every turn but the last writes a whole
    ring, so as many turns as there are bindings are enough. *)
Fixpoint rounds (fuel : nat) (pdu : netsnmp_pdu) (vps : list nat) (wrapped : bool)
    (final : nat) (vpcache : list (option nat)) (st : rstate) : M rstate :=
  match fuel with
  | O => UB
  | S fuel =>
      st ← emit (VPCACHE_SIZE - final) final pdu vpcache st;
      if wrapped then
        st ← emit final 0 pdu vpcache st;
        tmpvp ← (if (final =? 0)%nat then cell vpcache (VPCACHE_SIZE - 1)
                 else cell vpcache (final - 1));
        '(wrapped, i, vpcache) ←
          fill vps (Some tmpvp) false (Z.of_nat VPCACHE_SIZE - 1) vpcache;
        rounds fuel pdu vps wrapped (Z.to_nat (i + 1)) vpcache st
      else Ok st
  end.

Definition rbuild_varbinds (pdu : netsnmp_pdu) (st : rstate) : M rstate :=
  let vps := seq 0 (length (variables pdu)) in
  '(wrapped, i, vpcache) ←
    fill vps None false (Z.of_nat VPCACHE_SIZE - 1) (replicate VPCACHE_SIZE None);
  rounds (S (length (variables pdu))) pdu vps wrapped (Z.to_nat (i + 1)) vpcache st.

(** The fields in front of the bindings, last to first. *)
Definition rbuild_fields (pdu : netsnmp_pdu) (st : rstate) : M rstate :=
  if negb (command pdu =? SNMP_MSG_TRAP) then
    st ← asn_realloc_rbuild_int true ASN_INTEGER (errindex pdu) SIZEOF_LONG st;
    st ← asn_realloc_rbuild_int true ASN_INTEGER (errstat pdu) SIZEOF_LONG st;
    asn_realloc_rbuild_int true ASN_INTEGER (reqid pdu) SIZEOF_LONG st
  else
    st ← asn_realloc_rbuild_unsigned_int true ASN_TIMETICKS (time pdu) SIZEOF_LONG st;
    st ← asn_realloc_rbuild_int true ASN_INTEGER (specific_type pdu) SIZEOF_LONG st;
    st ← asn_realloc_rbuild_int true ASN_INTEGER (trap_type pdu) SIZEOF_LONG st;
    st ← asn_realloc_rbuild_string true ASN_IPADDRESS (agent_addr pdu) 4 st;
    asn_realloc_rbuild_objid true ASN_OBJECT_ID (enterprise pdu) (enterprise_length pdu) st.

Definition snmp_pdu_realloc_rbuild (pdu : netsnmp_pdu) (st : rstate) : M rstate :=
  let start_offset := offset st in
  st ← rbuild_varbinds pdu st;
  '(_, st) ← asn_realloc_rbuild_sequence_rc true (Z.lor ASN_SEQUENCE ASN_CONSTRUCTOR)
               (since start_offset st) st;
  st ← rbuild_fields pdu st;
  asn_realloc_rbuild_sequence true (u8 (command pdu)) (since start_offset st) st.

(** ** The ring holds the last bindings *)

(** The index after [n] bindings have been entered. *)
Definition ring_i (n : nat) : Z :=
  if (n =? 0)%nat then 49 else 48 - (Z.of_nat n - 1) mod 50.

(** After [n] bindings: the last fifty of them sit at [49 - p mod 50]. *)
Definition ring_ok (n : nat) (wrapped : bool) (i : Z) (c : list (option nat)) : Prop :=
  length c = VPCACHE_SIZE ∧ wrapped = bool_decide (50 < n)%nat ∧ i = ring_i n ∧
  ∀ p k, (p < n)%nat → (n ≤ p + 50)%nat → Z.of_nat k = 49 - Z.of_nat p mod 50 →
    c !! k = Some (Some p).

Lemma ring_ok_start c : length c = VPCACHE_SIZE → ring_ok 0 false 49 c.
Proof. intros Hc. split_and!; [done..|lia]. Qed.

Lemma ring_ok_step n wrapped i c :
  ring_ok n wrapped i c →
  let '(wrapped', i') := if i <? 0 then (true, 49) else (wrapped, i) in
  0 ≤ i' < 50 ∧ ring_ok (S n) wrapped' (i' - 1) (<[Z.to_nat i' := Some n]> c).
Proof.
  intros (Hl & Hw & Hi & Hc). unfold ring_i in Hi.
  assert (∃ w' i', (if i <? 0 then (true, 49) else (wrapped, i)) = (w', i') ∧
    i' = 49 - Z.of_nat n mod 50 ∧ w' = bool_decide (50 < S n)%nat)
    as (w' & i' & -> & Hi' & Hw').
  { destruct (Nat.eqb_spec n 0) as [->|Hn].
    - subst. exists (bool_decide (50 < 0)%nat), 49. by split_and!.
    - subst wrapped. destruct (Z.ltb_spec i 0); eexists _, _; split_and!; try done.
      + Z.div_mod_to_equations; lia.
      + rewrite bool_decide_eq_true_2; [done|]. Z.div_mod_to_equations; lia.
      + Z.div_mod_to_equations; lia.
      + apply bool_decide_ext. Z.div_mod_to_equations; lia. }
  pose proof (Z.mod_pos_bound (Z.of_nat n) 50). split; [lia|]. unfold ring_ok. split_and!.
  - by rewrite length_insert.
  - done.
  - unfold ring_i. cbn [Nat.eqb]. replace (Z.of_nat (S n) - 1) with (Z.of_nat n) by lia. lia.
  - intros p k Hp Hp' Hk. destruct (decide (p = n)) as [->|Hne].
    + replace (Z.to_nat i') with k by lia. apply list_lookup_insert_eq.
      rewrite Hl. unfold VPCACHE_SIZE. lia.
    + rewrite list_lookup_insert_ne; [apply Hc; lia|].
      Z.div_mod_to_equations; lia.
Qed.

Lemma fill_spec k a m tmpvp wrapped i c :
  (tmpvp = None ∧ m = (a + k)%nat ∨ tmpvp = Some m ∧ (a ≤ m < a + k)%nat) →
  ring_ok a wrapped i c →
  ∃ wrapped' i' c', fill (seq a k) tmpvp wrapped i c = Ok (wrapped', i', c') ∧
    ring_ok m wrapped' i' c'.
Proof.
  revert a wrapped i c. induction k as [|k IH]; intros a wrapped i c Hm Hr.
  - exists wrapped, i, c. split; [done|].
    destruct Hm as [[_ ->]|[_ ?]]; [by rewrite Nat.add_0_r|lia].
  - cbn [seq fill]. destruct (decide (tmpvp = Some a)) as [Ht|Ht].
    + rewrite bool_decide_eq_true_2 by done. exists wrapped, i, c. split; [done|].
      destruct Hm as [[? _]|[Hm _]]; [congruence|]. by simplify_eq.
    + rewrite bool_decide_eq_false_2 by done.
      pose proof (ring_ok_step a wrapped i c Hr) as Hs. change (Z.of_nat VPCACHE_SIZE) with 50.
      change (50 - 1) with 49. pose proof (proj1 Hr) as Hl.
      destruct (if i <? 0 then _ else _) as [w' i']. destruct Hs as [Hi Hs].
      rewrite decide_True by (rewrite Hl; done).
      apply (IH (S a)); [|done].
      destruct Hm as [[-> ->]|[-> Hm]]; [left; split; [done|lia]|right; split; [done|]].
      assert (a ≠ m) by congruence. lia.
Qed.

Lemma ring_final_pos n :
  (0 < n)%nat → Z.to_nat (ring_i n + 1) = (49 - (n - 1) mod 50)%nat.
Proof.
  intros Hn. unfold ring_i. destruct (Nat.eqb_spec n 0); [lia|].
  replace (Z.of_nat n - 1) with (Z.of_nat (n - 1)) by lia.
  change 50 with (Z.of_nat 50). rewrite <- Nat2Z.inj_mod.
  pose proof (Nat.mod_upper_bound (n - 1) 50). lia.
Qed.

Lemma cell_ring n wrapped i c p k :
  ring_ok n wrapped i c → (p < n)%nat → (n ≤ p + 50)%nat →
  Z.of_nat k = 49 - Z.of_nat p mod 50 → cell c k = Ok p.
Proof. intros (_ & _ & _ & Hc) ???. unfold cell. by rewrite (Hc p k). Qed.

(** ** Writing the bindings *)

(** The encodings of the [n] bindings from [a] on. *)
Definition encs (bs : list (list Z * value)) (a n : nat) : list Z :=
  concat ((λ b, ber_var_op b.1 b.2) <$> take n (drop a bs)).

Lemma encs_app bs a n k : encs bs a n ++ encs bs (a + n) k = encs bs a (n + k).
Proof.
  unfold encs. rewrite <- concat_app, <- fmap_app. do 2 f_equal.
  rewrite <- drop_drop. apply take_take_drop.
Qed.

(** [vp] holds the binding; its name object is exactly the name. *)
Definition rholds (vp : variable_list) (b : list Z * value) : Prop :=
  holds vp b ∧ v_name vp = b.1.

Lemma rbuild_binding_rspec pdu bs p b :
  Forall2 rholds (variables pdu) bs → bs !! p = Some b →
  rspec true (rbuild_binding pdu p) (ber_var_op b.1 b.2).
Proof.
  intros HF Hb. destruct (Forall2_lookup_r _ _ _ _ _ HF Hb) as (v & Hv & Hh & Hname).
  destruct Hh as (rest & _ & Hl & Ht & Hval & Hvl & Hn & Hok & _).
  eapply rspec_ext; [|by apply (rbuild_var_op_rspec true b.1 b.2)].
  intros st _. unfold rbuild_binding, binding. rewrite Hv. m_step.
  by rewrite Hname, Hl, Ht, Hval, Hvl.
Qed.

Lemma emit_rspec pdu bs c n from top :
  Forall2 rholds (variables pdu) bs → (n ≤ top)%nat → (top ≤ length bs)%nat →
  (∀ j, (j < n)%nat → cell c (from + j) = Ok (top - 1 - j)%nat) →
  rspec true (emit n from pdu c) (encs bs (top - n) n).
Proof.
  intros HF. revert from top. induction n as [|n IH]; intros from top Hn Ht Hc.
  - apply rspec_ret.
  - destruct (lookup_lt_is_Some_2 bs (top - 1)) as [b Hb]; [lia|].
    assert (encs bs (top - S n) (S n) = encs bs (top - 1 - n) n ++ ber_var_op b.1 b.2) as ->.
    { replace (top - 1 - n)%nat with (top - S n)%nat by lia. unfold encs.
      rewrite (take_S_r _ n b) by (rewrite lookup_drop, <- Hb; f_equal; lia).
      rewrite fmap_app, concat_app. cbn [fmap list_fmap concat]. by rewrite app_nil_r. }
    eapply rspec_ext; [|apply rspec_seq; [by apply (rbuild_binding_rspec pdu bs (top - 1))|
      apply (IH (S from) (top - 1)%nat); try lia]].
    + intros st _. cbn [emit]. pose proof (Hc O ltac:(lia)) as Hc0.
      rewrite Nat.add_0_r, Nat.sub_0_r in Hc0. by rewrite Hc0.
    + intros j Hj. pose proof (Hc (S j) ltac:(lia)) as HcS.
      replace (from + S j)%nat with (S from + j)%nat in HcS by lia. rewrite HcS.
      f_equal. lia.
Qed.

Lemma rspec_M {A} r (m : M A) a (f : A → rstate → M rstate) e :
  m = Ok a → rspec r (f a) e → rspec r (λ st, x ← m; f x st) e.
Proof. intros -> Hf. exact Hf. Qed.

(** One round over [m] bindings: the top part of the ring, then the rest. *)
(** What the ring holds when [m] pointers were stored: the last [n1] from [final]
    on, and when it wrapped the ones before them in front of [final]. *)
Lemma ring_cells m wrapped i c :
  ring_ok m wrapped i c →
  let f := Z.to_nat (i + 1) in
  ∃ n1, (VPCACHE_SIZE - f = n1 ∧ n1 ≤ m ∧ (wrapped = false → n1 = m) ∧
    (wrapped = true → n1 + f = 50 ∧ 50 < m))%nat ∧
    (∀ j, (j < n1)%nat → cell c (f + j) = Ok (m - 1 - j)%nat) ∧
    (∀ j, wrapped = true → (j < f)%nat → cell c j = Ok (m - n1 - 1 - j)%nat).
Proof.
  intros Hr f. pose proof Hr as (Hl & Hw & Hi & _).
  exists (VPCACHE_SIZE - f)%nat. unfold VPCACHE_SIZE, f. rewrite Hw, Hi.
  destruct m as [|m].
  { change (Z.to_nat (ring_i 0 + 1)) with 50%nat.
    split_and!; try done; intros; try lia; by apply bool_decide_eq_true in H; lia. }
  rewrite ring_final_pos by lia. replace (S m - 1)%nat with m by lia.
  pose proof (Nat.mod_upper_bound m 50 ltac:(lia)) as Hmod.
  pose proof (Nat.div_mod_eq m 50) as Hdm.
  split_and!; [lia|lia|..].
  - intros H50%bool_decide_eq_false. rewrite Nat.mod_small; lia.
  - intros H50%bool_decide_eq_true. split; lia.
  - intros j Hj. apply (cell_ring _ _ _ _ _ _ Hr); [lia|lia|].
    rewrite <- (Z.mod_unique_pos (Z.of_nat (m - j)) 50 (Z.of_nat (m / 50))
      (Z.of_nat (m mod 50 - j))) by lia. lia.
  - intros j H50%bool_decide_eq_true Hj. apply (cell_ring _ _ _ _ _ _ Hr); [lia|lia|].
    rewrite <- (Z.mod_unique_pos (Z.of_nat (S m - (50 - (49 - m mod 50)) - 1 - j)) 50
      (Z.of_nat (m / 50) - 1) (49 - Z.of_nat j)) by lia. lia.
Qed.

Lemma rounds_rspec fuel pdu bs m wrapped i c :
  Forall2 rholds (variables pdu) bs → (m ≤ length bs)%nat → (m < fuel)%nat →
  ring_ok m wrapped i c →
  rspec true (rounds fuel pdu (seq 0 (length (variables pdu))) wrapped (Z.to_nat (i + 1)) c)
    (encs bs 0 m).
Proof.
  intros HF. pose proof (Forall2_length _ _ _ HF) as HlF.
  revert m wrapped i c. induction fuel as [|fuel IH]; intros m wrapped i c Hm Hfuel Hr; [lia|].
  pose proof Hr as (Hl & Hw & Hi & _). cbn [rounds].
  set (f := Z.to_nat (i + 1)).
  destruct (ring_cells m wrapped i c Hr) as (n1 & (Hn1 & Hn1m & Hnw & Hww) & Htop & Hlow).
  fold f in Hn1, Hww, Htop, Hlow.
  clearbody f. rewrite Hn1.
  pose proof (emit_rspec pdu bs c n1 f m HF Hn1m Hm Htop) as He1.
  destruct wrapped; [destruct (Hww eq_refl) as [Hf H50]|].
  - pose proof (emit_rspec pdu bs c f 0 (m - n1) HF ltac:(lia) ltac:(lia)
      (λ j Hj, Hlow j eq_refl Hj)) as He2.
    assert ((if (f =? 0)%nat then cell c (VPCACHE_SIZE - 1) else cell c (f - 1))
            = Ok (m - 50)%nat) as Htmp.
    { destruct (Nat.eqb_spec f 0) as [->|Hf0].
      - change (VPCACHE_SIZE - 1)%nat with (0 + 49)%nat.
        rewrite (Htop 49%nat) by lia. f_equal. lia.
      - rewrite (Hlow (f - 1)%nat) by (done || lia). f_equal. lia. }
    destruct (fill_spec (length (variables pdu)) 0 (m - 50) (Some (m - 50)%nat) false 49 c)
      as (w' & i' & c' & Hfill & Hr'); [right; split; [done|lia]|by apply ring_ok_start|].
    specialize (IH (m - 50)%nat w' i' c' ltac:(lia) ltac:(lia) Hr').
    assert (encs bs 0 m = encs bs 0 (m - 50) ++ encs bs (m - n1 - f) f ++ encs bs (m - n1) n1)
      as ->.
    { replace (m - n1)%nat with (m - n1 - f + f)%nat at 2 by lia. rewrite encs_app.
      replace (m - n1 - f)%nat with (0 + (m - 50))%nat by lia. rewrite encs_app.
      f_equal. lia. }
    rewrite app_assoc. apply (rspec_seq true (emit n1 f pdu c)
      (λ st, st ← emit f 0 pdu c st; tmpvp ← _; _)); [done|].
    apply (rspec_seq true (emit f 0 pdu c)); [done|].
    eapply rspec_M; [exact Htmp|]. change (Z.of_nat VPCACHE_SIZE - 1) with 49.
    by eapply rspec_M; [exact Hfill|].
  - rewrite (Hnw eq_refl), Nat.sub_diag in *. rewrite <- (app_nil_l (encs bs 0 m)).
    apply rspec_seq; [done|apply rspec_ret].
Qed.

Lemma rbuild_varbinds_rspec pdu bs :
  Forall2 rholds (variables pdu) bs →
  rspec true (rbuild_varbinds pdu) (concat ((λ b, ber_var_op b.1 b.2) <$> bs)).
Proof.
  intros HF. pose proof (Forall2_length _ _ _ HF) as HlF. unfold rbuild_varbinds.
  destruct (fill_spec (length (variables pdu)) 0 (length (variables pdu)) None false 49
    (replicate VPCACHE_SIZE None)) as (w & i & c & Hfill & Hr);
    [by left|apply ring_ok_start, length_replicate|].
  eapply rspec_M; [exact Hfill|]. cbn beta iota.
  assert (concat ((λ b, ber_var_op b.1 b.2) <$> bs) = encs bs 0 (length (variables pdu)))
    as -> by (unfold encs; by rewrite drop_0, HlF, firstn_all).
  apply rounds_rspec; [done|lia|lia|done].
Qed.

(** ** Fields and headers *)

Lemma rbuild_fields_rspec pdu :
  fields_ok pdu → rspec true (rbuild_fields pdu) (ber_fields pdu).
Proof.
  intros [_ Hok]. unfold rbuild_fields, ber_fields.
  destruct (decide (command pdu = SNMP_MSG_TRAP)) as [E|E];
    destruct (Z.eqb_spec (command pdu) SNMP_MSG_TRAP); try done; cbn [negb].
  - destruct Hok as (He & -> & Ha & Ht & Hs & Hti). rewrite <- Ha, !app_assoc.
    apply rspec_seq; [by apply rbuild_unsigned_int_rspec|].
    apply rspec_seq; [by apply rbuild_int_rspec|].
    apply rspec_seq; [by apply rbuild_int_rspec|].
    apply rspec_seq; [by apply rbuild_string_rspec|by apply rbuild_objid_rspec].
  - destruct Hok as (Hr & Hs & Hi). rewrite !app_assoc.
    apply rspec_seq; [by apply rbuild_int_rspec|].
    apply rspec_seq; by apply rbuild_int_rspec.
Qed.

(** The variants that keep the state agree with the encoders on success. *)
Definition rc_of (m : M rstate) (m' : M (bool * rstate)) : Prop :=
  match m with
  | Ok st => m' = Ok (true, st)
  | Err => ∃ st, m' = Ok (false, st)
  | UB => m' = UB
  end.

Lemma push_not_err b st : push b st ≠ Err.
Proof. unfold push, wr. by repeat (case_decide; [|m_step]). Qed.

Lemma push1_rc_of r b st : rc_of (push1 r b st) (push1_rc r b st).
Proof.
  unfold push1, push1_rc, rc_of. destruct (need1 r st) as [st1| |]; m_step; [|eauto|done].
  pose proof (push_not_err b st1). by destruct (push b st1).
Qed.

Lemma need_loop_rc_of fuel r n st : rc_of (need_loop fuel r n st) (need_loop_rc fuel r n st).
Proof.
  revert st. induction fuel as [|fuel IH]; intros st; [done|].
  cbn [need_loop need_loop_rc]. destruct (room st <? n); [|done].
  destruct (grow r st); [apply IH|]. by exists st.
Qed.

Lemma rbuild_length_loop_rc_of fuel r n st :
  match rbuild_length_loop fuel r n st with
  | Ok (n', st') => rbuild_length_loop_rc fuel r n st = Ok (true, n', st')
  | Err => ∃ n' st', rbuild_length_loop_rc fuel r n st = Ok (false, n', st')
  | UB => rbuild_length_loop_rc fuel r n st = UB
  end.
Proof.
  revert n st. induction fuel as [|fuel IH]; intros n st; [done|].
  cbn [rbuild_length_loop rbuild_length_loop_rc]. destruct (0xff <? n); [|done].
  pose proof (push1_rc_of r (Z.land n 0xff) st) as Hp. unfold rc_of in Hp.
  destruct (push1 r (Z.land n 0xff) st) as [st1| |]; m_step.
  - rewrite Hp. m_step. apply IH.
  - destruct Hp as [st1 ->]. m_step. eauto.
  - by rewrite Hp.
Qed.

Lemma rbuild_length_rc_of r n st :
  rc_of (asn_realloc_rbuild_length r n st) (asn_realloc_rbuild_length_rc r n st).
Proof.
  unfold asn_realloc_rbuild_length, asn_realloc_rbuild_length_rc.
  destruct (n <=? 0x7f); [apply push1_rc_of|].
  pose proof (rbuild_length_loop_rc_of 4 r n st) as HL.
  destruct (rbuild_length_loop 4 r n st) as [[n1 st1]| |]; m_step;
    [rewrite HL|destruct HL as (n1 & st1 & ->)|by rewrite HL]; m_step; [|by exists st1].
  pose proof (need_loop_rc_of 3 r 2 st1) as HN. unfold rc_of in HN.
  change (need r 2 st1) with (need_loop 3 r 2 st1).
  destruct (need_loop 3 r 2 st1) as [st2| |]; m_step;
    [rewrite HN|destruct HN as (st2 & ->)|by rewrite HN]; m_step; [|by exists st2].
  pose proof (push_not_err (Z.land n1 0xff) st2).
  destruct (push (Z.land n1 0xff) st2) as [st3| |]; m_step; [|done|done].
  match goal with |- rc_of (push ?b st3) _ => pose proof (push_not_err b st3);
    by destruct (push b st3) end.
Qed.

Lemma rbuild_sequence_rc_of r type n st :
  rc_of (asn_realloc_rbuild_sequence r type n st)
    (asn_realloc_rbuild_sequence_rc r type n st).
Proof.
  unfold asn_realloc_rbuild_sequence, asn_realloc_rbuild_header,
    asn_realloc_rbuild_sequence_rc.
  pose proof (rbuild_length_rc_of r n st) as HL. unfold rc_of in HL.
  destruct (asn_realloc_rbuild_length r n st) as [st1| |]; m_step;
    [rewrite HL; m_step; apply push1_rc_of|destruct HL as [st1 ->]; by exists st1|
     by rewrite HL].
Qed.

(** ** The whole PDU *)

(** The allocator grants every size that can be asked for on the way to a
    buffer that holds [T] bytes. *)
Definition grants (T : nat) : Prop :=
  ∀ n, 0 ≤ n ≤ Z.of_nat T + 8192 → can_realloc n = true.

Lemma rspec_granted f e T st :
  rspec true f e → grants T → (offset st + length e ≤ T)%nat → wf st →
  ∃ st', f st = Ok st' ∧ rpost true e st st'.
Proof.
  intros Hf HT Hle Hwf. specialize (Hf st Hwf). destruct (f st) as [st'| |]; [eauto| |done].
  destruct Hf as (n & Hn & Hc). rewrite HT in Hc by lia. done.
Qed.

Lemma snmp_pdu_realloc_rbuild_spec pdu bs st :
  fields_ok pdu → Forall2 rholds (variables pdu) bs → wf st →
  grants (offset st + length (ber_pdu pdu bs)) →
  ∃ st', snmp_pdu_realloc_rbuild pdu st = Ok st' ∧ rpost true (ber_pdu pdu bs) st st'.
Proof.
  intros Hf Hb Hwf. unfold snmp_pdu_realloc_rbuild, ber_pdu.
  pose proof Hf as [Hcmd _]. rewrite u8_id by done.
  change (Z.lor ASN_SEQUENCE ASN_CONSTRUCTOR) with var_op_tag.
  set (V := concat _). set (F := ber_fields pdu).
  rewrite (ber_tlv_cons (command pdu)), (ber_tlv_cons var_op_tag).
  set (S0 := var_op_tag :: ber_length (zlen V)). rewrite !length_app. intros HT.
  destruct (rspec_granted _ V _ st (rbuild_varbinds_rspec pdu bs Hb) HT ltac:(lia) Hwf)
    as (st1 & -> & HP1). m_step.
  pose proof (rpost_zlen _ _ _ _ HP1) as [HzV HzV']. pose proof HP1 as (Hwf1 & _ & Ho1 & _).
  assert (since (offset st) st1 = zlen V) as -> by (unfold since, zlen; lia).
  destruct (rspec_granted _ S0 _ st1 (rbuild_sequence_rspec true var_op_tag (zlen V) ltac:(lia))
    HT ltac:(lia) Hwf1) as (st2 & Hs2 & HP2).
  pose proof (rbuild_sequence_rc_of true var_op_tag (zlen V) st1) as Hrc.
  unfold rc_of in Hrc. rewrite Hs2 in Hrc. rewrite Hrc. m_step.
  pose proof HP2 as (Hwf2 & _ & Ho2 & _).
  destruct (rspec_granted _ F _ st2 (rbuild_fields_rspec pdu Hf) HT ltac:(lia) Hwf2)
    as (st3 & -> & HP3). m_step. pose proof HP3 as (Hwf3 & _ & Ho3 & _).
  pose proof (rpost_trans _ _ _ _ _ _ HP1 (rpost_trans _ _ _ _ _ _ HP2 HP3)) as HPall.
  rewrite <- app_assoc in HPall.
  pose proof (rpost_zlen _ _ _ _ HPall) as [HzA HzA'].
  assert (since (offset st) st3 = zlen (F ++ S0 ++ V)) as ->
    by (unfold since, zlen; rewrite !length_app; lia).
  destruct (rspec_granted _ (command pdu :: ber_length (zlen (F ++ S0 ++ V))) _ st3
    (rbuild_sequence_rspec true (command pdu) (zlen (F ++ S0 ++ V)) ltac:(lia))
    HT ltac:(lia) Hwf3) as (st4 & -> & HP4).
  exists st4. split; [done|]. by eapply rpost_trans.
Qed.

End Rbuild.
