(* ===== verification/PduParse.v ===== *)
(** * PDU parsing: snmp_pdu_parse of snmplib/snmp_api.c

    [malloc] is a parameter: [malloc_ok n] says whether [n] bytes are granted.
    The results of the value decoders are not examined by the code: a rejected
    value leaves the binding's type and value as the decoder left them, which
    is recorded as [PUnset]. *)

From S2P Require Import Prelude Ber Asn1 Asn1Int Asn1Str Asn1Oid Asn1Int64 Asn1Float.
From S2P Require Import Asn1Rbuild VarBind Pdu.
From stdpp Require Import prelude numbers list.
From Stdlib Require Import ZArith Lia.
Open Scope Z_scope.

Definition MAX_PACKET_LENGTH : Z := 0x7fffffff.

(** [sizeof(netsnmp_variable_list)], [sizeof(vp->buf)] and [sizeof(oid)] *)
Definition SIZEOF_VARIABLE_LIST : Z := 588.
Definition SIZEOF_BUF : Z := 40.
Definition SIZEOF_OID : Z := 4.

(** What [vp->val] points to, with [vp->type] and [vp->val_len]. *)
Inductive pvalue :=
| PLong (type z : Z)
| PUlong (type z : Z)
| PCounter64 (type : Z) (c : counter64)
| PFloat (type bits : Z)
| PDouble (type bits : Z)
| PString (type : Z) (s : list Z)
| PObjid (type : Z) (o : list Z)
| PNull (type : Z)
| PBits (type : Z) (s : list Z)
| PBadType (type : Z)
| PUnset.

Record pvar := PVar { pv_name : list Z; pv_value : pvalue }.

(** The fields in front of the bindings. *)
Inductive pfields :=
| PTrap (enterprise agent_addr : list Z) (trap_type specific_type time : Z)
| PRequest (reqid errstat errindex : Z).

Record ppdu := PPdu {
  p_command : Z;
  p_response : bool;
  p_fields : pfields;
  p_vars : list pvar;
  p_badtype : bool;
}.

Section Parse.
Variable malloc_ok : Z → bool.

(** The local array [objid] of [MAX_OID_LEN] subidentifiers, as it is before a
    call that fills it. *)
Variable objid : list Z.

(** The result of a decoder, when it is not looked at. *)
Definition unexamined {A} (m : M A) (f : A → pvalue) : M pvalue :=
  match m with Ok a => Ok (f a) | Err => Ok PUnset | UB => UB end.

(** A string object of the given size, before it is filled. *)
Definition blank (n : Z) : list Z := replicate (Z.to_nat n) 0.

(** [*objidlength] after [asn_parse_objid] returned [NULL]: a length error
    leaves or restores it, a subidentifier that does not end stops the loop with
    the arcs left over. *)
Fixpoint objid_left_loop (fuel : nat) (buf : list Z) (length bufp : nat)
    (objidlength original_length : Z) : M Z :=
  match fuel with
  | O => UB
  | S fuel =>
      if (0 <? length)%nat && (0 <? objidlength) then
        '(length, bufp, _) ← subid_loop buf length bufp 0;
        unfinished ← (if (length =? 0)%nat
                      then last_byte ← rd buf (bufp - 1);
                           Ok (negb (Z.land last_byte ASN_BIT8 =? 0))
                      else Ok false);
        if unfinished : bool then Ok (u32 (objidlength - 1))
        else objid_left_loop fuel buf length bufp (u32 (objidlength - 1)) original_length
      else Ok original_length
  end.

Definition objid_left (buf : list Z) (data : nat) (datalength objidlength : Z) : M Z :=
  match parse_length_checked buf data (data + 1) datalength with
  | Ok (bufp, asn_length) =>
      objid_left_loop (S (Z.to_nat asn_length)) buf (Z.to_nat asn_length) bufp
        (u32 (objidlength - 1)) objidlength
  | Err => Ok objidlength
  | UB => UB
  end.

(** The [switch ((short) vp->type)] on a value at [var_val]. *)
Definition parse_value (buf : list Z) (var_val : nat) (type val_len : Z) : M pvalue :=
  let len := MAX_PACKET_LENGTH in
  if tag_in type [ASN_INTEGER] then
    unexamined (asn_parse_int buf var_val len SIZEOF_LONG) (λ '(_, _, t, z), PLong t z)
  else if tag_in type [ASN_COUNTER; ASN_GAUGE; ASN_TIMETICKS; ASN_UINTEGER] then
    unexamined (asn_parse_unsigned_int buf var_val len SIZEOF_LONG)
      (λ '(_, _, t, z), PUlong t z)
  else if tag_in type [ASN_OPAQUE_COUNTER64; ASN_OPAQUE_U64; ASN_COUNTER64] then
    unexamined (asn_parse_unsigned_int64 buf var_val len SIZEOF_COUNTER64)
      (λ '(_, _, t, c), PCounter64 t c)
  else if tag_in type [ASN_OPAQUE_FLOAT] then
    unexamined (asn_parse_float buf var_val len SIZEOF_FLOAT) (λ '(_, _, t, b), PFloat t b)
  else if tag_in type [ASN_OPAQUE_DOUBLE] then
    unexamined (asn_parse_double buf var_val len SIZEOF_DOUBLE)
      (λ '(_, _, t, b), PDouble t b)
  else if tag_in type [ASN_OPAQUE_I64] then
    unexamined (asn_parse_signed_int64 buf var_val len SIZEOF_COUNTER64)
      (λ '(_, _, t, c), PCounter64 t c)
  else if tag_in type [ASN_OCTET_STR; ASN_IPADDRESS; ASN_OPAQUE; ASN_NSAP] then
    str ← (if val_len <? SIZEOF_BUF then Ok (blank SIZEOF_BUF)
           else if malloc_ok val_len then Ok (blank val_len) else Err);
    unexamined (asn_parse_string buf var_val len str val_len)
      (λ '(_, _, t, (str, n)), PString t (take (Z.to_nat n) str))
  else if tag_in type [ASN_OBJECT_ID] then
    match asn_parse_objid buf var_val len objid MAX_OID_LEN with
    | Ok (_, _, t, (o, n)) =>
        if malloc_ok (n * SIZEOF_OID) then Ok (PObjid t (take (Z.to_nat n) o)) else Err
    | Err =>
        n ← objid_left buf var_val len MAX_OID_LEN;
        if malloc_ok (u32 (n * SIZEOF_OID)) then Ok PUnset else Err
    | UB => UB
    end
  else if tag_in type
            [SNMP_NOSUCHOBJECT; SNMP_NOSUCHINSTANCE; SNMP_ENDOFMIBVIEW; ASN_NULL] then
    Ok (PNull type)
  else if tag_in type [ASN_BIT_STR] then
    if malloc_ok val_len then
      unexamined (asn_parse_bitstring buf var_val len (blank val_len) val_len)
        (λ '(_, _, t, (str, n)), PBits t (take (Z.to_nat n) str))
    else Err
  else Ok (PBadType type).

(** One turn of the loop over the bindings.  [snmp_set_var_objid] copies the
    name into [name_loc], which has room for [MAX_OID_LEN] subidentifiers. *)
Definition parse_binding (buf : list Z) (data : nat) (length : Z) : M (nat * Z * pvar) :=
  if negb (malloc_ok SIZEOF_VARIABLE_LIST) then Err
  else
    '(data, length, vo) ← snmp_parse_var_op buf data objid MAX_OID_LEN length;
    v ← parse_value buf (vo_val vo) (vo_type vo) (vo_val_len vo);
    Ok (data, length, PVar (take (Z.to_nat (vo_name_len vo)) (vo_name vo)) v).

(** [while ((int) *length > 0)]; every binding takes at least one byte. *)
Fixpoint parse_varbinds (fuel : nat) (buf : list Z) (data : nat) (length : Z)
    : M (list pvar) :=
  match fuel with
  | O => UB
  | S fuel =>
      if 0 <? s32 length then
        '(data, length, v) ← parse_binding buf data length;
        vs ← parse_varbinds fuel buf data length;
        Ok (v :: vs)
      else Ok []
  end.

(** The [switch (pdu->command)]: position, [*length], fields and response flag. *)
Definition parse_fields (buf : list Z) (data : nat) (length command : Z)
    : M (nat * Z * pfields * bool) :=
  if command =? SNMP_MSG_TRAP then
    '(data, length, _, (o, n)) ← asn_parse_objid buf data length objid MAX_OID_LEN;
    if negb (malloc_ok (n * SIZEOF_OID)) then Err
    else
      '(data, length, _, (addr, _)) ← asn_parse_string buf data length (blank 4) 4;
      '(data, length, _, trap_type) ← asn_parse_int buf data length SIZEOF_LONG;
      '(data, length, _, specific_type) ← asn_parse_int buf data length SIZEOF_LONG;
      '(data, length, _, time) ← asn_parse_unsigned_int buf data length SIZEOF_LONG;
      Ok (data, length, PTrap (take (Z.to_nat n) o) addr trap_type specific_type time, false)
  else if tag_in command
            [SNMP_MSG_RESPONSE; SNMP_MSG_REPORT; SNMP_MSG_GET; SNMP_MSG_GETNEXT;
             SNMP_MSG_GETBULK; SNMP_MSG_TRAP2; SNMP_MSG_INFORM; SNMP_MSG_SET] then
    '(data, length, _, reqid) ← asn_parse_int buf data length SIZEOF_LONG;
    '(data, length, _, errstat) ← asn_parse_int buf data length SIZEOF_LONG;
    '(data, length, _, errindex) ← asn_parse_int buf data length SIZEOF_LONG;
    Ok (data, length, PRequest reqid errstat errindex,
        tag_in command [SNMP_MSG_RESPONSE; SNMP_MSG_REPORT])
  else Err.

Definition is_badtype (v : pvar) : bool :=
  match pv_value v with PBadType _ => true | _ => false end.

(** [Err] is an early return of -1; otherwise the result is -1 exactly when
    [p_badtype]. *)
Definition snmp_pdu_parse (buf : list Z) (data : nat) (length : Z) : M ppdu :=
  '(data, length, msg_type) ← asn_parse_header buf (Some data) length;
  '(data, length, fields, response) ← parse_fields buf data length msg_type;
  '(data, length, _) ←
    asn_parse_sequence buf (Some data) length (Z.lor ASN_SEQUENCE ASN_CONSTRUCTOR);
  vars ← parse_varbinds (S (Z.to_nat length)) buf data length;
  Ok (PPdu msg_type response fields vars (existsb is_badtype vars)).
End Parse.

(** ** Decoding what the encoders write *)

(** The same type and value in the form of a decoded binding. *)
Definition decoded (v : value) : pvalue :=
  match v with
  | VInteger z => PLong ASN_INTEGER z
  | VUnsigned t z => PUlong t z
  | VCounter64 t z => PCounter64 t (c64_of z)
  | VString t s => PString t s
  | VObjid o => PObjid ASN_OBJECT_ID o
  | VNull t => PNull t
  | VBits s => PBits ASN_BIT_STR s
  | VFloat bits => PFloat ASN_OPAQUE_FLOAT bits
  | VDouble bits => PDouble ASN_OPAQUE_DOUBLE bits
  | VI64 z => PCounter64 ASN_OPAQUE_I64 (c64_of z)
  end.

(** Object identifiers whose first two arcs share one subidentifier uniquely. *)
Definition oid_exact (o : list Z) : Prop :=
  oid_encodable o ∧ ∀ x y rest, o = x :: y :: rest → x < 2 → y < 40.

(** Values that arrive as they were sent.  A negative 64-bit integer that fits into four
    octets does not (Codec.asn_signed_int64_small_negative_lost). *)
Definition value_exact (v : value) : Prop :=
  value_ok v ∧ value_plain v ∧
  match v with
  | VObjid o => oid_exact o
  | VI64 z => 0 ≤ z ∨ z < - 2 ^ 31
  | _ => True
  end.

Definition malloc_grants (malloc_ok : Z → bool) : Prop :=
  ∀ n, 0 ≤ n ≤ 2 ^ 16 → malloc_ok n = true.

Lemma length_blank n : length (blank n) = Z.to_nat n.
Proof. apply length_replicate. Qed.

Lemma oid_exact_length o : oid_exact o → zlen o ≤ MAX_OID_LEN.
Proof. intros [Ho _]. destruct o as [|x [|y rest]]; [done..|]. apply Ho. Qed.

Lemma unexamined_decodes {A} (f : list Z → nat → Z → M (nat * Z * Z * A)) tag enc v pre post
    (k : nat * Z * Z * A → pvalue) :
  Decodes f tag enc v → zlen enc ≤ MAX_PACKET_LENGTH →
  unexamined (f (pre ++ enc ++ post) (length pre) MAX_PACKET_LENGTH) k
  = Ok (k ((length pre + length enc)%nat, MAX_PACKET_LENGTH - zlen enc, tag, v)).
Proof. intros Hf Hl. rewrite Hf by (unfold MAX_PACKET_LENGTH in *; lia). done. Qed.

(** The object a string value is stored in has room for it. *)
Lemma string_object malloc_ok s :
  malloc_grants malloc_ok → zlen s < 2 ^ 16 →
  ∃ str, (if zlen s <? SIZEOF_BUF then Ok (blank SIZEOF_BUF)
          else if malloc_ok (zlen s) then Ok (blank (zlen s)) else Err) = Ok str ∧
    zlen s ≤ zlen str.
Proof.
  intros Hm Hz. pose proof (zlen_nonneg s). destruct (Z.ltb_spec (zlen s) SIZEOF_BUF).
  - eexists. split; [done|]. unfold zlen at 2. rewrite length_blank. lia.
  - rewrite Hm by lia. eexists. split; [done|].
    unfold zlen at 2. rewrite length_blank, Z_to_nat_zlen. unfold zlen. lia.
Qed.

Lemma parse_value_spec malloc_ok objid v pre post :
  malloc_grants malloc_ok → zlen objid = MAX_OID_LEN → value_exact v →
  zlen (ber_value v) ≤ MAX_PACKET_LENGTH →
  parse_value malloc_ok objid (pre ++ ber_value v ++ post) (length pre) (value_type v)
    (zlen (value_contents v))
  = Ok (decoded v).
Proof.
  intros Hm Hobj (Hok & Hp & Hex) Hl. unfold parse_value.
  destruct v; cbn [value_type value_ok value_plain ber_value value_contents decoded] in *.
  - eval_tags. rewrite (unexamined_decodes (λ b d l, asn_parse_int b d l SIZEOF_LONG)
      ASN_INTEGER _ z) by (done || by apply asn_parse_int_decodes). done.
  - destruct Hok as [Ht Hz].
    pose proof (unexamined_decodes (λ b d l, asn_parse_unsigned_int b d l SIZEOF_LONG) t _ z
      pre post (λ '(_, _, t, z), PUlong t z) (asn_parse_unsigned_int_decodes t z Hz) Hl) as Hu.
    case_tags Ht; eval_tags; exact Hu.
  - destruct Hok as [Ht Hz].
    assert (t ≠ ASN_OPAQUE) as Hno by (clear -Ht; case_tags Ht; done).
    pose proof (unexamined_decodes (λ b d l, asn_parse_unsigned_int64 b d l SIZEOF_COUNTER64)
      t _ (c64_of z) pre post (λ '(_, _, t, z), PCounter64 t z)
      (asn_parse_unsigned_int64_decodes t z Hz Hno) Hl) as Hu.
    case_tags Ht; eval_tags; exact Hu.
  - destruct Hok as [Ht Hz].
    destruct (string_object malloc_ok s Hm Hz) as (str & Hstr & Hlen). rewrite Hstr.
    pose proof (unexamined_decodes (λ b d l, asn_parse_string b d l str (zlen s)) t _
      (string_result s str (zlen s), zlen s) pre post
      (λ '(_, _, t, (str, n)), PString t (take (Z.to_nat n) str))
      (asn_parse_string_decodes t s str (zlen s) ltac:(lia) ltac:(lia)) Hl) as Hu.
    unfold string_result in Hu. rewrite Z.ltb_irrefl, Z_to_nat_zlen, take_app_length in Hu.
    case_tags Ht; eval_tags; exact Hu.
  - eval_tags. pose proof (oid_exact_length o Hex) as Hlo. destruct Hex as [Ho H40].
    pose proof (zlen_nonneg o).
    rewrite (asn_parse_objid_decodes ASN_OBJECT_ID o objid MAX_OID_LEN Ho H40) by
      (unfold MAX_PACKET_LENGTH, MAX_OID_LEN, zlen in *; lia).
    unfold SIZEOF_OID. rewrite Hm by (unfold MAX_OID_LEN in *; lia).
    by rewrite Z_to_nat_zlen, take_app_length.
  - case_tags Hok; by eval_tags.
  - eval_tags. rewrite Hm by lia. assert (zlen s ≤ zlen (blank (zlen s))) as Hf
      by (unfold zlen at 2; rewrite length_blank, Z_to_nat_zlen; unfold zlen; lia).
    rewrite (unexamined_decodes (λ b d l, asn_parse_bitstring b d l _ _) ASN_BIT_STR _
      (s ++ drop (length s) (blank (zlen s)), zlen s)) by
      (done || (apply asn_parse_bitstring_decodes; lia)).
    by rewrite Z_to_nat_zlen, take_app_length.
  - eval_tags. rewrite asn_parse_float_spec by (unfold MAX_PACKET_LENGTH in *; lia). done.
  - eval_tags. rewrite asn_parse_double_spec by (unfold MAX_PACKET_LENGTH in *; lia). done.
  - eval_tags. rewrite (unexamined_decodes
      (λ b d l, asn_parse_signed_int64 b d l SIZEOF_COUNTER64) ASN_OPAQUE_I64 _ (c64_decoded z))
      by (done || by apply asn_parse_signed_int64_decodes).
    by rewrite c64_decoded_ok by lia.
Qed.

(** A binding as either encoder writes it: name, value and length octets. *)
Definition wire (b : list Z * value * list Z) : list Z :=
  (var_op_tag :: b.2) ++ var_op_contents b.1.1 b.1.2.

Definition wire_ok (b : list Z * value * list Z) : Prop :=
  oid_exact b.1.1 ∧ value_exact b.1.2 ∧ length_form (zlen (var_op_contents b.1.1 b.1.2)) b.2.

Definition decoded_binding (b : list Z * value * list Z) : pvar :=
  PVar b.1.1 (decoded b.1.2).

Lemma zlen_wire b :
  zlen (wire b) = 1 + zlen b.2 + zlen (var_op_contents b.1.1 b.1.2).
Proof. unfold wire. rewrite zlen_app, zlen_cons. lia. Qed.

Lemma parse_binding_spec malloc_ok objid b pre post dl :
  malloc_grants malloc_ok → zlen objid = MAX_OID_LEN → wire_ok b →
  zlen (wire b) ≤ dl < 2 ^ 31 →
  parse_binding malloc_ok objid (pre ++ wire b ++ post) (length pre) dl
  = Ok ((length pre + length (wire b))%nat, dl - zlen (wire b), decoded_binding b).
Proof.
  intros Hm Hobj (Hn & Hv & Hh) Hd. destruct b as [[name v] h]. cbn [fst snd] in *.
  unfold parse_binding. rewrite Hm by done. m_step.
  pose proof (oid_exact_length name Hn) as Hnl. pose proof (zlen_nonneg name).
  pose proof (zlen_wire (name, v, h)) as Hz. cbn [fst snd] in Hz.
  pose proof (zlen_nonneg h). pose proof (zlen_nonneg (var_op_contents name v)) as Hc.
  unfold wire. cbn [fst snd].
  rewrite (snmp_parse_var_op_decodes name v h pre post dl objid MAX_OID_LEN);
    [|apply Hn|apply Hn|apply Hv|apply Hv|lia|done|lia|unfold MAX_OID_LEN in *; lia|
     unfold zlen in *; lia].
  m_step. cbn [vo_val vo_type vo_val_len vo_name vo_name_len].
  assert (pre ++ ((var_op_tag :: h) ++ var_op_contents name v) ++ post
          = (pre ++ (var_op_tag :: h) ++ ber_oid ASN_OBJECT_ID name) ++ ber_value v ++ post)
    as -> by (unfold var_op_contents; by rewrite <- !app_assoc).
  rewrite parse_value_spec; [|done..|].
  - m_step. rewrite Z_to_nat_zlen, take_app_length. done.
  - unfold var_op_contents in Hz, Hc. rewrite zlen_app in Hz, Hc.
    pose proof (zlen_nonneg (ber_oid ASN_OBJECT_ID name)). unfold MAX_PACKET_LENGTH. lia.
Qed.

Lemma parse_varbinds_spec malloc_ok objid fuel bs pre post :
  malloc_grants malloc_ok → zlen objid = MAX_OID_LEN → Forall wire_ok bs →
  zlen (concat (wire <$> bs)) < 2 ^ 31 → (length bs < fuel)%nat →
  parse_varbinds malloc_ok objid fuel (pre ++ concat (wire <$> bs) ++ post) (length pre)
    (zlen (concat (wire <$> bs)))
  = Ok (decoded_binding <$> bs).
Proof.
  intros Hm Hobj Hbs. revert fuel pre.
  induction Hbs as [|b bs Hb Hbs IH]; intros fuel pre Hl Hf;
    (destruct fuel as [|fuel]; [simpl in Hf; lia|]); cbn [parse_varbinds].
  - done.
  - cbn [fmap list_fmap concat] in *. rewrite zlen_app in *.
    pose proof (zlen_wire b) as Hz. pose proof (zlen_nonneg b.2).
    pose proof (zlen_nonneg (var_op_contents b.1.1 b.1.2)).
    pose proof (zlen_nonneg (concat (wire <$> bs))).
    rewrite s32_id by lia. destruct (Z.ltb_spec 0 (zlen (wire b) + zlen (concat (wire <$> bs))));
      [|lia].
    rewrite <- app_assoc. rewrite (parse_binding_spec _ _ b) by (done || lia). m_step.
    specialize (IH fuel (pre ++ wire b)).
    rewrite <- app_assoc, length_app in IH.
    replace (zlen (wire b) + zlen (concat (wire <$> bs)) - zlen (wire b))
      with (zlen (concat (wire <$> bs))) by lia.
    rewrite IH; [done|lia|simpl in Hf; lia].
Qed.

Lemma length_wires bs : (length bs ≤ length (concat (wire <$> bs)))%nat.
Proof.
  induction bs as [|b bs IH]; [done|]. cbn [fmap list_fmap concat length].
  rewrite length_app. unfold wire at 1. cbn [app length]. lia.
Qed.

(** ** The fields *)

Definition command_ok (pdu : netsnmp_pdu) : Prop :=
  command pdu ∈ [SNMP_MSG_TRAP; SNMP_MSG_RESPONSE; SNMP_MSG_REPORT; SNMP_MSG_GET;
    SNMP_MSG_GETNEXT; SNMP_MSG_GETBULK; SNMP_MSG_TRAP2; SNMP_MSG_INFORM; SNMP_MSG_SET].

Definition decoded_fields (pdu : netsnmp_pdu) : pfields :=
  if decide (command pdu = SNMP_MSG_TRAP)
  then PTrap (enterprise pdu) (agent_addr pdu) (trap_type pdu) (specific_type pdu) (time pdu)
  else PRequest (reqid pdu) (errstat pdu) (errindex pdu).

Definition is_response (pdu : netsnmp_pdu) : bool :=
  tag_in (command pdu) [SNMP_MSG_RESPONSE; SNMP_MSG_REPORT].

(** One decoder after another. *)
Lemma decodes_step {A B} (f : list Z → nat → Z → M (nat * Z * Z * A)) tag enc v pre post dl
    (k : nat * Z * Z * A → M B) :
  Decodes f tag enc v → zlen enc ≤ dl < 2 ^ 32 →
  (x ← f (pre ++ enc ++ post) (length pre) dl; k x)
  = k (length (pre ++ enc), dl - zlen enc, tag, v).
Proof. intros Hf Hd. rewrite Hf by done. m_step. by rewrite length_app. Qed.

(** A step over one integer field. *)
Lemma int_field_step {B} z pre post dl (k : nat * Z * Z * Z → M B) :
  - 2 ^ 31 ≤ z < 2 ^ 31 → zlen (ber_int ASN_INTEGER z) ≤ dl < 2 ^ 32 →
  (x ← asn_parse_int (pre ++ ber_int ASN_INTEGER z ++ post) (length pre) dl SIZEOF_LONG; k x)
  = k (length (pre ++ ber_int ASN_INTEGER z), dl - zlen (ber_int ASN_INTEGER z), ASN_INTEGER, z).
Proof.
  intros Hz Hd. by apply (decodes_step (λ b d l, asn_parse_int b d l SIZEOF_LONG)
    ASN_INTEGER _ z _ _ _ _ (asn_parse_int_decodes _ _ Hz)).
Qed.

(** The fields of an SNMPv1 trap. *)
Lemma parse_trap_fields malloc_ok objid pdu pre post dl :
  malloc_grants malloc_ok → zlen objid = MAX_OID_LEN → fields_ok pdu →
  command pdu = SNMP_MSG_TRAP → oid_exact (enterprise pdu) →
  zlen (ber_fields pdu) ≤ dl < 2 ^ 32 →
  parse_fields malloc_ok objid (pre ++ ber_fields pdu ++ post) (length pre) dl SNMP_MSG_TRAP
  = Ok (length (pre ++ ber_fields pdu), dl - zlen (ber_fields pdu), decoded_fields pdu, false).
Proof.
  intros Hm Hobj [_ Hok] E Hex Hd. unfold parse_fields, ber_fields, decoded_fields in *.
  rewrite !decide_True in * by done. rewrite Z.eqb_refl.
  destruct Hok as (He & _ & Ha & Ht & Hs & Hti). pose proof Hex as [_ H40].
  pose proof (oid_exact_length _ Hex) as Hol. pose proof (zlen_nonneg (enterprise pdu)).
  rewrite !zlen_app in *.
  pose proof (zlen_nonneg (ber_oid ASN_OBJECT_ID (enterprise pdu))).
  pose proof (zlen_nonneg (ber_string ASN_IPADDRESS (agent_addr pdu))).
  pose proof (zlen_nonneg (ber_int ASN_INTEGER (trap_type pdu))).
  pose proof (zlen_nonneg (ber_int ASN_INTEGER (specific_type pdu))).
  pose proof (zlen_nonneg (ber_int ASN_TIMETICKS (time pdu))).
  assert (zlen (enterprise pdu) ≤ MAX_OID_LEN < 2 ^ 32) as Hcap by (split; done).
  assert (length (enterprise pdu) ≤ length objid)%nat as Hcap' by (unfold zlen in *; lia).
  rewrite <- !app_assoc.
  rewrite (decodes_step (λ b d l, asn_parse_objid b d l objid MAX_OID_LEN) ASN_OBJECT_ID
    _ _ _ _ _ _ (asn_parse_objid_decodes _ _ _ _ He H40 Hcap Hcap')) by lia.
  unfold SIZEOF_OID. rewrite Hm by (unfold MAX_OID_LEN in *; lia). cbn [negb].
  rewrite Z_to_nat_zlen, take_app_length, app_assoc.
  rewrite (decodes_step (λ b d l, asn_parse_string b d l (blank 4) 4) ASN_IPADDRESS
    _ (string_result (agent_addr pdu) (blank 4) 4, zlen (agent_addr pdu))) by
    (lia || (apply asn_parse_string_decodes; rewrite Ha; done)).
  rewrite app_assoc, int_field_step, app_assoc, int_field_step, app_assoc by lia.
  rewrite (decodes_step (λ b d l, asn_parse_unsigned_int b d l SIZEOF_LONG) ASN_TIMETICKS
    _ (time pdu)) by (lia || by apply asn_parse_unsigned_int_decodes).
  unfold string_result. rewrite Ha, Z.ltb_irrefl.
  rewrite (drop_ge (blank 4)) by (rewrite length_blank; unfold zlen in Ha; lia).
  rewrite app_nil_r, <- !app_assoc. do 4 f_equal. lia.
Qed.

Lemma parse_fields_spec malloc_ok objid pdu pre post dl :
  malloc_grants malloc_ok → zlen objid = MAX_OID_LEN → fields_ok pdu → command_ok pdu →
  (command pdu = SNMP_MSG_TRAP → oid_exact (enterprise pdu)) →
  zlen (ber_fields pdu) ≤ dl < 2 ^ 32 →
  parse_fields malloc_ok objid (pre ++ ber_fields pdu ++ post) (length pre) dl (command pdu)
  = Ok (length (pre ++ ber_fields pdu), dl - zlen (ber_fields pdu), decoded_fields pdu,
        is_response pdu).
Proof.
  intros Hm Hobj Hf Hcmd Hex Hd. destruct (decide (command pdu = SNMP_MSG_TRAP)) as [E|E].
  { unfold is_response. rewrite E. apply parse_trap_fields; auto. }
  destruct Hf as [_ Hok].
  unfold parse_fields, ber_fields, decoded_fields, is_response, command_ok in *.
  rewrite !decide_False in * by done. rewrite (proj2 (Z.eqb_neq _ _) E).
  destruct Hok as (Hr & Hs & Hi). rewrite !zlen_app in *.
  pose proof (zlen_nonneg (ber_int ASN_INTEGER (reqid pdu))).
  pose proof (zlen_nonneg (ber_int ASN_INTEGER (errstat pdu))).
  pose proof (zlen_nonneg (ber_int ASN_INTEGER (errindex pdu))).
  apply elem_of_cons in Hcmd as [?|Hcmd]; [done|].
  assert (tag_in (command pdu)
          [SNMP_MSG_RESPONSE; SNMP_MSG_REPORT; SNMP_MSG_GET; SNMP_MSG_GETNEXT;
           SNMP_MSG_GETBULK; SNMP_MSG_TRAP2; SNMP_MSG_INFORM; SNMP_MSG_SET] = true) as ->.
  { apply existsb_exists. exists (command pdu). split; [by apply list_elem_of_In|lia]. }
  rewrite <- !app_assoc.
  rewrite int_field_step, app_assoc, int_field_step, app_assoc, int_field_step by lia.
  rewrite <- !app_assoc. do 4 f_equal. lia.
Qed.

(** ** The whole PDU *)

Definition pdu_wire (pdu : netsnmp_pdu) (h1 h2 : list Z) (bs : list (list Z * value * list Z))
    : list Z :=
  (command pdu :: h1) ++ ber_fields pdu ++ (var_op_tag :: h2) ++ concat (wire <$> bs).

Definition decoded_pdu (pdu : netsnmp_pdu) (bs : list (list Z * value)) : ppdu :=
  PPdu (command pdu) (is_response pdu) (decoded_fields pdu)
    ((λ b, PVar b.1 (decoded b.2)) <$> bs) false.

Lemma no_badtype (bs : list (list Z * value * list Z)) :
  existsb is_badtype (decoded_binding <$> bs) = false.
Proof.
  induction bs as [|[[n v] h] bs IH]; [done|]. cbn [fmap list_fmap existsb]. rewrite IH.
  by destruct v.
Qed.

Lemma snmp_pdu_parse_wire malloc_ok objid pdu h1 h2 bs pre post dl :
  malloc_grants malloc_ok → zlen objid = MAX_OID_LEN → fields_ok pdu → command_ok pdu →
  (command pdu = SNMP_MSG_TRAP → oid_exact (enterprise pdu)) → Forall wire_ok bs →
  let c := ber_fields pdu ++ (var_op_tag :: h2) ++ concat (wire <$> bs) in
  length_form (zlen c) h1 → length_form (zlen (concat (wire <$> bs))) h2 →
  zlen (pdu_wire pdu h1 h2 bs) ≤ dl < 2 ^ 31 →
  snmp_pdu_parse malloc_ok objid (pre ++ pdu_wire pdu h1 h2 bs ++ post) (length pre) dl
  = Ok (decoded_pdu pdu bs.*1).
Proof.
  intros Hm Hobj Hf Hcmd Hex Hbs c Hh1 Hh2 Hd. unfold snmp_pdu_parse, pdu_wire.
  change (ber_fields pdu ++ (var_op_tag :: h2) ++ concat (wire <$> bs)) with c.
  assert (zlen (pdu_wire pdu h1 h2 bs) = 1 + zlen h1 + zlen c) as Hz
    by (unfold pdu_wire; rewrite (zlen_app (_ :: _)), zlen_cons; fold c; lia).
  pose proof (zlen_nonneg h1). pose proof (zlen_nonneg c).
  assert (zlen c = zlen (ber_fields pdu) + (1 + zlen h2) + zlen (concat (wire <$> bs))) as Hzc
    by (unfold c; rewrite !zlen_app, zlen_cons; lia).
  pose proof (zlen_nonneg (ber_fields pdu)). pose proof (zlen_nonneg h2).
  pose proof (zlen_nonneg (concat (wire <$> bs))).
  assert (IS_EXTENSION_ID (command pdu) = false ∧ command pdu ≠ ASN_OPAQUE) as [He Ho].
  { unfold command_ok in Hcmd. clear -Hcmd.
    repeat (apply elem_of_cons in Hcmd as [->|Hcmd]; [done|]). by apply elem_of_nil in Hcmd. }
  rewrite <- (app_assoc (command pdu :: h1)).
  rewrite (parse_form_header (command pdu) (zlen c)) by (done || lia). m_step.
  rewrite (app_assoc pre).
  assert (c ++ post = ber_fields pdu ++ (var_op_tag :: h2) ++ concat (wire <$> bs) ++ post)
    as -> by (unfold c; by rewrite <- !app_assoc).
  rewrite parse_fields_spec by (done || lia). m_step.
  rewrite (app_assoc (pre ++ _)).
  change (Z.lor ASN_SEQUENCE ASN_CONSTRUCTOR) with var_op_tag.
  rewrite (parse_seq_header (zlen (concat (wire <$> bs)))) by (done || lia). m_step.
  rewrite (app_assoc ((pre ++ _) ++ _)).
  rewrite parse_varbinds_spec; [|done..|lia|].
  - m_step. rewrite no_badtype. unfold decoded_pdu. do 2 f_equal.
    rewrite <- list_fmap_compose. done.
  - pose proof (length_wires bs). unfold zlen. lia.
Qed.

(** The two encoders write wires. *)
Lemma ber_pdu_wire pdu bs :
  ∃ h1 h2 ws, ber_pdu pdu bs = pdu_wire pdu h1 h2 ws ∧ ws.*1 = bs ∧
    Forall (λ w, w.2 = ber_length (zlen (var_op_contents w.1.1 w.1.2))) ws ∧
    h1 = ber_length (zlen (ber_fields pdu ++ (var_op_tag :: h2) ++ concat (wire <$> ws))) ∧
    h2 = ber_length (zlen (concat (wire <$> ws))).
Proof.
  set (ws := (λ b, (b, ber_length (zlen (var_op_contents b.1 b.2)))) <$> bs).
  assert (concat ((λ b, ber_var_op b.1 b.2) <$> bs) = concat (wire <$> ws)) as Hw.
  { unfold ws. by rewrite <- list_fmap_compose. }
  eexists _, _, ws. unfold ber_pdu, pdu_wire. rewrite Hw, !ber_tlv_cons.
  split_and!; [done|unfold ws; rewrite <- list_fmap_compose; apply list_fmap_id| |done|done].
  unfold ws. apply Forall_fmap, Forall_true. done.
Qed.

Lemma pdu_long_wire pdu bs :
  ∃ h1 h2 ws, pdu_long pdu bs = pdu_wire pdu h1 h2 ws ∧ ws.*1 = bs ∧
    Forall (λ w, w.2 = 0x82 :: be_bytes 2 (zlen (var_op_contents w.1.1 w.1.2))) ws ∧
    h1 = 0x82 :: be_bytes 2
           (zlen (ber_fields pdu ++ (var_op_tag :: h2) ++ concat (wire <$> ws))) ∧
    h2 = 0x82 :: be_bytes 2 (zlen (concat (wire <$> ws))).
Proof.
  set (ws := (λ b, (b, 0x82 :: be_bytes 2 (zlen (var_op_contents b.1 b.2)))) <$> bs).
  assert (concat ((λ b, var_op_long b.1 b.2) <$> bs) = concat (wire <$> ws)) as Hw.
  { unfold ws. by rewrite <- list_fmap_compose. }
  eexists _, _, ws. unfold pdu_long, pdu_wire, seq_long. rewrite Hw.
  split_and!; [done|unfold ws; rewrite <- list_fmap_compose; apply list_fmap_id| |done|done].
  unfold ws. apply Forall_fmap, Forall_true. done.
Qed.

Definition binding_exact (b : list Z * value) : Prop := oid_exact b.1 ∧ value_exact b.2.

Lemma wires_ok ws :
  Forall binding_exact ws.*1 →
  (∀ w, w ∈ ws → length_form (zlen (var_op_contents w.1.1 w.1.2)) w.2) →
  Forall wire_ok ws.
Proof.
  intros Hbs Hf. apply Forall_forall. intros w Hw. rewrite Forall_forall in Hbs.
  destruct (Hbs w.1) as [Hn Hv]; [apply list_elem_of_fmap; by exists w|].
  split_and!; [done|done|by apply Hf].
Qed.

Lemma snmp_pdu_parse_ber malloc_ok objid pdu bs pre post dl :
  malloc_grants malloc_ok → zlen objid = MAX_OID_LEN → fields_ok pdu → command_ok pdu →
  (command pdu = SNMP_MSG_TRAP → oid_exact (enterprise pdu)) → Forall binding_exact bs →
  zlen (ber_pdu pdu bs) ≤ dl < 2 ^ 31 →
  snmp_pdu_parse malloc_ok objid (pre ++ ber_pdu pdu bs ++ post) (length pre) dl
  = Ok (decoded_pdu pdu bs).
Proof.
  intros Hm Hobj Hf Hcmd Hex Hbs Hd.
  destruct (ber_pdu_wire pdu bs) as (h1 & h2 & ws & Heq & Hws & Hh & Hh1 & Hh2).
  rewrite Heq, <- Hws in *. apply snmp_pdu_parse_wire; try done; [|by left|by left].
  apply (wires_ok ws Hbs). intros w Hw. rewrite Forall_forall in Hh. left. by apply Hh.
Qed.

Lemma snmp_pdu_parse_long malloc_ok objid pdu bs pre post dl :
  malloc_grants malloc_ok → zlen objid = MAX_OID_LEN → fields_ok pdu → command_ok pdu →
  (command pdu = SNMP_MSG_TRAP → oid_exact (enterprise pdu)) → Forall binding_exact bs →
  zlen (pdu_long pdu bs) < 2 ^ 16 → zlen (pdu_long pdu bs) ≤ dl < 2 ^ 31 →
  snmp_pdu_parse malloc_ok objid (pre ++ pdu_long pdu bs ++ post) (length pre) dl
  = Ok (decoded_pdu pdu bs).
Proof.
  intros Hm Hobj Hf Hcmd Hex Hbs Hs Hd.
  destruct (pdu_long_wire pdu bs) as (h1 & h2 & ws & Heq & Hws & Hh & Hh1 & Hh2).
  rewrite Heq, <- Hws in *. unfold pdu_wire in Hs. rewrite zlen_app in Hs.
  pose proof (zlen_nonneg (command pdu :: h1)).
  assert (zlen (concat (wire <$> ws)) < 2 ^ 16) as Hs2.
  { rewrite !zlen_app in Hs. pose proof (zlen_nonneg (ber_fields pdu)).
    pose proof (zlen_nonneg (var_op_tag :: h2)). lia. }
  apply snmp_pdu_parse_wire; try done; [|right; split; [done|lia]|right; split; [done|lia]].
  apply (wires_ok ws Hbs). intros w Hw. rewrite Forall_forall in Hh.
  right. split; [by apply Hh|].
  assert (zlen (wire w) ≤ zlen (concat (wire <$> ws))) as Hle.
  { apply list_elem_of_split in Hw as (l1 & l2 & ->). rewrite fmap_app, concat_app.
    cbn [fmap list_fmap concat]. rewrite !zlen_app.
    pose proof (zlen_nonneg (concat (wire <$> l1))).
    pose proof (zlen_nonneg (concat (wire <$> l2))). lia. }
  rewrite zlen_wire in Hle. pose proof (zlen_nonneg w.2). lia.
Qed.
