(* ===== verification/PduRoundtrip.v ===== *)
(** * PDU round trips

    snmp_pdu_parse undoes snmp_pdu_realloc_rbuild and snmp_pdu_build of
    snmplib/snmp_api.c, and the ring of bindings writes every binding once and
    in order. *)

From S2P Require Import Prelude Ber Asn1 Asn1Int Asn1Str Asn1Oid Asn1Int64 Asn1Float.
From S2P Require Import Asn1Rbuild VarBind Pdu PduRbuild PduParse.
From stdpp Require Import prelude numbers list.
From Stdlib Require Import ZArith Lia.
Open Scope Z_scope.

(** A PDU whose every field the wire format can carry. *)
Definition pdu_exact (pdu : netsnmp_pdu) (bs : list (list Z * value)) : Prop :=
  fields_ok pdu ∧ command_ok pdu ∧
  (command pdu = SNMP_MSG_TRAP → oid_exact (enterprise pdu)) ∧
  Forall2 rholds (variables pdu) bs ∧ Forall binding_exact bs.

Lemma rholds_holds vars bs : Forall2 rholds vars bs → Forall2 holds vars bs.
Proof. intros HF. eapply Forall2_impl; [exact HF|]. intros v b [Hh _]. exact Hh. Qed.

(** The written part of a well-formed state is the end of its buffer. *)
Lemma written_split st :
  wf st → pkt st = take (length (pkt st) - offset st) (pkt st) ++ written st ∧
    length (take (length (pkt st) - offset st) (pkt st)) = (length (pkt st) - offset st)%nat.
Proof.
  intros [Ho _]. unfold written. rewrite take_drop, length_take. split; [done|lia].
Qed.

(** ** A sample PDU *)

Definition sample_var : variable_list :=
  Var [1; 3; 6; 1; 2; 1; 1; 3; 0] 9 ASN_TIMETICKS (Some (store32 360000)) 4.

Definition sample_binding : list Z * value :=
  ([1; 3; 6; 1; 2; 1; 1; 3; 0], VUnsigned ASN_TIMETICKS 360000).

(** A response with [n] copies of the binding. *)
Definition sample_pdu (n : nat) : netsnmp_pdu :=
  NetsnmpPdu SNMP_MSG_RESPONSE 12345 0 0 [] 0 [0; 0; 0; 0] 0 0 0 (replicate n sample_var).

Lemma sample_oid_exact : oid_exact [1; 3; 6; 1; 2; 1; 1; 3; 0].
Proof.
  split.
  - repeat split; try done; repeat constructor; unfold is_u32; lia.
  - intros x y r [= <- <- _]. lia.
Qed.

Lemma sample_rholds : rholds sample_var sample_binding.
Proof.
  split; [|done]. exists []. split_and!; try done; [apply sample_oid_exact|..].
  apply (bool_decide_unpack _). by vm_compute.
Qed.

Lemma sample_pdu_exact n : pdu_exact (sample_pdu n) (replicate n sample_binding).
Proof.
  split_and!; try done.
  - apply (bool_decide_unpack _). by vm_compute.
  - cbn [variables sample_pdu]. induction n; simpl; constructor; [apply sample_rholds|done].
  - apply Forall_replicate. split; [apply sample_oid_exact|].
    split_and!; try done. apply (bool_decide_unpack _). by vm_compute.
Qed.

Lemma malloc_all_grants T : Z.of_nat T + 8192 < 2 ^ 31 → grants (alloc := malloc_all) T.
Proof. intros HT n Hn. apply Z.ltb_lt. lia. Qed.

(** ** Properties *)

(** Snmp_pdu_realloc_rbuild writes every variable binding exactly once and in
    list order, however many there are: the ring of fifty pointers and the
    repeated walks visit the singly linked list from its end to its head. *)
Theorem rbuild_varbinds_in_order `{Allocator} pdu bs st :
  Forall2 rholds (variables pdu) bs → wf st →
  grants (offset st + length (concat ((λ b, ber_var_op b.1 b.2) <$> bs))) →
  ∃ st', rbuild_varbinds pdu st = Ok st' ∧
    written st' = concat ((λ b, ber_var_op b.1 b.2) <$> bs) ++ written st.
Proof.
  intros Hb Hwf HT.
  destruct (rspec_granted _ _ _ st (rbuild_varbinds_rspec pdu bs Hb) HT (le_n _) Hwf)
    as (st' & Hr & _ & Hw & _).
  by exists st'.
Qed.

Lemma rbuild_varbinds_in_order_witness :
  ∃ st', rbuild_varbinds (alloc := malloc_all) (sample_pdu 120) (RState [] 0) = Ok st' ∧
    written st' = concat ((λ b, ber_var_op b.1 b.2) <$> replicate 120 sample_binding)
                  ++ written (RState [] 0).
Proof.
  apply rbuild_varbinds_in_order; [apply sample_pdu_exact|by split|].
  apply malloc_all_grants. by vm_compute.
Defined.

(** For every request, response, report, SNMPv2 trap, inform or SNMPv1 trap
    PDU the wire format can carry, snmp_pdu_realloc_rbuild succeeds when the
    allocator grants the space, and snmp_pdu_parse of the octets it put in front
    returns the same command, fields and bindings. *)
Theorem snmp_pdu_rbuild_roundtrip `{Allocator} malloc_ok objid pdu bs st :
  pdu_exact pdu bs → wf st → grants (offset st + length (ber_pdu pdu bs)) →
  malloc_grants malloc_ok → zlen objid = MAX_OID_LEN →
  ∃ st', snmp_pdu_realloc_rbuild pdu st = Ok st' ∧
    written st' = ber_pdu pdu bs ++ written st ∧
    snmp_pdu_parse malloc_ok objid (pkt st') (length (pkt st') - offset st')
      (Z.of_nat (offset st'))
    = Ok (decoded_pdu pdu bs).
Proof.
  intros (Hf & Hc & He & Hb & Hx) Hwf HT Hm Ho.
  destruct (snmp_pdu_realloc_rbuild_spec pdu bs st Hf Hb Hwf HT) as (st' & Hr & HP).
  exists st'. pose proof HP as (Hwf' & Hw & Hof & _). split_and!; [done|done|].
  destruct (written_split st' Hwf') as [Hsplit Hlen].
  rewrite <- Hlen, Hsplit, Hw at 1.
  apply snmp_pdu_parse_ber; try done.
  destruct Hwf' as [Ho' Hl']. unfold zlen in *. lia.
Qed.

Lemma snmp_pdu_rbuild_roundtrip_witness :
  ∃ st', snmp_pdu_realloc_rbuild (alloc := malloc_all) (sample_pdu 2) (RState [] 0) = Ok st' ∧
    written st' = ber_pdu (sample_pdu 2) (replicate 2 sample_binding)
                  ++ written (RState [] 0) ∧
    snmp_pdu_parse (λ _, true) (replicate 128 0) (pkt st') (length (pkt st') - offset st')
      (Z.of_nat (offset st'))
    = Ok (decoded_pdu (sample_pdu 2) (replicate 2 sample_binding)).
Proof.
  apply snmp_pdu_rbuild_roundtrip; [apply sample_pdu_exact|by split| |done|done].
  apply malloc_all_grants. by vm_compute.
Defined.

(** C32: snmp_pdu_parse gives back the PDU that the forward encoder snmp_pdu_build wrote,
    with the same command, fields, names, types and values, for PDUs of less than 64 KiB
    and an output buffer that has room for them; without room the encoder fails.  The PDU is
    one of [pdu_exact]: object identifiers whose second arc is below 40 unless the first
    is 2, no negative 64-bit integer that fits four octets, no plain Opaque that reads as a
    special one. *)
Theorem snmp_pdu_build_roundtrip malloc_ok objid pdu bs buf cp dl :
  pdu_exact pdu bs → zlen (pdu_long pdu bs) < 2 ^ 16 →
  0 ≤ dl < 2 ^ 31 → (cp + Z.to_nat dl ≤ length buf)%nat →
  malloc_grants malloc_ok → zlen objid = MAX_OID_LEN →
  if decide (zlen (pdu_long pdu bs) ≤ dl) then
    ∃ buf', snmp_pdu_build pdu buf cp dl
      = Ok (buf', (cp + length (pdu_long pdu bs))%nat, dl - zlen (pdu_long pdu bs)) ∧
      snmp_pdu_parse malloc_ok objid buf' cp dl = Ok (decoded_pdu pdu bs)
  else snmp_pdu_build pdu buf cp dl = Err.
Proof.
  intros (Hf & Hc & He & Hb & Hx) Hs Hd Hl Hm Ho.
  rewrite !(snmp_pdu_build_encodes pdu bs Hf (rholds_holds _ _ Hb) Hs buf cp dl) by (done || lia).
  case_decide as Hfit; [|by rewrite put_small by lia].
  destruct (put_ok (pdu_long pdu bs) buf cp dl Hfit Hl) as (buf' & -> & Hw & _).
  exists buf'. split; [done|]. unfold zlen in Hfit.
  rewrite wr_list_eq in Hw by lia. set (post := drop _ buf) in Hw.
  assert (buf' = take cp buf ++ pdu_long pdu bs ++ post) as -> by congruence.
  assert (length (take cp buf) = cp) as Ht by (rewrite length_take; lia).
  rewrite <- Ht at 2. apply snmp_pdu_parse_long; try done. unfold zlen. lia.
Qed.

Lemma snmp_pdu_build_roundtrip_witness :
  if decide (zlen (pdu_long (sample_pdu 2) (replicate 2 sample_binding)) ≤ 90) then
    ∃ buf', snmp_pdu_build (sample_pdu 2) (replicate 100 0) 3 90
      = Ok (buf', (3 + length (pdu_long (sample_pdu 2) (replicate 2 sample_binding)))%nat,
            90 - zlen (pdu_long (sample_pdu 2) (replicate 2 sample_binding))) ∧
      snmp_pdu_parse (λ _, true) (replicate 128 0) buf' 3 90
      = Ok (decoded_pdu (sample_pdu 2) (replicate 2 sample_binding))
  else snmp_pdu_build (sample_pdu 2) (replicate 100 0) 3 90 = Err.
Proof.
  apply snmp_pdu_build_roundtrip; [apply sample_pdu_exact|done|lia|simpl; lia|done|done].
Defined.
