(* ===== verification/Safety.v ===== *)
(** * Memory safety of the decoders on arbitrary input

    A packet comes from the network, so nothing is known of its bytes.  Here
    every decoder of asn1.c that snmp_pdu_parse uses, snmp_parse_var_op and
    snmp_pdu_parse itself are shown to stay inside the receive buffer and the
    output objects whatever the bytes are, provided the buffer extends seven
    bytes past the packet: the decoders fetch the identifier and the length
    octets of an object before they compare its size with [*datalength].
    Running out of fuel is [UB] in the model, so the same theorems show that
    the loops terminate. *)

From S2P Require Import Prelude Ber Asn1 Asn1Int Asn1Str Asn1Oid Asn1Int64 Asn1Float.
From S2P Require Import Asn1Rbuild VarBind Pdu PduParse.
From stdpp Require Import prelude numbers list.
From Stdlib Require Import ZArith Lia.
Open Scope Z_scope.

(** ** A calculus of safe computations *)

(** No undefined behaviour, and [Q] of the result if there is one. *)
Definition safe {A} (m : M A) (Q : A → Prop) : Prop :=
  match m with Ok a => Q a | Err => True | UB => False end.

Lemma safe_defined {A} (m : M A) Q : safe m Q → defined m.
Proof. by destruct m. Qed.

Lemma safe_Ok {A} (m : M A) Q a : safe m Q → m = Ok a → Q a.
Proof. intros H ->. done. Qed.

Lemma safe_mono {A} (m : M A) (Q R : A → Prop) :
  safe m Q → (∀ a, Q a → R a) → safe m R.
Proof. destruct m; simpl; auto. Qed.

Lemma safe_bind {A B} (m : M A) (f : A → M B) P Q :
  safe m P → (∀ a, m = Ok a → P a → safe (f a) Q) → safe (m ≫= f) Q.
Proof. destruct m; simpl; auto. Qed.

Lemma safe_rd buf p Q :
  (p < length buf)%nat → (∀ b, rd buf p = Ok b → Q b) → safe (rd buf p) Q.
Proof. intros (b & E & _)%rd_lt H. rewrite E. simpl. auto. Qed.

Lemma safe_rd_list buf p n :
  (p + n ≤ length buf)%nat → safe (rd_list buf p n) (λ l, length l = n).
Proof.
  intros H. rewrite rd_list_spec by done. simpl. rewrite length_take, length_drop. lia.
Qed.

Lemma safe_wr buf p b :
  (p < length buf)%nat → safe (wr buf p b) (λ buf', length buf' = length buf).
Proof. intros H. unfold wr. rewrite decide_True by done. simpl. by rewrite length_insert. Qed.

Lemma safe_wr_list buf p l :
  (p + length l ≤ length buf)%nat →
  safe (wr_list buf p l) (λ buf', length buf' = length buf).
Proof. intros (b & -> & E)%wr_list_ok. done. Qed.

Lemma safe_true {A} (m : M A) : defined m → safe m (λ _, True).
Proof. by destruct m. Qed.

(** One bind whose first computation reads a byte. *)
Ltac safe_read b H :=
  eapply safe_bind;
    [apply (safe_rd _ _ (λ _, True)); [simpl in *; lia|done]
    |intros b H _].

(** One bind whose first computation is covered by the lemma [L]. *)
Tactic Notation "safe_step" uconstr(L) :=
  eapply safe_bind; [apply L; (lia || done)|cbv beta].

(** ** The decoders of asn1.c *)
Section Decoders.
Context (buf : list Z) (N : nat).
Hypothesis buf_bytes : Forall is_byte buf.
Hypothesis slack : (N + 7 ≤ length buf)%nat.

(** [dl] bytes at [data] belong to the packet, which ends at [N]. *)
Definition inside (data : nat) (dl : Z) : Prop :=
  0 ≤ dl < 2 ^ 32 ∧ Z.of_nat data + dl ≤ Z.of_nat N.

(** The contents of the object at [data], read with the allowance [dl], end at
    [N] or before; so do the contents of a special type inside an Opaque. *)
Record contained (data : nat) (dl : Z) : Prop := {
  ct_range : 0 ≤ dl < 2 ^ 32;
  ct_data : (data ≤ N)%nat;
  ct_outer q len :
    parse_length_checked buf data (data + 1) dl = Ok (q, len) →
    Z.of_nat q + len ≤ Z.of_nat N;
  ct_inner q len tag q' len' :
    parse_length_checked buf data (data + 1) dl = Ok (q, len) →
    rd buf data = Ok ASN_OPAQUE → rd buf q = Ok ASN_OPAQUE_TAG1 →
    rd buf (q + 1) = Ok tag → is_opaque_special tag = true →
    parse_length_checked buf data (q + 2) dl = Ok (q', len') →
    Z.of_nat q' + len' ≤ Z.of_nat N;
}.

Lemma safe_length data p dl :
  (data ≤ p ≤ N + 2)%nat → (p - data ≤ 1000)%nat → dl < 2 ^ 32 →
  safe (parse_length_checked buf data p dl)
    (λ '(q, len), (p < q ≤ p + 5)%nat ∧ 0 ≤ len < 2 ^ 31 ∧
       Z.of_nat q - Z.of_nat data + len ≤ dl).
Proof.
  intros Hp Hp' Hdl.
  destruct (parse_length_checked buf data p dl) as [[q len]| |] eqn:E; [|done|].
  - apply parse_length_checked_bounds in E; (done || lia).
  - exfalso. revert E. apply parse_length_checked_defined. lia.
Qed.

(** The allowance decides whether a length is accepted, not what it is. *)
Lemma length_unique data p dl dl' q len q' len' :
  parse_length_checked buf data p dl = Ok (q, len) →
  parse_length_checked buf data p dl' = Ok (q', len') → q' = q ∧ len' = len.
Proof.
  unfold parse_length_checked.
  destruct (asn_parse_length buf (Some p)) as [[[r|] l]| |]; simpl; [|done..].
  intros H H'. destruct (_asn_parse_length_check _ _ _ dl); [done|].
  destruct (_asn_parse_length_check _ _ _ dl'); [done|]. by simplify_eq.
Qed.

Lemma inside_contained data dl : inside data dl → contained data dl.
Proof.
  intros [Hdl Hd]. split; [done|lia|..].
  - intros q len E. apply parse_length_checked_bounds in E; (done || lia).
  - intros q len tag q' len' E _ _ _ _ E'.
    apply parse_length_checked_bounds in E; [|done || lia..].
    apply parse_length_checked_bounds in E'; (done || lia).
Qed.

(** The opening of every decoder: identifier and length octets. *)
Lemma safe_open {A} data dl (f : Z → nat * Z → M A) Q :
  contained data dl →
  (∀ type q len, rd buf data = Ok type →
     parse_length_checked buf data (data + 1) dl = Ok (q, len) →
     (data + 1 < q ≤ data + 6)%nat → 0 ≤ len < 2 ^ 31 →
     Z.of_nat q - Z.of_nat data + len ≤ dl → Z.of_nat q + len ≤ Z.of_nat N →
     safe (f type (q, len)) Q) →
  safe (type ← rd buf data; r ← parse_length_checked buf data (data + 1) dl; f type r) Q.
Proof.
  intros Hc Hf. pose proof (ct_data _ _ Hc). pose proof (ct_range _ _ Hc).
  safe_read type Ht.
  safe_step safe_length. intros [q len] E (? & ? & ?).
  apply Hf; [done..|lia|done|done|]. by apply (ct_outer _ _ Hc).
Qed.

(** What a decoder promises: it moves forward, and what it took is gone from
    [*datalength]. *)
Definition advances {A} (data : nat) (dl : Z) (r : nat * Z * Z * A) : Prop :=
  let '(p, dl', _, _) := r in
  (data < p)%nat ∧ 0 ≤ dl' ∧ Z.of_nat p + dl' = Z.of_nat data + dl.

Lemma safe_int_loop wrap n p v :
  (p + n ≤ length buf)%nat →
  safe (parse_int_loop wrap buf n p v) (λ '(q, _), q = (p + n)%nat).
Proof.
  revert p v. induction n as [|n IH]; intros p v H; simpl; [lia|].
  safe_read b E. eapply safe_mono; [apply IH; lia|]. intros [q z] ->. lia.
Qed.

Lemma asn_parse_int_safe data dl :
  contained data dl → safe (asn_parse_int buf data dl SIZEOF_LONG) (advances data dl).
Proof.
  intros Hc. apply safe_open; [done|]. intros type q len Ht E Hq Hlen Hdl HN.
  destruct (SIZEOF_LONG <? len); [done|]. pose proof (ct_range _ _ Hc).
  safe_read b Hb. safe_step safe_int_loop.
  intros [p z] _ ->. simpl. rewrite u32_id; lia.
Qed.

Lemma asn_parse_unsigned_int_safe data dl :
  contained data dl →
  safe (asn_parse_unsigned_int buf data dl SIZEOF_LONG) (advances data dl).
Proof.
  intros Hc. apply safe_open; [done|]. intros type q len Ht E Hq Hlen Hdl HN.
  destruct (SIZEOF_LONG + 1 <? len); [done|]. pose proof (ct_range _ _ Hc).
  eapply (safe_bind _ _ (λ _, True)).
  { destruct (_ =? _); [|done]. safe_read b Hb. done. }
  intros [] _ _; [done|].
  safe_read b Hb. safe_step safe_int_loop.
  intros [p z] _ ->. simpl. rewrite u32_id; lia.
Qed.

(** The output object has [strlength] bytes at least. *)
Lemma asn_parse_string_safe data dl str strlength :
  contained data dl → strlength ≤ zlen str →
  safe (asn_parse_string buf data dl str strlength)
    (λ r, advances data dl r ∧ length r.2.1 = length str ∧ 0 ≤ r.2.2 ≤ strlength).
Proof.
  intros Hc Hs. apply safe_open; [done|]. intros type q len Ht E Hq Hlen Hdl HN.
  pose proof (ct_range _ _ Hc). unfold zlen in Hs.
  destruct (Z.ltb_spec strlength len); [done|].
  safe_step safe_rd_list. intros src _ Hsrc.
  safe_step safe_wr_list. intros str1 _ Hstr1.
  eapply (safe_bind _ _ (λ s, length s = length str)).
  { destruct (Z.ltb_spec len strlength); [|done].
    eapply safe_mono; [apply safe_wr; lia|]. simpl. lia. }
  intros str2 _ Hstr2. simpl. rewrite u32_id by lia. split_and!; lia.
Qed.

Lemma asn_parse_bitstring_safe data dl str strlength :
  contained data dl → strlength ≤ zlen str →
  safe (asn_parse_bitstring buf data dl str strlength)
    (λ r, advances data dl r ∧ length r.2.1 = length str ∧ 0 ≤ r.2.2 ≤ strlength).
Proof.
  intros Hc Hs. apply safe_open; [done|]. intros type q len Ht E Hq Hlen Hdl HN.
  pose proof (ct_range _ _ Hc). unfold zlen in Hs.
  destruct (Z.ltb_spec strlength len); [done|]. safe_read datum Hdatum.
  destruct (_asn_bitstring_check len datum); [done|].
  safe_step safe_rd_list. intros src _ Hsrc.
  safe_step safe_wr_list. intros str1 _ Hstr1.
  simpl. rewrite u32_id by lia. split_and!; lia.
Qed.

Lemma safe_subid_loop n p v :
  (0 < n)%nat → (p + n ≤ length buf)%nat →
  safe (subid_loop buf n p v)
    (λ '(n', p', _), (n' < n)%nat ∧ (p' + n' = p + n)%nat).
Proof.
  revert p v. induction n as [|n IH]; intros p v Hn H; simpl; [lia|].
  safe_read b E. destruct (_ && _) eqn:C; simpl; [|lia].
  apply andb_prop in C as [_ C%Nat.ltb_lt].
  eapply safe_mono; [apply IH; lia|]. intros [[n' p'] z]. lia.
Qed.

(** Every turn consumes an octet and writes one arc that fits. *)
Lemma safe_objid_loop fuel n p left objid oidp :
  (n < fuel)%nat → (1 ≤ p)%nat → (p + n ≤ length buf)%nat → 0 ≤ left < 2 ^ 32 →
  Z.of_nat oidp + left ≤ zlen objid →
  safe (objid_loop fuel buf n p left objid oidp)
    (λ '(n', p', o, oidp'), (p' + n' = p + n)%nat ∧ length o = length objid ∧
       Z.of_nat oidp ≤ Z.of_nat oidp' ≤ Z.of_nat oidp + left).
Proof.
  revert n p left objid oidp. induction fuel as [|fuel IH];
    intros n p left objid oidp Hn Hp Hb Hl Ho; simpl; [lia|].
  destruct (_ && _) eqn:C; [|simpl; lia].
  apply andb_prop in C as [C1%Nat.ltb_lt C2%Z.ltb_lt].
  safe_step safe_subid_loop. intros [[n' p'] sub] _ [Hn' Hp'].
  eapply (safe_bind _ _ (λ _, True)).
  { destruct (_ =? _)%nat; [|done]. safe_read b Hb'. done. }
  intros [] _ _; [done|]. unfold zlen in *.
  safe_step safe_wr. intros o _ Ho'. rewrite u32_id by lia.
  eapply safe_mono; [apply IH; unfold zlen; lia|].
  intros [[[n'' p''] o''] oidp'']. lia.
Qed.

Lemma asn_parse_objid_safe data dl objid objidlength :
  contained data dl → 2 ≤ objidlength ≤ zlen objid → objidlength < 2 ^ 32 →
  safe (asn_parse_objid buf data dl objid objidlength)
    (λ r, advances data dl r ∧ length r.2.1 = length objid ∧ 0 ≤ r.2.2 ≤ objidlength).
Proof.
  intros Hc Ho Ho'. apply safe_open; [done|]. intros type q len Ht E Hq Hlen Hdl HN.
  pose proof (ct_range _ _ Hc). unfold zlen in Ho.
  eapply (safe_bind _ _ (λ o, length o = length objid)).
  { destruct (_ =? _); [|done]. safe_step safe_wr. intros o _ Hw.
    eapply safe_mono; [apply safe_wr; lia|]. simpl. lia. }
  intros o1 _ Ho1. rewrite (u32_id (objidlength - 1)) by lia.
  eapply safe_bind; [apply safe_objid_loop; unfold zlen; lia|cbv beta].
  intros [[[n p] o2] oidp] _ (Hp & Ho2 & Hoidp).
  destruct (Nat.eqb_spec n 0); [|done]. cbn [negb]. safe_read sub Hsub.
  destruct (if sub =? 43 then _ else _) as [x y].
  safe_step safe_wr. intros o3 _ Ho3. safe_step safe_wr. intros o4 _ Ho4.
  simpl. rewrite u32_id by lia. split_and!; lia.
Qed.

Lemma safe_c64_loop n p c :
  (p + n ≤ length buf)%nat →
  safe (parse_c64_loop buf n p c) (λ '(q, _), q = (p + n)%nat).
Proof.
  revert p c. induction n as [|n IH]; intros p c H; simpl; [lia|].
  safe_read b E. eapply safe_mono; [apply IH; lia|]. intros [q z] ->. lia.
Qed.

Lemma safe_c64_contents data dl q len type :
  dl < 2 ^ 32 → (data < q)%nat → 0 ≤ len → Z.of_nat q - Z.of_nat data + len ≤ dl →
  Z.of_nat q + len ≤ Z.of_nat N →
  safe (parse_c64_contents buf data q dl type len) (advances data dl).
Proof.
  intros. unfold parse_c64_contents. destruct (9 <? len); [done|].
  eapply (safe_bind _ _ (λ _, True)).
  { destruct (_ =? _); [|done]. safe_read b Hb. done. }
  intros [] _ _; [done|]. safe_read b Hb. safe_step safe_c64_loop.
  intros [p c] _ ->. simpl. rewrite u32_id; lia.
Qed.

(** The test for a special type, when the tags it accepts are special tags. *)
Lemma safe_opaque_tag q tags :
  (q ≤ N)%nat →
  safe (opaque_tag buf q tags)
    (λ r, ∀ tag, r = Some tag → rd buf q = Ok ASN_OPAQUE_TAG1 ∧
       rd buf (q + 1) = Ok tag ∧ tags tag = true).
Proof.
  intros Hq. unfold opaque_tag. safe_read t1 H1.
  destruct (Z.eqb_spec t1 ASN_OPAQUE_TAG1) as [->|]; [|done].
  safe_read t2 H2. simpl. intros tag. destruct (tags t2) eqn:E; [|done].
  by intros [= <-].
Qed.

(** The decoders of the special types: the test [cond] on the outer object,
    then the inner length octets. *)
Lemma safe_special {A} data dl q len type (cond : bool) tags (f : option Z → M A) Q :
  contained data dl → rd buf data = Ok type →
  parse_length_checked buf data (data + 1) dl = Ok (q, len) →
  (data + 1 < q ≤ data + 6)%nat → Z.of_nat q + len ≤ Z.of_nat N → 0 ≤ len →
  (∀ t, tags t = true → is_opaque_special t = true) →
  safe (f None) Q →
  (∀ tag, is_opaque_special tag = true →
     (∀ q' len', parse_length_checked buf data (q + 2) dl = Ok (q', len') →
        Z.of_nat q' + len' ≤ Z.of_nat N) → safe (f (Some tag)) Q) →
  safe (special ← (if (type =? ASN_OPAQUE) && cond then opaque_tag buf q tags else Ok None);
        f special) Q.
Proof.
  intros Hc Ht E Hq HN Hlen Htags Hno Hyes.
  destruct (Z.eqb_spec type ASN_OPAQUE) as [->|]; [|done].
  destruct cond; [|done]. simpl.
  safe_step safe_opaque_tag. intros [tag|] _ Htag; [|done].
  destruct (Htag tag eq_refl) as (H1 & H2 & H3). apply Hyes; [by apply Htags|].
  intros q' len'. by apply (ct_inner _ _ Hc _ _ _ _ _ E Ht H1 H2 (Htags _ H3)).
Qed.

Lemma special_u64 t :
  (t =? ASN_OPAQUE_COUNTER64) || (t =? ASN_OPAQUE_U64) = true → is_opaque_special t = true.
Proof. unfold is_opaque_special. by intros ->. Qed.

Lemma special_one t s : is_opaque_special s = true → (t =? s) = true → is_opaque_special t = true.
Proof. by intros ? ->%Z.eqb_eq. Qed.

Lemma asn_parse_unsigned_int64_safe data dl :
  contained data dl →
  safe (asn_parse_unsigned_int64 buf data dl SIZEOF_COUNTER64) (advances data dl).
Proof.
  intros Hc. apply safe_open; [done|]. intros type q len Ht E Hq Hlen Hdl HN.
  pose proof (ct_range _ _ Hc).
  eapply safe_special; [done|done|done|done|done|lia|apply special_u64|apply safe_c64_contents; lia|].
  intros tag _ Hin. safe_step safe_length. intros [q' len'] E' (? & ? & ?).
  specialize (Hin _ _ E'). apply safe_c64_contents; lia.
Qed.

Lemma asn_parse_signed_int64_safe data dl :
  contained data dl →
  safe (asn_parse_signed_int64 buf data dl SIZEOF_COUNTER64) (advances data dl).
Proof.
  intros Hc. apply safe_open; [done|]. intros type q len Ht E Hq Hlen Hdl HN.
  pose proof (ct_range _ _ Hc).
  eapply safe_special; [done|done|done|done|done|lia|intros t; by apply special_one|..].
  - safe_read b Hb. safe_read b' Hb'. done.
  - intros tag _ Hin. safe_step safe_length. intros [q' len'] E' (? & ? & ?).
    specialize (Hin _ _ E'). apply safe_c64_contents; lia.
Qed.

(** The pointer these two return is that of the value: it does not pass it. *)
Lemma asn_parse_float_safe data dl :
  contained data dl →
  safe (asn_parse_float buf data dl SIZEOF_FLOAT)
    (λ '(p, dl', _, _), (data < p)%nat ∧ 0 ≤ dl' ∧
       Z.of_nat p + SIZEOF_FLOAT + dl' = Z.of_nat data + dl).
Proof.
  intros Hc. apply safe_open; [done|]. intros type q len Ht E Hq Hlen Hdl HN.
  pose proof (ct_range _ _ Hc). unfold SIZEOF_FLOAT in *.
  eapply safe_special; [done|done|done|done|done|lia|intros t; by apply special_one|..].
  - simpl. destruct (Z.eqb_spec len 4) as [->|]; [|done]. cbn [negb].
    safe_step safe_rd_list. intros c _ _. simpl. rewrite u32_id; lia.
  - intros tag _ Hin. rewrite M_bind_assoc. safe_step safe_length.
    intros [q' len'] E' (? & ? & ?). specialize (Hin _ _ E').
    simpl. destruct (Z.eqb_spec len' 4) as [->|]; [|done]. cbn [negb].
    safe_step safe_rd_list. intros c _ _. simpl. rewrite u32_id; lia.
Qed.

Lemma asn_parse_double_safe data dl :
  contained data dl →
  safe (asn_parse_double buf data dl SIZEOF_DOUBLE)
    (λ '(p, dl', _, _), (data < p)%nat ∧ 0 ≤ dl' ∧
       Z.of_nat p + SIZEOF_DOUBLE + dl' = Z.of_nat data + dl).
Proof.
  intros Hc. apply safe_open; [done|]. intros type q len Ht E Hq Hlen Hdl HN.
  pose proof (ct_range _ _ Hc). unfold SIZEOF_DOUBLE in *.
  eapply safe_special; [done|done|done|done|done|lia|intros t; by apply special_one|..].
  - simpl. destruct (Z.eqb_spec len 8) as [->|]; [|done]. cbn [negb].
    safe_step safe_rd_list. intros c _ _. simpl. rewrite u32_id; lia.
  - intros tag _ Hin. rewrite M_bind_assoc. safe_step safe_length.
    intros [q' len'] E' (? & ? & ?). specialize (Hin _ _ E').
    simpl. destruct (Z.eqb_spec len' 8) as [->|]; [|done]. cbn [negb].
    safe_step safe_rd_list. intros c _ _. simpl. rewrite u32_id; lia.
Qed.

(** ** Headers *)

(** Once the outer length octets of an object, and the inner ones if it is a
    special type, were accepted, every allowance keeps to the packet. *)
Lemma contained_any data dl q len dl' :
  inside data dl → parse_length_checked buf data (data + 1) dl = Ok (q, len) →
  (∀ tag, rd buf data = Ok ASN_OPAQUE → rd buf q = Ok ASN_OPAQUE_TAG1 →
     rd buf (q + 1) = Ok tag → is_opaque_special tag = true →
     ∃ q' len', parse_length_checked buf data (q + 2) dl = Ok (q', len')) →
  0 ≤ dl' < 2 ^ 32 → contained data dl'.
Proof.
  intros Hi E Hin Hdl'. pose proof (inside_contained _ _ Hi) as Hc. split; [done|..].
  - apply (ct_data _ _ Hc).
  - intros q1 len1 E1. destruct (length_unique _ _ _ _ _ _ _ _ E E1) as [-> ->].
    by apply (ct_outer _ _ Hc).
  - intros q1 len1 tag q2 len2 E1 Hop H1 H2 H3 E2.
    destruct (length_unique _ _ _ _ _ _ _ _ E E1) as [-> ->].
    destruct (Hin tag Hop H1 H2 H3) as (q' & len' & E').
    destruct (length_unique _ _ _ _ _ _ _ _ E' E2) as [-> ->].
    by apply (ct_inner _ _ Hc _ _ _ _ _ E Hop H1 H2 H3 E').
Qed.

(** The contents a header announces lie inside what [dl] allows, and from then
    on every decoder applied to the same object stays inside the packet, even
    with a larger allowance. *)
Lemma asn_parse_header_safe data dl :
  inside data dl →
  safe (asn_parse_header buf (Some data) dl)
    (λ '(p, len, _), (data < p)%nat ∧ 0 ≤ len < 2 ^ 31 ∧
       Z.of_nat p - Z.of_nat data + len ≤ dl ∧
       ∀ dl', 0 ≤ dl' < 2 ^ 32 → contained data dl').
Proof.
  intros Hi. pose proof Hi as [Hdl Hd]. unfold asn_parse_header. safe_read t0 Ht0.
  destruct (IS_EXTENSION_ID t0); [done|].
  safe_step safe_length. intros [q len] E (? & ? & ?).
  pose proof (contained_any data dl q len) as Hany.
  destruct (Z.eqb_spec t0 ASN_OPAQUE) as [->|Hne].
  2:{ simpl. split_and!; [lia..|]. intros dl'. apply Hany; [done..|]. congruence. }
  safe_read t1 Ht1. destruct (Z.eqb_spec t1 ASN_OPAQUE_TAG1) as [->|Hne].
  2:{ simpl. split_and!; [lia..|]. intros dl'. apply Hany; [done..|]. congruence. }
  safe_read t2 Ht2. destruct (is_opaque_special t2) eqn:Hs.
  2:{ simpl. split_and!; [lia..|]. intros dl'. apply Hany; [done..|]. congruence. }
  safe_step safe_length. intros [q' len'] E' (? & ? & ?).
  simpl. split_and!; [lia..|]. intros dl'. apply Hany; [done..|]. intros. by exists q', len'.
Qed.

Lemma asn_parse_sequence_safe data dl expected :
  inside data dl →
  safe (asn_parse_sequence buf (Some data) dl expected)
    (λ '(p, len, _), (data < p)%nat ∧ inside p len ∧ Z.of_nat p - Z.of_nat data + len ≤ dl).
Proof.
  intros Hi. pose proof Hi as [Hdl Hd].
  eapply safe_bind; [by apply asn_parse_header_safe|]. intros [[p len] t] _ (? & ? & ? & _).
  destruct (negb _); [done|]. simpl. unfold inside. lia.
Qed.

(** ** One variable binding *)
Lemma snmp_parse_var_op_safe data dl nm nlen :
  inside data dl → 2 ≤ nlen ≤ zlen nm → nlen < 2 ^ 32 →
  safe (snmp_parse_var_op buf data nm nlen dl)
    (λ '(p, dl', vo), (data < p)%nat ∧ inside p dl' ∧
       Z.of_nat p + dl' = Z.of_nat data + dl ∧
       length (vo_name vo) = length nm ∧ 0 ≤ vo_name_len vo ≤ nlen ∧
       0 ≤ vo_val_len vo ≤ dl ∧ contained (vo_val vo) MAX_PACKET_LENGTH).
Proof.
  intros Hi Hn Hn'. pose proof Hi as [Hdl Hd]. unfold snmp_parse_var_op.
  eapply safe_bind; [by apply asn_parse_sequence_safe|].
  intros [[p len] t] _ (Hp & Hpi & Hpl). pose proof Hpi as [Hlen Hplen].
  eapply safe_bind; [apply asn_parse_objid_safe; [by apply inside_contained|done..]|].
  intros [[[p1 len1] t1] [nm1 n1]] _ ((Hp1 & Hl1 & Hs1) & Hnm & Hn1). simpl in Hnm, Hn1.
  destruct (negb _); [done|].
  assert (inside p1 len1) as Hi1 by (unfold inside; lia).
  eapply safe_bind; [by apply asn_parse_header_safe|].
  intros [[p2 len2] t2] _ (Hp2 & Hl2 & Hs2 & Hct). cbn [safe vo_name vo_name_len vo_val_len vo_val].
  rewrite u32_id by lia. unfold inside. split_and!; try lia.
  by apply Hct.
Qed.
End Decoders.

(** A field was decoded: the rest of the PDU is still inside the packet. *)
Lemma advances_inside {A} N data dl p dl' t (a : A) :
  inside N data dl → advances data dl (p, dl', t, a) →
  inside N p dl' ∧ (data < p)%nat ∧ Z.of_nat p + dl' = Z.of_nat data + dl.
Proof. unfold inside. simpl. lia. Qed.

(** ** Whole PDUs *)

(** A decoded value is no larger than the [n] bytes it came from, an object
    identifier no longer than its array. *)
Definition value_bounded (n : Z) (v : pvalue) : Prop :=
  match v with
  | PString _ s | PBits _ s => zlen s ≤ n
  | PObjid _ o => zlen o ≤ MAX_OID_LEN
  | _ => True
  end.

(** A decoded binding of a packet of [n] bytes. *)
Definition var_bounded (n : Z) (v : pvar) : Prop :=
  zlen (pv_name v) ≤ MAX_OID_LEN ∧ value_bounded n (pv_value v).

Lemma value_bounded_le n m v : n ≤ m → value_bounded n v → value_bounded m v.
Proof. destruct v; simpl; lia. Qed.

Lemma zlen_take_le n m (l : list Z) : 0 ≤ n ≤ m → zlen (take (Z.to_nat n) l) ≤ m.
Proof. intros. unfold zlen. rewrite length_take. lia. Qed.

Lemma zlen_blank n : 0 ≤ n → zlen (blank n) = n.
Proof. intros. unfold zlen. rewrite length_blank. lia. Qed.

Section Pdus.
Context (malloc_ok : Z → bool) (objid : list Z).
Hypothesis objid_size : zlen objid = MAX_OID_LEN.
Context (buf : list Z) (N : nat).
Hypothesis buf_bytes : Forall is_byte buf.
Hypothesis slack : (N + 7 ≤ length buf)%nat.

Lemma safe_unexamined {A} (m : M A) f P (R : pvalue → Prop) :
  safe m P → (∀ a, P a → R (f a)) → R PUnset → safe (unexamined m f) R.
Proof. destruct m; simpl; auto. Qed.

Lemma safe_objid_left_loop fuel n p left original :
  (n < fuel)%nat → (1 ≤ p)%nat → (p + n ≤ length buf)%nat → 0 ≤ left < 2 ^ 32 →
  safe (objid_left_loop fuel buf n p left original) (λ _, True).
Proof.
  revert n p left. induction fuel as [|fuel IH]; intros n p left Hn Hp Hb Hl; simpl; [lia|].
  destruct (_ && _) eqn:C; [|done].
  apply andb_prop in C as [C1%Nat.ltb_lt C2%Z.ltb_lt].
  safe_step (safe_subid_loop buf N). intros [[n' p'] sub] _ [Hn' Hp'].
  eapply (safe_bind _ _ (λ _, True)).
  { destruct (_ =? _)%nat; [|done]. safe_read b Hb'. done. }
  intros [] _ _; [done|]. apply IH; [lia..|]. apply u32_range.
Qed.

Lemma safe_objid_left data dl :
  contained buf N data dl → safe (objid_left buf data dl MAX_OID_LEN) (λ _, True).
Proof.
  intros Hc. unfold objid_left. pose proof (ct_data _ _ _ _ Hc). pose proof (ct_range _ _ _ _ Hc).
  pose proof (safe_length buf N buf_bytes slack data (data + 1) dl ltac:(lia) ltac:(lia)
                ltac:(lia)) as Hs.
  destruct (parse_length_checked buf data (data + 1) dl) as [[q len]| |] eqn:E; [|done..].
  destruct Hs as (? & ? & ?). pose proof (ct_outer _ _ _ _ Hc _ _ E).
  apply safe_objid_left_loop; [lia..|]. apply u32_range.
Qed.

(** A decoder whose result is stored as a scalar. *)
Ltac safe_scalar L :=
  eapply safe_unexamined; [by eapply L|intros [[[? ?] ?] ?]; done|done].

Lemma parse_value_safe var_val type val_len :
  contained buf N var_val MAX_PACKET_LENGTH → 0 ≤ val_len →
  safe (parse_value malloc_ok objid buf var_val type val_len) (value_bounded val_len).
Proof.
  intros Hc Hl. unfold parse_value. unfold MAX_OID_LEN in objid_size.
  repeat match goal with
  | |- safe (if tag_in type _ then _ else _) _ => destruct (tag_in type _)
  end; try done.
  - safe_scalar asn_parse_int_safe.
  - safe_scalar asn_parse_unsigned_int_safe.
  - safe_scalar asn_parse_unsigned_int64_safe.
  - safe_scalar asn_parse_float_safe.
  - safe_scalar asn_parse_double_safe.
  - safe_scalar asn_parse_signed_int64_safe.
  - eapply (safe_bind _ _ (λ str, val_len ≤ zlen str)).
    { unfold SIZEOF_BUF. destruct (Z.ltb_spec val_len 40); simpl; [rewrite zlen_blank; lia|].
      destruct (malloc_ok val_len); simpl; [rewrite zlen_blank; lia|done]. }
    intros str _ Hstr.
    eapply safe_unexamined; [by eapply asn_parse_string_safe| |done].
    intros [[[p l] t] [s n]] (_ & _ & Hn). simpl in Hn. by apply zlen_take_le.
  - pose proof (asn_parse_objid_safe buf N buf_bytes slack _ _ objid MAX_OID_LEN Hc) as Hs.
    unfold MAX_OID_LEN in Hs. specialize (Hs ltac:(lia) ltac:(lia)).
    unfold MAX_OID_LEN.
    destruct (asn_parse_objid _ _ _ _ _) as [[[[p l] t] [o n]]| |]; [|clear Hs|done].
    + destruct Hs as (_ & _ & Hn). simpl in Hn.
      destruct (malloc_ok _); [|done]. by apply zlen_take_le.
    + eapply safe_bind; [by apply safe_objid_left|]. intros n _ _. by destruct (malloc_ok _).
  - destruct (malloc_ok val_len); [|done].
    eapply safe_unexamined; [eapply asn_parse_bitstring_safe; [done..|]| |done].
    { rewrite zlen_blank; lia. }
    intros [[[p l] t] [s n]] (_ & _ & Hn). simpl in Hn. by apply zlen_take_le.
Qed.

Lemma parse_binding_safe data dl :
  inside N data dl →
  safe (parse_binding malloc_ok objid buf data dl)
    (λ '(p, dl', v), (data < p)%nat ∧ inside N p dl' ∧
       Z.of_nat p + dl' = Z.of_nat data + dl ∧ var_bounded dl v).
Proof.
  intros Hi. unfold parse_binding. destruct (negb _); [done|].
  eapply safe_bind;
    [eapply snmp_parse_var_op_safe; [done..| |]; rewrite ?objid_size; unfold MAX_OID_LEN; lia|].
  intros [[p dl'] vo] _ (? & ? & ? & Hn & Hnl & Hvl & Hc).
  eapply safe_bind; [apply parse_value_safe; [done|lia]|]. intros v _ Hv. simpl.
  do 3 (split; [done|]). split; simpl; [by apply zlen_take_le|].
  by apply (value_bounded_le (vo_val_len vo)); [lia|].
Qed.

(** Every turn shortens the rest of the list by at least one byte. *)
Lemma parse_varbinds_safe fuel data dl n :
  inside N data dl → dl < Z.of_nat fuel → dl ≤ n →
  safe (parse_varbinds malloc_ok objid fuel buf data dl) (Forall (var_bounded n)).
Proof.
  revert data dl. induction fuel as [|fuel IH]; intros data dl Hi Hf Hn;
    [destruct Hi as [? _]; lia|].
  simpl. destruct (0 <? s32 dl); [|simpl; constructor].
  eapply safe_bind; [by apply parse_binding_safe|].
  intros [[p dl'] v] _ (Hp & Hi' & Hs & Hnm & Hv).
  eapply safe_bind; [apply IH; [done|lia..]|]. intros vs _ Hvs.
  simpl. constructor; [|done]. split; [done|]. by apply (value_bounded_le dl).
Qed.

Ltac safe_field L :=
  eapply safe_bind; [eapply L; [done|done|by apply inside_contained|..]|].

Lemma safe_int_field {A} data dl (f : nat * Z * Z * Z → M A) Q :
  inside N data dl →
  (∀ p dl' t z, inside N p dl' → (data < p)%nat ∧ Z.of_nat p + dl' = Z.of_nat data + dl →
     safe (f (p, dl', t, z)) Q) →
  safe (asn_parse_int buf data dl SIZEOF_LONG ≫= f) Q.
Proof.
  intros Hi Hf. safe_field asn_parse_int_safe.
  intros [[[p dl'] t] z] _ [H1 H2]%(advances_inside N); [|done]. by apply Hf.
Qed.

(** What [parse_fields] leaves for the list of bindings. *)
Lemma parse_fields_safe data dl command :
  inside N data dl →
  safe (parse_fields malloc_ok objid buf data dl command)
    (λ '(p, dl', _, _), inside N p dl' ∧ (data < p)%nat ∧ Z.of_nat p + dl' = Z.of_nat data + dl).
Proof.
  intros Hi. unfold parse_fields.
  destruct (command =? SNMP_MSG_TRAP); [|destruct (tag_in command _); [|done]].
  - safe_field asn_parse_objid_safe; [rewrite objid_size; unfold MAX_OID_LEN; lia|done|].
    intros [[[p1 l1] t1] [o n]] _ [[H1 E1]%(advances_inside N) _]; [|done].
    destruct (negb _); [done|].
    safe_field asn_parse_string_safe; [by rewrite zlen_blank|].
    intros [[[p2 l2] t2] [s m]] _ [[H2 E2]%(advances_inside N) _]; [|done].
    apply safe_int_field; [done|]. intros p3 l3 t3 z3 H3 E3.
    apply safe_int_field; [done|]. intros p4 l4 t4 z4 H4 E4.
    safe_field asn_parse_unsigned_int_safe.
    intros [[[p5 l5] t5] z5] _ [H5 E5]%(advances_inside N); [|done].
    simpl. split; [done|lia].
  - apply safe_int_field; [done|]. intros p3 l3 t3 z3 H3 E3.
    apply safe_int_field; [done|]. intros p4 l4 t4 z4 H4 E4.
    apply safe_int_field; [done|]. intros p5 l5 t5 z5 H5 E5.
    simpl. split; [done|lia].
Qed.

Lemma snmp_pdu_parse_bounded data length :
  inside N data length →
  safe (snmp_pdu_parse malloc_ok objid buf data length)
    (λ pdu, Forall (var_bounded length) (p_vars pdu)).
Proof.
  intros Hi. pose proof Hi as [Hl Hd]. unfold snmp_pdu_parse.
  eapply safe_bind; [by eapply asn_parse_header_safe|]. intros [[p l] t] _ (Hp & Hpl & Hs & _).
  assert (inside N p l) as Hi1 by (unfold inside; lia).
  eapply safe_bind; [by apply parse_fields_safe|].
  intros [[[p1 l1] fs] r] _ (Hi2 & Hp1 & Hs2).
  eapply safe_bind; [by eapply asn_parse_sequence_safe|].
  intros [[p2 l2] t2] _ (Hp2 & Hi3 & Hs3). pose proof Hi2 as [? ?]. pose proof Hi3 as [? ?].
  eapply safe_bind; [apply (parse_varbinds_safe _ _ _ length); [done|lia..]|].
  intros vs _ Hvs. done.
Qed.
End Pdus.

(** ** Properties *)

(** Whatever bytes arrive, snmp_pdu_parse terminates without reading or
    writing outside the receive buffer, the name and value objects and its local
    array, as long as the buffer extends seven bytes past the packet; each
    binding it returns has at most 128 subidentifiers in its name and a value no
    longer than the packet. *)
Theorem snmp_pdu_parse_safe malloc_ok objid buf data len :
  Forall is_byte buf → zlen objid = MAX_OID_LEN →
  0 ≤ len < 2 ^ 32 → (data + Z.to_nat len + 7 ≤ length buf)%nat →
  match snmp_pdu_parse malloc_ok objid buf data len with
  | Ok pdu => Forall (var_bounded len) (p_vars pdu)
  | Err => True
  | UB => False
  end.
Proof.
  intros Hb Ho Hl Hs.
  apply (snmp_pdu_parse_bounded malloc_ok objid Ho buf (data + Z.to_nat len) Hb Hs).
  unfold inside. lia.
Qed.

Lemma snmp_pdu_parse_safe_witness :
  let buf := [0xA2; 0x0B; 2; 1; 1; 2; 1; 0; 2; 1; 0; 0x30; 0; 9; 9; 9; 9; 9; 9; 9] in
  snmp_pdu_parse (λ _, true) (replicate 128 0) buf 0 13
  = Ok (PPdu SNMP_MSG_RESPONSE true (PRequest 1 0 0) [] false) ∧
  match snmp_pdu_parse (λ _, true) (replicate 128 0) buf 0 13 with
  | Ok pdu => Forall (var_bounded 13) (p_vars pdu)
  | Err => True
  | UB => False
  end.
Proof.
  split; [by vm_compute|].
  apply snmp_pdu_parse_safe; [|done|lia|simpl; lia].
  apply (bool_decide_unpack _). by vm_compute.
Defined.

(** Each decoder of asn1.c that moves over an object (integers, strings,
    bit strings, object identifiers, 64-bit integers) moves forward, never past
    the end its allowance sets, and takes from [*datalength] exactly the bytes it
    moved over; the arrays it fills keep their size and the length it reports
    fits in them. *)
Theorem asn_decoders_advance buf data dl str strlength objid objidlength :
  Forall is_byte buf → 0 ≤ dl < 2 ^ 32 → (data + Z.to_nat dl + 7 ≤ length buf)%nat →
  strlength ≤ zlen str → 2 ≤ objidlength ≤ zlen objid → objidlength < 2 ^ 32 →
  let fills n {A} (o : list A) (r : nat * Z * Z * (list A * Z)) :=
    advances data dl r ∧ length r.2.1 = length o ∧ 0 ≤ r.2.2 ≤ n in
  safe (asn_parse_int buf data dl SIZEOF_LONG) (advances data dl) ∧
  safe (asn_parse_unsigned_int buf data dl SIZEOF_LONG) (advances data dl) ∧
  safe (asn_parse_unsigned_int64 buf data dl SIZEOF_COUNTER64) (advances data dl) ∧
  safe (asn_parse_signed_int64 buf data dl SIZEOF_COUNTER64) (advances data dl) ∧
  safe (asn_parse_string buf data dl str strlength) (fills strlength str) ∧
  safe (asn_parse_bitstring buf data dl str strlength) (fills strlength str) ∧
  safe (asn_parse_objid buf data dl objid objidlength) (fills objidlength objid).
Proof.
  intros Hb Hdl Hs Hstr Ho Ho'. cbv zeta.
  assert (contained buf (data + Z.to_nat dl) data dl) as Hc
    by (apply inside_contained; [done..|unfold inside; lia]).
  split_and!.
  - by eapply asn_parse_int_safe.
  - by eapply asn_parse_unsigned_int_safe.
  - by eapply asn_parse_unsigned_int64_safe.
  - by eapply asn_parse_signed_int64_safe.
  - by eapply asn_parse_string_safe.
  - by eapply asn_parse_bitstring_safe.
  - by eapply asn_parse_objid_safe.
Qed.

Lemma asn_decoders_advance_witness :
  let buf := [4; 3; 1; 2; 3; 0; 0; 0; 0; 0; 0; 0] in
  safe (asn_parse_string buf 0 5 [0; 0; 0; 0] 4)
    (λ r, advances 0 5 r ∧ length r.2.1 = 4%nat ∧ 0 ≤ r.2.2 ≤ 4) ∧
  asn_parse_string buf 0 5 [0; 0; 0; 0] 4 = Ok (5%nat, 0, 4, ([1; 2; 3; 0], 3)).
Proof.
  split; [|by vm_compute].
  apply (asn_decoders_advance [4; 3; 1; 2; 3; 0; 0; 0; 0; 0; 0; 0] 0 5 [0; 0; 0; 0] 4
           [0; 0] 2); [|lia|simpl; lia|done|done|lia].
  apply (bool_decide_unpack _). by vm_compute.
Defined.

(** The seven bytes are needed: an Opaque object that fills a packet of two
    bytes makes asn_parse_header follow what comes after it as a special type,
    up to the seventh byte behind the packet, and snmp_pdu_parse with it. *)
Theorem asn_parse_header_overread malloc_ok objid tag a b c :
  is_opaque_special tag = true →
  let buf := [ASN_OPAQUE; 0; ASN_OPAQUE_TAG1; tag; 0x84; a; b; c] in
  asn_parse_header buf (Some 0%nat) 2 = UB ∧
  snmp_pdu_parse malloc_ok objid buf 0 2 = UB.
Proof.
  intros Ht buf. assert (asn_parse_header buf (Some 0%nat) 2 = UB) as E.
  { change (asn_parse_header buf (Some 0%nat) 2) with
      (if is_opaque_special tag
       then '(bufp, asn_length) ← parse_length_checked buf 0 4 2; Ok (bufp, asn_length, tag)
       else Ok (2%nat, 0, ASN_OPAQUE)).
    by rewrite Ht. }
  split; [done|]. unfold snmp_pdu_parse. by rewrite E.
Qed.

Lemma asn_parse_header_overread_witness :
  is_opaque_special ASN_OPAQUE_FLOAT = true ∧
  snmp_pdu_parse (λ _, true) [] [0x44; 0; 0x9f; 0x78; 0x84; 1; 2; 3] 0 2 = UB.
Proof.
  split; [done|].
  apply (asn_parse_header_overread (λ _, true) [] ASN_OPAQUE_FLOAT 1 2 3). done.
Defined.

Lemma mod_128_low k : 0 ≤ k < 128 → (128 + k) mod 128 = k.
Proof. intros. symmetry. apply (Z.mod_unique _ _ 1); lia. Qed.

(** Asn_check_packet does not look at whether asn_parse_length
    succeeded: for an indefinite length, and for one of more than four octets that
    has arrived, the size it computes comes from an uninitialised variable. *)
Theorem asn_check_packet_uninitialised k post len :
  k = 0 ∨ 4 < k < 128 → k + 2 ≤ len < 2 ^ 31 →
  asn_check_packet (Z.lor ASN_SEQUENCE ASN_CONSTRUCTOR :: 128 + k :: post) len = UB.
Proof.
  intros Hk Hl. unfold asn_check_packet.
  destruct (Z.ltb_spec len 2); [lia|]. change (rd (_ :: _) 0) with (Ok (A := Z) 0x30).
  m_step. change (rd (_ :: 128 + k :: post) 1) with (Ok (128 + k)). m_step.
  assert (is_byte (128 + k)) as Hb by (unfold is_byte; lia).
  rewrite land_128, decide_False by (done || lia). change 0x80 with 128.
  rewrite land_lnot_128, mod_128_low by (done || lia).
  cbn [negb Z.eqb]. rewrite s32_id by lia. destruct (Z.ltb_spec len (k + 2)); [lia|].
  unfold asn_parse_length. change (rd (_ :: 128 + k :: post) 1) with (Ok (128 + k)). m_step.
  change ASN_LONG_LEN with 128. rewrite land_128, decide_False by (done || lia).
  rewrite land_lnot_128, mod_128_low by (done || lia).
  cbn [negb Z.eqb]. unfold SIZEOF_LONG.
  destruct (Z.eqb_spec k 0); [done|]. by destruct (Z.ltb_spec 4 k); [|lia].
Qed.

Lemma asn_check_packet_uninitialised_witness :
  asn_check_packet [0x30; 0x80; 2; 1; 0; 0; 0] 7 = UB.
Proof. apply (asn_check_packet_uninitialised 0 [2; 1; 0; 0; 0] 7); lia. Defined.
