(* ===== verification/Message.v ===== *)
(** * Community-based messages: SNMPv1 and SNMPv2c

    Models snmp_comstr_parse and snmp_comstr_build of snmplib/snmp_auth.c and
    snmp_build, snmp_parse, snmp_parse_version and their helpers of
    snmplib/snmp_api.c: the message wrapper with version and community around a
    PDU, the defaults a PDU is completed with before it is sent, and the error
    codes that are left in the session.

    An SNMPv3 message is handed on to another function, which is an argument
    here.  The identification of a received PDU (transid) and the counters of
    malformed packets are left out. *)

From S2P Require Import Prelude Ber Asn1 Asn1Int Asn1Str Asn1Oid Asn1Int64 Asn1Float.
From S2P Require Import Asn1Rbuild VarBind Pdu PduRbuild PduParse PduRoundtrip Safety.
From stdpp Require Import prelude numbers list.
From Stdlib Require Import ZArith Lia.
Open Scope Z_scope.

Definition SNMP_VERSION_1 : Z := 0.
Definition SNMP_VERSION_2c : Z := 1.
Definition SNMP_VERSION_3 : Z := 3.
Definition SNMP_DEFAULT_VERSION : Z := -1.
Definition SNMP_DEFAULT_ERRSTAT : Z := -1.
Definition SNMP_DEFAULT_ERRINDEX : Z := -1.
Definition SNMP_DEFAULT_ENTERPRISE_LENGTH : Z := 0.
Definition SNMP_DEFAULT_TIME : Z := 0.
Definition DEFAULT_TIME : Z := 0.
Definition UCD_MSG_FLAG_EXPECT_RESPONSE : Z := 0x200.
Definition COMMUNITY_MAX_LEN : Z := 256.
Definition SNMPERR_V2_IN_V1 : Z := -7.
Definition SNMPERR_V1_IN_V2 : Z := -8.
Definition SNMPERR_BAD_REPEATERS : Z := -9.
Definition SNMPERR_BAD_REPETITIONS : Z := -10.
Definition SNMPERR_BAD_ASN1_BUILD : Z := -11.
Definition SNMPERR_BAD_PARSE : Z := -13.
Definition SNMPERR_BAD_VERSION : Z := -14.
Definition SNMPERR_UNKNOWN_PDU : Z := -23.
Definition SNMPERR_AUTHENTICATION_FAILURE : Z := -35.
Definition SNMPERR_MALLOC : Z := -62.
Definition DEFAULT_ENTERPRISE : list Z := [1; 3; 6; 1; 4; 1; 3; 1; 1].

(** ** The wrapper on its own: snmp_auth.c *)

(** Results: the rest of the message, [*length], [psid], [*slen], [*version]. *)
Definition snmp_comstr_parse (buf : list Z) (data : nat) (length : Z)
    (psid : list Z) (slen : Z) : M (nat * Z * list Z * Z * Z) :=
  let origlen := slen in
  '(data, length, _) ←
    asn_parse_sequence buf (Some data) length (Z.lor ASN_SEQUENCE ASN_CONSTRUCTOR);
  '(data, length, _, ver) ← asn_parse_int buf data length SIZEOF_LONG;
  '(data, length, _, (psid, slen)) ← asn_parse_string buf data length psid slen;
  psid ← wr psid (Z.to_nat (Z.min slen (origlen - 1))) 0;
  Ok (data, length, psid, slen, ver).

(** The community is built with the length [*(u_char * ) slen], the low octet of
    [*slen] on this host.  The result of the second [asn_build_sequence] is not
    looked at. *)
Definition snmp_comstr_build (buf : list Z) (data : nat) (length : Z)
    (psid : option (list Z)) (slen version messagelen : Z) : M (list Z * nat * Z) :=
  let h1 := data in
  let hlength := length in
  '(buf, data, length) ←
    asn_build_sequence buf data length (Z.lor ASN_SEQUENCE ASN_CONSTRUCTOR) 0;
  let h1e := data in
  '(buf, data, length) ← asn_build_int buf data length ASN_INTEGER version SIZEOF_LONG;
  '(buf, data, length) ← asn_build_string buf data length ASN_OCTET_STR psid (u8 slen);
  '(buf, _) ← patch_sequence buf h1 hlength (Z.lor ASN_SEQUENCE ASN_CONSTRUCTOR)
                (u32 (Z.of_nat data - Z.of_nat h1e + messagelen));
  Ok (buf, data, length).

(** ** Sending *)

(** The fields of [struct snmp_pdu] the message layer uses, around the PDU. *)
Record message := Message {
  version : Z;
  community : option (list Z);
  community_len : Z;
  flags : Z;
  m_pdu : netsnmp_pdu;
}.

(** The part of [netsnmp_session] it uses. *)
Record session := Session {
  s_version : Z;
  s_community : option (list Z);
  s_community_len : Z;
}.

(** A C function that returns 0 with results, or an error with
    [session->s_snmp_errno]. *)
Inductive outcome (A : Type) :=
| Done (a : A)
| Fail (s_snmp_errno : Z).
Arguments Done {A} _.
Arguments Fail {A} _.

Definition set_pdu (m : message) (p : netsnmp_pdu) : message :=
  Message (version m) (community m) (community_len m) (flags m) p.

(** [if (pdu->errstat == SNMP_DEFAULT_ERRSTAT) pdu->errstat = 0; ...] *)
Definition default_errors (p : netsnmp_pdu) : netsnmp_pdu :=
  NetsnmpPdu (command p) (reqid p)
    (if errstat p =? SNMP_DEFAULT_ERRSTAT then 0 else errstat p)
    (if errindex p =? SNMP_DEFAULT_ERRINDEX then 0 else errindex p)
    (enterprise p) (enterprise_length p) (agent_addr p) (trap_type p) (specific_type p)
    (time p) (variables p).

Section Build.
Context `{alloc : Allocator}.
Variable malloc_ok : Z → bool.

(** The trap fields: a request identifier, the enterprise and the time. *)
Definition default_trap (p : netsnmp_pdu) : outcome netsnmp_pdu :=
  let fill e n :=
    NetsnmpPdu (command p) 1 (errstat p) (errindex p) e n (agent_addr p) (trap_type p)
      (specific_type p) (if time p =? SNMP_DEFAULT_TIME then DEFAULT_TIME else time p)
      (variables p) in
  if enterprise_length p =? SNMP_DEFAULT_ENTERPRISE_LENGTH then
    if malloc_ok (zlen DEFAULT_ENTERPRISE * SIZEOF_OID)
    then Done (fill DEFAULT_ENTERPRISE (zlen DEFAULT_ENTERPRISE))
    else Fail SNMPERR_MALLOC
  else Done (fill (enterprise p) (enterprise_length p)).

(** The [switch (pdu->command)] of [_snmp_build]; [non_repeaters] is [errstat],
    [max_repetitions] is [errindex]. *)
Definition default_fields (m : message) : outcome message :=
  let p := m_pdu m in
  if tag_in (command p) [SNMP_MSG_RESPONSE; SNMP_MSG_GET; SNMP_MSG_GETNEXT; SNMP_MSG_SET] then
    Done (set_pdu m (default_errors p))
  else if tag_in (command p) [SNMP_MSG_TRAP2; SNMP_MSG_INFORM] then
    if version m =? SNMP_VERSION_1 then Fail SNMPERR_V2_IN_V1
    else Done (set_pdu m (default_errors p))
  else if command p =? SNMP_MSG_GETBULK then
    if version m =? SNMP_VERSION_1 then Fail SNMPERR_V2_IN_V1
    else if errindex p <? 0 then Fail SNMPERR_BAD_REPETITIONS
    else if errstat p <? 0 then Fail SNMPERR_BAD_REPEATERS
    else Done m
  else if command p =? SNMP_MSG_TRAP then
    if negb (version m =? SNMP_VERSION_1) then Fail SNMPERR_V1_IN_V2
    else
      match default_trap p with
      | Fail e => Fail e
      | Done p =>
          Done (Message (version m) (community m) (community_len m)
                  (Z.land (flags m) (Z.lnot UCD_MSG_FLAG_EXPECT_RESPONSE)) p)
      end
  else Fail SNMPERR_UNKNOWN_PDU.

(** The community of the session stands in for an empty one, except in a
    response. *)
Definition default_community (s : session) (m : message) : outcome message :=
  if (community_len m =? 0) && negb (command (m_pdu m) =? SNMP_MSG_RESPONSE) then
    if 0 =? s_community_len s then
      Done (Message (version m) None (s_community_len s) (flags m) (m_pdu m))
    else if malloc_ok (s_community_len s) then
      Done (Message (version m) (s_community s) (s_community_len s) (flags m) (m_pdu m))
    else Fail SNMPERR_MALLOC
  else Done m.

(** The reverse encoder: PDU, community, version, wrapper. *)
Definition rbuild_message (m : message) (st : rstate) : M rstate :=
  let start_offset := offset st in
  st ← snmp_pdu_realloc_rbuild (m_pdu m) st;
  st ← asn_realloc_rbuild_string true ASN_OCTET_STR (default [] (community m))
         (community_len m) st;
  st ← asn_realloc_rbuild_int true ASN_INTEGER (version m) SIZEOF_LONG st;
  asn_realloc_rbuild_sequence true (Z.lor ASN_SEQUENCE ASN_CONSTRUCTOR)
    (since start_offset st) st.

(** The forward encoder, from the start of the packet; returns the packet and
    [*pkt_len], the number of bytes used. *)
Definition build_message (m : message) (pkt : list Z) (pkt_len : Z) : M (list Z * Z) :=
  let length := pkt_len in
  '(pkt, cp, pkt_len) ←
    asn_build_sequence pkt 0 pkt_len (Z.lor ASN_SEQUENCE ASN_CONSTRUCTOR) 0;
  let h0e := cp in
  '(pkt, cp, pkt_len) ← asn_build_int pkt cp pkt_len ASN_INTEGER (version m) SIZEOF_LONG;
  '(pkt, cp, pkt_len) ←
    asn_build_string pkt cp pkt_len ASN_OCTET_STR (community m) (community_len m);
  '(pkt, cp, pkt_len) ← snmp_pdu_build (m_pdu m) pkt cp pkt_len;
  '(pkt, _) ← patch_sequence pkt 0 length (Z.lor ASN_SEQUENCE ASN_CONSTRUCTOR)
                (u32 (Z.of_nat cp - Z.of_nat h0e));
  Ok (pkt, Z.of_nat cp).

(** The packet after a successful build: in reverse mode the message is the last
    [b_offset] bytes, in forward mode the first [b_pkt_len]. *)
Record built := Built {
  b_pkt : list Z;
  b_pkt_len : Z;
  b_offset : nat;
  b_msg : message;
}.

(** SNMPv3 messages are built by the security model. *)
Variable snmpv3_build : message → list Z → nat → M (outcome built).

(** An encoder that fails leaves [s_snmp_errno] 0. *)
Definition encoded {A} (m : M A) (f : A → built) : M (outcome built) :=
  match m with Ok a => Ok (Done (f a)) | Err => Ok (Fail 0) | UB => UB end.

(** [reverse] is the library setting NETSNMP_DS_LIB_REVERSE_ENCODE; [*pkt_len] is
    the size of [pkt]. *)
Definition _snmp_build (reverse : bool) (s : session) (m : message) (pkt : list Z)
    (offset : nat) : M (outcome built) :=
  if version m =? SNMP_VERSION_3 then snmpv3_build m pkt offset
  else
    match default_fields m with
    | Fail e => Ok (Fail e)
    | Done m =>
        if (version m =? SNMP_VERSION_1) || (version m =? SNMP_VERSION_2c) then
          match default_community s m with
          | Fail e => Ok (Fail e)
          | Done m =>
              if reverse then
                encoded (rbuild_message m (RState pkt offset))
                  (λ st, Built (Asn1Rbuild.pkt st) (zlen (Asn1Rbuild.pkt st))
                           (Asn1Rbuild.offset st) m)
              else
                encoded (build_message m pkt (zlen pkt))
                  (λ '(pkt, pkt_len), Built pkt pkt_len offset m)
          end
        else Ok (Fail SNMPERR_BAD_VERSION)
    end.

Definition snmp_build (reverse : bool) (s : session) (m : message) (pkt : list Z)
    (offset : nat) : M (outcome built) :=
  r ← _snmp_build reverse s m pkt offset;
  match r with
  | Done b => Ok (Done b)
  | Fail e => Ok (Fail (if e =? 0 then SNMPERR_BAD_ASN1_BUILD else e))
  end.
End Build.

(** ** Receiving *)

Definition snmp_parse_version (buf : list Z) (data : nat) (length : Z) : M Z :=
  match asn_parse_sequence buf (Some data) length (Z.lor ASN_SEQUENCE ASN_CONSTRUCTOR) with
  | Ok (data, length, _) =>
      match asn_parse_int buf data length SIZEOF_LONG with
      | Ok (_, _, type, version) =>
          Ok (if negb (type =? ASN_INTEGER) then SNMPERR_BAD_VERSION else version)
      | Err => Ok SNMPERR_BAD_VERSION
      | UB => UB
      end
  | Err => Ok SNMPERR_BAD_VERSION
  | UB => UB
  end.

(** What a received message left in the PDU. *)
Record received := Received {
  r_version : Z;
  r_community : list Z;
  r_pdu : ppdu;
}.

Section Receive.
Variable malloc_ok : Z → bool.

(** The local arrays [objid] and [community] before they are filled. *)
Variable objid : list Z.
Variable uninit_community : list Z.

(** [session->authenticator]: given the rest of the message and the community,
    it returns the new position and length, or [NULL]. *)
Variable authenticator : option (list Z → nat → Z → list Z → Z → option (nat * Z)).

(** SNMPv3 messages are parsed by the security model. *)
Variable snmpv3_parse : list Z → nat → Z → M (outcome received).

(** The [SNMP_VERSION_1] and [SNMP_VERSION_2c] case.  A result of -1 of the PDU
    parser leaves [s_snmp_errno] 0. *)
Definition parse_community_message (s : session) (buf : list Z) (data : nat) (length : Z)
    : M (outcome received) :=
  match snmp_comstr_parse buf data length uninit_community COMMUNITY_MAX_LEN with
  | UB => UB
  | Err => Ok (Fail 0)
  | Ok (data, length, community, community_length, version) =>
      if negb (version =? s_version s) && negb (s_version s =? SNMP_DEFAULT_VERSION)
      then Ok (Fail SNMPERR_BAD_VERSION)
      else if negb (community_length =? 0) && negb (malloc_ok community_length)
      then Ok (Fail SNMPERR_MALLOC)
      else
        match
          match authenticator with
          | None => Some (data, length)
          | Some auth => auth buf data length community community_length
          end
        with
        | None => Ok (Fail SNMPERR_AUTHENTICATION_FAILURE)
        | Some (data, length) =>
            match snmp_pdu_parse malloc_ok objid buf data length with
            | UB => UB
            | Err => Ok (Fail 0)
            | Ok pdu =>
                Ok (if p_badtype pdu then Fail 0
                    else Done (Received version
                                 (take (Z.to_nat community_length) community) pdu))
            end
        end
  end.

Definition _snmp_parse (s : session) (buf : list Z) (data : nat) (length : Z)
    : M (outcome received) :=
  version ← (if negb (s_version s =? SNMP_DEFAULT_VERSION) then Ok (s_version s)
             else snmp_parse_version buf data length);
  if (version =? SNMP_VERSION_1) || (version =? SNMP_VERSION_2c) then
    parse_community_message s buf data length
  else if version =? SNMP_VERSION_3 then snmpv3_parse buf data length
  else Ok (Fail SNMPERR_BAD_VERSION).

Definition snmp_parse (s : session) (buf : list Z) (data : nat) (length : Z)
    : M (outcome received) :=
  r ← _snmp_parse s buf data length;
  match r with
  | Done p => Ok (Done p)
  | Fail e => Ok (Fail (if e =? 0 then SNMPERR_BAD_PARSE else e))
  end.
End Receive.

(** ** Reference encodings *)

(** A message the wire can carry. *)
Definition message_ok (m : message) : Prop :=
  (version m = SNMP_VERSION_1 ∨ version m = SNMP_VERSION_2c) ∧
  community_len m = zlen (default [] (community m)) ∧ community_len m < COMMUNITY_MAX_LEN.

Definition message_head (m : message) : list Z :=
  ber_int ASN_INTEGER (version m) ++ ber_string ASN_OCTET_STR (default [] (community m)).

Definition ber_message (m : message) (bs : list (list Z * value)) : list Z :=
  ber_tlv var_op_tag (message_head m ++ ber_pdu (m_pdu m) bs).

(** With the long length octets of the forward encoder. *)
Definition message_long (m : message) (bs : list (list Z * value)) : list Z :=
  seq_long var_op_tag (message_head m ++ pdu_long (m_pdu m) bs).

(** ** Encoding *)

Lemma version_range m : message_ok m → - 2 ^ 31 ≤ version m < 2 ^ 31.
Proof. intros ([-> | ->] & _); unfold SNMP_VERSION_1, SNMP_VERSION_2c; lia. Qed.

Lemma rbuild_message_spec `{Allocator} m bs st :
  message_ok m → fields_ok (m_pdu m) → Forall2 rholds (variables (m_pdu m)) bs → wf st →
  grants (offset st + length (ber_message m bs)) →
  ∃ st', rbuild_message m st = Ok st' ∧ rpost true (ber_message m bs) st st'.
Proof.
  intros Hm Hf Hv Hwf Hg. unfold rbuild_message.
  assert (length (ber_message m bs) = length (message_head m ++ ber_pdu (m_pdu m) bs)
          + S (length (ber_length (zlen (message_head m ++ ber_pdu (m_pdu m) bs)))))%nat as Hlen.
  { unfold ber_message, ber_tlv. cbn [length]. rewrite length_app. lia. }
  rewrite length_app in Hlen.
  assert (length (message_head m) = length (ber_int ASN_INTEGER (version m))
          + length (ber_string ASN_OCTET_STR (default [] (community m))))%nat as Hhd
    by apply length_app.
  destruct (snmp_pdu_realloc_rbuild_spec (m_pdu m) bs st) as (st1 & -> & H1); [done..| |].
  { intros n Hn. apply Hg. lia. }
  m_step. pose proof Hm as (_ & -> & _).
  pose proof H1 as (Hwf1 & _ & Ho1 & _).
  destruct (rspec_granted _ _ _ st1 (rbuild_string_rspec true ASN_OCTET_STR (default [] (community m)))
              Hg) as (st2 & -> & H2); [lia|done|]. m_step.
  pose proof H2 as (Hwf2 & _ & Ho2 & _).
  destruct (rspec_granted _ _ _ st2 (rbuild_int_rspec true ASN_INTEGER _ (version_range _ Hm))
              Hg) as (st3 & -> & H3); [lia|done|]. m_step.
  pose proof H3 as (Hwf3 & _ & Ho3 & _).
  assert (since (offset st) st3 = zlen (message_head m ++ ber_pdu (m_pdu m) bs)) as Hs.
  { unfold since, zlen, message_head. rewrite !length_app. lia. }
  destruct (rspec_granted _ _ _ st3 (rbuild_sequence_rspec true var_op_tag
              (since (offset st) st3) ltac:(destruct Hwf3; unfold since, zlen in *; lia))
              Hg) as (st4 & E4 & H4); [rewrite Hs; cbn [length]; lia|done|].
  exists st4. split; [exact E4|]. rewrite Hs in H4.
  destruct H1 as (_ & W1 & _ & _), H2 as (_ & W2 & _ & _), H3 as (_ & W3 & _ & _),
    H4 as (Hwf4 & W4 & Ho4 & _).
  split_and!; [done| |cbn [length] in Ho4; lia|done].
  rewrite W4, W3, W2, W1. unfold ber_message, ber_tlv.
  set (n := zlen (message_head m ++ _)). unfold message_head.
  cbn [app]. by rewrite <- !app_assoc.
Qed.

(** ** Decoding *)

(** A message whose wrapper uses the length octets [h] and whose PDU is [enc]. *)
Definition wire_message (m : message) (h enc : list Z) : list Z :=
  (var_op_tag :: h) ++ message_head m ++ enc.

(** What the array [community] holds afterwards. *)
Definition community_buffer (c uninit : list Z) : list Z :=
  c ++ 0 :: drop (S (length c)) uninit.

Lemma snmp_comstr_parse_spec m h enc pre post dl uninit :
  message_ok m → length_form (zlen (message_head m ++ enc)) h →
  zlen (wire_message m h enc) ≤ dl < 2 ^ 31 → zlen uninit = COMMUNITY_MAX_LEN →
  snmp_comstr_parse (pre ++ wire_message m h enc ++ post) (length pre) dl uninit
    COMMUNITY_MAX_LEN
  = Ok (length (pre ++ (var_op_tag :: h) ++ message_head m), zlen enc,
        community_buffer (default [] (community m)) uninit, community_len m, version m).
Proof.
  intros Hm Hh Hdl Hu. pose proof (version_range m Hm) as Hv. destruct Hm as (_ & Hc & Hcl).
  set (c := default [] (community m)) in *. unfold COMMUNITY_MAX_LEN in *.
  unfold wire_message, snmp_comstr_parse, message_head in *. fold c in Hdl, Hh |- *.
  set (I := ber_int ASN_INTEGER (version m)) in *. set (S' := ber_string ASN_OCTET_STR c) in *.
  rewrite !zlen_app, zlen_cons in Hdl. rewrite !zlen_app in Hh.
  pose proof (zlen_nonneg I). pose proof (zlen_nonneg S'). pose proof (zlen_nonneg enc).
  pose proof (zlen_nonneg h).
  rewrite <- !app_assoc.
  rewrite (parse_seq_header (zlen I + zlen S' + zlen enc) h) by (done || lia). m_step.
  rewrite app_assoc.
  rewrite (decodes_step (λ b d l, asn_parse_int b d l SIZEOF_LONG) ASN_INTEGER I (version m))
    by (done || lia || by apply asn_parse_int_decodes).
  rewrite (app_assoc _ I).
  rewrite (decodes_step (λ b d l, asn_parse_string b d l uninit 256) ASN_OCTET_STR S'
             (string_result c uninit 256, zlen c))
    by (done || lia || (apply asn_parse_string_decodes; lia)).
  cbv beta iota. unfold string_result. destruct (Z.ltb_spec (zlen c) 256); [|lia].
  rewrite Z.min_l, Z_to_nat_zlen by lia. rewrite wr_app. m_step.
  rewrite <- !app_assoc. unfold community_buffer. rewrite Hc.
  replace (zlen I + zlen S' + zlen enc - zlen I - zlen S') with (zlen enc) by lia. done.
Qed.

(** The session takes any version or the one of the message. *)
Definition accepts (s : session) (m : message) : Prop :=
  s_version s = SNMP_DEFAULT_VERSION ∨ s_version s = version m.

Lemma snmp_parse_version_spec m h enc pre post dl :
  message_ok m → length_form (zlen (message_head m ++ enc)) h →
  zlen (wire_message m h enc) ≤ dl < 2 ^ 31 →
  snmp_parse_version (pre ++ wire_message m h enc ++ post) (length pre) dl = Ok (version m).
Proof.
  intros Hm Hh Hdl. pose proof (version_range m Hm) as Hv.
  unfold wire_message, snmp_parse_version, message_head in *.
  set (I := ber_int ASN_INTEGER (version m)) in *.
  set (S' := ber_string ASN_OCTET_STR (default [] (community m))) in *.
  rewrite !zlen_app, zlen_cons in Hdl. rewrite !zlen_app in Hh.
  pose proof (zlen_nonneg I). pose proof (zlen_nonneg S'). pose proof (zlen_nonneg enc).
  pose proof (zlen_nonneg h). rewrite <- !app_assoc.
  rewrite (parse_seq_header (zlen I + zlen S' + zlen enc) h) by (done || lia).
  rewrite app_assoc.
  rewrite (asn_parse_int_decodes ASN_INTEGER (version m) Hv) by (fold I; lia). done.
Qed.

(** A message is received when its PDU part is. *)
Lemma snmp_parse_wire malloc_ok objid uninit v3 s m h enc pre post dl pdu :
  message_ok m → accepts s m → length_form (zlen (message_head m ++ enc)) h →
  zlen (wire_message m h enc) ≤ dl < 2 ^ 31 → zlen uninit = COMMUNITY_MAX_LEN →
  malloc_grants malloc_ok → p_badtype pdu = false →
  (∀ pre post, snmp_pdu_parse malloc_ok objid (pre ++ enc ++ post) (length pre) (zlen enc)
     = Ok pdu) →
  snmp_parse malloc_ok objid uninit None v3 s (pre ++ wire_message m h enc ++ post)
    (length pre) dl
  = Ok (Done (Received (version m) (default [] (community m)) pdu)).
Proof.
  intros Hm Hs Hh Hdl Hu Hg Hb Hp. unfold snmp_parse, _snmp_parse.
  assert ((if negb (s_version s =? SNMP_DEFAULT_VERSION) then Ok (s_version s)
           else snmp_parse_version (pre ++ wire_message m h enc ++ post) (length pre) dl)
          = Ok (version m)) as ->.
  { rewrite snmp_parse_version_spec by done.
    destruct (Z.eqb_spec (s_version s) SNMP_DEFAULT_VERSION); [done|].
    by destruct Hs as [?|<-]. }
  m_step. replace ((version m =? SNMP_VERSION_1) || (version m =? SNMP_VERSION_2c)) with true
    by (destruct Hm as ([-> | ->] & _); done).
  unfold parse_community_message. rewrite snmp_comstr_parse_spec by done.
  replace (negb (version m =? s_version s) && negb (s_version s =? SNMP_DEFAULT_VERSION))
    with false by (destruct Hs as [-> | ->]; rewrite Z.eqb_refl, ?andb_false_r; done).
  destruct Hm as (_ & Hc & Hcl). pose proof (zlen_nonneg (default [] (community m))).
  unfold COMMUNITY_MAX_LEN in Hcl. rewrite (Hg (community_len m)) by lia.
  rewrite andb_false_r. unfold wire_message.
  replace (pre ++ ((var_op_tag :: h) ++ message_head m ++ enc) ++ post)
    with ((pre ++ (var_op_tag :: h) ++ message_head m) ++ enc ++ post)
    by (by rewrite <- !app_assoc).
  rewrite Hp, Hb. m_step. unfold community_buffer. rewrite Hc, Z_to_nat_zlen.
  by rewrite take_app_length.
Qed.

(** ** The forward encoder *)

(** A community with its length, as both encoders of strings take it. *)
Lemma build_community_encodes m :
  message_ok m →
  Encodes (λ buf data dl, asn_build_string buf data dl ASN_OCTET_STR (community m) (community_len m))
    (ber_string ASN_OCTET_STR (default [] (community m))).
Proof.
  intros (_ & -> & Hl). unfold COMMUNITY_MAX_LEN in Hl.
  destruct (community m) as [c|]; simpl default in *.
  - pose proof (asn_build_string_encodes ASN_OCTET_STR c [] ltac:(lia)) as H.
    by rewrite app_nil_r in H.
  - apply (asn_build_string_null_encodes ASN_OCTET_STR 0). lia.
Qed.

Lemma build_message_spec m bs pkt :
  message_ok m → fields_ok (m_pdu m) → Forall2 holds (variables (m_pdu m)) bs →
  zlen (message_long m bs) < 2 ^ 16 → zlen pkt < 2 ^ 32 →
  build_message m pkt (zlen pkt)
  = ('(b, p, _) ← put (message_long m bs) pkt 0 (zlen pkt); Ok (b, Z.of_nat p)).
Proof.
  intros Hm Hf Hv Hsz Hp. pose proof (zlen_nonneg pkt).
  assert (zlen (message_long m bs) = 4 + zlen (message_head m ++ pdu_long (m_pdu m) bs)) as Hz.
  { unfold message_long, seq_long. rewrite zlen_app, !zlen_cons, zlen_be_bytes. lia. }
  assert (Encodes (λ buf data dl,
    '(buf, data, dl) ← asn_build_int buf data dl ASN_INTEGER (version m) SIZEOF_LONG;
    '(buf, data, dl) ← asn_build_string buf data dl ASN_OCTET_STR (community m) (community_len m);
    snmp_pdu_build (m_pdu m) buf data dl) (message_head m ++ pdu_long (m_pdu m) bs)) as He.
  { unfold message_head. rewrite <- app_assoc.
    apply Encodes_seq; [by apply asn_build_int_encodes, version_range|].
    apply Encodes_seq; [by apply build_community_encodes|].
    apply snmp_pdu_build_encodes; [done..|].
    rewrite zlen_app in Hz. pose proof (zlen_nonneg (message_head m)). lia. }
  pose proof (seq_framed _ _ 0 var_op_tag pkt 0 (zlen pkt) He ltac:(lia)
    ltac:(rewrite Z_to_nat_zlen; lia) ltac:(lia) ltac:(lia)) as Hfr.
  rewrite Z.add_0_r in Hfr. unfold message_long, seq_long. rewrite <- Hfr.
  unfold build_message.
  destruct (asn_build_sequence pkt 0 _ _ 0) as [[[b p] l]| |]; m_step; [|done..].
  destruct (asn_build_int b p l _ _ _) as [[[b1 p1] l1]| |]; m_step; [|done..].
  destruct (asn_build_string b1 p1 l1 _ _ _) as [[[b2 p2] l2]| |]; m_step; [|done..].
  destruct (snmp_pdu_build _ _ _ _) as [[[b3 p3] l3]| |]; m_step; [|done..].
  rewrite Z.add_0_r. by destruct (patch_sequence _ _ _ _ _) as [[b4 l4]| |].
Qed.

(** ** Properties *)

(** The message with the defaults filled in. *)
Definition completed (malloc_ok : Z → bool) (s : session) (m : message) : outcome message :=
  match default_fields malloc_ok m with
  | Fail e => Fail e
  | Done m => default_community malloc_ok s m
  end.

Lemma completed_version malloc_ok s m m' :
  completed malloc_ok s m = Done m' → version m' = version m.
Proof.
  unfold completed. intros H.
  assert (∀ m1, default_fields malloc_ok m = Done m1 → version m1 = version m) as H1.
  { unfold default_fields. intros m1 H1. repeat (case_match; simplify_eq/=; try done). }
  destruct (default_fields malloc_ok m) as [m1|]; [|done].
  rewrite <- (H1 m1 eq_refl). unfold default_community in H.
  repeat (case_match; simplify_eq/=; try done).
Qed.

(** [snmp_build] of a community message is the encoder on the completed message. *)
Lemma snmp_build_completed `{Allocator} malloc_ok v3 reverse s m m' pkt off :
  completed malloc_ok s m = Done m' → message_ok m' →
  snmp_build malloc_ok v3 reverse s m pkt off
  = match
      (if reverse then
         encoded (rbuild_message m' (RState pkt off))
           (λ st, Built (Asn1Rbuild.pkt st) (zlen (Asn1Rbuild.pkt st)) (Asn1Rbuild.offset st) m')
       else encoded (build_message m' pkt (zlen pkt))
              (λ '(pkt, pkt_len), Built pkt pkt_len off m'))
    with
    | Ok (Done b) => Ok (Done b)
    | Ok (Fail e) => Ok (Fail (if e =? 0 then SNMPERR_BAD_ASN1_BUILD else e))
    | Err => Err
    | UB => UB
    end.
Proof.
  intros Hc (Hv & _). pose proof (completed_version _ _ _ _ Hc) as Ev. unfold completed in Hc.
  unfold snmp_build, _snmp_build.
  replace (version m =? SNMP_VERSION_3) with false by (rewrite <- Ev; destruct Hv as [-> | ->]; done).
  destruct (default_fields malloc_ok m) as [m1|] eqn:E1; [|done].
  assert (version m1 = version m') as Ev1
    by (unfold default_community in Hc; repeat (case_match; simplify_eq/=; try done)).
  rewrite Ev1. replace ((version m' =? SNMP_VERSION_1) || (version m' =? SNMP_VERSION_2c)) with true
    by (destruct Hv as [-> | ->]; done).
  rewrite Hc. destruct reverse.
  - by destruct (rbuild_message _ _).
  - by destruct (build_message _ _ _).
Qed.

(** A request as an application makes it, the session it is sent on, and the
    message that goes out. *)
Definition sample_request (errors : Z) : netsnmp_pdu :=
  NetsnmpPdu SNMP_MSG_GET 77 errors errors [] 0 [0; 0; 0; 0] 0 0 0 [sample_var].
Definition sample_session : session :=
  Session SNMP_VERSION_2c (Some [112; 117; 98; 108; 105; 99]) 6.
Definition sample_message : message :=
  Message SNMP_VERSION_2c None 0 0 (sample_request SNMP_DEFAULT_ERRSTAT).
Definition sample_sent : message :=
  Message SNMP_VERSION_2c (Some [112; 117; 98; 108; 105; 99]) 6 0 (sample_request 0).

Lemma sample_completed :
  completed (λ _, true) sample_session sample_message = Done sample_sent.
Proof. done. Qed.

Lemma sample_sent_ok : message_ok sample_sent ∧ pdu_exact (m_pdu sample_sent) [sample_binding].
Proof.
  split; [split_and!; [by right|done|done]|]. split_and!; try done.
  - apply (bool_decide_unpack _). by vm_compute.
  - constructor; [apply sample_rholds|constructor].
  - constructor; [|constructor]. split; [apply sample_oid_exact|].
    split_and!; try done. apply (bool_decide_unpack _). by vm_compute.
Qed.



(** The same for the forward encoder, for messages below 64 KiB and a packet
    buffer that has room; without room snmp_build fails and leaves
    SNMPERR_BAD_ASN1_BUILD. *)
Theorem snmp_message_build_roundtrip `{Allocator} malloc_ok objid uninit v3b v3p s r m m' bs pkt off :
  completed malloc_ok s m = Done m' → message_ok m' → pdu_exact (m_pdu m') bs →
  zlen (message_long m' bs) < 2 ^ 16 → zlen pkt < 2 ^ 31 →
  malloc_grants malloc_ok → zlen objid = MAX_OID_LEN → zlen uninit = COMMUNITY_MAX_LEN →
  accepts r m' →
  if decide (zlen (message_long m' bs) ≤ zlen pkt) then
    ∃ b, snmp_build malloc_ok v3b false s m pkt off = Ok (Done b) ∧ b_msg b = m' ∧
      b_pkt_len b = zlen (message_long m' bs) ∧
      snmp_parse malloc_ok objid uninit None v3p r (b_pkt b) 0 (b_pkt_len b)
      = Ok (Done (Received (version m') (default [] (community m')) (decoded_pdu (m_pdu m') bs)))
  else snmp_build malloc_ok v3b false s m pkt off = Ok (Fail SNMPERR_BAD_ASN1_BUILD).
Proof.
  intros Hc Hm (Hf & Hcmd & Hent & Hv & Hex) Hsz Hp Hmal Ho Hu Ha.
  rewrite !(snmp_build_completed malloc_ok v3b false s m m' pkt off Hc Hm).
  rewrite !(build_message_spec m' bs) by (done || lia || by apply rholds_holds).
  case_decide as Hfit; [|by rewrite put_small by lia].
  destruct (put_ok (message_long m' bs) pkt 0 (zlen pkt) Hfit) as (buf' & -> & Hw & _);
    [rewrite Z_to_nat_zlen; lia|].
  m_step. cbn [encoded]. eexists. split_and!; [done..|]. cbn [b_pkt b_pkt_len].
  unfold zlen in Hfit. rewrite wr_list_eq in Hw by lia. set (post := drop _ pkt) in Hw.
  change (take 0 pkt) with (@nil Z) in Hw.
  assert (buf' = [] ++ message_long m' bs ++ post) as -> by congruence.
  assert (zlen (message_long m' bs) = 4 + zlen (message_head m') + zlen (pdu_long (m_pdu m') bs)) as Hz.
  { unfold message_long, seq_long. rewrite !zlen_app, !zlen_cons, zlen_be_bytes. lia. }
  pose proof (zlen_nonneg (message_head m')). change (0 + length (message_long m' bs))%nat
    with (length (message_long m' bs)). fold (zlen (message_long m' bs)).
  apply (snmp_parse_wire malloc_ok objid uninit v3p r m'
           (0x82 :: be_bytes 2 (zlen (message_head m' ++ pdu_long (m_pdu m') bs)))
           (pdu_long (m_pdu m') bs) []); try done.
  - right. split; [done|]. rewrite zlen_app. lia.
  - change (wire_message m' _ _) with (message_long m' bs). lia.
  - intros pre post'. apply snmp_pdu_parse_long; try done; lia.
Qed.

Lemma snmp_message_build_roundtrip_witness :
  zlen (message_long sample_sent [sample_binding]) = 51 ∧
  if decide (zlen (message_long sample_sent [sample_binding]) ≤ zlen (replicate 60 0)) then
    ∃ b, snmp_build (alloc := malloc_all) (λ _, true) (λ _ _ _, Err) false sample_session
           sample_message (replicate 60 0) 0 = Ok (Done b) ∧ b_msg b = sample_sent ∧
      b_pkt_len b = zlen (message_long sample_sent [sample_binding]) ∧
      snmp_parse (λ _, true) (replicate 128 0) (replicate 256 0) None (λ _ _ _, Err)
        sample_session (b_pkt b) 0 (b_pkt_len b)
      = Ok (Done (Received 1 [112; 117; 98; 108; 105; 99]
                    (decoded_pdu (m_pdu sample_sent) [sample_binding])))
  else snmp_build (alloc := malloc_all) (λ _, true) (λ _ _ _, Err) false sample_session
         sample_message (replicate 60 0) 0 = Ok (Fail SNMPERR_BAD_ASN1_BUILD).
Proof.
  split; [by vm_compute|].
  apply (snmp_message_build_roundtrip (λ _, true) (replicate 128 0) (replicate 256 0)
           (λ _ _ _, Err) (λ _ _ _, Err) sample_session sample_session sample_message sample_sent);
    [apply sample_completed|apply sample_sent_ok|apply sample_sent_ok|by vm_compute|done..|by right].
Defined.

Definition known_commands : list Z :=
  [SNMP_MSG_GET; SNMP_MSG_GETNEXT; SNMP_MSG_SET; SNMP_MSG_RESPONSE; SNMP_MSG_TRAP;
   SNMP_MSG_TRAP2; SNMP_MSG_INFORM; SNMP_MSG_GETBULK].

(** What is wrong with a message that is not of SNMPv3: reports and other commands, SNMPv2
    operations in an SNMPv1 message, an SNMPv1 trap in another one, negative repetition
    fields of a GetBulk, an unknown version; the first that applies. *)
Definition refusal (m : message) : option Z :=
  let p := m_pdu m in
  if negb (tag_in (command p) known_commands) then Some SNMPERR_UNKNOWN_PDU
  else if (version m =? SNMP_VERSION_1) && tag_in (command p) [SNMP_MSG_TRAP2; SNMP_MSG_INFORM; SNMP_MSG_GETBULK]
  then Some SNMPERR_V2_IN_V1
  else if negb (version m =? SNMP_VERSION_1) && (command p =? SNMP_MSG_TRAP) then Some SNMPERR_V1_IN_V2
  else if (command p =? SNMP_MSG_GETBULK) && (errindex p <? 0) then Some SNMPERR_BAD_REPETITIONS
  else if (command p =? SNMP_MSG_GETBULK) && (errstat p <? 0) then Some SNMPERR_BAD_REPEATERS
  else if negb ((version m =? SNMP_VERSION_1) || (version m =? SNMP_VERSION_2c)) then Some SNMPERR_BAD_VERSION
  else None.

(** There is room for the message: the buffer may grow, or is large enough. *)
Definition room `{Allocator} (reverse : bool) (m : message) (bs : list (list Z * value)) (pkt : list Z) (off : nat) : Prop :=
  if reverse then wf (RState pkt off) ∧ grants (off + length (ber_message m bs))
  else zlen (message_long m bs) < 2 ^ 16 ∧ zlen (message_long m bs) ≤ zlen pkt < 2 ^ 31.

(** The error of a message that was completed with the defaults. *)
Lemma default_fields_refusal malloc_ok m :
  malloc_grants malloc_ok →
  match default_fields malloc_ok m with
  | Fail e => refusal m = Some e
  | Done m' => version m' = version m ∧
      refusal m = if (version m =? SNMP_VERSION_1) || (version m =? SNMP_VERSION_2c) then None
                  else Some SNMPERR_BAD_VERSION
  end.
Proof.
  intros Hm. unfold default_fields, refusal. set (cmd := command (m_pdu m)).
  destruct (tag_in cmd [SNMP_MSG_RESPONSE; _; _; _]) eqn:E1.
  { assert (cmd = SNMP_MSG_RESPONSE ∨ cmd = SNMP_MSG_GET ∨ cmd = SNMP_MSG_GETNEXT ∨ cmd = SNMP_MSG_SET) as Hc.
    { revert E1. unfold tag_in. cbn [existsb]. rewrite !orb_true_iff, !Z.eqb_eq. naive_solver. }
    split; [done|]. destruct Hc as [->|[->|[->| ->]]]; by destruct (version m =? SNMP_VERSION_1), (version m =? SNMP_VERSION_2c). }
  destruct (tag_in cmd [SNMP_MSG_TRAP2; _]) eqn:E2.
  { assert (cmd = SNMP_MSG_TRAP2 ∨ cmd = SNMP_MSG_INFORM) as Hc.
    { revert E2. unfold tag_in. cbn [existsb]. rewrite !orb_true_iff, !Z.eqb_eq. naive_solver. }
    destruct (version m =? SNMP_VERSION_1) eqn:Ev; cbn [version set_pdu].
    - by destruct Hc as [-> | ->].
    - split; [done|]. destruct Hc as [-> | ->]; by destruct (version m =? SNMP_VERSION_2c). }
  destruct (Z.eqb_spec cmd SNMP_MSG_GETBULK) as [->|H3].
  { destruct (version m =? SNMP_VERSION_1) eqn:Ev; [done|]. cbn.
    destruct (errindex (m_pdu m) <? 0); [done|]. destruct (errstat (m_pdu m) <? 0); [done|]. cbn. split; [done|].
    by destruct (version m =? SNMP_VERSION_2c). }
  destruct (Z.eqb_spec cmd SNMP_MSG_TRAP) as [->|H4].
  { destruct (version m =? SNMP_VERSION_1) eqn:Ev; [|done]. cbn [negb].
    unfold default_trap. rewrite (Hm (zlen DEFAULT_ENTERPRISE * SIZEOF_OID)) by (by vm_compute).
    by destruct (_ =? SNMP_DEFAULT_ENTERPRISE_LENGTH). }
  assert (tag_in cmd known_commands = false) as ->; [|done].
  revert E1 E2. unfold tag_in, known_commands. cbn [existsb]. rewrite !orb_false_iff, !Z.eqb_neq. naive_solver.
Qed.

(** C34: of the messages that are not of SNMPv3, snmp_build refuses exactly those that
    [refusal] names, each with its error, and builds all others whose fields the encoder
    can write, given memory and room. *)
Theorem snmp_build_rejects `{Allocator} malloc_ok v3 reverse s m pkt off :
  version m ≠ SNMP_VERSION_3 → malloc_grants malloc_ok → 0 ≤ s_community_len s ≤ 2 ^ 16 →
  match refusal m with
  | Some e => snmp_build malloc_ok v3 reverse s m pkt off = Ok (Fail e)
  | None => ∃ m', completed malloc_ok s m = Done m' ∧
      ∀ bs, message_ok m' → fields_ok (m_pdu m') → Forall2 rholds (variables (m_pdu m')) bs →
        room reverse m' bs pkt off →
        ∃ b, snmp_build malloc_ok v3 reverse s m pkt off = Ok (Done b) ∧ b_msg b = m'
  end.
Proof.
  intros H3 Hm Hs. pose proof (default_fields_refusal malloc_ok m Hm) as HD.
  destruct (refusal m) as [e|] eqn:Er.
  - unfold snmp_build, _snmp_build. rewrite (proj2 (Z.eqb_neq _ _) H3).
    assert (e ≠ 0) as He.
    { revert Er. unfold refusal. repeat (case_match; try (by intros [= <-])). }
    destruct (default_fields malloc_ok m) as [m1|e1].
    + destruct HD as [-> HD]. destruct (_ || _); [done|]. injection HD as ->. done.
    + injection HD as ->. m_step. by rewrite (proj2 (Z.eqb_neq e1 0)).
  - unfold completed. destruct (default_fields malloc_ok m) as [m1|e1] eqn:Ed; [|done]. destruct HD as [Hv HD].
    assert (∃ m', default_community malloc_ok s m1 = Done m') as [m' Hm'].
    { unfold default_community. rewrite (Hm (s_community_len s)) by lia. repeat case_match; by eexists. }
    exists m'. split; [done|]. intros bs Hok Hf Hv' Hroom.
    rewrite (snmp_build_completed malloc_ok v3 reverse s m m' pkt off); [|by unfold completed; rewrite Ed|done].
    destruct reverse; destruct Hroom as [R1 R2].
    + destruct (rbuild_message_spec m' bs (RState pkt off)) as (st & -> & _); [done..|]. by eexists.
    + rewrite (build_message_spec m' bs); [|done|done|by apply rholds_holds|done|lia].
      destruct (put_ok (message_long m' bs) pkt 0 (zlen pkt)) as (buf & -> & _); [lia|rewrite Z_to_nat_zlen; lia|].
      by eexists.
Qed.

Lemma snmp_build_rejects_witness :
  snmp_build (alloc := malloc_all) (λ _, true) (λ _ _ _, Err) true sample_session
    (Message SNMP_VERSION_1 None 0 0
       (NetsnmpPdu SNMP_MSG_GETBULK 1 0 10 [] 0 [0; 0; 0; 0] 0 0 0 [])) [] 0
  = Ok (Fail SNMPERR_V2_IN_V1) ∧
  ∃ m', completed (λ _, true) sample_session sample_message = Done m' ∧
    ∀ bs, message_ok m' → fields_ok (m_pdu m') → Forall2 rholds (variables (m_pdu m')) bs →
      room (H := malloc_all) true m' bs [] 0 →
      ∃ b, snmp_build (alloc := malloc_all) (λ _, true) (λ _ _ _, Err) true sample_session sample_message [] 0
        = Ok (Done b) ∧ b_msg b = m'.
Proof.
  split.
  - apply (snmp_build_rejects (H := malloc_all) (λ _, true) (λ _ _ _, Err) true sample_session
      (Message SNMP_VERSION_1 None 0 0 (NetsnmpPdu SNMP_MSG_GETBULK 1 0 10 [] 0 [0; 0; 0; 0] 0 0 0 [])) [] 0); [done|done|].
    cbn. lia.
  - apply (snmp_build_rejects (H := malloc_all) (λ _, true) (λ _ _ _, Err) true sample_session sample_message [] 0); [done|done|].
    cbn. lia.
Defined.

(** Safety of the wrapper. *)
Lemma snmp_comstr_parse_safe buf N data dl psid slen :
  Forall is_byte buf → (N + 7 ≤ length buf)%nat → inside N data dl →
  1 ≤ slen ≤ zlen psid →
  safe (snmp_comstr_parse buf data dl psid slen)
    (λ '(p, dl', psid', slen', _), inside N p dl' ∧ dl' ≤ dl ∧
       length psid' = length psid ∧ 0 ≤ slen' ≤ slen).
Proof.
  intros Hb Hs Hi Hp. pose proof Hi as [Hdl Hd]. unfold snmp_comstr_parse.
  eapply safe_bind; [by eapply asn_parse_sequence_safe|].
  intros [[p1 l1] t1] _ (Hp1 & Hi1 & Hs1). pose proof Hi1 as [? ?].
  eapply safe_bind; [by eapply asn_parse_int_safe, inside_contained|].
  intros [[[p2 l2] t2] v] _ (Hi2 & Hp2 & Hs2)%(advances_inside N); [|done].
  pose proof Hi2 as [? ?].
  eapply safe_bind; [eapply asn_parse_string_safe; [done|done|by apply inside_contained|lia]|].
  intros [[[p3 l3] t3] [ps n]] _ [(Hi3 & Hp3 & Hs3)%(advances_inside N) [Hps Hn]]; [|done].
  simpl in Hps, Hn. unfold zlen in Hp.
  eapply safe_bind; [apply safe_wr; lia|]. intros ps' _ Hps'. cbv beta in Hps'. simpl.
  split; [done|]. lia.
Qed.

(** C2: on an SNMPv1 or SNMPv2c session without an authenticator, snmp_parse
    of any bytes terminates without leaving the receive buffer (which extends
    seven bytes past the packet) or its local arrays; a message it accepts has
    the version of the session, a community of at most 256 octets, and bindings
    bounded by the packet. *)
Theorem snmp_parse_safe malloc_ok objid uninit v3 s buf data len :
  s_version s = SNMP_VERSION_1 ∨ s_version s = SNMP_VERSION_2c →
  Forall is_byte buf → zlen objid = MAX_OID_LEN → zlen uninit = COMMUNITY_MAX_LEN →
  0 ≤ len < 2 ^ 32 → (data + Z.to_nat len + 7 ≤ length buf)%nat →
  match snmp_parse malloc_ok objid uninit None v3 s buf data len with
  | Ok (Done r) => r_version r = s_version s ∧ zlen (r_community r) ≤ COMMUNITY_MAX_LEN ∧
      Forall (var_bounded len) (p_vars (r_pdu r))
  | Ok (Fail e) => e ≠ 0
  | Err | UB => False
  end.
Proof.
  intros Hv Hb Ho Hu Hl Hs. set (N := (data + Z.to_nat len)%nat).
  assert (inside N data len) as Hi by (unfold inside; lia).
  unfold snmp_parse, _snmp_parse.
  replace (negb (s_version s =? SNMP_DEFAULT_VERSION)) with true by (destruct Hv as [-> | ->]; done).
  m_step. replace ((s_version s =? SNMP_VERSION_1) || (s_version s =? SNMP_VERSION_2c)) with true
    by (destruct Hv as [-> | ->]; done).
  unfold parse_community_message.
  pose proof (snmp_comstr_parse_safe buf N data len uninit COMMUNITY_MAX_LEN Hb Hs Hi
    ltac:(rewrite Hu; unfold COMMUNITY_MAX_LEN; lia)) as Hc.
  destruct (snmp_comstr_parse _ _ _ _ _) as [[[[[p l] ps] n] v]| |]; [|done..].
  destruct Hc as (Hi1 & Hle & Hps & Hn).
  destruct (_ && _) eqn:Ev; [done|]. destruct (negb (n =? 0) && _); [done|].
  pose proof (snmp_pdu_parse_bounded malloc_ok objid Ho buf N Hb Hs p l Hi1) as Hpdu.
  destruct (snmp_pdu_parse malloc_ok objid buf p l) as [pdu| |]; [|done..].
  destruct (p_badtype pdu); m_step; [done|]. cbn [r_version r_community r_pdu].
  split_and!; [|by apply zlen_take_le|].
  - apply andb_false_iff in Ev as [Ev|Ev]; apply negb_false_iff, Z.eqb_eq in Ev; [done|].
    destruct Hv as [E|E]; rewrite E in Ev; done.
  - eapply Forall_impl; [exact Hpdu|]. intros x [? ?]. split; [done|]. by apply (value_bounded_le l).
Qed.

Lemma snmp_parse_safe_witness :
  match snmp_parse (λ _, true) (replicate 128 0) (replicate 256 0) None (λ _ _ _, Err)
          sample_session (replicate 20 0x30) 0 13 with
  | Ok (Done r) => r_version r = 1 ∧ zlen (r_community r) ≤ COMMUNITY_MAX_LEN ∧
      Forall (var_bounded 13) (p_vars (r_pdu r))
  | Ok (Fail e) => e ≠ 0
  | Err | UB => False
  end.
Proof.
  apply (snmp_parse_safe (λ _, true) (replicate 128 0) (replicate 256 0) (λ _ _ _, Err)
           sample_session); [by right| |done|done|lia|simpl; lia].
  apply (bool_decide_unpack _). by vm_compute.
Defined.

(** A community of exactly 256 octets passes the length check of
    snmp_comstr_parse, which then overwrites its last octet with the NUL it adds
    and still reports 256 octets. *)
Theorem snmp_comstr_parse_256 c ver pdu pre post dl uninit :
  zlen c = COMMUNITY_MAX_LEN → zlen uninit = COMMUNITY_MAX_LEN → - 2 ^ 31 ≤ ver < 2 ^ 31 →
  let body := ber_int ASN_INTEGER ver ++ ber_string ASN_OCTET_STR c ++ pdu in
  zlen (ber_tlv var_op_tag body) ≤ dl < 2 ^ 31 →
  snmp_comstr_parse (pre ++ ber_tlv var_op_tag body ++ post) (length pre) dl uninit
    COMMUNITY_MAX_LEN
  = Ok ((length pre + length (ber_tlv var_op_tag body) - length pdu)%nat, zlen pdu,
        take 255 c ++ [0], COMMUNITY_MAX_LEN, ver).
Proof.
  intros Hc Hu Hv body Hdl. unfold snmp_comstr_parse, COMMUNITY_MAX_LEN in *.
  set (I := ber_int ASN_INTEGER ver) in *. set (S' := ber_string ASN_OCTET_STR c) in *.
  pose proof (zlen_nonneg I). pose proof (zlen_nonneg S'). pose proof (zlen_nonneg pdu).
  pose proof (zlen_nonneg (ber_length (zlen body))) as Hh.
  assert (zlen body = zlen I + (zlen S' + zlen pdu)) as Hzb by (unfold body; by rewrite !zlen_app).
  unfold ber_tlv in *. rewrite zlen_cons, zlen_app in Hdl.
  set (h := ber_length (zlen body)) in *.
  assert (length_form (zlen body) h) as Hform by (by left). clearbody h.
  assert (pre ++ (var_op_tag :: h ++ body) ++ post
          = pre ++ (var_op_tag :: h) ++ I ++ S' ++ pdu ++ post) as ->
    by (unfold body; cbn [app]; by rewrite <- !app_assoc).
  assert (length (var_op_tag :: h ++ body) = S (length h) + length I + length S' + length pdu)%nat
    as -> by (unfold body; cbn [length]; rewrite !length_app; lia).
  rewrite (parse_seq_header (zlen body) h) by (done || lia). m_step. rewrite app_assoc.
  rewrite (decodes_step (λ b d l, asn_parse_int b d l SIZEOF_LONG) ASN_INTEGER I ver)
    by (done || lia || by apply asn_parse_int_decodes).
  rewrite (app_assoc _ I).
  rewrite (decodes_step (λ b d l, asn_parse_string b d l uninit 256) ASN_OCTET_STR S'
             (string_result c uninit 256, zlen c))
    by (done || lia || (apply asn_parse_string_decodes; lia)).
  cbv beta iota. unfold string_result. rewrite Hc. change (256 <? 256) with false. cbv iota.
  change (Z.to_nat (256 `min` (256 - 1))) with 255%nat.
  unfold zlen in Hc, Hu. rewrite drop_ge, app_nil_r by lia.
  unfold wr. rewrite decide_True by lia. m_step. rewrite insert_take_drop by lia.
  rewrite (drop_ge c 256), Hzb by lia.
  replace (length (((pre ++ var_op_tag :: h) ++ I) ++ S'))
    with (length pre + (S (length h) + length I + length S' + length pdu) - length pdu)%nat
    by (rewrite !length_app; cbn [length]; lia).
  by replace (zlen I + (zlen S' + zlen pdu) - zlen I - zlen S') with (zlen pdu) by lia.
Qed.

Lemma snmp_comstr_parse_256_witness :
  let c := replicate 256 65 in
  let body := ber_int ASN_INTEGER 1 ++ ber_string ASN_OCTET_STR c ++ [] in
  snmp_comstr_parse ([] ++ ber_tlv var_op_tag body ++ []) 0 300 (replicate 256 0) 256
  = Ok (267%nat, 0, replicate 255 65 ++ [0], 256, 1).
Proof.
  apply (snmp_comstr_parse_256 (replicate 256 65) 1 [] [] [] 300 (replicate 256 0));
    [done|done|lia|]. apply (bool_decide_unpack _). by vm_compute.
Defined.

(** snmp_comstr_build takes the community's length through a pointer to
    an octet: of a community of 256 octets or more it writes the first
    [slen mod 256], and reserves [messagelen] octets for the PDU in the length of
    the wrapper. *)
Theorem snmp_comstr_build_encodes c ver messagelen buf data dl :
  - 2 ^ 31 ≤ ver < 2 ^ 31 → 0 ≤ messagelen < 2 ^ 15 →
  0 ≤ dl < 2 ^ 32 → (data + Z.to_nat dl ≤ length buf)%nat →
  let c' := take (Z.to_nat (zlen c mod 256)) c in
  let head := ber_int ASN_INTEGER ver ++ ber_string ASN_OCTET_STR c' in
  snmp_comstr_build buf data dl (Some c) (zlen c) ver messagelen
  = put ((var_op_tag :: 0x82 :: be_bytes 2 (zlen head + messagelen)) ++ head) buf data dl.
Proof.
  intros Hv Hm Hd Hb c' head.
  pose proof (Z.mod_pos_bound (zlen c) 256 ltac:(lia)) as Hmod.
  assert (zlen c' = zlen c mod 256) as Hc'.
  { unfold c', zlen. rewrite length_take. unfold zlen in Hmod.
    pose proof (Z.mod_le (Z.of_nat (length c)) 256). lia. }
  assert (Encodes (λ buf data dl,
    '(buf, data, dl) ← asn_build_int buf data dl ASN_INTEGER ver SIZEOF_LONG;
    asn_build_string buf data dl ASN_OCTET_STR (Some c) (u8 (zlen c))) head) as He.
  { apply Encodes_seq; [by apply asn_build_int_encodes|].
    pose proof (asn_build_string_encodes ASN_OCTET_STR c' (drop (Z.to_nat (zlen c mod 256)) c)
      ltac:(lia)) as Hs.
    unfold c' at 1 in Hs. rewrite take_drop, Hc' in Hs. exact Hs. }
  assert (zlen head < 2 ^ 15) as Hh.
  { unfold head, ber_string. rewrite zlen_app, zlen_ber_int, zlen_ber_tlv, zlen_ber_length, Hc'.
    pose proof (int_size_bounds ver). destruct (length_size_spec (zlen c mod 256)); [lia|].
    destruct (_ <? _); lia. }
  pose proof (zlen_nonneg head).
  rewrite <- (seq_framed _ head messagelen var_op_tag buf data dl He) by lia.
  unfold snmp_comstr_build.
  destruct (asn_build_sequence buf data dl _ 0) as [[[b p] l]| |]; m_step; [|done..].
  destruct (asn_build_int b p l _ _ _) as [[[b1 p1] l1]| |]; m_step; [|done..].
  destruct (asn_build_string b1 p1 l1 _ _ _) as [[[b2 p2] l2]| |]; m_step; [|done..].
  by destruct (patch_sequence _ _ _ _ _) as [[b3 l3]| |].
Qed.

Lemma snmp_comstr_build_encodes_witness :
  snmp_comstr_build (replicate 12 7) 0 12 (Some (replicate 257 65)) 257 0 100
  = Ok ([0x30; 0x82; 0; 106; 2; 1; 0; 4; 1; 65; 7; 7], 10%nat, 2).
Proof.
  etransitivity;
    [apply (snmp_comstr_build_encodes (replicate 257 65) 0 100 (replicate 12 7) 0 12);
     [lia|lia|lia|simpl; lia]|by vm_compute].
Defined.
