(* ===== verification/Client.v ===== *)
(** * Copies of PDUs: snmplib/snmp_client.c

    Models the functions an application uses to copy, split and repair a PDU:
    snmp_set_var_objid, snmp_clone_var, snmp_clone_mem, _clone_pdu_header,
    _copy_varlist, _copy_pdu_vars, snmp_clone_pdu, snmp_split_pdu, snmp_fix_pdu and
    snmp_varbind_len, and the counters of request and message identifiers.

    A variable keeps its name and value either in its own arrays [name_loc] and
    [buf] or in allocated blocks, so the model has a heap and pointers.  malloc may
    refuse; blocks that the code frees again before it reports a failure do not
    appear in the result.  The hook of a security model is a parameter. *)

From S2P Require Import Prelude Ber Asn1 VarBind Pdu PduParse OidCompare Safety Message.
From stdpp Require Import prelude numbers list.
From Stdlib Require Import ZArith Lia.
Open Scope Z_scope.

Definition SNMP_ERR_NOERROR : Z := 0.

(** A block is the list of its elements (octets of a value, arcs of a name);
    [None] is a block that was freed. *)
Abbreviation heap := (list (option (list Z))).

Inductive ptr := PNull | PLocal | PHeap (b : nat).

#[global] Instance ptr_eq_dec : EqDecision ptr.
Proof. solve_decision. Defined.

(** [netsnmp_variable_list] with its storage; [PLocal] points to [name_loc] or to
    [buf] of the variable itself.  [cv_self] is where the structure is: a block of the
    heap, or [PLocal] for one that the application declared. *)
Record cvar := CVar {
  cv_name : ptr;
  cv_name_length : Z;
  cv_name_loc : list Z;
  cv_type : Z;
  cv_val : ptr;
  cv_val_len : Z;
  cv_buf : list Z;
  cv_self : ptr;
}.

(** [sizeof(netsnmp_pdu)]: 36 words. *)
Definition SIZEOF_PDU : Z := 144.

(** [sizeof(vp->name_loc)] *)
Definition SIZEOF_NAME_LOC : Z := MAX_OID_LEN * SIZEOF_OID.

Definition deref (h : heap) (p : ptr) (loc : list Z) : M (list Z) :=
  match p with
  | PNull => UB
  | PLocal => Ok loc
  | PHeap b => match h !! b with Some (Some l) => Ok l | _ => UB end
  end.

Definition free (h : heap) (b : nat) : M heap :=
  match h !! b with Some (Some _) => Ok (<[b := None]> h) | _ => UB end.

(** A structure is read or written: the block it is in must not have been freed. *)
Definition touch (h : heap) (var : cvar) : M unit :=
  match cv_self var with
  | PLocal => Ok tt
  | p => _ ← deref h p []; Ok tt
  end.

(** The next step of a function that gives up at the first failed allocation. *)
Definition bind_opt {A B} (m : M (option A)) (f : A → M (option B)) : M (option B) :=
  o ← m; match o with Some a => f a | None => Ok None end.

Notation "' x ←? m ; k" := (bind_opt m (λ x, k))
  (at level 20, x pattern, m at level 100, k at level 200, right associativity).

Section Client.
Variable malloc_ok : Z → bool.

(** [malloc(n)], the block at once filled with [l]. *)
Definition malloc_copy (h : heap) (n : Z) (l : list Z) : option (heap * nat) :=
  if malloc_ok n then Some (h ++ [Some l], length h) else None.

Definition set_name (vp : cvar) (name : ptr) (name_length : Z) (name_loc : list Z) : cvar :=
  CVar name name_length name_loc (cv_type vp) (cv_val vp) (cv_val_len vp) (cv_buf vp)
    (cv_self vp).

Definition set_val (vp : cvar) (val : ptr) (val_len : Z) (buf : list Z) : cvar :=
  CVar (cv_name vp) (cv_name_length vp) (cv_name_loc vp) (cv_type vp) val val_len buf (cv_self vp).

(** [None] is the result 1.  [objid] is [None] for [NULL], which leaves the contents
    of a new block indeterminate: zeros stand for them here. *)
Definition snmp_set_var_objid (h : heap) (vp : cvar) (objid : option (list Z))
    (name_length : Z) : M (option (heap * cvar)) :=
  let len := u32 (SIZEOF_OID * name_length) in
  h ← match cv_name vp with
      | PHeap b => if MAX_OID_LEN <? cv_name_length vp then free h b else Ok h
      | _ => Ok h
      end;
  if len <=? SIZEOF_NAME_LOC then
    name_loc ← match objid with
               | Some objid => l ← rd_list objid 0 (Z.to_nat (len / SIZEOF_OID));
                               wr_list (cv_name_loc vp) 0 l
               | None => Ok (cv_name_loc vp)
               end;
    Ok (Some (h, set_name vp PLocal name_length name_loc))
  else if malloc_ok len then
    l ← match objid with
        | Some objid => rd_list objid 0 (Z.to_nat (len / SIZEOF_OID))
        | None => Ok (replicate (Z.to_nat (len / SIZEOF_OID)) 0)
        end;
    match malloc_copy h len l with
    | Some (h, b) => Ok (Some (h, set_name vp (PHeap b) name_length (cv_name_loc vp)))
    | None => Ok None
    end
  else Ok None.

(** [memmove(newvar, var, sizeof)] and the pointers reset, the name, the value; the new
    variable is at [self]. *)
Definition snmp_clone_var (h : heap) (var : cvar) (self : ptr) : M (option (heap * cvar)) :=
  let newvar := CVar PNull (cv_name_length var) (cv_name_loc var) (cv_type var)
                  PNull (cv_val_len var) (cv_buf var) self in
  objid ← match cv_name var with
          | PNull => Ok None
          | p => l ← deref h p (cv_name_loc var); Ok (Some l)
          end;
  r ← snmp_set_var_objid h newvar objid (cv_name_length var);
  match r with
  | None => Ok None
  | Some (h, newvar) =>
      match cv_val var with
      | PNull => Ok (Some (h, set_val newvar PNull 0 (cv_buf newvar)))
      | PLocal => Ok (Some (h, set_val newvar PLocal (cv_val_len newvar) (cv_buf newvar)))
      | PHeap b =>
          if cv_val_len var <=? SIZEOF_BUF then
            v ← deref h (PHeap b) [];
            l ← rd_list v 0 (Z.to_nat (cv_val_len var));
            buf ← wr_list (cv_buf newvar) 0 l;
            Ok (Some (h, set_val newvar PLocal (cv_val_len newvar) buf))
          else if malloc_ok (cv_val_len var) then
            v ← deref h (PHeap b) [];
            l ← rd_list v 0 (Z.to_nat (cv_val_len var));
            match malloc_copy h (cv_val_len var) l with
            | Some (h, nb) => Ok (Some (h, set_val newvar (PHeap nb) (cv_val_len newvar) (cv_buf newvar)))
            | None => Ok None
            end
          else Ok None
      end
  end.

(** [while (var && (copy_count-- > 0))]; [ii] counts the variables seen.  [None] is
    an allocation that failed: the variables copied so far are freed and the
    result is [NULL]. *)
Fixpoint _copy_varlist (h : heap) (vars : list cvar) (errindex copy_count ii : Z)
    : M (option (heap * list cvar)) :=
  match vars with
  | [] => Ok (Some (h, []))
  | var :: vars =>
      if 0 <? copy_count then
        let ii := ii + 1 in
        _ ← touch h var;
        if ii =? errindex then _copy_varlist h vars errindex (copy_count - 1) ii
        else
          match malloc_copy h SIZEOF_VARIABLE_LIST [] with
          | None => Ok None
          | Some (h, self) =>
              r ← snmp_clone_var h var (PHeap self);
              match r with
              | None => Ok None
              | Some (h, newvar) =>
                  r ← _copy_varlist h vars errindex (copy_count - 1) ii;
                  match r with
                  | None => Ok None
                  | Some (h, newvars) => Ok (Some (h, newvar :: newvars))
                  end
              end
          end
      else Ok (Some (h, []))
  end.

(** A pointer to allocated memory with the number of its elements. *)
Record cbuf := CBuf { cb_ptr : ptr; cb_len : Z }.

(** The fields of [struct snmp_pdu] that are copied with the structure.  [tDomain] points
    to a constant and is a plain word here; [securityStateRef] points to an object of the
    security model. *)
Record pdu_fields := PduFields {
  pf_version : Z; pf_command : Z; pf_reqid : Z; pf_msgid : Z; pf_transid : Z; pf_sessid : Z;
  pf_errstat : Z; pf_errindex : Z; pf_time : Z; pf_flags : Z;
  pf_securityModel : Z; pf_securityLevel : Z; pf_msgParseModel : Z;
  pf_tDomain : Z; pf_tDomainLen : Z; pf_trap_type : Z; pf_specific_type : Z;
  pf_agent_addr : list Z; pf_priority : Z; pf_range_subid : Z; pf_securityStateRef : ptr;
}.

Record cpdu := CPdu {
  cp_fields : pdu_fields;
  cp_enterprise : cbuf;
  cp_community : cbuf;
  cp_contextEngineID : cbuf;
  cp_securityEngineID : cbuf;
  cp_contextName : cbuf;
  cp_securityName : cbuf;
  cp_transport_data : cbuf;
  cp_variables : list cvar;
  cp_self : ptr;
}.

(** [len] octets, elements of [size] octets each, are copied into a block with one
    octet more, which is 0.  [None] is the result 1. *)
Definition snmp_clone_mem (h : heap) (size : Z) (src : cbuf) : M (option (heap * cbuf)) :=
  let len := u32 (size * cb_len src) in
  match cb_ptr src with
  | PNull => Ok (Some (h, src))
  | p =>
      if malloc_ok (u32 (len + 1)) then
        s ← deref h p [];
        l ← rd_list s 0 (Z.to_nat (len / size));
        match malloc_copy h (u32 (len + 1)) (l ++ [0]) with
        | Some (h, b) => Ok (Some (h, CBuf (PHeap b) (cb_len src)))
        | None => Ok None
        end
      else Ok None
  end.

Definition set_variables (p : cpdu) (vars : list cvar) : cpdu :=
  CPdu (cp_fields p) (cp_enterprise p) (cp_community p) (cp_contextEngineID p)
    (cp_securityEngineID p) (cp_contextName p) (cp_securityName p) (cp_transport_data p) vars
    (cp_self p).

Definition set_fields (p : cpdu) (f : pdu_fields) : cpdu :=
  CPdu f (cp_enterprise p) (cp_community p) (cp_contextEngineID p)
    (cp_securityEngineID p) (cp_contextName p) (cp_securityName p) (cp_transport_data p)
    (cp_variables p) (cp_self p).

(** [find_sec_mod(securityModel)->pdu_clone], when that module has one: it gets
    the two PDUs and returns the new one. *)
Variable pdu_clone : Z → option (heap → cpdu → cpdu → M (heap * cpdu)).

(** A copy without variables; [None] is [NULL], the blocks allocated so far being
    freed. *)
Definition _clone_pdu_header (h : heap) (pdu : cpdu) : M (option (heap * cpdu)) :=
  match malloc_copy h SIZEOF_PDU [] with
  | None => Ok None
  | Some (h, self) =>
    '(h, enterprise) ←? snmp_clone_mem h SIZEOF_OID (cp_enterprise pdu);
    '(h, community) ←? snmp_clone_mem h 1 (cp_community pdu);
    '(h, contextEngineID) ←? snmp_clone_mem h 1 (cp_contextEngineID pdu);
    '(h, securityEngineID) ←? snmp_clone_mem h 1 (cp_securityEngineID pdu);
    '(h, contextName) ←? snmp_clone_mem h 1 (cp_contextName pdu);
    '(h, securityName) ←? snmp_clone_mem h 1 (cp_securityName pdu);
    '(h, transport_data) ←? snmp_clone_mem h 1 (cp_transport_data pdu);
    let newpdu := CPdu (cp_fields pdu) enterprise community contextEngineID securityEngineID
                    contextName securityName transport_data [] (PHeap self) in
    match pdu_clone (pf_securityModel (cp_fields newpdu)) with
    | Some f => r ← f h pdu newpdu; Ok (Some r)
    | None => Ok (Some (h, newpdu))
    end
  end.

(** A list that could not be copied leaves the new PDU without variables; the
    function does not report it.  [copied] is computed and not used. *)
Definition _copy_pdu_vars (pdu : cpdu) (newpdu : option (heap * cpdu))
    (drop_err : bool) (skip_count copy_count : Z) : M (option (heap * cpdu)) :=
  match newpdu with
  | None => Ok None
  | Some (h, newpdu) =>
      let drop_idx := if drop_err then s32 (pf_errindex (cp_fields pdu) - skip_count) else 0 in
      let var := drop (Z.to_nat skip_count) (cp_variables pdu) in
      r ← _copy_varlist h var drop_idx copy_count 0;
      match r with
      | Some (h, vars) => Ok (Some (h, set_variables newpdu vars))
      | None => Ok (Some (h, set_variables newpdu []))
      end
  end.

Definition _clone_pdu (h : heap) (pdu : cpdu) (drop_err : bool) : M (option (heap * cpdu)) :=
  newpdu ← _clone_pdu_header h pdu;
  _copy_pdu_vars pdu newpdu drop_err 0 10000.

Definition snmp_clone_varbind (h : heap) (varlist : list cvar) : M (option (heap * list cvar)) :=
  _copy_varlist h varlist 0 10000 0.

Definition snmp_clone_pdu (h : heap) (pdu : cpdu) : M (option (heap * cpdu)) :=
  _clone_pdu h pdu false.

Definition snmp_split_pdu (h : heap) (pdu : cpdu) (skip_count copy_count : Z)
    : M (option (heap * cpdu)) :=
  newpdu ← _clone_pdu_header h pdu;
  _copy_pdu_vars pdu newpdu false skip_count copy_count.

Definition snmp_varbind_len (pdu : cpdu) : Z :=
  fold_left (λ retVal _, u32 (retVal + 1)) (cp_variables pdu) 0.

(** [snmp_get_next_reqid] and [snmp_get_next_msgid] on their counters [Reqid] and
    [Msgid]; [ids16] is the setting NETSNMP_DS_LIB_16BIT_IDS.  Returns the
    identifier and the counter.  [1 + Reqid] wraps. *)
Definition get_next_id (ids16 : bool) (Reqid : Z) : Z * Z :=
  let retVal := s32 (1 + Reqid) in
  let retVal := if retVal =? 0 then 2 else retVal in
  let Reqid := retVal in
  let retVal := Z.land retVal (if ids16 then 0x7fff else 0x7fffffff) in
  if retVal =? 0 then (2, 2) else (retVal, Reqid).

Definition fixed_fields (f : pdu_fields) (command reqid msgid : Z) : pdu_fields :=
  PduFields (pf_version f) command reqid msgid (pf_transid f) (pf_sessid f)
    SNMP_DEFAULT_ERRSTAT SNMP_DEFAULT_ERRINDEX (pf_time f) (pf_flags f)
    (pf_securityModel f) (pf_securityLevel f) (pf_msgParseModel f)
    (pf_tDomain f) (pf_tDomainLen f) (pf_trap_type f) (pf_specific_type f)
    (pf_agent_addr f) (pf_priority f) (pf_range_subid f) (pf_securityStateRef f).

(** [errindex] is compared with an [unsigned long].  The counters are returned
    with the result. *)
Definition snmp_fix_pdu (ids16 : bool) (Reqid Msgid : Z) (h : heap) (pdu : cpdu) (command : Z)
    : M (option (heap * cpdu) * Z * Z) :=
  let f := cp_fields pdu in
  if negb (pf_command f =? SNMP_MSG_RESPONSE) || (pf_errstat f =? SNMP_ERR_NOERROR)
     || bool_decide (cp_variables pdu = []) || (snmp_varbind_len pdu <? u32 (pf_errindex f))
     || (pf_errindex f <=? 0)
  then Ok (None, Reqid, Msgid)
  else
    r ← _clone_pdu h pdu true;
    match r with
    | None => Ok (None, Reqid, Msgid)
    | Some (h, newpdu) =>
        if bool_decide (cp_variables newpdu = []) then Ok (None, Reqid, Msgid)
        else
          let '(reqid, Reqid) := get_next_id ids16 Reqid in
          let '(msgid, Msgid) := get_next_id ids16 Msgid in
          Ok (Some (h, set_fields newpdu (fixed_fields (cp_fields newpdu) command reqid msgid)),
              Reqid, Msgid)
    end.
End Client.

(** ** What a variable shows *)

(** Name, type and value as a reader of the structure sees them. *)
Definition vb : Type := list Z * Z * option (list Z).

Record shows (h : heap) (cv : cvar) (b : vb) : Prop := {
  sh_name : ∃ rest, deref h (cv_name cv) (cv_name_loc cv) = Ok (b.1.1 ++ rest);
  sh_name_length : cv_name_length cv = zlen b.1.1;
  sh_name_bound : zlen b.1.1 < 2 ^ 16;
  sh_type : cv_type cv = b.1.2;
  sh_val :
    match b.2 with
    | None => cv_val cv = PNull
    | Some v => cv_val_len cv = zlen v ∧ zlen v < 2 ^ 31 ∧
        ∃ rest, deref h (cv_val cv) (cv_buf cv) = Ok (v ++ rest)
    end;
  sh_name_loc : zlen (cv_name_loc cv) = MAX_OID_LEN;
  sh_buf : zlen (cv_buf cv) = SIZEOF_BUF;
  sh_self : touch h cv = Ok tt;
}.

(** Neither [cv] nor what it points to is in the first [n] blocks of the heap. *)
Definition apart (n : nat) (cv : cvar) : Prop :=
  ∀ b, cv_name cv = PHeap b ∨ cv_val cv = PHeap b ∨ cv_self cv = PHeap b → (n ≤ b)%nat.

Lemma deref_app h h' p loc l : deref h p loc = Ok l → deref (h ++ h') p loc = Ok l.
Proof.
  destruct p as [| |b]; simpl; [done..|]. destruct (h !! b) as [o|] eqn:E; [|done].
  by rewrite (lookup_app_l_Some _ _ _ _ E).
Qed.

Lemma touch_app h h' cv : touch h cv = Ok tt → touch (h ++ h') cv = Ok tt.
Proof.
  unfold touch. destruct (cv_self cv) as [| |b]; [done..|].
  destruct (deref h (PHeap b) []) as [l| |] eqn:E; [|done..]. by rewrite (deref_app _ _ _ _ _ E).
Qed.

Lemma shows_app h h' cv b : shows h cv b → shows (h ++ h') cv b.
Proof.
  intros [[r Hn] Hnl Hnb Ht Hv Hloc Hbuf Hself]. split; try done.
  - exists r. by apply deref_app.
  - destruct (b.2) as [v|]; [|done]. destruct Hv as (Hl & Hb & r' & Hv).
    split_and!; [done..|]. exists r'. by apply deref_app.
  - by apply touch_app.
Qed.

Lemma apart_le n m cv : (m ≤ n)%nat → apart n cv → apart m cv.
Proof. intros H Ha b Hb. specialize (Ha b Hb). lia. Qed.

Section Copies.
Variable malloc_ok : Z → bool.
Hypothesis malloc_grants_all : ∀ n, 0 ≤ n < 2 ^ 31 → malloc_ok n = true.

Lemma malloc_copy_ok h n l :
  0 ≤ n < 2 ^ 31 → malloc_copy malloc_ok h n l = Some (h ++ [Some l], length h).
Proof. intros. unfold malloc_copy. by rewrite malloc_grants_all. Qed.

Lemma deref_last h (l : list Z) loc : deref (h ++ [Some l]) (PHeap (length h)) loc = Ok l.
Proof. unfold deref. by rewrite list_lookup_middle by done. Qed.

Lemma rd_list_front l rest : rd_list (l ++ rest) 0 (Z.to_nat (zlen l)) = Ok l.
Proof. rewrite Z_to_nat_zlen. apply (rd_list_app l []). Qed.

Lemma wr_list_front l buf :
  zlen l ≤ zlen buf → wr_list buf 0 l = Ok (l ++ drop (length l) buf).
Proof. unfold zlen. intros. rewrite wr_list_eq by lia. done. Qed.

(** A name given to a variable that has none. *)
Lemma set_var_objid_spec h vp name rest :
  cv_name vp = PNull → zlen (cv_name_loc vp) = MAX_OID_LEN → zlen name < 2 ^ 16 →
  ∃ h' p loc, snmp_set_var_objid malloc_ok h vp (Some (name ++ rest)) (zlen name)
      = Ok (Some (h ++ h', set_name vp p (zlen name) loc)) ∧
    (∃ r, deref (h ++ h') p loc = Ok (name ++ r)) ∧ zlen loc = MAX_OID_LEN ∧
    (∀ b, p = PHeap b → (length h ≤ b)%nat).
Proof.
  intros Hp Hloc Hn. pose proof (zlen_nonneg name). unfold snmp_set_var_objid.
  rewrite Hp. m_step. unfold SIZEOF_OID, SIZEOF_NAME_LOC.
  rewrite u32_id, Z.mul_comm, Z.div_mul by lia.
  rewrite rd_list_front.
  destruct (Z.leb_spec (zlen name * 4) (MAX_OID_LEN * SIZEOF_OID)) as [Hs|Hs].
  - unfold SIZEOF_OID in Hs. m_step. rewrite wr_list_front by lia. m_step.
    exists [], PLocal, (name ++ drop (length name) (cv_name_loc vp)). rewrite app_nil_r.
    split_and!; [done|by eexists| |done].
    unfold zlen in *. rewrite length_app, length_drop. lia.
  - rewrite malloc_grants_all by lia. m_step. rewrite malloc_copy_ok by lia.
    exists [Some name], (PHeap (length h)), (cv_name_loc vp). split_and!; [done| |done|].
    + exists []. by rewrite deref_last, app_nil_r.
    + intros b [= <-]. done.
Qed.

Lemma touch_self h h' cv self l :
  cv_self cv = PHeap self → deref h (PHeap self) [] = Ok l → touch (h ++ h') cv = Ok tt.
Proof. intros Hs Hl. apply touch_app. unfold touch. by rewrite Hs, Hl. Qed.

Ltac shown_fields :=
  cbn [cv_name cv_name_loc cv_name_length cv_type cv_val cv_val_len cv_buf set_val set_name fst snd].

(** A copy in the block [self], beyond the first [m] blocks. *)
Lemma clone_var_spec h m self cv b :
  shows h cv b → (m ≤ self)%nat → (m ≤ length h)%nat → deref h (PHeap self) [] = Ok [] →
  ∃ h' cv', snmp_clone_var malloc_ok h cv (PHeap self) = Ok (Some (h ++ h', cv')) ∧
    shows (h ++ h') cv' b ∧ apart m cv'.
Proof.
  intros [[rest Hn] Hnl Hnb Ht Hv Hloc Hbuf _] Hm Hmh Hself. destruct b as [[name type] val].
  cbn [fst snd] in *. unfold snmp_clone_var.
  assert (match cv_name cv with
          | PNull => Ok None
          | p => l ← deref h p (cv_name_loc cv); Ok (Some l)
          end = Ok (Some (name ++ rest))) as ->
    by (destruct (cv_name cv); [done|..]; by rewrite Hn). m_step. rewrite Hnl.
  set (nv := CVar _ _ _ _ _ _ _ _).
  destruct (set_var_objid_spec h nv name rest) as (h1 & p & loc & -> & [r Hd] & Hl1 & Hap);
    [done..|]. m_step.
  assert (∀ b, p = PHeap b → (m ≤ b)%nat) as Hap' by (intros b Hb; specialize (Hap b Hb); lia).
  destruct val as [v|]; simpl in Hv.
  - destruct Hv as (Hvl & Hvb & r' & Hv). pose proof (zlen_nonneg v).
    destruct (cv_val cv) as [| |b] eqn:Ev; [done|..].
    + injection Hv as Hv. exists h1. eexists. split; [done|]. split.
      * split; try unfold nv; shown_fields; try done; [by exists r| |by eapply touch_self].
        split_and!; [done..|]. exists r'. by rewrite Hv.
      * intros b. cbn. intros [->|[[=]|[= <-]]]; [by apply Hap'|done].
    + pose proof (deref_app h h1 (PHeap b) [] (v ++ r') Hv) as Hv'.
      rewrite Hvl. destruct (Z.leb_spec (zlen v) SIZEOF_BUF).
      * rewrite Hv'. m_step. rewrite rd_list_front. m_step.
        cbn [cv_buf nv set_val set_name]. rewrite wr_list_front by lia. m_step.
        exists h1. eexists. split; [done|]. split.
        { split; try unfold nv; shown_fields; try done; [by exists r| | |by eapply touch_self].
          - split_and!; [done..|]. by eexists.
          - unfold zlen in *. rewrite length_app, length_drop. lia. }
        intros b'. cbn. intros [->|[[=]|[= <-]]]; [by apply Hap'|done].
      * rewrite malloc_grants_all by lia. rewrite Hv'. m_step. rewrite rd_list_front. m_step.
        rewrite malloc_copy_ok by lia. exists (h1 ++ [Some v]). rewrite app_assoc.
        eexists. split; [done|]. split.
        { split; try unfold nv; shown_fields; try done.
          - exists r. by apply deref_app.
          - split_and!; [done..|]. exists []. by rewrite deref_last, app_nil_r.
          - rewrite <- app_assoc. by eapply touch_self. }
        intros b'. cbn. intros [->|[[= <-]|[= <-]]]; [by apply Hap'| |done]. rewrite length_app. lia.
  - rewrite Hv. exists h1. eexists. split; [done|]. split.
    + split; try unfold nv; shown_fields; try done; [by exists r|by eapply touch_self].
    + intros b. cbn. intros [->|[[=]|[= <-]]]; [by apply Hap'|done].
Qed.

(** The bindings that [_copy_varlist] keeps. *)
Fixpoint kept (errindex copy_count ii : Z) (bs : list vb) : list vb :=
  match bs with
  | [] => []
  | b :: bs =>
      if 0 <? copy_count then
        if ii + 1 =? errindex then kept errindex (copy_count - 1) (ii + 1) bs
        else b :: kept errindex (copy_count - 1) (ii + 1) bs
      else []
  end.

Lemma kept_past e c ii bs : e ≤ ii → kept e c ii bs = take (Z.to_nat c) bs.
Proof.
  revert c ii. induction bs as [|b bs IH]; intros c ii Hi; simpl; [by rewrite take_nil|].
  destruct (Z.ltb_spec 0 c) as [Hc|Hc].
  - rewrite (proj2 (Z.eqb_neq (ii + 1) e)) by lia. rewrite IH by lia.
    by replace (Z.to_nat c) with (S (Z.to_nat (c - 1))) by lia.
  - by replace (Z.to_nat c) with 0%nat by lia.
Qed.

Lemma kept_delete e c ii bs :
  ii < e → kept e c ii bs = delete (Z.to_nat (e - ii - 1)) (take (Z.to_nat c) bs).
Proof.
  revert c ii. induction bs as [|b bs IH]; intros c ii Hi; simpl; [by rewrite take_nil|].
  destruct (Z.ltb_spec 0 c) as [Hc|Hc]; [|by replace (Z.to_nat c) with 0%nat by lia].
  replace (Z.to_nat c) with (S (Z.to_nat (c - 1))) by lia. cbn [take].
  destruct (Z.eqb_spec (ii + 1) e) as [He|He].
  - rewrite kept_past by lia. by replace (Z.to_nat (e - ii - 1)) with 0%nat by lia.
  - rewrite IH by lia. by replace (Z.to_nat (e - ii - 1)) with (S (Z.to_nat (e - (ii + 1) - 1))) by lia.
Qed.

Lemma copy_varlist_spec h vars bs errindex copy_count ii :
  Forall2 (shows h) vars bs →
  ∃ h' vars', _copy_varlist malloc_ok h vars errindex copy_count ii = Ok (Some (h ++ h', vars')) ∧
    Forall2 (shows (h ++ h')) vars' (kept errindex copy_count ii bs) ∧
    Forall (apart (length h)) vars'.
Proof.
  intros HF. revert h copy_count ii HF. revert bs.
  induction vars as [|cv vars IH]; intros bs h c ii HF.
  - apply Forall2_nil_inv_l in HF as ->. exists [], []. simpl. by rewrite app_nil_r.
  - apply Forall2_cons_inv_l in HF as (b & bs' & Hb & HF & ->). cbn [_copy_varlist kept].
    destruct (0 <? c); [|by exists [], []; rewrite app_nil_r].
    rewrite (sh_self _ _ _ Hb). m_step.
    destruct (ii + 1 =? errindex); [by apply IH|].
    rewrite malloc_copy_ok by (unfold SIZEOF_VARIABLE_LIST; lia). set (hn := [Some []]).
    destruct (clone_var_spec (h ++ hn) (length h) (length h) cv b) as (h1 & cv' & -> & Hs & Ha);
      [by apply shows_app|done|rewrite length_app; lia|apply deref_last|]. m_step. rewrite <- app_assoc in *.
    destruct (IH bs' (h ++ hn ++ h1) (c - 1) (ii + 1)) as (h2 & vars' & -> & Hs2 & Ha2).
    { eapply Forall2_impl; [exact HF|]. intros. by apply shows_app. }
    m_step. exists ((hn ++ h1) ++ h2), (cv' :: vars').
    replace (h ++ (hn ++ h1) ++ h2) with ((h ++ hn ++ h1) ++ h2) by (by rewrite !app_assoc).
    split_and!; [done|..].
    + constructor; [by apply shows_app|done].
    + constructor; [done|]. eapply Forall_impl; [exact Ha2|].
      intros x. apply apart_le. rewrite length_app. lia.
Qed.

(** *** Whole PDUs *)

Definition buf_shows (h : heap) (c : cbuf) (o : option (list Z)) : Prop :=
  match o with
  | None => cb_ptr c = PNull
  | Some l => cb_len c = zlen l ∧ zlen l < 2 ^ 28 ∧
      ∃ rest, deref h (cb_ptr c) [] = Ok (l ++ rest)
  end.

Definition ptr_apart (n : nat) (p : ptr) : Prop := ∀ b, p = PHeap b → (n ≤ b)%nat.
Definition buf_apart (n : nat) (c : cbuf) : Prop := ptr_apart n (cb_ptr c).

Definition buffers (p : cpdu) : list cbuf :=
  [cp_enterprise p; cp_community p; cp_contextEngineID p; cp_securityEngineID p;
   cp_contextName p; cp_securityName p; cp_transport_data p].

(** The allocated fields hold [os] and the variables [bs]. *)
Definition pdu_shows (h : heap) (p : cpdu) (os : list (option (list Z))) (bs : list vb) : Prop :=
  Forall2 (buf_shows h) (buffers p) os ∧ Forall2 (shows h) (cp_variables p) bs.

Definition pdu_apart (n : nat) (p : cpdu) : Prop :=
  Forall (buf_apart n) (buffers p) ∧ Forall (apart n) (cp_variables p) ∧ ptr_apart n (cp_self p).

Lemma buf_shows_app h h' c o : buf_shows h c o → buf_shows (h ++ h') c o.
Proof.
  destruct o as [l|]; [|done]. intros (Hl & Hb & rest & Hd).
  split_and!; [done..|]. exists rest. by apply deref_app.
Qed.

Lemma buf_apart_le n m c : (m ≤ n)%nat → buf_apart n c → buf_apart m c.
Proof. intros H Ha b Hb. specialize (Ha b Hb). lia. Qed.

Lemma clone_mem_spec h size c o :
  1 ≤ size ≤ 4 → buf_shows h c o →
  ∃ h' c', snmp_clone_mem malloc_ok h size c = Ok (Some (h ++ h', c')) ∧
    buf_shows (h ++ h') c' o ∧ buf_apart (length h) c'.
Proof.
  intros Hsz Hs. unfold snmp_clone_mem. destruct o as [l|]; simpl in Hs.
  - destruct Hs as (Hl & Hb & rest & Hd). pose proof (zlen_nonneg l).
    assert (0 ≤ zlen l * size < 2 ^ 31 - 1) by nia.
    rewrite Hl, (Z.mul_comm size), (u32_id (zlen l * size)) by lia.
    rewrite u32_id, Z.div_mul by lia.
    rewrite malloc_grants_all by lia.
    destruct (cb_ptr c) as [| |b]; [done|rewrite Hd; m_step..];
      (rewrite rd_list_front; m_step; rewrite malloc_copy_ok by lia;
       exists [Some (l ++ [0])]; eexists; split_and!;
       [done|split_and!; [done..|]; exists [0]; apply deref_last|by intros ? [= <-]]).
  - rewrite Hs. exists [], c. rewrite app_nil_r. split_and!; [done..|].
    intros b Hb. congruence.
Qed.

Definition set_stateref (f : pdu_fields) (r : ptr) : pdu_fields :=
  PduFields (pf_version f) (pf_command f) (pf_reqid f) (pf_msgid f) (pf_transid f) (pf_sessid f)
    (pf_errstat f) (pf_errindex f) (pf_time f) (pf_flags f)
    (pf_securityModel f) (pf_securityLevel f) (pf_msgParseModel f)
    (pf_tDomain f) (pf_tDomainLen f) (pf_trap_type f) (pf_specific_type f)
    (pf_agent_addr f) (pf_priority f) (pf_range_subid f) r.

Lemma set_stateref_id f : set_stateref f (pf_securityStateRef f) = f.
Proof. by destruct f. Qed.

Variable pdu_clone : Z → option (heap → cpdu → cpdu → M (heap * cpdu)).
(** A security model copies its own state and changes nothing else. *)
Hypothesis pdu_clone_state : ∀ m f h p q, pdu_clone m = Some f →
  ∃ h' r, f h p q = Ok (h ++ h', set_fields q (set_stateref (cp_fields q) r)).

(** A copy of the fields: the pointer to the state of the security model is the same
    one, so that the two PDUs share that object, unless the model has a hook. *)
Definition same_fields (f f' : pdu_fields) : Prop :=
  ∃ r, f' = set_stateref f r ∧ (pdu_clone (pf_securityModel f) = None → r = pf_securityStateRef f).

(** The promise of a copy: everything but the variables and the state of the
    security model is as before, and the structure, its variables and all they own are in
    new memory. *)
Definition copied (h : heap) (pdu : cpdu) (os : list (option (list Z))) (bs : list vb)
    (h' : heap) (newpdu : cpdu) : Prop :=
  same_fields (cp_fields pdu) (cp_fields newpdu) ∧
  pdu_shows (h ++ h') newpdu os bs ∧ pdu_apart (length h) newpdu.

Ltac clone_mem_step :=
  match goal with
  | Hb : buf_shows ?h ?c ?o |- context [snmp_clone_mem _ (?h ++ ?h1) ?size ?c] =>
      let h' := fresh "hx" in let c' := fresh "cx" in
      destruct (clone_mem_spec (h ++ h1) size c o) as (h' & c' & -> & ? & ?);
        [unfold SIZEOF_OID; lia|by apply buf_shows_app|];
        cbn [bind_opt mbind M_bind]; rewrite <- (app_assoc h h1 h') in *
  | Hb : buf_shows ?h ?c ?o |- context [snmp_clone_mem _ ?h ?size ?c] =>
      let h' := fresh "hx" in let c' := fresh "cx" in
      destruct (clone_mem_spec h size c o) as (h' & c' & -> & ? & ?);
        [unfold SIZEOF_OID; lia|done|]; cbn [bind_opt mbind M_bind]
  end.

Lemma clone_pdu_header_spec h pdu os bs :
  pdu_shows h pdu os bs →
  ∃ h' newpdu, _clone_pdu_header malloc_ok pdu_clone h pdu = Ok (Some (h ++ h', newpdu)) ∧
    copied h pdu os [] h' newpdu.
Proof.
  intros [HB _]. unfold buffers in HB.
  destruct os as [|o1 [|o2 [|o3 [|o4 [|o5 [|o6 [|o7 [|? ?]]]]]]]];
    try by apply Forall2_length in HB.
  rewrite !Forall2_cons in HB. destruct HB as (? & ? & ? & ? & ? & ? & ? & _).
  unfold _clone_pdu_header. rewrite malloc_copy_ok by (unfold SIZEOF_PDU; lia).
  do 7 clone_mem_step.
  match goal with |- context [Ok (Some (h ++ ?t, _))] => set (hN := t) end.
  set (q := CPdu _ _ _ _ _ _ _ _ _ _).
  assert (pdu_shows (h ++ hN) q [o1; o2; o3; o4; o5; o6; o7] []) as HS.
  { split; [|constructor]. unfold hN. rewrite !app_assoc in *.
    repeat (constructor; [repeat (done || apply buf_shows_app)|]). constructor. }
  assert (pdu_apart (length h) q) as HA.
  { split_and!; [|constructor|by intros b [= <-]]. repeat (constructor; [eapply buf_apart_le; [|eassumption];
      rewrite ?length_app; lia|]). constructor. }
  destruct (pdu_clone _) as [f|] eqn:Ef.
  - destruct (pdu_clone_state _ f (h ++ hN) pdu q Ef) as (h' & r & ->). m_step.
    exists (hN ++ h'). eexists. rewrite app_assoc. split; [done|].
    split; [exists r; split; [done|intros E; cbn in Ef; congruence]|]. split; [|done]. split; [|constructor].
    eapply Forall2_impl; [exact (proj1 HS)|]. intros. rewrite app_assoc. by apply buf_shows_app.
  - exists hN, q. split; [done|]. split; [|done].
    exists (pf_securityStateRef (cp_fields pdu)). by rewrite set_stateref_id.
Qed.

(** The common part: a header, then some of the variables. *)
Lemma copy_pdu_spec h pdu os bs drop_err skip_count copy_count :
  pdu_shows h pdu os bs →
  ∃ h' newpdu,
    (newpdu ← _clone_pdu_header malloc_ok pdu_clone h pdu;
     _copy_pdu_vars malloc_ok pdu newpdu drop_err skip_count copy_count)
      = Ok (Some (h ++ h', newpdu)) ∧
    copied h pdu os
      (kept (if drop_err : bool then s32 (pf_errindex (cp_fields pdu) - skip_count) else 0)
         copy_count 0 (drop (Z.to_nat skip_count) bs)) h' newpdu.
Proof.
  intros HP. destruct (clone_pdu_header_spec h pdu os bs HP)
    as (h1 & q & -> & Hf & [HB _] & (HA & _ & HQ)). m_step. unfold _copy_pdu_vars.
  set (e := if drop_err then _ else _).
  destruct (copy_varlist_spec (h ++ h1) (drop (Z.to_nat skip_count) (cp_variables pdu))
              (drop (Z.to_nat skip_count) bs) e copy_count 0) as (h2 & vars & -> & HS & HV).
  { apply Forall2_drop. eapply Forall2_impl; [exact (proj2 HP)|]. intros. by apply shows_app. }
  m_step. exists (h1 ++ h2), (set_variables q vars). rewrite app_assoc. split; [done|].
  split; [done|]. unfold pdu_shows, pdu_apart. rewrite app_assoc. split_and!; [|done|done| |done].
  - eapply Forall2_impl; [exact HB|]. intros. by apply buf_shows_app.
  - eapply Forall_impl; [exact HV|]. intros x. apply apart_le. rewrite length_app. lia.
Qed.


(** [snmp_split_pdu] gives a PDU with [copy_count] variables of the
    original after the first [skip_count], or what there is of them, and otherwise
    a copy like that of [snmp_clone_pdu]. *)
Theorem split_pdu_copies h pdu os bs skip_count copy_count :
  pdu_shows h pdu os bs →
  ∃ h' newpdu,
    snmp_split_pdu malloc_ok pdu_clone h pdu skip_count copy_count = Ok (Some (h ++ h', newpdu)) ∧
    copied h pdu os (take (Z.to_nat copy_count) (drop (Z.to_nat skip_count) bs)) h' newpdu.
Proof.
  intros HP. destruct (copy_pdu_spec h pdu os bs false skip_count copy_count HP)
    as (h' & q & E & HC).
  exists h', q. split; [exact E|]. by rewrite kept_past in HC by lia.
Qed.

Lemma varbind_len_spec pdu :
  Z.of_nat (length (cp_variables pdu)) < 2 ^ 32 → snmp_varbind_len pdu = Z.of_nat (length (cp_variables pdu)).
Proof.
  unfold snmp_varbind_len. intros H.
  cut (∀ n, 0 ≤ n → n + Z.of_nat (length (cp_variables pdu)) < 2 ^ 32 →
    fold_left (λ r _, u32 (r + 1)) (cp_variables pdu) n = n + Z.of_nat (length (cp_variables pdu))).
  { intros C. rewrite C; lia. }
  clear H. induction (cp_variables pdu) as [|v vs IH]; intros n Hn Hl; simpl in *; [lia|].
  rewrite u32_id by lia. rewrite IH by lia. lia.
Qed.

(** The PDUs that [snmp_fix_pdu] repairs. *)
Definition fixable (pdu : cpdu) (bs : list vb) : Prop :=
  pf_command (cp_fields pdu) = SNMP_MSG_RESPONSE ∧
  pf_errstat (cp_fields pdu) ≠ SNMP_ERR_NOERROR ∧
  1 ≤ pf_errindex (cp_fields pdu) ≤ Z.of_nat (length bs) ∧ (2 ≤ length bs)%nat.

Lemma get_next_id_range ids16 c : 0 < (get_next_id ids16 c).1 < 2 ^ 31.
Proof.
  unfold get_next_id. set (r := if _ =? 0 then 2 else _).
  set (m := if ids16 then _ else _). cbv zeta.
  assert (0 ≤ Z.land r m < 2 ^ 31) as Hr.
  { assert (∀ k, 0 ≤ k ≤ 31 → 0 ≤ Z.land r (2 ^ k - 1) < 2 ^ 31) as Hk.
    { intros k Hk. rewrite land_ones_mod by lia.
      pose proof (Z.mod_pos_bound r (2 ^ k)). pose proof (Z.pow_le_mono_r 2 k 31). lia. }
    destruct ids16; [apply (Hk 15)|apply (Hk 31)]; lia. }
  destruct (Z.eqb_spec (Z.land r m) 0); simpl; lia.
Qed.

#[global] Instance fixable_dec pdu bs : Decision (fixable pdu bs).
Proof. unfold fixable. apply _. Defined.

Lemma delete_nonempty {A} (l : list A) i : (2 ≤ length l)%nat → delete i l ≠ [].
Proof. destruct l as [|x [|y l]]; simpl; [lia..|]. by destruct i as [|[|i]]. Qed.

(** The conditions at the head of [snmp_fix_pdu]. *)
Lemma fix_guard_spec pdu n :
  length (cp_variables pdu) = n → Z.of_nat n < 2 ^ 31 →
  - 2 ^ 31 ≤ pf_errindex (cp_fields pdu) < 2 ^ 31 →
  negb (pf_command (cp_fields pdu) =? SNMP_MSG_RESPONSE)
    || (pf_errstat (cp_fields pdu) =? SNMP_ERR_NOERROR) || bool_decide (cp_variables pdu = [])
    || (snmp_varbind_len pdu <? u32 (pf_errindex (cp_fields pdu)))
    || (pf_errindex (cp_fields pdu) <=? 0) = false ↔
  pf_command (cp_fields pdu) = SNMP_MSG_RESPONSE ∧
  pf_errstat (cp_fields pdu) ≠ SNMP_ERR_NOERROR ∧
  1 ≤ pf_errindex (cp_fields pdu) ≤ Z.of_nat n.
Proof.
  intros Hn Hl He. rewrite varbind_len_spec by lia. rewrite Hn.
  rewrite !orb_false_iff, negb_false_iff, bool_decide_eq_false, Z.eqb_eq, Z.eqb_neq,
    Z.ltb_ge, Z.leb_gt. split.
  - intros ((((? & ?) & ?) & Hle) & ?). rewrite u32_id in Hle by lia. split_and!; [done..|lia|done].
  - intros (? & ? & ? & ?). rewrite u32_id by lia. split_and!; [done..| |done|lia].
    intros E. rewrite E in Hn. simpl in Hn. lia.
Qed.

(** A response with an error whose index names one of at least two
    variables is turned by [snmp_fix_pdu] into a request of the given type with
    the next identifiers, which are positive, the error fields reset and the named variable
    removed, in new memory but for the state of the security model; for any other PDU the
    result is [NULL] and no identifier is used up. *)
Theorem fix_pdu_drops_error ids16 Reqid Msgid h pdu os bs command :
  pdu_shows h pdu os bs → Z.of_nat (length bs) < 2 ^ 31 →
  - 2 ^ 31 ≤ pf_errindex (cp_fields pdu) < 2 ^ 31 →
  if decide (fixable pdu bs) then
    ∃ h' newpdu reqid msgid Reqid' Msgid' r,
      snmp_fix_pdu malloc_ok pdu_clone ids16 Reqid Msgid h pdu command
        = Ok (Some (h ++ h', newpdu), Reqid', Msgid') ∧
      get_next_id ids16 Reqid = (reqid, Reqid') ∧ 0 < reqid < 2 ^ 31 ∧
      get_next_id ids16 Msgid = (msgid, Msgid') ∧ 0 < msgid < 2 ^ 31 ∧
      cp_fields newpdu = fixed_fields (set_stateref (cp_fields pdu) r) command reqid msgid ∧
      pdu_shows (h ++ h') newpdu os
        (delete (Z.to_nat (pf_errindex (cp_fields pdu) - 1)) (take (Z.to_nat 10000) bs)) ∧
      pdu_apart (length h) newpdu
  else snmp_fix_pdu malloc_ok pdu_clone ids16 Reqid Msgid h pdu command = Ok (None, Reqid, Msgid).
Proof.
  intros HP Hlen He. pose proof (Forall2_length _ _ _ (proj2 HP)) as Hl.
  pose proof (fix_guard_spec pdu (length bs) Hl Hlen He) as HG. unfold snmp_fix_pdu.
  match type of HG with ?g = false ↔ _ => destruct g eqn:Eg end.
  { rewrite decide_False; [done|]. intros (? & ? & ? & ?). by discriminate (proj2 HG). }
  destruct (proj1 HG eq_refl) as (Hc & Hs & Hi).
  destruct (copy_pdu_spec h pdu os bs true 0 10000 HP) as (h' & q & E & Hf & HS & HA).
  rewrite Z.sub_0_r, s32_id, drop_0, kept_delete, Z.sub_0_r in HS by lia.
  unfold _clone_pdu. rewrite E. m_step.
  pose proof (Forall2_length _ _ _ (proj2 HS)) as Hq.
  destruct (decide (fixable pdu bs)) as [HF|HF].
  - rewrite bool_decide_false.
    2:{ intros Ev. rewrite Ev in Hq. apply eq_sym, nil_length_inv, delete_nonempty in Hq; [done|].
        rewrite length_take. destruct HF as (_ & _ & _ & ?). lia. }
    destruct (get_next_id ids16 Reqid) as [reqid Reqid'] eqn:E1.
    destruct (get_next_id ids16 Msgid) as [msgid Msgid'] eqn:E2. destruct Hf as (r & Hf & _).
    pose proof (get_next_id_range ids16 Reqid). pose proof (get_next_id_range ids16 Msgid).
    rewrite E1, E2 in *. eexists h', _, reqid, msgid, Reqid', Msgid', r.
    do 5 (split; [done|]).
    split; [cbn; by rewrite Hf|]. split; [exact HS|exact HA].
  - rewrite bool_decide_true; [done|]. apply nil_length_inv. rewrite Hq.
    assert (length bs = 1%nat) as Hb.
    { destruct (decide (2 ≤ length bs)%nat); [|lia]. by destruct HF. }
    replace (pf_errindex (cp_fields pdu)) with 1 by lia.
    destruct bs as [|? [|]]; [done|done|done].
Qed.
End Copies.


(** ** Samples *)

(** A variable with its own storage and one whose name and value are allocated. *)
Definition sample_heap : heap :=
  [Some (replicate 129 7); Some (replicate 50 65); None; Some [112; 117; 98; 0]; Some []; Some [9]].

Definition sample_vars : list cvar :=
  [CVar PLocal 3 ([1; 3; 6] ++ replicate 125 0) 2 PLocal 4 ([5; 0; 0; 0] ++ replicate 36 0) PLocal;
   CVar (PHeap 0) 129 (replicate 128 0) 4 (PHeap 1) 50 (replicate 40 0) (PHeap 4)].

Definition sample_bindings : list vb :=
  [([1; 3; 6], 2, Some [5; 0; 0; 0]); (replicate 129 7, 4, Some (replicate 50 65))].

Definition sample_pdu : cpdu :=
  CPdu (PduFields 1 SNMP_MSG_RESPONSE 9 0 0 0 2 1 0 0 3 1 3 0 0 0 0 [0; 0; 0; 0] 0 0 (PHeap 5))
    (CBuf PNull 0) (CBuf (PHeap 3) 3) (CBuf PNull 0) (CBuf PNull 0) (CBuf PNull 0) (CBuf PNull 0)
    (CBuf PNull 0) sample_vars PLocal.

Definition sample_buffers : list (option (list Z)) :=
  [None; Some [112; 117; 98]; None; None; None; None; None].

Lemma sample_shows : pdu_shows sample_heap sample_pdu sample_buffers sample_bindings.
Proof.
  split.
  - repeat constructor; try done. by exists [0].
  - repeat constructor; try done; cbn.
    + by exists (replicate 125 0).
    + by exists (replicate 36 0).
    + by exists [].
    + by exists [].
Qed.

(** A security model with number 3 that keeps a state of its own. *)
Definition sample_hook (m : Z) : option (heap → cpdu → cpdu → M (heap * cpdu)) :=
  if m =? 3 then Some (λ h p q, Ok (h ++ [Some [8]], set_fields q (set_stateref (cp_fields q) (PHeap (length h)))))
  else None.

Lemma sample_hook_state m f h p q :
  sample_hook m = Some f →
  ∃ h' r, f h p q = Ok (h ++ h', set_fields q (set_stateref (cp_fields q) r)).
Proof. unfold sample_hook. destruct (m =? 3); [|done]. intros [= <-]. by exists [Some [8]], (PHeap (length h)). Qed.


Lemma split_pdu_copies_witness :
  ∃ h' newpdu, snmp_split_pdu (λ _, true) sample_hook sample_heap sample_pdu 1 5
      = Ok (Some (sample_heap ++ h', newpdu)) ∧
    copied sample_hook sample_heap sample_pdu sample_buffers (drop 1 sample_bindings) h' newpdu.
Proof.
  exact (split_pdu_copies (λ _, true) (λ _ _, eq_refl) sample_hook sample_hook_state
           sample_heap sample_pdu sample_buffers sample_bindings 1 5 sample_shows).
Defined.

Lemma fix_pdu_drops_error_witness :
  ∃ h' newpdu reqid msgid Reqid' Msgid' r,
    snmp_fix_pdu (λ _, true) sample_hook false 5 (-1) sample_heap sample_pdu SNMP_MSG_GET
      = Ok (Some (sample_heap ++ h', newpdu), Reqid', Msgid') ∧
    get_next_id false 5 = (reqid, Reqid') ∧ 0 < reqid < 2 ^ 31 ∧
    get_next_id false (-1) = (msgid, Msgid') ∧ 0 < msgid < 2 ^ 31 ∧
    cp_fields newpdu
      = fixed_fields (set_stateref (cp_fields sample_pdu) r) SNMP_MSG_GET reqid msgid ∧
    pdu_shows (sample_heap ++ h') newpdu sample_buffers (drop 1 sample_bindings) ∧
    pdu_apart (length sample_heap) newpdu.
Proof.
  pose proof (fix_pdu_drops_error (λ _, true) (λ _ _, eq_refl) sample_hook sample_hook_state
    false 5 (-1) sample_heap sample_pdu sample_buffers sample_bindings SNMP_MSG_GET sample_shows)
    as H.
  rewrite decide_True in H by (repeat split; cbn; lia || done).
  apply H; cbn; lia.
Defined.

(** Without a hook the copy has the original's pointer to the security state. *)
Example clone_shares_state :
  match snmp_clone_pdu (λ _, true) (λ _, None) sample_heap sample_pdu with
  | Ok (Some (_, newpdu)) => pf_securityStateRef (cp_fields newpdu) = PHeap 5
  | _ => False
  end.
Proof. by vm_compute. Qed.

(** When no memory is left for a variable, [snmp_clone_pdu] reports success with a
    PDU that has none. *)
Lemma clone_pdu_loses_variables :
  match snmp_clone_pdu (λ n, negb (n =? SIZEOF_VARIABLE_LIST)) sample_hook sample_heap sample_pdu with
  | Ok (Some (_, newpdu)) => cp_variables newpdu = []
  | _ => False
  end.
Proof. by vm_compute. Qed.
