(* ===== verification/Session.v ===== *)
(** * Sessions and their outstanding requests: snmplib/snmp_api.c

    Models _sess_async_send, snmp_resend_request, _sess_process_packet,
    snmp_sess_timeout, snmp_sess_select_info2 for one session and the part of
    snmp_sess_close that frees requests, with snmpv3_verify_msg and
    snmpv3_get_report_type, which they call.

    The requests of a session form a singly linked list with a pointer to its last
    node; the nodes live in a heap of their own and every access through a dangling
    pointer is [UB].  What surrounds a session is a parameter: the clock, the
    transport's f_send, the memory allocator, the hooks of the session, the
    security model and the application's callbacks.  A callback may send
    further requests on the session and returns a number; it may not close the
    session.  The history of sends, callbacks and releases is part of the state and
    all parameters may depend on it.

    Left out, as nothing here depends on it: the fields of a PDU that address the
    transport, debug and packet dumps, the statistics, and the hooks with which a
    security model releases its state for a message or learns of a timeout
    (pdu_free_state_ref, pdu_timeout).  hook_create_pdu is taken to be absent. *)

From S2P Require Import Prelude Ber Asn1 VarBind Pdu PduParse Asn1Rbuild Message OidCompare Client.
From stdpp Require Import prelude numbers list gmap.
From Stdlib Require Import ZArith Lia.
Open Scope Z_scope.

Definition SNMPERR_GENERR : Z := -1.
Definition SNMPERR_TOO_LONG : Z := -5.
Definition SNMPERR_BAD_SENDTO : Z := -12.
Definition SNMPERR_ASN_PARSE_ERR : Z := -29.
Definition SNMPERR_UNKNOWN_SEC_MODEL : Z := -30.
Definition SNMPERR_INVALID_MSG : Z := -31.
Definition SNMPERR_UNKNOWN_ENG_ID : Z := -32.
Definition SNMPERR_UNKNOWN_USER_NAME : Z := -33.
Definition SNMPERR_UNSUPPORTED_SEC_LEVEL : Z := -34.
Definition SNMPERR_NOT_IN_TIME_WINDOW : Z := -36.
Definition SNMPERR_DECRYPTION_ERR : Z := -37.
Definition SNMPERR_UNKNOWN_REPORT : Z := -41.
Definition UCD_MSG_FLAG_RESPONSE_PDU : Z := 0x100.
Definition UCD_MSG_FLAG_PDU_TIMEOUT : Z := 0x1000.
Definition UCD_MSG_FLAG_TUNNELED : Z := 0x4000.
Definition SNMP_FLAGS_DONT_PROBE : Z := 0x100.
Definition SNMP_SEC_MODEL_USM : Z := 3.
Definition AGENTX_MSG_CLEANUPSET : Z := 11.
Definition AGENTX_MSG_RESPONSE : Z := 18.
Definition NETSNMP_CALLBACK_OP_RECEIVED_MESSAGE : Z := 1.
Definition NETSNMP_CALLBACK_OP_TIMED_OUT : Z := 2.
Definition SNMPV3_IGNORE_UNAUTH_REPORTS : Z := 0.
Definition REPORT_STATS_LEN : Z := 9.

(** ** Data *)

Record timeval := TV { tv_sec : Z; tv_usec : Z }.

#[global] Instance timeval_eq_dec : EqDecision timeval.
Proof. solve_decision. Defined.

(** [timercmp(a, b, <)] *)
Definition timer_lt (a b : timeval) : bool :=
  if tv_sec a =? tv_sec b then tv_usec a <? tv_usec b else tv_sec a <? tv_sec b.

(** [tv.tv_usec += timeout; tv.tv_sec += tv.tv_usec / 1000000L; ...] *)
Definition expires (tv : timeval) (timeout : Z) : timeval :=
  let usec := s32 (tv_usec tv + timeout) in
  TV (s32 (tv_sec tv + Z.quot usec 1000000)) (Z.rem usec 1000000).

(** The SNMPv3 fields of a PDU that identify a conversation. *)
Record v3id := V3Id {
  securityModel : Z;
  securityLevel : Z;
  contextEngineID : list Z;
  contextName : list Z;
  securityEngineID : list Z;
  securityName : list Z;
}.

#[global] Instance v3id_eq_dec : EqDecision v3id.
Proof. solve_decision. Defined.

(** A PDU that is sent. *)
Record spdu := SPdu { sp_msg : message; sp_msgid : Z; sp_v3 : v3id }.

(** A PDU that was received. *)
Record rpdu := RPdu {
  rp_version : Z;
  rp_command : Z;
  rp_flags : Z;
  rp_reqid : Z;
  rp_msgid : Z;
  rp_v3 : v3id;
  rp_vars : list pvar;
}.

(** A callback is a name with its argument [magic]. *)
Definition callback : Type := nat * Z.

(** [netsnmp_request_list]: a node of the list. *)
Record request := Request {
  next_request : option nat;
  request_id : Z;
  message_id : Z;
  rq_callback : option callback;
  retries : Z;
  timeout : Z;
  rq_time : timeval;
  expire : timeval;
  rq_pdu : spdu;
}.

(** The part of [netsnmp_session] that is used. *)
Record sess := Sess {
  se_base : session;
  se_retries : Z;
  se_timeout : Z;
  se_flags : Z;
  se_callback : option callback;
  se_sndMsgMaxSize : Z;
  se_errno : Z;
  se_securityEngineID : list Z;
  se_contextEngineID : list Z;
}.

(** What happens outside, and the life of a request: a packet handed to the
    transport, a request queued, a callback with its arguments and its result, a
    request released. *)
Inductive event :=
| ESent (packet : list Z)
| EQueued (reqid : Z)
| ECallback (cb : callback) (op reqid : Z) (got : option rpdu) (ret : Z)
| EFreed (reqid : Z).

(** The list in [snmp_internal_session]: the heap of its nodes, its ends and the first
    address never used. *)
Record reqlist := ReqList {
  nodes : gmap nat request;
  requests : option nat;
  requestsEnd : option nat;
  brk : nat;
}.

(** The session, the counter [Msgid] of the library, how often the clock was read, and
    the history. *)
Record sctx := SCtx {
  the_sess : sess;
  Msgid : Z;
  clock : nat;
  history : list event;
}.

(** [struct session_list] *)
Record slist := SList { lst : reqlist; ctx : sctx }.

(** Assignments to one member. *)
Definition set_next (r : request) (n : option nat) : request :=
  Request n (request_id r) (message_id r) (rq_callback r) (retries r) (timeout r)
    (rq_time r) (expire r) (rq_pdu r).
Definition set_sess (c : sctx) (se : sess) : sctx := SCtx se (Msgid c) (clock c) (history c).
Definition with_errno (se : sess) (e : Z) : sess :=
  Sess (se_base se) (se_retries se) (se_timeout se) (se_flags se) (se_callback se)
    (se_sndMsgMaxSize se) e (se_securityEngineID se) (se_contextEngineID se).
Definition set_errno (c : sctx) (e : Z) : sctx := set_sess c (with_errno (the_sess c) e).
Definition add_event (c : sctx) (e : event) : sctx :=
  SCtx (the_sess c) (Msgid c) (clock c) (history c ++ [e]).
Definition tick (c : sctx) : sctx := SCtx (the_sess c) (Msgid c) (S (clock c)) (history c).
Definition set_Msgid (c : sctx) (n : Z) : sctx := SCtx (the_sess c) n (clock c) (history c).

(** ** The list *)

Definition load (l : reqlist) (a : nat) : M request :=
  match nodes l !! a with Some r => Ok r | None => UB end.

Definition store (l : reqlist) (a : nat) (r : request) : M reqlist :=
  _ ← load l a; Ok (ReqList (<[a := r]> (nodes l)) (requests l) (requestsEnd l) (brk l)).

(** A new node at the end of the list. *)
Definition enqueue (l : reqlist) (r : request) : M reqlist :=
  let a := brk l in
  match requestsEnd l with
  | Some e =>
      re ← load l e;
      let h := <[a := set_next r (next_request re)]> (nodes l) in
      Ok (ReqList (<[e := set_next re (Some a)]> h) (requests l) (Some a) (S a))
  | None => Ok (ReqList (<[a := set_next r (requests l)]> (nodes l)) (Some a) (Some a) (S a))
  end.

(** The node at [rp] with predecessor [orp] is unlinked. *)
Definition unlink (l : reqlist) (orp : option nat) (rp : nat) : M reqlist :=
  r ← load l rp;
  if bool_decide (requests l = Some rp) then
    Ok (ReqList (nodes l) (next_request r)
          (if bool_decide (requestsEnd l = Some rp) then None else requestsEnd l) (brk l))
  else
    match orp with
    | None => UB
    | Some o =>
        ro ← load l o;
        Ok (ReqList (<[o := set_next ro (next_request r)]> (nodes l)) (requests l)
              (if bool_decide (requestsEnd l = Some rp) then Some o else requestsEnd l) (brk l))
    end.

(** [free(rp)] *)
Definition free_node (l : reqlist) (rp : nat) : M reqlist :=
  _ ← load l rp; Ok (ReqList (delete rp (nodes l)) (requests l) (requestsEnd l) (brk l)).

(** ** Matching *)

(** [memcmp] of the first is bounded by a length that was just compared. *)
Definition snmpv3_verify_msg (r : request) (pdu : rpdu) : bool :=
  let q := sp_v3 (rq_pdu r) in
  let p := rp_v3 pdu in
  if rp_command pdu =? SNMP_MSG_REPORT then true
  else if negb (request_id r =? rp_reqid pdu)
          || negb (reqid (m_pdu (sp_msg (rq_pdu r))) =? rp_reqid pdu) then false
  else if negb (version (sp_msg (rq_pdu r)) =? rp_version pdu) then false
  else if negb (securityModel q =? securityModel p) then false
  else if negb (securityLevel q =? securityLevel p) then false
  else if bool_decide (contextEngineID q ≠ contextEngineID p) then false
  else if bool_decide (contextName q ≠ contextName p) then false
  else if (securityModel p =? SNMP_SEC_MODEL_USM)
          && bool_decide (securityEngineID q ≠ securityEngineID p) then false
  else if bool_decide (securityName q ≠ securityName p) then false
  else true.

Definition snmpMPDStats : list Z := [1; 3; 6; 1; 6; 3; 11; 2; 1].
Definition usmStats : list Z := [1; 3; 6; 1; 6; 3; 15; 1; 1].

Definition snmpv3_get_report_type (pdu : rpdu) : Z :=
  match rp_vars pdu with
  | [] => SNMPERR_UNKNOWN_REPORT
  | vp :: _ =>
      if zlen (pv_name vp) =? REPORT_STATS_LEN + 2 then
        let n := nth (Z.to_nat REPORT_STATS_LEN) (pv_name vp) 0 in
        if bool_decide (take 9 (pv_name vp) = snmpMPDStats) then
          if n =? 1 then SNMPERR_UNKNOWN_SEC_MODEL
          else if n =? 2 then SNMPERR_INVALID_MSG
          else SNMPERR_UNKNOWN_REPORT
        else if bool_decide (take 9 (pv_name vp) = usmStats) then
          if n =? 1 then SNMPERR_UNSUPPORTED_SEC_LEVEL
          else if n =? 2 then SNMPERR_NOT_IN_TIME_WINDOW
          else if n =? 3 then SNMPERR_UNKNOWN_USER_NAME
          else if n =? 4 then SNMPERR_UNKNOWN_ENG_ID
          else if n =? 5 then SNMPERR_AUTHENTICATION_FAILURE
          else if n =? 6 then SNMPERR_DECRYPTION_ERR
          else SNMPERR_UNKNOWN_REPORT
        else SNMPERR_UNKNOWN_REPORT
      else SNMPERR_UNKNOWN_REPORT
  end.

(** ** What surrounds a session *)

Record env := Env {
  gettimeofday : nat → timeval;
  malloc_ok : list event → Z → bool;
  f_send : list event → list Z → Z;
  transport_msgMaxSize : Z;
  transport_tunneled : bool;
  (** The body of a callback: its result and the PDUs it sends meanwhile. *)
  on_callback : callback → Z → option rpdu → list event → Z * list (spdu * option callback);
  (** Hooks of the session: [hook_realloc_build] or [hook_build] (which leave
      [s_snmp_errno] as [snmp_build] does), [hook_pre], [hook_parse], [hook_post]. *)
  hook_build : option (sess → spdu → M (outcome (list Z * spdu)));
  hook_pre : option (sess → bool);
  hook_parse : option (sess → list Z → nat → Z → M (outcome rpdu));
  hook_post : option (sess → option rpdu → bool);
  (** The security models of SNMPv3. *)
  create_user_from_session : sess → bool;
  v3_build : message → list Z → nat → M (outcome built);
  v3_parse : list Z → nat → Z → M (outcome received);
  v3_fields : list Z → nat → Z → Z * v3id * Z;
  (** Settings and indeterminate memory. *)
  realloc : Allocator;
  reverse_encode : bool;
  ids_16bit : bool;
  uninit_packet : list Z;
  uninit_objid : list Z;
  uninit_community : list Z;
  authenticator : option (list Z → nat → Z → list Z → Z → option (nat * Z));
}.

(** [sizeof(netsnmp_request_list)] *)
Definition SIZEOF_REQUEST_LIST : Z := 52.

(** [NULL]s in the SNMPv3 fields of a calloced PDU. *)
Definition no_v3 : v3id := V3Id 0 0 [] [] [] [].

Section Ops.
Variable E : env.

(** *** Sending *)

(** The packet in a buffer of 2048 bytes: from its end in reverse mode. *)
Definition packet_of (b : built) : list Z :=
  if reverse_encode E then drop (Z.to_nat (b_pkt_len b) - b_offset b) (b_pkt b)
  else take (Z.to_nat (b_pkt_len b)) (b_pkt b).

(** The encoder of the session or [snmp_build]; a PDU that could not be encoded is
    left as it was. *)
Definition build_packet (c : sctx) (p : spdu) : M (outcome (list Z * spdu)) :=
  match hook_build E with
  | Some f => f (the_sess c) p
  | None =>
      r ← @snmp_build (realloc E) (malloc_ok E (history c)) (v3_build E) (reverse_encode E)
            (se_base (the_sess c)) (sp_msg p) (uninit_packet E) 0;
      match r with
      | Done b => Ok (Done (packet_of b, SPdu (b_msg b) (sp_msgid p) (sp_v3 p)))
      | Fail e => Ok (Fail e)
      end
  end.

(** The version of the PDU, filled in from the session or checked against it. *)
Definition check_version (se : sess) (m : message) : option message :=
  let v := s_version (se_base se) in
  if version m =? SNMP_DEFAULT_VERSION then
    if v =? SNMP_DEFAULT_VERSION then None
    else Some (Message v (community m) (community_len m) (flags m) (m_pdu m))
  else if v =? SNMP_DEFAULT_VERSION then Some m
  else if negb (version m =? v) then None
  else Some m.

(** Whether a response is expected, in the flags. *)
Definition expect_flags (m : message) : message :=
  let f :=
    if tag_in (command (m_pdu m)) [SNMP_MSG_RESPONSE; SNMP_MSG_TRAP; SNMP_MSG_TRAP2;
                                   SNMP_MSG_REPORT; AGENTX_MSG_CLEANUPSET; AGENTX_MSG_RESPONSE]
    then Z.land (flags m) (Z.lnot UCD_MSG_FLAG_EXPECT_RESPONSE)
    else Z.lor (flags m) UCD_MSG_FLAG_EXPECT_RESPONSE in
  Message (version m) (community m) (community_len m) f (m_pdu m).

Definition flag_set (f bit : Z) : bool := negb (Z.land f bit =? 0).

(** From [malloc(2048)] to [f_send]: [None] is a [return 0]. *)
Definition transmit (c : sctx) (p : spdu) : M (sctx * option spdu) :=
  if negb (malloc_ok E (history c) 2048) then Ok (set_errno c SNMPERR_MALLOC, None)
  else
    r ← build_packet c p;
    match r with
    | Fail e => Ok (set_errno c e, None)
    | Done (packet, p) =>
        let c := set_errno c 0 in
        let length := zlen packet in
        if negb (se_sndMsgMaxSize (the_sess c) =? 0)
           && (se_sndMsgMaxSize (the_sess c) <? length)
           || negb (transport_msgMaxSize E =? 0) && (transport_msgMaxSize E <? length)
        then Ok (set_errno c SNMPERR_TOO_LONG, None)
        else
          let result := f_send E (history c) packet in
          let c := add_event c (ESent packet) in
          if result <? 0 then Ok (set_errno c SNMPERR_BAD_SENDTO, None)
          else Ok (c, Some p)
    end.

(** The node for a PDU that was sent. *)
Definition new_request (c : sctx) (p : spdu) (cb : option callback) : request :=
  let pdu := m_pdu (sp_msg p) in
  let tv := gettimeofday E (clock c) in
  let t := if flag_set (flags (sp_msg p)) UCD_MSG_FLAG_PDU_TIMEOUT
           then u32 (time pdu * 1000000) else u32 (se_timeout (the_sess c)) in
  Request None (reqid pdu) (sp_msgid p) cb 0 t tv (expires tv t) p.

(** The engine identifier of an SNMPv3 peer is asked for when it is not known. *)
Definition needs_probe (se : sess) (m : message) : bool :=
  (version m =? SNMP_VERSION_3) && flag_set (flags m) UCD_MSG_FLAG_EXPECT_RESPONSE
  && (zlen (se_securityEngineID se) =? 0)
  && negb (flag_set (se_flags se) SNMP_FLAGS_DONT_PROBE).

(** [_sess_async_send] after the probe and up to the list: also the node to queue. *)
Definition send_checked (c : sctx) (m : message) (pdu : spdu) (cb : option callback)
    : M (sctx * option request * Z) :=
  if negb (create_user_from_session E (the_sess c))
  then Ok (set_errno c SNMPERR_UNKNOWN_USER_NAME, None, 0)
  else
    '(c, sent) ← transmit c (SPdu m (sp_msgid pdu) (sp_v3 pdu));
    match sent with
    | None => Ok (c, None, 0)
    | Some p =>
        let id := reqid (m_pdu (sp_msg p)) in
        if flag_set (flags (sp_msg p)) UCD_MSG_FLAG_EXPECT_RESPONSE then
          if negb (malloc_ok E (history c) SIZEOF_REQUEST_LIST)
          then Ok (set_errno c SNMPERR_GENERR, None, 0)
          else Ok (add_event (tick c) (EQueued id), Some (new_request c p cb), id)
        else Ok (c, None, id)
    end.

(** The whole up to the list.  The PDU is not [NULL] and the session is not being closed.
    When the engine identifier has to be asked for, which uses the session for a request
    of its own, nothing is said here ([UB]): Probe models that call.  From within a
    callback such a call is not modelled. *)
Definition send_pdu (c : sctx) (pdu : spdu) (cb : option callback)
    : M (sctx * option request * Z) :=
  let c := set_errno c 0 in
  match check_version (the_sess c) (sp_msg pdu) with
  | None => Ok (set_errno c SNMPERR_BAD_VERSION, None, 0)
  | Some m =>
      let m := expect_flags m in
      if needs_probe (the_sess c) m then UB else send_checked c m pdu cb
  end.

Definition _sess_async_send (s : slist) (pdu : spdu) (cb : option callback) : M (slist * Z) :=
  '(c, node, id) ← send_pdu (ctx s) pdu cb;
  match node with
  | None => Ok (SList (lst s) c, id)
  | Some r => l ← enqueue (lst s) r; Ok (SList l c, id)
  end.

(** *** Callbacks *)

(** The PDUs that a callback sends, one after the other. *)
Fixpoint send_all (s : slist) (l : list (spdu * option callback)) : M slist :=
  match l with
  | [] => Ok s
  | (p, cb) :: l => '(s, _) ← _sess_async_send s p cb; send_all s l
  end.

Definition call (s : slist) (cb : callback) (op id : Z) (got : option rpdu) : M (slist * Z) :=
  let '(ret, sends) := on_callback E cb op got (history (ctx s)) in
  s ← send_all (SList (lst s) (add_event (ctx s) (ECallback cb op id got ret))) sends;
  Ok (s, ret).

(** The callback of the request or, failing that, of the session. *)
Definition callback_for (c : sctx) (r : request) : option callback :=
  match rq_callback r with Some cb => Some cb | None => se_callback (the_sess c) end.

(** *** Retransmission *)

Definition set_retry (r : request) (n id : Z) : request :=
  Request (next_request r) (request_id r) id (rq_callback r) n (timeout r) (rq_time r) (expire r)
    (SPdu (sp_msg (rq_pdu r)) id (sp_v3 (rq_pdu r))).

Definition set_built (r : request) (p : spdu) : request :=
  Request (next_request r) (request_id r) (message_id r) (rq_callback r) (retries r) (timeout r)
    (rq_time r) (expire r) p.

Definition set_sent (r : request) (now : timeval) : request :=
  Request (next_request r) (request_id r) (message_id r) (rq_callback r) (retries r) (timeout r)
    now (expires now (timeout r)) (rq_pdu r).

(** [snmp_resend_request] on one node: [rp->retries++] (an [int]), a new message
    identifier, the packet, the time it expires.  Returns 0, or -1 for a failed build
    or send. *)
Definition resend (c : sctx) (r : request) (incr_retries : bool) : M (sctx * request * Z) :=
  if negb (malloc_ok E (history c) 2048) then Ok (c, r, 0)
  else
    let '(id, ctr) := get_next_id (ids_16bit E) (Msgid c) in
    let r := set_retry r (if incr_retries then s32 (retries r + 1) else retries r) id in
    let c := set_Msgid c ctr in
    b ← build_packet c (rq_pdu r);
    match b with
    | Fail e => Ok (set_errno c e, r, -1)
    | Done (packet, p) =>
        let r := set_built r p in
        let c := set_errno c 0 in
        let result := f_send E (history c) packet in
        let c := add_event c (ESent packet) in
        if result <? 0 then Ok (set_errno c SNMPERR_BAD_SENDTO, r, -1)
        else Ok (tick c, set_sent r (gettimeofday E (clock c)), 0)
    end.

Definition snmp_resend_request (s : slist) (rp : nat) (incr_retries : bool) : M (slist * Z) :=
  r ← load (lst s) rp;
  '(c, r, rc) ← resend (ctx s) r incr_retries;
  l ← store (lst s) rp r;
  Ok (SList l c, rc).

(** *** Receiving *)

(** What the PDU of a response holds before [snmp_parse] fills it. *)
Definition of_received (buf : list Z) (pos : nat) (length flags : Z) (r : received) : rpdu :=
  let p := r_pdu r in
  let flags := if p_response p then Z.lor flags UCD_MSG_FLAG_RESPONSE_PDU else flags in
  let id := match p_fields p with PRequest id _ _ => id | PTrap _ _ _ _ _ => 0 end in
  let '(msgid, v3, _) :=
    if r_version r =? SNMP_VERSION_3 then v3_fields E buf pos length else (0, no_v3, 0) in
  RPdu (r_version r) (p_command p) flags id msgid v3 (p_vars p).

(** The decoder of the session or [snmp_parse]; also [s_snmp_errno] afterwards. *)
Definition parse_packet (c : sctx) (buf : list Z) (pos : nat) (length flags : Z)
    : M (outcome rpdu * Z) :=
  match hook_parse E with
  | Some f =>
      r ← f (the_sess c) buf pos length;
      Ok (r, match r with Done _ => se_errno (the_sess c) | Fail e => e end)
  | None =>
      r ← snmp_parse (malloc_ok E (history c)) (uninit_objid E) (uninit_community E)
            (authenticator E) (v3_parse E) (se_base (the_sess c)) buf pos length;
      match r with
      | Fail e => Ok (Fail e, e)
      | Done r =>
          Ok (Done (of_received buf pos length flags r),
              if r_version r =? SNMP_VERSION_3 then (v3_fields E buf pos length).2 else 0)
      end
  end.

(** Engine identifiers learnt from a report; memory that was refused is written to
    all the same. *)
Definition learn_engineID (c : sctx) (pdu : rpdu) : M sctx :=
  let se := the_sess c in
  let id := securityEngineID (rp_v3 pdu) in
  if (zlen (se_securityEngineID se) =? 0) && negb (zlen id =? 0) then
    if malloc_ok E (history c) (zlen id) then
      Ok (set_sess c (Sess (se_base se) (se_retries se) (se_timeout se) (se_flags se)
        (se_callback se) (se_sndMsgMaxSize se) (se_errno se) id
        (if zlen (se_contextEngineID se) =? 0 then id else se_contextEngineID se)))
    else UB
  else Ok c.

(** A report for a request: [true] when the loop ends with the request in the
    list. *)
Definition report_outcome (c : sctx) (r : request) (pdu : rpdu) : M (sctx * request * bool) :=
  if (se_errno (the_sess c) =? SNMPERR_NOT_IN_TIME_WINDOW)
     || (snmpv3_get_report_type pdu =? SNMPERR_NOT_IN_TIME_WINDOW) then
    if retries r <=? se_retries (the_sess c) then
      '(c, r, _) ← resend c r true; Ok (c, r, true)
    else c ← learn_engineID c pdu; Ok (c, r, false)
  else if negb (SNMPV3_IGNORE_UNAUTH_REPORTS =? 0) then Ok (c, r, true)
  else c ← learn_engineID c pdu; Ok (c, r, false).

Definition handle_report (s : slist) (rp : nat) (pdu : rpdu) : M (slist * bool) :=
  if rp_command pdu =? SNMP_MSG_REPORT then
    r ← load (lst s) rp;
    '(c, r, stop) ← report_outcome (ctx s) r pdu;
    l ← store (lst s) rp r;
    Ok (SList l c, stop)
  else Ok (s, false).

(** The request answers to the response. *)
Definition matches (pdu : rpdu) (r : request) : bool :=
  if rp_version pdu =? SNMP_VERSION_3 then message_id r =? rp_msgid pdu
  else request_id r =? rp_reqid pdu.

(** The loop over the requests; returns [handled].  The callback may have added
    nodes, so the node is read again after it. *)
Fixpoint match_loop (fuel : nat) (s : slist) (orp rp : option nat) (pdu : rpdu) (handled : bool)
    : M (slist * bool) :=
  match rp with
  | None => Ok (s, handled)
  | Some a =>
      match fuel with
      | O => UB
      | S fuel =>
          r ← load (lst s) a;
          if negb (matches pdu r) then
            match_loop fuel s (Some a) (next_request r) pdu handled
          else if (rp_version pdu =? SNMP_VERSION_3) && negb (snmpv3_verify_msg r pdu)
          then Ok (s, handled)
          else
            '(s, done) ← match callback_for (ctx s) r with
                         | None => Ok (s, true)
                         | Some cb =>
                             '(s, ret) ← call s cb NETSNMP_CALLBACK_OP_RECEIVED_MESSAGE
                                           (rp_reqid pdu) (Some pdu);
                             Ok (s, ret =? 1)
                         end;
            if done : bool then
              '(s, stop) ← handle_report s a pdu;
              if stop : bool then Ok (s, true)
              else
                l ← unlink (lst s) orp a;
                l ← free_node l a;
                Ok (SList l (add_event (ctx s) (EFreed (request_id r))), true)
            else
              r ← load (lst s) a;
              match_loop fuel s (Some a) (next_request r) pdu true
      end
  end.

(** Returns 0, or -1 for a packet that was refused or could not be parsed, and
    whether the PDU was handled.  A tunneled transport sets a flag of the new PDU
    before it is compared with [NULL]. *)
Definition _sess_process_packet (fuel : nat) (s : slist) (buf : list Z) (pos : nat) (length : Z)
    : M (slist * Z * bool) :=
  let c := ctx s in
  if match hook_pre E with Some f => negb (f (the_sess c)) | None => false end
  then Ok (s, -1, false)
  else if negb (malloc_ok E (history c) SIZEOF_PDU) then
    if transport_tunneled E then UB else Ok (s, -1, false)
  else
    let flags := if transport_tunneled E then UCD_MSG_FLAG_TUNNELED else 0 in
    '(ret, e) ← parse_packet c buf pos length flags;
    let s := SList (lst s) (set_errno c e) in
    let refused :=
      match hook_post E with
      | Some f =>
          negb (f (the_sess (ctx s)) (match ret with Done p => Some p | Fail _ => None end))
      | None => false
      end in
    match ret with
    | Fail _ => Ok (s, -1, false)
    | Done pdu =>
        if refused then Ok (s, -1, false)
        else if flag_set (rp_flags pdu) UCD_MSG_FLAG_RESPONSE_PDU then
          '(s, handled) ← match_loop fuel s None (requests (lst s)) pdu false;
          Ok (s, 0, handled)
        else
          match se_callback (the_sess (ctx s)) with
          | None => Ok (s, 0, false)
          | Some cb =>
              '(s, _) ← call s cb NETSNMP_CALLBACK_OP_RECEIVED_MESSAGE (rp_reqid pdu) (Some pdu);
              Ok (s, 0, true)
          end
    end.

(** *** Timeouts *)

Definition free_opt (l : reqlist) (freeme : option nat) : M reqlist :=
  match freeme with None => Ok l | Some a => free_node l a end.

(** The last word to the callback of a request that is given up. *)
Definition last_word (s : slist) (r : request) : M slist :=
  match callback_for (ctx s) r with
  | None => Ok s
  | Some cb =>
      '(s, _) ← call s cb NETSNMP_CALLBACK_OP_TIMED_OUT (reqid (m_pdu (sp_msg (rq_pdu r)))) None;
      Ok s
  end.

Fixpoint timeout_loop (fuel : nat) (s : slist) (now : timeval) (orp rp freeme : option nat)
    : M slist :=
  match rp with
  | None => l ← free_opt (lst s) freeme; Ok (SList l (ctx s))
  | Some a =>
      match fuel with
      | O => UB
      | S fuel =>
          l ← free_opt (lst s) freeme;
          let s := SList l (ctx s) in
          r ← load l a;
          if timer_lt (expire r) now then
            if se_retries (the_sess (ctx s)) <=? retries r then
              s ← last_word s r;
              l ← unlink (lst s) orp a;
              let s := SList l (add_event (ctx s) (EFreed (request_id r))) in
              r ← load l a;
              timeout_loop fuel s now orp (next_request r) (Some a)
            else
              '(s, rc) ← snmp_resend_request s a true;
              if negb (rc =? 0) then Ok s
              else
                r ← load (lst s) a;
                timeout_loop fuel s now (Some a) (next_request r) None
          else timeout_loop fuel s now (Some a) (next_request r) None
      end
  end.

Definition snmp_sess_timeout (fuel : nat) (s : slist) : M slist :=
  let now := gettimeofday E (clock (ctx s)) in
  timeout_loop fuel (SList (lst s) (tick (ctx s))) now None (requests (lst s)) None.

(** *** Closing *)

(** [while (rp)]: each node and its PDU are freed. *)
Fixpoint close_loop (fuel : nat) (s : slist) (rp : option nat) : M slist :=
  match rp with
  | None => Ok s
  | Some orp =>
      match fuel with
      | O => UB
      | S fuel =>
          r ← load (lst s) orp;
          l ← free_node (lst s) orp;
          close_loop fuel (SList l (add_event (ctx s) (EFreed (request_id r)))) (next_request r)
      end
  end.

(** *** How long to wait *)

(** [earliest] after the loop over the requests. *)
Fixpoint earliest_loop (fuel : nat) (l : reqlist) (rp : option nat) (earliest : timeval)
    : M timeval :=
  match rp with
  | None => Ok earliest
  | Some a =>
      match fuel with
      | O => UB
      | S fuel =>
          r ← load l a;
          let unset := (tv_sec earliest =? 0) && (tv_usec earliest =? 0) in
          earliest_loop fuel l (next_request r)
            (if unset || timer_lt (expire r) earliest then expire r else earliest)
      end
  end.

(** From an absolute time to the time left. *)
Definition time_left (earliest now : timeval) : timeval :=
  if tv_sec earliest <? tv_sec now then TV 0 0
  else if tv_sec earliest =? tv_sec now then
    let usec := s32 (tv_usec earliest - tv_usec now) in
    TV 0 (if usec <? 0 then 100 else usec)
  else
    let sec := s32 (tv_sec earliest - tv_sec now) in
    let usec := s32 (tv_usec earliest - tv_usec now) in
    if usec <? 0 then TV (s32 (sec - 1)) (s32 (1000000 + usec)) else TV sec usec.

(** One open session, no alarms: [*timeout] (here [wait]) and [*block] are updated. *)
Definition snmp_sess_select_info2 (fuel : nat) (s : slist) (wait : timeval) (block : bool)
    : M (slist * timeval * bool) :=
  match requests (lst s) with
  | None => Ok (s, wait, true)
  | Some _ =>
      earliest ← earliest_loop fuel (lst s) (requests (lst s)) (TV 0 0);
      let left := time_left earliest (gettimeofday E (clock (ctx s))) in
      let s := SList (lst s) (tick (ctx s)) in
      if block || timer_lt left wait then Ok (s, left, false) else Ok (s, wait, block)
  end.
End Ops.
