(* ===== verification/SessionQueue.v ===== *)
(** * The request list as a queue

    The linked list of Session refines a plain list of requests: the relation
    [rep] ties the heap nodes to it, each pointer operation of the code is shown to
    be a list operation, and the loops over the list to be loops over the queue,
    with the same fuel and without undefined behaviour of their own. *)

From S2P Require Import Prelude Ber Asn1 VarBind Pdu PduParse Asn1Rbuild Message OidCompare Client.
From S2P Require Import Session.
From stdpp Require Import prelude numbers list gmap.
From Stdlib Require Import ZArith Lia.
Open Scope Z_scope.

(** A request with the address of its node; the link is not looked at. *)
Abbreviation cell := (nat * request)%type.

(** [l] is the list, [g] the nodes that were unlinked and not freed yet: there are no
    others. *)
Record rep (g : gmap nat request) (s : reqlist) (l : list cell) : Prop := {
  rep_nodup : NoDup l.*1;
  rep_in : ∀ i a r, l !! i = Some (a, r) → nodes s !! a = Some (set_next r (l.*1 !! S i));
  rep_out : ∀ a, a ∉ l.*1 → nodes s !! a = g !! a;
  rep_first : requests s = head l.*1;
  rep_last : requestsEnd s = last l.*1;
  rep_brk : ∀ a, is_Some (nodes s !! a) → (a < brk s)%nat;
}.

Lemma set_next_next r n m : set_next (set_next r n) m = set_next r m.
Proof. done. Qed.

Lemma cells_lookup {A B} (l : list (A * B)) i a b : l !! i = Some (a, b) → l.*1 !! i = Some a.
Proof. intros H. by rewrite list_lookup_fmap, H. Qed.

Lemma last_cells {A B} (l : list (A * B)) a b : last (l ++ [(a, b)]).*1 = Some a.
Proof. rewrite fmap_app. apply last_snoc. Qed.

Lemma last_cells_middle {A B} (l k : list (A * B)) a b :
  last (l ++ (a, b) :: k).*1 = Some (default a (last k.*1)).
Proof. rewrite fmap_app, fmap_cons, last_app_cons, last_cons. by destruct (last k.*1). Qed.

Lemma not_elem_cells {A B} (l : list (A * B)) a b x :
  x ∉ (l ++ [(a, b)]).*1 → (x ∉ l.*1) ∧ a ≠ x.
Proof. rewrite fmap_app. intros [? H]%not_elem_of_app. split; [done|]. intros ->. apply H. by left. Qed.

Lemma rep_elem g s l a r i : rep g s l → l !! i = Some (a, r) → (a < brk s)%nat.
Proof. intros H Hi. apply (rep_brk _ _ _ H). rewrite (rep_in _ _ _ H i a r Hi). by eexists. Qed.

Lemma rep_fresh g s l : rep g s l → nodes s !! brk s = None ∧ brk s ∉ l.*1.
Proof.
  intros H. split.
  - destruct (nodes s !! brk s) eqn:E; [|done].
    assert (is_Some (nodes s !! brk s)) as Hs by (rewrite E; by eexists).
    apply (rep_brk _ _ _ H) in Hs. lia.
  - intros (i & Hi)%list_elem_of_lookup. rewrite list_lookup_fmap in Hi.
    destruct (l !! i) as [[b r]|] eqn:E; [|done]. injection Hi as ->.
    pose proof (rep_elem _ _ _ _ _ _ H E). simpl in *. lia.
Qed.

Lemma load_rep g s pre a r post :
  rep g s (pre ++ (a, r) :: post) → load s a = Ok (set_next r (head post.*1)).
Proof.
  intros H. unfold load.
  rewrite (rep_in _ _ _ H (length pre) a r) by (by apply list_lookup_middle).
  rewrite list_lookup_fmap, lookup_app_r by lia.
  replace (S (length pre) - length pre)%nat with 1%nat by lia. simpl.
  by destruct post as [|[? ?] ?].
Qed.

(** A node is overwritten, its link kept. *)
Lemma store_rep g s pre a r post r' :
  rep g s (pre ++ (a, r) :: post) →
  ∃ s', store s a (set_next r' (head post.*1)) = Ok s' ∧ rep g s' (pre ++ (a, r') :: post).
Proof.
  intros H. unfold store. rewrite (load_rep _ _ _ _ _ _ H). m_step. eexists. split; [done|].
  assert ((pre ++ (a, r') :: post).*1 = (pre ++ (a, r) :: post).*1) as Ef
    by (by rewrite !fmap_app).
  pose proof (rep_nodup _ _ _ H) as Hnd.
  split; cbn [nodes requests requestsEnd brk]; rewrite ?Ef; try apply H; try done.
  - intros i b q Hi. destruct (decide (b = a)) as [->|Hb].
    + assert (i = length pre) as ->.
      { apply cells_lookup in Hi. rewrite Ef in Hi.
        eapply NoDup_lookup; [exact Hnd|exact Hi|].
        rewrite fmap_app, lookup_app_r; rewrite length_fmap; [|done].
        by rewrite Nat.sub_diag. }
      rewrite list_lookup_middle in Hi by done. injection Hi as <-.
      rewrite lookup_insert_eq, list_lookup_fmap, lookup_app_r by lia.
      replace (S (length pre) - length pre)%nat with 1%nat by lia. simpl.
      by destruct post as [|[? ?] ?].
    + rewrite lookup_insert_ne by done. eapply (rep_in _ _ _ H).
      destruct (decide (i = length pre)) as [->|].
      { rewrite list_lookup_middle in Hi by done. congruence. }
      rewrite <- Hi. destruct (decide (i < length pre)%nat).
      { by rewrite !lookup_app_l by done. }
      rewrite !lookup_app_r by lia. by destruct (i - length pre)%nat eqn:?; [lia|].
  - intros b Hb. rewrite lookup_insert_ne; [by apply H|]. intros ->.
    apply Hb. rewrite fmap_app. set_solver.
  - intros b Hb. rewrite lookup_insert in Hb. destruct (decide (a = b)) as [->|].
    + eapply rep_elem; [exact H|]. by apply list_lookup_middle.
    + by apply (rep_brk _ _ _ H).
Qed.

Lemma enqueue_rep g s l r :
  rep g s l → ∃ s', enqueue s r = Ok s' ∧ rep g s' (l ++ [(brk s, r)]).
Proof.
  intros H. destruct (rep_fresh _ _ _ H) as [Hf Hn]. unfold enqueue. rewrite (rep_last _ _ _ H).
  assert (NoDup (l ++ [(brk s, r)]).*1) as Hnd.
  { rewrite fmap_app. apply NoDup_app. split_and!; [apply H| |apply NoDup_singleton].
    intros b Hb Hb'. apply list_elem_of_singleton in Hb'. by subst. }
  pose proof (last_cells l (brk s) r) as Hlast.
  destruct l as [|[e re] l0 _] using rev_ind.
  - eexists. split; [done|]. rewrite (rep_first _ _ _ H).
    split; cbn [nodes requests requestsEnd brk]; try done.
    + intros [|i] a q Hi; [|by destruct i]. injection Hi as <- <-. by rewrite lookup_insert_eq.
    + intros a Ha. rewrite lookup_insert_ne by set_solver. apply H. set_solver.
    + intros a Ha. destruct (decide (a = brk s)) as [->|]; [lia|].
      rewrite lookup_insert_ne in Ha by done. pose proof (rep_brk _ _ _ H a Ha). lia.
  - rewrite last_cells. pose proof (load_rep _ _ _ _ _ _ H) as Hl. cbn [fst].
    rewrite Hl. m_step. eexists. split; [done|].
    assert (e < brk s)%nat as He by (eapply rep_elem; [exact H|]; by apply list_lookup_middle).
    assert (e ∉ l0.*1) as Hel.
    { pose proof (rep_nodup _ _ _ H) as Hd. rewrite fmap_app in Hd. simpl in Hd.
      apply NoDup_app in Hd. set_solver. }
    split; cbn [nodes requests requestsEnd brk]; try done.
    + intros i a q Hi. rewrite <- app_assoc in Hi. simpl in Hi.
      destruct (decide (i < length l0)%nat) as [Hlt|Hge].
      * assert (a ∈ l0.*1) as Hal.
        { apply list_elem_of_lookup. exists i. rewrite lookup_app_l in Hi by done.
          by eapply cells_lookup. }
        rewrite lookup_insert_ne by (intros ->; done).
        assert ((l0 ++ [(e, re)]) !! i = Some (a, q)) as Hi'
          by (by rewrite lookup_app_l in Hi |- * by done).
        pose proof (rep_elem _ _ _ _ _ _ H Hi').
        rewrite lookup_insert_ne by lia. rewrite (rep_in _ _ _ H _ _ _ Hi'). f_equal. f_equal.
        rewrite (fmap_app fst (l0 ++ [(e, re)])), lookup_app_l; [done|].
        rewrite length_fmap, length_app. simpl. lia.
      * rewrite lookup_app_r in Hi by lia.
        destruct (i - length l0)%nat as [|[|k]] eqn:Ek; simpl in Hi; [..|done].
        -- injection Hi as <- <-. rewrite lookup_insert_eq. f_equal.
           rewrite set_next_next. f_equal. rewrite fmap_app, fmap_app. simpl.
           rewrite <- app_assoc.
           rewrite lookup_app_r; rewrite length_fmap; [|lia].
           by replace (S i - length l0)%nat with 1%nat by lia.
        -- injection Hi as <- <-. rewrite lookup_insert_ne by lia. rewrite lookup_insert_eq.
           f_equal. f_equal. symmetry. apply lookup_ge_None.
           rewrite length_fmap, !length_app. simpl. lia.
    + intros a [Ha1 Ha2]%not_elem_cells. pose proof Ha1 as [_ Ha3]%not_elem_cells.
      rewrite !lookup_insert_ne by done. by apply H.
    + rewrite (rep_first _ _ _ H). by destruct l0.
    + intros a Ha. destruct (decide (a = e)) as [->|]; [lia|].
      rewrite lookup_insert_ne in Ha by done. destruct (decide (a = brk s)) as [->|]; [lia|].
      rewrite lookup_insert_ne in Ha by done. pose proof (rep_brk _ _ _ H a Ha). lia.
Qed.

Lemma NoDup_cell (pre : list cell) a r post :
  NoDup (pre ++ (a, r) :: post).*1 → a ∉ pre.*1 ∧ a ∉ post.*1 ∧ NoDup (pre ++ post).*1.
Proof.
  rewrite !fmap_app. simpl. intros (Hp & Hd & Hq)%NoDup_app. apply NoDup_cons in Hq as [Ha Hq].
  split_and!; [set_solver|done|]. apply NoDup_app. set_solver.
Qed.

(** A node taken out of the list stays in the heap, its link intact. *)
Lemma unlink_rep g s pre a r post :
  rep g s (pre ++ (a, r) :: post) → g !! a = None →
  ∃ s', unlink s (last pre.*1) a = Ok s' ∧
    rep (<[a := set_next r (head post.*1)]> g) s' (pre ++ post) ∧
    load s' a = Ok (set_next r (head post.*1)).
Proof.
  intros H Hg. pose proof (load_rep _ _ _ _ _ _ H) as Hl.
  destruct (NoDup_cell _ _ _ _ (rep_nodup _ _ _ H)) as (Hpre & Hpost & Hnd).
  unfold unlink. rewrite Hl. m_step. rewrite (rep_first _ _ _ H), (rep_last _ _ _ H).
  assert (nodes s !! a = Some (set_next r (head post.*1))) as Ha
    by (unfold load in Hl; destruct (nodes s !! a); congruence).
  assert (∀ b, b ∉ (pre ++ post).*1 → b ≠ a → nodes s !! b = g !! b) as Hout.
  { intros b Hb Hba. apply H. rewrite fmap_app in *. simpl. set_solver. }
  assert (∀ k b q, post !! k = Some (b, q) → nodes s !! b = Some (set_next q (post.*1 !! S k)))
    as Hback.
  { intros k b q Hk. rewrite (rep_in _ _ _ H (length pre + S k) b q).
    - rewrite fmap_app. simpl. rewrite lookup_app_r; rewrite length_fmap; [|lia].
      by replace (S (length pre + S k) - length pre)%nat with (S (S k)) by lia.
    - rewrite lookup_app_r by lia. by replace (length pre + S k - length pre)%nat with (S k) by lia. }
  destruct pre as [|[o ro] pre0 _] using rev_ind.
  - rewrite bool_decide_true by done. eexists. split; [done|]. split; [|by unfold load; simpl; rewrite Ha].
    split; cbn [nodes requests requestsEnd brk app]; try done.
    + intros b Hb. destruct (decide (b = a)) as [->|]; [by rewrite Ha, lookup_insert_eq|].
      rewrite lookup_insert_ne by done. by apply Hout.
    + rewrite (last_cells_middle [] post a r : last ((a, r) :: post).*1 = _). destruct (last post.*1) as [z|] eqn:Ez; simpl.
      * rewrite bool_decide_false; [done|]. intros [= ->]. by apply last_Some_elem_of in Ez.
      * by rewrite bool_decide_true.
    + apply H.
  - rewrite last_cells.
    assert (o ≠ a ∧ o ∉ pre0.*1 ∧ o ∉ post.*1) as (Hoa & Ho1 & Ho2).
    { rewrite fmap_app in *. simpl in *. rewrite fmap_app in Hnd. rewrite <- app_assoc in Hnd.
      apply NoDup_app in Hnd as (_ & Hd & Hnd). apply NoDup_cons in Hnd. set_solver. }
    rewrite bool_decide_false.
    2:{ destruct pre0 as [|[b q] pre0]; simpl; intros [=]; subst; [done|].
        rewrite fmap_app in Hpre. set_solver. }
    assert (load s o = Ok (set_next ro (Some a))) as Hlo.
    { rewrite <- app_assoc in H. by rewrite (load_rep _ _ _ _ _ _ H). }
    rewrite Hlo. m_step. eexists. split; [done|].
    split; [|unfold load; simpl; by rewrite lookup_insert_ne, Ha by done].
    split; cbn [nodes requests requestsEnd brk].
    + done.
    + intros i b q Hi. rewrite <- app_assoc in Hi. simpl in Hi.
      destruct (lt_eq_lt_dec i (length pre0)) as [[Hlt| ->]|Hgt].
      * rewrite lookup_app_l in Hi by done.
        assert (b ∈ pre0.*1) by (apply list_elem_of_lookup; exists i; by eapply cells_lookup).
        rewrite lookup_insert_ne by (intros ->; done).
        rewrite (rep_in _ _ _ H i b q) by (by rewrite <- app_assoc, lookup_app_l).
        rewrite <- !app_assoc, !fmap_app. simpl. do 2 f_equal.
        destruct (decide (S i = length pre0)) as [Es|].
        -- rewrite !lookup_app_r; rewrite ?length_fmap; [|lia..].
           by rewrite Es, Nat.sub_diag.
        -- rewrite !lookup_app_l; rewrite ?length_fmap; [done|lia..].
      * rewrite list_lookup_middle in Hi by done. injection Hi as <- <-.
        rewrite lookup_insert_eq. cbn [next_request set_next]. rewrite set_next_next.
        do 2 f_equal. rewrite <- app_assoc, fmap_app. rewrite lookup_app_r; rewrite length_fmap; [|lia].
        replace (S (length pre0) - length pre0)%nat with 1%nat by lia. simpl.
        by destruct post as [|[? ?] ?].
      * rewrite lookup_app_r in Hi by lia.
        destruct (i - length pre0)%nat as [|k] eqn:Ek; [lia|]. simpl in Hi.
        assert (b ∈ post.*1) by (apply list_elem_of_lookup; exists k; by eapply cells_lookup).
        rewrite lookup_insert_ne by (intros ->; done). rewrite (Hback k b q Hi).
        do 2 f_equal. rewrite <- app_assoc, fmap_app.
        rewrite lookup_app_r; rewrite length_fmap; [|lia].
        by replace (S i - length pre0)%nat with (S (S k)) by lia.
    + intros b Hb. rewrite !fmap_app in Hb. rewrite lookup_insert_ne by set_solver.
      destruct (decide (b = a)) as [->|]; [by rewrite Ha, lookup_insert_eq|].
      rewrite lookup_insert_ne by done. apply Hout; [|done]. by rewrite !fmap_app.
    + rewrite !fmap_app. simpl. by destruct pre0 as [|[? ?] ?].
    + rewrite last_cells_middle, <- app_assoc. cbn [app]. rewrite last_cells_middle.
      destruct (last post.*1) as [z|] eqn:Ez; simpl; [|by rewrite bool_decide_true].
      rewrite bool_decide_false; [done|]. intros [= ->]. by apply last_Some_elem_of in Ez.
    + intros b Hb. rewrite lookup_insert in Hb. destruct (decide (o = b)) as [->|].
      * eapply rep_elem; [exact H|]. rewrite <- app_assoc. by apply list_lookup_middle.
      * by apply (rep_brk _ _ _ H).
Qed.

Lemma free_node_rep g s l a r :
  rep (<[a := r]> g) s l → g !! a = None → a ∉ l.*1 →
  ∃ s', free_node s a = Ok s' ∧ rep g s' l.
Proof.
  intros H Hg Ha. unfold free_node, load.
  rewrite (rep_out _ _ _ H a Ha), lookup_insert_eq. m_step. eexists. split; [done|].
  split; cbn [nodes requests requestsEnd brk]; try apply H.
  - intros i b q Hi. rewrite lookup_delete_ne; [by apply H|]. intros ->. apply Ha.
    apply list_elem_of_lookup. exists i. by eapply cells_lookup.
  - intros b Hb. destruct (decide (b = a)) as [->|]; [by rewrite lookup_delete_eq|].
    rewrite lookup_delete_ne by done. rewrite (rep_out _ _ _ H b Hb). by rewrite lookup_insert_ne.
  - intros b Hb. apply (rep_brk _ _ _ H). destruct (decide (b = a)) as [->|].
    + rewrite lookup_delete_eq in Hb. by destruct Hb.
    + by rewrite lookup_delete_ne in Hb.
Qed.

(** ** The queue machine *)

Section Spec.
Variable E : env.

(** The PDUs a callback sends: the requests they add. *)
Fixpoint q_send_all (c : sctx) (l : list (spdu * option callback)) : M (list request * sctx) :=
  match l with
  | [] => Ok ([], c)
  | (p, cb) :: l =>
      '(c, node, _) ← send_pdu E c p cb;
      '(added, c) ← q_send_all c l;
      Ok (option_list node ++ added, c)
  end.

Definition q_call (c : sctx) (cb : callback) (op id : Z) (got : option rpdu) : M (list request * sctx * Z) :=
  let '(ret, sends) := on_callback E cb op got (history c) in
  '(added, c) ← q_send_all (add_event c (ECallback cb op id got ret)) sends;
  Ok (added, c, ret).

Definition q_received (c : sctx) (r : request) (pdu : rpdu) : M (list request * sctx * bool) :=
  match callback_for c r with
  | None => Ok ([], c, true)
  | Some cb =>
      '(added, c, ret) ← q_call c cb NETSNMP_CALLBACK_OP_RECEIVED_MESSAGE (rp_reqid pdu)
                           (Some pdu);
      Ok (added, c, ret =? 1)
  end.

Definition q_report (c : sctx) (r : request) (pdu : rpdu) : M (sctx * request * bool) :=
  if rp_command pdu =? SNMP_MSG_REPORT then report_outcome E c r pdu else Ok (c, r, false).

(** [pre] are the requests passed over, [rest] those still to be looked at. *)
Fixpoint q_match (fuel : nat) (pre rest : list request) (c : sctx) (pdu : rpdu) (handled : bool)
    : M (list request * sctx * bool) :=
  match rest with
  | [] => Ok (pre, c, handled)
  | r :: rest =>
      match fuel with
      | O => UB
      | S fuel =>
          if negb (matches pdu r) then q_match fuel (pre ++ [r]) rest c pdu handled
          else if (rp_version pdu =? SNMP_VERSION_3) && negb (snmpv3_verify_msg r pdu)
          then Ok (pre ++ r :: rest, c, handled)
          else
            '(added, c, done) ← q_received c r pdu;
            if done : bool then
              '(c, r', stop) ← q_report c r pdu;
              if stop : bool then Ok (pre ++ r' :: rest ++ added, c, true)
              else Ok (pre ++ rest ++ added, add_event c (EFreed (request_id r)), true)
            else q_match fuel (pre ++ [r]) (rest ++ added) c pdu true
      end
  end.

Definition q_last_word (c : sctx) (r : request) : M (list request * sctx) :=
  match callback_for c r with
  | None => Ok ([], c)
  | Some cb =>
      '(added, c, _) ← q_call c cb NETSNMP_CALLBACK_OP_TIMED_OUT
                         (reqid (m_pdu (sp_msg (rq_pdu r)))) None;
      Ok (added, c)
  end.

Fixpoint q_timeout (fuel : nat) (pre rest : list request) (c : sctx) (now : timeval)
    : M (list request * sctx) :=
  match rest with
  | [] => Ok (pre, c)
  | r :: rest =>
      match fuel with
      | O => UB
      | S fuel =>
          if timer_lt (expire r) now then
            if se_retries (the_sess c) <=? retries r then
              '(added, c) ← q_last_word c r;
              q_timeout fuel pre (rest ++ added) (add_event c (EFreed (request_id r))) now
            else
              '(c, r, rc) ← resend E c r true;
              if negb (rc =? 0) then Ok (pre ++ r :: rest, c)
              else q_timeout fuel (pre ++ [r]) rest c now
          else q_timeout fuel (pre ++ [r]) rest c now
      end
  end.

(** ** Refinement *)

(** What a node does is independent of its link. *)
Lemma resend_link c r n incr :
  resend E c (set_next r n) incr
  = ('(c, r, rc) ← resend E c r incr; Ok (c, set_next r n, rc)).
Proof.
  unfold resend. destruct (negb _); [done|]. destruct (get_next_id _ _) as [id ctr].
  cbn [rq_pdu set_retry set_next retries sp_msg sp_v3].
  destruct (build_packet _ _ _) as [[[packet p]|e]| |]; [|done..]. m_step.
  by destruct (_ <? 0).
Qed.

Lemma report_outcome_link c r n pdu :
  report_outcome E c (set_next r n) pdu
  = ('(c, r, stop) ← report_outcome E c r pdu; Ok (c, set_next r n, stop)).
Proof.
  unfold report_outcome. cbn [retries set_next].
  destruct (_ || _).
  - destruct (_ <=? _).
    + rewrite resend_link. by destruct (resend E c r true) as [[[? ?] ?]| |].
    + by destruct (learn_engineID E c pdu).
  - destruct (negb _); [done|]. by destruct (learn_engineID E c pdu).
Qed.

(** The outcome of a computation on the heap follows the one on the queue. *)
Definition follows {A B} (R : A → B → Prop) (m : M A) (a : M B) : Prop :=
  match a with Ok y => ∃ x, m = Ok x ∧ R x y | Err => m = Err | UB => m = UB end.

Lemma follows_bind {A B A' B'} (R : A → B → Prop) (R' : A' → B' → Prop) m a f k :
  follows R m a → (∀ x y, R x y → follows R' (f x) (k y)) → follows R' (m ≫= f) (a ≫= k).
Proof.
  destruct a as [y| |]; simpl; [intros (x & -> & H) HF|intros -> _|intros -> _]; [|done..].
  by apply HF.
Qed.

(** The list has grown by [added] at its end. *)
Definition grown (g : gmap nat request) (l : list cell) (s : slist) (added : list request)
    (c : sctx) : Prop :=
  ctx s = c ∧ ∃ l', rep g (lst s) (l ++ l') ∧ l'.*2 = added.

Lemma send_all_follows g s c l sends :
  rep g s l →
  follows (λ s' '(added, c'), grown g l s' added c') (send_all E (SList s c) sends)
    (q_send_all c sends).
Proof.
  revert s c l. induction sends as [|[p cb] sends IH]; intros s c l H.
  { eexists. split; [done|]. split; [done|]. exists []. by rewrite app_nil_r. }
  cbn [send_all q_send_all]. unfold _sess_async_send. cbn [ctx lst].
  destruct (send_pdu E c p cb) as [[[c1 node] id]| |]; [|done..]. m_step.
  destruct node as [r|]; cbn [option_list].
  - destruct (enqueue_rep _ _ _ r H) as (s1 & -> & H1). m_step.
    specialize (IH s1 c1 _ H1). destruct (q_send_all c1 sends) as [[added c2]| |]; [|done..].
    destruct IH as (s2 & -> & Hc & l' & H2 & <-). m_step. eexists. split; [done|].
    split; [done|]. exists ((brk s, r) :: l'). by rewrite <- app_assoc in H2.
  - m_step. specialize (IH s c1 _ H). destruct (q_send_all c1 sends) as [[added c2]| |]; [|done..].
    destruct IH as (s2 & -> & Hc & l' & H2 & <-). m_step. eexists. split; [done|].
    split; [done|]. by exists l'.
Qed.

Lemma call_follows g s c l cb op id got :
  rep g s l →
  follows (λ '(s', ret) '(added, c', ret'), grown g l s' added c' ∧ ret = ret')
    (call E (SList s c) cb op id got) (q_call c cb op id got).
Proof.
  intros H. unfold call, q_call. cbn [ctx lst]. destruct (on_callback E cb op got (history c)) as [ret sends].
  eapply follows_bind; [by apply send_all_follows|]. intros s' [added c'] Hg.
  eexists. by split.
Qed.

(** What is left after an operation: the queue, the rest and a result. *)
Definition left {A} (g : gmap nat request) (x : slist * A) (y : list request * sctx * A) : Prop :=
  ctx x.1 = y.1.2 ∧ x.2 = y.2 ∧ ∃ l, rep g (lst x.1) l ∧ l.*2 = y.1.1.

Lemma cons_cells (pre : list cell) a r post : pre ++ (a, r) :: post = (pre ++ [(a, r)]) ++ post.
Proof. by rewrite <- app_assoc. Qed.

Lemma received_follows s c l r pdu n :
  rep ∅ s l →
  follows (λ '(s', done) '(added, c', done'), grown ∅ l s' added c' ∧ done = done')
    match callback_for c (set_next r n) with
    | None => Ok (SList s c, true)
    | Some cb =>
        '(s, ret) ← call E (SList s c) cb NETSNMP_CALLBACK_OP_RECEIVED_MESSAGE (rp_reqid pdu)
                       (Some pdu);
        Ok (s, ret =? 1)
    end (q_received c r pdu).
Proof.
  intros H. unfold q_received. change (callback_for c (set_next r n)) with (callback_for c r).
  destruct (callback_for c r) as [cb|].
  - eapply follows_bind; [by apply call_follows|].
    intros [s' ret] [[added c'] ret'] [Hg ->]. eexists. by split.
  - eexists. split; [done|]. split; [|done]. split; [done|]. exists []. by rewrite app_nil_r.
Qed.

(** A node is replaced by the outcome of [f] on it. *)
Lemma node_follows {A} g s c pre a r post (f : sctx → request → M (sctx * request * A)) :
  rep g s (pre ++ (a, r) :: post) →
  (∀ r n, f c (set_next r n) = ('(c, r, x) ← f c r; Ok (c, set_next r n, x))) →
  follows (λ '(s', x) '(c', r', x'),
             ctx s' = c' ∧ rep g (lst s') (pre ++ (a, r') :: post) ∧ x = x')
    (r ← load s a; '(c, r, x) ← f c r; l ← store s a r; Ok (SList l c, x)) (f c r).
Proof.
  intros H Hf. rewrite (load_rep _ _ _ _ _ _ H). m_step. rewrite Hf.
  destruct (f c r) as [[[c' r'] x]| |]; [|done..]. m_step.
  destruct (store_rep _ _ _ _ _ _ r' H) as (s' & -> & H'). m_step. by eexists.
Qed.

Lemma match_loop_follows fuel s c pre rest pdu handled :
  rep ∅ s (pre ++ rest) →
  follows (left ∅) (match_loop E fuel (SList s c) (last pre.*1) (head rest.*1) pdu handled)
    (q_match fuel pre.*2 rest.*2 c pdu handled).
Proof.
  revert s c pre rest handled. induction fuel as [|fuel IH]; intros s c pre rest handled H.
  all: destruct rest as [|[a r] rest].
  all: try (eexists; split; [done|]; split_and!; [done..|]; exists pre; by rewrite app_nil_r in H).
  { done. }
  cbn [head fmap list_fmap fst snd match_loop q_match lst].
  rewrite (load_rep _ _ _ _ _ _ H). m_step.
  change (matches pdu (set_next r _)) with (matches pdu r).
  change (snmpv3_verify_msg (set_next r _) pdu) with (snmpv3_verify_msg r pdu).
  destruct (matches pdu r); cbn [negb].
  2:{ rewrite cons_cells in H. cbn [next_request set_next].
      specialize (IH s c (pre ++ [(a, r)]) rest handled H).
      by rewrite last_cells, fmap_app in IH. }
  destruct (_ && _).
  { eexists. split; [done|]. split_and!; [done..|]. exists (pre ++ (a, r) :: rest).
    by rewrite fmap_app. }
  eapply follows_bind; [by apply received_follows|].
  intros [[s1 c1] done] [[added c'] done'] [[Hc (l' & H1 & <-)] ->]. cbn [ctx lst] in *. subst c1.
  rewrite <- app_assoc in H1. cbn [app] in H1. destruct done'.
  - unfold handle_report, q_report. cbn [ctx lst].
    assert (follows (λ '(s', x) '(c', r', x'),
              ctx s' = c' ∧ rep ∅ (lst s') (pre ++ (a, r') :: rest ++ l') ∧ x = x')
            (if rp_command pdu =? SNMP_MSG_REPORT
             then r0 ← load s1 a; '(c, r, stop) ← report_outcome E c' r0 pdu;
                  l ← store s1 a r; Ok (SList l c, stop)
             else Ok (SList s1 c', false))
            (if rp_command pdu =? SNMP_MSG_REPORT then report_outcome E c' r pdu
             else Ok (c', r, false))) as HF.
    { destruct (_ =? _).
      - apply (node_follows ∅ s1 c' pre a r (rest ++ l') (λ c r, report_outcome E c r pdu)); [done|].
        intros. apply report_outcome_link.
      - eexists. by split. }
    eapply follows_bind; [exact HF|].
    intros [[s2 c2] stop] [[c2' r2] stop'] (Hc & H2 & ->). cbn [ctx lst] in *. subst c2'.
    destruct stop'.
    + eexists. split; [done|]. split_and!; [done..|].
      exists (pre ++ (a, r2) :: rest ++ l'). by rewrite !fmap_app, fmap_cons, fmap_app.
    + destruct (unlink_rep _ _ _ _ _ _ H2 (lookup_empty a)) as (s3 & -> & H3 & _). m_step.
      destruct (NoDup_cell _ _ _ _ (rep_nodup _ _ _ H2)) as (Hn1 & Hn2 & _).
      destruct (free_node_rep _ _ _ _ _ H3 (lookup_empty a)) as (s4 & -> & H4).
      { rewrite fmap_app. by apply not_elem_of_app. }
      m_step. eexists. split; [done|]. split_and!; [done..|]. exists (pre ++ rest ++ l').
      by rewrite !fmap_app.
  - rewrite (load_rep _ _ _ _ _ _ H1). m_step. cbn [next_request set_next].
    rewrite cons_cells in H1. specialize (IH s1 c' (pre ++ [(a, r)]) (rest ++ l') true H1).
    by rewrite last_cells, !(fmap_app snd) in IH.
Qed.

Lemma last_word_follows g s c l r n :
  rep g s l →
  follows (λ s' '(added, c'), grown g l s' added c') (last_word E (SList s c) (set_next r n))
    (q_last_word c r).
Proof.
  intros H. unfold last_word, q_last_word. cbn [ctx].
  change (callback_for c (set_next r n)) with (callback_for c r).
  destruct (callback_for c r) as [cb|].
  - eapply follows_bind; [by apply call_follows|].
    intros [s' ret] [[added c'] ret'] [Hg _]. eexists. by split.
  - eexists. split; [done|]. split; [done|]. exists []. by rewrite app_nil_r.
Qed.

(** The node that the loop frees one round later. *)
Definition detached (freeme : option cell) : gmap nat request :=
  match freeme with None => ∅ | Some (a, r) => {[a := r]} end.

Lemma free_opt_rep s l freeme :
  rep (detached freeme) s l → (∀ x, freeme = Some x → x.1 ∉ l.*1) →
  ∃ s', free_opt s (fst <$> freeme) = Ok s' ∧ rep ∅ s' l.
Proof.
  intros H Hn. destruct freeme as [[a r]|]; [|by exists s].
  apply (free_node_rep ∅ s l a r); [exact H|apply lookup_empty|exact (Hn _ eq_refl)].
Qed.

Lemma timeout_loop_follows fuel s c now pre rest freeme :
  rep (detached freeme) s (pre ++ rest) → (∀ x, freeme = Some x → x.1 ∉ (pre ++ rest).*1) →
  follows (λ s' '(q, c'), ctx s' = c' ∧ ∃ l, rep ∅ (lst s') l ∧ l.*2 = q)
    (timeout_loop E fuel (SList s c) now (last pre.*1) (head rest.*1) (fst <$> freeme))
    (q_timeout fuel pre.*2 rest.*2 c now).
Proof.
  revert s c pre rest freeme. induction fuel as [|fuel IH]; intros s c pre rest freeme H0 Hn.
  all: destruct (free_opt_rep _ _ _ H0 Hn) as (s1 & Hf & H); clear H0 Hn.
  all: destruct rest as [|[a r] rest].
  all: try (cbn [timeout_loop head fmap list_fmap lst ctx]; rewrite Hf; m_step; eexists;
            split; [done|]; split; [done|]; exists pre; by rewrite app_nil_r in H).
  { done. }
  cbn [head fmap list_fmap fst snd timeout_loop q_timeout lst ctx].
  cbn [fmap option_fmap option_map] in Hf. rewrite Hf. m_step.
  rewrite (load_rep _ _ _ _ _ _ H). m_step. cbn [expire retries next_request set_next].
  assert (∀ s1 c1 r1, rep ∅ s1 (pre ++ (a, r1) :: rest) →
    follows (λ s' '(q, c'), ctx s' = c' ∧ ∃ l, rep ∅ (lst s') l ∧ l.*2 = q)
      (timeout_loop E fuel (SList s1 c1) now (Some a) (head rest.*1) None)
      (q_timeout fuel (pre.*2 ++ [r1]) rest.*2 c1 now)) as Hgo.
  { intros s2 c2 r2 H2. rewrite cons_cells in H2.
    specialize (IH s2 c2 (pre ++ [(a, r2)]) rest None H2 ltac:(done)).
    by rewrite last_cells, (fmap_app snd) in IH. }
  destruct (timer_lt _ _); [|by apply Hgo].
  destruct (_ <=? _).
  - eapply follows_bind; [by apply last_word_follows|].
    intros [s2 c2] [added c'] [Hc (l' & H2 & <-)]. cbn [ctx lst] in *. subst c2.
    rewrite <- app_assoc in H2. cbn [app] in H2.
    destruct (unlink_rep _ _ _ _ _ _ H2 (lookup_empty a)) as (s3 & -> & H3 & Hl3). m_step.
    rewrite Hl3. m_step. cbn [next_request set_next].
    destruct (NoDup_cell _ _ _ _ (rep_nodup _ _ _ H2)) as (Hn1 & Hn2 & _).
    rewrite insert_empty in H3.
    specialize (IH s3 (add_event c' (EFreed (request_id r))) pre (rest ++ l')
      (Some (a, set_next r (head (rest ++ l').*1))) H3).
    rewrite (fmap_app snd) in IH. apply IH. intros x [= <-]. cbn [fst].
    rewrite fmap_app. by apply not_elem_of_app.
  - unfold snmp_resend_request. cbn [ctx lst].
    eapply follows_bind.
    { apply (node_follows ∅ s1 c pre a r rest (λ c r, resend E c r true)); [done|].
      intros. apply resend_link. }
    intros [[s2 c2] rc] [[c' r'] rc'] (Hc & H2 & ->). cbn [ctx lst] in *. subst c'.
    destruct (negb _).
    + eexists. split; [done|]. split; [done|]. exists (pre ++ (a, r') :: rest).
      by rewrite fmap_app.
    + rewrite (load_rep _ _ _ _ _ _ H2). m_step. by apply Hgo.
Qed.

(** *** Whole operations *)

(** The requests of a session, oldest first. *)
Definition represents (s : slist) (q : list request) : Prop :=
  ∃ l, rep ∅ (lst s) l ∧ l.*2 = q.

Definition q_async_send (q : list request) (c : sctx) (pdu : spdu) (cb : option callback)
    : M (list request * sctx * Z) :=
  '(c, node, id) ← send_pdu E c pdu cb; Ok (q ++ option_list node, c, id).

(** As [_sess_process_packet], on a queue. *)
Definition q_process_packet (fuel : nat) (q : list request) (c : sctx) (buf : list Z) (pos : nat)
    (length : Z) : M (list request * sctx * (Z * bool)) :=
  if match hook_pre E with Some f => negb (f (the_sess c)) | None => false end
  then Ok (q, c, (-1, false))
  else if negb (malloc_ok E (history c) SIZEOF_PDU) then
    if transport_tunneled E then UB else Ok (q, c, (-1, false))
  else
    '(ret, e) ← parse_packet E c buf pos length
                  (if transport_tunneled E then UCD_MSG_FLAG_TUNNELED else 0);
    let c := set_errno c e in
    let refused :=
      match hook_post E with
      | Some f => negb (f (the_sess c) (match ret with Done p => Some p | Fail _ => None end))
      | None => false
      end in
    match ret with
    | Fail _ => Ok (q, c, (-1, false))
    | Done pdu =>
        if refused then Ok (q, c, (-1, false))
        else if flag_set (rp_flags pdu) UCD_MSG_FLAG_RESPONSE_PDU then
          '(q, c, handled) ← q_match fuel [] q c pdu false;
          Ok (q, c, (0, handled))
        else
          match se_callback (the_sess c) with
          | None => Ok (q, c, (0, false))
          | Some cb =>
              '(added, c, _) ← q_call c cb NETSNMP_CALLBACK_OP_RECEIVED_MESSAGE (rp_reqid pdu) (Some pdu);
              Ok (q ++ added, c, (0, true))
          end
    end.

Definition q_sess_timeout (fuel : nat) (q : list request) (c : sctx) : M (list request * sctx) :=
  q_timeout fuel [] q (tick c) (gettimeofday E (clock c)).

Lemma async_send_follows s q pdu cb :
  represents s q →
  follows (left ∅) (_sess_async_send E s pdu cb) (q_async_send q (ctx s) pdu cb).
Proof.
  intros (l & H & <-). unfold _sess_async_send, q_async_send.
  destruct (send_pdu E (ctx s) pdu cb) as [[[c' [r|]] id]| |]; [..|done|done]; m_step.
  - destruct (enqueue_rep _ _ _ r H) as (s' & -> & H'). m_step. eexists. split; [done|].
    split_and!; [done..|]. exists (l ++ [(brk (lst s), r)]). by rewrite fmap_app.
  - eexists. split; [done|]. split_and!; [done..|]. exists l. cbn [option_list fst].
    by rewrite app_nil_r.
Qed.

Definition packet_left (x : slist * Z * bool) (y : list request * sctx * (Z * bool)) : Prop :=
  left ∅ (x.1.1, (x.1.2, x.2)) y.

Lemma process_packet_follows fuel s q buf pos length :
  represents s q →
  follows packet_left
    (_sess_process_packet E fuel s buf pos length)
    (q_process_packet fuel q (ctx s) buf pos length).
Proof.
  intros Hr. destruct s as [ls c].
  pose proof Hr as (l & H & <-). cbn [lst ctx] in *.
  assert (∀ c' x, follows packet_left (Ok (SList ls c', x.1, x.2)) (Ok (l.*2, c', x))) as Hret.
  { intros c' [rc h]. eexists. split; [done|]. split_and!; [done..|]. by exists l. }
  unfold _sess_process_packet, q_process_packet. cbn [lst ctx].
  destruct (match hook_pre E with Some f => _ | None => _ end); [apply (Hret c (-1, false))|].
  destruct (negb _).
  { destruct (transport_tunneled E); [done|apply (Hret c (-1, false))]. }
  destruct (parse_packet E c buf pos length _) as [[ret e]| |]; [|done..]. m_step.
  destruct ret as [pdu|e']; [|apply (Hret _ (-1, false))].
  destruct (match hook_post E with Some f => _ | None => _ end); [apply (Hret _ (-1, false))|].
  destruct (flag_set _ _).
  - eapply follows_bind.
    { rewrite (rep_first _ _ _ H). by apply (match_loop_follows fuel ls _ [] l). }
    intros [s' h] [[q' c'] h'] (Hc & Hx & Hl). cbn in *. subst. eexists. split; [done|].
    by split_and!.
  - destruct (se_callback _) as [cb|]; [|apply (Hret _ (0, false))].
    eapply follows_bind; [by apply call_follows|].
    intros [s' ret] [[added c'] ret'] [[Hc (l' & H' & <-)] _]. eexists. split; [done|].
    split_and!; [done..|]. exists (l ++ l'). by rewrite fmap_app.
Qed.

Lemma sess_timeout_follows fuel s q :
  represents s q →
  follows (λ s' '(q', c'), ctx s' = c' ∧ represents s' q') (snmp_sess_timeout E fuel s)
    (q_sess_timeout fuel q (ctx s)).
Proof.
  intros (l & H & <-). unfold snmp_sess_timeout, q_sess_timeout. rewrite (rep_first _ _ _ H).
  by apply (timeout_loop_follows fuel (lst s) (tick (ctx s)) _ [] l None).
Qed.

(** Closing a session frees every node. *)
Lemma close_loop_follows s c l :
  rep ∅ s l →
  ∃ s', close_loop (length l) (SList s c) (head l.*1)
        = Ok (SList s' (foldl (λ c r, add_event c (EFreed (request_id r))) c l.*2)) ∧
    nodes s' = ∅.
Proof.
  cut (∀ n s c l, length l = n → NoDup l.*1 →
    (∀ i a r, l !! i = Some (a, r) → nodes s !! a = Some (set_next r (l.*1 !! S i))) →
    (∀ a, a ∉ l.*1 → nodes s !! a = None) →
    ∃ s', close_loop n (SList s c) (head l.*1)
        = Ok (SList s' (foldl (λ c r, add_event c (EFreed (request_id r))) c l.*2)) ∧
    nodes s' = ∅).
  { intros HC H. apply HC; [done|apply H..]. }
  clear s c l. intros n. induction n as [|n IH]; intros s c [|[a r] l] Hlen Hnd Hin Hout; try done.
  { exists s. split; [done|]. apply map_empty. intros i. apply Hout. apply not_elem_of_nil. }
  cbn [close_loop head fmap list_fmap fst snd lst ctx]. unfold free_node, load.
  pose proof (Hin 0%nat a r eq_refl) as Ha. rewrite Ha. m_step.
  cbn [request_id set_next next_request foldl].
  apply NoDup_cons in Hnd as [Hna Hnd].
  replace (((a, r) :: l).*1 !! 1%nat) with (head l.*1) by (by destruct l as [|[? ?] ?]).
  apply IH; [by injection Hlen|done| |].
  - intros i b q Hi. cbn [nodes]. rewrite lookup_delete_ne.
    + by rewrite (Hin (S i) b q Hi).
    + intros ->. apply Hna. apply list_elem_of_lookup. exists i. by eapply cells_lookup.
  - intros b Hb. cbn [nodes]. destruct (decide (b = a)) as [->|]; [by rewrite lookup_delete_eq|].
    rewrite lookup_delete_ne by done. apply Hout. by apply not_elem_of_cons.
Qed.

End Spec.
