(* ===== verification/SessionLife.v ===== *)
(** * The life of a request

    Theorems about whole runs of a session: what every operation keeps true (the theorem
    about reachable states is in Probe), the accounting of requests, that unanswered
    requests are retransmitted and end in a timeout callback, and which request a response
    reaches. *)

From S2P Require Import Prelude Ber Asn1 VarBind Pdu PduParse Asn1Rbuild Message OidCompare Client.
From S2P Require Import PduRbuild PduRoundtrip Session SessionQueue.
From stdpp Require Import prelude numbers list gmap.
From Stdlib Require Import ZArith Lia.
Open Scope Z_scope.

(** ** Reading a history *)

Definition queued (h : list event) : list Z :=
  omap (λ e, match e with EQueued id => Some id | _ => None end) h.

Definition freed (h : list event) : list Z :=
  omap (λ e, match e with EFreed id => Some id | _ => None end) h.

Definition timed_out (h : list event) : list Z :=
  omap (λ e, match e with
             | ECallback _ op id _ _ =>
                 if op =? NETSNMP_CALLBACK_OP_TIMED_OUT then Some id else None
             | _ => None
             end) h.

(** The packets handed to the transport. *)
Definition sent (h : list event) : list (list Z) :=
  omap (λ e, match e with ESent p => Some p | _ => None end) h.

Section Life.
Variable E : env.

(** The operations on a session. *)
Inductive step : slist → slist → Prop :=
| step_send s pdu cb s' id : _sess_async_send E s pdu cb = Ok (s', id) → step s s'
| step_packet fuel s buf pos len s' rc h :
    _sess_process_packet E fuel s buf pos len = Ok (s', rc, h) → step s s'
| step_timeout fuel s s' : snmp_sess_timeout E fuel s = Ok s' → step s s'.

(** ** The invariant *)

(** [R] is the retry limit.  A request is sent again while its count is below the
    limit, or at it when a report asks for it. *)
Record inv (R : Z) (q : list request) (c : sctx) : Prop := {
  inv_limit : se_retries (the_sess c) = R;
  inv_retries : Forall (λ r, 0 ≤ retries r ≤ Z.max 0 (R + 1)) q;
  inv_ids : queued (history c) ≡ₚ (request_id <$> q) ++ freed (history c);
}.

Ltac history_step := rewrite ?omap_app; simpl; rewrite ?app_nil_r.

Lemma inv_event R q c e :
  (match e with EQueued _ | EFreed _ => False | _ => True end) →
  inv R q c → inv R q (add_event c e).
Proof.
  intros He [H1 H2 H3]. split; [done..|]. unfold queued, freed in *. cbn [history add_event].
  rewrite !omap_app. destruct e; try done; simpl; by rewrite !app_nil_r.
Qed.

Lemma inv_errno R q c e : inv R q c → inv R q (set_errno c e).
Proof. by intros [H1 H2 H3]. Qed.

Lemma inv_tick R q c : inv R q c → inv R q (tick c).
Proof. by intros [H1 H2 H3]. Qed.

Lemma inv_Msgid R q c n : inv R q c → inv R q (set_Msgid c n).
Proof. by intros [H1 H2 H3]. Qed.

Lemma inv_free R pre r rest c :
  inv R (pre ++ r :: rest) c → inv R (pre ++ rest) (add_event c (EFreed (request_id r))).
Proof.
  intros [H1 H2 H3]. split; [done|..].
  - apply Forall_app in H2 as [? [? ?]%Forall_cons]. by apply Forall_app.
  - unfold queued, freed in *. cbn [history add_event]. rewrite !omap_app. simpl.
    rewrite app_nil_r, H3, !fmap_app. simpl. rewrite app_assoc, <- (app_assoc _ _ (omap _ _)).
    solve_Permutation.
Qed.

Lemma inv_queue R q c r :
  inv R q c → retries r = 0 → inv R (q ++ [r]) (add_event (tick c) (EQueued (request_id r))).
Proof.
  intros [H1 H2 H3] Hr. split; [done|..].
  - apply Forall_app. split; [done|]. apply Forall_singleton. lia.
  - unfold queued, freed in *. cbn [history add_event tick]. rewrite !omap_app. simpl.
    rewrite app_nil_r, H3, fmap_app. simpl. solve_Permutation.
Qed.

(** ** Sending *)

Lemma transmit_inv R q c p c' sent :
  inv R q c → transmit E c p = Ok (c', sent) → inv R q c'.
Proof.
  intros H. unfold transmit. destruct (negb _); [by intros [= <- _]; apply inv_errno|].
  destruct (build_packet E c p) as [[[pkt p']|e]| |]; [..|done|done]; m_step.
  2:{ intros [= <- _]. by apply inv_errno. }
  destruct (_ || _); [by intros [= <- _]; apply inv_errno, inv_errno|].
  destruct (_ <? 0); intros [= <- _]; [apply inv_errno|]; by apply inv_event, inv_errno.
Qed.

Lemma send_checked_inv R q c m p cb c' node id :
  inv R q c → send_checked E c m p cb = Ok (c', node, id) → inv R (q ++ option_list node) c'.
Proof.
  intros H. unfold send_checked. destruct (negb _).
  { intros [= <- <- _]. cbn [option_list]. rewrite app_nil_r. by apply inv_errno. }
  destruct (transmit E _ _) as [[c2 [p2|]]| |] eqn:Et; [..|done|done]; m_step.
  2:{ intros [= <- <- _]. cbn [option_list]. rewrite app_nil_r. by eapply transmit_inv. }
  apply (transmit_inv R q) in Et; [|done].
  destruct (flag_set _ _); [|intros [= <- <- _]; cbn [option_list]; by rewrite app_nil_r].
  destruct (negb _).
  { intros [= <- <- _]. cbn [option_list]. rewrite app_nil_r. by apply inv_errno. }
  intros [= <- <- _]. by apply (inv_queue R q c2 (new_request E c2 p2 cb)).
Qed.

Lemma send_pdu_inv R q c p cb c' node id :
  inv R q c → send_pdu E c p cb = Ok (c', node, id) → inv R (q ++ option_list node) c'.
Proof.
  intros H. unfold send_pdu. destruct (check_version _ _) as [m|].
  2:{ intros [= <- <- _]. cbn [option_list]. rewrite app_nil_r. by apply inv_errno, inv_errno. }
  destruct (needs_probe _ _); [done|]. by apply send_checked_inv, inv_errno.
Qed.

Lemma q_send_all_inv R q c sends added c' :
  inv R q c → q_send_all E c sends = Ok (added, c') → inv R (q ++ added) c'.
Proof.
  revert q c added. induction sends as [|[p cb] sends IH]; intros q c added H.
  { intros [= <- <-]. by rewrite app_nil_r. }
  cbn [q_send_all]. destruct (send_pdu E c p cb) as [[[c1 node] id]| |] eqn:Es; [|done..]. m_step.
  apply (send_pdu_inv R q) in Es; [|done].
  destruct (q_send_all E c1 sends) as [[added1 c2]| |] eqn:Ea; [|done..]. m_step.
  intros [= <- <-]. rewrite app_assoc. by eapply IH.
Qed.

Lemma q_call_inv R q c cb op id got added c' ret :
  inv R q c → q_call E c cb op id got = Ok (added, c', ret) → inv R (q ++ added) c'.
Proof.
  intros H. unfold q_call. destruct (on_callback E cb op got (history c)) as [ret' sends].
  destruct (q_send_all E _ sends) as [[added1 c2]| |] eqn:Ea; [|done..]. m_step.
  intros [= <- <- _]. eapply q_send_all_inv; [|exact Ea]. by apply inv_event.
Qed.

(** ** Sending again *)

Lemma resend_id c r incr c' r' rc :
  resend E c r incr = Ok (c', r', rc) → request_id r' = request_id r.
Proof.
  unfold resend. destruct (negb _); [by intros [= _ <- _]|].
  destruct (get_next_id _ _) as [id ctr].
  destruct (build_packet _ _ _) as [[[pkt p]|e]| |]; [..|done|done]; m_step; [|by intros [= _ <- _]].
  destruct (_ <? 0); by intros [= _ <- _].
Qed.

Lemma resend_inv R pre r rest c c' r' rc :
  inv R (pre ++ r :: rest) c → retries r ≤ R < 2 ^ 31 - 1 →
  resend E c r true = Ok (c', r', rc) → inv R (pre ++ r' :: rest) c'.
Proof.
  intros H HR Hs. pose proof (resend_id _ _ _ _ _ _ Hs) as Hid.
  assert (0 ≤ retries r) as H0.
  { destruct H as [_ H _]. apply Forall_app in H as [_ [H _]%Forall_cons]. lia. }
  assert ((retries r' = retries r ∨ retries r' = retries r + 1) ∧ inv R (pre ++ r :: rest) c')
    as [Hr Hi].
  { revert Hs. unfold resend. destruct (negb _); [intros [= <- <- _]; by split; [left|]|].
    destruct (get_next_id _ _) as [id ctr]. rewrite s32_id by lia.
    destruct (build_packet _ _ _) as [[[pkt p]|e]| |]; [..|done|done]; m_step.
    - destruct (_ <? 0); intros [= <- <- _]; (split; [by right|]).
      + by apply inv_errno, inv_event, inv_errno, inv_Msgid.
      + by apply inv_tick, inv_event, inv_errno, inv_Msgid.
    - intros [= <- <- _]. split; [by right|]. by apply inv_errno, inv_Msgid. }
  destruct Hi as [I1 I2 I3]. split; [done|..].
  - apply Forall_app in I2 as [? [? ?]%Forall_cons]. apply Forall_app. split; [done|].
    constructor; [lia|done].
  - by rewrite fmap_app, fmap_cons, Hid, <- fmap_cons, <- fmap_app.
Qed.

Lemma learn_engineID_inv R q c pdu c' : inv R q c → learn_engineID E c pdu = Ok c' → inv R q c'.
Proof.
  intros H. unfold learn_engineID. destruct (_ && _); [|by intros [= <-]].
  destruct (malloc_ok _ _ _); [|done]. intros [= <-]. by destruct H.
Qed.

Lemma q_report_inv R pre r rest c pdu c' r' stop :
  R < 2 ^ 31 - 1 → inv R (pre ++ r :: rest) c → q_report E c r pdu = Ok (c', r', stop) →
  inv R (pre ++ r' :: rest) c' ∧ request_id r' = request_id r.
Proof.
  intros HR H. unfold q_report. destruct (_ =? _); [|intros [= <- <- _]; done].
  unfold report_outcome. pose proof (inv_limit _ _ _ H) as HL. rewrite HL.
  assert (∀ x : M sctx, (∀ c', x = Ok c' → inv R (pre ++ r :: rest) c') →
    (c ← x; Ok (c, r, false)) = Ok (c', r', stop) →
    inv R (pre ++ r' :: rest) c' ∧ request_id r' = request_id r) as Hlearn.
  { intros [c1| |] Hx; [|done..]. m_step. intros [= <- <- _]. split; [by apply Hx|done]. }
  assert (∀ c1, learn_engineID E c pdu = Ok c1 → inv R (pre ++ r :: rest) c1) as HLE
    by (intros; by eapply learn_engineID_inv).
  destruct (_ || _); [|destruct (negb _); [by intros [= <- <- _]|by apply Hlearn]].
  destruct (Z.leb_spec (retries r) R); [|by apply Hlearn].
  destruct (resend E c r true) as [[[c1 r1] rc]| |] eqn:Er; [|done..]. m_step.
  intros [= <- <- _]. split; [by eapply resend_inv|by eapply resend_id].
Qed.

Lemma q_received_inv R q c r pdu added c' fin :
  inv R q c → q_received E c r pdu = Ok (added, c', fin) → inv R (q ++ added) c'.
Proof.
  intros H. unfold q_received. destruct (callback_for c r) as [cb|].
  - destruct (q_call _ _ _ _ _ _) as [[[a1 c1] ret]| |] eqn:Ec; [|done..]. m_step.
    intros [= <- <- _]. by eapply q_call_inv.
  - intros [= <- <- _]. by rewrite app_nil_r.
Qed.

Lemma q_match_inv R fuel pre rest c pdu handled q' c' h :
  R < 2 ^ 31 - 1 → inv R (pre ++ rest) c →
  q_match E fuel pre rest c pdu handled = Ok (q', c', h) → inv R q' c'.
Proof.
  intros HR. revert pre rest c handled.
  induction fuel as [|fuel IH]; intros pre [|r rest] c handled H; cbn [q_match].
  1,3: intros [= <- <- _]; by rewrite app_nil_r in H.
  { done. }
  destruct (negb _); [apply IH; by rewrite <- app_assoc|].
  destruct (_ && _); [by intros [= <- <- _]|].
  destruct (q_received _ _ _ _) as [[[added c1] fin]| |] eqn:Er; [|done..]. m_step.
  apply (q_received_inv R _ _ _ _ _ _ _ H) in Er. rewrite <- app_assoc in Er.
  destruct fin; [|apply IH; by rewrite <- app_assoc].
  destruct (q_report _ _ _ _) as [[[c2 r2] stop]| |] eqn:Ep; [|done..]. m_step.
  apply (q_report_inv R pre r (rest ++ added)) in Ep as [Hi Hid]; [|done..].
  destruct stop; intros [= <- <- _]; [done|]. rewrite <- Hid. by apply inv_free.
Qed.

Lemma q_last_word_inv R q c r added c' :
  inv R q c → q_last_word E c r = Ok (added, c') → inv R (q ++ added) c'.
Proof.
  intros H. unfold q_last_word. destruct (callback_for c r) as [cb|].
  - destruct (q_call _ _ _ _ _ _) as [[[a1 c1] ret]| |] eqn:Ec; [|done..]. m_step.
    intros [= <- <-]. by eapply q_call_inv.
  - intros [= <- <-]. by rewrite app_nil_r.
Qed.

Lemma q_timeout_inv R fuel pre rest c now q' c' :
  R < 2 ^ 31 - 1 → inv R (pre ++ rest) c →
  q_timeout E fuel pre rest c now = Ok (q', c') → inv R q' c'.
Proof.
  intros HR. revert pre rest c.
  induction fuel as [|fuel IH]; intros pre [|r rest] c H; cbn [q_timeout].
  1,3: intros [= <- <-]; by rewrite app_nil_r in H.
  { done. }
  destruct (timer_lt _ _); [|apply IH; by rewrite <- app_assoc].
  pose proof (inv_limit _ _ _ H) as HL. rewrite HL. destruct (Z.leb_spec R (retries r)).
  - destruct (q_last_word _ _ _) as [[added c1]| |] eqn:Eg; [|done..]. m_step. apply IH.
    apply inv_free. apply (q_last_word_inv R _ _ _ _ _ H) in Eg. by rewrite <- app_assoc in Eg.
  - destruct (resend _ _ _ _) as [[[c1 r1] rc]| |] eqn:Er; [|done..]. m_step.
    apply (resend_inv R pre r rest) in Er; [|done|lia].
    destruct (negb _); [by intros [= <- <-]|]. apply IH. by rewrite <- app_assoc.
Qed.

(** A state that holds together: the heap is a proper list of requests, with no other
    node in it, and the requests obey [inv]. *)
Definition sound (R : Z) (s : slist) : Prop := ∃ q, represents s q ∧ inv R q (ctx s).

Lemma follows_Ok {A B} (S : A → B → Prop) m (a : M B) x :
  follows S m a → m = Ok x → ∃ y, a = Ok y ∧ S x y.
Proof.
  destruct a as [y| |]; simpl; [|congruence..]. intros (x' & -> & H) [= ->]. by exists y.
Qed.

Lemma step_sound R s s' : R < 2 ^ 31 - 1 → sound R s → step s s' → sound R s'.
Proof.
  intros HR (q & Hq & Hi). destruct 1 as [s pdu cb s' id Hs|fuel s buf pos len s' rc h Hs|fuel s s' Hs].
  - destruct (follows_Ok _ _ _ _ (async_send_follows E s q pdu cb Hq) Hs)
      as ([[q' c'] id'] & Ha & Hc & _ & Hr). simpl in *. exists q'. split; [done|]. rewrite Hc.
    revert Ha. unfold q_async_send.
    destruct (send_pdu _ _ _ _) as [[[c1 node] i]| |] eqn:Ep; [|done..]. m_step.
    intros [= <- <- _]. by eapply send_pdu_inv.
  - destruct (follows_Ok _ _ _ _ (process_packet_follows E fuel s q buf pos len Hq) Hs)
      as ([[q' c'] x] & Ha & Hc & _ & Hr). simpl in *. exists q'. split; [done|]. rewrite Hc.
    clear Hc Hs. revert Ha. unfold q_process_packet.
    destruct (match hook_pre E with Some f => _ | None => _ end); [by intros [= <- <- _]|].
    destruct (negb _); [destruct (transport_tunneled E); [done|by intros [= <- <- _]]|].
    destruct (parse_packet _ _ _ _ _ _) as [[ret e]| |]; [|done..]. m_step.
    destruct ret as [pdu|e']; [|intros [= <- <- _]; by apply inv_errno].
    destruct (match hook_post E with Some f => _ | None => _ end);
      [intros [= <- <- _]; by apply inv_errno|].
    destruct (flag_set _ _).
    + destruct (q_match _ _ _ _ _ _ _) as [[[q1 c1] h1]| |] eqn:Em; [|done..]. m_step.
      intros [= <- <- _]. eapply (q_match_inv R fuel []); [done| |exact Em]. by apply inv_errno.
    + destruct (se_callback _) as [cb|]; [|intros [= <- <- _]; by apply inv_errno].
      destruct (q_call _ _ _ _ _ _) as [[[a1 c1] ret]| |] eqn:Ec; [|done..]. m_step.
      intros [= <- <- _]. eapply q_call_inv; [|exact Ec]. by apply inv_errno.
  - pose proof (sess_timeout_follows E fuel s q Hq) as HF.
    destruct (follows_Ok _ _ _ _ HF Hs) as ([q' c'] & Ha & Hc & Hr).
    exists q'. split; [done|]. rewrite Hc. eapply (q_timeout_inv R fuel [] q); [done| |exact Ha].
    by apply inv_tick.
Qed.

(** ** Encoding a request again *)

(** A PDU that was completed once is complete. *)
Lemma completed_twice f g b m m' :
  command (m_pdu m) ≠ SNMP_MSG_TRAP → completed f b m = Done m' → completed g b m' = Done m'.
Proof.
  intros Ht. unfold completed, default_fields.
  assert (∀ m, default_errors (default_errors (m_pdu m)) = default_errors (m_pdu m)) as Hd.
  { intros m0. unfold default_errors. cbn [errstat errindex command reqid enterprise enterprise_length agent_addr
      trap_type specific_type time variables]. f_equal; repeat (case_match; try done); lia. }
  assert (∀ m1, default_community f b m1 = Done m' → m_pdu m' = m_pdu m1 ∧ version m' = version m1 ∧
    default_community g b m' = Done m') as Hc.
  { intros m1. unfold default_community. destruct ((_ =? 0) && _) eqn:E0.
    - destruct (Z.eqb_spec 0 (s_community_len b)) as [Hz|Hz].
      + intros [= <-]. cbn [m_pdu version community_len]. do 2 (split; [done|]). rewrite <- Hz.
        apply andb_true_iff in E0 as [_ ->]. done.
      + destruct (f _); [|done]. intros [= <-]. cbn [m_pdu version community_len]. do 2 (split; [done|]).
        by rewrite (proj2 (Z.eqb_neq _ 0)) by lia.
    - intros [= <-]. by rewrite E0. }
  assert (m_pdu m' = default_errors (m_pdu m) → set_pdu m' (default_errors (m_pdu m')) = m') as Hset.
  { intros Hp. rewrite Hp, Hd, <- Hp. by destruct m'. }
  destruct (tag_in _ [SNMP_MSG_RESPONSE; _; _; _]) eqn:E1.
  { intros (Hp & _ & Hg)%Hc. rewrite (Hset Hp), Hp. cbn [m_pdu set_pdu default_errors command]. by rewrite E1. }
  destruct (tag_in _ [SNMP_MSG_TRAP2; _]) eqn:E2.
  { destruct (version m =? SNMP_VERSION_1) eqn:Ev; [done|]. intros (Hp & Hv & Hg)%Hc. rewrite (Hset Hp), Hp, Hv.
    cbn [m_pdu set_pdu default_errors command version]. by rewrite E1, E2, Ev. }
  destruct (command (m_pdu m) =? SNMP_MSG_GETBULK) eqn:E3.
  { destruct (version m =? SNMP_VERSION_1) eqn:Ev; [done|]. destruct (_ <? 0) eqn:Ei; [done|].
    destruct (errstat (m_pdu m) <? 0) eqn:Es; [done|]. intros (Hp & Hv & Hg)%Hc. rewrite Hp, Hv, E1, E2, E3, Ev, Ei, Es. done. }
  by rewrite (proj2 (Z.eqb_neq _ SNMP_MSG_TRAP)).
Qed.

(** The library's own encoder, with memory. *)
Record own_encoder : Prop := {
  oe_hook : hook_build E = None;
  oe_packet : zlen (uninit_packet E) = 2048;
  oe_malloc : ∀ h, malloc_grants (malloc_ok E h);
  oe_realloc : ∀ n, 0 ≤ n < 2 ^ 31 → @can_realloc (realloc E) n = true;
}.

(** A community message that is complete on the session [b] and is sent as [pkt]. *)
Definition sendable (b : session) (m : message) (pkt : list Z) : Prop :=
  ∃ bs, message_ok m ∧ fields_ok (m_pdu m) ∧ Forall2 rholds (variables (m_pdu m)) bs ∧
    (∀ h, completed (malloc_ok E h) b m = Done m) ∧
    if reverse_encode E then pkt = ber_message m bs ∧ zlen pkt < 2 ^ 30
    else pkt = message_long m bs ∧ zlen pkt ≤ 2048.

Lemma sendable_built c m pkt i v :
  own_encoder → sendable (se_base (the_sess c)) m pkt →
  build_packet E c (SPdu m i v) = Ok (Done (pkt, SPdu m i v)).
Proof.
  intros [Hh Hp Hm Hr] (bs & Hok & Hf & Hv & Hc & Hs). unfold build_packet. rewrite Hh. cbn [sp_msg sp_msgid sp_v3].
  rewrite (snmp_build_completed _ _ _ _ m m _ _ (Hc _) Hok). unfold packet_of.
  destruct (reverse_encode E); destruct Hs as [-> Hs].
  - destruct (@rbuild_message_spec (realloc E) m bs (RState (uninit_packet E) 0)) as (st & -> & Hwf & W & Ho & _); try done.
    { split; [cbn; lia|]. cbn [Asn1Rbuild.pkt]. lia. }
    { intros n Hn. apply Hr. cbn [Asn1Rbuild.offset] in Hn. unfold zlen in Hs. lia. }
    cbn [encoded mbind M_bind]. cbn [b_pkt b_pkt_len b_offset b_msg]. rewrite Z_to_nat_zlen.
    change (drop _ _) with (written st). rewrite W. unfold written. cbn [Asn1Rbuild.offset Asn1Rbuild.pkt].
    by rewrite Nat.sub_0_r, drop_all, app_nil_r.
  - rewrite (build_message_spec m bs); [|done|done|by apply rholds_holds|lia|lia].
    destruct (put_ok (message_long m bs) (uninit_packet E) 0 (zlen (uninit_packet E))) as (buf & -> & Hw & _);
      [lia|rewrite Z_to_nat_zlen; lia|].
    m_step. cbn [encoded mbind M_bind b_pkt b_pkt_len b_offset b_msg]. unfold zlen in Hs, Hp. rewrite wr_list_eq in Hw by lia.
    set (post := drop _ _) in Hw. change (take 0 (uninit_packet E)) with (@nil Z) in Hw.
    assert (buf = message_long m bs ++ post) as -> by (rewrite app_nil_l in Hw; congruence).
    by rewrite Nat2Z.id, Nat.add_0_l, take_app_length.
Qed.

(** ** Unanswered requests *)

(** The retry limit, the callback, the version and the community of the session. *)
Definition fixed (c : sctx) : Z * option callback * session :=
  (se_retries (the_sess c), se_callback (the_sess c), se_base (the_sess c)).

Definition msg_of (r : request) : message := sp_msg (rq_pdu r).

Section Unanswered.
(** The session's version and community, and the packet of each message.  Nobody sends
    from a timeout callback. *)
Context (b : session) (pk : message → list Z).
Hypothesis encoder : own_encoder.
Hypothesis quiet : ∀ cb h, (on_callback E cb NETSNMP_CALLBACK_OP_TIMED_OUT None h).2 = [].

(** A request that was sent by [_sess_async_send] as a community message and will be
    reported to someone. *)
Record request_ok (cb : option callback) (r : request) : Prop := {
  ok_retries : 0 ≤ retries r;
  ok_reqid : reqid (m_pdu (msg_of r)) = request_id r;
  ok_callback : is_Some (rq_callback r) ∨ is_Some cb;
  ok_sendable : sendable b (msg_of r) (pk (msg_of r));
}.

(** How many more expirations a request survives, counting the last. *)
Definition lives (R : Z) (r : request) : nat := S (Z.to_nat (R - retries r)).
Definition total_lives (R : Z) (q : list request) : nat := sum_list_with (lives R) q.

(** The packets still to be sent for the requests of a queue. *)
Definition todo (R : Z) (q : list request) : list (list Z) :=
  concat ((λ r, replicate (Z.to_nat (R - retries r)) (pk (msg_of r))) <$> q).

(** What a round of timeouts does to a queue: [gone] are the identifiers of the
    requests given up. *)
Record round (R : Z) (cb : option callback) (q : list request) (c : sctx) (now : timeval)
    (q' : list request) (c' : sctx) (gone : list Z) : Prop := {
  rd_fixed : fixed c' = (R, cb, b);
  rd_ok : Forall (request_ok cb) q';
  rd_ids : request_id <$> q ≡ₚ gone ++ (request_id <$> q');
  rd_timed_out : timed_out (history c') = timed_out (history c) ++ gone;
  rd_freed : freed (history c') = freed (history c) ++ gone;
  rd_sent : sent (history c) ++ todo R q ≡ₚ sent (history c') ++ todo R q';
  rd_lives : (total_lives R q' ≤ total_lives R q)%nat;
  rd_progress : Exists (λ r, timer_lt (expire r) now = true) q →
    (total_lives R q' < total_lives R q)%nat;
}.

(** One more attempt: a life is used up, and the packet handed to the transport. *)
Lemma resend_life R cb c r :
  fixed c = (R, cb, b) → retries r < R < 2 ^ 31 - 1 → request_ok cb r →
  ∃ c' r' rc, resend E c r true = Ok (c', r', rc) ∧ fixed c' = (R, cb, b) ∧ request_ok cb r' ∧
    request_id r' = request_id r ∧ msg_of r' = msg_of r ∧ retries r' = retries r + 1 ∧
    timed_out (history c') = timed_out (history c) ∧ freed (history c') = freed (history c) ∧
    sent (history c') = sent (history c) ++ [pk (msg_of r)].
Proof.
  intros Hf HR [O1 O2 O3 O4]. unfold resend.
  rewrite (oe_malloc encoder (history c) 2048) by lia. cbn [negb].
  destruct (get_next_id _ _) as [id ctr]. rewrite s32_id by lia. cbn [rq_pdu set_retry].
  rewrite (sendable_built _ _ (pk (msg_of r))); [|done|by injection Hf as _ _ <-]. m_step.
  assert (∀ h e, timed_out (h ++ [ESent e]) = timed_out h ∧ freed (h ++ [ESent e]) = freed h ∧
    sent (h ++ [ESent e]) = sent h ++ [e]) as Hh.
  { intros. unfold timed_out, freed, sent. rewrite !omap_app. simpl. by rewrite !app_nil_r. }
  destruct (_ <? 0); do 3 eexists; (split; [reflexivity|]); (split; [done|]);
    (split; [split; [by cbn; lia|done..]|]); (do 3 (split; [done|])); apply Hh.
Qed.

(** A request whose lives are used up is reported. *)
Lemma last_word_reports R cb c r :
  fixed c = (R, cb, b) → request_ok cb r →
  ∃ c', q_last_word E c r = Ok ([], c') ∧ fixed c' = (R, cb, b) ∧
    timed_out (history c') = timed_out (history c) ++ [request_id r] ∧
    freed (history c') = freed (history c) ∧ sent (history c') = sent (history c).
Proof.
  intros Hf [O1 O2 O3 _]. unfold q_last_word, callback_for, q_call.
  assert (∃ x, match rq_callback r with Some cb => Some cb | None => se_callback (the_sess c) end
               = Some x) as [x ->].
  { injection Hf as _ Hcb _. destruct (rq_callback r) as [x|]; [by exists x|].
    destruct O3 as [[? [=]]|[y ->]]. by exists y. }
  pose proof (quiet x (history c)) as Hq. destruct (on_callback E x _ _ _) as [ret sends].
  simpl in Hq. subst sends. cbn [q_send_all]. m_step.
  eexists. split; [done|]. split; [done|]. cbn [history add_event].
  unfold timed_out, freed, sent. rewrite !omap_app. simpl. unfold msg_of in O2. rewrite O2. by rewrite !app_nil_r.
Qed.

Lemma todo_cons R r q : todo R (r :: q) = replicate (Z.to_nat (R - retries r)) (pk (msg_of r)) ++ todo R q.
Proof. done. Qed.

(** A request is kept or sent again. *)
Lemma round_keep R cb r r1 c c1 rest now q' c' gone :
  request_ok cb r1 → request_id r1 = request_id r → msg_of r1 = msg_of r →
  timed_out (history c1) = timed_out (history c) → freed (history c1) = freed (history c) →
  (retries r < R ∧ retries r1 = retries r + 1 ∧ sent (history c1) = sent (history c) ++ [pk (msg_of r)] ∨
   retries r1 = retries r ∧ sent (history c1) = sent (history c) ∧ timer_lt (expire r) now = false) →
  round R cb rest c1 now q' c' gone → round R cb (r :: rest) c now (r1 :: q') c' gone.
Proof.
  intros H2 H3 Hm H4 H5 H6 [D1 D2 D3 D4 D5 DS D6 D7].
  assert (lives R r1 < lives R r ∨ lives R r1 = lives R r ∧ timer_lt (expire r) now = false)%nat as HL.
  { unfold lives. destruct H6 as [(? & -> & _)|(-> & _ & ?)]; [left; lia|by right]. }
  split.
  - done.
  - by constructor.
  - rewrite !fmap_cons, H3, D3. solve_Permutation.
  - by rewrite D4, H4.
  - by rewrite D5, H5.
  - rewrite !todo_cons, Hm. destruct H6 as [(Hlt & Hr1 & Hs)|(Hr1 & Hs & _)]; rewrite Hs in DS; rewrite Hr1.
    + replace (Z.to_nat (R - retries r)) with (S (Z.to_nat (R - (retries r + 1)))) by lia. cbn [replicate app].
      transitivity (replicate (Z.to_nat (R - (retries r + 1))) (pk (msg_of r))
        ++ (sent (history c) ++ [pk (msg_of r)]) ++ todo R rest); [solve_Permutation|]. rewrite DS. solve_Permutation.
    + rewrite (Permutation_app_swap_app (sent (history c))), DS. solve_Permutation.
  - unfold total_lives in *. cbn [sum_list_with] in *. destruct HL as [?|[? _]]; lia.
  - unfold total_lives in *. cbn [sum_list_with] in *. intros [Hx|Hx]%Exists_cons; [|specialize (D7 Hx)].
    + destruct HL as [?|[_ Hn]]; [lia|congruence].
    + destruct HL as [?|[? _]]; lia.
Qed.

Lemma round_nil R cb c now : fixed c = (R, cb, b) → round R cb [] c now [] c [].
Proof. intros. split; try done; [by rewrite app_nil_r..|by intros ?%Exists_nil]. Qed.

Lemma q_timeout_round R cb fuel pre rest c now :
  R < 2 ^ 31 - 1 → fixed c = (R, cb, b) → Forall (request_ok cb) rest → (length rest ≤ fuel)%nat →
  ∃ q' c' gone, q_timeout E fuel pre rest c now = Ok (pre ++ q', c') ∧
    round R cb rest c now q' c' gone.
Proof.
  intros HR. revert pre rest c. induction fuel as [|fuel IH]; intros pre [|r rest] c Hf Hok Hfuel.
  1,3: exists [], c, []; rewrite app_nil_r; by split; [|apply round_nil].
  { simpl in Hfuel. lia. }
  apply Forall_cons in Hok as [Hr Hok]. simpl in Hfuel. cbn [q_timeout].
  destruct (timer_lt (expire r) now) eqn:Ex.
  2:{ destruct (IH (pre ++ [r]) rest c) as (q' & c' & gone & -> & HD); [done..|lia|].
      exists (r :: q'), c', gone. rewrite <- app_assoc. split; [done|]. eapply round_keep; try done. by right. }
  assert (se_retries (the_sess c) = R) as -> by (by injection Hf).
  destruct (Z.leb_spec R (retries r)).
  - destruct (last_word_reports R cb c r Hf Hr) as (c1 & -> & F1 & T1 & G1 & S1). m_step.
    rewrite app_nil_r.
    destruct (IH pre rest (add_event c1 (EFreed (request_id r)))) as
      (q' & c' & gone & -> & [D1 D2 D3 D4 D5 DS D6 D7]); [done..|lia|].
    exists q', c', (request_id r :: gone). split; [done|].
    assert (∀ h, timed_out (h ++ [EFreed (request_id r)]) = timed_out h ∧
                 freed (h ++ [EFreed (request_id r)]) = freed h ++ [request_id r] ∧
                 sent (h ++ [EFreed (request_id r)]) = sent h) as Hh.
    { intros. unfold timed_out, freed, sent. rewrite !omap_app. simpl. by rewrite !app_nil_r. }
    cbn [history add_event] in D4, D5, DS. destruct (Hh (history c1)) as (Hh1 & Hh2 & Hh3).
    rewrite Hh1, T1, <- app_assoc in D4. rewrite Hh2, G1, <- app_assoc in D5. rewrite Hh3, S1 in DS.
    split; try done.
    + by rewrite fmap_cons, D3.
    + rewrite todo_cons. replace (Z.to_nat (R - retries r)) with 0%nat by lia. done.
    + unfold total_lives in *. cbn [sum_list_with] in *. lia.
    + assert (1 ≤ lives R r)%nat by (unfold lives; lia). unfold total_lives in *. cbn [sum_list_with] in *. lia.
  - destruct (resend_life R cb c r Hf ltac:(lia) Hr) as
      (c1 & r1 & rc & -> & F1 & O1 & I1 & M1 & L1 & T1 & G1 & S1). m_step.
    destruct (negb _).
    + exists (r1 :: rest), c1, []. split; [done|]. split.
      * done.
      * by constructor.
      * by rewrite !fmap_cons, I1.
      * by rewrite app_nil_r.
      * by rewrite app_nil_r.
      * rewrite !todo_cons, M1, L1, S1. replace (Z.to_nat (R - retries r)) with (S (Z.to_nat (R - (retries r + 1)))) by lia.
        cbn [replicate app]. solve_Permutation.
      * unfold total_lives, lives. cbn [sum_list_with]. lia.
      * unfold total_lives, lives. cbn [sum_list_with]. lia.
    + destruct (IH (pre ++ [r1]) rest c1) as (q' & c' & gone & -> & HD); [done..|lia|].
      exists (r1 :: q'), c', gone. rewrite <- app_assoc. split; [done|]. eapply round_keep; try done. by left.
Qed.

(** The session's timeouts, one after the other; each round has fuel for the nodes there
    are. *)
Fixpoint timeouts (n : nat) (s : slist) : M slist :=
  match n with
  | O => Ok s
  | S n => s ← snmp_sess_timeout E (size (nodes (lst s))) s; timeouts n s
  end.

(** Something has expired at the time the next timeout will read, unless nothing is
    outstanding. *)
Definition overdue (s : slist) : Prop :=
  nodes (lst s) = ∅ ∨
  ∃ a r, nodes (lst s) !! a = Some r ∧
    timer_lt (expire r) (gettimeofday E (clock (ctx s))) = true.

Lemma rep_size s l : rep ∅ s l → size (nodes s) = length l.
Proof.
  intros H. rewrite <- (length_fmap fst l), <- (size_list_to_set (C := gset nat)) by apply H.
  rewrite <- size_dom. f_equal. apply set_eq. intros a. rewrite elem_of_dom, elem_of_list_to_set.
  split.
  - intros [r Hr]. destruct (decide (a ∈ l.*1)) as [|Hn]; [done|].
    rewrite (rep_out _ _ _ H a Hn) in Hr. done.
  - intros (i & Hi)%list_elem_of_lookup. rewrite list_lookup_fmap in Hi.
    destruct (l !! i) as [[x r]|] eqn:El; [|done]. injection Hi as ->. simpl.
    rewrite (rep_in _ _ _ H i _ r El). by eexists.
Qed.

Lemma overdue_expired s l :
  rep ∅ (lst s) l → overdue s →
  l = [] ∨ Exists (λ r, timer_lt (expire r) (gettimeofday E (clock (ctx s))) = true) l.*2.
Proof.
  intros H [He|(a & r & Ha & Hx)].
  - left. destruct l as [|[a r] l]; [done|].
    pose proof (rep_in _ _ _ H 0%nat a r eq_refl) as Hi. by rewrite He in Hi.
  - right. destruct (decide (a ∈ l.*1)) as [Hin|Hn].
    2:{ rewrite (rep_out _ _ _ H a Hn) in Ha. done. }
    apply list_elem_of_lookup in Hin as (i & Hi). rewrite list_lookup_fmap in Hi.
    destruct (l !! i) as [[x r']|] eqn:El; [|done]. injection Hi as ->. simpl in Ha.
    rewrite (rep_in _ _ _ H i _ r' El) in Ha. injection Ha as <-.
    apply Exists_exists. exists r'. split; [|done].
    apply list_elem_of_lookup. exists i. by rewrite list_lookup_fmap, El.
Qed.

Lemma sess_timeout_round R cb s q :
  R < 2 ^ 31 - 1 → represents s q → fixed (ctx s) = (R, cb, b) → Forall (request_ok cb) q →
  overdue s →
  ∃ s' q' gone, snmp_sess_timeout E (size (nodes (lst s))) s = Ok s' ∧ represents s' q' ∧
    round R cb q (ctx s) (gettimeofday E (clock (ctx s))) q' (ctx s') gone ∧
    (q = [] ∨ total_lives R q' < total_lives R q)%nat.
Proof.
  intros HR Hq Hf Hok Ho. pose proof Hq as (l & Hl & Hlq).
  pose proof (overdue_expired s l Hl Ho) as Hx. rewrite (rep_size _ _ Hl).
  destruct (q_timeout_round R cb (length l) [] q (tick (ctx s))
              (gettimeofday E (clock (ctx s)))) as (q' & c' & gone & Hqt & Hr); [done..| |].
  { rewrite <- Hlq, length_fmap. done. }
  pose proof (sess_timeout_follows E (length l) s q Hq) as HF. unfold q_sess_timeout in HF.
  rewrite Hqt in HF. destruct HF as (s' & -> & Hc & Hs'). subst c'.
  exists s', q', gone. split; [done|]. split; [done|]. split; [by destruct Hr|].
  destruct Hx as [->|Hx]; [by left|]. right. rewrite Hlq in Hx. by apply (rd_progress _ _ _ _ _ _ _ _ Hr).
Qed.

Lemma timeouts_drain n R cb s q :
  R < 2 ^ 31 - 1 → represents s q → fixed (ctx s) = (R, cb, b) → Forall (request_ok cb) q →
  (∀ k s', (k < n)%nat → timeouts k s = Ok s' → overdue s') → (total_lives R q ≤ n)%nat →
  ∃ s' gone, timeouts n s = Ok s' ∧ represents s' [] ∧ gone ≡ₚ request_id <$> q ∧
    timed_out (history (ctx s')) = timed_out (history (ctx s)) ++ gone ∧
    freed (history (ctx s')) = freed (history (ctx s)) ++ gone ∧
    sent (history (ctx s')) ≡ₚ sent (history (ctx s)) ++ todo R q.
Proof.
  intros HR. revert s q. induction n as [|n IH]; intros s q Hq Hf Hok Ho Hn.
  - destruct q as [|r q]; [|unfold total_lives, lives in Hn; simpl in Hn; lia].
    exists s, []. by rewrite !app_nil_r.
  - destruct (sess_timeout_round R cb s q) as (s1 & q1 & g1 & Hs1 & Hq1 & [D1 D2 D3 D4 D5 DS D6 _] & Hp);
      [done..|by apply (Ho 0%nat); [lia|]|].
    cbn [timeouts]. rewrite Hs1. m_step.
    destruct (IH s1 q1) as (s2 & g2 & Hs2 & Hr2 & Hp2 & Ht2 & Hf2 & HS2); [done..| | |].
    { intros k s' Hkn Hk. apply (Ho (S k)); [lia|]. cbn [timeouts]. by rewrite Hs1. }
    { destruct Hp as [->|?]; [|lia]. unfold total_lives in *. simpl in *. lia. }
    exists s2, (g1 ++ g2). split; [done|]. split; [done|]. split_and!.
    + by rewrite Hp2, D3.
    + by rewrite Ht2, D4, <- app_assoc.
    + by rewrite Hf2, D5, <- app_assoc.
    + by rewrite HS2, DS.
Qed.

Lemma represents_nil s : represents s [] → nodes (lst s) = ∅.
Proof.
  intros (l & H & Hl). apply map_empty. intros a. destruct l; [|done].
  rewrite (rep_out _ _ _ H a); [apply lookup_empty|]. apply not_elem_of_nil.
Qed.


End Unanswered.

(** ** Responses *)

(** A response is offered to the requests in order until one with its identifier is
    found and its callback is content. *)
Lemma q_match_found fuel pre older r younger c pdu cb added c' handled :
  rp_version pdu ≠ SNMP_VERSION_3 → rp_command pdu ≠ SNMP_MSG_REPORT →
  Forall (λ x, request_id x ≠ rp_reqid pdu) older → request_id r = rp_reqid pdu →
  callback_for c r = Some cb →
  q_call E c cb NETSNMP_CALLBACK_OP_RECEIVED_MESSAGE (rp_reqid pdu) (Some pdu)
    = Ok (added, c', 1) →
  (length older < fuel)%nat →
  q_match E fuel pre (older ++ r :: younger) c pdu handled
  = Ok (pre ++ older ++ younger ++ added, add_event c' (EFreed (request_id r)), true).
Proof.
  intros Hv Hc Ho Hr Hcb Hcall. revert pre fuel.
  induction Ho as [|x older Hx Ho IH]; intros pre [|fuel] Hfuel; simpl in Hfuel; try lia.
  all: cbn [app q_match]; unfold matches; rewrite (proj2 (Z.eqb_neq (rp_version pdu) _)) by done.
  - rewrite (proj2 (Z.eqb_eq (request_id r) _)) by done. cbn [negb andb].
    unfold q_received. rewrite Hcb, Hcall. m_step. unfold q_report.
    by rewrite (proj2 (Z.eqb_neq (rp_command pdu) _)) by done.
  - rewrite (proj2 (Z.eqb_neq (request_id x) _)) by done. cbn [negb].
    rewrite IH by lia. by rewrite <- app_assoc.
Qed.

(** No request has the identifier. *)
Lemma q_match_none fuel pre rest c pdu handled :
  rp_version pdu ≠ SNMP_VERSION_3 → Forall (λ x, request_id x ≠ rp_reqid pdu) rest →
  (length rest ≤ fuel)%nat →
  q_match E fuel pre rest c pdu handled = Ok (pre ++ rest, c, handled).
Proof.
  intros Hv Ho. revert pre fuel. induction Ho as [|x rest Hx Ho IH]; intros pre fuel Hfuel.
  { rewrite app_nil_r. by destruct fuel. }
  destruct fuel as [|fuel]; simpl in Hfuel; [lia|]. cbn [q_match]. unfold matches.
  rewrite (proj2 (Z.eqb_neq (rp_version pdu) _)) by done.
  rewrite (proj2 (Z.eqb_neq (request_id x) _)) by done. cbn [negb].
  rewrite IH by lia. by rewrite <- app_assoc.
Qed.

(** A callback that is not content leaves its request in the list, and the search goes
    on. *)
Lemma q_match_kept fuel pre older r younger c pdu cb added c' ret handled :
  rp_version pdu ≠ SNMP_VERSION_3 →
  Forall (λ x, request_id x ≠ rp_reqid pdu) older → request_id r = rp_reqid pdu →
  Forall (λ x, request_id x ≠ rp_reqid pdu) (younger ++ added) → callback_for c r = Some cb →
  q_call E c cb NETSNMP_CALLBACK_OP_RECEIVED_MESSAGE (rp_reqid pdu) (Some pdu)
    = Ok (added, c', ret) → ret ≠ 1 →
  (length (older ++ r :: younger ++ added) ≤ fuel)%nat →
  q_match E fuel pre (older ++ r :: younger) c pdu handled
  = Ok (pre ++ older ++ r :: younger ++ added, c', true).
Proof.
  intros Hv Ho Hr Hy Hcb Hcall Hret. revert pre fuel.
  induction Ho as [|x older Hx Ho IH]; intros pre [|fuel] Hfuel; simpl in Hfuel; try lia.
  all: cbn [app q_match]; unfold matches; rewrite (proj2 (Z.eqb_neq (rp_version pdu) _)) by done.
  - rewrite (proj2 (Z.eqb_eq (request_id r) _)) by done. cbn [negb andb].
    unfold q_received. rewrite Hcb, Hcall. m_step. rewrite (proj2 (Z.eqb_neq ret 1)) by done.
    rewrite q_match_none by (done || lia). by rewrite <- app_assoc.
  - rewrite (proj2 (Z.eqb_neq (request_id x) _)) by done. cbn [negb].
    rewrite IH by lia. by rewrite <- app_assoc.
Qed.

(** A plain session: no hooks, no tunnel, memory is granted. *)
Record plain : Prop := {
  pl_pre : hook_pre E = None;
  pl_parse : hook_parse E = None;
  pl_post : hook_post E = None;
  pl_auth : authenticator E = None;
  pl_memory : ∀ h, malloc_grants (malloc_ok E h);
  pl_objid : zlen (uninit_objid E) = MAX_OID_LEN;
  pl_community : zlen (uninit_community E) = COMMUNITY_MAX_LEN;
}.

(** What the application is given for the message [m] with the bindings [bs]. *)
Definition delivered (m : message) (bs : list (list Z * value)) : rpdu :=
  let flags := if transport_tunneled E then UCD_MSG_FLAG_TUNNELED else 0 in
  RPdu (version m) (command (m_pdu m)) (Z.lor flags UCD_MSG_FLAG_RESPONSE_PDU)
    (reqid (m_pdu m)) 0 no_v3 ((λ b, PVar b.1 (decoded b.2)) <$> bs).

Lemma parse_packet_message c m bs pre post dl :
  plain → message_ok m → pdu_exact (m_pdu m) bs → command (m_pdu m) = SNMP_MSG_RESPONSE →
  accepts (se_base (the_sess c)) m → zlen (ber_message m bs) ≤ dl < 2 ^ 31 →
  parse_packet E c (pre ++ ber_message m bs ++ post) (length pre) dl
    (if transport_tunneled E then UCD_MSG_FLAG_TUNNELED else 0)
  = Ok (Done (delivered m bs), 0).
Proof.
  intros HP Hm (Hf & Hcmd & Hent & Hv & Hex) HR Ha Hdl. unfold parse_packet.
  rewrite (pl_parse HP), (pl_auth HP).
  change (ber_message m bs) with (wire_message m
    (ber_length (zlen (message_head m ++ ber_pdu (m_pdu m) bs))) (ber_pdu (m_pdu m) bs)) in *.
  rewrite (snmp_parse_wire _ _ _ _ _ _ _ _ _ _ _ (decoded_pdu (m_pdu m) bs));
    [|done|done|by left|done|apply HP|apply HP|done|].
  2:{ intros pre' post'. apply snmp_pdu_parse_ber; try done; [apply HP|apply HP|].
      revert Hdl. set (h := ber_length _). unfold wire_message. rewrite !zlen_app, zlen_cons.
      pose proof (zlen_nonneg (message_head m)). pose proof (zlen_nonneg h). lia. }
  m_step. unfold of_received, delivered. cbn [r_version r_pdu].
  assert ((version m =? SNMP_VERSION_3) = false) as -> by (by destruct Hm as ([-> | ->] & _)).
  cbn [decoded_pdu p_response p_fields p_command p_vars]. unfold is_response, decoded_fields.
  by rewrite HR.
Qed.

Lemma process_packet_response fuel s q m bs pre post dl :
  plain → message_ok m → pdu_exact (m_pdu m) bs → command (m_pdu m) = SNMP_MSG_RESPONSE →
  accepts (se_base (the_sess (ctx s))) m → zlen (ber_message m bs) ≤ dl < 2 ^ 31 →
  q_process_packet E fuel q (ctx s) (pre ++ ber_message m bs ++ post) (length pre) dl
  = ('(q, c, handled) ← q_match E fuel [] q (set_errno (ctx s) 0) (delivered m bs) false;
     Ok (q, c, (0, handled))).
Proof.
  intros HP Hm Hpdu HR Ha Hdl. unfold q_process_packet. rewrite (pl_pre HP).
  rewrite (pl_memory HP) by (unfold SIZEOF_PDU; lia). cbn [negb].
  rewrite parse_packet_message by done. m_step. rewrite (pl_post HP).
  assert (flag_set (rp_flags (delivered m bs)) UCD_MSG_FLAG_RESPONSE_PDU = true) as ->; [|done].
  cbn [delivered rp_flags]. by destruct (transport_tunneled E).
Qed.

(** Sends leave no callback in the history. *)
Definition of_send (e : event) : Prop := match e with ESent _ | EQueued _ => True | _ => False end.

Lemma transmit_events c p c' p' :
  transmit E c p = Ok (c', p') → ∃ h, history c' = history c ++ h ∧ Forall of_send h.
Proof.
  unfold transmit. destruct (negb _); [intros [= <- _]; exists []; by rewrite app_nil_r|].
  destruct (build_packet E c p) as [[[pkt p2]|e]| |]; [..|done|done]; m_step.
  2:{ intros [= <- _]. exists []. by rewrite app_nil_r. }
  destruct (_ || _); [intros [= <- _]; exists []; by rewrite app_nil_r|].
  destruct (_ <? 0); intros [= <- _]; exists [ESent pkt]; (split; [done|by constructor]).
Qed.

Lemma send_pdu_events c p cb c' node id :
  send_pdu E c p cb = Ok (c', node, id) → ∃ h, history c' = history c ++ h ∧ Forall of_send h.
Proof.
  unfold send_pdu. destruct (check_version _ _) as [m|]; [|intros [= <- _ _]; exists []; by rewrite app_nil_r].
  destruct (needs_probe _ _); [done|]. unfold send_checked.
  destruct (negb _); [intros [= <- _ _]; exists []; by rewrite app_nil_r|].
  destruct (transmit E _ _) as [[c2 [p2|]]| |] eqn:Et; [..|done|done]; m_step;
    apply transmit_events in Et as (h & Hh & Hs); [|intros [= <- _ _]; by exists h].
  destruct (flag_set _ _); [|intros [= <- _ _]; by exists h].
  destruct (negb _); [intros [= <- _ _]; by exists h|]. intros [= <- _ _].
  exists (h ++ [EQueued (reqid (m_pdu (sp_msg p2)))]). cbn [history add_event tick]. rewrite Hh, app_assoc.
  split; [done|]. apply Forall_app. split; [done|by constructor].
Qed.

Lemma q_send_all_events c sends added c' :
  q_send_all E c sends = Ok (added, c') → ∃ h, history c' = history c ++ h ∧ Forall of_send h.
Proof.
  revert c added. induction sends as [|[p cb] sends IH]; intros c added.
  { intros [= _ <-]. exists []. by rewrite app_nil_r. }
  cbn [q_send_all]. destruct (send_pdu E c p cb) as [[[c1 node] id]| |] eqn:Es; [|done..]. m_step.
  destruct (q_send_all E c1 sends) as [[a2 c2]| |] eqn:Ea; [|done..]. m_step. intros [= _ <-].
  apply send_pdu_events in Es as (h1 & Hh1 & Hs1). destruct (IH _ _ Ea) as (h2 & Hh2 & Hs2).
  exists (h1 ++ h2). rewrite Hh2, Hh1, app_assoc. split; [done|]. by apply Forall_app.
Qed.


(** C13: the operations on the linked list implement those on a queue: started on a
    heap that holds the queue [q] they have undefined behaviour only where the queue
    machine has it (in the encoder or decoder, or in a send that has to ask for an engine
    identifier first, which Probe covers), and otherwise end in a heap that holds
    the resulting queue, with the same session, history and result; closing the
    session frees every node. *)
Theorem session_refines_queue s q :
  represents s q →
  (∀ pdu cb, follows (left ∅) (_sess_async_send E s pdu cb) (q_async_send E q (ctx s) pdu cb)) ∧
  (∀ fuel buf pos len, follows packet_left (_sess_process_packet E fuel s buf pos len)
     (q_process_packet E fuel q (ctx s) buf pos len)) ∧
  (∀ fuel, follows (λ s' '(q', c'), ctx s' = c' ∧ represents s' q') (snmp_sess_timeout E fuel s)
     (q_sess_timeout E fuel q (ctx s))) ∧
  (∃ s', close_loop (length q) s (requests (lst s)) = Ok s' ∧ nodes (lst s') = ∅ ∧
     freed (history (ctx s')) = freed (history (ctx s)) ++ (request_id <$> q)).
Proof.
  intros Hq. split_and!; intros.
  - by apply async_send_follows.
  - by apply process_packet_follows.
  - by apply sess_timeout_follows.
  - destruct Hq as (l & H & <-). destruct s as [ls c]. cbn [lst ctx] in *.
    destruct (close_loop_follows ls c l H) as (s' & Hc & Hn).
    eexists. rewrite length_fmap, (rep_first _ _ _ H). split; [exact Hc|]. split; [exact Hn|].
    cbn [ctx]. clear. generalize l.*2. intros q. revert c. induction q as [|r q IH]; intros c.
    + by rewrite app_nil_r.
    + cbn [foldl]. rewrite IH. cbn [history add_event]. unfold freed. rewrite omap_app. simpl.
      by rewrite <- app_assoc.
Qed.

(** ** Time *)

Definition usecs (tv : timeval) : Z := tv_sec tv * 1000000 + tv_usec tv.

(** As gettimeofday returns it. *)
Definition valid_time (tv : timeval) : Prop := 0 ≤ tv_usec tv < 1000000 ∧ 0 ≤ tv_sec tv < 2 ^ 31.

Lemma timer_lt_spec a b : valid_time a → valid_time b → timer_lt a b = (usecs a <? usecs b).
Proof.
  intros [Ha _] [Hb _]. unfold timer_lt, usecs. destruct (Z.eqb_spec (tv_sec a) (tv_sec b)).
  - destruct (Z.ltb_spec (tv_usec a) (tv_usec b)); symmetry; [apply Z.ltb_lt|apply Z.ltb_ge]; lia.
  - destruct (Z.ltb_spec (tv_sec a) (tv_sec b)); symmetry; [apply Z.ltb_lt|apply Z.ltb_ge]; nia.
Qed.

(** The sum of microseconds is taken in 32 bits with sign. *)
Lemma usecs_expires tv t :
  valid_time tv → 0 ≤ t < 2 ^ 32 → tv_sec tv < 2 ^ 31 - 2148 →
  2148 ≤ tv_sec tv → usecs (expires tv t) = tv_sec tv * 1000000 + s32 (tv_usec tv + t).
Proof.
  intros [Hu Hs] Ht Hs1 Hs2. unfold usecs, expires. cbn [tv_sec tv_usec].
  pose proof (s32_range (tv_usec tv + t)) as Hr. set (u := s32 (tv_usec tv + t)) in *.
  pose proof (Z.quot_rem u 1000000 ltac:(lia)) as Hq.
  pose proof (Z.rem_bound_abs u 1000000 ltac:(lia)) as Hb.
  assert (- 2148 ≤ Z.quot u 1000000 ≤ 2148) by lia.
  rewrite (s32_id (tv_sec tv + _)) by lia. lia.
Qed.

(** A timeout of less than 2^31 microseconds, with those of the clock added, is
    honoured. *)
Lemma expires_later tv t :
  valid_time tv → 0 ≤ t → tv_usec tv + t < 2 ^ 31 → 2148 ≤ tv_sec tv < 2 ^ 31 - 2148 →
  usecs (expires tv t) = usecs tv + t.
Proof.
  intros Hv Ht Hsum Hs. pose proof Hv as [Hu _]. rewrite usecs_expires by (done || lia).
  rewrite s32_id by lia. unfold usecs. lia.
Qed.

(** The other half of its range lets a request expire before it was sent. *)
Lemma expires_earlier tv t :
  valid_time tv → 2 ^ 31 ≤ tv_usec tv + t → t < 2 ^ 32 - 1000000 →
  2148 ≤ tv_sec tv < 2 ^ 31 - 2148 → usecs (expires tv t) < usecs tv.
Proof.
  intros Hv Hsum Ht Hs. pose proof Hv as [Hu _]. rewrite usecs_expires by (done || lia).
  assert (s32 (tv_usec tv + t) = tv_usec tv + t - 2 ^ 32) as ->; [|unfold usecs; lia].
  rewrite <- (s32_id (tv_usec tv + t - 2 ^ 32)) by lia. apply s32_cong.
  rewrite <- (Z_mod_plus_full (tv_usec tv + t - 2 ^ 32) 1 (2 ^ 32)). f_equal. lia.
Qed.

Lemma time_left_spec e now :
  valid_time e → valid_time now →
  (usecs now ≤ usecs e → usecs (time_left e now) = usecs e - usecs now) ∧
  (usecs e < usecs now → 0 ≤ usecs (time_left e now) ≤ 100) ∧ valid_time (time_left e now).
Proof.
  intros [He1 He2] [Hn1 Hn2]. unfold time_left, usecs, valid_time.
  destruct (Z.ltb_spec (tv_sec e) (tv_sec now)); cbn [tv_sec tv_usec]; [lia|].
  rewrite (s32_id (tv_usec e - tv_usec now)), (s32_id (tv_sec e - tv_sec now)) by lia.
  destruct (Z.eqb_spec (tv_sec e) (tv_sec now)).
  - destruct (Z.ltb_spec (tv_usec e - tv_usec now) 0); cbn [tv_sec tv_usec]; lia.
  - destruct (Z.ltb_spec (tv_usec e - tv_usec now) 0); cbn [tv_sec tv_usec]; [|lia].
    rewrite !s32_id by lia. lia.
Qed.

(** The earliest of the times, and [e] unless it is the unset time. *)
Lemma earliest_loop_spec s pre rest e :
  rep ∅ s (pre ++ rest) → Forall (λ r, valid_time (expire r) ∧ 0 < usecs (expire r)) rest.*2 →
  valid_time e →
  ∃ m, earliest_loop (length rest) s (head rest.*1) e = Ok m ∧ valid_time m ∧
    (0 < usecs e → usecs m ≤ usecs e) ∧ Forall (λ r, usecs m ≤ usecs (expire r)) rest.*2 ∧
    (m = e ∧ (rest = [] ∨ 0 < usecs e) ∨ Exists (λ r, m = expire r) rest.*2).
Proof.
  revert pre e. induction rest as [|[a r] rest IH]; intros pre e H Hv He.
  { exists e. split; [done|]. split_and!; [done|lia|constructor|by left; split; [|left]]. }
  apply Forall_cons in Hv as [[Hr Hr0] Hv].
  cbn [earliest_loop length head fmap list_fmap fst snd]. rewrite (load_rep _ _ _ _ _ _ H). m_step.
  cbn [expire set_next next_request].
  set (unset := (tv_sec e =? 0) && (tv_usec e =? 0)).
  assert (unset = true ↔ usecs e = 0) as Hu.
  { unfold unset, usecs. destruct He. rewrite andb_true_iff, !Z.eqb_eq. lia. }
  set (e' := if _ : bool then expire r else e).
  assert (valid_time e' ∧ 0 < usecs e' ∧ usecs e' ≤ usecs (expire r) ∧
          (0 < usecs e → usecs e' ≤ usecs e) ∧ (e' = e ∧ 0 < usecs e ∨ e' = expire r)) as (V & P & L1 & L2 & D).
  { unfold e'. rewrite timer_lt_spec by done.
    assert (0 ≤ usecs e) by (unfold usecs; destruct He; lia).
    destruct unset eqn:Eu; cbn [orb].
    - assert (usecs e = 0) by (by apply Hu). split_and!; [done..|lia|by right].
    - assert (usecs e ≠ 0) by (intros ?%Hu; done).
      destruct (Z.ltb_spec (usecs (expire r)) (usecs e)); split_and!; try done; try lia;
        [by right|left; split; [done|lia]]. }
  rewrite cons_cells in H.
  destruct (IH (pre ++ [(a, r)]) e' H Hv V) as (m & -> & Vm & Lm & Fm & Dm). specialize (Lm P).
  exists m. split; [done|]. split_and!; [done|lia|constructor; [lia|done]|].
  destruct Dm as [[-> _]|?]; [destruct D as [[-> ?]| ->]; [left; by split; [|right]|]|]; right;
    [by left|by right].
Qed.

(** C24: with requests outstanding the time that select may wait is the time to the
    earliest expiry, to the microsecond, so that no expiry is slept through, and at most
    100 microseconds when something is overdue; a shorter wait of the caller stands, and
    with nothing outstanding select may block. *)
Theorem select_waits_for_earliest s q wait block :
  represents s q → Forall (λ r, valid_time (expire r) ∧ 0 < usecs (expire r)) q →
  valid_time (gettimeofday E (clock (ctx s))) → valid_time wait →
  let now := gettimeofday E (clock (ctx s)) in
  ∃ s' wait' block', snmp_sess_select_info2 E (length q) s wait block = Ok (s', wait', block') ∧
    lst s' = lst s ∧
    match q with
    | [] => block' = true
    | _ => block' = false ∧ ∃ r, r ∈ q ∧ Forall (λ x, usecs (expire r) ≤ usecs (expire x)) q ∧
        (usecs now ≤ usecs (expire r) →
           usecs wait' = if block : bool then usecs (expire r) - usecs now
                         else Z.min (usecs wait) (usecs (expire r) - usecs now)) ∧
        (usecs (expire r) < usecs now → 0 ≤ usecs wait' ≤ 100)
    end.
Proof.
  intros (l & H & <-) Hv Hnow Hw now. unfold snmp_sess_select_info2. rewrite length_fmap.
  rewrite (rep_first _ _ _ H). destruct l as [|[a r0] l]; [by do 3 eexists|].
  destruct (earliest_loop_spec (lst s) [] ((a, r0) :: l) (TV 0 0) H Hv ltac:(done))
    as (m & Hm & Vm & _ & Fm & Dm).
  rewrite Hm. m_step. cbn [head fmap list_fmap fst snd].
  assert (∃ r, r ∈ r0 :: l.*2 ∧ m = expire r) as (r & Hr & ->).
  { destruct Dm as [[_ [[=]|[=]]]|Dm]. by apply Exists_exists in Dm. }
  destruct (time_left_spec (expire r) now Vm Hnow) as (T1 & T2 & T3). fold now.
  assert (∀ w, (usecs now ≤ usecs (expire r) → usecs w = if block then usecs (expire r) - usecs now
                         else Z.min (usecs wait) (usecs (expire r) - usecs now)) ∧
               (usecs (expire r) < usecs now → 0 ≤ usecs w ≤ 100) →
    ∃ r, r ∈ r0 :: l.*2 ∧ Forall (λ x, usecs (expire r) ≤ usecs (expire x)) (r0 :: l.*2) ∧
        (usecs now ≤ usecs (expire r) → usecs w = if block then usecs (expire r) - usecs now
                         else Z.min (usecs wait) (usecs (expire r) - usecs now)) ∧
        (usecs (expire r) < usecs now → 0 ≤ usecs w ≤ 100)) as Hfin.
  { intros w [W1 W2]. exists r. by split_and!. }
  rewrite timer_lt_spec by done.
  assert (0 ≤ usecs wait) by (unfold usecs; destruct Hw; lia).
  destruct block; cbn [orb].
  - do 3 eexists. split; [done|]. split; [done|]. split; [done|]. apply Hfin. split; [done|lia].
  - destruct (Z.ltb_spec (usecs (time_left (expire r) now)) (usecs wait)).
    + do 3 eexists. split; [done|]. split; [done|]. split; [done|]. apply Hfin. split; lia.
    + do 3 eexists. split; [done|]. split; [done|]. split; [done|]. apply Hfin. split; lia.
Qed.
End Life.

(** ** Samples *)

(** A clock that reads a thousand seconds later each time, an application that is
    content with every callback, a network that takes every packet. *)
Definition sample_env : env :=
  Env (λ n, TV (Z.of_nat n * 1000) 0) (λ _ _, true) (λ _ _, 0) 0 false (λ _ _ _ _, (1, []))
    None None None None (λ _, true)
    (λ _ _ _, Err) (λ _ _ _, Err) (λ _ _ _, (0, no_v3, 0)) malloc_all true false (replicate 2048 0)
    (replicate 128 0) (replicate 256 0) None.

Definition sample_sess : sess :=
  Sess sample_session 1 1000000 0 (Some (0%nat, 5)) 0 0 [] [].

Definition sample_start : slist := SList (ReqList ∅ None None 0) (SCtx sample_sess 0 0 []).

Definition sample_spdu : spdu := SPdu sample_message 1 no_v3.

(** One request has been sent. *)
Definition sample_waiting : slist := Eval vm_compute in
  match _sess_async_send sample_env sample_start sample_spdu None with
  | Ok (s, _) => s
  | _ => sample_start
  end.

Definition sample_queue : list request := Eval vm_compute in
  match q_async_send sample_env [] (ctx sample_start) sample_spdu None with
  | Ok (q, _, _) => q
  | _ => []
  end.

Definition sample_response : message :=
  Message SNMP_VERSION_2c (Some [112; 117; 98; 108; 105; 99]) 6 0
    (NetsnmpPdu SNMP_MSG_RESPONSE 77 0 0 [] 0 [0; 0; 0; 0] 0 0 0 [sample_var]).

Lemma sample_represents : represents sample_waiting sample_queue.
Proof.
  assert (represents sample_start []) as H0.
  { exists []. split; [|done]. split; simpl; try done; [constructor|].
    intros a [x Hx]. by rewrite lookup_empty in Hx. }
  pose proof (async_send_follows sample_env sample_start [] sample_spdu None H0) as HF.
  assert (_sess_async_send sample_env sample_start sample_spdu None = Ok (sample_waiting, 77))
    as E1 by (by vm_compute).
  assert (q_async_send sample_env [] (ctx sample_start) sample_spdu None
          = Ok (sample_queue, ctx sample_waiting, 77)) as E2 by (by vm_compute).
  rewrite E1, E2 in HF. destruct HF as ([s id] & [= <- <-] & _ & _ & Hr). exact Hr.
Qed.

Lemma sample_send_step : step sample_env sample_start sample_waiting.
Proof. apply (step_send sample_env sample_start sample_spdu None _ 77). by vm_compute. Qed.

Lemma sample_response_ok :
  message_ok sample_response ∧ pdu_exact (m_pdu sample_response) [sample_binding].
Proof.
  split; [split_and!; [by right|done|done]|]. split_and!; try done.
  - apply (bool_decide_unpack _). by vm_compute.
  - constructor; [apply sample_rholds|constructor].
  - constructor; [|constructor]. split; [apply sample_oid_exact|].
    split_and!; try done. apply (bool_decide_unpack _). by vm_compute.
Qed.

Lemma session_refines_queue_witness :
  ∃ s', close_loop (length sample_queue) sample_waiting (requests (lst sample_waiting)) = Ok s' ∧
    nodes (lst s') = ∅ ∧
    freed (history (ctx s'))
      = freed (history (ctx sample_waiting)) ++ (request_id <$> sample_queue).
Proof. apply (session_refines_queue sample_env sample_waiting sample_queue sample_represents). Defined.

Lemma sample_encoder : own_encoder sample_env.
Proof. split; [done|done|by intros ? ? ?|]. intros n Hn. by apply Z.ltb_lt, Hn. Qed.

Lemma sample_request_ok :
  Forall (request_ok sample_env sample_session (λ m, ber_message m [sample_binding]) (Some (0%nat, 5))) sample_queue.
Proof.
  constructor; [|constructor]. split; [done|done|right; by eexists|]. exists [sample_binding].
  split; [split; [by right|done]|]. split; [apply (bool_decide_unpack _); by vm_compute|].
  split; [constructor; [apply sample_rholds|constructor]|]. done.
Qed.



Lemma select_waits_for_earliest_witness :
  ∃ s' wait' block', snmp_sess_select_info2 sample_env 1 sample_waiting (TV 7 0) true
      = Ok (s', wait', block') ∧ lst s' = lst sample_waiting ∧ block' = false ∧
    0 ≤ usecs wait' ≤ 100.
Proof.
  destruct (select_waits_for_earliest sample_env sample_waiting sample_queue (TV 7 0) true
    sample_represents ltac:(repeat constructor; by vm_compute) ltac:(by vm_compute)
    ltac:(by vm_compute)) as (s' & w & b & E & Hl & Hq).
  exists s', w, b. split; [exact E|]. split; [done|].
  change sample_queue with [nth 0 sample_queue (Request None 0 0 None 0 0 (TV 0 0) (TV 0 0) sample_spdu)] in Hq.
  destruct Hq as (Hb & r & Hr & _ & _ & Hover). split; [done|]. apply Hover.
  apply list_elem_of_singleton in Hr. subst r. by vm_compute.
Defined.
