(* ===== verification/Stream.v ===== *)
(** * Receiving on a session: _sess_read of snmplib/snmp_api.c

    Models the part of _sess_read after the socket was found readable and not
    listening: a datagram is handed on whole, the octets of a stream collect in
    the session's buffer until they make up messages.  What is done with a
    message, the connection and the memory allocator are parameters; so is the
    session's own check_packet, in whose absence asn_check_packet is used.

    Theorem: however a stream of messages is cut into reads, the messages are
    processed one by one, in order and whole. *)

From S2P Require Import Prelude Ber Asn1 Codec PduParse.
From stdpp Require Import prelude numbers list.
From Stdlib Require Import ZArith Lia.
Open Scope Z_scope.

Definition MAXIMUM_PACKET_SIZE : Z := 0x7fffffff.

(** The initial [rxbuf_len]. *)
Definition RXBUF_LEN : Z := 65536.

(** [isp->packet], of [packet_size] bytes, and [isp->packet_len]. *)
Record rx := Rx { rx_packet : option (list Z); rx_packet_len : Z }.

(** [f_recv]: data, or an error or the end of a stream. *)
Inductive recv := RData (d : list Z) | RError | REnd.

Section Read.
Context {St : Type}.
Variable malloc_ok : Z → bool.
Variable indeterminate : Z.
Variable check_packet : option (list Z → Z → M Z).
(** [_sess_process_packet] on a buffer, a position and a length: the new state and
    its result. *)
Variable process : St → list Z → nat → Z → M (St * Z).
(** The session's callback with NETSNMP_CALLBACK_OP_DISCONNECT. *)
Variable disconnect : St → M St.

Definition blank_bytes (n : Z) : list Z := replicate (Z.to_nat n) indeterminate.

(** Where to receive to; [None] is a [return 0]. *)
Definition prepare (r : rx) : option rx :=
  match rx_packet r with
  | None => if malloc_ok RXBUF_LEN then Some (Rx (Some (blank_bytes RXBUF_LEN)) 0) else None
  | Some packet =>
      let n := u32 (rx_packet_len r + RXBUF_LEN) in
      if zlen packet <? n then
        if malloc_ok n
        then Some (Rx (Some (packet ++ blank_bytes (n - zlen packet))) (rx_packet_len r))
        else None
      else Some r
  end.

(** How the loop over the packets in the buffer ends: after some of them, with nothing
    but an incomplete one, or with an illegal length. *)
Inductive loop_end :=
| LBreak (s : St) (pptr : nat) (packet_len rc : Z)
| LWait (s : St)
| LBroken (s : St).

(** [pdulen] is unsigned: a negative result of check_packet is an illegal length. *)
Fixpoint packets_loop (fuel : nat) (s : St) (packet : list Z) (pptr : nat) (packet_len rc : Z)
    : M loop_end :=
  if packet_len <=? 0 then Ok (LBreak s pptr packet_len rc)
  else
    match fuel with
    | O => UB
    | S fuel =>
        n ← match check_packet with
            | Some f => f (drop pptr packet) packet_len
            | None => asn_check_packet (drop pptr packet) packet_len
            end;
        let pdulen := u32 n in
        if MAX_PACKET_LENGTH <? pdulen then Ok (LBroken s)
        else if (packet_len <? pdulen) || (pdulen =? 0) then
          if (pptr =? 0)%nat then Ok (LWait s) else Ok (LBreak s pptr packet_len rc)
        else
          '(s, rc) ← process s packet pptr pdulen;
          packets_loop fuel s packet (pptr + Z.to_nat pdulen) (packet_len - pdulen) rc
    end.

(** What is left in the buffer moves to its front; the buffer is released or cut to
    size.  The result says whether the connection was closed. *)
Definition keep_rest (s : St) (packet : list Z) (pptr : nat) (packet_len rc : Z)
    : M (rx * St * Z * bool) :=
  if MAXIMUM_PACKET_SIZE <=? packet_len then Ok (Rx (Some packet) packet_len, s, -1, true)
  else if packet_len =? 0 then Ok (Rx None 0, s, rc, false)
  else
    part ← rd_list packet pptr (Z.to_nat packet_len);
    packet ← wr_list packet 0 part;
    let packet := if malloc_ok packet_len then take (Z.to_nat packet_len) packet else packet in
    Ok (Rx (Some packet) packet_len, s, rc, false).

(** Returns the buffer, the state, the result and whether the connection was closed.
    [empty_pkt] is NETSNMP_TRANSPORT_FLAG_EMPTY_PKT. *)
Definition read_stream (r : rx) (s : St) (got : recv) (empty_pkt : bool)
    : M (rx * St * Z * bool) :=
  match prepare r with
  | None => Ok (r, s, 0, false)
  | Some r =>
      match got with
      | RData ((_ :: _) as d) =>
          let packet := default [] (rx_packet r) in
          packet ← wr_list packet (Z.to_nat (rx_packet_len r)) d;
          let packet_len := u32 (rx_packet_len r + zlen d) in
          e ← packets_loop (Z.to_nat packet_len) s packet 0 packet_len 0;
          match e with
          | LWait s => Ok (Rx (Some packet) packet_len, s, 0, false)
          | LBroken s =>
              s ← disconnect s;
              Ok (Rx (Some packet) packet_len, s, -1, true)
          | LBreak s pptr packet_len rc => keep_rest s packet pptr packet_len rc
          end
      | RData [] | REnd =>
          if empty_pkt then Ok (r, s, 0, false)
          else s ← disconnect s; Ok (Rx None (rx_packet_len r), s, -1, true)
      | RError => s ← disconnect s; Ok (Rx None (rx_packet_len r), s, -1, true)
      end
  end.

(** A datagram in a buffer of its own. *)
Definition read_datagram (s : St) (got : recv) (empty_pkt : bool) : M (St * Z) :=
  if malloc_ok RXBUF_LEN then
    match got with
    | RError => Ok (s, -1)
    | REnd | RData [] =>
        if empty_pkt then Ok (s, 0) else process s (blank_bytes RXBUF_LEN) 0 0
    | RData d =>
        rxbuf ← wr_list (blank_bytes RXBUF_LEN) 0 d;
        process s rxbuf 0 (zlen d)
    end
  else Ok (s, 0).

(** A connection: one read after the other. *)
Fixpoint read_all (r : rx) (s : St) (chunks : list (list Z)) : M (rx * St) :=
  match chunks with
  | [] => Ok (r, s)
  | d :: chunks =>
      '(r, s, _, closed) ← read_stream r s (RData d) false;
      if closed : bool then Ok (r, s) else read_all r s chunks
  end.
End Read.

(** ** Messages on a stream *)

Definition seq_tag : Z := Z.lor ASN_SEQUENCE ASN_CONSTRUCTOR.

(** A message with the contents [c], small enough to be followed by a full read. *)
Definition framed (m : list Z) : Prop :=
  ∃ c, m = ber_tlv seq_tag c ∧ zlen m < 2 ^ 31 - RXBUF_LEN.

(** The beginning of a message that has not arrived completely. *)
Definition partial (p : list Z) : Prop := ∃ rest, framed (p ++ rest) ∧ rest ≠ [].

Lemma framed_size m : framed m → 2 ≤ zlen m < 2 ^ 31 - RXBUF_LEN.
Proof.
  intros (c & -> & H). split; [|done]. rewrite zlen_ber_tlv, zlen_ber_length.
  pose proof (zlen_nonneg c). destruct (_ <? _); lia.
Qed.

(** The check sees only the octets that have arrived. *)
Lemma check_arrived p rest g :
  framed (p ++ rest) → 
  ∃ n, asn_check_packet (p ++ g) (zlen p) = Ok n ∧ (n = zlen (p ++ rest) ∨ n = 0 ∧ zlen p < zlen (p ++ rest)).
Proof.
  intros (c & Hm & Hs). pose proof (zlen_nonneg c) as Hc. pose proof (zlen_nonneg p) as Hp0.
  pose proof (zlen_nonneg rest) as Hr0. rewrite zlen_app in Hs. unfold RXBUF_LEN in Hs.
  assert (zlen (p ++ rest) = 1 + zlen (ber_length (zlen c)) + zlen c) as Hz.
  { rewrite Hm, zlen_ber_tlv. lia. }
  pose proof (zlen_ber_length (zlen c)) as Hbl.
  assert (1 ≤ zlen (ber_length (zlen c))) as Hge by (rewrite Hbl; destruct (_ <? _); lia).
  assert (1 + zlen (ber_length (zlen c)) + zlen c < 2 ^ 31) as Hcb by (rewrite zlen_app in Hz; lia).
  assert (zlen p < 2 ^ 31) as Hpb by lia.
  destruct (decide (1 + zlen (ber_length (zlen c)) ≤ zlen p)) as [Hh|Hh].
  - assert (∃ p', p = (seq_tag :: ber_length (zlen c)) ++ p') as [p' ->].
    { exists (drop (S (length (ber_length (zlen c)))) p).
      rewrite <- (take_drop (S (length (ber_length (zlen c)))) p) at 1. f_equal.
      apply (f_equal (take (S (length (ber_length (zlen c)))))) in Hm.
      rewrite take_app_le in Hm.
      2:{ set (h := ber_length (zlen c)) in *. unfold zlen in Hh. lia. }
      rewrite Hm. unfold ber_tlv. cbn [take]. by rewrite take_app_length. }
    eexists. split.
    + rewrite <- app_assoc. cbn [app] in Hpb, Hp0 |- *. apply asn_check_packet_head; lia.
    + rewrite decide_True by done. left. by rewrite Hz.
  - exists 0. split; [|right; split; [done|lia]]. unfold asn_check_packet.
    destruct (Z.ltb_spec (zlen p) 2); [done|].
    destruct p as [|x [|y p]]; [done|done|]. unfold ber_tlv in Hm. fold seq_tag.
    injection Hm as -> Hm. change (rd ((seq_tag :: y :: p) ++ g) 0) with (Ok seq_tag).
    m_step. rewrite Z.eqb_refl. cbn [negb].
    change (rd ((seq_tag :: y :: p) ++ g) 1) with (Ok y). m_step.
    revert Hm Hh Hbl. unfold ber_length. destruct (Z.ltb_spec (zlen c) 128); intros Hm Hh Hbl.
    { exfalso. apply Hh. rewrite Hbl. lia. }
    injection Hm as -> _. destruct (length_size_spec (zlen c)) as [_ Hk]; [lia|].
    set (k := length_size (zlen c)) in *.
    rewrite land_128 by (unfold is_byte; lia). rewrite decide_False by lia. m_step.
    assert (Z.land (128 + Z.of_nat k) (Z.lnot 0x80) = Z.of_nat k) as ->.
    { rewrite land_lnot_128 by (unfold is_byte; lia). Z.div_mod_to_equations; lia. }
    rewrite s32_id by lia. destruct (Z.ltb_spec (zlen (seq_tag :: 128 + Z.of_nat k :: p)) (Z.of_nat k + 2));
      [done|]. exfalso. apply Hh. rewrite Hbl. lia.
Qed.

(** The length is in the header: no part of a message begins with a whole one. *)
Lemma not_partial m x : framed m → ¬ partial (m ++ x).
Proof.
  intros Hm (rest & Hf & Hr). rewrite <- app_assoc in Hf. pose proof (framed_size _ Hm) as Hs.
  destruct (check_arrived m [] []) as (n & E & Hn); [by rewrite app_nil_r|].
  destruct (check_arrived m (x ++ rest) []) as (n' & E' & Hn'); [done|].
  rewrite E in E'. injection E' as <-. rewrite app_nil_r in Hn. rewrite !zlen_app in Hn'.
  pose proof (zlen_nonneg x). destruct rest as [|y rest]; [done|]. rewrite zlen_cons in Hn'.
  pose proof (zlen_nonneg rest). lia.
Qed.

Section Reassembly.
Context {St : Type}.
Variable malloc_ok : Z → bool.
Variable indeterminate : Z.
Variable process : St → list Z → nat → Z → M (St * Z).
Variable disconnect : St → M St.
Hypothesis memory : ∀ n, 0 ≤ n < 2 ^ 31 → malloc_ok n = true.

(** What processing does with the messages of interest, wherever they are in a
    buffer. *)
Variable run : St → list Z → St.
Definition processed (m : list Z) : Prop :=
  framed m ∧ ∀ s pre post, ∃ rc, process s (pre ++ m ++ post) (length pre) (zlen m) = Ok (run s m, rc).

Notation loop := (packets_loop None process).

Lemma loop_messages fuel s pre ms p g rc :
  Forall processed ms → partial p → (pre ≠ [] ∨ ms ≠ [] ∨ p = []) →
  zlen (concat ms ++ p) < 2 ^ 31 → (length (concat ms ++ p) ≤ fuel)%nat →
  ∃ rc', loop fuel s (pre ++ concat ms ++ p ++ g) (length pre) (zlen (concat ms ++ p)) rc
    = Ok (LBreak (foldl run s ms) (length pre + length (concat ms)) (zlen p) rc').
Proof.
  revert fuel s pre rc. induction ms as [|m ms IH]; intros fuel s pre rc Hms Hp Hne Hb Hfuel.
  - cbn [concat app foldl] in *. rewrite Nat.add_0_r. destruct p as [|x p].
    { exists rc. by destruct fuel. }
    destruct Hp as (rest & Hf & Hrest). set (q := x :: p) in *.
    assert (1 ≤ zlen q) as Hq by (unfold q; rewrite zlen_cons; pose proof (zlen_nonneg p); lia).
    destruct fuel as [|fuel]; [simpl in Hfuel; lia|]. cbn [packets_loop].
    rewrite (proj2 (Z.leb_gt _ _)) by lia. rewrite drop_app_length.
    destruct (check_arrived q rest g Hf) as (n & -> & Hn). m_step.
    pose proof (framed_size _ Hf) as Hsz. unfold RXBUF_LEN, MAX_PACKET_LENGTH in *.
    assert (0 ≤ n < 2 ^ 31) by lia. rewrite u32_id by lia.
    rewrite (proj2 (Z.ltb_ge _ n)) by lia.
    assert (zlen q < zlen (q ++ rest)) as Hlt.
    { rewrite zlen_app. destruct rest as [|y rest]; [done|]. rewrite zlen_cons.
      pose proof (zlen_nonneg rest). lia. }
    assert ((zlen q <? n) || (n =? 0) = true) as ->.
    { destruct Hn as [->|[-> _]]; [|by rewrite orb_true_r]. by rewrite (proj2 (Z.ltb_lt _ _)). }
    exists rc. destruct pre as [|y pre]; [|done]. by destruct Hne as [?|[?|?]].
  - apply Forall_cons in Hms as [[Hf Hrun] Hms]. pose proof (framed_size _ Hf) as Hsz.
    cbn [concat] in *. rewrite <- !app_assoc in *.
    assert (zlen (m ++ concat ms ++ p) = zlen m + zlen (concat ms ++ p)) as Hz by apply zlen_app.
    pose proof (zlen_nonneg (concat ms ++ p)) as Hn0.
    destruct fuel as [|fuel]; [unfold zlen in *; lia|].
    cbn [packets_loop]. rewrite (proj2 (Z.leb_gt _ _)) by lia. rewrite drop_app_length.
    assert (asn_check_packet (m ++ concat ms ++ p ++ g) (zlen (m ++ concat ms ++ p)) = Ok (zlen m)) as ->.
    { destruct Hf as (c & -> & Hs). pose proof (zlen_nonneg c). pose proof (zlen_nonneg (ber_length (zlen c))).
      unfold ber_tlv at 1. cbn [app]. rewrite <- app_assoc.
      rewrite zlen_ber_tlv in *. unfold RXBUF_LEN in Hs. rewrite asn_check_packet_head by lia.
      rewrite decide_True by lia. done. }
    m_step. unfold RXBUF_LEN, MAX_PACKET_LENGTH in *. rewrite u32_id by lia.
    rewrite (proj2 (Z.ltb_ge _ (zlen m))) by lia.
    rewrite (proj2 (Z.ltb_ge (zlen (m ++ concat ms ++ p)) _)) by lia.
    rewrite (proj2 (Z.eqb_neq (zlen m) 0)) by lia. cbn [orb].
    destruct (Hrun s pre (concat ms ++ p ++ g)) as [rc1 ->]. m_step.
    rewrite Z_to_nat_zlen, Hz. replace (zlen m + zlen (concat ms ++ p) - zlen m)
      with (zlen (concat ms ++ p)) by lia.
    rewrite (app_assoc pre m), <- (length_app pre m).
    destruct (IH fuel (run s m) (pre ++ m) rc1) as [rc2 E]; try done; [|lia| |].
    + left. intros [_ ?]%app_eq_nil. subst m. change (zlen []) with 0 in Hsz. lia.
    + unfold zlen in *. rewrite length_app in Hfuel. lia.
    + exists rc2. rewrite E. f_equal. cbn [foldl]. rewrite !length_app. f_equal. lia.
Qed.

(** The buffer holds exactly the beginning [p] of a message. *)
Definition holds_part (r : rx) (p : list Z) : Prop :=
  match rx_packet r with
  | None => p = []
  | Some packet => rx_packet_len r = zlen p ∧ ∃ g, packet = p ++ g
  end.

Lemma prepare_room r p :
  holds_part r p → zlen p < 2 ^ 31 - RXBUF_LEN →
  ∃ g len, prepare malloc_ok indeterminate r = Some (Rx (Some (p ++ g)) len) ∧ len = zlen p ∧
    RXBUF_LEN ≤ zlen g.
Proof.
  unfold holds_part, prepare, RXBUF_LEN. intros H Hb. pose proof (zlen_nonneg p).
  destruct (rx_packet r) as [packet|] eqn:Er.
  - destruct H as [Hl [g ->]]. rewrite Hl. rewrite u32_id by lia. rewrite zlen_app.
    destruct (Z.ltb_spec (zlen p + zlen g) (zlen p + 65536)).
    + rewrite memory by lia. rewrite <- app_assoc. eexists _, _. split; [done|]. split; [done|].
      rewrite zlen_app. unfold blank_bytes, zlen at 2. rewrite length_replicate. lia.
    + destruct r as [pk len]. cbn in *. subst. eexists _, _. split; [done|]. split; [done|lia].
  - subst p. rewrite memory by lia. eexists (blank_bytes _ _), 0. split; [done|]. split; [done|].
    unfold blank_bytes, zlen. rewrite length_replicate. lia.
Qed.

Lemma read_stream_step r s p d ms p' :
  holds_part r p → partial p → d ≠ [] → zlen d ≤ RXBUF_LEN →
  p ++ d = concat ms ++ p' → Forall processed ms → partial p' →
  ∃ r' rc, read_stream malloc_ok indeterminate None process disconnect r s (RData d) false
    = Ok (r', foldl run s ms, rc, false) ∧ holds_part r' p'.
Proof.
  intros Hh (rest & Hf & _) Hd Hdl Heq Hms Hp'. pose proof (framed_size _ Hf) as Hsz.
  rewrite zlen_app in Hsz. pose proof (zlen_nonneg rest). pose proof (zlen_nonneg p).
  pose proof (zlen_nonneg d).
  destruct (prepare_room r p Hh) as (g & len & Hpr & -> & Hg); [lia|].
  unfold read_stream. rewrite Hpr. destruct d as [|x d]; [done|]. set (dd := x :: d) in *.
  cbn [rx_packet rx_packet_len default id]. rewrite Z_to_nat_zlen.
  assert (wr_list (p ++ g) (length p) dd = Ok (p ++ dd ++ drop (length dd) g)) as ->.
  { rewrite <- (take_drop (length dd) g) at 1. apply wr_list_app.
    rewrite length_take. unfold zlen in *. lia. }
  m_step. set (g' := drop (length dd) g). unfold RXBUF_LEN in *.
  rewrite <- zlen_app. assert (zlen (p ++ dd) = zlen p + zlen dd) as Hz by apply zlen_app.
  rewrite u32_id by lia. rewrite app_assoc, Heq. rewrite <- app_assoc.
  destruct (decide (ms = [] ∧ p' ≠ [])) as [[-> Hne]|Hne].
  - cbn [concat app foldl] in *. destruct Hp' as (rest' & Hf' & Hr').
    assert (1 ≤ zlen p') as Hq.
    { destruct p' as [|y p']; [done|]. rewrite zlen_cons. pose proof (zlen_nonneg p'). lia. }
    destruct (Z.to_nat (zlen p')) as [|fuel] eqn:Ef; [lia|]. cbn [packets_loop].
    rewrite (proj2 (Z.leb_gt _ _)) by lia. rewrite drop_0.
    destruct (check_arrived p' rest' g' Hf') as (n & -> & Hn). m_step.
    pose proof (framed_size _ Hf') as Hsz'. unfold RXBUF_LEN, MAX_PACKET_LENGTH in *.
    assert (0 ≤ n < 2 ^ 31) by lia. rewrite u32_id by lia.
    rewrite (proj2 (Z.ltb_ge _ n)) by lia.
    assert (zlen p' < zlen (p' ++ rest')) as Hlt.
    { rewrite zlen_app. destruct rest' as [|y rest']; [done|]. rewrite zlen_cons.
      pose proof (zlen_nonneg rest'). lia. }
    assert ((zlen p' <? n) || (n =? 0) = true) as ->.
    { destruct Hn as [->|[-> _]]; [|by rewrite orb_true_r]. by rewrite (proj2 (Z.ltb_lt _ _)). }
    cbn [Nat.eqb]. do 2 eexists. split; [done|]. split; [done|]. by eexists.
  - destruct (loop_messages (Z.to_nat (zlen (concat ms ++ p'))) s [] ms p' g' 0) as [rc E];
      [done|done| |rewrite <- Heq; lia|unfold zlen; lia|].
    { destruct (decide (ms = [])) as [->|]; [|by right; left]. right. right.
      destruct (decide (p' = [])); [done|]. by destruct Hne. }
    cbn [app length Nat.add] in E. rewrite E. m_step. unfold keep_rest.
    destruct Hp' as (rest' & Hf' & Hr'). pose proof (framed_size _ Hf') as Hsz'.
    rewrite zlen_app in Hsz'. pose proof (zlen_nonneg p'). pose proof (zlen_nonneg rest').
    unfold MAXIMUM_PACKET_SIZE, RXBUF_LEN in *. rewrite (proj2 (Z.leb_gt _ _)) by lia.
    destruct (Z.eqb_spec (zlen p') 0) as [Hz0|Hz0].
    { do 2 eexists. split; [done|]. unfold holds_part. cbn. by destruct p'. }
    rewrite Z_to_nat_zlen, rd_list_app. m_step.
    rewrite wr_list_eq by (rewrite !length_app; lia). m_step. rewrite memory by lia.
    do 2 eexists. split; [done|]. split; [done|]. cbn [rx_packet take app]. exists [].
    rewrite take_0, app_nil_r, app_nil_l. apply take_app_length.
Qed.

(** A beginning of a stream of messages falls into whole messages and a part. *)
Lemma stream_prefix x y ms q :
  Forall processed ms → partial q → x ++ y = concat ms ++ q →
  ∃ ms1 ms2 p, ms = ms1 ++ ms2 ∧ x = concat ms1 ++ p ∧ p ++ y = concat ms2 ++ q ∧ partial p.
Proof.
  revert x. induction ms as [|m ms IH]; intros x Hms Hq Heq.
  - exists [], [], x. split_and!; [done..|]. destruct Hq as (rest & Hf & Hr). simpl in Heq.
    exists (y ++ rest). rewrite app_assoc, Heq. split; [done|]. by intros [_ ?]%app_eq_nil.
  - apply Forall_cons in Hms as [[Hf Hrun] Hms]. cbn [concat] in Heq. rewrite <- app_assoc in Heq.
    destruct (decide (length m ≤ length x)%nat) as [Hle|Hgt].
    + assert (x = m ++ drop (length m) x) as Hx.
      { rewrite <- (take_drop (length m) x) at 1. f_equal.
        apply (f_equal (take (length m))) in Heq. rewrite take_app_le in Heq by done.
        by rewrite take_app_length in Heq. }
      rewrite Hx, <- app_assoc in Heq. apply app_inv_head in Heq.
      destruct (IH (drop (length m) x) Hms Hq Heq) as (ms1 & ms2 & p & -> & H1 & H2 & H3).
      exists (m :: ms1), ms2, p. split_and!; [done| |done|done].
      rewrite Hx, H1. cbn [concat]. by rewrite <- app_assoc.
    + exists [], (m :: ms), x. split_and!; [done|done|cbn [concat]; by rewrite <- app_assoc|].
      exists (drop (length x) m). assert (m = x ++ drop (length x) m) as Hm.
      { rewrite <- (take_drop (length x) m) at 1. f_equal.
        apply (f_equal (take (length x))) in Heq. rewrite take_app_length in Heq.
        by rewrite take_app_le in Heq by lia. }
      rewrite <- Hm. split; [done|]. intros Hd. rewrite Hd, app_nil_r in Hm. subst. lia.
Qed.

(** C14: the messages of a stream are processed one by one, in order and whole,
    however the stream is cut into reads; at the end the buffer holds exactly the
    octets of the message that is still on its way. *)
Theorem stream_reassembly ms q chunks r s p :
  Forall processed ms → partial q → partial p → holds_part r p →
  Forall (λ d, d ≠ [] ∧ zlen d ≤ RXBUF_LEN) chunks → p ++ concat chunks = concat ms ++ q →
  ∃ r', read_all malloc_ok indeterminate None process disconnect r s chunks
    = Ok (r', foldl run s ms) ∧ holds_part r' q.
Proof.
  revert ms r s p. induction chunks as [|d chunks IH]; intros ms r s p Hms Hq Hp Hh Hc Heq.
  - rewrite app_nil_r in Heq. simpl. exists r.
    assert (ms = []) as ->; [|simpl in *; by subst].
    destruct ms as [|m ms]; [done|]. exfalso. apply Forall_cons in Hms as [[Hm _] _].
    cbn [concat] in Heq. rewrite <- app_assoc in Heq. subst p. by apply (not_partial m _ Hm Hp).
  - apply Forall_cons in Hc as [[Hd Hdl] Hc]. cbn [concat] in Heq. rewrite app_assoc in Heq.
    destruct (stream_prefix (p ++ d) (concat chunks) ms q Hms Hq Heq)
      as (ms1 & ms2 & p1 & -> & H1 & H2 & H3). apply Forall_app in Hms as [Hms1 Hms2].
    destruct (read_stream_step r s p d ms1 p1) as (r1 & rc & E & Hh1); [done..|].
    destruct (IH ms2 r1 (foldl run s ms1) p1) as (r' & E' & Hh'); [done..|].
    exists r'. split; [|done]. cbn [read_all]. rewrite E. m_step. by rewrite E', foldl_app.
Qed.
End Reassembly.

(** Two messages cut into three reads; processing logs what it was given. *)
Definition sample_process (log : list (list Z)) (buf : list Z) (pptr : nat) (n : Z)
    : M (list (list Z) * Z) :=
  m ← rd_list buf pptr (Z.to_nat n); Ok (log ++ [m], 0).

Lemma stream_reassembly_witness :
  ∃ r', read_all (λ _, true) 0 None sample_process Ok (Rx None 0) []
      [[48; 1]; [7; 48; 2; 5]; [0; 48]] = Ok (r', [[48; 1; 7]; [48; 2; 5; 0]])
    ∧ holds_part r' [48].
Proof.
  assert (∀ c, zlen c < 100 → framed (ber_tlv seq_tag c)) as Hf.
  { intros c Hc. exists c. split; [done|]. rewrite zlen_ber_tlv, zlen_ber_length.
    unfold RXBUF_LEN. destruct (_ <? _) eqn:E; [lia|]. apply Z.ltb_ge in E. lia. }
  apply (stream_reassembly (λ _, true) 0 sample_process Ok (λ _ _, eq_refl) (λ log m, log ++ [m])
    [[48; 1; 7]; [48; 2; 5; 0]] [48] [[48; 1]; [7; 48; 2; 5]; [0; 48]] (Rx None 0) [] []).
  - assert (∀ m, framed m → processed sample_process (λ log m, log ++ [m]) m) as Hp.
    { intros m Hm. split; [done|]. intros log pre post. exists 0. unfold sample_process.
      by rewrite Z_to_nat_zlen, rd_list_app. }
    apply Forall_cons. split; [apply Hp; by apply (Hf [7])|].
    apply Forall_singleton, Hp. by apply (Hf [5; 0]).
  - exists [0]. split; [|done]. by apply (Hf []).
  - exists [48; 0]. split; [|done]. by apply (Hf []).
  - done.
  - repeat constructor; done.
  - done.
Defined.
