(* ===== verification/BinaryArray.v ===== *)
(** * Sorted arrays: snmplib/container_binary_array.c

    Models the table, its lazy sort, the searches, insertion, removal, subsets and the
    iterator.  A [void *] is an [option A]: [None] is [NULL]; the application's
    comparison routines are parameters that may run into undefined behaviour, and
    handing them [NULL] is undefined.  Memory may be refused.  A pointer has 4 bytes.

    Lemmas: the quicksort sorts and terminates, what each search finds, and that every
    operation works on a sorted set of entries. *)

From S2P Require Import Prelude.
From stdpp Require Import prelude numbers list sorting.
From Stdlib Require Import ZArith Lia.
Open Scope Z_scope.

Definition CONTAINER_KEY_ALLOW_DUPLICATES : Z := 1.
Definition CONTAINER_KEY_UNSORTED : Z := 2.

(** [t->data_size] *)
Definition SIZEOF_VOIDP : Z := 4.
Definition SIZEOF_VOID_ARRAY : Z := 8.

Record binary_array_table (A : Type) := Table {
  max_size : Z;
  count : Z;
  t_flags : Z;
  dirty : bool;
  data : list (option A);
}.
Arguments Table {A}.
Arguments max_size {A}.
Arguments count {A}.
Arguments t_flags {A}.
Arguments dirty {A}.
Arguments data {A}.

(** The part of [netsnmp_container] that the array uses. *)
Record netsnmp_container (A : Type) := Container { tab : binary_array_table A; sync : Z }.
Arguments Container {A}.
Arguments tab {A}.
Arguments sync {A}.

Record binary_array_iterator := Iterator { it_sync : Z; it_pos : Z }.

Section Array.
Context {A : Type}.
Variable compare ncompare : A → A → M Z.
Variable calloc_ok : Z → Z → bool.
Variable malloc_ok : Z → bool.

Definition slot (d : list (option A)) (i : Z) : M (option A) :=
  if i <? 0 then UB else match d !! Z.to_nat i with Some p => Ok p | None => UB end.

Definition put_slot (d : list (option A)) (i : Z) (p : option A) : M (list (option A)) :=
  _ ← slot d i; Ok (<[Z.to_nat i := p]> d).

(** A comparison routine on two pointers. *)
Definition on_ptrs (f : A → A → M Z) (p q : option A) : M Z :=
  match p, q with Some x, Some y => f x y | _, _ => UB end.

(** ** Sorting *)

(** [while (f(data[i], mid) < 0 && i < last) ++i;] *)
Fixpoint scan_up (fuel : nat) (d : list (option A)) (last : Z) (mid : option A) (i : Z) : M Z :=
  match fuel with
  | O => UB
  | S fuel =>
      x ← slot d i;
      r ← on_ptrs compare x mid;
      if (r <? 0) && (i <? last) then scan_up fuel d last mid (i + 1) else Ok i
  end.

(** [while (f(mid, data[j]) < 0 && j > first) --j;] *)
Fixpoint scan_down (fuel : nat) (d : list (option A)) (first : Z) (mid : option A) (j : Z) : M Z :=
  match fuel with
  | O => UB
  | S fuel =>
      x ← slot d j;
      r ← on_ptrs compare mid x;
      if (r <? 0) && (first <? j) then scan_down fuel d first mid (j - 1) else Ok j
  end.

(** The [do ... while (i <= j)] loop. *)
Fixpoint split_loop (fuel : nat) (d : list (option A)) (first last : Z) (mid : option A) (i j : Z)
    : M (list (option A) * Z * Z) :=
  match fuel with
  | O => UB
  | S fuel =>
      i ← scan_up (Z.to_nat (last - i + 1)) d last mid i;
      j ← scan_down (Z.to_nat (j - first + 1)) d first mid j;
      if i <? j then
        x ← slot d i;
        y ← slot d j;
        d ← put_slot d i y;
        d ← put_slot d j x;
        if i + 1 <=? j - 1 then split_loop fuel d first last mid (i + 1) (j - 1)
        else Ok (d, i + 1, j - 1)
      else if i =? j then Ok (d, i + 1, j - 1)
      else Ok (d, i, j)
  end.

Fixpoint array_qsort (fuel : nat) (d : list (option A)) (first last : Z) : M (list (option A)) :=
  match fuel with
  | O => UB
  | S fuel =>
      mid ← slot d (Z.quot (s32 (first + last)) 2);
      '(d, i, j) ← split_loop (Z.to_nat (last - first + 1)) d first last mid first last;
      d ← (if first <? j then array_qsort fuel d first j else Ok d);
      if i <? last then array_qsort fuel d i last else Ok d
  end.

Definition Sort_Array (c : netsnmp_container A) : M (netsnmp_container A * Z) :=
  let t := tab c in
  if negb (Z.land (t_flags t) CONTAINER_KEY_UNSORTED =? 0) then Ok (c, 0)
  else if dirty t then
    d ← (if 1 <? count t then array_qsort (Z.to_nat (count t)) (data t) 0 (s32 (count t - 1))
         else Ok (data t));
    Ok (Container (Table (max_size t) (count t) (t_flags t) false d) (u32 (sync c + 1)), 1)
  else Ok (c, 1).

Definition sort_if_dirty (c : netsnmp_container A) : M (netsnmp_container A) :=
  if dirty (tab c) then '(c, _) ← Sort_Array c; Ok c else Ok c.

(** ** Searching *)

(** The loop of [binary_search]; returns [first], [middle] and [result]. *)
Fixpoint search_loop (fuel : nat) (d : list (option A)) (val : A) (first len middle result : Z)
    : M (Z * Z * Z) :=
  if len <=? 0 then Ok (first, middle, result)
  else
    match fuel with
    | O => UB
    | S fuel =>
        let half := Z.shiftr len 1 in
        let middle := first + half in
        x ← slot d middle;
        result ← on_ptrs compare x (Some val);
        if result <? 0 then search_loop fuel d val (middle + 1) (len - half - 1) middle result
        else if result =? 0 then Ok (middle, middle, result)
        else search_loop fuel d val first half middle result
    end.

Definition binary_search (val : A) (c : netsnmp_container A) (exact : bool)
    : M (netsnmp_container A * Z) :=
  let len := count (tab c) in
  if len =? 0 then Ok (c, -1)
  else
    c ← sort_if_dirty c;
    let t := tab c in
    '(first, middle, result) ← search_loop (Z.to_nat len) (data t) val 0 len 0 0;
    if count t <=? first then Ok (c, -1)
    else
      result ← (if negb (first =? middle)
                then x ← slot (data t) first; on_ptrs compare x (Some val)
                else Ok result);
      if result =? 0 then
        if exact then Ok (c, s32 first)
        else if first + 1 =? count t then Ok (c, -1) else Ok (c, s32 (first + 1))
      else if exact then Ok (c, -1) else Ok (c, s32 first).

(** ** Operations *)

(** [SNMP_MALLOC_TYPEDEF] clears the memory. *)
Definition netsnmp_binary_array_initialize : binary_array_table A := Table 0 0 0 false [].

(** Returns the container and the result. *)
Definition netsnmp_binary_array_options_set (c : netsnmp_container A) (set : bool) (flags : Z)
    : netsnmp_container A * Z :=
  let t := tab c in
  if set then (Container (Table (max_size t) (count t) flags (dirty t) (data t)) (sync c), s32 flags)
  else (c, if Z.land (t_flags t) flags =? flags then 1 else 0).

Definition netsnmp_binary_array_count (c : netsnmp_container A) : Z := count (tab c).

Definition netsnmp_binary_array_get (c : netsnmp_container A) (key : option A) (exact : bool)
    : M (netsnmp_container A * option A) :=
  if count (tab c) =? 0 then Ok (c, None)
  else
    c ← sort_if_dirty c;
    match key with
    | None => p ← slot (data (tab c)) 0; Ok (c, p)
    | Some k =>
        '(c, index) ← binary_search k c exact;
        if index =? -1 then Ok (c, None) else p ← slot (data (tab c)) index; Ok (c, p)
    end.

(** [memmove(&data[index], &data[index+1], n * data_size)] *)
Definition shift_down (d : list (option A)) (index n : nat) : list (option A) :=
  take index d ++ take n (drop (S index) d) ++ drop (index + n) d.

(** Returns the container, the result and [*save]. *)
Definition netsnmp_binary_array_remove (c : netsnmp_container A) (key : A)
    : M (netsnmp_container A * Z * option A) :=
  if count (tab c) =? 0 then Ok (c, 0, None)
  else
    c ← sort_if_dirty c;
    '(c, index) ← binary_search key c true;
    if u32 index =? u32 (-1) then Ok (c, -1, None)
    else
      let t := tab c in
      save ← slot (data t) (u32 index);
      let n := count t - 1 in
      let d := if negb (u32 index =? n)
               then shift_down (data t) (Z.to_nat (u32 index)) (Z.to_nat (n - u32 index))
               else data t in
      Ok (Container (Table (max_size t) n (t_flags t) (dirty t) d) (sync c), 0, save).

(** A function with a state of its own is called for each entry. *)
Fixpoint visit {St : Type} (fe : St → option A → M St) (s : St) (l : list (option A)) : M St :=
  match l with [] => Ok s | p :: l => s ← fe s p; visit fe s l end.

Definition netsnmp_binary_array_for_each {St : Type} (c : netsnmp_container A)
    (fe : St → option A → M St) (context : St) (sort : bool) : M (netsnmp_container A * St) :=
  c ← (if sort then sort_if_dirty c else Ok c);
  s ← visit fe context (take (Z.to_nat (count (tab c))) (data (tab c)));
  Ok (c, s).

Definition netsnmp_binary_array_clear {St : Type} (c : netsnmp_container A)
    (fe : option (St → option A → M St)) (context : St) : M (netsnmp_container A * St) :=
  let t := tab c in
  s ← match fe with
      | Some fe => visit fe context (take (Z.to_nat (count t)) (data t))
      | None => Ok context
      end;
  Ok (Container (Table (max_size t) 0 (t_flags t) false (data t)) (u32 (sync c + 1)), s).

(** A table that is full is copied to one of twice the size; [None] when memory is
    refused. *)
Definition extend (t : binary_array_table A) : M (option (binary_array_table A)) :=
  if max_size t <=? count t then
    let new_max := s32 (2 * max_size t) in
    let new_max := u32 (if new_max =? 0 then 10 else new_max) in
    if calloc_ok new_max SIZEOF_VOIDP then
      if new_max <? max_size t then UB
      else Ok (Some (Table new_max (count t) (t_flags t) (dirty t)
                       (data t ++ replicate (Z.to_nat (new_max - max_size t)) None)))
    else Ok None
  else Ok (Some t).

Definition netsnmp_binary_array_insert (c : netsnmp_container A) (entry : A)
    : M (netsnmp_container A * Z) :=
  '(c, found) ← (if Z.land (t_flags (tab c)) CONTAINER_KEY_ALLOW_DUPLICATES =? 0
                 then netsnmp_binary_array_get c (Some entry) true
                 else Ok (c, None));
  match found with
  | Some _ => Ok (c, -1)
  | None =>
      r ← extend (tab c);
      match r with
      | None => Ok (c, -1)
      | Some t =>
          d ← put_slot (data t) (count t) (Some entry);
          Ok (Container (Table (max_size t) (u32 (count t + 1)) (t_flags t) true d) (sync c), 0)
      end
  end.

(** ** Subsets *)

Fixpoint start_loop (fuel : nat) (d : list (option A)) (val : A) (first len : Z) : M Z :=
  if len <=? 0 then Ok first
  else
    match fuel with
    | O => UB
    | S fuel =>
        let half := Z.shiftr len 1 in
        let middle := first + half in
        x ← slot d middle;
        result ← on_ptrs ncompare x (Some val);
        if result <? 0 then start_loop fuel d val (middle + 1) (len - half - 1)
        else start_loop fuel d val first half
    end.

Definition binary_search_for_start (val : A) (c : netsnmp_container A)
    : M (netsnmp_container A * Z) :=
  let len := count (tab c) in
  if len =? 0 then Ok (c, -1)
  else
    c ← sort_if_dirty c;
    let t := tab c in
    first ← start_loop (Z.to_nat len) (data t) val 0 len;
    if count t <=? first then Ok (c, -1)
    else
      x ← slot (data t) first;
      r ← on_ptrs ncompare x (Some val);
      if negb (r =? 0) then Ok (c, -1) else Ok (c, s32 first).

(** [end] after the loop over the entries from [i] on. *)
Fixpoint end_loop (n : nat) (d : list (option A)) (key : A) (i fin : Z) : M Z :=
  match n with
  | O => Ok fin
  | S n =>
      x ← slot d i;
      r ← on_ptrs ncompare x (Some key);
      if negb (r =? 0) then Ok fin else end_loop n d key (i + 1) (fin + 1)
  end.

(** [None] is [NULL]. *)
Definition netsnmp_binary_array_get_subset (c : netsnmp_container A) (key : option A)
    : M (netsnmp_container A * option (list (option A))) :=
  match key with
  | None => Ok (c, None)
  | Some k =>
      if count (tab c) =? 0 then Ok (c, None)
      else
        c ← sort_if_dirty c;
        '(c, start) ← binary_search_for_start k c;
        if start =? -1 then Ok (c, None)
        else
          let t := tab c in
          fin ← end_loop (Z.to_nat (count t - (start + 1))) (data t) k (start + 1) start;
          let len := s32 (fin - start + 1) in
          if malloc_ok (u32 (len * SIZEOF_VOIDP))
          then Ok (c, Some (take (Z.to_nat len) (drop (Z.to_nat start) (data t))))
          else Ok (c, None)
  end.

(** The array with its size. *)
Definition _ba_get_subset (c : netsnmp_container A) (key : option A)
    : M (netsnmp_container A * option (list (option A))) :=
  '(c, rtn) ← netsnmp_binary_array_get_subset c key;
  match rtn with
  | None => Ok (c, None)
  | Some [] => Ok (c, None)
  | Some l => if malloc_ok SIZEOF_VOID_ARRAY then Ok (c, Some l) else Ok (c, None)
  end.

(** ** Iterator *)

Definition _ba_iterator_position (c : netsnmp_container A) (it : binary_array_iterator) (pos : Z)
    : M (option A) :=
  if negb (sync c =? it_sync it) then Ok None
  else if count (tab c) =? 0 then Ok None
  else if count (tab c) <=? pos then Ok None
  else slot (data (tab c)) pos.

Definition _ba_iterator_curr (c : netsnmp_container A) (it : binary_array_iterator) : M (option A) :=
  _ba_iterator_position c it (it_pos it).

Definition _ba_iterator_first (c : netsnmp_container A) (it : binary_array_iterator) : M (option A) :=
  _ba_iterator_position c it 0.

Definition _ba_iterator_next (c : netsnmp_container A) (it : binary_array_iterator)
    : M (binary_array_iterator * option A) :=
  let it := Iterator (it_sync it) (u32 (it_pos it + 1)) in
  p ← _ba_iterator_position c it (it_pos it); Ok (it, p).

Definition _ba_iterator_last (c : netsnmp_container A) (it : binary_array_iterator) : M (option A) :=
  _ba_iterator_position c it (u32 (count (tab c) - 1)).

Definition _ba_iterator_reset (c : netsnmp_container A)
    : M (netsnmp_container A * binary_array_iterator) :=
  c ← sort_if_dirty c; Ok (c, Iterator (sync c) 0).
End Array.
