(* ===== verification/ArraySort.v ===== *)
(** * The quicksort of snmplib/container_binary_array.c

    [Comparison] states what the array expects of a comparison routine: a total
    preorder.  Under it array_qsort terminates after at most one call per entry and leaves a
    sorted permutation, whatever the entries and however many are equal; nothing
    outside the range is touched. *)

From S2P Require Import Prelude BinaryArray.
From stdpp Require Import prelude numbers list sorting.
From Stdlib Require Import ZArith Lia.
Open Scope Z_scope.

(** On valid entries the routine decides a total preorder. *)
Class Comparison {A} (compare : A → A → M Z) (valid : A → Prop) (order : A → A → Z) := {
  compare_order x y : valid x → valid y → compare x y = Ok (order x y);
  order_refl x : order x x = 0;
  order_flip x y : order x y < 0 ↔ 0 < order y x;
  order_trans x y z : order x y ≤ 0 → order y z ≤ 0 → order x z ≤ 0;
}.

(** The pointers to a list of entries. *)
Notation ptrs l := (Some <$> l).

(** A list either satisfies a predicate or has a first (a last) element that does not. *)
Lemma first_not {A} (P : A → Prop) `{∀ x, Decision (P x)} l :
  Forall P l ∨ ∃ l1 x l2, l = l1 ++ x :: l2 ∧ Forall P l1 ∧ ¬ P x.
Proof.
  induction l as [|y l [IH|(l1 & x & l2 & -> & H1 & Hx)]]; [by left| |].
  - destruct (decide (P y)); [left; by constructor|]. right. by exists [], y, l.
  - destruct (decide (P y)); right; [exists (y :: l1), x, l2|exists [], y, (l1 ++ x :: l2)];
      (split; [done|]); [|done]. split; [by constructor|done].
Qed.

Lemma last_not {A} (P : A → Prop) `{∀ x, Decision (P x)} l :
  Forall P l ∨ ∃ l1 x l2, l = l1 ++ x :: l2 ∧ Forall P l2 ∧ ¬ P x.
Proof.
  destruct (first_not P (reverse l)) as [Hl|(l1 & x & l2 & E & Hl & Hx)].
  - left. by rewrite Forall_reverse in Hl.
  - right. exists (reverse l2), x, (reverse l1). split_and!; [|by rewrite Forall_reverse|done].
    rewrite <- (reverse_involutive l), E, reverse_app, reverse_cons, <- app_assoc. done.
Qed.

Lemma nil_or_last {A} (l : list A) : l = [] ∨ ∃ w z, l = w ++ [z].
Proof. induction l as [|z w _] using rev_ind; [by left|right; by exists w, z]. Qed.

Section Slots.
Context {A : Type}.
Implicit Types d : list (option A).

Lemma slot_app d p d' i : i = Z.of_nat (length d) → slot (d ++ p :: d') i = Ok p.
Proof.
  intros ->. unfold slot. rewrite (proj2 (Z.ltb_ge _ _)) by lia. rewrite Nat2Z.id.
  by rewrite list_lookup_middle.
Qed.

Lemma put_slot_app d p q d' i :
  i = Z.of_nat (length d) → put_slot (d ++ p :: d') i q = Ok (d ++ q :: d').
Proof.
  intros Hi. unfold put_slot. rewrite slot_app by done. simpl. subst i. rewrite Nat2Z.id.
  by rewrite insert_app_r_alt, Nat.sub_diag.
Qed.

Lemma slot_ptrs l d i x :
  0 ≤ i → l !! Z.to_nat i = Some x → slot (ptrs l ++ d) i = Ok (Some x).
Proof.
  intros Hi Hx. unfold slot. rewrite (proj2 (Z.ltb_ge _ _)) by lia.
  rewrite lookup_app, list_lookup_fmap, Hx. done.
Qed.
End Slots.

(** Positions of the parts of a list. *)
Ltac positions :=
  repeat first [progress rewrite ?length_app, ?length_fmap in * | progress cbn [length] in *]; lia.

(** The same list of pointers, bracketed differently. *)
Ltac same_data :=
  repeat first [rewrite fmap_app | rewrite fmap_cons | rewrite <- app_assoc
               | progress cbn [app fmap list_fmap]]; done.

Section Sort.
Context {A : Type} {compare : A → A → M Z} {valid : A → Prop} {order : A → A → Z}.
Context `{!Comparison compare valid order}.

Definition ole (x y : A) : Prop := order x y ≤ 0.
Definition olt (x y : A) : Prop := order x y < 0.

#[global] Instance ole_dec x y : Decision (ole x y).
Proof. unfold ole. apply _. Defined.
#[global] Instance olt_dec x y : Decision (olt x y).
Proof. unfold olt. apply _. Defined.

Lemma not_olt x y : ¬ olt x y ↔ ole y x.
Proof. unfold olt, ole. pose proof (order_flip x y). lia. Qed.

Lemma not_ole x y : ¬ ole x y ↔ olt y x.
Proof. unfold olt, ole. pose proof (order_flip y x). lia. Qed.

Lemma olt_ole x y : olt x y → ole x y.
Proof. unfold olt, ole. lia. Qed.

#[global] Instance ole_trans : Transitive ole.
Proof. intros x y z. apply order_trans. Qed.

Lemma ole_olt_trans x y z : ole x y → olt y z → olt x z.
Proof.
  intros H1 H2. destruct (decide (olt x z)) as [|H3]; [done|]. apply not_olt in H3.
  exfalso. apply (not_ole z y); [done|]. by trans x.
Qed.

Lemma olt_ole_trans x y z : olt x y → ole y z → olt x z.
Proof.
  intros H1 H2. destruct (decide (olt x z)) as [|H3]; [done|]. apply not_olt in H3.
  exfalso. apply (not_ole y x); [done|]. by trans z.
Qed.

Notation up := (scan_up compare).
Notation down := (scan_down compare).

Lemma scan_up_spec fuel d m x d' last mid :
  Forall valid m → valid x → valid mid → Forall (λ y, olt y mid) m → ole mid x →
  Z.of_nat (length d + length m) ≤ last → (length m < fuel)%nat →
  up fuel (d ++ ptrs m ++ Some x :: d') last (Some mid) (Z.of_nat (length d))
  = Ok (Z.of_nat (length d + length m)).
Proof.
  revert fuel d. induction m as [|y m IH]; intros [|fuel] d Hm Hx Hmid Hlt Hle Hl Hf;
    try (simpl in *; lia); cbn [scan_up fmap list_fmap app].
  - rewrite slot_app by done. cbn [mbind M_bind on_ptrs]. rewrite compare_order by done.
    cbn [mbind M_bind]. apply not_olt in Hle. unfold olt in Hle. rewrite (proj2 (Z.ltb_ge _ _)) by lia.
    cbn [andb length]. by rewrite Nat.add_0_r.
  - apply Forall_cons in Hm as [Hy Hm]. apply Forall_cons in Hlt as [Hylt Hlt].
    rewrite slot_app by done. cbn [mbind M_bind on_ptrs]. rewrite compare_order by done.
    cbn [mbind M_bind]. unfold olt in Hylt. rewrite (proj2 (Z.ltb_lt _ _)) by lia.
    cbn [length] in *. rewrite (proj2 (Z.ltb_lt _ _)) by lia. cbn [andb].
    specialize (IH fuel (d ++ [Some y])). rewrite length_app, <- app_assoc in IH. cbn [length app] in IH.
    replace (Z.of_nat (length d) + 1) with (Z.of_nat (length d + 1)) by lia.
    rewrite IH by (done || lia). f_equal. lia.
Qed.

Lemma scan_down_spec fuel d m x d' first mid j :
  Forall valid m → valid x → valid mid → Forall (λ y, olt mid y) m → ole x mid →
  first ≤ Z.of_nat (length d) → (length m < fuel)%nat → j = Z.of_nat (length d + length m) →
  down fuel (d ++ Some x :: ptrs m ++ d') first (Some mid) j = Ok (Z.of_nat (length d)).
Proof.
  revert fuel d' j. induction m as [|y m IH] using rev_ind;
    intros [|fuel] d' j Hm Hx Hmid Hlt Hle Hl Hf ->; try (simpl in *; lia);
    cbn [scan_down].
  - cbn [fmap list_fmap app]. rewrite slot_app by (cbn; lia). cbn [mbind M_bind on_ptrs].
    rewrite compare_order by done.
    cbn [mbind M_bind]. apply not_olt in Hle. unfold olt in Hle. rewrite (proj2 (Z.ltb_ge _ _)) by lia.
    cbn [andb length]. by rewrite Nat.add_0_r.
  - apply Forall_app in Hm as [Hm Hy]. apply Forall_app in Hlt as [Hlt Hylt].
    rewrite Forall_singleton in Hy, Hylt. rewrite fmap_app. cbn [fmap list_fmap].
    rewrite <- app_assoc. cbn [app].
    replace (d ++ Some x :: ptrs m ++ Some y :: d') with ((d ++ Some x :: ptrs m) ++ Some y :: d') at 1
      by (rewrite <- app_assoc; done).
    rewrite slot_app by positions. cbn [mbind M_bind on_ptrs]. rewrite compare_order by done.
    cbn [mbind M_bind]. unfold olt in Hylt. rewrite (proj2 (Z.ltb_lt _ _)) by lia.
    rewrite length_app in *. cbn [length] in *. rewrite (proj2 (Z.ltb_lt _ _)) by lia. cbn [andb].
    apply IH; done || lia.
Qed.

Lemma scan_up_at fuel data d m x d' last mid i :
  data = d ++ ptrs m ++ Some x :: d' → i = Z.of_nat (length d) →
  Forall valid m → valid x → valid mid → Forall (λ y, olt y mid) m → ole mid x →
  Z.of_nat (length d + length m) ≤ last → (length m < fuel)%nat →
  up fuel data last (Some mid) i = Ok (Z.of_nat (length d + length m)).
Proof. intros -> ->. apply scan_up_spec. Qed.

Lemma scan_down_at fuel data d m x d' first mid j :
  data = d ++ Some x :: ptrs m ++ d' → j = Z.of_nat (length d + length m) →
  Forall valid m → valid x → valid mid → Forall (λ y, olt mid y) m → ole x mid →
  first ≤ Z.of_nat (length d) → (length m < fuel)%nat →
  down fuel data first (Some mid) j = Ok (Z.of_nat (length d)).
Proof. intros -> ->. intros. by eapply scan_down_spec. Qed.

(** The state of the loop: [a] and [b] are done, [m] is left. *)
Definition halves (mid : A) (a m b : list A) : Prop :=
  Forall valid (a ++ m ++ b) ∧ Forall (λ y, ole y mid) a ∧ Forall (λ y, ole mid y) b ∧
  (a = [] ∧ b = [] ∧ mid ∈ m ∨ a ≠ [] ∧ b ≠ []).

(** The result: [c] is between the halves, and both halves are smaller than the whole. *)
Definition parted (mid : A) (l : list A) (a c b : list A) : Prop :=
  a ++ c ++ b ≡ₚ l ∧ Forall (λ y, ole y mid) a ∧ Forall (λ y, ole y mid ∧ ole mid y) c ∧
  Forall (λ y, ole mid y) b ∧ (length a < length l)%nat ∧ (length b < length l)%nat ∧
  (length c ≤ 1)%nat.

(** How far the first scan goes: into [m] or just past it. *)
Lemma up_cases mid a m b :
  halves mid a m b →
  (∃ x b', b = x :: b' ∧ ole mid x ∧ Forall (λ y, olt y mid) m) ∨
  (∃ u x v, m = u ++ x :: v ∧ Forall (λ y, olt y mid) u ∧ ole mid x).
Proof.
  intros (_ & _ & Hb & Hs). destruct (first_not (λ y, olt y mid) m) as [Hm|(u & x & v & -> & Hu & Hx)].
  - left. destruct b as [|x b].
    + destruct Hs as [(_ & _ & Hin)|[_ ?]]; [|done]. rewrite Forall_forall in Hm.
      apply Hm in Hin. unfold olt in Hin. rewrite order_refl in Hin. lia.
    + apply Forall_cons in Hb as [Hx Hb]. by exists x, b.
  - right. apply not_olt in Hx. by exists u, x, v.
Qed.

(** How far the second goes, from the end of [m = u ++ x :: v]. *)
Lemma down_cases mid a u x v b :
  halves mid a (u ++ x :: v) b → Forall (λ y, olt y mid) u → ole mid x →
  (∃ w z, a ++ u = w ++ [z] ∧ ole z mid ∧ Forall (λ y, olt mid y) (x :: v)) ∨
  (∃ v1 y v2, x :: v = v1 ++ y :: v2 ∧ ole y mid ∧ Forall (λ y, olt mid y) v2).
Proof.
  intros (_ & Ha & _ & Hs) Hu Hx.
  destruct (last_not (λ y, olt mid y) (x :: v)) as [Hv|(v1 & y & v2 & E & Hv & Hy)].
  - left. destruct (nil_or_last (a ++ u)) as [Hn|(w & z & E)].
    + apply app_eq_nil in Hn as [-> ->]. destruct Hs as [(_ & _ & Hin)|[? _]]; [|done].
      simpl in Hin. rewrite Forall_forall in Hv. apply Hv in Hin. unfold olt in Hin.
      rewrite order_refl in Hin. lia.
    + exists w, z. split_and!; [done| |done].
      assert (Forall (λ y, ole y mid) (a ++ u)) as Hau.
      { apply Forall_app. split; [done|]. eapply Forall_impl; [done|]. intros ?. apply olt_ole. }
      rewrite E in Hau. apply Forall_app in Hau as [_ Hz]. by rewrite Forall_singleton in Hz.
  - right. apply not_olt in Hy. by exists v1, y, v2.
Qed.

Lemma parted_all mid a w z x b :
  halves mid a (w ++ [z]) (x :: b) → Forall (λ y, olt y mid) (w ++ [z]) →
  parted mid (a ++ (w ++ [z]) ++ x :: b) (a ++ w ++ [z]) [] (x :: b).
Proof.
  intros (_ & Ha & Hb & _) Hm. unfold parted. rewrite <- !app_assoc. cbn [app].
  split_and!; [done| |done|done|positions..].
  rewrite !Forall_app. rewrite Forall_app in Hm. destruct Hm as [Hw Hz].
  split_and!; [done|..]; eapply Forall_impl; try done; intros ?; apply olt_ole.
Qed.

Lemma parted_rest mid a u x v b w z :
  halves mid a (u ++ x :: v) b → Forall (λ y, olt y mid) u → Forall (λ y, olt mid y) (x :: v) →
  a ++ u = w ++ [z] →
  parted mid (a ++ (u ++ x :: v) ++ b) (a ++ u) [] (x :: v ++ b).
Proof.
  intros (_ & Ha & Hb & _) Hu Hv E. unfold parted. rewrite <- !app_assoc. cbn [app].
  assert (length a + length u = S (length w))%nat as Hl.
  { rewrite <- length_app, E, length_app. simpl. lia. }
  rewrite Forall_cons in Hv. destruct Hv as [Hx Hv].
  split_and!; [done| |done| |positions..].
  - apply Forall_app. split; [done|]. eapply Forall_impl; [done|]. intros ?. apply olt_ole.
  - apply Forall_cons. split; [by apply olt_ole|]. apply Forall_app. split; [|done].
    eapply Forall_impl; [done|]. intros ?. apply olt_ole.
Qed.

Lemma parted_one mid a u y v b :
  halves mid a (u ++ y :: v) b → Forall (λ y, olt y mid) u → Forall (λ y, olt mid y) v →
  ole y mid → ole mid y →
  parted mid (a ++ (u ++ y :: v) ++ b) (a ++ u) [y] (v ++ b).
Proof.
  intros (_ & Ha & Hb & _) Hu Hv H1 H2. unfold parted. rewrite <- !app_assoc. cbn [app].
  split_and!; [done| |by constructor| |positions..].
  - apply Forall_app. split; [done|]. eapply Forall_impl; [done|]. intros ?. apply olt_ole.
  - apply Forall_app. split; [|done]. eapply Forall_impl; [done|]. intros ?. apply olt_ole.
Qed.

(** After an exchange the loop is again in a good state. *)
Lemma halves_swap mid a u x v y w b :
  halves mid a (u ++ x :: v ++ y :: w) b → Forall (λ y, olt y mid) u → Forall (λ y, olt mid y) w →
  ole y mid → ole mid x →
  halves mid (a ++ u ++ [y]) v (x :: w ++ b) ∧
  (a ++ u ++ [y]) ++ v ++ x :: w ++ b ≡ₚ a ++ (u ++ x :: v ++ y :: w) ++ b.
Proof.
  intros (Hv & Ha & Hb & _) Hu Hw H1 H2.
  assert ((a ++ u ++ [y]) ++ v ++ x :: w ++ b ≡ₚ a ++ (u ++ x :: v ++ y :: w) ++ b) as Hp.
  { rewrite <- !app_assoc. cbn [app]. rewrite <- !app_assoc. cbn [app]. do 2 apply Permutation_app_head.
    rewrite <- !Permutation_middle. constructor. }
  split; [|done]. split; [|split_and!].
  - by rewrite Hp.
  - rewrite !Forall_app, Forall_singleton. split_and!; [done| |done].
    eapply Forall_impl; [done|]. intros ?. apply olt_ole.
  - apply Forall_cons. split; [done|]. apply Forall_app. split; [|done].
    eapply Forall_impl; [done|]. intros ?. apply olt_ole.
  - right. split; [by intros [_ [_ [=]]%app_eq_nil]%app_eq_nil|done].
Qed.

Lemma parted_perm mid l l' a c b : parted mid l a c b → l ≡ₚ l' → parted mid l' a c b.
Proof.
  intros (Hp & Ha & Hc & Hb & La & Lb & Lc) E. unfold parted. rewrite <- E. by split_and!.
Qed.

Lemma parted_done mid a b :
  halves mid a [] b → parted mid (a ++ [] ++ b) a [] b.
Proof.
  intros (_ & Ha & Hb & Hs). destruct Hs as [(_ & _ & Hin)|[H1 H2]]; [by apply elem_of_nil in Hin|].
  destruct a, b; try done. unfold parted. split_and!; [done|done|constructor|done|positions..].
Qed.

Lemma split_loop_spec fuel d d' mid a m b :
  halves mid a m b → valid mid → m ≠ [] → (length m ≤ fuel)%nat →
  ∃ a' c b', parted mid (a ++ m ++ b) a' c b' ∧
    split_loop compare fuel (d ++ ptrs (a ++ m ++ b) ++ d') (Z.of_nat (length d))
      (Z.of_nat (length d + length (a ++ m ++ b)) - 1) (Some mid)
      (Z.of_nat (length d + length a)) (Z.of_nat (length d + length a + length m) - 1)
    = Ok (d ++ ptrs (a' ++ c ++ b') ++ d', Z.of_nat (length d + length a' + length c),
          Z.of_nat (length d + length a') - 1).
Proof.
  revert a m b. induction fuel as [|fuel IH]; intros a m b Hh Hmid Hne Hf.
  { destruct m; simpl in *; [done|lia]. }
  cbn [split_loop]. pose proof Hh as (Hv & Ha & Hb & Hs).
  rewrite !Forall_app in Hv. destruct Hv as (Va & Vm & Vb).
  destruct (up_cases mid a m b Hh) as [(x & b' & -> & Hx & Hm)|(u & x & v & -> & Hu & Hx)].
  - (* the first scan runs over all of [m] *)
    apply Forall_cons in Vb as [Vx Vb]. destruct (nil_or_last m) as [->|(w & z & ->)]; [done|].
    exists (a ++ w ++ [z]), [], (x :: b'). split; [by apply parted_all|].
    rewrite (scan_up_at _ _ (d ++ ptrs a) (w ++ [z]) x (ptrs b' ++ d'))
      by (done || same_data || positions).
    rewrite Forall_app, Forall_singleton in Vm, Hm. destruct Vm as [Vw Vz], Hm as [_ Hz].
    cbn [mbind M_bind].
    rewrite (scan_down_at _ _ (d ++ ptrs (a ++ w)) [] z (Some x :: ptrs b' ++ d'))
      by (done || same_data || positions
          || by apply olt_ole).
    cbn [mbind M_bind]. rewrite (proj2 (Z.ltb_ge _ _)) by positions.
    rewrite (proj2 (Z.eqb_neq _ _)) by positions. cbn [app]. rewrite <- !app_assoc. f_equal.
    f_equal; [f_equal|]; positions.
  - rewrite Forall_app, Forall_cons in Vm. destruct Vm as (Vu & Vx & Vv).
    rewrite (scan_up_at _ _ (d ++ ptrs a) u x (ptrs (v ++ b) ++ d'))
      by (done || same_data || positions).
    cbn [mbind M_bind].
    destruct (down_cases mid a u x v b Hh Hu Hx) as [(w & z & E & Hz & Hv)|(v1 & y & v2 & E & Hy & Hv)].
    + (* the second scan runs over all of [x :: v] *)
      exists (a ++ u), [], (x :: v ++ b). split; [by apply (parted_rest mid a u x v b w z)|].
      assert (length a + length u = S (length w))%nat as Hl.
      { rewrite <- length_app, E, length_app. simpl. lia. }
      assert (valid z) as Vz.
      { assert (Forall valid (a ++ u)) as Vau by (by apply Forall_app). rewrite E in Vau.
        apply Forall_app in Vau as [_ Vz]. by rewrite Forall_singleton in Vz. }
      assert (a ++ (u ++ x :: v) ++ b = w ++ z :: x :: v ++ b) as Ed.
      { rewrite <- app_assoc, app_assoc, E, <- app_assoc. done. }
      rewrite (scan_down_at _ _ (d ++ ptrs w) (x :: v) z (ptrs b ++ d'))
        by (done || by constructor || (rewrite Ed; same_data) || positions).
      cbn [mbind M_bind]. rewrite (proj2 (Z.ltb_ge _ _)) by positions.
      rewrite (proj2 (Z.eqb_neq _ _)) by positions.
      f_equal. f_equal; [f_equal; [same_data|]|]; positions.
    + destruct v1 as [|x' v1]; injection E as -> ->.
      * (* both stop at [y] *)
        exists (a ++ u), [y], (v2 ++ b). split; [by apply (parted_one mid a u y v2 b)|].
        rewrite (scan_down_at _ _ (d ++ ptrs (a ++ u)) v2 y (ptrs b ++ d'))
          by (done || same_data || positions).
        cbn [mbind M_bind]. rewrite (proj2 (Z.ltb_ge _ _)) by positions.
        rewrite (proj2 (Z.eqb_eq _ _)) by positions.
        f_equal. f_equal; [f_equal; [same_data|]|]; positions.
      * (* [x'] and [y] are exchanged *)
        rewrite Forall_app, Forall_cons in Vv. destruct Vv as (Vv1 & Vy & Vv2).
        rewrite (scan_down_at _ _ (d ++ ptrs (a ++ u ++ x' :: v1)) v2 y (ptrs b ++ d'))
          by (done || same_data || positions).
        cbn [mbind M_bind]. rewrite (proj2 (Z.ltb_lt _ _)) by positions.
        destruct (halves_swap mid a u x' v1 y v2 b) as [Hh' Hp]; [done..|].
        assert (∀ s t, (λ s t, d ++ ptrs (a ++ (u ++ s :: v1 ++ t :: v2) ++ b) ++ d') s t
          = (d ++ ptrs (a ++ u)) ++ Some s :: ptrs (v1 ++ t :: v2 ++ b) ++ d') as E1
          by (intros; same_data).
        assert (∀ s t, (λ s t, d ++ ptrs (a ++ (u ++ s :: v1 ++ t :: v2) ++ b) ++ d') s t
          = (d ++ ptrs (a ++ u ++ s :: v1)) ++ Some t :: ptrs (v2 ++ b) ++ d') as E2
          by (intros; same_data).
        set (i := Z.of_nat (length (d ++ ptrs a) + length u)).
        set (j := Z.of_nat (length (d ++ ptrs (a ++ u ++ x' :: v1)))).
        assert (i = Z.of_nat (length (d ++ ptrs (a ++ u)))) as Hi by (unfold i; positions).
        assert (∀ s, j = Z.of_nat (length (d ++ ptrs (a ++ u ++ s :: v1)))) as Hj
          by (unfold j; intros; positions).
        set (f := λ s t, d ++ ptrs (a ++ (u ++ s :: v1 ++ t :: v2) ++ b) ++ d') in *.
        assert (slot (f x' y) i = Ok (Some x')) as S1 by (rewrite E1; by apply slot_app).
        assert (slot (f x' y) j = Ok (Some y)) as S2 by (rewrite E2; by apply slot_app).
        assert (put_slot (f x' y) i (Some y) = Ok (f y y)) as S3 by (rewrite !E1; by apply put_slot_app).
        assert (put_slot (f y y) j (Some x') = Ok (f y x')) as S4 by (rewrite !E2; by apply put_slot_app).
        unfold f in *. rewrite S1. cbn [mbind M_bind]. rewrite S2. cbn [mbind M_bind].
        rewrite S3. cbn [mbind M_bind]. rewrite S4. cbn [mbind M_bind].
        assert (a ++ (u ++ y :: v1 ++ x' :: v2) ++ b = (a ++ u ++ [y]) ++ v1 ++ x' :: v2 ++ b) as ->
          by (rewrite <- !app_assoc; cbn [app]; by rewrite <- !app_assoc).
        destruct v1 as [|s v1].
        { rewrite (proj2 (Z.leb_gt _ _)) by (unfold i, j; positions).
          exists (a ++ u ++ [y]), [], (x' :: v2 ++ b).
          split; [by apply (parted_perm _ _ _ _ _ _ (parted_done _ _ _ Hh'))|].
          f_equal. f_equal; [f_equal|]; unfold i, j; positions. }
        rewrite (proj2 (Z.leb_le _ _)) by (unfold i, j; positions).
        destruct (IH (a ++ u ++ [y]) (s :: v1) (x' :: v2 ++ b)) as (a' & c & b' & Hpt & Hr);
          [done..|positions|].
        exists a', c, b'. split; [by apply (parted_perm _ _ _ _ _ _ Hpt)|]. rewrite <- Hr.
        f_equal; unfold i, j; positions.
Qed.

Lemma mid_in_range (n m : nat) :
  (0 < m)%nat → Z.of_nat (n + m) < 2 ^ 30 →
  ∃ k, (k < m)%nat ∧
    Z.quot (s32 (Z.of_nat n + (Z.of_nat (n + m) - 1))) 2 = Z.of_nat (n + k).
Proof.
  intros Hm Hb. rewrite s32_id by lia. rewrite Z.quot_div_nonneg by lia.
  exists (Z.to_nat ((Z.of_nat n + (Z.of_nat (n + m) - 1)) / 2) - n)%nat.
  split; Z.div_mod_to_equations; lia.
Qed.

Lemma sorted_short l : (length l ≤ 1)%nat → StronglySorted ole l.
Proof. destruct l as [|x [|y l]]; intros H; simpl in *; [..|lia]; repeat constructor. Qed.

(** Sorted halves around [mid] make up a sorted whole. *)
Lemma parted_sorted mid l a c b a' b' :
  parted mid l a c b → a' ≡ₚ a → b' ≡ₚ b → StronglySorted ole a' → StronglySorted ole b' →
  a' ++ c ++ b' ≡ₚ l ∧ StronglySorted ole (a' ++ c ++ b').
Proof.
  intros (Hp & Ha & Hc & Hb & _ & _ & Lc) Ea Eb Sa Sb. split; [by rewrite Ea, Eb|].
  rewrite <- Ea in Ha. rewrite <- Eb in Hb. rewrite Forall_forall in Ha, Hb, Hc.
  apply StronglySorted_app_2; [|done|apply StronglySorted_app_2; [|by apply sorted_short|done]].
  - intros x y Hx Hy. trans mid; [by apply Ha|]. apply elem_of_app in Hy as [Hy|Hy]; [|by apply Hb].
    by apply Hc.
  - intros x y Hx Hy. trans mid; [by apply Hc|by apply Hb].
Qed.

(** The calls of [array_qsort] a call makes, itself among them: the function with
    a counter instead of the array as its result. *)
Fixpoint qsort_calls (fuel : nat) (d : list (option A)) (first last : Z) : M nat :=
  match fuel with
  | O => UB
  | S fuel =>
      mid ← slot d (Z.quot (s32 (first + last)) 2);
      '(d, i, j) ← split_loop compare (Z.to_nat (last - first + 1)) d first last mid first last;
      m ← (if first <? j then qsort_calls fuel d first j else Ok 0%nat);
      d ← (if first <? j then array_qsort compare fuel d first j else Ok d);
      n ← (if i <? last then qsort_calls fuel d i last else Ok 0%nat);
      Ok (S (m + n))
  end.

(** What a call with this fuel does on every range that is not longer. *)
Definition sorts (fuel : nat) : Prop := ∀ d d' l,
  Forall valid l → l ≠ [] → (length l ≤ fuel)%nat → Z.of_nat (length d + length l) < 2 ^ 30 →
  ∃ l' n, array_qsort compare fuel (d ++ ptrs l ++ d') (Z.of_nat (length d))
      (Z.of_nat (length d + length l) - 1) = Ok (d ++ ptrs l' ++ d') ∧
    l' ≡ₚ l ∧ StronglySorted ole l' ∧
    qsort_calls fuel (d ++ ptrs l ++ d') (Z.of_nat (length d))
      (Z.of_nat (length d + length l) - 1) = Ok n ∧ (n ≤ Nat.max 1 (length l - 1))%nat.

(** A recursive call is left out for a range of at most one entry. *)
Lemma sort_range fuel d d' l data first last :
  sorts fuel → data = d ++ ptrs l ++ d' → first = Z.of_nat (length d) →
  last = Z.of_nat (length d + length l) - 1 →
  Forall valid l → (length l ≤ fuel)%nat → Z.of_nat (length d + length l) < 2 ^ 30 →
  ∃ l' n, (if first <? last then array_qsort compare fuel data first last else Ok data)
      = Ok (d ++ ptrs l' ++ d') ∧ l' ≡ₚ l ∧ StronglySorted ole l' ∧
    (if first <? last then qsort_calls fuel data first last else Ok 0%nat) = Ok n ∧
    (n ≤ length l - 1)%nat.
Proof.
  intros IH -> -> -> Hv Hf Hb. destruct (Z.ltb_spec (Z.of_nat (length d)) (Z.of_nat (length d + length l) - 1)).
  - destruct (IH d d' l) as (l' & n & ? & ? & ? & ? & ?); try done; [destruct l; simpl in *; [lia|done]|].
    exists l', n. split_and!; try done. lia.
  - exists l, 0%nat. split_and!; [done..| |done|lia]. apply sorted_short. lia.
Qed.

Lemma array_qsort_spec fuel : sorts fuel.
Proof.
  induction fuel as [|fuel IH]; intros d d' l Hv Hne Hf Hb.
  { destruct l; simpl in *; [done|lia]. }
  cbn [array_qsort qsort_calls]. assert (0 < length l)%nat as Hl by (destruct l; simpl; [done|lia]).
  destruct (mid_in_range (length d) (length l) Hl Hb) as (k & Hk & ->).
  destruct (lookup_lt_is_Some_2 l k Hk) as [mid Hmid].
  assert (slot (d ++ ptrs l ++ d') (Z.of_nat (length d + k)) = Ok (Some mid)) as ->.
  { unfold slot. rewrite (proj2 (Z.ltb_ge _ _)) by lia. rewrite Nat2Z.id.
    rewrite lookup_app_r by lia. replace (length d + k - length d)%nat with k by lia.
    by rewrite lookup_app_l, list_lookup_fmap, Hmid by (rewrite length_fmap; lia). }
  cbn [mbind M_bind]. apply list_elem_of_lookup_2 in Hmid.
  assert (valid mid) as Vmid by (rewrite Forall_forall in Hv; by apply Hv).
  destruct (split_loop_spec (Z.to_nat (Z.of_nat (length d + length l) - 1 - Z.of_nat (length d) + 1))
    d d' mid [] l []) as (a & c & b & Hpt & Hr); [|done|done|lia|].
  { split_and!; [by rewrite app_nil_r|done|done|by left]. }
  rewrite app_nil_r in Hpt, Hr. cbn [app length] in Hpt, Hr. rewrite Nat.add_0_r in Hr.
  rewrite Hr. cbn [mbind M_bind]. pose proof Hpt as (Hp & _ & _ & _ & La & Lb & Lc).
  pose proof (Permutation_length Hp) as Hlen. rewrite !length_app in Hlen.
  rewrite <- Hp, !Forall_app in Hv. destruct Hv as (Va & _ & Vb).
  destruct (sort_range fuel d (ptrs (c ++ b) ++ d') a (d ++ ptrs (a ++ c ++ b) ++ d')
    (Z.of_nat (length d)) (Z.of_nat (length d + length a) - 1)) as (a' & m & -> & Ea & Sa & -> & Hm);
    [done|same_data|done|done|done|lia|lia|].
  cbn [mbind M_bind]. pose proof (Permutation_length Ea) as Hla.
  destruct (sort_range fuel (d ++ ptrs (a' ++ c)) d' b (d ++ ptrs a' ++ ptrs (c ++ b) ++ d')
    (Z.of_nat (length d + length a + length c)) (Z.of_nat (length d + length l) - 1))
    as (b' & n & -> & Eb & Sb & -> & Hn); [done|same_data|positions|positions|done|lia|positions|].
  exists (a' ++ c ++ b'), (S (m + n)). split; [f_equal; same_data|].
  destruct (parted_sorted mid l a c b a' b') as [? ?]; [done..|]. split_and!; [done..|lia].
Qed.
End Sort.

Arguments qsort_calls {A} compare fuel d first last.
Arguments ole {A} order x y.
Arguments olt {A} order x y.
