(* ===== verification/ArraySet.v ===== *)
(** * What the sorted array of snmplib/container_binary_array.c promises

    The abstract state of a container without duplicates is the strictly sorted list
    of its entries.  Each operation of [BinaryArray] is shown to be the operation
    of that sorted set ([s_find], [s_next], [s_insert], [s_remove]), whether or not
    the table happens to be sorted at the time; the theorems put this together for
    sequences of operations, for a walk with find_next and for iterators. *)

From S2P Require Import Prelude BinaryArray ArraySort.
From stdpp Require Import prelude numbers list sorting.
From Stdlib Require Import ZArith Lia.
Open Scope Z_scope.

Section Set_.
Context {A : Type} {compare : A → A → M Z} {valid : A → Prop} {order : A → A → Z}.
Context {Hcompare : Comparison compare valid order}.

Notation le := (ole order).
Notation lt := (olt order).
Notation container := (netsnmp_container A).

(** ** Sorted sets *)

Definition s_find (k : A) (s : list A) : option A := head (filter (λ x, order x k = 0) s).
Definition s_next (k : A) (s : list A) : option A := head (filter (λ x, 0 < order x k) s).
Definition s_insert (k : A) (s : list A) : list A :=
  filter (λ x, order x k < 0) s ++ k :: filter (λ x, 0 < order x k) s.
Definition s_remove (k : A) (s : list A) : list A := filter (λ x, order x k ≠ 0) s.

(** A sorted set around a key. *)
Inductive around (k : A) (s : list A) : list A → option A → list A → Prop :=
| around_hit lo x hi :
    s = lo ++ x :: hi → order x k = 0 → Forall (λ y, lt y k) lo → Forall (λ y, lt k y) hi →
    around k s lo (Some x) hi
| around_miss lo hi :
    s = lo ++ hi → Forall (λ y, lt y k) lo → Forall (λ y, lt k y) hi →
    around k s lo None hi.

Lemma lt_pos x y : lt x y ↔ 0 < order y x.
Proof. apply order_flip. Qed.

Lemma sorted_around k s : StronglySorted lt s → ∃ lo e hi, around k s lo e hi.
Proof.
  induction s as [|x s IH]; intros Hs.
  { exists [], None, []. by constructor. }
  apply StronglySorted_cons in Hs as [Hx Hs].
  destruct (IH Hs) as (lo & e & hi & Har). clear IH.
  assert (∀ y, le k x → lt x y → lt k y) as Hup by (intros y H1 H2; by eapply ole_olt_trans).
  destruct (decide (lt x k)) as [Hlt|Hge].
  - exists (x :: lo), e, hi. destruct Har; subst; constructor; try done; by constructor.
  - apply not_olt in Hge. exists [].
    assert (Forall (λ y, lt k y) s) as Hall by (eapply Forall_impl; [done|]; eauto).
    destruct (decide (order x k = 0)) as [H0|H0]; [exists (Some x), s|exists None, (x :: s)].
    + by constructor.
    + constructor; [done|done|]. constructor; [|done]. apply lt_pos.
      unfold le in Hge. pose proof (order_flip k x). pose proof (order_flip x k). lia.
Qed.

(** What the set operations are in terms of the parts. *)
Lemma around_filters k s lo e hi :
  around k s lo e hi →
  filter (λ x, order x k < 0) s = lo ∧ filter (λ x, order x k = 0) s = option_list e ∧
  filter (λ x, 0 < order x k) s = hi ∧ s_remove k s = lo ++ hi ∧
  s = lo ++ option_list e ++ hi ∧ (∀ x, e = Some x → order x k = 0).
Proof.
  intros H. assert (Forall (λ y, order y k < 0) lo ∧ Forall (λ y, 0 < order y k) hi) as [Hlo Hhi].
  { destruct H; (split; [done|]); eapply Forall_impl; try done; intros y; apply lt_pos. }
  assert (s = lo ++ option_list e ++ hi) as -> by (by destruct H).
  assert (∀ x, e = Some x → order x k = 0) as He by (destruct H; naive_solver).
  unfold s_remove. rewrite !filter_app.
  assert (Forall (λ x, order x k = 0) (option_list e)) as Hel.
  { destruct e; simpl; [constructor; [by apply He|constructor]|constructor]. }
  clear H. split_and!; try done.
  all: repeat match goal with
  | |- context [filter ?P ?l] =>
      first [ rewrite (filter_all P l) by (eapply Forall_impl; [eassumption|]; cbn; intros; lia)
            | rewrite (filter_none P l) by (eapply Forall_impl; [eassumption|]; cbn; intros; lia) ]
  end.
  all: by rewrite ?app_nil_r.
Qed.

(** ** Representation *)

(** A table that holds the set [s], sorted or not. *)
Record holds (c : container) (s : list A) : Prop := Holds {
  holds_sorted : StronglySorted lt s;
  holds_valid : Forall valid s;
  holds_small : Z.of_nat (length s) < 2 ^ 30;
  holds_count : count (tab c) = Z.of_nat (length s);
  holds_flags : Z.land (t_flags (tab c)) CONTAINER_KEY_ALLOW_DUPLICATES = 0 ∧
                Z.land (t_flags (tab c)) CONTAINER_KEY_UNSORTED = 0;
  holds_size : max_size (tab c) = Z.of_nat (length (data (tab c)));
  holds_data : ∃ l d, data (tab c) = ptrs l ++ d ∧ l ≡ₚ s ∧ (dirty (tab c) = false → l = s);
}.

(** The same, sorted. *)
Definition holds_now (c : container) (s : list A) : Prop :=
  holds c s ∧ dirty (tab c) = false ∧ ∃ d, data (tab c) = ptrs s ++ d.

(** A sorted permutation of a strictly sorted list is that list. *)
Lemma sorted_unique l s : StronglySorted le l → StronglySorted lt s → l ≡ₚ s → l = s.
Proof.
  revert s. induction l as [|x l IH]; intros s Hl Hs Hp.
  { apply Permutation_nil_l in Hp. by subst. }
  destruct s as [|y s]; [by apply Permutation_nil_r in Hp|].
  apply StronglySorted_cons in Hl as [Hx Hl]. apply StronglySorted_cons in Hs as [Hy Hs].
  rewrite Forall_forall in Hx, Hy.
  assert (x = y) as ->.
  { assert (x ∈ y :: s) as Hin by (rewrite <- Hp; by left).
    assert (y ∈ x :: l) as Hin' by (rewrite Hp; by left).
    apply elem_of_cons in Hin as [?|Hin]; [done|]. apply elem_of_cons in Hin' as [?|Hin']; [done|].
    apply Hy in Hin. apply Hx in Hin'. exfalso. by apply (not_ole x y). }
  apply Permutation_cons_inv in Hp. f_equal. by apply IH.
Qed.

Lemma sort_holds c s :
  holds c s → ∃ c', sort_if_dirty compare c = Ok c' ∧ holds_now c' s.
Proof.
  intros [Hs Hv Hb Hc Hf Hm (l & d & Hd & Hp & Hdirty)]. unfold sort_if_dirty.
  destruct (dirty (tab c)) eqn:Ed.
  2:{ exists c. split; [done|]. specialize (Hdirty eq_refl) as ->. split; [|eauto].
      constructor; try done. exists s, d. by rewrite Ed. }
  unfold Sort_Array. rewrite (proj2 Hf), Ed. cbn [Z.eqb negb]. rewrite Hd, Hc.
  assert (∃ l', (if 1 <? Z.of_nat (length s)
    then array_qsort compare (Z.to_nat (Z.of_nat (length s))) (ptrs l ++ d) 0
           (s32 (Z.of_nat (length s) - 1)) else Ok (ptrs l ++ d)) = Ok (ptrs l' ++ d) ∧
    l' ≡ₚ l ∧ StronglySorted le l') as (l' & -> & El & Sl).
  { pose proof (Permutation_length Hp) as Hlen. destruct (Z.ltb_spec 1 (Z.of_nat (length s))).
    - destruct (array_qsort_spec (Z.to_nat (Z.of_nat (length s))) [] d l) as (l' & n & E & El & Sl & _);
        [by rewrite Hp|by destruct l; [simpl in *; lia|]|lia|cbn; lia|].
      exists l'. split; [|done]. rewrite s32_id by lia. cbn [app length] in E. rewrite <- E.
      f_equal. lia.
    - exists l. split_and!; [done..|]. apply sorted_short. lia. }
  assert (l' = s) as -> by (apply sorted_unique; [done..|by rewrite El]).
  cbn [mbind M_bind]. eexists. split; [done|]. split; [|split; [done|by exists d]].
  constructor; cbn; try done.
  - rewrite Hm, Hd, !length_app, !length_fmap, (Permutation_length El). done.
  - by exists s, d.
Qed.

(** ** Searching *)

Lemma slot_lookup (s : list A) d i x : s !! i = Some x → slot (ptrs s ++ d) (Z.of_nat i) = Ok (Some x).
Proof. intros H. apply slot_ptrs; [lia|]. by rewrite Nat2Z.id. Qed.

(** What is known of the last comparison. *)
Definition compared (k : A) (s : list A) (middle result : Z) : Prop :=
  ∃ x, s !! Z.to_nat middle = Some x ∧ 0 ≤ middle ∧ result = order x k.

Lemma shiftr_half len : 0 < len → 0 ≤ Z.shiftr len 1 < len.
Proof. intros. rewrite shiftr_div by lia. Z.div_mod_to_equations; lia. Qed.

(** Where a position lies relative to the key. *)
Lemma around_position k s lo e hi i x :
  around k s lo e hi → s !! i = Some x →
  (order x k < 0 ↔ (i < length lo)%nat) ∧
  (order x k = 0 ↔ i = length lo ∧ is_Some e).
Proof.
  intros H Hx. pose proof (around_filters _ _ _ _ _ H) as (_ & _ & _ & _ & -> & He).
  assert (Forall (λ y, order y k < 0) lo ∧ Forall (λ y, 0 < order y k) hi) as [Hlo Hhi].
  { destruct H; (split; [done|]); eapply Forall_impl; try done; intros y; apply lt_pos. }
  rewrite Forall_lookup in Hlo, Hhi.
  apply lookup_app_Some in Hx as [Hx|[Hi Hx]].
  { pose proof (Hlo _ _ Hx). apply lookup_lt_Some in Hx. split; [lia|]. split; [lia|]. intros [? _]. lia. }
  apply lookup_app_Some in Hx as [Hx|[Hi' Hx]].
  - destruct e as [y|]; [|done]. simpl in Hx. destruct (i - length lo)%nat as [|n] eqn:En; [|by destruct n].
    injection Hx as ->. specialize (He x eq_refl). split; [lia|]. split; [|lia]. intros _.
    split; [lia|by eexists].
  - apply Hhi in Hx. split; [lia|]. split; [lia|]. intros [-> [y ->]]. simpl in Hi'. lia.
Qed.

Lemma search_loop_spec fuel k s d lo e hi first len middle result :
  around k s lo e hi → Forall valid s → valid k →
  0 ≤ first ≤ Z.of_nat (length lo) → Z.of_nat (length lo + length (option_list e)) ≤ first + len →
  first + len ≤ Z.of_nat (length s) → 0 ≤ len → len ≤ Z.of_nat fuel →
  (len = 0 → compared k s middle result) →
  ∃ middle' result', search_loop compare fuel (ptrs s ++ d) k first len middle result
      = Ok (Z.of_nat (length lo), middle', result') ∧ compared k s middle' result' ∧
    (is_Some e → middle' = Z.of_nat (length lo)).
Proof.
  intros Har Hv Hk. revert first len middle result.
  induction fuel as [|fuel IH]; intros first len middle result Hf Hhi Hs Hl Hfuel Hm.
  all: cbn [search_loop]; destruct (Z.leb_spec len 0).
  1,3: assert (len = 0) by lia; subst; exists middle, result; split_and!;
       [repeat f_equal; lia|by apply Hm|]; intros [x ->]; simpl in *; lia.
  { lia. }
  pose proof (shiftr_half len ltac:(lia)) as Hh. set (half := Z.shiftr len 1) in *.
  destruct (lookup_lt_is_Some_2 s (Z.to_nat (first + half))) as [x Hx]; [lia|].
  destruct (around_position _ _ _ _ _ _ _ Har Hx) as [P1 P2].
  assert (valid x) as Vx by (rewrite Forall_lookup in Hv; by eapply Hv).
  assert (slot (ptrs s ++ d) (first + half) = Ok (Some x)) as ->.
  { replace (first + half) with (Z.of_nat (Z.to_nat (first + half))) by lia. by apply slot_lookup. }
  cbn [mbind M_bind on_ptrs]. rewrite compare_order by done. cbn [mbind M_bind].
  assert (compared k s (first + half) (order x k)) as Hcmp by (exists x; split_and!; [done|lia|done]).
  destruct (Z.ltb_spec (order x k) 0) as [Hlt|Hge].
  { apply IH; first [done|lia|destruct e; simpl in *; lia]. }
  destruct (Z.eqb_spec (order x k) 0) as [H0|H0].
  - apply P2 in H0 as H1. destruct H1 as [Hi _]. exists (first + half), (order x k).
    split_and!; [repeat f_equal; lia|done|lia].
  - assert (is_Some e → Z.to_nat (first + half) ≠ length lo) by (intros He Hi; by apply H0, P2).
    apply IH; try done; try lia. destruct e as [y|]; simpl in *; [|lia].
    assert (Z.to_nat (first + half) ≠ length lo) by eauto. lia.
Qed.

(** The position that a search reports. *)
Definition index_of (lo : list A) (e : option A) (hi : list A) (exact : bool) : Z :=
  match exact, e, hi with
  | true, Some _, _ => Z.of_nat (length lo)
  | false, _, _ :: _ => Z.of_nat (length lo + length (option_list e))
  | _, _, _ => -1
  end.

(** The entries are in order in the table. *)
Definition in_order (c : container) (s : list A) : Prop :=
  holds c s ∧ ∃ d, data (tab c) = ptrs s ++ d.

Lemma holds_nil_order c : holds c [] → in_order c [].
Proof.
  intros H. split; [done|]. destruct H as [_ _ _ _ _ _ (l & d & Hd & Hp & _)].
  apply Permutation_nil_r in Hp as ->. by exists d.
Qed.

Lemma now_in_order c s : holds_now c s → in_order c s.
Proof. intros (H & _ & Hd). by split. Qed.

Lemma binary_search_spec c s k exact lo e hi :
  holds c s → valid k → around k s lo e hi →
  ∃ c', binary_search compare k c exact = Ok (c', index_of lo e hi exact) ∧ in_order c' s.
Proof.
  intros H Hk Har. pose proof (around_filters _ _ _ _ _ Har) as (_ & _ & _ & _ & Es & He).
  assert (length s = length lo + (length (option_list e) + length hi))%nat as El
    by (rewrite Es; by rewrite !length_app).
  unfold binary_search. rewrite (holds_count _ _ H).
  destruct (Z.eqb_spec (Z.of_nat (length s)) 0) as [Hz|Hz].
  { destruct s; [|simpl in Hz; lia]. symmetry in Es. apply app_eq_nil in Es as [-> Es].
    apply app_eq_nil in Es as [E ->]. destruct e; [done|]. exists c.
    split; [by destruct exact|by apply holds_nil_order]. }
  destruct (sort_holds c s H) as (c' & -> & Hn & _ & d & Hd). cbn [mbind M_bind]. rewrite Hd.
  destruct (search_loop_spec (Z.to_nat (Z.of_nat (length s))) k s d lo e hi 0
    (Z.of_nat (length s)) 0 0) as (m & r & -> & (x & Hx & Hm & Hr) & Hmid);
    [done|by apply (holds_valid _ _ H)|done|lia..|].
  cbn [mbind M_bind]. rewrite (holds_count _ _ Hn). pose proof (holds_small _ _ H) as Hsm.
  assert (in_order c' s) as Ho by (split; [done|by exists d]).
  destruct (Z.leb_spec (Z.of_nat (length s)) (Z.of_nat (length lo))) as [Hge|Hlt].
  { exists c'. split; [|done]. destruct hi; [|simpl in *; lia]. destruct e; [simpl in *; lia|]. by destruct exact. }
  assert (∃ y, s !! length lo = Some y) as [y Hy] by (apply lookup_lt_is_Some_2; lia).
  assert ((if negb (Z.of_nat (length lo) =? m)
    then x ← slot (ptrs s ++ d) (Z.of_nat (length lo)); on_ptrs compare x (Some k) else Ok r)
    = Ok (order y k)) as ->.
  { destruct (Z.eqb_spec (Z.of_nat (length lo)) m) as [Heq|_]; cbn [negb].
    - rewrite <- Heq, Nat2Z.id in Hx. rewrite Hx in Hy. injection Hy as ->. by rewrite Hr.
    - rewrite (slot_lookup _ _ _ _ Hy). cbn [mbind M_bind on_ptrs]. apply compare_order; [|done].
      pose proof (holds_valid _ _ H) as Hv. rewrite Forall_lookup in Hv. by eapply Hv. }
  cbn [mbind M_bind]. destruct (around_position _ _ _ _ _ _ _ Har Hy) as [_ P2].
  exists c'. split; [|done]. destruct (Z.eqb_spec (order y k) 0) as [H0|H0].
  - apply P2 in H0 as [_ [z ->]]. simpl in *. destruct exact; [by rewrite s32_id by lia|].
    destruct hi as [|h hi]; simpl in *.
    + rewrite (proj2 (Z.eqb_eq _ _)) by lia. done.
    + rewrite (proj2 (Z.eqb_neq _ _)) by lia. rewrite s32_id by lia. repeat f_equal. lia.
  - destruct e as [z|]; [exfalso; apply H0, P2; split; [done|by eexists]|]. simpl in *.
    destruct exact; [done|]. destruct hi; simpl in *; [lia|]. rewrite s32_id by lia.
    repeat f_equal. lia.
Qed.

(** ** Operations *)

Lemma index_lookup k s lo e hi exact :
  around k s lo e hi →
  match index_of lo e hi exact with
  | -1 => if exact then s_find k s = None else s_next k s = None
  | i => ∃ x, s !! Z.to_nat i = Some x ∧ 0 ≤ i ∧
           if exact then s_find k s = Some x else s_next k s = Some x
  end.
Proof.
  intros H. pose proof (around_filters _ _ _ _ _ H) as (_ & F1 & F2 & _ & -> & _).
  unfold s_find, s_next. rewrite F1, F2. unfold index_of.
  assert (∀ n (P : Z → Prop) (Q : Prop), P (Z.of_nat n) →
    match Z.of_nat n with -1 => Q | i => P i end) as Hnat by (by intros [|n] P Q HP).
  destruct exact.
  - destruct e as [x|]; simpl; [|done].
    apply (Hnat _ (λ i, ∃ x0, (lo ++ x :: hi) !! Z.to_nat i = Some x0 ∧ 0 ≤ i ∧ Some x = Some x0)).
    exists x. rewrite Nat2Z.id, list_lookup_middle by done. split_and!; [done|lia|done].
  - destruct hi as [|x hi]; simpl; [done|].
    apply (Hnat _ (λ i, ∃ x0, (lo ++ option_list e ++ x :: hi) !! Z.to_nat i = Some x0 ∧ 0 ≤ i ∧
      Some x = Some x0)).
    exists x. rewrite Nat2Z.id, app_assoc, <- length_app, list_lookup_middle by done.
    split_and!; [done|lia|done].
Qed.

Lemma get_spec c s key exact :
  holds c s → (∀ k, key = Some k → valid k) →
  ∃ c', netsnmp_binary_array_get compare c key exact
      = Ok (c', match key with
                | None => head s
                | Some k => if exact then s_find k s else s_next k s
                end) ∧ in_order c' s.
Proof.
  intros H Hk. unfold netsnmp_binary_array_get. rewrite (holds_count _ _ H).
  destruct (Z.eqb_spec (Z.of_nat (length s)) 0) as [Hz|Hz].
  { destruct s; [|simpl in Hz; lia]. exists c. split; [|by apply holds_nil_order].
    by destruct key, exact. }
  destruct (sort_holds c s H) as (c' & -> & Hn & _ & d & Hd). cbn [mbind M_bind].
  destruct key as [k|].
  2:{ exists c'. split; [|split; [done|by exists d]]. destruct s as [|x s]; [simpl in Hz; lia|].
      rewrite Hd. by rewrite (slot_lookup _ _ 0 x). }
  destruct (sorted_around k s (holds_sorted _ _ H)) as (lo & e & hi & Har).
  destruct (binary_search_spec c' s k exact lo e hi Hn (Hk k eq_refl) Har)
    as (c2 & -> & Ho). cbn [mbind M_bind].
  exists c2. split; [|done]. destruct Ho as (_ & d2 & Hd2).
  pose proof (index_lookup k s lo e hi exact Har) as Hi.
  destruct (Z.eqb_spec (index_of lo e hi exact) (-1)) as [E|E].
  { rewrite E in Hi. destruct exact; by rewrite Hi. }
  assert (∃ x, s !! Z.to_nat (index_of lo e hi exact) = Some x ∧ 0 ≤ index_of lo e hi exact ∧
    if exact then s_find k s = Some x else s_next k s = Some x) as (x & Hx & H0 & Hr).
  { destruct (index_of lo e hi exact) as [|p|[p|p|]]; try done. }
  rewrite Hd2, slot_ptrs with (x := x) by done. cbn [mbind M_bind]. destruct exact; by rewrite Hr.
Qed.

(** Full tables are extended. *)
Lemma extend_spec calloc_ok c s :
  in_order c s →
  ∃ r, extend calloc_ok (tab c) = Ok r ∧
    match r with
    | None => ∃ n m, calloc_ok n m = false
    | Some t => count t = count (tab c) ∧ t_flags t = t_flags (tab c) ∧
        max_size t = Z.of_nat (length (data t)) ∧ ∃ p d, data t = ptrs s ++ p :: d
    end.
Proof.
  intros [H (d & Hd)]. unfold extend. rewrite (holds_size _ _ H), (holds_count _ _ H).
  pose proof (holds_small _ _ H) as Hb. rewrite Hd, length_app, length_fmap.
  destruct (Z.leb_spec (Z.of_nat (length s + length d)) (Z.of_nat (length s))) as [Hfull|Hroom].
  - destruct d; [|simpl in *; lia]. simpl. rewrite Nat.add_0_r.
    set (n := u32 (if _ =? 0 then _ else _)).
    assert (Z.of_nat (length s) < n) as Hn.
    { unfold n. rewrite s32_id by lia. destruct (Z.eqb_spec (2 * Z.of_nat (length s)) 0);
        rewrite u32_id; lia. }
    destruct (calloc_ok n SIZEOF_VOIDP) eqn:Ec; [|exists None; split; [done|by do 2 eexists]].
    rewrite (proj2 (Z.ltb_ge _ _)) by lia. eexists. split; [done|]. cbn. rewrite app_nil_r.
    split_and!; [done|done| |].
    + rewrite length_app, length_fmap, length_replicate. lia.
    + exists None, (replicate (Z.to_nat (n - Z.of_nat (length s)) - 1) None). f_equal.
      destruct (Z.to_nat (n - Z.of_nat (length s))) eqn:En; [lia|].
      simpl. by rewrite Nat.sub_0_r.
  - eexists. split; [done|]. split_and!; [by rewrite (holds_count _ _ H)|done|by rewrite (holds_size _ _ H), Hd|].
    destruct d as [|p d]; [simpl in *; lia|]. by exists p, d.
Qed.

(** Distinct keys make an insertion sorted. *)
Lemma insert_sorted k s :
  StronglySorted lt s → s_find k s = None →
  StronglySorted lt (s_insert k s) ∧ s_insert k s ≡ₚ k :: s.
Proof.
  intros Hs Hf. destruct (sorted_around k s Hs) as (lo & e & hi & Har).
  pose proof (around_filters _ _ _ _ _ Har) as (F0 & F1 & F2 & _ & Es & _).
  unfold s_find in Hf. rewrite F1 in Hf. destruct e; [done|]. simpl in Es.
  unfold s_insert. rewrite F0, F2. inversion Har as [|lo' hi' _ Hlo Hhi]; subst lo' hi'.
  rewrite Es in Hs |- *. apply StronglySorted_app in Hs as (Hc & Hl & Hh). split.
  - apply StronglySorted_app_2; [|done|by apply StronglySorted_cons].
    intros x y Hx Hy. rewrite Forall_forall in Hlo, Hhi.
    apply elem_of_cons in Hy as [->|Hy]; [by apply Hlo|by apply Hc].
  - by rewrite <- Permutation_middle.
Qed.

Lemma insert_spec calloc_ok c s k :
  holds c s → valid k → Z.of_nat (length s) + 1 < 2 ^ 30 →
  ∃ c' rc, netsnmp_binary_array_insert compare calloc_ok c k = Ok (c', rc) ∧
    (rc = 0 ∧ s_find k s = None ∧ holds c' (s_insert k s) ∨
     rc = -1 ∧ holds c' s ∧ (s_find k s = None → ∃ n m, calloc_ok n m = false)).
Proof.
  intros H Hk Hb. unfold netsnmp_binary_array_insert. rewrite (proj1 (holds_flags _ _ H)).
  cbn [Z.eqb]. destruct (get_spec c s (Some k) true H) as (c1 & -> & Ho).
  { by intros ? [= ->]. }
  cbn [mbind M_bind]. destruct (s_find k s) as [x|] eqn:Hf.
  { exists c1, (-1). split; [done|]. right. split_and!; [done|apply Ho|done]. }
  destruct (extend_spec calloc_ok c1 s Ho) as (r & -> & Hr). cbn [mbind M_bind].
  destruct r as [t|]; [|exists c1, (-1); split; [done|]; right; split_and!; [done|apply Ho|done]].
  destruct Hr as (Hc & Hfl & Hm & p & d & Hd). destruct Ho as [H1 _].
  rewrite Hd, Hc, (holds_count _ _ H1), put_slot_app by (by rewrite length_fmap).
  cbn [mbind M_bind]. eexists _, 0. split; [done|]. left. split_and!; [done|done|].
  destruct (insert_sorted k s (holds_sorted _ _ H) Hf) as [Hs Hp].
  pose proof (Permutation_length Hp) as Hlen. simpl in Hlen. constructor; cbn.
  - done.
  - rewrite Hp. constructor; [done|]. apply (holds_valid _ _ H).
  - lia.
  - rewrite u32_id by lia. lia.
  - rewrite Hfl. apply (holds_flags _ _ H1).
  - rewrite Hm, Hd, !length_app. simpl. lia.
  - exists (s ++ [k]), d. split_and!; [by rewrite fmap_app, <- app_assoc| |done].
    rewrite Hp. by rewrite <- Permutation_cons_append.
Qed.

Lemma shift_down_spec (lo : list A) x hi d :
  ∃ d', shift_down (ptrs (lo ++ x :: hi) ++ d) (length lo) (length hi) = ptrs (lo ++ hi) ++ d' ∧
    length (ptrs (lo ++ hi) ++ d') = length (ptrs (lo ++ x :: hi) ++ d).
Proof.
  unfold shift_down.
  assert (ptrs (lo ++ x :: hi) ++ d = ptrs lo ++ Some x :: ptrs hi ++ d) as -> by same_data.
  exists (drop (length lo + length hi) (ptrs lo ++ Some x :: ptrs hi ++ d)). split.
  - rewrite take_app_length' by (by rewrite length_fmap). rewrite fmap_app, <- app_assoc. f_equal. f_equal.
    replace (ptrs lo ++ Some x :: ptrs hi ++ d) with ((ptrs lo ++ [Some x]) ++ ptrs hi ++ d) by same_data.
    rewrite drop_app_length' by (rewrite length_app, length_fmap; simpl; lia).
    by rewrite take_app_length' by (by rewrite length_fmap).
  - rewrite length_app, length_fmap, length_drop, !length_app. simpl. rewrite !length_app, !length_fmap. lia.
Qed.

Lemma remove_sorted k s :
  StronglySorted lt s → StronglySorted lt (s_remove k s).
Proof.
  intros Hs. destruct (sorted_around k s Hs) as (lo & e & hi & Har).
  pose proof (around_filters _ _ _ _ _ Har) as (_ & _ & _ & -> & Es & _). rewrite Es in Hs.
  apply StronglySorted_app in Hs as (Hc & Hl & Hh). apply StronglySorted_app in Hh as (_ & _ & Hh).
  apply StronglySorted_app_2; [|done|done]. intros x y Hx Hy. apply Hc; [done|]. apply elem_of_app. by right.
Qed.

(** Taking the entry [x] out. *)
Lemma removed_holds c lo x hi d d' :
  holds c (lo ++ x :: hi) → StronglySorted lt (lo ++ hi) → 
  data (tab c) = ptrs (lo ++ x :: hi) ++ d → length d' = length (ptrs (lo ++ x :: hi) ++ d) →
  (∃ d1, d' = ptrs (lo ++ hi) ++ d1) →
  holds (Container (Table (max_size (tab c)) (Z.of_nat (length (lo ++ x :: hi)) - 1) (t_flags (tab c))
           (dirty (tab c)) d') (sync c)) (lo ++ hi).
Proof.
  intros [Hs Hv Hb Hc Hf Hm _] Hs' Hd Hl (d1 & ->).
  rewrite Forall_app, Forall_cons in Hv. rewrite length_app in Hb. simpl in Hb. constructor; cbn.
  - done.
  - apply Forall_app. naive_solver.
  - rewrite length_app. lia.
  - rewrite !length_app. simpl. lia.
  - done.
  - by rewrite Hm, Hd, <- Hl.
  - by exists (lo ++ hi), d1.
Qed.

Lemma remove_spec c s k :
  holds c s → valid k →
  ∃ c', netsnmp_binary_array_remove compare c k
      = Ok (c', if decide (s = [] ∨ is_Some (s_find k s)) then 0 else -1, s_find k s) ∧
    holds c' (s_remove k s).
Proof.
  intros H Hk. unfold netsnmp_binary_array_remove. rewrite (holds_count _ _ H).
  destruct (Z.eqb_spec (Z.of_nat (length s)) 0) as [Hz|Hz].
  { destruct s; [|simpl in Hz; lia]. exists c. by split. }
  destruct (sort_holds c s H) as (c1 & -> & Hn & _). cbn [mbind M_bind].
  destruct (sorted_around k s (holds_sorted _ _ H)) as (lo & e & hi & Har).
  destruct (binary_search_spec c1 s k true lo e hi Hn Hk Har) as (c2 & -> & H2 & d & Hd).
  cbn [mbind M_bind]. pose proof (remove_sorted k s (holds_sorted _ _ H)) as Hs.
  pose proof (around_filters _ _ _ _ _ Har) as (_ & F1 & _ & F & Es & He).
  unfold s_find. rewrite F1. rewrite F in Hs |- *. destruct e as [x|]; cbn [option_list head index_of].
  2:{ rewrite decide_False by (intros [->|[? [=]]]; simpl in Hz; lia). exists c2. split; [done|].
      simpl in Es. by rewrite <- Es. }
  simpl in Es. subst s. rewrite decide_True by (right; by eexists).
  pose proof (holds_small _ _ H) as Hb. rewrite length_app in Hb. simpl in Hb.
  change (u32 (-1)) with (2 ^ 32 - 1). rewrite u32_id by lia. rewrite (proj2 (Z.eqb_neq _ (2 ^ 32 - 1))) by lia.
  rewrite Hd, (slot_lookup (lo ++ x :: hi) d (length lo) x) by (by apply list_lookup_middle).
  cbn [mbind M_bind]. eexists. split; [done|]. rewrite (holds_count _ _ H2).
  apply removed_holds with (d := d); [done|done|done|..].
  all: destruct (Z.eqb_spec (Z.of_nat (length lo)) (Z.of_nat (length (lo ++ x :: hi)) - 1)) as [E|E];
    cbn [negb]; rewrite length_app in E; simpl in E.
  all: try (assert (hi = []) as -> by (destruct hi; simpl in *; [done|lia])).
  1: done.
  2: exists (Some x :: d); by rewrite app_nil_r; same_data.
  all: rewrite Nat2Z.id, length_app; cbn [length];
    replace (Z.to_nat (Z.of_nat (length lo + S (length hi)) - 1 - Z.of_nat (length lo)))
      with (length hi) by lia;
    destruct (shift_down_spec lo x hi d) as (d' & -> & Hl); first [done|by exists d'].
Qed.

Lemma for_each_spec {St} c s (fe : St → option A → M St) st :
  holds c s →
  ∃ c', netsnmp_binary_array_for_each compare c fe st true
      = (st' ← visit fe st (ptrs s); Ok (c', st')) ∧ in_order c' s.
Proof.
  intros H. unfold netsnmp_binary_array_for_each.
  destruct (sort_holds c s H) as (c' & -> & Hn & Hr & d & Hd). cbn [mbind M_bind].
  exists c'. split; [|split; [done|by exists d]].
  rewrite (holds_count _ _ Hn), Nat2Z.id, Hd, take_app_length' by (by rewrite length_fmap). done.
Qed.

Lemma clear_spec {St} c s (fe : option (St → option A → M St)) st c' st' :
  holds c s → netsnmp_binary_array_clear c fe st = Ok (c', st') → holds c' [].
Proof.
  intros [Hs Hv Hb Hc Hf Hm Hd] E. unfold netsnmp_binary_array_clear in E.
  apply M_bind_Ok in E as (x & _ & [= <- _]). constructor; cbn; try done; [constructor..|].
  exists [], (data (tab c)). by split_and!.
Qed.

(** A new container holds nothing. *)
Lemma initial_holds n : holds (Container netsnmp_binary_array_initialize n) [].
Proof. constructor; cbn; try done; [constructor..|]. by exists [], []. Qed.

(** ** Sequences of operations *)

Inductive op :=
| OInsert (k : A)
| ORemove (k : A)
| OFind (k : A)
| ONext (key : option A)
| OSize
| OAll
| OClear.

Inductive result :=
| RInt (z : Z)
| RPtr (p : option A)
| RList (l : list (option A)).

Definition op_valid (o : op) : Prop :=
  match o with
  | OInsert k | ORemove k | OFind k | ONext (Some k) => valid k
  | _ => True
  end.

Definition do_op (calloc_ok : Z → Z → bool) (c : container) (o : op) : M (container * result) :=
  match o with
  | OInsert k => '(c, rc) ← netsnmp_binary_array_insert compare calloc_ok c k; Ok (c, RInt rc)
  | ORemove k => '(c, rc, _) ← netsnmp_binary_array_remove compare c k; Ok (c, RInt rc)
  | OFind k => '(c, p) ← netsnmp_binary_array_get compare c (Some k) true; Ok (c, RPtr p)
  | ONext key => '(c, p) ← netsnmp_binary_array_get compare c key false; Ok (c, RPtr p)
  | OSize => Ok (c, RInt (netsnmp_binary_array_count c))
  | OAll =>
      '(c, l) ← netsnmp_binary_array_for_each compare c (λ l p, Ok (l ++ [p])) [] true;
      Ok (c, RList l)
  | OClear => '(c, _) ← netsnmp_binary_array_clear (St := unit) c None tt; Ok (c, RInt 0)
  end.

(** The same on a sorted set. *)
Definition s_op (s : list A) (o : op) : list A * result :=
  match o with
  | OInsert k => match s_find k s with
                 | Some _ => (s, RInt (-1))
                 | None => (s_insert k s, RInt 0)
                 end
  | ORemove k => (s_remove k s, RInt (if decide (s = [] ∨ is_Some (s_find k s)) then 0 else -1))
  | OFind k => (s, RPtr (s_find k s))
  | ONext (Some k) => (s, RPtr (s_next k s))
  | ONext None => (s, RPtr (head s))
  | OSize => (s, RInt (Z.of_nat (length s)))
  | OAll => (s, RList (ptrs s))
  | OClear => ([], RInt 0)
  end.

Fixpoint run (calloc_ok : Z → Z → bool) (c : container) (l : list op) : M (container * list result) :=
  match l with
  | [] => Ok (c, [])
  | o :: l => '(c, r) ← do_op calloc_ok c o; '(c, rs) ← run calloc_ok c l; Ok (c, r :: rs)
  end.

Fixpoint s_run (s : list A) (l : list op) : list A * list result :=
  match l with
  | [] => (s, [])
  | o :: l => let '(s, r) := s_op s o in let '(s, rs) := s_run s l in (s, r :: rs)
  end.

Lemma visit_collect (l : list (option A)) acc :
  visit (λ l p, Ok (l ++ [p])) acc l = Ok (acc ++ l).
Proof.
  revert acc. induction l as [|p l IH]; intros acc; simpl; [by rewrite app_nil_r|].
  by rewrite IH, <- app_assoc.
Qed.

Lemma s_op_length s o : (length (s_op s o).1 ≤ S (length s))%nat.
Proof.
  destruct o as [k|k|k|[k|]| | |]; simpl; try lia.
  - destruct (s_find k s); simpl; [lia|]. unfold s_insert. rewrite length_app. simpl.
    assert (∀ l, (length (filter (λ x, (order x k < 0)%Z) l) +
      length (filter (λ x, (0 < order x k)%Z) l) ≤ length l)%nat) as Hl; [|specialize (Hl s); lia].
    induction l as [|x l IH]; [done|]. rewrite !filter_cons. repeat case_decide; simpl; lia.
  - unfold s_remove. pose proof (length_filter (λ x, order x k ≠ 0) s). lia.
Qed.

Lemma do_op_spec calloc_ok c s o :
  (∀ n m, calloc_ok n m = true) → holds c s → op_valid o → Z.of_nat (length s) + 1 < 2 ^ 30 →
  ∃ c', do_op calloc_ok c o = Ok (c', (s_op s o).2) ∧ holds c' (s_op s o).1.
Proof.
  intros Hmem H Ho Hb. destruct o as [k|k|k|key| | |]; simpl in *.
  - destruct (insert_spec calloc_ok c s k H Ho Hb) as (c' & rc & -> & [(-> & -> & Hh)|(-> & Hh & Hno)]).
    { by exists c'. }
    destruct (s_find k s); [by exists c'|]. destruct (Hno eq_refl) as (n & m & E).
    by rewrite Hmem in E.
  - destruct (remove_spec c s k H Ho) as (c' & -> & Hh). by exists c'.
  - destruct (get_spec c s (Some k) true H) as (c' & -> & Hh & _); [by intros ? [= <-]|]. by exists c'.
  - destruct (get_spec c s key false H) as (c' & -> & Hh & _); [by intros k ->|].
    exists c'. by destruct key.
  - exists c. split; [|done]. unfold netsnmp_binary_array_count. by rewrite (holds_count _ _ H).
  - destruct (for_each_spec c s (λ l p, Ok (l ++ [p])) [] H) as (c' & -> & Hh & _).
    rewrite visit_collect. by exists c'.
  - eexists. split; [done|]. by apply (clear_spec (St := unit) c s None tt _ tt H).
Qed.

Lemma run_spec calloc_ok c s l :
  (∀ n m, calloc_ok n m = true) → holds c s → Forall op_valid l →
  Z.of_nat (length s + length l) < 2 ^ 30 →
  ∃ c', run calloc_ok c l = Ok (c', (s_run s l).2) ∧ holds c' (s_run s l).1.
Proof.
  intros Hmem. revert c s. induction l as [|o l IH]; intros c s H Hv Hb; [by exists c|].
  apply Forall_cons in Hv as [Ho Hv]. simpl in *.
  destruct (do_op_spec calloc_ok c s o Hmem H Ho) as (c1 & -> & H1); [lia|]. cbn [mbind M_bind].
  pose proof (s_op_length s o) as Hl. destruct (s_op s o) as [s1 r]. simpl in *.
  destruct (IH c1 s1 H1 Hv) as (c2 & -> & H2); [lia|]. cbn [mbind M_bind].
  destruct (s_run s1 l) as [s2 rs]. by exists c2.
Qed.

(** ** Walks *)

(** [CONTAINER_FIRST], then [CONTAINER_NEXT] from each entry to the next. *)
Fixpoint walk (fuel : nat) (c : container) (key : option A) : M (container * list A) :=
  match fuel with
  | O => UB
  | S fuel =>
      '(c, p) ← netsnmp_binary_array_get compare c key false;
      match p with
      | None => Ok (c, [])
      | Some x => '(c, l) ← walk fuel c (Some x); Ok (c, x :: l)
      end
  end.

Lemma next_of lo x hi : StronglySorted lt (lo ++ x :: hi) → s_next x (lo ++ x :: hi) = head hi.
Proof.
  intros Hs. apply StronglySorted_app in Hs as (Hc & _ & Hh). apply StronglySorted_cons in Hh as [Hx _].
  unfold s_next. rewrite filter_app, filter_cons_False by (rewrite order_refl; lia).
  rewrite (filter_none _ lo), (filter_all _ hi); [done|..].
  - eapply Forall_impl; [done|]. intros y. apply lt_pos.
  - apply Forall_forall. intros y Hy. assert (lt y x) as Hyx by (apply Hc; [done|by left]).
    unfold olt in Hyx. lia.
Qed.

Lemma walk_from c s lo x hi :
  holds c s → s = lo ++ x :: hi →
  ∃ c', walk (S (length hi)) c (Some x) = Ok (c', hi) ∧ holds c' s.
Proof.
  revert c lo x. induction hi as [|y hi IH]; intros c lo x H ->.
  all: pose proof (holds_valid _ _ H) as Hv; rewrite Forall_app, Forall_cons in Hv;
    destruct Hv as (_ & Vx & _); cbn [walk length];
    destruct (get_spec c _ (Some x) false H) as (c1 & -> & H1 & _); [by intros ? [= <-]|];
    cbn [mbind M_bind]; rewrite next_of by (apply (holds_sorted _ _ H)); cbn [head].
  - by exists c1.
  - destruct (IH c1 (lo ++ [x]) y) as (c2 & E & H2);
      [done|by rewrite <- app_assoc|].
    cbn [walk] in E. rewrite E. by exists c2.
Qed.

(** Along the iterator: the entry it is at, then [next] until [NULL]. *)
Fixpoint it_walk (fuel : nat) (c : container) (it : binary_array_iterator) (p : option A)
    : M (list A) :=
  match p with
  | None => Ok []
  | Some x =>
      match fuel with
      | O => UB
      | S fuel => '(it, p) ← _ba_iterator_next c it; l ← it_walk fuel c it p; Ok (x :: l)
      end
  end.

Lemma position_spec c s it i :
  in_order c s → it_sync it = sync c → _ba_iterator_position c it (Z.of_nat i) = Ok (s !! i).
Proof.
  intros [H (d & Hd)] Hs. unfold _ba_iterator_position. rewrite Hs, Z.eqb_refl, (holds_count _ _ H).
  cbn [negb]. destruct (Z.eqb_spec (Z.of_nat (length s)) 0).
  { by rewrite lookup_ge_None_2 by lia. }
  destruct (Z.leb_spec (Z.of_nat (length s)) (Z.of_nat i)); [by rewrite lookup_ge_None_2 by lia|].
  destruct (lookup_lt_is_Some_2 s i) as [x Hx]; [lia|]. rewrite Hd, Hx. by apply slot_lookup.
Qed.

Lemma next_spec c s it i :
  in_order c s → it_sync it = sync c → it_pos it = Z.of_nat i → Z.of_nat i < 2 ^ 31 →
  _ba_iterator_next c it = Ok (Iterator (sync c) (Z.of_nat (S i)), s !! S i).
Proof.
  intros H Hs Hi Hb. unfold _ba_iterator_next. cbn [it_pos]. rewrite Hi, Hs, u32_id by lia.
  replace (Z.of_nat i + 1) with (Z.of_nat (S i)) by lia. by rewrite (position_spec c s).
Qed.

Lemma it_walk_spec c lo x hi it :
  in_order c (lo ++ x :: hi) → it_sync it = sync c → it_pos it = Z.of_nat (length lo) →
  it_walk (S (length hi)) c it (Some x) = Ok (x :: hi).
Proof.
  revert lo x it. induction hi as [|y hi IH]; intros lo x it H Hs Hp.
  all: pose proof (holds_small _ _ (proj1 H)) as Hb; rewrite length_app in Hb; cbn [length] in Hb.
  all: cbn [it_walk]; rewrite (next_spec c _ it (length lo) H Hs Hp) by lia; cbn [mbind M_bind].
  - rewrite lookup_ge_None_2 by (rewrite length_app; simpl; lia). done.
  - assert ((lo ++ x :: y :: hi) !! S (length lo) = Some y) as ->.
    { rewrite lookup_app_r by lia. by replace (S (length lo) - length lo)%nat with 1%nat by lia. }
    specialize (IH (lo ++ [x]) y (Iterator (sync c) (Z.of_nat (S (length lo))))).
    rewrite <- app_assoc, length_app in IH. cbn [app length it_sync it_pos] in IH.
    cbn [length it_walk] in IH |- *. rewrite IH by (done || lia). done.
Qed.

(** The set around one of its own entries. *)
Lemma around_self lo x hi :
  StronglySorted lt (lo ++ x :: hi) →
  s_find x (lo ++ x :: hi) = Some x ∧ s_remove x (lo ++ x :: hi) = lo ++ hi.
Proof.
  intros Hs. assert (around x (lo ++ x :: hi) lo (Some x) hi) as Har.
  { apply StronglySorted_app in Hs as (Hc & _ & Hh). apply StronglySorted_cons in Hh as [Hx _].
    constructor; [done|apply order_refl| |done]. apply Forall_forall. intros y Hy.
    apply Hc; [done|by left]. }
  pose proof (around_filters _ _ _ _ _ Har) as (_ & F & _ & R & _). unfold s_find. by rewrite F.
Qed.

(** On a sorted table nothing is sorted again. *)
Lemma search_clean c k exact c' i :
  dirty (tab c) = false → binary_search compare k c exact = Ok (c', i) → c' = c.
Proof.
  intros Hd. unfold binary_search, sort_if_dirty. rewrite Hd.
  destruct (_ =? 0); [by intros [= -> _]|]. cbn [mbind M_bind].
  intros ([[first middle] r] & _ & E)%M_bind_Ok.
  destruct (_ <=? _); [by injection E|]. apply M_bind_Ok in E as (r' & _ & E).
  repeat (case_match; try by injection E).
Qed.

Lemma remove_clean c k c' rc save :
  dirty (tab c) = false → netsnmp_binary_array_remove compare c k = Ok (c', rc, save) →
  sync c' = sync c ∧ dirty (tab c') = false.
Proof.
  intros Hd. unfold netsnmp_binary_array_remove.
  destruct (_ =? 0); [by intros [= -> _ _]|]. unfold sort_if_dirty. rewrite Hd. cbn [mbind M_bind].
  intros ([c1 i] & E1 & E)%M_bind_Ok. apply search_clean in E1 as ->; [|done].
  destruct (_ =? _); [by injection E as -> _ _|]. apply M_bind_Ok in E as (p & _ & [= <- _ _]).
  by split.
Qed.

(** ** Theorems *)

(** C16: array_qsort ends with the entries of its range in order and nothing else
    changed, for any entries and any number of equal ones; it makes at most one
    call of itself per entry, the first included ([qsort_calls] counts them in all,
    not only their depth). *)
Theorem array_qsort_sorts d d' l :
  Forall valid l → l ≠ [] → Z.of_nat (length d + length l) < 2 ^ 30 →
  ∃ l' n, array_qsort compare (length l) (d ++ ptrs l ++ d') (Z.of_nat (length d))
      (Z.of_nat (length d + length l) - 1) = Ok (d ++ ptrs l' ++ d') ∧
    l' ≡ₚ l ∧ StronglySorted le l' ∧
    qsort_calls compare (length l) (d ++ ptrs l ++ d') (Z.of_nat (length d))
      (Z.of_nat (length d + length l) - 1) = Ok n ∧ (n ≤ length l)%nat.
Proof.
  intros Hv Hne Hb. destruct (array_qsort_spec (length l) d d' l) as (l' & n & ? & ? & ? & ? & ?); try done.
  exists l', n. split_and!; try done. destruct l; [done|cbn in *; lia].
Qed.

(** C15: a container is a sorted set: any sequence of insertions, removals, searches,
    sizes, traversals and clearings on a new container gives the results that
    the operations on a sorted set give, with memory at hand. *)
Theorem container_refines_set calloc_ok n l :
  (∀ n m, calloc_ok n m = true) → Forall op_valid l → Z.of_nat (length l) < 2 ^ 30 →
  ∃ c', run calloc_ok (Container netsnmp_binary_array_initialize n) l = Ok (c', (s_run [] l).2) ∧
    holds c' (s_run [] l).1.
Proof. intros Hmem Hv Hb. by apply run_spec; [done|apply initial_holds|..]. Qed.

(** Starting from no key, find_next visits every entry once, in order, and then
    reports the end; so does an iterator that was reset, with curr and next, while the
    container is left alone. *)
Theorem walk_in_order c s :
  holds c s →
  (∃ c', walk (S (length s)) c None = Ok (c', s) ∧ holds c' s) ∧
  (∃ c' it p, _ba_iterator_reset compare c = Ok (c', it) ∧ _ba_iterator_curr c' it = Ok p ∧
     it_walk (length s) c' it p = Ok s).
Proof.
  intros H. split.
  - cbn [walk]. destruct (get_spec c s None false H) as (c1 & -> & H1 & _); [done|].
    cbn [mbind M_bind]. destruct s as [|x s]; [by exists c1|]. cbn [head].
    destruct (walk_from c1 (x :: s) [] x s H1 eq_refl) as (c2 & E & H2).
    cbn [length]. rewrite E. by exists c2.
  - unfold _ba_iterator_reset. destruct (sort_holds c s H) as (c1 & -> & H1). cbn [mbind M_bind].
    apply now_in_order in H1. exists c1, (Iterator (sync c1) 0), (s !! 0%nat).
    split; [done|]. split; [by apply (position_spec c1 s _ 0)|].
    destruct s as [|x s]; [done|]. by apply (it_walk_spec c1 [] x s).
Qed.

(** An iterator is not told of a removal: when the entry it is at is removed,
    next passes over the entry that followed. *)
Theorem iterator_skips_after_remove c lo x y hi it :
  holds_now c (lo ++ x :: y :: hi) → it_sync it = sync c → it_pos it = Z.of_nat (length lo) →
  _ba_iterator_curr c it = Ok (Some x) ∧
  ∃ c' it', netsnmp_binary_array_remove compare c x = Ok (c', 0, Some x) ∧
    holds c' (lo ++ y :: hi) ∧ _ba_iterator_next c' it = Ok (it', head hi).
Proof.
  intros Hn Hs Hp. pose proof Hn as (H & Hdirty & _). apply now_in_order in Hn.
  pose proof (holds_sorted _ _ H) as Hsort. pose proof (holds_small _ _ H) as Hb.
  pose proof (holds_valid _ _ H) as Hv. rewrite Forall_app, Forall_cons in Hv.
  rewrite length_app in Hb. cbn [length] in Hb. split.
  { unfold _ba_iterator_curr. rewrite Hp, (position_spec c _ it _ Hn Hs).
    by rewrite list_lookup_middle. }
  destruct (remove_spec c _ x H) as (c' & E & Hc'); [naive_solver|].
  destruct (around_self lo x (y :: hi) Hsort) as [Hf Hr]. rewrite Hf, Hr in *.
  rewrite decide_True in E by (right; by eexists).
  destruct (remove_clean _ _ _ _ _ Hdirty E) as [Hs' Hd'].
  exists c', (Iterator (sync c') (Z.of_nat (S (length lo)))). split_and!; [done|done|].
  rewrite (next_spec c' (lo ++ y :: hi) it (length lo)); [|split; [done|]|by rewrite Hs'|done|lia].
  - rewrite lookup_app_r by lia. replace (S (length lo) - length lo)%nat with 1%nat by lia.
    by destruct hi.
  - destruct (holds_data _ _ Hc') as (l & d & Hd & _ & Hl). exists d. by rewrite <- Hl.
Qed.

End Set_.
Arguments holds {A} valid order c s.
Arguments holds_now {A} valid order c s.
Arguments s_find {A} order k s.
Arguments s_next {A} order k s.
Arguments s_insert {A} order k s.
Arguments s_remove {A} order k s.
Arguments op A : clear implicits.
Arguments result A : clear implicits.
Arguments op_valid {A} valid o.
Arguments run {A} compare calloc_ok c l.
Arguments s_run {A} order s l.
Arguments walk {A} compare fuel c key.

(** ** Subsets *)

Section Subset.
Context {A : Type} {compare ncompare : A → A → M Z} {valid : A → Prop} {order norder : A → A → Z}.
Context {Hcompare : Comparison compare valid order}.

Notation lt := (olt order).
Notation holds := (holds valid order).
Notation holds_now := (holds_now valid order).

(** What is expected of [ncompare]: along the order its sign does not go down. *)
Class PartialComparison := {
  ncompare_order x k : valid x → valid k → ncompare x k = Ok (norder x k);
  norder_below x y k : lt x y → norder y k < 0 → norder x k < 0;
  norder_above x y k : lt x y → 0 < norder x k → 0 < norder y k;
}.

Context {Hpartial : PartialComparison}.

Lemma sorted_bands k s :
  StronglySorted lt s →
  ∃ lo m hi, s = lo ++ m ++ hi ∧ Forall (λ x, norder x k < 0) lo ∧ Forall (λ x, norder x k = 0) m ∧
    Forall (λ x, 0 < norder x k) hi.
Proof.
  induction s as [|x s IH]; intros Hs; [by exists [], [], []|].
  apply StronglySorted_cons in Hs as [Hx Hs]. destruct (IH Hs) as (lo & m & hi & -> & H1 & H2 & H3).
  rewrite !Forall_app in Hx. destruct Hx as (L1 & L2 & L3).
  destruct (Z.lt_trichotomy (norder x k) 0) as [Hn|[Hn|Hn]].
  - exists (x :: lo), m, hi. split_and!; [done|by constructor|done|done].
  - exists [], (x :: m), hi. split_and!; [|done|by constructor|done].
    destruct lo as [|y lo]; [done|]. apply Forall_cons in H1 as [H1 _]. apply Forall_cons in L1 as [L1 _].
    pose proof (norder_below x y k L1 H1). lia.
  - exists [], [], (x :: lo ++ m ++ hi). split_and!; [done..|]. constructor; [done|].
    eapply Forall_impl; [rewrite !Forall_app; eauto|]. intros y Hy. by eapply norder_above.
Qed.

Lemma start_loop_spec fuel k lo r d first len :
  Forall valid (lo ++ r) → valid k → Forall (λ x, norder x k < 0) lo → Forall (λ x, 0 ≤ norder x k) r →
  0 ≤ first ≤ Z.of_nat (length lo) → Z.of_nat (length lo) ≤ first + len ≤ Z.of_nat (length (lo ++ r)) →
  0 ≤ len ≤ Z.of_nat fuel →
  start_loop ncompare fuel (ptrs (lo ++ r) ++ d) k first len = Ok (Z.of_nat (length lo)).
Proof.
  intros Hv Hk Hlo Hr. revert first len. induction fuel as [|fuel IH]; intros first len Hf Hl Hn.
  all: cbn [start_loop]; destruct (Z.leb_spec len 0); [f_equal; lia|].
  { lia. }
  pose proof (shiftr_half len ltac:(lia)) as Hh. set (half := Z.shiftr len 1) in *.
  destruct (lookup_lt_is_Some_2 (lo ++ r) (Z.to_nat (first + half))) as [x Hx]; [lia|].
  assert (valid x) as Vx by (rewrite Forall_lookup in Hv; by eapply Hv).
  rewrite slot_ptrs with (x := x) by (done || lia). cbn [mbind M_bind on_ptrs].
  rewrite ncompare_order by done. cbn [mbind M_bind].
  assert (norder x k < 0 ↔ (Z.to_nat (first + half) < length lo)%nat) as Hx'.
  { rewrite Forall_lookup in Hlo, Hr. apply lookup_app_Some in Hx as [Hx|[Hi Hx]].
    - pose proof (Hlo _ _ Hx). apply lookup_lt_Some in Hx. lia.
    - pose proof (Hr _ _ Hx). lia. }
  destruct (Z.ltb_spec (norder x k) 0); apply IH; lia.
Qed.

Lemma end_loop_spec k pre m hi d i fin :
  Forall valid (m ++ hi) → valid k → Forall (λ x, norder x k = 0) m → Forall (λ x, 0 < norder x k) hi →
  i = Z.of_nat (length pre) →
  end_loop ncompare (length (m ++ hi)) (ptrs (pre ++ m ++ hi) ++ d) k i fin
  = Ok (fin + Z.of_nat (length m)).
Proof.
  intros Hv Hk Hm Hhi. revert pre i fin. induction m as [|x m IH]; intros pre i fin ->.
  - destruct hi as [|y hi]; cbn [app length end_loop]; [f_equal; simpl; lia|].
    apply Forall_cons in Hhi as [Hy _]. apply Forall_cons in Hv as [Vy _].
    rewrite (slot_lookup _ _ _ y) by (by apply list_lookup_middle). cbn [mbind M_bind on_ptrs].
    rewrite ncompare_order by done. cbn [mbind M_bind]. rewrite (proj2 (Z.eqb_neq _ _)) by lia.
    cbn [negb]. f_equal. simpl. lia.
  - apply Forall_cons in Hm as [Hx Hm]. apply Forall_cons in Hv as [Vx Hv].
    cbn [app length end_loop]. rewrite (slot_lookup _ _ _ x) by (by apply list_lookup_middle).
    cbn [mbind M_bind on_ptrs]. rewrite ncompare_order by done. cbn [mbind M_bind].
    rewrite Hx. cbn [Z.eqb negb]. specialize (IH Hv Hm (pre ++ [x])).
    rewrite <- app_assoc in IH. cbn [app] in IH. rewrite IH by (rewrite length_app; simpl; lia).
    f_equal. lia.
Qed.

(** The entries with the partial key, or [NULL]. *)
Definition s_subset (k : A) (s : list A) : option (list (option A)) :=
  match filter (λ x, norder x k = 0) s with [] => None | l => Some (ptrs l) end.

Lemma bands_filter k lo m hi :
  Forall (λ x, norder x k < 0) lo → Forall (λ x, norder x k = 0) m →
  Forall (λ x, 0 < norder x k) hi → filter (λ x, norder x k = 0) (lo ++ m ++ hi) = m.
Proof.
  intros H1 H2 H3. rewrite !filter_app, (filter_all _ m) by done.
  rewrite (filter_none _ lo) by (eapply Forall_impl; [done|]; cbn; intros; lia).
  rewrite (filter_none _ hi) by (eapply Forall_impl; [done|]; cbn; intros; lia).
  by rewrite app_nil_r.
Qed.

Lemma search_start_spec c k lo m hi :
  holds_now c (lo ++ m ++ hi) → valid k → lo ++ m ++ hi ≠ [] →
  Forall (λ x, norder x k < 0) lo → Forall (λ x, norder x k = 0) m →
  Forall (λ x, 0 < norder x k) hi →
  binary_search_for_start compare ncompare k c
  = Ok (c, match m with [] => -1 | _ => Z.of_nat (length lo) end).
Proof.
  intros (H & Hd & d & Hdata) Hk Hne H1 H2 H3. unfold binary_search_for_start, sort_if_dirty.
  pose proof (holds_valid _ _ H) as Hv. pose proof (holds_small _ _ H) as Hb.
  rewrite Hd, (holds_count _ _ H). destruct (Z.eqb_spec (Z.of_nat (length (lo ++ m ++ hi))) 0) as [Hz|_].
  { destruct (lo ++ m ++ hi); [done|simpl in Hz; lia]. }
  cbn [mbind M_bind]. rewrite Hdata. rewrite !length_app in Hb.
  rewrite start_loop_spec; [|done|done|done| |lia|rewrite !length_app; lia|lia].
  2:{ apply Forall_app. split; eapply Forall_impl; try done; cbn; intros; lia. }
  cbn [mbind M_bind]. rewrite (holds_count _ _ H), !length_app.
  destruct (Z.leb_spec (Z.of_nat (length lo + (length m + length hi))) (Z.of_nat (length lo))).
  { destruct m; [done|simpl in *; lia]. }
  rewrite !Forall_app in Hv. destruct Hv as (_ & Vm & Vh).
  destruct m as [|x m]; [destruct hi as [|x hi]; [simpl in *; lia|]|].
  - apply Forall_cons in Vh as [Vx _]. apply Forall_cons in H3 as [H3 _]. cbn [app].
    rewrite (slot_lookup _ _ _ x) by (by apply list_lookup_middle). cbn [mbind M_bind on_ptrs].
    rewrite ncompare_order by done. cbn [mbind M_bind]. by rewrite (proj2 (Z.eqb_neq _ _)) by lia.
  - apply Forall_cons in Vm as [Vx _]. apply Forall_cons in H2 as [H2 _]. cbn [app].
    rewrite (slot_lookup _ _ _ x) by (by apply list_lookup_middle). cbn [mbind M_bind on_ptrs].
    rewrite ncompare_order by done. cbn [mbind M_bind]. rewrite H2. cbn [Z.eqb negb].
    by rewrite s32_id by lia.
Qed.

(** get_subset gives the entries with the partial key, all of them and in order,
    and [NULL] when there are none. *)
Lemma subset_of_partial_key malloc_ok c s k :
  holds c s → valid k → (∀ n, malloc_ok n = true) →
  ∃ c', _ba_get_subset compare ncompare malloc_ok c (Some k) = Ok (c', s_subset k s) ∧ holds c' s.
Proof.
  intros H Hk Hmem. unfold _ba_get_subset, netsnmp_binary_array_get_subset, s_subset.
  rewrite (holds_count _ _ H). destruct (Z.eqb_spec (Z.of_nat (length s)) 0) as [Hz|Hz].
  { destruct s; [|simpl in Hz; lia]. by exists c. }
  destruct (sort_holds c s H) as (c' & -> & Hn). cbn [mbind M_bind].
  destruct (sorted_bands k s (holds_sorted _ _ H)) as (lo & m & hi & -> & H1 & H2 & H3).
  rewrite (search_start_spec c' k lo m hi) by (done || by intros E; rewrite E in Hz).
  cbn [mbind M_bind]. rewrite bands_filter by done. exists c'. split; [|apply Hn].
  destruct m as [|x m]; [done|]. rewrite (proj2 (Z.eqb_neq _ _)) by lia.
  destruct Hn as (Hn & _ & d & Hd). pose proof (holds_small _ _ Hn) as Hb.
  pose proof (holds_valid _ _ Hn) as Hv. rewrite !Forall_app, Forall_cons in Hv.
  destruct Hv as (_ & (_ & Vm) & Vh). apply Forall_cons in H2 as [_ H2].
  rewrite Hd, (holds_count _ _ Hn). rewrite !length_app in Hb |- *. cbn [length] in Hb |- *.
  replace (Z.to_nat (Z.of_nat (length lo + (S (length m) + length hi)) - (Z.of_nat (length lo) + 1)))
    with (length (m ++ hi)) by (rewrite length_app; lia).
  replace (lo ++ (x :: m) ++ hi) with ((lo ++ [x]) ++ m ++ hi) by (by rewrite <- app_assoc).
  rewrite end_loop_spec;
    [|by apply Forall_app|done|done|done|rewrite length_app; simpl; lia].
  cbn [mbind M_bind]. rewrite Hmem, s32_id by lia.
  replace (Z.to_nat _) with (S (length m)) by lia. rewrite Nat2Z.id.
  replace (ptrs ((lo ++ [x]) ++ m ++ hi) ++ d) with (ptrs lo ++ ptrs (x :: m) ++ ptrs hi ++ d) by same_data.
  rewrite drop_app_length' by (by rewrite length_fmap).
  rewrite take_app_length' by (by rewrite length_fmap). cbn [fmap list_fmap].
  by rewrite Hmem.
Qed.
End Subset.
Arguments PartialComparison {A} ncompare valid order norder.
Arguments s_subset {A} norder k s.

(** ** Examples: entries that are numbers, with a partial key of all but the last digit *)

Definition sample_compare (x y : Z) : M Z := Ok (x - y).
Definition sample_ncompare (x k : Z) : M Z := Ok (x / 10 - k / 10).

#[global] Instance sample_comparison : Comparison sample_compare (λ _, True) Z.sub.
Proof. split; unfold sample_compare; try done; lia. Qed.

#[global] Instance sample_partial :
  PartialComparison sample_ncompare (λ _, True) Z.sub (λ x k, x / 10 - k / 10).
Proof. split; unfold sample_ncompare, olt; [done|..]; intros x y k H; Z.div_mod_to_equations; lia. Qed.

Definition sample_container : netsnmp_container Z :=
  Container (Table 5 4 0 true [Some 31; Some 12; Some 25; Some 17; None]) 7.

Definition sample_sorted : netsnmp_container Z :=
  Container (Table 5 4 0 false [Some 12; Some 17; Some 25; Some 31; None]) 8.

Lemma sample_holds : holds (λ _, True) Z.sub sample_container [12; 17; 25; 31].
Proof.
  constructor; try done.
  - repeat constructor; unfold olt; lia.
  - by repeat constructor.
  - exists [31; 12; 25; 17], [None]. split_and!; [done| |done].
    apply (bool_decide_unpack _). by vm_compute.
Qed.

Lemma sample_sorted_holds : holds_now (λ _, True) Z.sub sample_sorted [12; 17; 25; 31].
Proof.
  split; [|split; [done|by exists [None]]]. constructor; try done.
  - repeat constructor; unfold olt; lia.
  - by repeat constructor.
  - by exists [12; 17; 25; 31], [None].
Qed.

Lemma array_qsort_sorts_witness :
  ∃ l' n, array_qsort sample_compare 5 ([None] ++ ptrs [3; 1; 2; 1; 0] ++ [None]) 1 5
      = Ok ([None] ++ ptrs l' ++ [None]) ∧
    l' ≡ₚ [3; 1; 2; 1; 0] ∧ StronglySorted (ole Z.sub) l' ∧
    qsort_calls sample_compare 5 ([None] ++ ptrs [3; 1; 2; 1; 0] ++ [None]) 1 5 = Ok n ∧ (n ≤ 5)%nat.
Proof. apply (array_qsort_sorts [None] [None] [3; 1; 2; 1; 0]); [by repeat constructor|done|done]. Defined.

Lemma container_refines_set_witness :
  ∃ c', run sample_compare (λ _ _, true) (Container netsnmp_binary_array_initialize 0)
      [OInsert 5; OInsert 3; OInsert 5; ONext None; OFind 3; ORemove 5; ORemove 4; OSize; OAll]
    = Ok (c', [RInt 0; RInt 0; RInt (-1); RPtr (Some 3); RPtr (Some 3); RInt 0; RInt (-1); RInt 1;
               RList [Some 3]]) ∧
    holds (λ _, True) Z.sub c' [3].
Proof.
  apply (container_refines_set (compare := sample_compare) (valid := λ _, True) (order := Z.sub) (λ _ _, true) 0
    [OInsert 5; OInsert 3; OInsert 5; ONext None; OFind 3; ORemove 5; ORemove 4; OSize; OAll]);
    [done|by repeat constructor|done].
Defined.

Lemma walk_in_order_witness :
  (∃ c', walk sample_compare 5 sample_container None = Ok (c', [12; 17; 25; 31]) ∧
    holds (λ _, True) Z.sub c' [12; 17; 25; 31]) ∧
  (∃ c' it p, _ba_iterator_reset sample_compare sample_container = Ok (c', it) ∧
     _ba_iterator_curr c' it = Ok p ∧ it_walk 4 c' it p = Ok [12; 17; 25; 31]).
Proof. apply (walk_in_order sample_container [12; 17; 25; 31] sample_holds). Defined.

Lemma iterator_skips_after_remove_witness :
  _ba_iterator_curr sample_sorted (Iterator 8 1) = Ok (Some 17) ∧
  ∃ c' it', netsnmp_binary_array_remove sample_compare sample_sorted 17 = Ok (c', 0, Some 17) ∧
    holds (λ _, True) Z.sub c' [12; 25; 31] ∧
    _ba_iterator_next c' (Iterator 8 1) = Ok (it', Some 31).
Proof.
  apply (iterator_skips_after_remove sample_sorted [12] 17 25 [31] (Iterator 8 1) sample_sorted_holds);
    done.
Defined.

Lemma subset_of_partial_key_witness :
  ∃ c', _ba_get_subset sample_compare sample_ncompare (λ _, true) sample_container (Some 10)
      = Ok (c', Some [Some 12; Some 17]) ∧ holds (λ _, True) Z.sub c' [12; 17; 25; 31].
Proof.
  apply (subset_of_partial_key (norder := λ x k, x / 10 - k / 10) (λ _, true) sample_container
    [12; 17; 25; 31] 10 sample_holds); done.
Defined.
