(* ===== verification/Container.v ===== *)
(** * Containers with several indexes: snmplib/container.c

    Models the comparison routines for entries that begin with an object identifier or
    that are strings of octets, and the functions that work on a chain of
    containers, each an index of the same entries with an order of its own and an
    optional filter: CONTAINER_INSERT and CONTAINER_REMOVE.

    The chain relies on the interface [SetContainer]; the sorted array provides it.
    Theorems: the comparison of object identifiers is an order the array can use,
    and an insertion into a chain takes place in every index or in none.  The
    registry of container types, CONTAINER_CLEAR, CONTAINER_FREE and the logging of
    errors are left out. *)

From S2P Require Import Prelude Ber BinaryArray ArraySort ArraySet OidCompare.
From stdpp Require Import prelude numbers list sorting.
From Stdlib Require Import ZArith Lia.
Open Scope Z_scope.

(** ** Comparison routines *)

Record netsnmp_index := Index { len : Z; oids : list Z }.

Definition netsnmp_compare_netsnmp_index (lhs rhs : netsnmp_index) : M Z :=
  snmp_oid_compare (oids lhs) (len lhs) (oids rhs) (len rhs).

Definition netsnmp_ncompare_netsnmp_index (lhs rhs : netsnmp_index) : M Z :=
  snmp_oid_ncompare (oids lhs) (len lhs) (oids rhs) (len rhs) (len rhs).

(** [memcmp] *)
Fixpoint memcmp (n : nat) (lhs rhs : list Z) : M Z :=
  match n with
  | O => Ok 0
  | S n =>
      match lhs, rhs with
      | a :: lhs, b :: rhs => if a =? b then memcmp n lhs rhs else Ok (a - b)
      | _, _ => UB
      end
  end.

Definition netsnmp_compare_mem (lhs : list Z) (lhs_len : Z) (rhs : list Z) (rhs_len : Z) : M Z :=
  let min := s32 (if lhs_len <? rhs_len then lhs_len else rhs_len) in
  rc ← memcmp (Z.to_nat (u32 min)) lhs rhs;
  if (rc =? 0) && negb (lhs_len =? rhs_len) then Ok (if lhs_len <? rhs_len then -1 else 1)
  else Ok rc.

(** ** Chains *)

(** What a chain uses of a container of entries [A]. *)
Class ContainerOps (C A : Type) := {
  c_insert : C → A → M (C * Z);
  c_remove : C → A → M (C * Z);
}.

Section Chain.
Context {C A : Type} {ops : ContainerOps C A}.

(** A container and its [insert_filter]; a chain is the list along [next]. *)
Record link := Link { ctr : C; insert_filter : option (A → Z) }.

Definition skips (l : link) (k : A) : bool :=
  match insert_filter l with Some f => f k =? 1 | None => false end.

Fixpoint CONTAINER_INSERT_HELPER (x : list link) (k : A) : M (list link * Z) :=
  match x with
  | [] => Ok ([], 0)
  | l :: x =>
      if skips l k then '(x, rc) ← CONTAINER_INSERT_HELPER x k; Ok (l :: x, rc)
      else
        '(c, rc) ← c_insert (ctr l) k;
        if negb (rc =? 0) then Ok (Link c (insert_filter l) :: x, rc)
        else
          '(x, rc) ← CONTAINER_INSERT_HELPER x k;
          if negb (rc =? 0) then
            '(c, _) ← c_remove c k; Ok (Link c (insert_filter l) :: x, rc)
          else Ok (Link c (insert_filter l) :: x, rc)
  end.

(** From whichever container of the chain: it starts at the first one. *)
Definition CONTAINER_INSERT (x : list link) (k : A) : M (list link * Z) :=
  CONTAINER_INSERT_HELPER x k.

(** From the last container to the first; errors of filtered ones are ignored. *)
Fixpoint CONTAINER_REMOVE (x : list link) (k : A) : M (list link * Z) :=
  match x with
  | [] => Ok ([], 0)
  | l :: x =>
      '(x, rc) ← CONTAINER_REMOVE x k;
      '(c, rc2) ← c_remove (ctr l) k;
      Ok (Link c (insert_filter l) :: x,
          if negb (rc2 =? 0) && bool_decide (insert_filter l = None) then rc2 else rc)
  end.

(** [netsnmp_container_add_index] *)
Definition netsnmp_container_add_index (primary : list link) (new_index : list link) : list link :=
  primary ++ new_index.
End Chain.
Arguments link : clear implicits.

(** ** What a container promises to a chain *)

(** [set_of c o s]: the container holds the set [s] sorted by [o]. *)
Class SetContainer (C A : Type) {ops : ContainerOps C A} (valid : A → Prop) (no_memory : Prop) := {
  set_of : C → (A → A → Z) → list A → Prop;
  set_insert c o s k :
    set_of c o s → valid k → Z.of_nat (length s) + 1 < 2 ^ 30 →
    ∃ c' rc, c_insert c k = Ok (c', rc) ∧
      (rc = 0 ∧ s_find o k s = None ∧ set_of c' o (s_insert o k s) ∨
       rc ≠ 0 ∧ set_of c' o s ∧ (s_find o k s = None → no_memory));
  set_remove c o s k :
    set_of c o s → valid k →
    ∃ c' rc, c_remove c k = Ok (c', rc) ∧ set_of c' o (s_remove o k s) ∧
      (rc = 0 ↔ s = [] ∨ is_Some (s_find o k s));
  set_undo c o s k :
    set_of c o s → s_find o k s = None → s_remove o k (s_insert o k s) = s;
}.

Section ChainTheorems.
Context {C A : Type} {ops : ContainerOps C A} {valid : A → Prop} {no_memory : Prop}.
Context {container : SetContainer C A valid no_memory}.

(** The orders and the sets of a chain. *)
Definition chain_of (x : list (link C A)) (sets : list ((A → A → Z) * list A)) : Prop :=
  Forall2 (λ l os, set_of (ctr l) os.1 os.2) x sets.

(** No index that takes [k] has its key. *)
Definition new_everywhere (x : list (link C A)) (k : A) (sets : list ((A → A → Z) * list A)) : Prop :=
  Forall2 (λ l os, skips l k = false → s_find os.1 k os.2 = None) x sets.

(** The sets with [k] in every index that takes it. *)
Definition with_entry (x : list (link C A)) (k : A) (sets : list ((A → A → Z) * list A))
    : list ((A → A → Z) * list A) :=
  zip_with (λ l os, (os.1, if skips l k then os.2 else s_insert os.1 k os.2)) x sets.

(** C17: an insertion into a chain of indexes takes place in all of them that do not
    filter the entry, or in none: when an index has the key already or memory runs
    out, the entry is taken out again of those that have it. *)
Theorem chain_insert_all_or_none x sets k :
  chain_of x sets → valid k → Forall (λ os, Z.of_nat (length os.2) + 1 < 2 ^ 30) sets →
  ∃ x' rc, CONTAINER_INSERT x k = Ok (x', rc) ∧
    (rc = 0 ∧ new_everywhere x k sets ∧ chain_of x' (with_entry x k sets) ∨
     rc ≠ 0 ∧ chain_of x' sets ∧ (new_everywhere x k sets → no_memory)).
Proof.
  intros Hx Hk. unfold CONTAINER_INSERT. induction Hx as [|l [o s] x sets Hl Hx IH]; intros Hb.
  { exists [], 0. split; [done|]. left. split_and!; [done|constructor|constructor]. }
  apply Forall_cons in Hb as [Hs Hb]. destruct (IH Hb) as (x' & rc & E & Hx').
  cbn [CONTAINER_INSERT_HELPER]. cbn [fst snd] in Hl, Hs.
  unfold chain_of, new_everywhere, with_entry in *. cbn [zip_with].
  destruct (skips l k) eqn:Hskip.
  - rewrite E. cbn [mbind M_bind]. exists (l :: x'), rc. split; [done|].
    destruct Hx' as [(-> & Hn & Hc)|(Hrc & Hc & Hn)]; [left|right]; split_and!; try done.
    + by constructor; [rewrite Hskip|].
    + by constructor.
    + by constructor.
    + intros Hnew. apply Forall2_cons in Hnew as [_ Hnew]. auto.
  - destruct (set_insert (ctr l) o s k Hl Hk Hs) as (c & rc1 & -> & [(-> & Hf & Hc1)|(Hrc1 & Hc1 & Hn1)]).
    2:{ cbn [mbind M_bind]. rewrite (proj2 (Z.eqb_neq _ _)) by done. cbn [negb].
        eexists _, rc1. split; [done|]. right. split_and!; [done|by constructor|].
        intros Hnew. apply Forall2_cons in Hnew as [Hnew _]. auto. }
    cbn [mbind M_bind Z.eqb negb]. rewrite E. cbn [mbind M_bind].
    destruct Hx' as [(-> & Hn & Hc)|(Hrc & Hc & Hn)].
    + cbn [Z.eqb negb]. eexists _, 0. split; [done|]. left. split_and!; [done|by constructor|].
      by constructor.
    + rewrite (proj2 (Z.eqb_neq _ _)) by done. cbn [negb].
      destruct (set_remove c o (s_insert o k s) k Hc1 Hk) as (c2 & rc2 & -> & Hc2 & _).
      cbn [mbind M_bind]. rewrite (set_undo (ctr l)) in Hc2 by done.
      eexists _, rc. split; [done|]. right. split_and!; [done|by constructor|].
      intros Hnew. apply Forall2_cons in Hnew as [_ Hnew]. auto.
Qed.
End ChainTheorems.

(** ** Sorted arrays in a chain *)

(** A container of entries, with the routine that orders it. *)
Record array_container (A : Type) := ArrayContainer {
  a_container : netsnmp_container A;
  a_compare : A → A → M Z;
}.
Arguments ArrayContainer {A}.
Arguments a_container {A}.
Arguments a_compare {A}.

Section Arrays.
Context {A : Type}.
Variable calloc_ok : Z → Z → bool.

(** [_ba_insert] and [_ba_remove] *)
Definition _ba_insert (c : array_container A) (k : A) : M (array_container A * Z) :=
  '(t, rc) ← netsnmp_binary_array_insert (a_compare c) calloc_ok (a_container c) k;
  Ok (ArrayContainer t (a_compare c), rc).

Definition _ba_remove (c : array_container A) (k : A) : M (array_container A * Z) :=
  '(t, rc, _) ← netsnmp_binary_array_remove (a_compare c) (a_container c) k;
  Ok (ArrayContainer t (a_compare c), rc).

#[local] Instance array_ops : ContainerOps (array_container A) A :=
  {| c_insert := _ba_insert; c_remove := _ba_remove |}.

(** Taking out what was just put in. *)
Lemma remove_inserted {compare : A → A → M Z} {valid : A → Prop} {order : A → A → Z}
    {Hc : Comparison compare valid order} k s :
  StronglySorted (olt order) s → s_find order k s = None →
  s_remove order k (s_insert order k s) = s.
Proof.
  intros Hs Hf. destruct (sorted_around k s Hs) as (lo & e & hi & Har).
  pose proof (around_filters _ _ _ _ _ Har) as (F0 & F1 & F2 & _ & Es & _).
  unfold s_find in Hf. rewrite F1 in Hf. destruct e; [done|]. simpl in Es.
  destruct (insert_sorted k s Hs) as [Hi _]; [by unfold s_find; rewrite F1|].
  unfold s_insert in *. rewrite F0, F2 in *. rewrite Es.
  apply (around_self lo k hi Hi).
Qed.

(** The sorted array keeps the promise; it fails for lack of memory only when the
    allocator refused. *)
#[local] Program Instance array_set (valid : A → Prop) :
    SetContainer (array_container A) A valid (∃ n m, calloc_ok n m = false) :=
  {| set_of c o s := Comparison (a_compare c) valid o ∧ holds valid o (a_container c) s |}.
Next Obligation.
  intros valid c o s k [Hc H] Hk Hb. cbn. unfold _ba_insert.
  destruct (insert_spec (compare := a_compare c) calloc_ok _ s k H Hk Hb) as (t & rc & -> & Hr).
  cbn [mbind M_bind]. eexists _, rc. split; [done|]. cbn. destruct Hr as [(-> & Hf & Ht)|(-> & Ht & Hn)].
  - left. by split_and!.
  - right. by split_and!.
Qed.
Next Obligation.
  intros valid c o s k [Hc H] Hk. cbn. unfold _ba_remove.
  destruct (remove_spec (compare := a_compare c) _ s k H Hk) as (t & -> & Ht). cbn [mbind M_bind].
  eexists _, _. split; [done|]. cbn. split; [done|]. by case_decide.
Qed.
Next Obligation.
  intros valid c o s k [Hc H] Hf. by apply (remove_inserted (compare := a_compare c)); [apply (holds_sorted _ _ H)|].
Qed.
End Arrays.

(** ** Entries ordered by object identifier *)

(** The subidentifiers of an index. *)
Definition arcs (i : netsnmp_index) : list Z := take (Z.to_nat (len i)) (oids i).

Definition valid_index (i : netsnmp_index) : Prop :=
  0 ≤ len i ≤ zlen (oids i) ∧ len i < 2 ^ 31.

Definition index_order (x y : netsnmp_index) : Z := oid_cmp (arcs x) (arcs y).

(** As far as the partial key goes. *)
Definition index_norder (x k : netsnmp_index) : Z :=
  oid_cmp (take (length (arcs k)) (arcs x)) (arcs k).

Lemma index_stored i : valid_index i → stored (oids i) (len i) (arcs i) ∧ zlen (arcs i) = len i.
Proof.
  intros [H1 H2]. assert (zlen (arcs i) = len i) as Hl.
  { unfold arcs, zlen in *. rewrite length_take. lia. }
  split; [|done]. exists (drop (Z.to_nat (len i)) (oids i)). split_and!; [|done|done].
  unfold arcs. by rewrite take_drop.
Qed.

Lemma oid_cmp_prefixes n o1 o2 : oid_cmp o1 o2 ≤ 0 → oid_cmp (take n o1) (take n o2) ≤ 0.
Proof.
  revert o1 o2. induction n as [|n IH]; intros [|a o1] [|b o2]; simpl; try done; try lia.
  destruct (a =? b); [apply IH|]. destruct (a <? b); lia.
Qed.

#[global] Instance index_comparison :
  Comparison netsnmp_compare_netsnmp_index valid_index index_order.
Proof.
  split; unfold index_order.
  - intros x y Hx Hy. apply compare_stored; by apply index_stored.
  - intros x. apply oid_cmp_refl.
  - intros x y. rewrite (oid_cmp_antisym (arcs y)). lia.
  - intros x y z. apply oid_cmp_trans.
Qed.

#[global] Instance index_partial :
  PartialComparison netsnmp_ncompare_netsnmp_index valid_index index_order index_norder.
Proof.
  assert (∀ x y k, olt index_order x y → oid_cmp (take (length (arcs k)) (arcs x))
    (take (length (arcs k)) (arcs y)) ≤ 0) as Hle.
  { intros x y k H. apply oid_cmp_prefixes. unfold olt, index_order in H. lia. }
  split; unfold index_norder.
  - intros x k Hx Hk. destruct (index_stored x Hx) as [Sx _], (index_stored k Hk) as [Sk Lk].
    unfold netsnmp_ncompare_netsnmp_index. destruct Hk as [Hk1 Hk2].
    assert (0 ≤ len k < 2 ^ 31) as Hb by lia.
    rewrite (proj1 (snmp_oid_compare_variants _ _ _ _ _ _ (len k) Sx Sk Hb)).
    rewrite <- Lk. rewrite Z_to_nat_zlen. by rewrite (take_ge (arcs k) (length (arcs k))) by done.
  - intros x y k Hxy Hy. pose proof (oid_cmp_trans _ _ (arcs k) (Hle x y k Hxy)) as Hx.
    destruct (decide (oid_cmp (take (length (arcs k)) (arcs x)) (arcs k) = 0)) as [E|]; [|lia].
    apply oid_cmp_eq in E. pose proof (Hle x y k Hxy) as H1. rewrite E in H1.
    rewrite oid_cmp_antisym in H1. lia.
  - intros x y k Hxy Hx. pose proof (Hle x y k Hxy) as H1.
    destruct (Z_lt_le_dec 0 (oid_cmp (take (length (arcs k)) (arcs y)) (arcs k))) as [|Hy]; [done|].
    pose proof (oid_cmp_trans _ _ _ H1 Hy). lia.
Qed.

(** The entries at or below an object identifier. *)
Lemma norder_prefix x k : index_norder x k = 0 ↔ arcs k `prefix_of` arcs x.
Proof.
  unfold index_norder. rewrite oid_cmp_eq. split.
  - intros E. exists (drop (length (arcs k)) (arcs x)). rewrite <- E at 1. by rewrite take_drop.
  - intros [r ->]. by rewrite take_app_length.
Qed.

(** Get_subset on a container of entries that are ordered by object identifier
    gives the entries in the subtree below the key, all of them and in order, and [NULL]
    when there are none. *)
Theorem index_subset_is_subtree malloc_ok c s k :
  holds valid_index index_order c s → valid_index k → (∀ n, malloc_ok n = true) →
  ∃ c', _ba_get_subset netsnmp_compare_netsnmp_index netsnmp_ncompare_netsnmp_index malloc_ok c (Some k)
      = Ok (c', match filter (λ x, arcs k `prefix_of` arcs x) s with
                | [] => None
                | l => Some (ptrs l)
                end) ∧ holds valid_index index_order c' s.
Proof.
  intros H Hk Hm. destruct (subset_of_partial_key (norder := index_norder) malloc_ok c s k H Hk Hm)
    as (c' & E & Hc). exists c'. split; [|done]. rewrite E. unfold s_subset.
  rewrite (list_filter_iff _ (λ x, arcs k `prefix_of` arcs x)); [done|].
  intros x. apply norder_prefix.
Qed.

(** ** Examples *)

(** Two indexes, the second in descending order. *)
Definition sample_chain : list (link (array_container Z) Z) :=
  [Link (ArrayContainer sample_container sample_compare) None;
   Link (ArrayContainer (Container (Table 2 2 0 true [Some 7; Some 20]) 0) (λ x y, Ok (y - x))) None].

Definition sample_sets : list ((Z → Z → Z) * list Z) :=
  [(Z.sub, [12; 17; 25; 31]); (λ x y, y - x, [20; 7])].

#[local] Instance sample_down : Comparison (λ x y, Ok (y - x)) (λ _, True) (λ x y : Z, y - x).
Proof. split; try done; lia. Qed.

Lemma sample_down_holds :
  holds (λ _, True) (λ x y : Z, y - x) (Container (Table 2 2 0 true [Some 7; Some 20]) 0) [20; 7].
Proof.
  constructor; try done.
  - repeat constructor; unfold olt; lia.
  - by repeat constructor.
  - exists [7; 20], []. split_and!; [done| |done]. apply (bool_decide_unpack _). by vm_compute.
Qed.

Lemma sample_chain_of :
  @chain_of _ _ _ _ _ (array_set (λ _ _, true) (λ _, True)) sample_chain sample_sets.
Proof.
  constructor; [split; [apply sample_comparison|apply sample_holds]|].
  constructor; [split; [apply sample_down|apply sample_down_holds]|constructor].
Qed.

(** The second index has 20 already: the first one gives it up again. *)
Lemma chain_insert_all_or_none_witness :
  ∃ x' rc, @CONTAINER_INSERT _ _ (array_ops (λ _ _, true)) sample_chain 20 = Ok (x', rc) ∧ rc ≠ 0 ∧
    @chain_of _ _ _ _ _ (array_set (λ _ _, true) (λ _, True)) x' sample_sets.
Proof.
  destruct (@chain_insert_all_or_none _ _ _ _ _ (array_set (λ _ _, true) (λ _, True)) sample_chain
    sample_sets 20 sample_chain_of I ltac:(by repeat constructor))
    as (x' & rc & E & [(_ & Hn & _)|(Hrc & Hc & _)]); [|by exists x', rc].
  exfalso. apply Forall2_cons in Hn as [_ Hn]. apply Forall2_cons in Hn as [Hn _].
  specialize (Hn eq_refl). vm_compute in Hn. done.
Defined.

Definition sample_indexes : list netsnmp_index :=
  [Index 2 [1; 3; 9]; Index 3 [1; 3; 6]; Index 4 [1; 3; 6; 1]; Index 2 [1; 5]].

Definition sample_index_container : netsnmp_container netsnmp_index :=
  Container (Table 4 4 0 false (ptrs sample_indexes)) 0.

Lemma index_subset_is_subtree_witness :
  ∃ c', _ba_get_subset netsnmp_compare_netsnmp_index netsnmp_ncompare_netsnmp_index (λ _, true)
      sample_index_container (Some (Index 3 [1; 3; 6]))
    = Ok (c', Some [Some (Index 3 [1; 3; 6]); Some (Index 4 [1; 3; 6; 1])]) ∧
    holds valid_index index_order c' sample_indexes.
Proof.
  apply (index_subset_is_subtree (λ _, true) sample_index_container sample_indexes (Index 3 [1; 3; 6]));
    [|by vm_compute|done].
  constructor; try done.
  - repeat constructor.
  - repeat constructor; by vm_compute.
  - by exists sample_indexes, [].
Defined.
