(* ===== verification/V3.v ===== *)
(** * SNMPv3 messages: snmplib/snmp_api.c

    Models snmpv3_build with the reverse encoder of SNMPv3 packets
    (snmpv3_packet_realloc_rbuild and the functions it calls) and snmpv3_parse with
    snmpv3_scopedPDU_parse.  The security models are reached through find_sec_mod and
    are a parameter: encode_reverse makes the whole message of a header and a scoped
    PDU, decode checks a message and uncovers its scoped PDU.

    What the message layer relies on in a security model is the class
    [SecurityModel]; [plain_model] is an instance without any security.

    Theorems: a message built by snmpv3_build is received by snmpv3_parse with
    the same contents, between security models of the class; what snmpv3_parse
    accepts was accepted by the security model; what snmpv3_build refuses.  The
    forward encoder, what a refused message leaves in the PDU for a report, and the
    counters of malformed packets are left out. *)

From S2P Require Import Prelude Ber Asn1 Asn1Int Asn1Str Asn1Oid Asn1Int64 Asn1Float.
From S2P Require Import Asn1Rbuild VarBind Pdu PduRbuild PduParse PduRoundtrip Message Session.
From stdpp Require Import prelude numbers list.
From Stdlib Require Import ZArith Lia.
Open Scope Z_scope.

Definition SNMP_MAX_MSG_SIZE : Z := 1472.
Definition SNMP_MAX_MSG_V3_HDRS : Z := 4 + 3 + 4 + 7 + 7 + 3 + 7 + 16.
Definition SNMP_MAX_ENG_SIZE : Z := 32.
Definition SNMP_MAX_SEC_NAME_SIZE : Z := 256.
Definition SNMP_MAX_CONTEXT_SIZE : Z := 256.
Definition SNMP_SEC_LEVEL_NOAUTH : Z := 1.
Definition SNMP_SEC_LEVEL_AUTHNOPRIV : Z := 2.
Definition SNMP_SEC_LEVEL_AUTHPRIV : Z := 3.
Definition SNMP_MSG_FLAG_AUTH_BIT : Z := 1.
Definition SNMP_MSG_FLAG_PRIV_BIT : Z := 2.
Definition SNMP_MSG_FLAG_RPRT_BIT : Z := 4.
Definition SNMP_DEFAULT_SECMODEL : Z := -1.
Definition NETSNMP_TSM_SECURITY_MODEL : Z := 2066434.
Definition SNMPERR_BAD_CONTEXT : Z := -17.
Definition SNMPERR_BAD_SEC_NAME : Z := -27.
Definition SNMPERR_BAD_SEC_LEVEL : Z := -28.

(** ** Data *)

(** The fields of [struct snmp_pdu] an SNMPv3 message is made of; the length fields
    are the lengths of the lists, and an absent name is a null pointer with length 0. *)
Record v3msg := V3Msg {
  v3_version : Z;
  v3_msgid : Z;
  v3_securityModel : Z;
  v3_securityLevel : Z;
  v3_contextEngineID : list Z;
  v3_contextName : option (list Z);
  v3_securityEngineID : list Z;
  v3_securityName : option (list Z);
  v3_pdu : netsnmp_pdu;
}.

(** The fields of the session that stand in for missing ones. *)
Record v3session := V3Session {
  vs_contextEngineID : list Z;
  vs_contextName : option (list Z);
  vs_securityEngineID : list Z;
  vs_securityName : option (list Z);
  vs_securityNameLen : Z;
  vs_securityModel : Z;
  vs_securityLevel : Z;
  vs_rcvMsgMaxSize : Z;
}.

(** [struct snmp_secmod_outgoing_params]; the packet is passed beside it. *)
Record outgoing := Outgoing {
  o_globalData : list Z;
  o_secModel : Z;
  o_secEngineID : list Z;
  o_secName : option (list Z);
  o_secLevel : Z;
  o_scopedPduLen : Z;
}.

(** [struct snmp_secmod_incoming_params] on entry. *)
Record incoming := Incoming {
  i_maxMsgSize : Z;
  i_secParams : nat;
  i_secModel : Z;
  i_secLevel : Z;
  i_wholeMsg : list Z;
  i_msg : nat;
  i_wholeMsgLen : Z;
  i_scopedPdu : option (list Z);
  i_scopedPduLen : Z;
  i_msg_flags : Z;
}.

(** The results of [decode]: its return value, the names, and the scoped PDU as a
    buffer, a position and [*scopedPduLen]. *)
Record decode_result := Decoded {
  d_ret : Z;
  d_secEngineID : list Z;
  d_secName : list Z;
  d_scopedPdu : option (list Z * nat);
  d_scopedPduLen : Z;
}.

(** The part of [struct snmp_secmod_def] that is used. *)
Record secmod := Secmod {
  encode_reverse : option (outgoing → rstate → M (rstate * Z));
  decode : option (incoming → M decode_result);
}.

(** What a received message left in the PDU. *)
Record v3recv := V3Recv {
  vr_version : Z;
  vr_msgid : Z;
  vr_report : bool;
  vr_securityModel : Z;
  vr_securityLevel : Z;
  vr_contextEngineID : list Z;
  vr_contextName : list Z;
  vr_securityEngineID : list Z;
  vr_securityName : list Z;
  vr_pdu : ppdu;
}.

(** ** Sending *)

(** [SNMP_CMD_CONFIRMED] *)
Definition SNMP_CMD_CONFIRMED (c : Z) : bool :=
  tag_in c [SNMP_MSG_INFORM; SNMP_MSG_GETBULK; SNMP_MSG_GETNEXT; SNMP_MSG_GET; SNMP_MSG_SET].

Definition snmpv3_calc_msg_flags (sec_level msg_command : Z) : Z :=
  let flags :=
    if sec_level =? SNMP_SEC_LEVEL_AUTHNOPRIV then SNMP_MSG_FLAG_AUTH_BIT
    else if sec_level =? SNMP_SEC_LEVEL_AUTHPRIV
    then Z.lor SNMP_MSG_FLAG_AUTH_BIT SNMP_MSG_FLAG_PRIV_BIT else 0 in
  if SNMP_CMD_CONFIRMED msg_command then Z.lor flags SNMP_MSG_FLAG_RPRT_BIT else flags.

Section Build.
Context `{alloc : Allocator}.
Variable malloc_ok : Z → bool.
Variable find_sec_mod : Z → option secmod.
(** The value of the library's default security model in the list of models. *)
Variable default_secmodel : Z.
(** The bytes of a new header buffer. *)
Variable uninit_hdrbuf : list Z.

(** The identifier is cleared when memory is refused. *)
Definition snmpv3_clone_engineID (src : list Z) : list Z :=
  if malloc_ok (zlen src) then src else [].

(** The [switch (pdu->command)] of [snmpv3_build]. *)
Definition v3_default_fields (p : netsnmp_pdu) : outcome netsnmp_pdu :=
  if tag_in (command p) [SNMP_MSG_RESPONSE; SNMP_MSG_TRAP2; SNMP_MSG_REPORT; SNMP_MSG_GET;
                         SNMP_MSG_GETNEXT; SNMP_MSG_SET; SNMP_MSG_INFORM]
  then Done (default_errors p)
  else if command p =? SNMP_MSG_GETBULK then
    if errindex p <? 0 then Fail SNMPERR_BAD_REPETITIONS
    else if errstat p <? 0 then Fail SNMPERR_BAD_REPEATERS
    else Done p
  else if command p =? SNMP_MSG_TRAP then Fail SNMPERR_V1_IN_V2
  else Fail SNMPERR_UNKNOWN_PDU.

(** The engine identifiers. *)
Definition fill_engines (s : v3session) (m : v3msg) : list Z * list Z :=
  let sec := if (zlen (v3_securityEngineID m) =? 0) && negb (zlen (vs_securityEngineID s) =? 0)
             then snmpv3_clone_engineID (vs_securityEngineID s) else v3_securityEngineID m in
  let con := if zlen (v3_contextEngineID m) =? 0 then
               if negb (zlen (vs_contextEngineID s) =? 0)
               then snmpv3_clone_engineID (vs_contextEngineID s)
               else if negb (zlen sec =? 0) then snmpv3_clone_engineID sec
               else v3_contextEngineID m
             else v3_contextEngineID m in
  (sec, con).

(** A copy made with [strdup]: of the characters and a NUL. *)
Definition strdup (s : list Z) : option (list Z) := if malloc_ok (zlen s + 1) then Some s else None.

Definition fill_contextName (s : v3session) (m : v3msg) : outcome (list Z) :=
  match v3_contextName m with
  | Some n => Done n
  | None =>
      match vs_contextName s with
      | None => Fail SNMPERR_BAD_CONTEXT
      | Some n => match strdup n with Some n => Done n | None => Fail SNMPERR_GENERR end
      end
  end.

Definition fill_securityModel (s : v3session) (m : v3msg) : Z :=
  if v3_securityModel m =? SNMP_DEFAULT_SECMODEL then
    if vs_securityModel s =? SNMP_DEFAULT_SECMODEL
    then if default_secmodel <=? 0 then SNMP_SEC_MODEL_USM else default_secmodel
    else vs_securityModel s
  else v3_securityModel m.

Definition fill_securityName (s : v3session) (m : v3msg) : outcome (option (list Z)) :=
  match v3_securityName m with
  | Some n => Done (Some n)
  | None =>
      if negb (vs_securityModel s =? NETSNMP_TSM_SECURITY_MODEL) && (vs_securityNameLen s =? 0)
      then Fail SNMPERR_BAD_SEC_NAME
      else
        match vs_securityName s with
        | None => Done None
        | Some n => match strdup n with Some n => Done (Some n) | None => Fail SNMPERR_GENERR end
        end
  end.

Definition fill_securityLevel (s : v3session) (m : v3msg) : outcome Z :=
  if v3_securityLevel m =? 0 then
    if vs_securityLevel s =? 0 then Fail SNMPERR_BAD_SEC_LEVEL else Done (vs_securityLevel s)
  else Done (v3_securityLevel m).

Definition bind_outcome {A B} (x : outcome A) (f : A → outcome B) : outcome B :=
  match x with Done a => f a | Fail e => Fail e end.

(** [snmpv3_build] up to the encoder. *)
Definition v3_complete (s : v3session) (m : v3msg) : outcome v3msg :=
  bind_outcome (v3_default_fields (v3_pdu m)) (λ p,
  let '(sec, con) := fill_engines s m in
  bind_outcome (fill_contextName s m) (λ cname,
  bind_outcome (fill_securityName s m) (λ sname,
  bind_outcome (fill_securityLevel s m) (λ level,
  Done (V3Msg (v3_version m) (v3_msgid m) (fill_securityModel s m) level con (Some cname) sec sname p))))).

Definition snmpv3_header_realloc_rbuild (s : v3session) (m : v3msg) (st : rstate) : M rstate :=
  let start_offset := offset st in
  st ← asn_realloc_rbuild_int true ASN_INTEGER (v3_securityModel m) SIZEOF_LONG st;
  let msg_flags := snmpv3_calc_msg_flags (v3_securityLevel m) (command (v3_pdu m)) in
  st ← asn_realloc_rbuild_string true ASN_OCTET_STR [msg_flags] 1 st;
  st ← asn_realloc_rbuild_int true ASN_INTEGER (s32 (vs_rcvMsgMaxSize s)) SIZEOF_LONG st;
  st ← asn_realloc_rbuild_int true ASN_INTEGER (v3_msgid m) SIZEOF_LONG st;
  st ← asn_realloc_rbuild_sequence true (Z.lor ASN_SEQUENCE ASN_CONSTRUCTOR)
         (since start_offset st) st;
  asn_realloc_rbuild_int true ASN_INTEGER (v3_version m) SIZEOF_LONG st.

Definition snmpv3_scopedPDU_header_realloc_rbuild (m : v3msg) (body_len : Z) (st : rstate)
    : M rstate :=
  let start_offset := offset st in
  let name := default [] (v3_contextName m) in
  st ← asn_realloc_rbuild_string true ASN_OCTET_STR name (zlen name) st;
  st ← asn_realloc_rbuild_string true ASN_OCTET_STR (v3_contextEngineID m)
         (zlen (v3_contextEngineID m)) st;
  asn_realloc_rbuild_sequence true (Z.lor ASN_SEQUENCE ASN_CONSTRUCTOR)
    (since start_offset st + body_len) st.

(** With [pdu_data] absent.  Returns the packet and the result: [Err] is -1. *)
Definition snmpv3_packet_realloc_rbuild (s : v3session) (m : v3msg) (st : rstate)
    : M (rstate * Z) :=
  let body_end_offset := offset st in
  st ← snmp_pdu_realloc_rbuild (v3_pdu m) st;
  st ← snmpv3_scopedPDU_header_realloc_rbuild m (since body_end_offset st) st;
  if negb (malloc_ok SNMP_MAX_MSG_V3_HDRS) then Err
  else
    hdr ← snmpv3_header_realloc_rbuild s m (RState uninit_hdrbuf 0);
    match find_sec_mod (v3_securityModel m) with
    | Some (Secmod (Some encode) _) =>
        encode (Outgoing (drop (length (pkt hdr) - offset hdr) (pkt hdr)) (v3_securityModel m)
                  (v3_securityEngineID m) (v3_securityName m) (v3_securityLevel m)
                  (Z.of_nat (offset st))) st
    | _ => Err
    end.

(** The packet, [*pkt_len], [*offset] and the completed PDU; the error number of a
    failed build is 0 when the encoder gave up and otherwise that of the security
    model. *)
Definition snmpv3_build (s : v3session) (m : v3msg) (st : rstate) : M (outcome (rstate * v3msg)) :=
  match v3_complete s m with
  | Fail e => Ok (Fail e)
  | Done m =>
      match snmpv3_packet_realloc_rbuild s m st with
      | UB => UB
      | Err => Ok (Fail 0)
      | Ok (st, ret) => Ok (if ret =? 0 then Done (st, m) else Fail (if ret =? -1 then 0 else ret))
      end
  end.
End Build.

(** ** Receiving *)

(** [m], or on an error return the given result. *)
Definition or_else {A B} (m : M A) (e : M B) (k : A → M B) : M B :=
  match m with Ok a => k a | Err => e | UB => UB end.

Section Parse.
Variable malloc_ok : Z → bool.
Variable find_sec_mod : Z → option secmod.
(** Local arrays: [objid] of the PDU parser, [tmp_buf] of either function. *)
Variable objid tmp_buf : list Z.

Notation seq_type := (Z.lor ASN_SEQUENCE ASN_CONSTRUCTOR).

(** Returns the position and length of the PDU, the context engine identifier, the
    context name and the type of the PDU.  A context name is copied to the result of
    [malloc] before that is compared with [NULL]. *)
Definition snmpv3_scopedPDU_parse (buf : list Z) (cp : option nat) (length : Z)
    : M (nat * Z * list Z * list Z * Z) :=
  '(data, _, _) ← asn_parse_sequence buf cp length seq_type;
  let length := u32 (length - (Z.of_nat data - Z.of_nat (default 0%nat cp))) in
  '(data, length, _, (eid, eid_len)) ←
    asn_parse_string buf data length (replicate (Z.to_nat SNMP_MAX_ENG_SIZE) 0) SNMP_MAX_ENG_SIZE;
  '(data, length, _, (name, name_len)) ←
    asn_parse_string buf data length tmp_buf SNMP_MAX_CONTEXT_SIZE;
  if negb (name_len =? 0) && negb (malloc_ok name_len) then UB
  else if (name_len =? 0) && negb (malloc_ok 1) then Err
  else
    '(_, _, type) ← asn_parse_header buf (Some data) length;
    Ok (data, length, take (Z.to_nat eid_len) eid, take (Z.to_nat name_len) name, type).

(** The fields of [msgGlobalData]: the position and length behind them, [msgID],
    [msgMaxSize] (which goes to the session at once), [msgFlags] and
    [msgSecurityModel]. *)
Record global := Global {
  g_data : nat;
  g_msgid : Z;
  g_max_size : Z;
  g_flags : Z;
  g_model : Z;
}.

(** [inl] carries [sess->sndMsgMaxSize] if it was stored before the error. *)
Definition parse_global (buf : list Z) (data : nat) (length : Z) : M (option Z + global) :=
  '(body, _, _) ← asn_parse_sequence buf (Some data) length seq_type;
  let length := u32 (length - (Z.of_nat body - Z.of_nat data)) in
  '(data, length, type, msgid) ← asn_parse_int buf body length SIZEOF_LONG;
  if negb (type =? ASN_INTEGER) || (msgid <? 0) || (0x7fffffff <? msgid) then Err
  else
    '(data, length, type, max_size) ← asn_parse_int buf data length SIZEOF_LONG;
    if negb (type =? ASN_INTEGER) || (max_size <? 484) || (0x7fffffff <? max_size) then Err
    else
      or_else (asn_parse_string buf data length tmp_buf SNMP_MAX_MSG_SIZE) (Ok (inl (Some max_size)))
        (λ '(data, length, type, (tmp, tmp_len)),
      if negb (type =? ASN_OCTET_STR) || negb (tmp_len =? 1) then Ok (inl (Some max_size))
      else
        msg_flags ← rd tmp 0;
        or_else (asn_parse_int buf data length SIZEOF_LONG) (Ok (inl (Some max_size)))
          (λ '(data, _, type, model),
        if negb (type =? ASN_INTEGER) || (model <? 1) || (0x7fffffff <? model)
        then Ok (inl (Some max_size))
        else Ok (inr (Global data msgid max_size msg_flags model)))).

(** [pdu->securityLevel] *)
Definition level_of_flags (msg_flags : Z) : Z :=
  if negb (Z.land msg_flags SNMP_MSG_FLAG_AUTH_BIT =? 0) then
    if negb (Z.land msg_flags SNMP_MSG_FLAG_PRIV_BIT =? 0) then SNMP_SEC_LEVEL_AUTHPRIV
    else SNMP_SEC_LEVEL_AUTHNOPRIV
  else SNMP_SEC_LEVEL_NOAUTH.

(** The buffer for a decrypted scoped PDU and its size: a larger one is allocated
    without a test. *)
Definition scoped_buffer (level msg_len : Z) : option (list Z) * Z :=
  if (SNMP_MAX_MSG_SIZE <? msg_len) && (level =? SNMP_SEC_LEVEL_AUTHPRIV)
  then (if malloc_ok msg_len then Some (replicate (Z.to_nat msg_len) 0) else None, msg_len)
  else (Some (replicate (Z.to_nat SNMP_MAX_MSG_SIZE) 0), SNMP_MAX_MSG_SIZE).

(** The scoped PDU and its PDU. *)
Definition parse_scoped (d : decode_result) : M (list Z * list Z * ppdu) :=
  let '(buf, cp) := match d_scopedPdu d with
                    | Some (b, p) => (b, Some p)
                    | None => ([], None)
                    end in
  '(data, length, eid, name, _) ← snmpv3_scopedPDU_parse buf cp (d_scopedPduLen d);
  p ← snmp_pdu_parse malloc_ok objid buf data length;
  if p_badtype p then Err else Ok (eid, name, p).

(** Returns [sess->sndMsgMaxSize] if it was stored, and the PDU or an error. *)
Definition snmpv3_parse (buf : list Z) (msg : nat) (msg_len : Z)
    : M (option Z * outcome v3recv) :=
  let bad := Ok (None, Fail SNMPERR_ASN_PARSE_ERR) in
  or_else (asn_parse_sequence buf (Some msg) msg_len seq_type) bad (λ '(data, length, _),
  or_else (asn_parse_int buf data length SIZEOF_LONG) bad (λ '(data, length, _, ver),
  or_else (parse_global buf data length) bad (λ g,
  match g with
  | inl max => Ok (max, Fail SNMPERR_ASN_PARSE_ERR)
  | inr g =>
      let fail e := Ok (Some (g_max_size g), Fail e) in
      match find_sec_mod (g_model g) with
      | None => fail SNMPERR_UNKNOWN_SEC_MODEL
      | Some sptr =>
          if negb (Z.land (g_flags g) SNMP_MSG_FLAG_PRIV_BIT =? 0)
             && (Z.land (g_flags g) SNMP_MSG_FLAG_AUTH_BIT =? 0)
          then fail SNMPERR_INVALID_MSG
          else if negb (malloc_ok SNMP_MAX_ENG_SIZE && malloc_ok (SNMP_MAX_ENG_SIZE * 2)
                        && malloc_ok SNMP_MAX_SEC_NAME_SIZE)
          then fail SNMPERR_MALLOC
          else
            let level := level_of_flags (g_flags g) in
            let '(room, room_len) := scoped_buffer level msg_len in
            match decode sptr with
            | None => fail (-1)
            | Some decode =>
                d ← decode (Incoming (g_max_size g) (g_data g) (g_model g) level buf msg msg_len
                              room room_len (g_flags g));
                if negb (d_ret d =? 0) then
                  or_else (match d_scopedPdu d with None => Err | Some _ => parse_scoped d end)
                    (fail (d_ret d)) (λ _, fail (d_ret d))
                else
                  or_else (parse_scoped d) (fail SNMPERR_ASN_PARSE_ERR) (λ '(eid, name, p),
                  Ok (Some (g_max_size g),
                      Done (V3Recv ver (g_msgid g)
                              (negb (Z.land (g_flags g) SNMP_MSG_FLAG_RPRT_BIT =? 0))
                              (g_model g) level eid name (d_secEngineID d) (d_secName d) p)))
            end
      end
  end))).
End Parse.

(** ** Reference encodings *)

Definition v3_name (m : v3msg) : list Z := default [] (v3_contextName m).

Definition v3_flags (m : v3msg) : Z :=
  snmpv3_calc_msg_flags (v3_securityLevel m) (command (v3_pdu m)).

Definition v3_global (s : v3session) (m : v3msg) : list Z :=
  ber_int ASN_INTEGER (v3_msgid m) ++ ber_int ASN_INTEGER (vs_rcvMsgMaxSize s)
  ++ ber_string ASN_OCTET_STR [v3_flags m] ++ ber_int ASN_INTEGER (v3_securityModel m).

(** Version and [msgGlobalData]. *)
Definition v3_head (s : v3session) (m : v3msg) : list Z :=
  ber_int ASN_INTEGER (v3_version m) ++ ber_tlv var_op_tag (v3_global s m).

Definition ber_scoped (m : v3msg) (bs : list (list Z * value)) : list Z :=
  ber_tlv var_op_tag (ber_string ASN_OCTET_STR (v3_contextEngineID m)
    ++ ber_string ASN_OCTET_STR (v3_name m) ++ ber_pdu (v3_pdu m) bs).

(** A message that can be sent and is accepted by the receiver's checks. *)
Definition v3_ok (s : v3session) (m : v3msg) : Prop :=
  - 2 ^ 31 ≤ v3_version m < 2 ^ 31 ∧ 0 ≤ v3_msgid m < 2 ^ 31 ∧
  484 ≤ vs_rcvMsgMaxSize s < 2 ^ 31 ∧ 1 ≤ v3_securityModel m < 2 ^ 31 ∧
  SNMP_SEC_LEVEL_NOAUTH ≤ v3_securityLevel m ≤ SNMP_SEC_LEVEL_AUTHPRIV ∧
  zlen (v3_contextEngineID m) ≤ SNMP_MAX_ENG_SIZE ∧ zlen (v3_name m) ≤ SNMP_MAX_CONTEXT_SIZE.

(** What the security model is given to send [m]. *)
Definition v3_outgoing (s : v3session) (m : v3msg) (scoped : list Z) : outgoing :=
  Outgoing (v3_head s m) (v3_securityModel m) (v3_securityEngineID m) (v3_securityName m)
    (v3_securityLevel m) (zlen scoped).

(** The whole message: the header, and the security parameters and message data
    [tail] that the security model adds. *)
Definition v3_wire (o : outgoing) (tail : list Z) : list Z :=
  ber_tlv var_op_tag (o_globalData o ++ tail).

(** ** Encoding *)

Section Encoding.
Context `{alloc : Allocator}.

(** A sequence header in front of what [f] wrote and [n] octets before it. *)
Lemma rbuild_since_rspec r type f c n :
  rspec r f c → 0 ≤ n < 2 ^ 31 →
  rspec r (λ st, st1 ← f st;
             asn_realloc_rbuild_sequence r type (since (offset st) st1 + n) st1)
    ((type :: ber_length (zlen c + n)) ++ c).
Proof.
  intros Hf Hn. apply rspec_then; [done|]. intros st st1 Hwf HP.
  pose proof (rpost_zlen _ _ _ _ HP). pose proof HP as (Hwf1 & _ & Ho & _).
  replace (since (offset st) st1) with (zlen c) by (unfold since, zlen; lia).
  by apply rbuild_sequence_rspec; [lia|].
Qed.

Lemma v3_header_rspec s m :
  v3_ok s m → rspec true (snmpv3_header_realloc_rbuild s m) (v3_head s m).
Proof.
  intros (Hv & Hid & Hmax & Hmod & _). unfold v3_head.
  assert (rspec true (λ st,
    st ← asn_realloc_rbuild_int true ASN_INTEGER (v3_securityModel m) SIZEOF_LONG st;
    st ← asn_realloc_rbuild_string true ASN_OCTET_STR [v3_flags m] 1 st;
    st ← asn_realloc_rbuild_int true ASN_INTEGER (vs_rcvMsgMaxSize s) SIZEOF_LONG st;
    asn_realloc_rbuild_int true ASN_INTEGER (v3_msgid m) SIZEOF_LONG st) (v3_global s m)) as Hg.
  { unfold v3_global. rewrite !app_assoc.
    apply rspec_seq; [by apply rbuild_int_rspec; lia|]. rewrite <- app_assoc, app_assoc.
    apply rspec_seq; [apply (rbuild_string_rspec true ASN_OCTET_STR [v3_flags m])|].
    apply rspec_seq; apply rbuild_int_rspec; lia. }
  pose proof (rbuild_since_rspec true var_op_tag _ _ 0 Hg ltac:(lia)) as Hs.
  rewrite Z.add_0_r in Hs.
  pose proof (rspec_seq _ _ _ _ _ Hs (rbuild_int_rspec true ASN_INTEGER (v3_version m) Hv)) as Hr.
  eapply rspec_ext; [|exact Hr]. intros st _. unfold snmpv3_header_realloc_rbuild.
  fold (v3_flags m). rewrite s32_id by lia.
  destruct (asn_realloc_rbuild_int true _ (v3_securityModel m) _ st) as [st1| |]; m_step; [|done..].
  destruct (asn_realloc_rbuild_string _ _ _ _ st1) as [st2| |]; m_step; [|done..].
  destruct (asn_realloc_rbuild_int true _ (vs_rcvMsgMaxSize s) _ st2) as [st3| |]; m_step; [|done..].
  destruct (asn_realloc_rbuild_int true _ (v3_msgid m) _ st3) as [st4| |]; m_step; [|done..].
  by rewrite Z.add_0_r.
Qed.

Lemma v3_scoped_spec m bs st :
  fields_ok (v3_pdu m) → Forall2 rholds (variables (v3_pdu m)) bs → wf st →
  grants (offset st + length (ber_scoped m bs)) →
  ∃ st', (st1 ← snmp_pdu_realloc_rbuild (v3_pdu m) st;
          snmpv3_scopedPDU_header_realloc_rbuild m (since (offset st) st1) st1) = Ok st' ∧
    rpost true (ber_scoped m bs) st st'.
Proof.
  intros Hf Hb Hwf HT. unfold ber_scoped in *.
  set (P := ber_pdu _ _) in *. set (E := ber_string _ (v3_contextEngineID m)) in *.
  set (N := ber_string _ (v3_name m)) in *.
  assert (ber_tlv var_op_tag (E ++ N ++ P)
          = ((var_op_tag :: ber_length (zlen (E ++ N) + zlen P)) ++ E ++ N) ++ P) as Hsp.
  { unfold ber_tlv. rewrite (app_assoc E), zlen_app. cbn [app]. by rewrite <- !app_assoc. }
  rewrite Hsp in *. rewrite length_app in HT.
  destruct (snmp_pdu_realloc_rbuild_spec (v3_pdu m) bs st Hf Hb Hwf) as (st1 & -> & HP1).
  { intros n Hn. apply HT. fold P in Hn. lia. }
  m_step. pose proof HP1 as (Hwf1 & _ & Ho1 & _). pose proof (rpost_zlen _ _ _ _ HP1) as Hz.
  fold P in Ho1, Hz. replace (since (offset st) st1) with (zlen P) by (unfold since, zlen; lia).
  assert (rspec true (λ st,
    st ← asn_realloc_rbuild_string true ASN_OCTET_STR (v3_name m) (zlen (v3_name m)) st;
    asn_realloc_rbuild_string true ASN_OCTET_STR (v3_contextEngineID m)
      (zlen (v3_contextEngineID m)) st) (E ++ N)) as Hs
    by (apply rspec_seq; apply rbuild_string_rspec).
  pose proof (rbuild_since_rspec true var_op_tag _ _ (zlen P) Hs ltac:(lia)) as Hr.
  destruct (rspec_granted _ _ _ st1 Hr HT ltac:(rewrite length_app in *; lia) Hwf1)
    as (st2 & E2 & HP2).
  exists st2. split; [|by eapply rpost_trans]. rewrite <- E2.
  unfold snmpv3_scopedPDU_header_realloc_rbuild. fold (v3_name m).
  by destruct (asn_realloc_rbuild_string _ _ (v3_name m) _ st1) as [st3| |].
Qed.

(** What the security models of a sender and a receiver owe to the message layer,
    for the messages they cover: the sender's [encode_reverse] turns the header and
    the scoped PDU in the packet into a whole message, and the receiver's [decode]
    of that message recovers the names and the scoped PDU, which padding may follow.
    The security parameters and the possibly encrypted message data are [sm_tail]. *)
Class SecurityModel (snd rcv : secmod) := {
  sm_covers : outgoing → list Z → Prop;
  sm_tail : outgoing → list Z → list Z;
  sm_encodes o scoped st :
    sm_covers o scoped → wf st → offset st = length scoped → written st = scoped →
    o_scopedPduLen o = zlen scoped → grants (length (v3_wire o (sm_tail o scoped))) →
    ∃ f st', encode_reverse snd = Some f ∧ f o st = Ok (st', 0) ∧ wf st' ∧
      written st' = v3_wire o (sm_tail o scoped);
  sm_decodes i o scoped pre post :
    sm_covers o scoped →
    i_wholeMsg i = pre ++ v3_wire o (sm_tail o scoped) ++ post → i_msg i = length pre →
    i_wholeMsgLen i = zlen (v3_wire o (sm_tail o scoped)) →
    (i_secParams i + length (sm_tail o scoped)
     = length pre + length (v3_wire o (sm_tail o scoped)))%nat →
    i_secModel i = o_secModel o → i_secLevel i = o_secLevel o →
    (∃ room, i_scopedPdu i = Some room ∧ zlen room = i_scopedPduLen i) →
    (o_secLevel o = SNMP_SEC_LEVEL_AUTHPRIV → i_wholeMsgLen i ≤ i_scopedPduLen i) →
    ∃ f d before after, decode rcv = Some f ∧ f i = Ok d ∧ d_ret d = 0 ∧
      d_secEngineID d = o_secEngineID o ∧ d_secName d = default [] (o_secName o) ∧
      d_scopedPdu d = Some (before ++ scoped ++ after, length before) ∧
      zlen scoped ≤ d_scopedPduLen d < 2 ^ 31;
}.

Lemma snmpv3_packet_spec malloc_ok find_sec_mod uninit_hdrbuf snd rcv `{!SecurityModel snd rcv}
    s m bs pkt :
  let scoped := ber_scoped m bs in
  let o := v3_outgoing s m scoped in
  v3_ok s m → fields_ok (v3_pdu m) → Forall2 rholds (variables (v3_pdu m)) bs →
  wf (RState pkt 0) → wf (RState uninit_hdrbuf 0) → malloc_grants malloc_ok →
  find_sec_mod (v3_securityModel m) = Some snd → sm_covers o scoped →
  grants (length scoped) → grants (length (v3_wire o (sm_tail o scoped))) →
  ∃ st', snmpv3_packet_realloc_rbuild malloc_ok find_sec_mod uninit_hdrbuf s m (RState pkt 0)
         = Ok (st', 0) ∧ wf st' ∧ written st' = v3_wire o (sm_tail o scoped).
Proof.
  intros scoped o Hok Hf Hb Hwf Hwf' Hm Hfind Hcov Hg Hg'.
  unfold snmpv3_packet_realloc_rbuild.
  destruct (v3_scoped_spec m bs (RState pkt 0) Hf Hb Hwf Hg) as (st' & E & HP).
  destruct (snmp_pdu_realloc_rbuild _ _) as [st1| |]; [|done..]. m_step.
  cbn [mbind M_bind] in E. rewrite E. m_step. rewrite Hm by (unfold SNMP_MAX_MSG_V3_HDRS; lia). cbn [negb].
  destruct (rspec_granted _ _ (length (v3_wire o (sm_tail o scoped))) (RState uninit_hdrbuf 0)
    (v3_header_rspec s m Hok) Hg') as (hdr & -> & HH); [|done|].
  { unfold v3_wire, ber_tlv. cbn [length offset o_globalData o v3_outgoing].
    rewrite !length_app. lia. }
  m_step. rewrite Hfind. destruct HP as (Hwf1 & W1 & Ho1 & _), HH as (_ & W2 & _ & _).
  unfold written in W1, W2. cbn [Asn1Rbuild.pkt offset] in *.
  rewrite Nat.sub_0_r, drop_all, app_nil_r in W1, W2. rewrite W2.
  assert (Z.of_nat (offset st') = zlen scoped) as -> by (rewrite Ho1; done).
  destruct (sm_encodes o scoped st' Hcov Hwf1 Ho1 W1 eq_refl Hg') as (f & st2 & Hs & Hf2 & Hwf2 & W).
  exists st2. split; [|done]. change (f (v3_outgoing s m scoped) st' = Ok (st2, 0)) in Hf2.
  clear -Hs Hf2. destruct snd as [enc dec]. cbn [encode_reverse] in Hs. by rewrite Hs.
Qed.
End Encoding.

(** ** Decoding *)

Lemma take_string_result s str n : take (Z.to_nat (zlen s)) (string_result s str n) = s.
Proof. rewrite Z_to_nat_zlen. unfold string_result. case_match; apply take_app_length. Qed.

Lemma level_of_calc_flags level cmd :
  SNMP_SEC_LEVEL_NOAUTH ≤ level ≤ SNMP_SEC_LEVEL_AUTHPRIV →
  let flags := snmpv3_calc_msg_flags level cmd in
  level_of_flags flags = level ∧
  negb (Z.land flags SNMP_MSG_FLAG_RPRT_BIT =? 0) = SNMP_CMD_CONFIRMED cmd ∧
  negb (Z.land flags SNMP_MSG_FLAG_PRIV_BIT =? 0)
    && (Z.land flags SNMP_MSG_FLAG_AUTH_BIT =? 0) = false.
Proof.
  unfold SNMP_SEC_LEVEL_NOAUTH, SNMP_SEC_LEVEL_AUTHPRIV. intros Hl.
  assert (level = 1 ∨ level = 2 ∨ level = 3) as [-> |[-> | ->]] by lia;
    unfold snmpv3_calc_msg_flags; by destruct (SNMP_CMD_CONFIRMED cmd).
Qed.

(** What is checked in the global data. *)
Lemma parse_global_bounds tmp_buf buf data dl g :
  parse_global tmp_buf buf data dl = Ok (inr g) →
  0 ≤ g_msgid g < 2 ^ 31 ∧ 484 ≤ g_max_size g < 2 ^ 31 ∧ 1 ≤ g_model g < 2 ^ 31.
Proof.
  unfold parse_global.
  destruct (asn_parse_sequence _ _ _ _) as [[[p1 l1] t1]| |]; m_step; [|done..].
  destruct (asn_parse_int _ _ _ _) as [[[[p2 l2] t2] id]| |]; m_step; [|done..].
  destruct (_ || _) eqn:E1; [done|].
  destruct (asn_parse_int _ p2 _ _) as [[[[p3 l3] t3] size]| |]; m_step; [|done..].
  destruct (_ || (0x7fffffff <? size)) eqn:E2; [done|].
  destruct (asn_parse_string _ _ _ _ _) as [[[[p4 l4] t4] [tmp n]]| |]; cbn [or_else]; [|done..].
  destruct (negb (t4 =? _) || _); [done|]. destruct (rd tmp 0) as [fl| |]; m_step; [|done..].
  destruct (asn_parse_int _ p4 _ _) as [[[[p5 l5] t5] model]| |]; cbn [or_else]; [|done..].
  destruct (_ || (0x7fffffff <? model)) eqn:E3; [done|]. intros [= <-]. cbn.
  rewrite !orb_false_iff, !Z.ltb_ge in E1, E2, E3. lia.
Qed.

Section Decoding.
Variable malloc_ok : Z → bool.
Variable objid tmp_buf : list Z.
Hypothesis granted : malloc_grants malloc_ok.
Hypothesis objid_size : zlen objid = MAX_OID_LEN.
Hypothesis tmp_buf_size : zlen tmp_buf = SNMP_MAX_MSG_SIZE.

Lemma scopedPDU_parse_spec m bs pre post dl :
  fields_ok (v3_pdu m) → command_ok (v3_pdu m) →
  zlen (v3_contextEngineID m) ≤ SNMP_MAX_ENG_SIZE → zlen (v3_name m) ≤ SNMP_MAX_CONTEXT_SIZE →
  zlen (ber_scoped m bs) ≤ dl < 2 ^ 31 →
  ∃ pre' dl', pre ++ ber_scoped m bs ++ post = pre' ++ ber_pdu (v3_pdu m) bs ++ post ∧
    zlen (ber_pdu (v3_pdu m) bs) ≤ dl' < 2 ^ 31 ∧
    snmpv3_scopedPDU_parse malloc_ok tmp_buf (pre ++ ber_scoped m bs ++ post)
      (Some (length pre)) dl
    = Ok (length pre', dl', v3_contextEngineID m, v3_name m, command (v3_pdu m)).
Proof.
  intros Hf Hcmd He Hn Hz. unfold snmpv3_scopedPDU_parse, SNMP_MAX_ENG_SIZE, SNMP_MAX_CONTEXT_SIZE in *.
  unfold SNMP_MAX_MSG_SIZE in tmp_buf_size.
  set (P := ber_pdu (v3_pdu m) bs) in *. set (E := ber_string ASN_OCTET_STR (v3_contextEngineID m)).
  set (N := ber_string ASN_OCTET_STR (v3_name m)).
  set (h := ber_length (zlen (E ++ N ++ P))).
  assert (ber_scoped m bs = (var_op_tag :: h) ++ E ++ N ++ P) as Hs by done.
  rewrite Hs in Hz |- *. rewrite !zlen_app, zlen_cons in Hz. rewrite <- !app_assoc.
  pose proof (zlen_nonneg E). pose proof (zlen_nonneg N). pose proof (zlen_nonneg P).
  pose proof (zlen_nonneg h). pose proof (zlen_nonneg (v3_name m)).
  assert (zlen (E ++ N ++ P) = zlen E + (zlen N + zlen P)) as Hb by by rewrite !zlen_app.
  assert (length_form (zlen (E ++ N ++ P)) h) as Hform by by left.
  rewrite (parse_seq_header (zlen (E ++ N ++ P)) h)
    by (done || rewrite ?zlen_app, ?zlen_cons in *; lia). m_step. cbn [default id].
  set (l := u32 _). assert (l = dl - 1 - zlen h) as Hl.
  { unfold l. rewrite length_app. cbn [length]. rewrite u32_id; unfold zlen in *; lia. }
  clearbody l. rewrite app_assoc.
  rewrite (decodes_step (λ b d l, asn_parse_string b d l (replicate _ 0) 32) ASN_OCTET_STR E
             (string_result (v3_contextEngineID m) (replicate (Z.to_nat 32) 0) 32,
              zlen (v3_contextEngineID m)))
    by (lia || (apply asn_parse_string_decodes; [split; [done|by vm_compute]|lia])).
  rewrite (app_assoc _ E).
  rewrite (decodes_step (λ b d l, asn_parse_string b d l tmp_buf 256) ASN_OCTET_STR N
             (string_result (v3_name m) tmp_buf 256, zlen (v3_name m)))
    by (lia || (apply asn_parse_string_decodes; lia)).
  rewrite (granted (zlen (v3_name m))), (granted 1) by lia. rewrite !andb_false_r.
  rewrite (app_assoc _ N).
  exists (((pre ++ var_op_tag :: h) ++ E) ++ N), (l - zlen E - zlen N). split; [done|]. split; [lia|].
  destruct (parse_header_tlv (command (v3_pdu m)) (ber_fields (v3_pdu m) ++
      ber_tlv var_op_tag (concat ((λ b, ber_var_op b.1 b.2) <$> bs)))
    (((pre ++ var_op_tag :: h) ++ E) ++ N) post (l - zlen E - zlen N)) as (q & Hq & _).
  - assert (zlen P < 2 ^ 31) as HP by lia. unfold P, ber_pdu in HP. rewrite zlen_ber_tlv in HP.
    pose proof (zlen_nonneg (ber_length (zlen (ber_fields (v3_pdu m) ++
      ber_tlv var_op_tag (concat ((λ b, ber_var_op b.1 b.2) <$> bs)))))). lia.
  - change (zlen P ≤ l - zlen E - zlen N < 2 ^ 32). lia.
  - unfold command_ok in Hcmd. by set_unfold in Hcmd; destruct_or!; rewrite Hcmd.
  - intros Ho. unfold command_ok in Hcmd. rewrite Ho in Hcmd. exfalso. revert Hcmd.
    apply (bool_decide_unpack _). by vm_compute.
  - unfold P, ber_pdu. rewrite Hq. m_step. by rewrite !take_string_result.
Qed.

Lemma parse_global_spec s m pre post dl :
  v3_ok s m → zlen (ber_tlv var_op_tag (v3_global s m)) ≤ dl < 2 ^ 31 →
  parse_global tmp_buf (pre ++ ber_tlv var_op_tag (v3_global s m) ++ post) (length pre) dl
  = Ok (inr (Global (length (pre ++ ber_tlv var_op_tag (v3_global s m))) (v3_msgid m)
               (vs_rcvMsgMaxSize s) (v3_flags m) (v3_securityModel m))).
Proof.
  intros (_ & Hid & Hmax & Hmod & _) Hdl. unfold parse_global.
  set (h := ber_length (zlen (v3_global s m))).
  change (ber_tlv _ _) with ((var_op_tag :: h) ++ v3_global s m) in *.
  rewrite zlen_app, zlen_cons in Hdl.
  assert (length_form (zlen (v3_global s m)) h) as Hform by by left. clearbody h.
  pose proof (zlen_nonneg h). pose proof (zlen_nonneg (v3_global s m)).
  rewrite <- !app_assoc. rewrite (parse_seq_header (zlen (v3_global s m)) h) by (done || lia).
  m_step. rewrite u32_id by (rewrite length_app; cbn [length]; unfold zlen in *; lia).
  set (l := dl - _). assert (zlen (v3_global s m) ≤ l < 2 ^ 31) as Hl
    by (unfold l; rewrite length_app; cbn [length]; unfold zlen in *; lia). clearbody l.
  rewrite app_assoc. unfold v3_global in *. rewrite !zlen_app in Hl.
  set (I := ber_int _ (v3_msgid m)) in *. set (J := ber_int _ (vs_rcvMsgMaxSize s)) in *.
  set (F := ber_string _ _) in *. set (S' := ber_int _ (v3_securityModel m)) in *.
  pose proof (zlen_nonneg I). pose proof (zlen_nonneg J). pose proof (zlen_nonneg F).
  pose proof (zlen_nonneg S'). rewrite <- !app_assoc.
  rewrite (app_assoc pre).
  rewrite (decodes_step (λ b d l, asn_parse_int b d l SIZEOF_LONG) ASN_INTEGER I (v3_msgid m))
    by (lia || (apply asn_parse_int_decodes; lia)).
  change (ASN_INTEGER =? ASN_INTEGER) with true.
  destruct (Z.ltb_spec (v3_msgid m) 0), (Z.ltb_spec 0x7fffffff (v3_msgid m)); try lia. m_step.
  rewrite (app_assoc _ I).
  rewrite (decodes_step (λ b d l, asn_parse_int b d l SIZEOF_LONG) ASN_INTEGER J (vs_rcvMsgMaxSize s))
    by (lia || (apply asn_parse_int_decodes; lia)).
  change (ASN_INTEGER =? ASN_INTEGER) with true.
  destruct (Z.ltb_spec (vs_rcvMsgMaxSize s) 484), (Z.ltb_spec 0x7fffffff (vs_rcvMsgMaxSize s));
    try lia. m_step.
  rewrite (app_assoc _ J).
  assert (Decodes (λ b d l, asn_parse_string b d l tmp_buf SNMP_MAX_MSG_SIZE) ASN_OCTET_STR F
            (string_result [v3_flags m] tmp_buf SNMP_MAX_MSG_SIZE, 1)) as HF.
  { unfold F. apply (asn_parse_string_decodes ASN_OCTET_STR [v3_flags m]); [|done].
    rewrite tmp_buf_size. by split. }
  rewrite HF by lia. cbn [or_else]. change (ASN_OCTET_STR =? ASN_OCTET_STR) with true. m_step.
  change (1 =? 1) with true. cbn [negb].
  replace (rd (string_result [v3_flags m] tmp_buf SNMP_MAX_MSG_SIZE) 0) with (Ok (v3_flags m))
    by done.
  m_step. rewrite (app_assoc _ F), <- length_app.
  rewrite (asn_parse_int_decodes ASN_INTEGER (v3_securityModel m)) by (fold S'; lia).
  cbn [or_else]. change (ASN_INTEGER =? ASN_INTEGER) with true.
  destruct (Z.ltb_spec (v3_securityModel m) 1), (Z.ltb_spec 0x7fffffff (v3_securityModel m));
    try lia. m_step. fold S'. rewrite <- length_app, <- !app_assoc. done.
Qed.

(** What the receiver's PDU holds. *)
Definition v3_received (m : v3msg) (bs : list (list Z * value)) : v3recv :=
  V3Recv (v3_version m) (v3_msgid m) (SNMP_CMD_CONFIRMED (command (v3_pdu m)))
    (v3_securityModel m) (v3_securityLevel m) (v3_contextEngineID m) (v3_name m)
    (v3_securityEngineID m) (default [] (v3_securityName m)) (decoded_pdu (v3_pdu m) bs).

(** The version and the global data in front of the security parameters. *)
Lemma v3_head_spec {B} s m tail pre post (k : Z → option Z + global → M B) bad :
  v3_ok s m → zlen (ber_tlv var_op_tag (v3_head s m ++ tail)) ≤ 2 ^ 16 →
  let W := ber_tlv var_op_tag (v3_head s m ++ tail) in
  or_else (asn_parse_sequence (pre ++ W ++ post) (Some (length pre)) (zlen W) var_op_tag) bad
    (λ '(data, len, _),
  or_else (asn_parse_int (pre ++ W ++ post) data len SIZEOF_LONG) bad (λ '(data, len, _, ver),
  or_else (parse_global tmp_buf (pre ++ W ++ post) data len) bad (k ver)))
  = k (v3_version m) (inr (Global (length pre + length W - length tail) (v3_msgid m)
        (vs_rcvMsgMaxSize s) (v3_flags m) (v3_securityModel m))).
Proof.
  intros Hok Hz W. pose proof Hok as (Hv & _).
  set (h := ber_length (zlen (v3_head s m ++ tail))).
  assert (W = (var_op_tag :: h) ++ v3_head s m ++ tail) as HW by done. fold W in Hz.
  rewrite HW in *. rewrite !zlen_app, zlen_cons in Hz |- *.
  assert (length_form (zlen (v3_head s m) + zlen tail) h) as Hform
    by (rewrite <- zlen_app; by left).
  clearbody h. clear HW W.
  pose proof (zlen_nonneg h). pose proof (zlen_nonneg tail). pose proof (zlen_nonneg (v3_head s m)).
  unfold v3_head in *. set (V := ber_int _ _) in *. set (G := ber_tlv var_op_tag _) in *.
  rewrite zlen_app in *. pose proof (zlen_nonneg V). pose proof (zlen_nonneg G).
  rewrite <- !app_assoc.
  rewrite (parse_seq_header (zlen V + zlen G + zlen tail) h) by (done || lia).
  cbn [or_else]. rewrite (app_assoc pre).
  rewrite (asn_parse_int_decodes ASN_INTEGER (v3_version m) Hv) by (fold V; lia).
  cbn [or_else]. fold V. rewrite (app_assoc _ V), <- length_app.
  unfold G. rewrite parse_global_spec by (done || fold G; lia). cbn [or_else].
  f_equal. f_equal. f_equal. fold G. rewrite !length_app. cbn [length]. lia.
Qed.

Lemma scoped_buffer_room level len :
  0 ≤ len ≤ 2 ^ 16 →
  let '(room, room_len) := scoped_buffer malloc_ok level len in
  (∃ r, room = Some r ∧ zlen r = room_len) ∧ (level = SNMP_SEC_LEVEL_AUTHPRIV → len ≤ room_len).
Proof.
  intros Hl. unfold scoped_buffer, SNMP_MAX_MSG_SIZE. destruct (Z.ltb_spec 1472 len); simpl.
  - destruct (Z.eqb_spec level SNMP_SEC_LEVEL_AUTHPRIV); simpl.
    + rewrite granted by lia. split; [|lia]. eexists. split; [done|].
      unfold zlen. rewrite length_replicate. lia.
    + split; [by eexists|done].
  - split; [by eexists|lia].
Qed.

Lemma parse_scoped_spec m bs d before after :
  pdu_exact (v3_pdu m) bs → zlen (v3_contextEngineID m) ≤ SNMP_MAX_ENG_SIZE →
  zlen (v3_name m) ≤ SNMP_MAX_CONTEXT_SIZE →
  d_scopedPdu d = Some (before ++ ber_scoped m bs ++ after, length before) →
  zlen (ber_scoped m bs) ≤ d_scopedPduLen d < 2 ^ 31 →
  parse_scoped malloc_ok objid tmp_buf d
  = Ok (v3_contextEngineID m, v3_name m, decoded_pdu (v3_pdu m) bs).
Proof.
  intros (Hf & Hcmd & Hent & Hv & Hex) He Hn Hd Hl. unfold parse_scoped. rewrite Hd.
  destruct (scopedPDU_parse_spec m bs before after (d_scopedPduLen d) Hf Hcmd He Hn Hl)
    as (pre & dl & Hb & Hdl & Hp).
  rewrite Hp. m_step. rewrite Hb. by rewrite snmp_pdu_parse_ber.
Qed.

Lemma snmpv3_parse_spec `{Allocator} find_sec_mod snd rcv `{!SecurityModel snd rcv}
    s m bs pre post :
  let scoped := ber_scoped m bs in
  let o := v3_outgoing s m scoped in
  let W := v3_wire o (sm_tail o scoped) in
  v3_ok s m → pdu_exact (v3_pdu m) bs → find_sec_mod (v3_securityModel m) = Some rcv →
  sm_covers o scoped → zlen W ≤ 2 ^ 16 → zlen scoped < 2 ^ 31 →
  snmpv3_parse malloc_ok find_sec_mod objid tmp_buf (pre ++ W ++ post) (length pre) (zlen W)
  = Ok (Some (vs_rcvMsgMaxSize s), Done (v3_received m bs)).
Proof.
  intros scoped o W Hok Hx Hfind Hcov HW Hsc. unfold snmpv3_parse.
  etransitivity; [apply (v3_head_spec s m (sm_tail o scoped)); done|]. cbv beta iota zeta.
  cbn [g_model g_flags g_max_size g_data g_msgid]. rewrite Hfind.
  destruct Hok as (_ & _ & _ & _ & Hlev & He & Hn).
  destruct (level_of_calc_flags (v3_securityLevel m) (command (v3_pdu m)) Hlev) as (Hlv & Hr & Hpa).
  fold (v3_flags m) in Hlv, Hr, Hpa. rewrite Hpa, Hlv, Hr.
  unfold SNMP_MAX_ENG_SIZE, SNMP_MAX_SEC_NAME_SIZE in *. rewrite !granted by lia. cbn [negb andb].
  pose proof (scoped_buffer_room (v3_securityLevel m) (zlen W)) as Hroom.
  change (ber_tlv var_op_tag (v3_head s m ++ sm_tail o scoped)) with W in *.
  destruct (scoped_buffer _ _ _) as [room room_len].
  destruct Hroom as [Hr1 Hr2]; [pose proof (zlen_nonneg W); lia|].
  match goal with |- context [Incoming ?a ?b ?c ?d ?e ?f ?g ?h ?i ?j] =>
    set (inc := Incoming a b c d e f g h i j) end.
  destruct (sm_decodes inc o scoped pre post) as (f & d & before & after & -> & -> & D0 & D1 & D2 & D3 & D4);
    try done.
  { cbn [i_secParams inc]. unfold W, v3_wire, ber_tlv. cbn [length]. rewrite !length_app. lia. }
  m_step. rewrite D0. cbn [negb Z.eqb].
  rewrite (parse_scoped_spec m bs d before after) by done. cbn [or_else].
  by rewrite D1, D2.
Qed.

End Decoding.

(** ** A security model without security

    Engine identifier and name in clear before the scoped PDU: a model that meets
    the interface, at which the theorems are evaluated. *)

Section Plain.
Context `{alloc : Allocator}.

Definition plain_tail (o : outgoing) (scoped : list Z) : list Z :=
  ber_string ASN_OCTET_STR (o_secEngineID o) ++ ber_string ASN_OCTET_STR (default [] (o_secName o))
  ++ scoped.

Definition plain_encode (o : outgoing) (st : rstate) : M (rstate * Z) :=
  let name := default [] (o_secName o) in
  st ← asn_realloc_rbuild_string true ASN_OCTET_STR name (zlen name) st;
  st ← asn_realloc_rbuild_string true ASN_OCTET_STR (o_secEngineID o) (zlen (o_secEngineID o)) st;
  st ← need true (zlen (o_globalData o)) st;
  st ← push_block (o_globalData o) st;
  st ← asn_realloc_rbuild_sequence true var_op_tag (since 0 st) st;
  Ok (st, 0).

Definition plain_decode (i : incoming) : M decode_result :=
  let buf := i_wholeMsg i in
  let left := i_wholeMsgLen i - (Z.of_nat (i_secParams i) - Z.of_nat (i_msg i)) in
  '(p, left, _, (eid, eid_len)) ← asn_parse_string buf (i_secParams i) left (replicate 64 0) 64;
  '(p, left, _, (name, name_len)) ← asn_parse_string buf p left (replicate 256 0) 256;
  Ok (Decoded 0 (take (Z.to_nat eid_len) eid) (take (Z.to_nat name_len) name)
        (Some (buf, p)) left).

Definition plain : secmod := Secmod (Some plain_encode) (Some plain_decode).

Definition plain_covers (o : outgoing) (scoped : list Z) : Prop :=
  zlen (o_secEngineID o) ≤ 64 ∧ zlen (default [] (o_secName o)) ≤ 256 ∧
  zlen (v3_wire o (plain_tail o scoped)) < 2 ^ 31.

Lemma plain_encodes o scoped st :
  wf st → offset st = length scoped → written st = scoped →
  grants (length (v3_wire o (plain_tail o scoped))) →
  ∃ st', plain_encode o st = Ok (st', 0) ∧ wf st' ∧
    written st' = v3_wire o (plain_tail o scoped).
Proof.
  intros Hwf Ho W Hg. unfold plain_encode.
  set (g := o_globalData o) in *. set (name := default [] (o_secName o)) in *.
  set (E := ber_string ASN_OCTET_STR (o_secEngineID o)). set (N := ber_string ASN_OCTET_STR name).
  assert (rspec true (λ st,
    st ← asn_realloc_rbuild_string true ASN_OCTET_STR name (zlen name) st;
    st ← asn_realloc_rbuild_string true ASN_OCTET_STR (o_secEngineID o) (zlen (o_secEngineID o)) st;
    st ← need true (zlen g) st; push_block g st) ((g ++ E) ++ N)) as Hr.
  { apply rspec_seq; [apply rbuild_string_rspec|].
    apply rspec_seq; [apply rbuild_string_rspec|apply need_block_rspec]. }
  assert (v3_wire o (plain_tail o scoped)
          = (var_op_tag :: ber_length (zlen ((g ++ E) ++ N) + zlen scoped)) ++ ((g ++ E) ++ N) ++ scoped)
    as Hw.
  { unfold v3_wire, plain_tail, ber_tlv. fold g name E N. rewrite !zlen_app. cbn [app].
    rewrite <- !app_assoc. by replace (zlen g + (zlen E + (zlen N + zlen scoped)))
      with (zlen g + zlen E + zlen N + zlen scoped) by lia. }
  rewrite Hw in *. rewrite !length_app in Hg. pose proof (zlen_nonneg scoped).
  destruct (rspec_granted _ _ _ st Hr Hg ltac:(rewrite !length_app, Ho; lia) Hwf)
    as (st1 & E1 & Hwf1 & W1 & Ho1 & _).
  destruct (rspec_granted _ _ _ st1 (rbuild_sequence_rspec true var_op_tag (since 0 st1)
    ltac:(destruct Hwf1; unfold since, zlen in *; lia)) Hg) as (st2 & E2 & HP2); [|done|].
  { rewrite Ho1, !length_app. cbn [length].
    replace (since 0 st1) with (zlen ((g ++ E) ++ N) + zlen scoped); [lia|].
    unfold since, zlen. rewrite Ho1, Ho. lia. }
  exists st2. destruct HP2 as (Hwf2 & W2 & _). split_and!; [|done|].
  - destruct (asn_realloc_rbuild_string _ _ name _ st) as [x1| |]; m_step; [|done..].
    cbn [mbind M_bind] in E1.
    destruct (asn_realloc_rbuild_string _ _ (o_secEngineID o) _ x1) as [x2| |]; m_step; [|done..].
    cbn [mbind M_bind] in E1. destruct (need _ _ x2) as [x3| |]; m_step; [|done..].
    cbn [mbind M_bind] in E1. rewrite E1. m_step. rewrite E2. done.
  - rewrite W2, W1, W.
    replace (since 0 st1) with (zlen ((g ++ E) ++ N) + zlen scoped); [done|].
    unfold since, zlen. rewrite Ho1, Ho. lia.
Qed.

Lemma plain_decodes i o scoped pre post :
  plain_covers o scoped →
  i_wholeMsg i = pre ++ v3_wire o (plain_tail o scoped) ++ post → i_msg i = length pre →
  i_wholeMsgLen i = zlen (v3_wire o (plain_tail o scoped)) →
  (i_secParams i + length (plain_tail o scoped)
   = length pre + length (v3_wire o (plain_tail o scoped)))%nat →
  ∃ before, plain_decode i
  = Ok (Decoded 0 (o_secEngineID o) (default [] (o_secName o))
          (Some (before ++ scoped ++ post, length before)) (zlen scoped)).
Proof.
  intros (He & Hn & Hz) HW Hm Hl Hp. unfold plain_decode. rewrite HW, Hm, Hl.
  unfold v3_wire in *. rewrite ber_tlv_cons in *. set (h := var_op_tag :: _) in *. clearbody h.
  set (g := o_globalData o) in *. unfold plain_tail in *.
  set (name := default [] (o_secName o)) in *.
  set (E := ber_string ASN_OCTET_STR (o_secEngineID o)) in *.
  set (N := ber_string ASN_OCTET_STR name) in *.
  assert (i_secParams i = length (pre ++ h ++ g)) as -> by (rewrite !length_app in *; lia).
  rewrite !zlen_app in *.
  replace (zlen h + (zlen g + (zlen E + (zlen N + zlen scoped)))
    - (Z.of_nat (length (pre ++ h ++ g)) - Z.of_nat (length pre)))
    with (zlen E + zlen N + zlen scoped) by (rewrite !length_app; unfold zlen; lia).
  pose proof (zlen_nonneg h). pose proof (zlen_nonneg g). pose proof (zlen_nonneg E).
  pose proof (zlen_nonneg N). pose proof (zlen_nonneg scoped).
  exists (((pre ++ h ++ g) ++ E) ++ N).
  replace (pre ++ (h ++ g ++ E ++ N ++ scoped) ++ post)
    with ((pre ++ h ++ g) ++ E ++ N ++ scoped ++ post) by (by rewrite <- !app_assoc).
  rewrite (decodes_step (λ b d l, asn_parse_string b d l (replicate 64 0) 64) ASN_OCTET_STR E
             (string_result (o_secEngineID o) (replicate 64 0) 64, zlen (o_secEngineID o)))
    by (lia || (apply asn_parse_string_decodes; [split; [done|by vm_compute]|lia])).
  rewrite (app_assoc _ E).
  rewrite (decodes_step (λ b d l, asn_parse_string b d l (replicate 256 0) 256) ASN_OCTET_STR N
             (string_result name (replicate 256 0) 256, zlen name))
    by (lia || (apply asn_parse_string_decodes; [split; [done|by vm_compute]|lia])).
  rewrite !take_string_result, (app_assoc _ N).
  by replace (zlen E + zlen N + zlen scoped - zlen E - zlen N) with (zlen scoped) by lia.
Qed.

#[export] Program Instance plain_model : SecurityModel plain plain := {|
  sm_covers := plain_covers;
  sm_tail := plain_tail;
|}.
Next Obligation.
  intros o scoped st Hc Hwf Ho W _ Hg.
  destruct (plain_encodes o scoped st Hwf Ho W Hg) as (st' & H1 & H2 & H3). by exists plain_encode, st'.
Qed.
Next Obligation.
  intros i o scoped pre post Hc HW Hm Hl Hp _ _ _ _.
  destruct (plain_decodes i o scoped pre post Hc HW Hm Hl Hp) as (before & Hd).
  exists plain_decode, (Decoded 0 (o_secEngineID o) (default [] (o_secName o))
    (Some (before ++ scoped ++ post, length before)) (zlen scoped)), before, post.
  split_and!; [done..|]. cbn [d_scopedPduLen]. destruct Hc as (_ & _ & Hz).
  unfold v3_wire, plain_tail in Hz. rewrite zlen_ber_tlv, !zlen_app in Hz.
  match type of Hz with 1 + zlen ?a + (zlen ?b + (zlen ?c + (zlen ?d + _))) < _ =>
    pose proof (zlen_nonneg a); pose proof (zlen_nonneg b); pose proof (zlen_nonneg c);
    pose proof (zlen_nonneg d) end. lia.
Qed.
End Plain.

(** ** Properties *)

Definition sample_v3 : v3msg :=
  V3Msg SNMP_VERSION_3 9 SNMP_DEFAULT_SECMODEL 0 [] None [] None (sample_request SNMP_DEFAULT_ERRSTAT).
Definition sample_v3session : v3session :=
  V3Session [] (Some [99]) [128; 0; 1] (Some [109; 101]) 2 SNMP_DEFAULT_SECMODEL
    SNMP_SEC_LEVEL_NOAUTH 1472.
Definition sample_v3sent : v3msg :=
  V3Msg SNMP_VERSION_3 9 SNMP_SEC_MODEL_USM SNMP_SEC_LEVEL_NOAUTH [128; 0; 1] (Some [99])
    [128; 0; 1] (Some [109; 101]) (sample_request 0).

(** The round trip, for any pair of security models of the class. *)
Lemma v3_roundtrip `{Allocator} malloc_ok find_snd find_rcv default_model hdrbuf objid
    tmp_buf snd rcv `{!SecurityModel snd rcv} s m m' bs pkt :
  let scoped := ber_scoped m' bs in
  let o := v3_outgoing s m' scoped in
  let W := v3_wire o (sm_tail o scoped) in
  v3_complete malloc_ok default_model s m = Done m' → v3_ok s m' → pdu_exact (v3_pdu m') bs →
  wf (RState pkt 0) → wf (RState hdrbuf 0) → malloc_grants malloc_ok →
  zlen objid = MAX_OID_LEN → zlen tmp_buf = SNMP_MAX_MSG_SIZE →
  find_snd (v3_securityModel m') = Some snd → find_rcv (v3_securityModel m') = Some rcv →
  sm_covers o scoped → zlen W ≤ 2 ^ 16 → zlen scoped < 2 ^ 31 →
  grants (length scoped) → grants (length W) →
  ∃ st, snmpv3_build malloc_ok find_snd default_model hdrbuf s m (RState pkt 0)
        = Ok (Done (st, m')) ∧ written st = W ∧
    snmpv3_parse malloc_ok find_rcv objid tmp_buf (Asn1Rbuild.pkt st)
      (length (Asn1Rbuild.pkt st) - offset st) (Z.of_nat (offset st))
    = Ok (Some (vs_rcvMsgMaxSize s), Done (v3_received m' bs)).
Proof.
  intros scoped o W Hc Hok Hx Hwf Hwf' Hm Hobj Htmp Hs Hr Hcov HW Hsc Hg Hg'.
  unfold snmpv3_build. rewrite Hc.
  destruct (snmpv3_packet_spec malloc_ok find_snd hdrbuf snd rcv s m' bs pkt)
    as (st & -> & Hwf1 & W1); try done; [apply Hx..|].
  change (written st = W) in W1. exists st. split_and!; [done|done|].
  destruct (written_split st Hwf1) as [Hsp Hlen]. revert Hsp Hlen.
  generalize (take (length (Asn1Rbuild.pkt st) - offset st) (Asn1Rbuild.pkt st)).
  intros pre Hsp Hlen. rewrite Hsp at 1. rewrite <- Hlen.
  assert (Z.of_nat (offset st) = zlen W) as ->.
  { rewrite <- W1. unfold written, zlen. rewrite length_drop. destruct Hwf1. lia. }
  rewrite W1. rewrite <- (app_nil_r W) at 1.
  by apply (snmpv3_parse_spec malloc_ok objid tmp_buf Hm Hobj Htmp find_rcv snd rcv s m' bs pre []).
Qed.

(** C3: a message that snmpv3_build completes from the session and encodes in
    reverse is received by snmpv3_parse with the same version, message identifier,
    security model and level, engine identifiers, context and security name and PDU,
    and asks for reports exactly if its PDU is confirmed, whenever the security
    model of the receiver undoes that of the sender.  The PDU is one of [pdu_exact]:
    object identifiers whose second arc is below 40 unless the first is 2, no negative
    64-bit integer that fits four octets, no plain Opaque that reads as a special one. *)
Theorem snmpv3_roundtrip `{Allocator} malloc_ok find_snd find_rcv default_model hdrbuf objid
    tmp_buf snd rcv `{!SecurityModel snd rcv} s m m' bs pkt :
  let scoped := ber_scoped m' bs in
  let o := v3_outgoing s m' scoped in
  let W := v3_wire o (sm_tail o scoped) in
  v3_complete malloc_ok default_model s m = Done m' → v3_ok s m' → pdu_exact (v3_pdu m') bs →
  wf (RState pkt 0) → wf (RState hdrbuf 0) → malloc_grants malloc_ok →
  zlen objid = MAX_OID_LEN → zlen tmp_buf = SNMP_MAX_MSG_SIZE →
  find_snd (v3_securityModel m') = Some snd → find_rcv (v3_securityModel m') = Some rcv →
  sm_covers o scoped → zlen W ≤ 2 ^ 16 → zlen scoped < 2 ^ 31 →
  grants (length scoped) → grants (length W) →
  ∃ st, snmpv3_build malloc_ok find_snd default_model hdrbuf s m (RState pkt 0)
        = Ok (Done (st, m')) ∧ written st = W ∧
    snmpv3_parse malloc_ok find_rcv objid tmp_buf (Asn1Rbuild.pkt st)
      (length (Asn1Rbuild.pkt st) - offset st) (Z.of_nat (offset st))
    = Ok (Some (vs_rcvMsgMaxSize s), Done (v3_received m' bs)).
Proof. intros. by apply (v3_roundtrip malloc_ok find_snd find_rcv default_model hdrbuf objid tmp_buf snd rcv). Qed.

Definition sample_v3models (_ : Z) : option secmod := Some (plain (alloc := malloc_all)).

Lemma snmpv3_roundtrip_witness :
  let scoped := ber_scoped sample_v3sent [sample_binding] in
  let o := v3_outgoing sample_v3session sample_v3sent scoped in
  let W := v3_wire o (sm_tail (SecurityModel := plain_model (alloc := malloc_all)) o scoped) in
  length W = 69%nat ∧
  ∃ st, snmpv3_build (alloc := malloc_all) (λ _, true) sample_v3models 0
          (replicate 51 0) sample_v3session sample_v3 (RState [] 0)
        = Ok (Done (st, sample_v3sent)) ∧ written st = W ∧
    snmpv3_parse (λ _, true) sample_v3models (replicate 128 0) (replicate 1472 0)
      (Asn1Rbuild.pkt st) (length (Asn1Rbuild.pkt st) - offset st) (Z.of_nat (offset st))
    = Ok (Some (vs_rcvMsgMaxSize sample_v3session),
          Done (v3_received sample_v3sent [sample_binding])).
Proof.
  intros scoped o W. split; [by vm_compute|].
  apply (snmpv3_roundtrip (H := malloc_all) (λ _, true) sample_v3models sample_v3models 0
           (replicate 51 0) (replicate 128 0) (replicate 1472 0) plain plain
           (SecurityModel0 := plain_model (alloc := malloc_all)) sample_v3session sample_v3
           sample_v3sent [sample_binding] []);
    [by vm_compute|by split_and!|apply sample_sent_ok|by split|split; [simpl; lia|by vm_compute]
    |by intros ? ?|by vm_compute|by vm_compute|done|done|split_and!; by vm_compute|by vm_compute|by vm_compute
    |apply malloc_all_grants; by vm_compute|apply malloc_all_grants; by vm_compute].
Defined.

(** C4: snmpv3_parse accepts a message only if the security model named in it
    exists, was given the whole message with the level of its flags, and returned
    success; the names and the scoped PDU are those the security model returned,
    encryption is not claimed without authentication, and the identifier, the
    maximum size and the model are in the ranges of RFC 3412. *)
Theorem snmpv3_parse_accepts malloc_ok find_sec_mod objid tmp_buf buf msg len max r :
  snmpv3_parse malloc_ok find_sec_mod objid tmp_buf buf msg len = Ok (max, Done r) →
  0 ≤ vr_msgid r < 2 ^ 31 ∧ 1 ≤ vr_securityModel r < 2 ^ 31 ∧
  (∃ n, max = Some n ∧ 484 ≤ n < 2 ^ 31) ∧
  ∃ sm f i d, find_sec_mod (vr_securityModel r) = Some sm ∧ decode sm = Some f ∧
    i_wholeMsg i = buf ∧ i_msg i = msg ∧ i_wholeMsgLen i = len ∧
    i_secModel i = vr_securityModel r ∧ i_secLevel i = vr_securityLevel r ∧
    vr_securityLevel r = level_of_flags (i_msg_flags i) ∧
    vr_report r = negb (Z.land (i_msg_flags i) SNMP_MSG_FLAG_RPRT_BIT =? 0) ∧
    (Z.land (i_msg_flags i) SNMP_MSG_FLAG_PRIV_BIT ≠ 0 →
     vr_securityLevel r = SNMP_SEC_LEVEL_AUTHPRIV) ∧
    f i = Ok d ∧ d_ret d = 0 ∧ d_secEngineID d = vr_securityEngineID r ∧
    d_secName d = vr_securityName r ∧
    parse_scoped malloc_ok objid tmp_buf d
    = Ok (vr_contextEngineID r, vr_contextName r, vr_pdu r).
Proof.
  unfold snmpv3_parse.
  destruct (asn_parse_sequence buf _ len _) as [[[p1 l1] t1]| |]; cbn [or_else]; [|done..].
  destruct (asn_parse_int buf p1 l1 _) as [[[[p2 l2] t2] ver]| |]; cbn [or_else]; [|done..].
  destruct (parse_global tmp_buf buf p2 l2) as [[?|g]| |] eqn:Eg; cbn [or_else]; [done| |done..].
  apply parse_global_bounds in Eg as (Hid & Hmax & Hmod).
  destruct (find_sec_mod (g_model g)) as [sm|] eqn:Ef; [|done].
  destruct (_ && (Z.land _ _ =? 0)) eqn:Epa; [done|]. destruct (negb (_ && _)); [done|].
  destruct (scoped_buffer _ _ _) as [room room_len].
  destruct (decode sm) as [f|] eqn:Ed; [|done].
  set (i := Incoming _ _ _ _ _ _ _ _ _ _). destruct (f i) as [d| |] eqn:Efi; m_step; [|done..].
  destruct (Z.eqb_spec (d_ret d) 0) as [E0|]; cbn [negb].
  2: { by destruct (d_scopedPdu d); [destruct (parse_scoped _ _ _ _)|]. }
  destruct (parse_scoped _ _ _ d) as [[[eid name] p]| |] eqn:Ep; cbn [or_else]; [|done..].
  intros [= <- <-]. cbn [vr_msgid vr_securityModel vr_securityLevel vr_report vr_securityEngineID
    vr_securityName vr_contextEngineID vr_contextName vr_pdu].
  split_and!; [lia..|by eexists|]. exists sm, f, i, d. split_and!; try done.
  cbn [i i_msg_flags]. intros Hpriv. unfold level_of_flags. rewrite (proj2 (Z.eqb_neq _ _) Hpriv) in *.
  cbn [negb andb] in *. by rewrite Epa.
Qed.

Lemma snmpv3_parse_accepts_witness :
  let scoped := ber_scoped sample_v3sent [sample_binding] in
  let buf := v3_wire (v3_outgoing sample_v3session sample_v3sent scoped)
               (plain_tail (v3_outgoing sample_v3session sample_v3sent scoped) scoped) in
  let r := v3_received sample_v3sent [sample_binding] in
  ∃ sm f i d, sample_v3models (vr_securityModel r) = Some sm ∧ decode sm = Some f ∧
    i_wholeMsg i = buf ∧ i_secLevel i = SNMP_SEC_LEVEL_NOAUTH ∧ f i = Ok d ∧ d_ret d = 0 ∧
    d_secName d = [109; 101].
Proof.
  intros scoped buf r.
  destruct (snmpv3_parse_accepts (λ _, true) sample_v3models (replicate 128 0) (replicate 1472 0)
              buf 0 69 (Some 1472) r)
    as (_ & _ & _ & sm & f & i & d & H1 & H2 & H3 & _ & _ & _ & H4 & _ & _ & _ & H5 & H6 & _ & H7 & _);
    [by vm_compute|].
  exists sm, f, i, d. split_and!; [exact H1|exact H2|exact H3|exact H4|exact H5|exact H6|exact H7].
Defined.

(** What snmpv3_build refuses before it encodes anything, and the error it
    leaves: an SNMPv1 trap, an unknown command, a GetBulk with negative fields, and a
    message for which neither the PDU nor the session has a context name, a security
    name or a security level, in this order. *)
Theorem snmpv3_build_rejects `{Allocator} malloc_ok find_sec_mod default_model hdrbuf s m st :
  let cmd := command (v3_pdu m) in
  let built := snmpv3_build malloc_ok find_sec_mod default_model hdrbuf s m st in
  let plausible := cmd ∈ [SNMP_MSG_RESPONSE; SNMP_MSG_TRAP2; SNMP_MSG_REPORT; SNMP_MSG_GET;
                          SNMP_MSG_GETNEXT; SNMP_MSG_SET; SNMP_MSG_INFORM] in
  (cmd = SNMP_MSG_TRAP → built = Ok (Fail SNMPERR_V1_IN_V2)) ∧
  (¬ plausible → cmd ≠ SNMP_MSG_TRAP → cmd ≠ SNMP_MSG_GETBULK →
     built = Ok (Fail SNMPERR_UNKNOWN_PDU)) ∧
  (cmd = SNMP_MSG_GETBULK → errindex (v3_pdu m) < 0 → built = Ok (Fail SNMPERR_BAD_REPETITIONS)) ∧
  (cmd = SNMP_MSG_GETBULK → 0 ≤ errindex (v3_pdu m) → errstat (v3_pdu m) < 0 →
     built = Ok (Fail SNMPERR_BAD_REPEATERS)) ∧
  (plausible → v3_contextName m = None → vs_contextName s = None →
     built = Ok (Fail SNMPERR_BAD_CONTEXT)) ∧
  (plausible → is_Some (v3_contextName m) → v3_securityName m = None → vs_securityNameLen s = 0 →
     vs_securityModel s ≠ NETSNMP_TSM_SECURITY_MODEL → built = Ok (Fail SNMPERR_BAD_SEC_NAME)) ∧
  (plausible → is_Some (v3_contextName m) → is_Some (v3_securityName m) →
     v3_securityLevel m = 0 → vs_securityLevel s = 0 → built = Ok (Fail SNMPERR_BAD_SEC_LEVEL)).
Proof.
  cbv zeta. unfold snmpv3_build, v3_complete.
  assert (command (v3_pdu m) ∈ [SNMP_MSG_RESPONSE; SNMP_MSG_TRAP2; SNMP_MSG_REPORT; SNMP_MSG_GET;
      SNMP_MSG_GETNEXT; SNMP_MSG_SET; SNMP_MSG_INFORM] →
    v3_default_fields (v3_pdu m) = Done (default_errors (v3_pdu m))) as Hp.
  { intros Hin. unfold v3_default_fields. set_unfold in Hin. destruct_or!; by rewrite Hin. }
  destruct (fill_engines malloc_ok s m) as [sec con].
  split_and!.
  - intros Hc. unfold v3_default_fields. by rewrite Hc.
  - intros Hn Ht Hg. unfold v3_default_fields, tag_in. cbn [existsb].
    rewrite !not_elem_of_cons in Hn. destruct Hn as (?&?&?&?&?&?&?&_).
    by rewrite !(proj2 (Z.eqb_neq (command (v3_pdu m)) _)) by done.
  - intros Hc He. unfold v3_default_fields. rewrite Hc. cbn. by rewrite (proj2 (Z.ltb_lt _ _) He).
  - intros Hc He Hs. unfold v3_default_fields. rewrite Hc. cbn.
    by rewrite (proj2 (Z.ltb_ge _ _) He), (proj2 (Z.ltb_lt _ _) Hs).
  - intros Hin Hc Hs. rewrite (Hp Hin). cbn [bind_outcome]. unfold fill_contextName.
    by rewrite Hc, Hs.
  - intros Hin [c Hc] Hn Hl Ht. rewrite (Hp Hin). cbn [bind_outcome].
    unfold fill_contextName, fill_securityName. rewrite Hc, Hn. cbn [bind_outcome].
    by rewrite Hl, (proj2 (Z.eqb_neq _ _) Ht).
  - intros Hin [c Hc] [n Hn] Hl Hs. rewrite (Hp Hin). cbn [bind_outcome].
    unfold fill_contextName, fill_securityName, fill_securityLevel. rewrite Hc, Hn, Hl, Hs. done.
Qed.

Lemma snmpv3_build_rejects_witness :
  snmpv3_build (alloc := malloc_all) (λ _, true) sample_v3models 0 (replicate 51 0)
    (V3Session [] None [] (Some [109; 101]) 2 SNMP_DEFAULT_SECMODEL SNMP_SEC_LEVEL_NOAUTH 1472)
    sample_v3 (RState [] 0) = Ok (Fail SNMPERR_BAD_CONTEXT).
Proof.
  apply snmpv3_build_rejects; [|done|done]. apply (bool_decide_unpack _). by vm_compute.
Defined.
