(* ===== verification/Scapi.v ===== *)
(** * Cryptographic services: snmplib/scapi.c and snmplib/keytools.c

    Models the functions that choose a transform by its object identifier, check keys
    and lengths, pad, truncate and compare, in the build with OpenSSL: keyed hashes,
    hashes, encryption and decryption (scapi.c), and the derivation, localisation and
    change of keys (keytools.c).  The primitives of OpenSSL are the class [Crypto];
    what is relied on in them is [CryptoLaws].

    A pointer with its length is an optional list, [None] for a null pointer; [Err]
    stands for every return value but SNMPERR_SUCCESS.

    Theorems: decryption undoes encryption up to the padding, a keyed hash is
    accepted exactly if its 96 bits are those of the message, and a changed key is
    recovered from its key-change string. *)

From S2P Require Import Prelude Ber OidCompare.
From stdpp Require Import prelude numbers list.
From Stdlib Require Import ZArith Lia.
Open Scope Z_scope.

Definition USM_LENGTH_OID_TRANSFORM : Z := 10.
Definition SNMP_TRANS_AUTHLEN_HMACMD5 : Z := 128.
Definition SNMP_TRANS_AUTHLEN_HMACSHA1 : Z := 160.
Definition SNMP_TRANS_PRIVLEN_1DES : Z := 64.
Definition SNMP_TRANS_PRIVLEN_1DES_IV : Z := 64.
Definition SNMP_TRANS_PRIVLEN_AES : Z := 128.
Definition SNMP_TRANS_PRIVLEN_AES_IV : Z := 128.
Definition USM_MD5_AND_SHA_AUTH_LEN : Z := 12.
Definition SNMP_MAXBUF : Z := 1024 * 4.
Definition SNMP_MAXBUF_SMALL : Z := 512.
Definition USM_LENGTH_EXPANDED_PASSPHRASE : Z := 1024 * 1024.
Definition USM_LENGTH_KU_HASHBLOCK : Z := 64.
Definition USM_LENGTH_P_MIN : Z := 8.

Definition BYTESIZE (bitsize : Z) : Z := Z.shiftr (bitsize + 7) 3.

Definition usmNoAuthProtocol : list Z := [1; 3; 6; 1; 6; 3; 10; 1; 1; 1].
Definition usmHMACMD5AuthProtocol : list Z := [1; 3; 6; 1; 6; 3; 10; 1; 1; 2].
Definition usmHMACSHA1AuthProtocol : list Z := [1; 3; 6; 1; 6; 3; 10; 1; 1; 3].
Definition usmNoPrivProtocol : list Z := [1; 3; 6; 1; 6; 3; 10; 1; 2; 1].
Definition usmDESPrivProtocol : list Z := [1; 3; 6; 1; 6; 3; 10; 1; 2; 2].
Definition usmAESPrivProtocol : list Z := [1; 3; 6; 1; 6; 3; 10; 1; 2; 4].

(** ** The primitives of OpenSSL *)

(** Digests, HMACs, and the two block ciphers in their chaining modes.
    [DES_ncbc_encrypt] also returns the updated initialisation vector. *)
Class Crypto := {
  EVP_md5 : list Z → list Z;
  EVP_sha1 : list Z → list Z;
  HMAC_md5 : list Z → list Z → list Z;
  HMAC_sha1 : list Z → list Z → list Z;
  DES_ncbc_encrypt : list Z → list Z → list Z → list Z * list Z;
  DES_cbc_decrypt : list Z → list Z → list Z → list Z;
  AES_cfb128_encrypt : list Z → list Z → list Z → list Z;
  AES_cfb128_decrypt : list Z → list Z → list Z → list Z;
}.

(** What their documentation promises: the sizes of hashes, decryption as the inverse
    of encryption, and chaining over several calls on whole blocks. *)
Class CryptoLaws `(Crypto) : Prop := {
  length_md5 m : length (EVP_md5 m) = 16%nat;
  length_sha1 m : length (EVP_sha1 m) = 20%nat;
  length_HMAC_md5 k m : length (HMAC_md5 k m) = 16%nat;
  length_HMAC_sha1 k m : length (HMAC_sha1 k m) = 20%nat;
  length_DES k iv p : length (DES_ncbc_encrypt k iv p).1 = length p;
  DES_chains k iv p q :
    (length p mod 8 = 0)%nat →
    (DES_ncbc_encrypt k iv (p ++ q)).1
    = (DES_ncbc_encrypt k iv p).1 ++ (DES_ncbc_encrypt k (DES_ncbc_encrypt k iv p).2 q).1;
  DES_inverse k iv p :
    (length p mod 8 = 0)%nat → DES_cbc_decrypt k iv (DES_ncbc_encrypt k iv p).1 = p;
  length_AES k iv p : length (AES_cfb128_encrypt k iv p) = length p;
  AES_inverse k iv p : AES_cfb128_decrypt k iv (AES_cfb128_encrypt k iv p) = p;
}.

(** ** Transforms *)

(** Ten arcs are compared, whatever the length of [ttype]. *)
Definition ISTRANSFORM (ttype toid : list Z) : M bool :=
  c ← snmp_oid_compare ttype USM_LENGTH_OID_TRANSFORM toid USM_LENGTH_OID_TRANSFORM;
  Ok (c =? 0).

(** -1 is SNMPERR_GENERR. *)
Definition sc_get_properlength (hashtype : list Z) : M Z :=
  md5 ← ISTRANSFORM hashtype usmHMACMD5AuthProtocol;
  if (md5 : bool) then Ok (BYTESIZE SNMP_TRANS_AUTHLEN_HMACMD5)
  else
    sha ← ISTRANSFORM hashtype usmHMACSHA1AuthProtocol;
    Ok (if (sha : bool) then BYTESIZE SNMP_TRANS_AUTHLEN_HMACSHA1 else -1).

Definition sc_get_proper_priv_length (privtype : list Z) : M Z :=
  des ← ISTRANSFORM privtype usmDESPrivProtocol;
  aes ← ISTRANSFORM privtype usmAESPrivProtocol;
  Ok (if (aes : bool) then BYTESIZE SNMP_TRANS_PRIVLEN_AES
      else if (des : bool) then BYTESIZE SNMP_TRANS_PRIVLEN_1DES else 0).

Section Scapi.
Context `{Crypto}.

(** The first [*maclen] octets of the keyed hash. *)
Definition sc_generate_keyed_hash (authtype key : option (list Z)) (message : list Z)
    (maclen : Z) : M (list Z) :=
  match authtype, key with
  | Some authtype, Some key =>
      if (zlen key <=? 0) || (zlen message <=? 0) || (maclen <=? 0)
         || negb (zlen authtype =? USM_LENGTH_OID_TRANSFORM) then Err
      else
        properlength ← sc_get_properlength authtype;
        if properlength =? -1 then Err
        else if zlen key <? properlength then Err
        else
          md5 ← ISTRANSFORM authtype usmHMACMD5AuthProtocol;
          buf ← (if (md5 : bool) then Ok (HMAC_md5 key message)
                 else
                   sha ← ISTRANSFORM authtype usmHMACSHA1AuthProtocol;
                   if (sha : bool) then Ok (HMAC_sha1 key message) else Err);
          let maclen := if zlen buf <? maclen then zlen buf else maclen in
          Ok (take (Z.to_nat maclen) buf)
  | _, _ => Err
  end.

(** The digest, which is [*MAC_len] octets long. *)
Definition sc_hash (hashtype : list Z) (buf : list Z) (MAC_len : Z) : M (list Z) :=
  if zlen buf <=? 0 then Err
  else
    ret ← sc_get_properlength hashtype;
    if (ret <? 0) || (MAC_len <? ret) then Err
    else
      md5 ← ISTRANSFORM hashtype usmHMACMD5AuthProtocol;
      if (md5 : bool) then Ok (EVP_md5 buf)
      else
        sha ← ISTRANSFORM hashtype usmHMACSHA1AuthProtocol;
        if (sha : bool) then Ok (EVP_sha1 buf) else Err.

Definition sc_check_keyed_hash (authtype key : option (list Z)) (message MAC : list Z) : M unit :=
  match authtype, key with
  | Some t, Some k =>
      if (zlen k <=? 0) || (zlen message <=? 0) || (zlen MAC <=? 0)
         || negb (zlen t =? USM_LENGTH_OID_TRANSFORM) then Err
      else if negb (zlen MAC =? USM_MD5_AND_SHA_AUTH_LEN) then Err
      else
        buf ← sc_generate_keyed_hash authtype key message SNMP_MAXBUF_SMALL;
        if zlen message <? zlen MAC then Err
        else if bool_decide (take (length MAC) buf = MAC) then Ok () else Err
  | _, _ => Err
  end.

(** [ctlen] is the size of the output buffer. *)
Definition sc_encrypt (privtype key : option (list Z)) (iv plaintext : list Z) (ctlen : Z)
    : M (list Z) :=
  match privtype, key with
  | Some privtype, Some key =>
      let ptlen := zlen plaintext in
      if (zlen key <=? 0) || (zlen iv <=? 0) || (ptlen <=? 0) || (ctlen <=? 0)
         || negb (zlen privtype =? USM_LENGTH_OID_TRANSFORM) then Err
      else if ctlen <? ptlen then Err
      else
        des ← ISTRANSFORM privtype usmDESPrivProtocol;
        aes ← ISTRANSFORM privtype usmAESPrivProtocol;
        if negb des && negb aes then Err
        else
          let properlength :=
            if (aes : bool) then BYTESIZE SNMP_TRANS_PRIVLEN_AES else BYTESIZE SNMP_TRANS_PRIVLEN_1DES in
          let properlength_iv :=
            if (aes : bool) then BYTESIZE SNMP_TRANS_PRIVLEN_AES_IV
            else BYTESIZE SNMP_TRANS_PRIVLEN_1DES_IV in
          if (zlen key <? properlength) || (zlen iv <? properlength_iv) then Err
          else if (des : bool) then
            let pad_size := BYTESIZE SNMP_TRANS_PRIVLEN_1DES in
            let pad := pad_size - ptlen mod pad_size in
            let plast := ptlen - (pad_size - pad) in
            let pad := if pad =? pad_size then 0 else pad in
            if ctlen <? ptlen + pad then Err
            else
              let k := take 8 key in
              let '(c, my_iv) := DES_ncbc_encrypt k (take 8 iv) (take (Z.to_nat plast) plaintext) in
              if 0 <? pad then
                let pad_block := drop (Z.to_nat plast) plaintext ++ replicate (Z.to_nat pad) pad in
                Ok (c ++ (DES_ncbc_encrypt k my_iv pad_block).1)
              else Ok c
          else Ok (AES_cfb128_encrypt (take 16 key) (take 16 iv) plaintext)
  | _, _ => Err
  end.

(** [ptlen] is the size of the output buffer; as many octets come out as went in. *)
Definition sc_decrypt (privtype key : option (list Z)) (iv ciphertext : list Z) (ptlen : Z)
    : M (list Z) :=
  match privtype, key with
  | Some privtype, Some key =>
      let ctlen := zlen ciphertext in
      if (ctlen <=? 0) || (ptlen <=? 0) || (ptlen <? ctlen)
         || negb (zlen privtype =? USM_LENGTH_OID_TRANSFORM) then Err
      else
        des ← ISTRANSFORM privtype usmDESPrivProtocol;
        aes ← ISTRANSFORM privtype usmAESPrivProtocol;
        if negb des && negb aes then Err
        else
          let properlength :=
            if (aes : bool) then BYTESIZE SNMP_TRANS_PRIVLEN_AES else BYTESIZE SNMP_TRANS_PRIVLEN_1DES in
          let properlength_iv :=
            if (aes : bool) then BYTESIZE SNMP_TRANS_PRIVLEN_AES_IV
            else BYTESIZE SNMP_TRANS_PRIVLEN_1DES_IV in
          if (zlen key <? properlength) || (zlen iv <? properlength_iv) then Err
          else if (des : bool) then Ok (DES_cbc_decrypt (take 8 key) (take 8 iv) ciphertext)
          else Ok (AES_cfb128_decrypt (take 16 key) (take 16 iv) ciphertext)
  | _, _ => Err
  end.
End Scapi.

(** ** Keys: keytools.c *)

Section Keytools.
Context `{Crypto}.
Variable malloc_ok : Z → bool.

(** [*bufp++ = P[pindex++ % pplen]], [n] times. *)
Fixpoint expand_loop (n : nat) (P : list Z) (pindex : Z) : M (list Z) :=
  match n with
  | O => Ok []
  | S n =>
      b ← rd P (Z.to_nat (pindex mod zlen P));
      rest ← expand_loop n P (u32 (pindex + 1));
      Ok (b :: rest)
  end.

(** The data passed to [EVP_DigestUpdate], block by block. *)
Fixpoint ku_loop (fuel : nat) (nbytes : Z) (P : list Z) (pindex : Z) : M (list Z) :=
  match fuel with
  | O => UB
  | S fuel =>
      if 0 <? nbytes then
        buf ← expand_loop (Z.to_nat USM_LENGTH_KU_HASHBLOCK) P pindex;
        rest ← ku_loop fuel (nbytes - USM_LENGTH_KU_HASHBLOCK) P
                 (u32 (pindex + USM_LENGTH_KU_HASHBLOCK));
        Ok (buf ++ rest)
      else Ok []
  end.

(** The buffer [Ku] has [*kulen] octets, but the digest is stored without regard to
    that.  Returns the buffer and the new [*kulen]. *)
Definition generate_Ku (hashtype P : list Z) (Ku : list Z) : M (list Z * Z) :=
  if (zlen Ku <=? 0) || negb (zlen hashtype =? USM_LENGTH_OID_TRANSFORM) then Err
  else if zlen P <? USM_LENGTH_P_MIN then Err
  else
    md5 ← ISTRANSFORM hashtype usmHMACMD5AuthProtocol;
    sha ← ISTRANSFORM hashtype usmHMACSHA1AuthProtocol;
    if negb md5 && negb sha then Err
    else
      data ← ku_loop (Z.to_nat (USM_LENGTH_EXPANDED_PASSPHRASE / USM_LENGTH_KU_HASHBLOCK) + 1)
               USM_LENGTH_EXPANDED_PASSPHRASE P 0;
      let digest := if (md5 : bool) then EVP_md5 data else EVP_sha1 data in
      Ku ← wr_list Ku 0 digest;
      Ok (Ku, zlen digest).

(** The key is hashed with the engine identifier between two copies, in a buffer of
    SNMP_MAXBUF octets. *)
Definition generate_kul (hashtype engineID Ku : list Z) (kul_len : Z) : M (list Z) :=
  if (zlen engineID <=? 0) || (zlen Ku <=? 0) || (kul_len <=? 0)
     || negb (zlen hashtype =? USM_LENGTH_OID_TRANSFORM) then Err
  else
    iproperlength ← sc_get_properlength hashtype;
    if iproperlength =? -1 then Err
    else if (kul_len <? iproperlength) || (zlen Ku <? iproperlength) then Err
    else
      let k := take (Z.to_nat iproperlength) Ku in
      let buf := k ++ engineID ++ k in
      if SNMP_MAXBUF <? zlen buf then UB else sc_hash hashtype buf kul_len.

(** [*p++ ^= *q++], over two lists. *)
Definition xor_octets (p q : list Z) : list Z := zip_with Z.lxor p q.

(** The octets [sc_random] gave, [nbytes] of them. *)
Variable random : nat → list Z.

(** Returns the return value, the buffer and [*kcstring_len].  Without memory for
    [tmpbuf] the function reports success with half of the string made. *)
Definition encode_keychange (hashtype oldkey newkey kcstring : list Z) : M (Z * list Z * Z) :=
  let kcstring_len := zlen kcstring in
  let fail buf len := buf ← wr_list buf 0 (replicate (Z.to_nat len) 0); Ok (-1, buf, len) in
  if (zlen oldkey <=? 0) || (zlen newkey <=? 0) || (kcstring_len <=? 0)
     || negb (zlen hashtype =? USM_LENGTH_OID_TRANSFORM) then fail kcstring kcstring_len
  else
    properlength ← sc_get_properlength hashtype;
    if properlength =? -1 then fail kcstring kcstring_len
    else if negb (zlen oldkey =? zlen newkey) || (kcstring_len <? u32 (2 * zlen oldkey))
    then fail kcstring kcstring_len
    else
      let properlength := Z.min (zlen oldkey) properlength in
      let n := Z.to_nat properlength in
      kcstring ← wr_list kcstring 0 (random n);
      if malloc_ok (properlength * 2) then
        rnd ← rd_list kcstring 0 n;
        let left := kcstring_len - properlength in
        match sc_hash hashtype (take n oldkey ++ rnd) left with
        | UB => UB
        | Err => fail kcstring left
        | Ok hash =>
            kcstring ← wr_list kcstring n hash;
            half ← rd_list kcstring n n;
            kcstring ← wr_list kcstring n (xor_octets half (take n newkey));
            Ok (0, kcstring, properlength * 2)
        end
      else Ok (0, kcstring, kcstring_len).

(** [uninit] is the array [tmp_buf] before the hash is stored in it; the buffer
    [newkey] has [*newkey_len] octets.  An error clears as many octets of [newkey] as
    the hash has, whatever its size. *)
Definition decode_keychange (uninit hashtype oldkey kcstring newkey : list Z)
    : M (Z * list Z * Z) :=
  let newkey_len := zlen newkey in
  let fail properlength len :=
    newkey ← wr_list newkey 0 (replicate (Z.to_nat properlength) 0); Ok (-1, newkey, len) in
  if (zlen oldkey <=? 0) || (zlen kcstring <=? 0) || (newkey_len <=? 0)
     || negb (zlen hashtype =? USM_LENGTH_OID_TRANSFORM) then fail 0 newkey_len
  else
    iproperlength ← sc_get_properlength hashtype;
    if iproperlength =? -1 then fail 0 newkey_len
    else if negb (u32 (zlen oldkey * 2) =? zlen kcstring) || (newkey_len <? zlen oldkey)
    then fail iproperlength newkey_len
    else
      let properlength := zlen oldkey in
      let n := Z.to_nat properlength in
      if malloc_ok (properlength * 2) then
        rnd ← rd_list kcstring 0 n;
        match sc_hash hashtype (oldkey ++ rnd) SNMP_MAXBUF with
        | UB => UB
        | Err => fail properlength properlength
        | Ok hash =>
            tmp_buf ← wr_list uninit 0 hash;
            h ← rd_list tmp_buf 0 n;
            half ← rd_list kcstring n n;
            newkey ← wr_list newkey 0 (xor_octets h half);
            Ok (0, newkey, properlength)
        end
      else Ok (0, newkey, properlength).
End Keytools.

(** ** Transforms decided *)

Lemma ISTRANSFORM_spec ttype toid :
  zlen ttype = USM_LENGTH_OID_TRANSFORM → zlen toid = USM_LENGTH_OID_TRANSFORM →
  ISTRANSFORM ttype toid = Ok (bool_decide (ttype = toid)).
Proof.
  intros H1 H2. unfold ISTRANSFORM.
  rewrite (compare_stored ttype _ ttype toid _ toid).
  - m_step. f_equal. destruct (Z.eqb_spec (oid_cmp ttype toid) 0) as [E|E].
    + apply oid_cmp_eq in E. by rewrite bool_decide_true.
    + rewrite bool_decide_false; [done|]. intros E'. by apply oid_cmp_eq in E'.
  - exists []. by rewrite app_nil_r, H1.
  - exists []. by rewrite app_nil_r, H2.
Qed.

(** A hash transform with its digest and HMAC. *)
Inductive hash_transform `{Crypto} (t : list Z) : Z → (list Z → list Z) → (list Z → list Z → list Z) → Prop :=
| is_md5 : t = usmHMACMD5AuthProtocol → hash_transform t 16 EVP_md5 HMAC_md5
| is_sha1 : t = usmHMACSHA1AuthProtocol → hash_transform t 20 EVP_sha1 HMAC_sha1.

Section Hashes.
Context `{CryptoLaws}.

Lemma hash_transform_size t n d h :
  hash_transform t n d h →
  zlen t = USM_LENGTH_OID_TRANSFORM ∧ (n = 16 ∨ n = 20) ∧
  (∀ m, length (d m) = Z.to_nat n) ∧ ∀ k m, length (h k m) = Z.to_nat n.
Proof.
  destruct 1 as [-> | ->]; (split_and!; [done|auto|..]).
  - apply length_md5.
  - apply length_HMAC_md5.
  - apply length_sha1.
  - apply length_HMAC_sha1.
Qed.

Lemma properlength_spec t n d h : hash_transform t n d h → sc_get_properlength t = Ok n.
Proof. by destruct 1 as [-> | ->]. Qed.

Lemma sc_hash_spec t n d h buf MAC_len :
  hash_transform t n d h → buf ≠ [] → n ≤ MAC_len → sc_hash t buf MAC_len = Ok (d buf).
Proof.
  intros Ht Hb Hl. unfold sc_hash.
  assert (0 < zlen buf) as Hz by (destruct buf; [done|rewrite zlen_cons; pose proof (zlen_nonneg buf); lia]).
  destruct (Z.leb_spec (zlen buf) 0); [lia|].
  destruct (hash_transform_size _ _ _ _ Ht) as (_ & Hn & _).
  rewrite (properlength_spec _ _ _ _ Ht). m_step.
  destruct (Z.ltb_spec n 0), (Z.ltb_spec MAC_len n); try lia. m_step.
  destruct Ht as [-> | ->]; done.
Qed.

Lemma keyed_hash_spec t n d h key msg maclen :
  hash_transform t n d h → n ≤ zlen key → msg ≠ [] → 0 < maclen →
  sc_generate_keyed_hash (Some t) (Some key) msg maclen
  = Ok (take (Z.to_nat (Z.min n maclen)) (h key msg)).
Proof.
  intros Ht Hk Hm Hl. destruct (hash_transform_size _ _ _ _ Ht) as (Hz & Hn & _ & Hh).
  unfold sc_generate_keyed_hash.
  assert (0 < zlen msg) as Hz'
    by (destruct msg; [done|rewrite zlen_cons; pose proof (zlen_nonneg msg); lia]).
  destruct (Z.leb_spec (zlen key) 0), (Z.leb_spec (zlen msg) 0), (Z.leb_spec maclen 0); try lia.
  rewrite Hz. cbn [orb negb Z.eqb USM_LENGTH_OID_TRANSFORM Pos.eqb].
  rewrite (properlength_spec _ _ _ _ Ht). m_step.
  destruct (Z.eqb_spec n (-1)); [lia|]. destruct (Z.ltb_spec (zlen key) n); [lia|].
  assert ((md5 ← ISTRANSFORM t usmHMACMD5AuthProtocol;
           if (md5 : bool) then Ok (HMAC_md5 key msg)
           else sha ← ISTRANSFORM t usmHMACSHA1AuthProtocol;
                if (sha : bool) then Ok (HMAC_sha1 key msg) else Err) = Ok (h key msg)) as E
    by (destruct Ht as [-> | ->]; done).
  destruct (ISTRANSFORM t usmHMACMD5AuthProtocol) as [md5| |]; [|done..]. m_step.
  cbn [mbind M_bind] in E. rewrite E. m_step. unfold zlen. rewrite Hh.
  destruct (Z.ltb_spec (Z.of_nat (Z.to_nat n)) maclen); do 2 f_equal; lia.
Qed.

(** What the check of a received hash looks at. *)
Lemma sc_check_keyed_hash_iff t n d h key msg MAC :
  hash_transform t n d h → n ≤ zlen key → USM_MD5_AND_SHA_AUTH_LEN ≤ zlen msg →
  sc_check_keyed_hash (Some t) (Some key) msg MAC = Ok () ↔ MAC = take 12 (h key msg).
Proof.
  intros Ht Hk Hm. unfold USM_MD5_AND_SHA_AUTH_LEN in *.
  destruct (hash_transform_size _ _ _ _ Ht) as (Hz & Hn & _ & Hh). unfold sc_check_keyed_hash.
  destruct (Z.leb_spec (zlen key) 0), (Z.leb_spec (zlen msg) 0); try lia.
  rewrite Hz. cbn [orb negb Z.eqb USM_LENGTH_OID_TRANSFORM Pos.eqb]. rewrite orb_false_r.
  assert (msg ≠ []) as Hne by (intros ->; change (zlen []) with 0 in Hm; lia).
  assert (length (take 12 (h key msg)) = 12%nat) as Hlen by (rewrite length_take, Hh; lia).
  destruct (Z.leb_spec (zlen MAC) 0).
  { split; [done|]. intros ->. unfold zlen in *. lia. }
  unfold USM_MD5_AND_SHA_AUTH_LEN. destruct (Z.eqb_spec (zlen MAC) 12) as [E|E]; cbn [negb].
  2: { split; [done|]. intros ->. unfold zlen in *. lia. }
  rewrite (keyed_hash_spec t n d h) by (done || unfold SNMP_MAXBUF_SMALL; lia). m_step.
  destruct (Z.ltb_spec (zlen msg) (zlen MAC)); [lia|].
  unfold zlen in E. replace (length MAC) with 12%nat by lia.
  rewrite take_take. replace (12 `min` _)%nat with 12%nat by (unfold SNMP_MAXBUF_SMALL; lia).
  case_bool_decide as Eq; [by rewrite Eq|]. split; [done|]. intros ->. done.
Qed.
End Hashes.

(** ** Encryption *)

(** The sizes a privacy transform needs, and the padding of its messages. *)
Inductive priv_transform (t : list Z) : nat → nat → (Z → Z) → Prop :=
| is_DES : t = usmDESPrivProtocol → priv_transform t 8 8 (λ n, (- n) mod 8)
| is_AES : t = usmAESPrivProtocol → priv_transform t 16 16 (λ _, 0).

Section Ciphers.
Context `{CryptoLaws}.

(** The two steps of the encryption are one of the padded text. *)
Lemma des_padded k iv p pad :
  0 < pad < 8 → (zlen p + pad) mod 8 = 0 →
  let plast := Z.to_nat (zlen p - (8 - pad)) in
  let '(c, iv') := DES_ncbc_encrypt k iv (take plast p) in
  c ++ (DES_ncbc_encrypt k iv' (drop plast p ++ replicate (Z.to_nat pad) pad)).1
  = (DES_ncbc_encrypt k iv (p ++ replicate (Z.to_nat pad) pad)).1.
Proof.
  intros Hp Hm plast.
  assert (8 - pad ≤ zlen p) as Hlp.
  { pose proof (zlen_nonneg p). destruct (Z_lt_le_dec (zlen p + pad) 8); [|lia].
    rewrite Z.mod_small in Hm; lia. }
  assert (length (take plast p) = plast) as Hl
    by (rewrite length_take; unfold plast, zlen in *; lia).
  pose proof (DES_chains k iv (take plast p) (drop plast p ++ replicate (Z.to_nat pad) pad)) as HC.
  rewrite app_assoc, take_drop in HC. rewrite HC.
  - by destruct (DES_ncbc_encrypt k iv (take plast p)).
  - rewrite Hl. apply Nat2Z.inj. rewrite Nat2Z.inj_mod. unfold plast. rewrite Z2Nat.id by lia.
    change (Z.of_nat 8) with 8. change (Z.of_nat 0) with 0.
    replace (zlen p - (8 - pad)) with (zlen p + pad + (-1) * 8) by lia. by rewrite Z_mod_plus_full.
Qed.

Lemma sc_encrypt_des k iv p ctlen :
  p ≠ [] → 8 ≤ zlen k → 8 ≤ zlen iv → zlen p + (- zlen p) mod 8 ≤ ctlen →
  sc_encrypt (Some usmDESPrivProtocol) (Some k) iv p ctlen
  = Ok (DES_ncbc_encrypt (take 8 k) (take 8 iv)
          (p ++ replicate (Z.to_nat ((- zlen p) mod 8)) ((- zlen p) mod 8))).1.
Proof.
  intros Hp Hk Hiv Hc. unfold sc_encrypt.
  pose proof (Z.mod_pos_bound (- zlen p) 8 ltac:(lia)) as Hb.
  assert (0 < zlen p) as Hz
    by (destruct p; [done|rewrite zlen_cons; pose proof (zlen_nonneg p); lia]).
  destruct (Z.leb_spec (zlen k) 0), (Z.leb_spec (zlen iv) 0), (Z.leb_spec (zlen p) 0),
    (Z.leb_spec ctlen 0); try lia.
  change (negb (zlen usmDESPrivProtocol =? USM_LENGTH_OID_TRANSFORM)) with false. cbn [orb].
  destruct (Z.ltb_spec ctlen (zlen p)); [lia|].
  change (ISTRANSFORM usmDESPrivProtocol usmDESPrivProtocol) with (Ok true).
  change (ISTRANSFORM usmDESPrivProtocol usmAESPrivProtocol) with (Ok false).
  m_step. cbn [negb andb].
  change (BYTESIZE SNMP_TRANS_PRIVLEN_1DES_IV) with 8. change (BYTESIZE SNMP_TRANS_PRIVLEN_1DES) with 8.
  destruct (Z.ltb_spec (zlen k) 8), (Z.ltb_spec (zlen iv) 8); try lia. cbn [orb].
  assert ((- zlen p) mod 8 = if zlen p mod 8 =? 0 then 0 else 8 - zlen p mod 8) as Epad.
  { destruct (Z.eqb_spec (zlen p mod 8) 0); [by apply Z_mod_zero_opp_full|].
    by apply Z_mod_nz_opp_full. }
  pose proof (Z.mod_pos_bound (zlen p) 8 ltac:(lia)) as Hb'.
  destruct (Z.eqb_spec (zlen p mod 8) 0) as [E|E].
  - rewrite Epad, E. change (8 - 0 =? 8) with true. cbv iota.
    destruct (Z.ltb_spec ctlen (zlen p + 0)); [lia|].
    replace (zlen p - (8 - (8 - 0))) with (zlen p) by lia.
    rewrite Z_to_nat_zlen, firstn_all. change (replicate (Z.to_nat 0) 0) with (@nil Z). rewrite ?app_nil_r.
    by destruct (DES_ncbc_encrypt _ _ _).
  - set (pad := 8 - zlen p mod 8) in *. destruct (Z.eqb_spec pad 8); [lia|].
    rewrite Epad in *. destruct (Z.ltb_spec ctlen (zlen p + pad)); [lia|].
    assert ((zlen p + pad) mod 8 = 0) as Hm.
    { unfold pad. rewrite (Z.div_mod (zlen p) 8) at 1 by lia.
      replace (8 * (zlen p / 8) + zlen p mod 8 + (8 - zlen p mod 8)) with ((zlen p / 8 + 1) * 8) by lia.
      apply Z_mod_mult. }
    pose proof (des_padded (take 8 k) (take 8 iv) p pad ltac:(lia) Hm) as HD. cbv zeta in HD.
    destruct (DES_ncbc_encrypt _ _ (take _ p)) as [c iv']. rewrite <- HD.
    by destruct (Z.ltb_spec 0 pad); [|lia].
Qed.

Lemma sc_encrypt_aes k iv p ctlen :
  p ≠ [] → 16 ≤ zlen k → 16 ≤ zlen iv → zlen p ≤ ctlen →
  sc_encrypt (Some usmAESPrivProtocol) (Some k) iv p ctlen
  = Ok (AES_cfb128_encrypt (take 16 k) (take 16 iv) p).
Proof.
  intros Hp Hk Hiv Hc. unfold sc_encrypt.
  assert (0 < zlen p) as Hz
    by (destruct p; [done|rewrite zlen_cons; pose proof (zlen_nonneg p); lia]).
  destruct (Z.leb_spec (zlen k) 0), (Z.leb_spec (zlen iv) 0), (Z.leb_spec (zlen p) 0),
    (Z.leb_spec ctlen 0); try lia.
  change (negb (zlen usmAESPrivProtocol =? USM_LENGTH_OID_TRANSFORM)) with false. cbn [orb].
  destruct (Z.ltb_spec ctlen (zlen p)); [lia|].
  change (ISTRANSFORM usmAESPrivProtocol usmDESPrivProtocol) with (Ok false).
  change (ISTRANSFORM usmAESPrivProtocol usmAESPrivProtocol) with (Ok true). m_step.
  change (BYTESIZE SNMP_TRANS_PRIVLEN_AES_IV) with 16. change (BYTESIZE SNMP_TRANS_PRIVLEN_AES) with 16.
  by destruct (Z.ltb_spec (zlen k) 16), (Z.ltb_spec (zlen iv) 16); try lia.
Qed.

(** Encryption with room for the padding succeeds, and decryption with the same key
    and initialisation vector returns the text followed by the padding. *)
Lemma sc_crypt_spec t nk niv padding k iv p ctlen :
  priv_transform t nk niv padding → p ≠ [] → Z.of_nat nk ≤ zlen k → Z.of_nat niv ≤ zlen iv →
  zlen p + padding (zlen p) ≤ ctlen →
  ∃ c pad, sc_encrypt (Some t) (Some k) iv p ctlen = Ok c ∧
    zlen c = zlen p + zlen pad ∧ zlen pad = padding (zlen p) ∧ zlen pad < 8 ∧
    (t = usmDESPrivProtocol → zlen c mod 8 = 0) ∧
    ∀ ptlen, zlen c ≤ ptlen → sc_decrypt (Some t) (Some k) iv c ptlen = Ok (p ++ pad).
Proof.
  intros Ht Hp Hk Hiv Hc.
  assert (0 < zlen p) as Hz
    by (destruct p; [done|rewrite zlen_cons; pose proof (zlen_nonneg p); lia]).
  destruct Ht as [-> | ->].
  - rewrite sc_encrypt_des by (done || lia). set (n := (- zlen p) mod 8) in *.
    pose proof (Z.mod_pos_bound (- zlen p) 8 ltac:(lia)) as Hb. fold n in Hb.
    set (q := p ++ replicate (Z.to_nat n) n).
    assert (zlen q = zlen p + n) as Hq
      by (unfold q; rewrite zlen_app; unfold zlen at 2; rewrite length_replicate; lia).
    assert (zlen q mod 8 = 0) as Hm.
    { rewrite Hq. unfold n. rewrite Z.add_mod_idemp_r by lia. by replace (zlen p + - zlen p) with 0 by lia. }
    set (c := (DES_ncbc_encrypt (take 8 k) (take 8 iv) q).1).
    assert (zlen c = zlen q) as Hzc by (unfold c, zlen; by rewrite length_DES).
    exists c, (replicate (Z.to_nat n) n).
    assert (zlen (replicate (Z.to_nat n) n) = n) as Hr by (unfold zlen; rewrite length_replicate; lia).
    split_and!; [done|lia|done|lia|by rewrite Hzc|].
    intros ptlen Hpt. unfold sc_decrypt.
    destruct (Z.leb_spec (zlen c) 0), (Z.leb_spec ptlen 0), (Z.ltb_spec ptlen (zlen c)); try lia.
    change (negb (zlen usmDESPrivProtocol =? USM_LENGTH_OID_TRANSFORM)) with false. cbn [orb].
    change (ISTRANSFORM usmDESPrivProtocol usmDESPrivProtocol) with (Ok true).
    change (ISTRANSFORM usmDESPrivProtocol usmAESPrivProtocol) with (Ok false). m_step.
    change (BYTESIZE SNMP_TRANS_PRIVLEN_1DES_IV) with 8. change (BYTESIZE SNMP_TRANS_PRIVLEN_1DES) with 8.
    destruct (Z.ltb_spec (zlen k) 8), (Z.ltb_spec (zlen iv) 8); try lia. cbn [orb].
    unfold c. rewrite DES_inverse; [done|].
    apply Nat2Z.inj. rewrite Nat2Z.inj_mod. exact Hm.
  - rewrite sc_encrypt_aes by (done || lia).
    set (c := AES_cfb128_encrypt (take 16 k) (take 16 iv) p).
    assert (zlen c = zlen p) as Hzc by (unfold c, zlen; by rewrite length_AES).
    exists c, []. change (zlen []) with 0.
    split_and!; [done|lia|done|lia|done|].
    intros ptlen Hpt. unfold sc_decrypt.
    destruct (Z.leb_spec (zlen c) 0), (Z.leb_spec ptlen 0), (Z.ltb_spec ptlen (zlen c)); try lia.
    change (negb (zlen usmAESPrivProtocol =? USM_LENGTH_OID_TRANSFORM)) with false. cbn [orb].
    change (ISTRANSFORM usmAESPrivProtocol usmDESPrivProtocol) with (Ok false).
    change (ISTRANSFORM usmAESPrivProtocol usmAESPrivProtocol) with (Ok true). m_step.
    change (BYTESIZE SNMP_TRANS_PRIVLEN_AES_IV) with 16. change (BYTESIZE SNMP_TRANS_PRIVLEN_AES) with 16.
    destruct (Z.ltb_spec (zlen k) 16), (Z.ltb_spec (zlen iv) 16); try lia. cbn [orb].
    unfold c. by rewrite AES_inverse, app_nil_r.
Qed.
End Ciphers.

(** ** Keys *)

(** [n] octets of the passphrase repeated without end, from index [i] on. *)
Definition cyclic (P : list Z) (i : Z) (n : nat) : list Z :=
  (λ j, nth (Z.to_nat ((i + Z.of_nat j) mod zlen P)) P 0) <$> seq 0 n.

Lemma cyclic_S P i n : cyclic P i (S n) = nth (Z.to_nat (i mod zlen P)) P 0 :: cyclic P (i + 1) n.
Proof.
  unfold cyclic. rewrite <- cons_seq, fmap_cons, <- fmap_S_seq, <- list_fmap_compose. f_equal.
  - by rewrite Z.add_0_r.
  - apply list_fmap_ext. intros j x _. cbn [compose].
    by replace (i + Z.of_nat (S x)) with (i + 1 + Z.of_nat x) by lia.
Qed.

Lemma cyclic_app P i n m : cyclic P i (n + m) = cyclic P i n ++ cyclic P (i + Z.of_nat n) m.
Proof.
  revert i. induction n as [|n IH]; intros i; cbn [Nat.add].
  - by rewrite Z.add_0_r.
  - rewrite !cyclic_S, IH. cbn [app]. do 3 f_equal. lia.
Qed.

Lemma length_cyclic P i n : length (cyclic P i n) = n.
Proof. unfold cyclic. by rewrite length_fmap, length_seq. Qed.

Lemma expand_loop_spec n P i :
  P ≠ [] → 0 ≤ i → i + Z.of_nat n < 2 ^ 32 → expand_loop n P i = Ok (cyclic P i n).
Proof.
  intros HP. revert i. induction n as [|n IH]; intros i Hi Hn; [done|]. cbn [expand_loop].
  assert (0 < zlen P) as Hz
    by (destruct P; [done|rewrite zlen_cons; pose proof (zlen_nonneg P); lia]).
  pose proof (Z.mod_pos_bound i (zlen P) Hz) as Hb.
  assert (rd P (Z.to_nat (i mod zlen P)) = Ok (nth (Z.to_nat (i mod zlen P)) P 0)) as ->.
  { apply rd_Ok. rewrite nth_lookup. unfold zlen in *.
    destruct (lookup_lt_is_Some_2 P (Z.to_nat (i mod Z.of_nat (length P)))) as [x Hx]; [lia|].
    by rewrite Hx. }
  m_step. rewrite u32_id, IH by lia. m_step. by rewrite cyclic_S.
Qed.

Lemma ku_loop_spec fuel b P i :
  P ≠ [] → 0 ≤ i → i + 64 * Z.of_nat b < 2 ^ 32 → (b < fuel)%nat →
  ku_loop fuel (64 * Z.of_nat b) P i = Ok (cyclic P i (64 * b)).
Proof.
  intros HP. revert b i. induction fuel as [|fuel IH]; intros b i Hi Hn Hf; [lia|].
  cbn [ku_loop]. destruct b as [|b]; [done|].
  destruct (Z.ltb_spec 0 (64 * Z.of_nat (S b))); [|lia]. unfold USM_LENGTH_KU_HASHBLOCK.
  rewrite expand_loop_spec by (done || lia). m_step.
  replace (64 * Z.of_nat (S b) - 64) with (64 * Z.of_nat b) by lia.
  rewrite u32_id, IH by lia. m_step. f_equal.
  replace (64 * S b)%nat with (Z.to_nat 64 + 64 * b)%nat by lia. rewrite cyclic_app. do 2 f_equal.
Qed.

Section Keys.
Context `{CryptoLaws}.

Lemma generate_Ku_spec t n d h P Ku :
  hash_transform t n d h → USM_LENGTH_P_MIN ≤ zlen P → n ≤ zlen Ku →
  generate_Ku t P Ku
  = Ok (d (cyclic P 0 (Z.to_nat USM_LENGTH_EXPANDED_PASSPHRASE)) ++ drop (Z.to_nat n) Ku, n).
Proof.
  intros Ht HP HK. destruct (hash_transform_size _ _ _ _ Ht) as (Hz & Hn & Hd & _).
  unfold generate_Ku. rewrite Hz. destruct (Z.leb_spec (zlen Ku) 0); [lia|].
  change (negb (_ =? _)) with false. cbn [orb].
  destruct (Z.ltb_spec (zlen P) USM_LENGTH_P_MIN); [lia|].
  rewrite !ISTRANSFORM_spec by done. m_step.
  assert (P ≠ []) as HPn by (intros ->; by vm_compute in HP).
  pose proof (ku_loop_spec (Z.to_nat (USM_LENGTH_EXPANDED_PASSPHRASE / USM_LENGTH_KU_HASHBLOCK) + 1)
    (Z.to_nat 16384) P 0 HPn) as HL.
  replace (64 * Z.of_nat (Z.to_nat 16384)) with USM_LENGTH_EXPANDED_PASSPHRASE in HL by done.
  assert (∀ x, length (d x) = Z.to_nat n) as Hd' by done.
  assert (∀ x, wr_list Ku 0 (d x) = Ok (d x ++ drop (Z.to_nat n) Ku)) as HW.
  { intros x. rewrite wr_list_eq by (rewrite Hd; unfold zlen in *; lia).
    cbn [take app]. by rewrite Hd. }
  assert (negb (bool_decide (t = usmHMACMD5AuthProtocol)) &&
          negb (bool_decide (t = usmHMACSHA1AuthProtocol)) = false) as ->
    by (destruct Ht as [-> | ->]; done).
  rewrite HL; [|lia|unfold USM_LENGTH_EXPANDED_PASSPHRASE; lia|].
  2: { change (USM_LENGTH_EXPANDED_PASSPHRASE / USM_LENGTH_KU_HASHBLOCK) with 16384. lia. }
  m_step. replace (64 * Z.to_nat 16384)%nat with (Z.to_nat USM_LENGTH_EXPANDED_PASSPHRASE)
    by (unfold USM_LENGTH_EXPANDED_PASSPHRASE; lia).
  set (C := cyclic _ _ _). clearbody C.
  assert ((if bool_decide (t = usmHMACMD5AuthProtocol) then EVP_md5 C else EVP_sha1 C) = d C) as ->
    by (destruct Ht as [-> | ->]; done).
  rewrite HW. m_step. f_equal. f_equal. unfold zlen. rewrite Hd. lia.
Qed.

Lemma generate_kul_spec t n d h engineID Ku kul_len :
  hash_transform t n d h → engineID ≠ [] → n ≤ zlen Ku → n ≤ kul_len →
  2 * n + zlen engineID ≤ SNMP_MAXBUF →
  generate_kul t engineID Ku kul_len
  = Ok (d (take (Z.to_nat n) Ku ++ engineID ++ take (Z.to_nat n) Ku)).
Proof.
  intros Ht He HK Hl Hm. destruct (hash_transform_size _ _ _ _ Ht) as (Hz & Hn & Hd & _).
  unfold generate_kul. rewrite Hz.
  assert (0 < zlen engineID) as Hz'
    by (destruct engineID; [done|rewrite zlen_cons; pose proof (zlen_nonneg engineID); lia]).
  destruct (Z.leb_spec (zlen engineID) 0), (Z.leb_spec (zlen Ku) 0), (Z.leb_spec kul_len 0); try lia.
  change (negb (_ =? _)) with false. cbn [orb]. rewrite (properlength_spec _ _ _ _ Ht). m_step.
  destruct (Z.eqb_spec n (-1)); [lia|].
  destruct (Z.ltb_spec kul_len n), (Z.ltb_spec (zlen Ku) n); try lia. cbn [orb].
  set (k := take (Z.to_nat n) Ku).
  assert (zlen k = n) as Hk by (unfold k, zlen in *; rewrite length_take; lia).
  rewrite !zlen_app, Hk. destruct (Z.ltb_spec SNMP_MAXBUF (n + (zlen engineID + n))); [lia|].
  apply (sc_hash_spec t n d h); [done| |done].
  destruct k; [change (zlen []) with 0 in Hk; lia|done].
Qed.
End Keys.

(** ** Properties *)

(** Primitives at which the theorems are evaluated: a sum for a hash, and an
    exclusive-or with the key for a cipher. *)
Definition sum_hash (n : nat) (m : list Z) : list Z := replicate n (foldr Z.add 0 m mod 256).
Definition xor_key (k m : list Z) : list Z := Z.lxor (hd 0 k) <$> m.

Definition toy_crypto : Crypto := {|
  EVP_md5 := sum_hash 16;
  EVP_sha1 := sum_hash 20;
  HMAC_md5 k m := sum_hash 16 (k ++ m);
  HMAC_sha1 k m := sum_hash 20 (k ++ m);
  DES_ncbc_encrypt k iv m := (xor_key k m, iv);
  DES_cbc_decrypt k iv m := xor_key k m;
  AES_cfb128_encrypt k iv m := xor_key k m;
  AES_cfb128_decrypt k iv m := xor_key k m;
|}.

Lemma xor_key_involutive k m : xor_key k (xor_key k m) = m.
Proof.
  unfold xor_key. rewrite <- list_fmap_compose. rewrite <- (list_fmap_id m) at 2.
  apply list_fmap_ext. intros i x _. cbn.
  by rewrite <- Z.lxor_assoc, Z.lxor_nilpotent, Z.lxor_0_l.
Qed.

#[export] Instance toy_crypto_laws : CryptoLaws toy_crypto.
Proof.
  split; cbn; intros; try done; try apply length_fmap; try apply xor_key_involutive; apply fmap_app.
Qed.

Lemma xor_octets_cancel h k :
  (length k ≤ length h)%nat → xor_octets h (xor_octets h k) = k.
Proof.
  unfold xor_octets. revert k. induction h as [|x h IH]; intros [|y k] Hl; simpl in *; try done; try lia.
  rewrite IH by lia. by rewrite <- Z.lxor_assoc, Z.lxor_nilpotent, Z.lxor_0_l.
Qed.

Lemma xor_octets_take_l h k :
  (length k ≤ length h)%nat → xor_octets (take (length k) h) k = xor_octets h k.
Proof.
  unfold xor_octets. revert k. induction h as [|x h IH]; intros [|y k] Hl; simpl in *; try done; try lia.
  by rewrite IH by lia.
Qed.

Lemma length_xor_octets h k : (length k ≤ length h)%nat → length (xor_octets h k) = length k.
Proof. unfold xor_octets. rewrite length_zip_with. lia. Qed.

(** [xor_octets] is symmetric. *)
Lemma xor_octets_comm h k : xor_octets h k = xor_octets k h.
Proof.
  unfold xor_octets. revert k. induction h as [|x h IH]; intros [|y k]; simpl; try done.
  by rewrite IH, Z.lxor_comm.
Qed.

Section KeyChange.
Context `{CryptoLaws}.

Lemma encode_keychange_spec malloc_ok random t n d h oldkey newkey kcstring :
  hash_transform t n d h → 0 < zlen oldkey → zlen oldkey ≤ n → zlen newkey = zlen oldkey →
  zlen oldkey + n ≤ zlen kcstring → (∀ i, length (random i) = i) →
  malloc_ok (zlen oldkey * 2) = true →
  let k := length oldkey in
  ∃ rest, encode_keychange malloc_ok random t oldkey newkey kcstring
  = Ok (0, random k ++ xor_octets (d (oldkey ++ random k)) newkey ++ rest, zlen oldkey * 2).
Proof.
  intros Ht Ho Hon Hnew Hkc Hrnd Hmal k.
  destruct (hash_transform_size _ _ _ _ Ht) as (Hz & Hn & Hd & _). unfold encode_keychange.
  destruct (Z.leb_spec (zlen oldkey) 0), (Z.leb_spec (zlen newkey) 0), (Z.leb_spec (zlen kcstring) 0);
    try lia. rewrite Hz. change (negb (_ =? USM_LENGTH_OID_TRANSFORM)) with false. cbn [orb].
  rewrite (properlength_spec _ _ _ _ Ht). m_step. destruct (Z.eqb_spec n (-1)); [lia|].
  rewrite Hnew, Z.eqb_refl, u32_id by lia.
  destruct (Z.ltb_spec (zlen kcstring) (2 * zlen oldkey)); [lia|]. cbn [negb orb].
  rewrite Z.min_l by lia. rewrite Z_to_nat_zlen. fold k.
  rewrite wr_list_eq by (rewrite Hrnd; unfold zlen in *; lia). m_step. rewrite Hmal.
  set (R := random k). assert (length R = k) as HR by apply Hrnd.
  assert (length kcstring ≥ k + Z.to_nat n)%nat as Hlk by (unfold zlen, k in *; lia).
  rewrite take_0. cbn [app Nat.add]. rewrite HR.
  pose proof (rd_list_app R [] (drop k kcstring)) as E1. cbn [app length] in E1. rewrite HR in E1.
  rewrite E1. m_step.
  assert (take k oldkey = oldkey) as -> by apply firstn_all.
  rewrite (sc_hash_spec t n d h) by (done || lia || (destruct oldkey; [by cbn in Ho|done])).
  set (D := d (oldkey ++ R)). assert (length D = Z.to_nat n) as HD by apply Hd.
  assert (wr_list (R ++ drop k kcstring) k D = Ok (R ++ D ++ drop (Z.to_nat n) (drop k kcstring))) as ->.
  { rewrite <- (take_drop (Z.to_nat n) (drop k kcstring)) at 1.
    pose proof (wr_list_app D R (take (Z.to_nat n) (drop k kcstring))
      (drop (Z.to_nat n) (drop k kcstring))) as E. rewrite HR in E. apply E.
    rewrite length_take, length_drop, HD. lia. }
  m_step. set (T := drop (Z.to_nat n) (drop k kcstring)).
  assert (length (take k D) = k) as Hl1 by (rewrite length_take, HD; unfold zlen, k in *; lia).
  assert (R ++ D ++ T = R ++ take k D ++ drop k D ++ T) as ->
    by (rewrite (app_assoc (take k D)), take_drop; done).
  pose proof (rd_list_app (take k D) R (drop k D ++ T)) as E2. rewrite Hl1, HR in E2.
  rewrite E2. m_step.
  assert (length newkey = k) as Hnk by (unfold zlen, k in *; lia).
  assert (take k newkey = newkey) as -> by (rewrite <- Hnk; apply firstn_all).
  assert (xor_octets (take k D) newkey = xor_octets D newkey) as ->
    by (rewrite <- Hnk; apply xor_octets_take_l; rewrite HD; unfold zlen, k in *; lia).
  assert (length (xor_octets D newkey) = k) as Hx
    by (rewrite length_xor_octets; rewrite ?HD; unfold zlen, k in *; lia).
  pose proof (wr_list_app (xor_octets D newkey) R (take k D) (drop k D ++ T)) as E3.
  rewrite HR in E3. rewrite E3 by lia. m_step. by exists (drop k D ++ T).
Qed.

Lemma decode_keychange_spec malloc_ok uninit t n d h oldkey R X newkey :
  hash_transform t n d h → 0 < zlen oldkey → zlen oldkey ≤ n → length R = length oldkey →
  length X = length oldkey → zlen oldkey ≤ zlen newkey → n ≤ zlen uninit →
  malloc_ok (zlen oldkey * 2) = true →
  decode_keychange malloc_ok uninit t oldkey (R ++ X) newkey
  = Ok (0, xor_octets (d (oldkey ++ R)) X ++ drop (length oldkey) newkey, zlen oldkey).
Proof.
  intros Ht Ho Hon HR HX Hnew Hu Hmal.
  destruct (hash_transform_size _ _ _ _ Ht) as (Hz & Hn & Hd & _). unfold decode_keychange.
  assert (zlen (R ++ X) = zlen oldkey * 2) as HRX by (rewrite zlen_app; unfold zlen in *; lia).
  rewrite HRX.
  destruct (Z.leb_spec (zlen oldkey) 0), (Z.leb_spec (zlen oldkey * 2) 0), (Z.leb_spec (zlen newkey) 0);
    try lia. rewrite Hz. change (negb (_ =? USM_LENGTH_OID_TRANSFORM)) with false. cbn [orb].
  rewrite (properlength_spec _ _ _ _ Ht). m_step. destruct (Z.eqb_spec n (-1)); [lia|].
  rewrite u32_id, Z.eqb_refl by lia. destruct (Z.ltb_spec (zlen newkey) (zlen oldkey)); [lia|].
  cbn [negb orb]. rewrite Hmal, Z_to_nat_zlen.
  pose proof (rd_list_app R [] X) as E1. cbn [app length] in E1. rewrite HR in E1. rewrite E1. m_step.
  rewrite (sc_hash_spec t n d h)
    by (done || (unfold SNMP_MAXBUF; lia) || (destruct oldkey; [by cbn in Ho|done])).
  set (D := d (oldkey ++ R)). assert (length D = Z.to_nat n) as HD by apply Hd.
  rewrite wr_list_eq by (rewrite HD; unfold zlen in *; lia). rewrite take_0. cbn [app Nat.add]. m_step.
  set (k := length oldkey) in *.
  assert (length (take k D) = k) as Hl1 by (rewrite length_take, HD; unfold zlen, k in *; lia).
  pose proof (rd_list_app (take k D) [] (drop k D ++ drop (length D) uninit)) as E2.
  rewrite Hl1 in E2. cbn [app length] in E2. rewrite app_assoc, take_drop in E2. rewrite E2. m_step.
  pose proof (rd_list_app X R []) as E3. rewrite app_nil_r, HR, HX in E3. rewrite E3. m_step.
  assert (xor_octets (take k D) X = xor_octets D X) as ->
    by (rewrite <- HX; apply xor_octets_take_l; rewrite HD; unfold zlen, k in *; lia).
  assert (length (xor_octets D X) = k) as Hx
    by (rewrite length_xor_octets; rewrite ?HD; unfold zlen, k in *; lia).
  rewrite wr_list_eq by (rewrite Hx; unfold zlen, k in *; lia). rewrite take_0. cbn [app Nat.add]. m_step.
  by rewrite Hx.
Qed.
End KeyChange.

(** A key-change string made by encode_keychange with an old key, at most as
    long as the hash, gives back the new key in decode_keychange with the same old
    key, whatever the random octets and the buffers were. *)
Theorem key_change_roundtrip `{CryptoLaws} malloc_ok random uninit t n d h oldkey newkey kcstring
    buf :
  hash_transform t n d h → 0 < zlen oldkey ≤ n → zlen newkey = zlen oldkey →
  zlen oldkey + n ≤ zlen kcstring → (∀ i, length (random i) = i) →
  malloc_ok (zlen oldkey * 2) = true → zlen oldkey ≤ zlen buf → n ≤ zlen uninit →
  ∃ kc, encode_keychange malloc_ok random t oldkey newkey kcstring = Ok (0, kc, zlen oldkey * 2) ∧
    decode_keychange malloc_ok uninit t oldkey (take (Z.to_nat (zlen oldkey * 2)) kc) buf
    = Ok (0, newkey ++ drop (length oldkey) buf, zlen oldkey).
Proof.
  intros Ht [Ho Hon] Hnew Hkc Hrnd Hmal Hbuf Hu.
  destruct (hash_transform_size _ _ _ _ Ht) as (_ & Hn & Hd & _).
  destruct (encode_keychange_spec malloc_ok random t n d h oldkey newkey kcstring)
    as (rest & ->); try done. cbv zeta. eexists. split; [done|].
  set (R := random _). assert (length R = length oldkey) as HR by apply Hrnd.
  set (X := xor_octets (d (oldkey ++ R)) newkey).
  assert (length X = length oldkey) as HX
    by (unfold X; rewrite length_xor_octets; rewrite ?Hd; unfold zlen in *; lia).
  rewrite app_assoc, take_app_length' by (rewrite length_app; unfold zlen; lia).
  rewrite (decode_keychange_spec malloc_ok uninit t n d h) by done.
  unfold X. rewrite xor_octets_cancel; [done|]. rewrite Hd. unfold zlen in *. lia.
Qed.

Lemma key_change_roundtrip_witness :
  let H := toy_crypto in
  ∃ kc, encode_keychange (λ _, true) (λ n, replicate n 7) usmHMACMD5AuthProtocol (replicate 16 1)
          [9; 8; 7; 6; 5; 4; 3; 2; 1; 0; 1; 2; 3; 4; 5; 6] (replicate 40 0) = Ok (0, kc, 32) ∧
    decode_keychange (λ _, true) (replicate 4096 0) usmHMACMD5AuthProtocol (replicate 16 1)
      (take 32 kc) (replicate 20 0)
    = Ok (0, [9; 8; 7; 6; 5; 4; 3; 2; 1; 0; 1; 2; 3; 4; 5; 6] ++ replicate 4 0, 16).
Proof.
  intros H.
  apply (key_change_roundtrip (λ _, true) (λ n, replicate n 7) (replicate 4096 0)
           usmHMACMD5AuthProtocol 16 EVP_md5 HMAC_md5 (replicate 16 1)
           [9; 8; 7; 6; 5; 4; 3; 2; 1; 0; 1; 2; 3; 4; 5; 6] (replicate 40 0) (replicate 20 0));
    [by constructor|by vm_compute|done|by vm_compute|intros; apply length_replicate|done
    |by vm_compute|by vm_compute].
Defined.

(** Sc_encrypt with a key and an initialisation vector of sufficient length and
    eight octets of room succeeds for every text that is not empty, and sc_decrypt of
    the result gives the text followed by fewer than eight octets of padding, none
    under AES. *)
Theorem sc_crypt_roundtrip `{CryptoLaws} t nk niv padding key iv plaintext ctlen :
  priv_transform t nk niv padding → plaintext ≠ [] → Z.of_nat nk ≤ zlen key →
  Z.of_nat niv ≤ zlen iv → zlen plaintext + 8 ≤ ctlen →
  ∃ c pad, sc_encrypt (Some t) (Some key) iv plaintext ctlen = Ok c ∧
    zlen c = zlen plaintext + zlen pad ∧ zlen pad < 8 ∧ (t = usmAESPrivProtocol → pad = []) ∧
    ∀ ptlen, sc_decrypt (Some t) (Some key) iv c ptlen
             = if decide (zlen c ≤ ptlen) then Ok (plaintext ++ pad) else Err.
Proof.
  intros Ht Hp Hk Hiv Hc.
  assert (padding (zlen plaintext) < 8) as Hb
    by (destruct Ht; [pose proof (Z.mod_pos_bound (- zlen plaintext) 8)|]; lia).
  destruct (sc_crypt_spec t nk niv padding key iv plaintext ctlen) as (c & pad & E & Hz & Hpad & H8 & _ & HD);
    try done; [lia|].
  exists c, pad. split_and!; [done|done|done| |].
  - intros ->. destruct Ht as [|_]; [done|]. destruct pad; [done|].
    rewrite zlen_cons in Hpad. pose proof (zlen_nonneg pad). lia.
  - intros ptlen. case_decide as Hpt; [by apply HD|]. unfold sc_decrypt.
    destruct (Z.leb_spec (zlen c) 0), (Z.leb_spec ptlen 0), (Z.ltb_spec ptlen (zlen c)); done || lia.
Qed.

Lemma sc_crypt_roundtrip_witness :
  let H := toy_crypto in
  ∃ c pad, sc_encrypt (Some usmDESPrivProtocol) (Some (replicate 16 3)) (replicate 8 0)
             [1; 2; 3; 4; 5] 64 = Ok c ∧
    zlen c = 5 + zlen pad ∧ zlen pad < 8 ∧ (usmDESPrivProtocol = usmAESPrivProtocol → pad = []) ∧
    ∀ ptlen, sc_decrypt (Some usmDESPrivProtocol) (Some (replicate 16 3)) (replicate 8 0) c ptlen
             = if decide (zlen c ≤ ptlen) then Ok ([1; 2; 3; 4; 5] ++ pad) else Err.
Proof.
  intros H. apply (sc_crypt_roundtrip usmDESPrivProtocol 8 8 (λ n, (- n) mod 8));
    [by constructor|done|by vm_compute|by vm_compute|by vm_compute].
Defined.
