(* ===== verification/LcdTime.v ===== *)
(** * Times of SNMP engines: snmplib/lcd_time.c

    Models the table of engine boots and engine times: a hash table of
    ETIMELIST_SIZE lists in front of which new records are put.  A list of records
    stands for each chain of the table; the digest that picks the chain is the one of
    Scapi.  The local engine time, which the C code asks snmpv3.c for, is an argument
    of each operation; times are 32 bits wide.

    Theorems: the table implements a finite map from engine identifiers to
    records for any sequence of operations, and what the estimate of a remote
    engine's clock is.  freeing one engine's record frees its whole chain. *)

From S2P Require Import Prelude Ber OidCompare Scapi.
From stdpp Require Import prelude numbers list gmap.
From Stdlib Require Import ZArith Lia.
Open Scope Z_scope.

Definition ETIMELIST_SIZE : Z := 23.
Definition ENGINETIME_MAX : Z := 2147483647.
Definition ENGINEBOOT_MAX : Z := 2147483647.
Definition SIZEOF_ENGINETIME : Z := 28.

(** [struct enginetime_struct], without the link. *)
Record enginetime := Enginetime {
  engineID : list Z;
  engineTime : Z;
  engineBoot : Z;
  lastReceivedEngineTime : Z;
  authenticatedFlag : bool;
}.

(** The array of chains. *)
Notation etimelist := (list (list enginetime)).

Section Table.
Context `{Crypto}.

(** [for (bufp = buf; (bufp - buf) < (int) buf_len; bufp += 4) additive += ...] *)
Fixpoint sum_loop (fuel : nat) (buf : list Z) (p : nat) (additive : Z) : M Z :=
  match fuel with
  | O => UB
  | S fuel =>
      if Z.of_nat p <? zlen buf then
        b ← rd buf p;
        sum_loop fuel buf (p + 4) (u32 (additive + b))
      else Ok additive
  end.

(** An index, or [Err] for a negative result.  A null identifier is empty. *)
Definition hash_engineID (id : list Z) : M nat :=
  if zlen id <=? 0 then Err
  else
    buf ← sc_hash usmHMACMD5AuthProtocol id SNMP_MAXBUF;
    additive ← sum_loop (S (length buf)) buf 0 0;
    Ok (Z.to_nat (additive mod ETIMELIST_SIZE)).

(** The loop over a chain; the position of the record. *)
Fixpoint chain_search (chain : list enginetime) (id : list Z) : option nat :=
  match chain with
  | [] => None
  | e :: chain =>
      if (zlen id =? zlen (engineID e)) && bool_decide (engineID e = id) then Some 0%nat
      else S <$> chain_search chain id
  end.

(** The chain and the position of the record for [id]. *)
Definition search_enginetime_list (t : etimelist) (id : list Z) : M (option (nat * nat)) :=
  if zlen id <=? 0 then Ok None
  else
    match hash_engineID id with
    | UB => UB
    | Err => Ok None
    | Ok h =>
        match t !! h with
        | None => UB
        | Some chain => Ok (pair h <$> chain_search chain id)
        end
    end.

Definition chain_get (t : etimelist) (pos : nat * nat) : option enginetime :=
  t !! pos.1 ≫= λ chain, chain !! pos.2.

(** The time tuple with the time since it was stored added, and the stored time. *)
Definition estimate (now : Z) (e : enginetime) (authenticated : bool) : Z * Z * Z :=
  let '(engine_time, engineboot, timediff) :=
    if negb authenticated || authenticatedFlag e
    then (engineTime e, engineBoot e, s32 (now - lastReceivedEngineTime e)) else (0, 0, 0) in
  if s32 (u32 (ENGINETIME_MAX - engine_time)) <? timediff
  then (if engineboot <? ENGINEBOOT_MAX then u32 (engineboot + 1) else engineboot,
        u32 (timediff - u32 (ENGINETIME_MAX - engine_time)), engine_time)
  else (engineboot, u32 (engine_time + timediff), engine_time).

(** Returns SNMPERR_SUCCESS or not, [*engineboot], [*engine_time] and
    [*last_engine_time]. *)
Definition get_enginetime_ex (t : etimelist) (now : Z) (id : list Z) (authenticated : bool)
    : M (bool * (Z * Z * Z)) :=
  if zlen id <=? 0 then Ok (false, (0, 0, 0))
  else
    e ← search_enginetime_list t id;
    match e with
    | None => Ok (false, (0, 0, 0))
    | Some pos =>
        match chain_get t pos with
        | None => UB
        | Some e => Ok (true, estimate now e authenticated)
        end
    end.

(** The same computation without [*last_engine_time]. *)
Definition get_enginetime (t : etimelist) (now : Z) (id : list Z) (authenticated : bool)
    : M (bool * (Z * Z)) :=
  '(ok, (boots, time, _)) ← get_enginetime_ex t now id authenticated;
  Ok (ok, (boots, time)).

Definition update_chain (t : etimelist) (pos : nat * nat) (e : enginetime) : etimelist :=
  match t !! pos.1 with
  | None => t
  | Some chain => <[pos.1 := <[pos.2 := e]> chain]> t
  end.

(** The stores at the end of [set_enginetime]. *)
Definition stamp (now boots time : Z) (authenticated : bool) (e : enginetime) : enginetime :=
  if authenticated || negb (authenticatedFlag e)
  then Enginetime (engineID e) time boots (s32 now) authenticated
  else e.

(** [calloc] is not checked: a refusal is a null pointer that is written to. *)
Variable malloc_ok : Z → bool.

Definition set_enginetime (t : etimelist) (now : Z) (id : list Z) (boots time : Z)
    (authenticated : bool) : M (bool * etimelist) :=
  if zlen id <=? 0 then Ok (true, t)
  else
    e ← search_enginetime_list t id;
    match e with
    | Some pos =>
        match chain_get t pos with
        | None => UB
        | Some e => Ok (true, update_chain t pos (stamp now boots time authenticated e))
        end
    | None =>
        match hash_engineID id with
        | UB => UB
        | Err => Ok (false, t)
        | Ok iindex =>
            if malloc_ok SIZEOF_ENGINETIME && malloc_ok (zlen id) then
              match t !! iindex with
              | None => UB
              | Some chain =>
                  let e := stamp now boots time authenticated (Enginetime id 0 0 0 false) in
                  Ok (true, <[iindex := e :: chain]> t)
              end
            else UB
        end
    end.

(** Every record of the chain is freed. *)
Definition free_enginetime (t : etimelist) (id : list Z) : M etimelist :=
  match hash_engineID id with
  | UB => UB
  | Err => Ok t
  | Ok h => Ok (<[h := []]> t)
  end.

Definition free_etimelist (t : etimelist) : etimelist := replicate (length t) [].

(** The macros of lcd_time.h. *)
Definition ISENGINEKNOWN (t : etimelist) (now : Z) (id : list Z) : M bool :=
  '(ok, _) ← get_enginetime t now id true; Ok ok.

Definition ENSURE_ENGINE_RECORD (t : etimelist) (now : Z) (id : list Z) : M (bool * etimelist) :=
  set_enginetime t now id 0 0 false.
End Table.

(** ** Chains *)

Definition chain_find (chain : list enginetime) (id : list Z) : option enginetime :=
  chain_search chain id ≫= λ i, chain !! i.

Lemma search_test e id :
  (zlen id =? zlen (engineID e)) && bool_decide (engineID e = id) = bool_decide (engineID e = id).
Proof. case_bool_decide as E; [|by rewrite andb_false_r]. by rewrite E, Z.eqb_refl. Qed.

Lemma chain_find_cons e chain id :
  chain_find (e :: chain) id = if decide (engineID e = id) then Some e else chain_find chain id.
Proof.
  unfold chain_find. cbn [chain_search]. rewrite search_test.
  case_decide as E; [by rewrite bool_decide_true|]. rewrite bool_decide_false by done.
  by destruct (chain_search chain id).
Qed.

Lemma chain_find_id chain id e : chain_find chain id = Some e → engineID e = id.
Proof.
  induction chain as [|e' chain IH]; [done|]. rewrite chain_find_cons.
  case_decide; [by intros [= <-]|done].
Qed.

Lemma chain_search_find chain id i :
  chain_search chain id = Some i → ∃ e, chain !! i = Some e ∧ chain_find chain id = Some e.
Proof.
  unfold chain_find. intros E. rewrite E. simpl.
  revert i E. induction chain as [|e chain IH]; intros i; [done|].
  cbn [chain_search]. rewrite search_test. case_bool_decide; [intros [= <-]; by eexists|].
  destruct (chain_search chain id) as [j|]; [|done]. intros [= <-]. by apply IH.
Qed.

(** Writing a record for the same engine over the one found. *)
Lemma chain_find_update chain id i e id' :
  chain_search chain id = Some i → engineID e = id →
  chain_find (<[i := e]> chain) id' = if decide (id' = id) then Some e else chain_find chain id'.
Proof.
  revert i. induction chain as [|e0 chain IH]; intros i; [done|]. cbn [chain_search].
  rewrite search_test. case_bool_decide as E0.
  - intros [= <-] He. cbn [insert list_insert]. rewrite !chain_find_cons, He, E0.
    destruct (decide (id = id')) as [->|]; [by rewrite decide_True|].
    by rewrite decide_False by congruence.
  - destruct (chain_search chain id) as [j|] eqn:E; [|done]. intros [= <-] He.
    change (<[S j := e]> (e0 :: chain)) with (e0 :: <[j := e]> chain). rewrite !chain_find_cons.
    destruct (decide (engineID e0 = id')) as [<-|]; [by rewrite decide_False by congruence|].
    by apply IH.
Qed.

(** ** The hash *)

Section Map.
Context `{CryptoLaws}.

Lemma sum_loop_total fuel buf p a :
  (length buf < p + fuel)%nat → (0 < fuel)%nat → 0 ≤ a →
  ∃ z, sum_loop fuel buf p a = Ok z ∧ 0 ≤ z.
Proof.
  revert p a. induction fuel as [|fuel IH]; intros p a Hf Hf' Ha; [lia|].
  cbn [sum_loop]. destruct (Z.ltb_spec (Z.of_nat p) (zlen buf)) as [Hp|Hp]; [|by eexists].
  unfold zlen in Hp. destruct (rd_lt buf p) as (b & -> & _); [lia|]. m_step.
  apply IH; [lia|lia|]. apply u32_range.
Qed.

(** The chain of an engine. *)
Definition slot (id : list Z) : nat := match hash_engineID id with Ok h => h | _ => 0%nat end.

Lemma hash_engineID_slot id : id ≠ [] → hash_engineID id = Ok (slot id) ∧ (slot id < 23)%nat.
Proof.
  intros Hid. unfold slot, hash_engineID.
  destruct (Z.leb_spec (zlen id) 0).
  { destruct id; [done|]. rewrite zlen_cons in *. pose proof (zlen_nonneg id). lia. }
  rewrite (sc_hash_spec _ 16 EVP_md5 HMAC_md5) by (done || by constructor). m_step.
  destruct (sum_loop_total (S (length (EVP_md5 id))) (EVP_md5 id) 0 0) as (z & -> & Hz); [lia..|].
  m_step. split; [done|]. unfold ETIMELIST_SIZE. pose proof (Z.mod_pos_bound z 23). lia.
Qed.

(** ** The table as a finite map *)

Definition represents (t : etimelist) (m : gmap (list Z) enginetime) : Prop :=
  length t = 23%nat ∧
  ∀ id, m !! id = if decide (id = []) then None else t !! slot id ≫= λ c, chain_find c id.

Lemma represents_chain t m id :
  represents t m → id ≠ [] → ∃ c, t !! slot id = Some c ∧ m !! id = chain_find c id.
Proof.
  intros [Hl Hm] Hid. destruct (lookup_lt_is_Some_2 t (slot id)) as [c Hc].
  { rewrite Hl. by apply hash_engineID_slot. }
  exists c. split; [done|]. rewrite Hm, decide_False, Hc by done. done.
Qed.

Lemma nonempty_leb (id : list Z) : id ≠ [] → (zlen id <=? 0) = false.
Proof.
  intros Hid. apply Z.leb_gt. destruct id; [done|]. rewrite zlen_cons. pose proof (zlen_nonneg id). lia.
Qed.

Lemma search_spec t m id :
  represents t m → id ≠ [] →
  ∃ c, t !! slot id = Some c ∧ m !! id = chain_find c id ∧
    search_enginetime_list t id = Ok (pair (slot id) <$> chain_search c id).
Proof.
  intros HR Hid. destruct (represents_chain t m id HR Hid) as (c & Hc & Hm).
  exists c. split_and!; [done..|]. unfold search_enginetime_list.
  rewrite nonempty_leb by done. destruct (hash_engineID_slot id Hid) as [-> _]. by rewrite Hc.
Qed.

Lemma get_enginetime_ex_spec t m now id auth :
  represents t m →
  get_enginetime_ex t now id auth
  = Ok (match m !! id with Some e => (true, estimate now e auth) | None => (false, (0, 0, 0)) end).
Proof.
  intros HR. unfold get_enginetime_ex. destruct (decide (id = [])) as [->|Hid].
  { by rewrite (proj2 HR []). }
  rewrite nonempty_leb by done. destruct (search_spec t m id HR Hid) as (c & Hc & -> & ->). m_step.
  destruct (chain_search c id) as [i|] eqn:E; simpl.
  - destruct (chain_search_find c id i E) as (e & He & ->). unfold chain_get. simpl. rewrite Hc. simpl. by rewrite He.
  - unfold chain_find. by rewrite E.
Qed.

Lemma insert_represents t m h c c' id e :
  represents t m → id ≠ [] → h = slot id → t !! h = Some c →
  (∀ id', chain_find c' id' = if decide (id' = id) then Some e else chain_find c id') →
  represents (<[h := c']> t) (<[id := e]> m).
Proof.
  intros [Hl Hm] Hid -> Hc Hf. split; [by rewrite length_insert|]. intros id'.
  destruct (decide (id' = id)) as [->|Hne].
  - rewrite lookup_insert_eq, decide_False, list_lookup_insert_eq by
      (done || by eapply lookup_lt_Some). simpl. by rewrite Hf, decide_True.
  - rewrite lookup_insert_ne, Hm by done. case_decide; [done|].
    destruct (decide (slot id' = slot id)) as [->|Hs].
    + rewrite list_lookup_insert_eq, Hc by (by eapply lookup_lt_Some). simpl.
      by rewrite Hf, decide_False.
    + by rewrite list_lookup_insert_ne by congruence.
Qed.

(** What storing a time does to the map. *)
Definition map_set (m : gmap (list Z) enginetime) (now : Z) (id : list Z) (boots time : Z)
    (auth : bool) : gmap (list Z) enginetime :=
  if decide (id = []) then m
  else <[id := stamp now boots time auth (default (Enginetime id 0 0 0 false) (m !! id))]> m.

Lemma stamp_id now boots time auth e : engineID (stamp now boots time auth e) = engineID e.
Proof. unfold stamp. by destruct (_ || _). Qed.

Lemma set_enginetime_spec malloc_ok t m now id boots time auth :
  represents t m → malloc_ok SIZEOF_ENGINETIME = true → malloc_ok (zlen id) = true →
  ∃ t', set_enginetime malloc_ok t now id boots time auth = Ok (true, t') ∧
    represents t' (map_set m now id boots time auth).
Proof.
  intros HR Hm1 Hm2. unfold set_enginetime, map_set. destruct (decide (id = [])) as [->|Hid].
  { by exists t. }
  rewrite nonempty_leb by done. destruct (search_spec t m id HR Hid) as (c & Hc & Hm & ->). m_step.
  destruct (chain_search c id) as [i|] eqn:E; simpl.
  - destruct (chain_search_find c id i E) as (e & He & Hf). unfold chain_get. simpl. rewrite Hc. simpl.
    rewrite He. eexists. split; [done|]. rewrite Hm, Hf. simpl. unfold update_chain. simpl. rewrite Hc.
    eapply insert_represents; try done. intros id'. apply chain_find_update; [done|].
    rewrite stamp_id. by eapply chain_find_id.
  - destruct (hash_engineID_slot id Hid) as [-> _]. rewrite Hm1, Hm2. simpl. rewrite Hc.
    eexists. split; [done|].
    assert (m !! id = None) as -> by (rewrite Hm; unfold chain_find; by rewrite E). simpl.
    eapply insert_represents; try done. intros id'. rewrite chain_find_cons, stamp_id.
    cbn [engineID]. destruct (decide (id = id')) as [->|]; [by rewrite decide_True|].
    by rewrite decide_False by congruence.
Qed.
End Map.

(** ** Properties *)

(** The operations, each with the local engine time where it is read. *)
Inductive etop :=
| SetTime (now : Z) (id : list Z) (boots time : Z) (authenticated : bool)
| GetTime (now : Z) (id : list Z) (authenticated : bool)
| FreeTime (id : list Z)
| FreeAll.

Section Run.
Context `{Crypto}.
Variable malloc_ok : Z → bool.

(** The table after an operation, and what a reader is told. *)
Definition et_step (t : etimelist) (op : etop) : M (etimelist * option (bool * (Z * Z * Z))) :=
  match op with
  | SetTime now id boots time auth =>
      '(_, t) ← set_enginetime malloc_ok t now id boots time auth; Ok (t, None)
  | GetTime now id auth => r ← get_enginetime_ex t now id auth; Ok (t, Some r)
  | FreeTime id => t ← free_enginetime t id; Ok (t, None)
  | FreeAll => Ok (free_etimelist t, None)
  end.

Fixpoint et_run (t : etimelist) (ops : list etop) : M (list (option (bool * (Z * Z * Z)))) :=
  match ops with
  | [] => Ok []
  | op :: ops =>
      '(t, r) ← et_step t op;
      rs ← et_run t ops;
      Ok (r :: rs)
  end.

(** The same operations on a finite map.  Freeing one engine forgets all engines of
    its chain. *)
Definition map_step (m : gmap (list Z) enginetime) (op : etop)
    : gmap (list Z) enginetime * option (bool * (Z * Z * Z)) :=
  match op with
  | SetTime now id boots time auth => (map_set m now id boots time auth, None)
  | GetTime now id auth =>
      (m, Some (match m !! id with
                | Some e => (true, estimate now e auth)
                | None => (false, (0, 0, 0))
                end))
  | FreeTime id =>
      (if decide (id = []) then m else filter (λ ie, slot ie.1 ≠ slot id) m, None)
  | FreeAll => (∅, None)
  end.

Fixpoint map_run (m : gmap (list Z) enginetime) (ops : list etop)
    : list (option (bool * (Z * Z * Z))) :=
  match ops with
  | [] => []
  | op :: ops => let '(m, r) := map_step m op in r :: map_run m ops
  end.
End Run.

Definition new_etimelist : etimelist := replicate (Z.to_nat ETIMELIST_SIZE) [].

Section Refinement.
Context `{CryptoLaws}.

Lemma represents_new : represents new_etimelist ∅.
Proof.
  split; [done|]. intros id. rewrite lookup_empty. case_decide; [done|].
  destruct (new_etimelist !! slot id) as [c|] eqn:E; [|done].
  apply lookup_replicate in E as [-> _]. done.
Qed.

Lemma free_enginetime_spec t m id :
  represents t m →
  ∃ t', free_enginetime t id = Ok t' ∧
    represents t' (if decide (id = []) then m else filter (λ ie, slot ie.1 ≠ slot id) m).
Proof.
  intros HR. unfold free_enginetime. case_decide as Hid.
  { subst id. by exists t. }
  destruct (hash_engineID_slot id Hid) as [-> Hs]. eexists. split; [done|].
  destruct HR as [Hl Hm]. split; [by rewrite length_insert|]. intros id'.
  rewrite map_lookup_filter, Hm. case_decide; [done|].
  destruct (decide (slot id' = slot id)) as [E|E].
  - rewrite E, list_lookup_insert_eq by lia. simpl.
    destruct (t !! slot id ≫= _) as [e|]; [|done]. simpl. by rewrite option_guard_False by naive_solver.
  - rewrite list_lookup_insert_ne by congruence.
    destruct (t !! slot id' ≫= _) as [e|]; [|done]. simpl. by rewrite option_guard_True.
Qed.

Lemma et_step_spec malloc_ok t m op :
  represents t m → (∀ n, malloc_ok n = true) →
  ∃ t', et_step malloc_ok t op = Ok (t', (map_step m op).2) ∧ represents t' (map_step m op).1.
Proof.
  intros HR Hm. destruct op as [now id boots time auth|now id auth|id|]; cbn [et_step map_step fst snd].
  - destruct (set_enginetime_spec malloc_ok t m now id boots time auth) as (t' & -> & HR'); [done..|].
    by exists t'.
  - rewrite (get_enginetime_ex_spec t m) by done. by exists t.
  - destruct (free_enginetime_spec t m id HR) as (t' & -> & HR'). by exists t'.
  - exists (free_etimelist t). split; [done|]. destruct HR as [Hl _].
    unfold free_etimelist. rewrite Hl. apply represents_new.
Qed.
End Refinement.

(** C27: when memory is granted, any sequence of stores, lookups and releases on an
    empty table gives the answers of the same operations on a finite map from engine
    identifiers to records, in which a release forgets every engine of the chain. *)
Theorem enginetime_refines_map `{CryptoLaws} malloc_ok ops :
  (∀ n, malloc_ok n = true) →
  et_run malloc_ok new_etimelist ops = Ok (map_run ∅ ops).
Proof.
  intros Hm. assert (∀ t m, represents t m → et_run malloc_ok t ops = Ok (map_run m ops)) as HG.
  { induction ops as [|op ops IH]; intros t m HR; [done|]. cbn [et_run map_run].
    destruct (et_step_spec malloc_ok t m op HR Hm) as (t' & -> & HR'). m_step.
    destruct (map_step m op) as [m' r]. cbn [fst snd] in *. by rewrite (IH t' m'). }
  apply HG, represents_new.
Qed.

Lemma enginetime_refines_map_witness :
  let H := toy_crypto in
  et_run (λ _, true) new_etimelist
    [SetTime 10 [1; 2] 3 100 true; SetTime 11 [9] 1 50 false; SetTime 20 [1; 2] 9 9 false;
     GetTime 30 [1; 2] true; FreeTime [9]; GetTime 30 [9] false]
  = Ok [None; None; None; Some (true, (3, 120, 100)); None; Some (false, (0, 0, 0))].
Proof.
  intros H. etransitivity; [by apply (enginetime_refines_map (λ _, true))|]. by vm_compute.
Defined.

(** The estimate of an engine's clock is the stored time with the local time that
    has passed since added; past the largest engine time the boots are counted up, up to
    their own maximum, and the time restarts from one. *)
Theorem estimate_clock now e auth :
  negb auth || authenticatedFlag e = true →
  0 ≤ engineTime e ≤ ENGINETIME_MAX → 0 ≤ engineBoot e ≤ ENGINEBOOT_MAX →
  0 ≤ now - lastReceivedEngineTime e < 2 ^ 31 →
  let total := engineTime e + (now - lastReceivedEngineTime e) in
  estimate now e auth
  = (if decide (total ≤ ENGINETIME_MAX) then engineBoot e
     else Z.min (engineBoot e + 1) ENGINEBOOT_MAX,
     if decide (total ≤ ENGINETIME_MAX) then total else total - ENGINETIME_MAX, engineTime e).
Proof.
  intros Ha Ht Hb Hd total. unfold estimate. rewrite Ha.
  unfold ENGINETIME_MAX, ENGINEBOOT_MAX in *. rewrite (u32_id (2147483647 - engineTime e)) by lia.
  rewrite !s32_id by lia.
  destruct (Z.ltb_spec (2147483647 - engineTime e) (now - lastReceivedEngineTime e)).
  - rewrite !decide_False by lia. rewrite (u32_id (_ - _ - _)) by lia.
    destruct (Z.ltb_spec (engineBoot e) 2147483647).
    + rewrite Z.min_l, u32_id by lia. do 2 f_equal. lia.
    + rewrite Z.min_r by lia. do 2 f_equal; lia.
  - rewrite !decide_True by lia. by rewrite u32_id by lia.
Qed.

Lemma estimate_clock_witness :
  estimate 60 (Enginetime [1] 2147483600 5 10 true) true = (6, 3, 2147483600).
Proof.
  etransitivity;
    [apply (estimate_clock 60 (Enginetime [1] 2147483600 5 10 true) true); [done|..]|by vm_compute];
    by vm_compute.
Defined.
