(* ===== verification/Usm.v ===== *)
(** * Users of the security model: snmplib/snmpusm.c

    Models the list of users, a doubly linked list in a heap that is kept sorted, with
    lookup, insertion, removal and release; making and copying users; the state
    kept of a message for its response; and whether a user's protocols allow a
    security level.  A pointer with its length is an optional list.  An engine
    identifier or a name that is not a null pointer has at least the octets it says.

    UsmList has the theorems on the list: insertion and removal keep it linked in
    both directions and sorted by its key, replace a user with the same key, and
    lookup finds what was put in.  UsmSafe has those on the levels a user may use. *)

From S2P Require Import Prelude Ber OidCompare Scapi V3.
From stdpp Require Import prelude numbers list gmap.
From Stdlib Require Import ZArith Lia.
Open Scope Z_scope.

Definition RS_ACTIVE : Z := 1.
Definition ST_NONVOLATILE : Z := 3.
Definition ST_READONLY : Z := 5.
Definition SIZEOF_USMUSER : Z := 88.

(** [struct usmUser] without the links and the Diffie-Hellman state. *)
Record usmUser := UsmUser {
  u_engineID : option (list Z);
  u_name : option (list Z);
  u_secName : option (list Z);
  u_cloneFrom : option (list Z);
  u_authProtocol : option (list Z);
  u_authKey : option (list Z);
  u_privProtocol : option (list Z);
  u_privKey : option (list Z);
  u_userPublicString : option (list Z);
  u_userStatus : Z;
  u_userStorageType : Z;
}.

Record unode := UNode {
  un_user : usmUser;
  un_next : option nat;
  un_prev : option nat;
}.

Notation uheap := (gmap nat unode).

(** A pointer is followed: one that is dangling is undefined behaviour. *)
Definition node (h : uheap) (p : nat) : M unode :=
  match h !! p with Some n => Ok n | None => UB end.

Definition store_next (h : uheap) (p : nat) (q : option nat) : M uheap :=
  n ← node h p; Ok (<[p := UNode (un_user n) q (un_prev n)]> h).
Definition store_prev (h : uheap) (p : nat) (q : option nat) : M uheap :=
  n ← node h p; Ok (<[p := UNode (un_user n) (un_next n) q]> h).

(** [if (p) p->next = q] and [if (p) p->prev = q] *)
Definition opt_set (f : uheap → nat → option nat → M uheap) (h : uheap) (p q : option nat) : M uheap :=
  match p with Some p => f h p q | None => Ok h end.

(** ** Lookup *)

(** The characters of a C string: those before the first NUL. *)
Fixpoint cstr (s : list Z) : list Z :=
  match s with
  | [] => []
  | c :: s => if c =? 0 then [] else c :: cstr s
  end.

(** [engineIDLen] equal, and both null or both the same octets. *)
Definition engine_matches (e1 e2 : option (list Z)) : bool :=
  (zlen (default [] e1) =? zlen (default [] e2))
  && match e1, e2 with
     | None, None => true
     | Some a, Some b => bool_decide (a = b)
     | _, _ => false
     end.

(** One round per user; a list longer than the heap is cyclic. *)
Fixpoint get_loop (fuel : nat) (h : uheap) (engineID : option (list Z)) (name : list Z)
    (ptr : option nat) : M (option nat) :=
  match ptr with
  | None => Ok None
  | Some p =>
      match fuel with
      | O => UB
      | S fuel =>
          n ← node h p;
          if match u_name (un_user n) with Some nm => bool_decide (cstr nm = cstr name) | None => false end
             && engine_matches (u_engineID (un_user n)) engineID
          then Ok (Some p) else get_loop fuel h engineID name (un_next n)
      end
  end.

Definition usm_get_user_from_list (h : uheap) (engineID name : option (list Z))
    (puserList : option nat) (use_default : bool) (noNameUser : option nat) : M (option nat) :=
  let name := default [] name in
  r ← get_loop (size h) h engineID name puserList;
  match r with
  | Some p => Ok (Some p)
  | None => Ok (if use_default && bool_decide (cstr name = []) then noNameUser else None)
  end.

(** ** Insertion *)

(** [strlen] and [strcmp] of names; a null name is undefined behaviour. *)
Definition c_name (u : usmUser) : M (list Z) :=
  match u_name u with Some n => Ok (cstr n) | None => UB end.

(** What the loop found: where to put the user, or the user to put it in place of. *)
Inductive place :=
| Before (pptr nptr : option nat)
| Replace (pptr : option nat) (optr : nat).

(** The [if]s of the loop body for a user [n] of the list: [Some true] is the exact
    match, [Some false] another [break]. *)
Definition add_test (n user : usmUser) : M (option bool) :=
  let ne := default [] (u_engineID n) in
  let ue := default [] (u_engineID user) in
  let null e := match e with None => true | Some _ => false end in
  if zlen ue <? zlen ne then Ok (Some false)
  else if null (u_engineID user) && negb (null (u_engineID n)) then Ok (Some false)
  else if (zlen ne =? zlen ue) && negb (null (u_engineID n)) && negb (null (u_engineID user))
          && (0 <? oid_cmp ne ue) then Ok (Some false)
  else if null (u_engineID n) && negb (null (u_engineID user)) then Ok None
  else if (zlen ne =? zlen ue) && (oid_cmp ne ue =? 0) then
    nn ← c_name n;
    un ← c_name user;
    if zlen un <? zlen nn then Ok (Some false)
    else if (zlen nn =? zlen un) && (0 <? oid_cmp nn un) then Ok (Some false)
    else if (zlen nn =? zlen un) && (oid_cmp nn un =? 0) then Ok (Some true)
    else Ok None
  else Ok None.

Fixpoint place_loop (fuel : nat) (h : uheap) (user : usmUser) (nptr pptr : option nat) : M place :=
  match nptr with
  | None => Ok (Before pptr None)
  | Some p =>
      match fuel with
      | O => UB
      | S fuel =>
          n ← node h p;
          r ← add_test (un_user n) user;
          match r with
          | Some true => Ok (Replace pptr p)
          | Some false => Ok (Before pptr nptr)
          | None => place_loop fuel h user (un_next n) nptr
          end
      end
  end.

(** [for (pptr = user; pptr->prev != NULL; pptr = pptr->prev)] *)
Fixpoint rewind (fuel : nat) (h : uheap) (p : nat) : M nat :=
  match fuel with
  | O => UB
  | S fuel =>
      n ← node h p;
      match un_prev n with None => Ok p | Some q => rewind fuel h q end
  end.

(** Links around the user are closed before it is released. *)
Definition usm_free_user (h : uheap) (user : option nat) : M uheap :=
  match user with
  | None => Ok h
  | Some p =>
      n ← node h p;
      h ← opt_set store_next h (un_prev n) (un_next n);
      h ← opt_set store_prev h (un_next n) (un_prev n);
      Ok (delete p h)
  end.

Definition usm_add_user_to_list (h : uheap) (user : nat) (puserList : option nat)
    : M (uheap * nat) :=
  u ← node h user;
  pl ← place_loop (size h) h (un_user u) puserList None;
  '(h, pptr, nptr) ←
    (match pl with
     | Before pptr nptr => Ok (h, pptr, nptr)
     | Replace pptr optr =>
         o ← node h optr;
         h ← opt_set store_next h pptr (un_next o);
         h ← opt_set store_prev h (un_next o) pptr;
         h ← store_next h optr None;
         h ← store_prev h optr None;
         h ← usm_free_user h (Some optr);
         Ok (h, pptr, un_next o)
     end);
  h ← store_prev h user pptr;
  h ← store_next h user nptr;
  h ← opt_set store_prev h nptr (Some user);
  h ← opt_set store_next h pptr (Some user);
  p ← rewind (size h) h user;
  Ok (h, p).

(** Returns the heap and the new value of [userList]. *)
Definition usm_add_user (h : uheap) (userList : option nat) (user : nat) : M (uheap * option nat) :=
  '(h, uptr) ← usm_add_user_to_list h user userList; Ok (h, Some uptr).

(** ** Removal *)

Fixpoint remove_loop (fuel : nat) (h : uheap) (user : nat) (nptr pptr : option nat)
    : M (option (nat * option nat)) :=
  match nptr with
  | None => Ok None
  | Some p =>
      if (p =? user)%nat then Ok (Some (p, pptr))
      else
        match fuel with
        | O => UB
        | S fuel => n ← node h p; remove_loop fuel h user (un_next n) nptr
        end
  end.

(** Returns the heap, [*ppuserList] and the result. *)
Definition usm_remove_user_from_list (h : uheap) (user : nat) (puserList : option nat)
    : M (uheap * option nat * option nat) :=
  match puserList with
  | None => Ok (h, None, None)
  | Some _ =>
      r ← remove_loop (size h) h user puserList None;
      match r with
      | None => Ok (h, puserList, None)
      | Some (nptr, pptr) =>
          n ← node h nptr;
          h ← opt_set store_next h pptr (un_next n);
          h ← opt_set store_prev h (un_next n) pptr;
          let head := if bool_decide (puserList = Some nptr) then un_next n else puserList in
          Ok (h, head, head)
      end
  end.

(** [while (tmp != NULL) { next = tmp->next; usm_free_user(tmp); tmp = next; }] *)
Fixpoint clear_user_list (fuel : nat) (h : uheap) (tmp : option nat) : M uheap :=
  match tmp with
  | None => Ok h
  | Some p =>
      match fuel with
      | O => UB
      | S fuel =>
          n ← node h p;
          h ← usm_free_user h tmp;
          clear_user_list fuel h (un_next n)
      end
  end.

(** ** Making and copying users *)

Section Alloc.
Variable malloc_ok : Z → bool.

Definition snmp_duplicate_objid (o : option (list Z)) : option (list Z) :=
  match o with
  | Some o => if negb (zlen o =? 0) && malloc_ok (zlen o * 4) then Some o else None
  | None => None
  end.

(** [strdup] of a C string. *)
Definition dup_string (s : list Z) : option (list Z) :=
  if malloc_ok (zlen (cstr s) + 1) then Some (cstr s) else None.

(** A key copied with [malloc] and [memcpy]. *)
Definition copy_key (k : option (list Z)) : option (list Z) :=
  match k with
  | Some k => if (0 <? zlen k) && malloc_ok (zlen k) then Some k else None
  | None => None
  end.

Definition usm_cloneFrom_user (from to : usmUser) : usmUser :=
  UsmUser (u_engineID to) (u_name to) (u_secName to) (u_cloneFrom to)
    (snmp_duplicate_objid (u_authProtocol from)) (copy_key (u_authKey from))
    (snmp_duplicate_objid (u_privProtocol from)) (copy_key (u_privKey from))
    (u_userPublicString to) (u_userStatus to) (u_userStorageType to).

(** [None]: no memory, and everything released again. *)
Definition usm_create_user : option usmUser :=
  if malloc_ok SIZEOF_USMUSER then
    match snmp_duplicate_objid (Some usmNoAuthProtocol), snmp_duplicate_objid (Some usmNoPrivProtocol) with
    | Some a, Some p =>
        Some (UsmUser None None None None (Some a) None (Some p) None None RS_ACTIVE ST_NONVOLATILE)
    | _, _ => None
    end
  else None.

(** [generated] is the result of [snmpv3_generate_engineID]. *)
Definition usm_create_initial_user (name : list Z) (authProtocol privProtocol generated : option (list Z))
    : option usmUser :=
  match usm_create_user, dup_string name, generated with
  | Some u, Some n, Some engineID =>
      if malloc_ok (4 * 2) then
        match snmp_duplicate_objid privProtocol, snmp_duplicate_objid authProtocol with
        | Some priv, Some auth =>
            Some (UsmUser (Some engineID) (Some n) (Some n) (Some [0; 0]) (Some auth) (u_authKey u)
                    (Some priv) (u_privKey u) (u_userPublicString u) RS_ACTIVE ST_READONLY)
        | _, _ => None
        end
      else None
  | _, _, _ => None
  end.

(** ** The state kept for a response *)

Record usmStateReference := UsmStateReference {
  usr_name : option (list Z);
  usr_engine_id : option (list Z);
  usr_auth_protocol : option (list Z);
  usr_auth_key : option (list Z);
  usr_priv_protocol : option (list Z);
  usr_priv_key : option (list Z);
  usr_sec_level : Z;
}.

Definition usm_malloc_usmStateReference : option usmStateReference :=
  if malloc_ok 52 then Some (UsmStateReference None None None None None None 0) else None.

(** The macro [MAKE_ENTRY] for an item of elements of [size] octets: the new field, or
    [Err] for -1. *)
Definition MAKE_ENTRY (size : Z) (item : option (list Z)) : M (option (list Z)) :=
  match item with
  | None => Ok None
  | Some l => if zlen l =? 0 then Ok None else if malloc_ok (zlen l * size) then Ok (Some l) else Err
  end.

Definition usm_set_usmStateReference_name (r : usmStateReference) (name : option (list Z)) :=
  n ← MAKE_ENTRY 1 name;
  Ok (UsmStateReference n (usr_engine_id r) (usr_auth_protocol r) (usr_auth_key r)
        (usr_priv_protocol r) (usr_priv_key r) (usr_sec_level r)).
Definition usm_set_usmStateReference_engine_id (r : usmStateReference) (id : option (list Z)) :=
  i ← MAKE_ENTRY 1 id;
  Ok (UsmStateReference (usr_name r) i (usr_auth_protocol r) (usr_auth_key r)
        (usr_priv_protocol r) (usr_priv_key r) (usr_sec_level r)).
Definition usm_set_usmStateReference_auth_protocol (r : usmStateReference) (o : option (list Z)) :=
  o ← MAKE_ENTRY 4 o;
  Ok (UsmStateReference (usr_name r) (usr_engine_id r) o (usr_auth_key r)
        (usr_priv_protocol r) (usr_priv_key r) (usr_sec_level r)).
Definition usm_set_usmStateReference_auth_key (r : usmStateReference) (k : option (list Z)) :=
  k ← MAKE_ENTRY 1 k;
  Ok (UsmStateReference (usr_name r) (usr_engine_id r) (usr_auth_protocol r) k
        (usr_priv_protocol r) (usr_priv_key r) (usr_sec_level r)).
Definition usm_set_usmStateReference_priv_protocol (r : usmStateReference) (o : option (list Z)) :=
  o ← MAKE_ENTRY 4 o;
  Ok (UsmStateReference (usr_name r) (usr_engine_id r) (usr_auth_protocol r) (usr_auth_key r)
        o (usr_priv_key r) (usr_sec_level r)).
Definition usm_set_usmStateReference_priv_key (r : usmStateReference) (k : option (list Z)) :=
  k ← MAKE_ENTRY 1 k;
  Ok (UsmStateReference (usr_name r) (usr_engine_id r) (usr_auth_protocol r) (usr_auth_key r)
        (usr_priv_protocol r) k (usr_sec_level r)).
Definition usm_set_usmStateReference_sec_level (r : usmStateReference) (level : Z) : M usmStateReference :=
  Ok (UsmStateReference (usr_name r) (usr_engine_id r) (usr_auth_protocol r) (usr_auth_key r)
        (usr_priv_protocol r) (usr_priv_key r) level).
End Alloc.

(** ** Security levels *)

(** [netsnmp_oid_equals] of a protocol with a constant one: 0 if they are equal. *)
Definition protocol_is (p : option (list Z)) (o : list Z) : M bool :=
  let p := default [] p in
  r ← netsnmp_oid_equals p (zlen p) o (zlen o); Ok (r =? 0).

Definition usm_check_secLevel_vs_protocols (level : Z) (authProtocol privProtocol : option (list Z))
    : M Z :=
  nopriv ← (if level =? SNMP_SEC_LEVEL_AUTHPRIV then protocol_is privProtocol usmNoPrivProtocol
            else Ok false);
  if (nopriv : bool) then Ok 1
  else
    noauth ← (if (level =? SNMP_SEC_LEVEL_AUTHPRIV) || (level =? SNMP_SEC_LEVEL_AUTHNOPRIV)
              then protocol_is authProtocol usmNoAuthProtocol else Ok false);
    Ok (if (noauth : bool) then 1 else 0).

Definition usm_check_secLevel (level : Z) (user : usmUser) : M Z :=
  if negb (u_userStatus user =? RS_ACTIVE) then Ok (-1)
  else usm_check_secLevel_vs_protocols level (u_authProtocol user) (u_privProtocol user).
