(* ===== verification/UsmList.v ===== *)
(** * The list of users is a sorted, doubly linked list

    usm_add_user and usm_remove_user_from_list on a heap with the list of users: the
    invariant that the list is linked in both directions, has no user twice and is sorted by
    engine identifier and name, that both operations keep it, and what a lookup finds
    afterwards. *)

From S2P Require Import Prelude Ber OidCompare Scapi V3 Usm.
From stdpp Require Import prelude numbers list gmap.
From Stdlib Require Import ZArith Lia Sorted.
Open Scope Z_scope.

(** ** The order of users *)

(** Lengths come before contents, so one comparison of lists orders the users. *)
Definition key_of (engineID name : list Z) : list Z :=
  (zlen engineID :: engineID) ++ zlen (cstr name) :: cstr name.

Definition ukey (u : usmUser) : list Z :=
  key_of (default [] (u_engineID u)) (default [] (u_name u)).

(** Users of the list have an engine identifier and a name. *)
Definition named (u : usmUser) : Prop := is_Some (u_engineID u) ∧ is_Some (u_name u).

Lemma oid_cmp_app a b x y :
  length a = length b →
  oid_cmp (a ++ x) (b ++ y) = if decide (a = b) then oid_cmp x y else oid_cmp a b.
Proof.
  revert b. induction a as [|c a IH]; intros [|d b]; try done.
  intros [= Hl]. cbn [app oid_cmp]. destruct (Z.eqb_spec c d) as [->|Hne].
  - rewrite (IH b Hl). destruct (decide (a = b)) as [->|]; [by rewrite decide_True|].
    by rewrite decide_False by congruence.
  - by rewrite decide_False by congruence.
Qed.

Lemma key_of_inj id1 n1 id2 n2 : key_of id1 n1 = key_of id2 n2 ↔ id1 = id2 ∧ cstr n1 = cstr n2.
Proof.
  unfold key_of. split; [|by intros [-> ->]]. intros E.
  assert (length id1 = length id2) as Hl.
  { cbn [app] in E. injection E. unfold zlen. lia. }
  apply app_inj_1 in E as [E1 E2]; [|cbn [length]; lia]. by simplify_eq.
Qed.

Lemma key_cmp id1 n1 id2 n2 :
  oid_cmp (key_of id1 n1) (key_of id2 n2)
  = if zlen id1 =? zlen id2 then
      if oid_cmp id1 id2 =? 0 then
        if zlen (cstr n1) =? zlen (cstr n2) then oid_cmp (cstr n1) (cstr n2)
        else if zlen (cstr n1) <? zlen (cstr n2) then -1 else 1
      else oid_cmp id1 id2
    else if zlen id1 <? zlen id2 then -1 else 1.
Proof.
  unfold key_of. cbn [app oid_cmp]. destruct (Z.eqb_spec (zlen id1) (zlen id2)) as [E|]; [|done].
  rewrite oid_cmp_app by (unfold zlen in E; lia). destruct (decide (id1 = id2)) as [->|Hne].
  - by rewrite oid_cmp_refl.
  - destruct (Z.eqb_spec (oid_cmp id1 id2) 0) as [E0%oid_cmp_eq|]; [done|done].
Qed.

(** The tests of the loop compare the keys. *)
Lemma add_test_spec n u :
  named n → named u →
  add_test n u = Ok (if oid_cmp (ukey n) (ukey u) =? 0 then Some true
                     else if 0 <? oid_cmp (ukey n) (ukey u) then Some false else None).
Proof.
  intros [[ne Hne] [nn Hnn]] [[ue Hue] [un Hun]]. unfold add_test, ukey, c_name.
  rewrite Hne, Hnn, Hue, Hun. cbn [default from_option id negb andb]. rewrite key_cmp.
  destruct (Z.ltb_spec (zlen ue) (zlen ne)).
  { destruct (Z.eqb_spec (zlen ne) (zlen ue)), (Z.ltb_spec (zlen ne) (zlen ue)); try lia. done. }
  destruct (Z.eqb_spec (zlen ne) (zlen ue)) as [El|El]; cbn [andb].
  2: { destruct (Z.ltb_spec (zlen ne) (zlen ue)); [done|lia]. }
  destruct (oid_cmp_range ne ue) as [E|[E|E]]; rewrite E; cbn [Z.ltb Z.eqb Z.compare]; [done| |done].
  m_step. destruct (Z.ltb_spec (zlen (cstr un)) (zlen (cstr nn))).
  { destruct (Z.eqb_spec (zlen (cstr nn)) (zlen (cstr un))), (Z.ltb_spec (zlen (cstr nn)) (zlen (cstr un)));
      try lia. done. }
  destruct (Z.eqb_spec (zlen (cstr nn)) (zlen (cstr un))); cbn [andb].
  2: { destruct (Z.ltb_spec (zlen (cstr nn)) (zlen (cstr un))); [done|lia]. }
  destruct (oid_cmp_range (cstr nn) (cstr un)) as [E'|[E'|E']]; by rewrite E'.
Qed.

(** ** Linked segments *)

Definition first_of (l : list nat) (next : option nat) : option nat :=
  match l with p :: _ => Some p | [] => next end.

Definition last_of (l : list nat) (prev : option nat) : option nat :=
  match last l with Some p => Some p | None => prev end.

(** The users [l], linked in both directions, between [prev] and [next]. *)
Fixpoint dseg (h : uheap) (prev : option nat) (l : list nat) (next : option nat) : Prop :=
  match l with
  | [] => True
  | p :: l =>
      (∃ u, h !! p = Some (UNode u (first_of l next) prev)) ∧ dseg h (Some p) l next
  end.

Lemma last_of_cons p l prev : last_of (p :: l) prev = last_of l (Some p).
Proof.
  unfold last_of. destruct l as [|q l]; [done|]. change (last (p :: q :: l)) with (last (q :: l)).
  destruct (last_is_Some (q :: l)) as [_ [x Hx]]; [done|]. by rewrite Hx.
Qed.

Lemma first_of_app l1 l2 next : first_of (l1 ++ l2) next = first_of l1 (first_of l2 next).
Proof. by destruct l1. Qed.

Lemma dseg_app h prev l1 l2 next :
  dseg h prev (l1 ++ l2) next ↔ dseg h prev l1 (first_of l2 next) ∧ dseg h (last_of l1 prev) l2 next.
Proof.
  revert prev. induction l1 as [|p l1 IH]; intros prev; cbn [app dseg]; [by cbn; tauto|].
  rewrite IH, last_of_cons, first_of_app. tauto.
Qed.

Lemma dseg_frame h h' prev l next :
  (∀ p, p ∈ l → h' !! p = h !! p) → dseg h prev l next → dseg h' prev l next.
Proof.
  revert prev. induction l as [|p l IH]; intros prev Hf; cbn [dseg]; [done|].
  intros [[u Hu] Hl]. split; [exists u; rewrite Hf by set_solver; done|].
  apply IH; [|done]. intros q Hq. apply Hf. set_solver.
Qed.

Lemma dseg_lookup h prev l next p : dseg h prev l next → p ∈ l → is_Some (h !! p).
Proof.
  revert prev. induction l as [|q l IH]; intros prev; cbn [dseg]; [by intros _ ?%elem_of_nil|].
  intros [[u Hu] Hl] [->|Hp]%elem_of_cons; [by eexists|by eapply IH].
Qed.

Lemma dseg_size h prev l next : NoDup l → dseg h prev l next → (length l ≤ size h)%nat.
Proof.
  intros Hnd Hd. rewrite <- size_dom, <- (size_list_to_set (C := gset nat) l Hnd).
  apply subseteq_size. intros p Hp%elem_of_list_to_set. apply elem_of_dom. by eapply dseg_lookup.
Qed.

(** What changing a link leaves alone: other nodes, the users and the set of nodes. *)
Definition relinked (h h' : uheap) (ps : list nat) : Prop :=
  (∀ p, p ∉ ps → h' !! p = h !! p) ∧ (∀ p, un_user <$> h' !! p = un_user <$> h !! p).

Lemma relinked_trans h1 h2 h3 ps qs :
  relinked h1 h2 ps → relinked h2 h3 qs → relinked h1 h3 (ps ++ qs).
Proof.
  intros [A1 B1] [A2 B2]. split; intros p; [rewrite elem_of_app|]; intros.
  - rewrite A2, A1 by tauto. done.
  - by rewrite B2, B1.
Qed.

Lemma store_next_spec h p u nx pv q :
  h !! p = Some (UNode u nx pv) →
  store_next h p q = Ok (<[p := UNode u q pv]> h) ∧ relinked h (<[p := UNode u q pv]> h) [p].
Proof.
  intros Hp. unfold store_next, node. rewrite Hp. m_step. split; [done|]. split; intros r.
  - intros Hr. rewrite lookup_insert_ne by set_solver. done.
  - destruct (decide (r = p)) as [->|]; [by rewrite lookup_insert_eq, Hp|].
    by rewrite lookup_insert_ne by done.
Qed.

Lemma store_prev_spec h p u nx pv q :
  h !! p = Some (UNode u nx pv) →
  store_prev h p q = Ok (<[p := UNode u nx q]> h) ∧ relinked h (<[p := UNode u nx q]> h) [p].
Proof.
  intros Hp. unfold store_prev, node. rewrite Hp. m_step. split; [done|]. split; intros r.
  - intros Hr. rewrite lookup_insert_ne by set_solver. done.
  - destruct (decide (r = p)) as [->|]; [by rewrite lookup_insert_eq, Hp|].
    by rewrite lookup_insert_ne by done.
Qed.

(** Changing the pointer out of either end of a segment. *)
Lemma relink_last h prev l next q :
  NoDup l → dseg h prev l next →
  ∃ h', opt_set store_next h (last_of l None) q = Ok h' ∧ dseg h' prev l q ∧ relinked h h' l.
Proof.
  intros Hnd Hd. destruct l as [|p0 l0] using rev_ind; [by exists h|]. clear IHl0.
  assert (last_of (l0 ++ [p0]) None = Some p0) as -> by (unfold last_of; by rewrite last_snoc).
  cbn [opt_set]. apply dseg_app in Hd as [Hd1 Hd2]. cbn [dseg first_of] in Hd2.
  destruct Hd2 as [[u Hu] _]. destruct (store_next_spec h p0 u _ _ q Hu) as [-> Hr].
  eexists. split; [done|]. apply NoDup_app in Hnd as (_ & Hni & _). split.
  - apply dseg_app. split.
    + eapply dseg_frame; [|exact Hd1]. intros p Hp. rewrite lookup_insert_ne; [done|].
      intros ->. by apply (Hni p); [|set_solver].
    + cbn [dseg first_of]. split; [|done]. exists u. by rewrite lookup_insert_eq.
  - destruct Hr as [Hr1 Hr2]. split; [|done]. intros p Hp. apply Hr1. set_solver.
Qed.

Lemma relink_first h prev l next q :
  NoDup l → dseg h prev l next →
  ∃ h', opt_set store_prev h (first_of l None) q = Ok h' ∧ dseg h' q l next ∧ relinked h h' l.
Proof.
  intros Hnd Hd. destruct l as [|p0 l0]; [by exists h|]. cbn [first_of opt_set].
  cbn [dseg] in Hd. destruct Hd as [[u Hu] Hd].
  destruct (store_prev_spec h p0 u _ _ q Hu) as [-> Hr]. eexists. split; [done|].
  apply NoDup_cons in Hnd as [Hni _]. split.
  - cbn [dseg]. split; [exists u; by rewrite lookup_insert_eq|].
    eapply dseg_frame; [|exact Hd]. intros p Hp. rewrite lookup_insert_ne by (intros ->; done). done.
  - destruct Hr as [Hr1 Hr2]. split; [|done]. intros p Hp. apply Hr1. set_solver.
Qed.

(** ** The loops *)

Definition pkey (h : uheap) (p : nat) : list Z :=
  match h !! p with Some n => ukey (un_user n) | None => [] end.

Lemma pkey_user h h' p : un_user <$> h' !! p = un_user <$> h !! p → pkey h' p = pkey h p.
Proof. unfold pkey. destruct (h' !! p), (h !! p); cbn; congruence. Qed.

Definition all_named (h : uheap) (l : list nat) : Prop :=
  ∀ p n, p ∈ l → h !! p = Some n → named (un_user n).

Lemma place_loop_spec fuel h u l prev :
  dseg h prev l None → all_named h l → named u → (length l ≤ fuel)%nat →
  ∃ l1 l2, l = l1 ++ l2 ∧ (∀ p, p ∈ l1 → oid_lt (pkey h p) (ukey u)) ∧
    ((place_loop fuel h u (first_of l None) prev = Ok (Before (last_of l1 prev) (first_of l2 None)) ∧
      (∀ q, head l2 = Some q → oid_lt (ukey u) (pkey h q))) ∨
     ∃ o l3, l2 = o :: l3 ∧ pkey h o = ukey u ∧
       place_loop fuel h u (first_of l None) prev = Ok (Replace (last_of l1 prev) o)).
Proof.
  revert l prev. induction fuel as [|fuel IH]; intros l prev Hd Hn Hu Hf.
  { destruct l; [|cbn in Hf; lia]. exists [], []. split_and!; [done|set_solver|]. by left. }
  destruct l as [|p l]; [exists [], []; split_and!; [done|set_solver|by left]|].
  cbn [dseg] in Hd. destruct Hd as [[n Hp] Hd]. cbn [first_of place_loop]. unfold node. rewrite Hp. m_step.
  cbn [un_user un_next]. rewrite (add_test_spec n u (Hn p _ ltac:(set_solver) Hp) Hu). m_step.
  assert (pkey h p = ukey n) as Hk by (unfold pkey; by rewrite Hp).
  destruct (oid_cmp_range (ukey n) (ukey u)) as [E|[E|E]]; rewrite E; cbn [Z.eqb Z.ltb Z.compare].
  - destruct (IH l (Some p) Hd) as (l1 & l2 & -> & Hl1 & Hres); [intros q m Hq; apply Hn; set_solver|done|cbn in Hf; lia|].
    exists (p :: l1), l2. split; [done|]. split.
    { intros q [->|Hq]%elem_of_cons; [by unfold oid_lt; rewrite Hk|by apply Hl1]. }
    rewrite last_of_cons. exact Hres.
  - exists [], (p :: l). split; [done|]. split; [set_solver|]. right. exists p, l.
    rewrite Hk. by split_and!; [|apply oid_cmp_eq|].
  - exists [], (p :: l). split; [done|]. split; [set_solver|]. left. split; [done|].
    intros q [= <-]. unfold oid_lt. rewrite Hk, oid_cmp_antisym. lia.
Qed.

Lemma rewind_spec fuel h l p next :
  dseg h None (l ++ [p]) next → (length l < fuel)%nat → ∃ q, rewind fuel h p = Ok q ∧ Some q = first_of (l ++ [p]) None.
Proof.
  revert p next fuel. induction l as [|q l IH] using rev_ind; intros p next fuel Hd Hf;
    (destruct fuel as [|fuel]; [lia|]); cbn [rewind]; unfold node.
  - cbn [app dseg] in Hd. destruct Hd as [[u ->] _]. m_step. by exists p.
  - apply dseg_app in Hd as [Hd1 Hd2]. cbn [dseg] in Hd2. destruct Hd2 as [[u Hp] _].
    rewrite Hp. m_step. cbn [un_prev].
    assert (last_of (l ++ [q]) None = Some q) as -> by (unfold last_of; by rewrite last_snoc).
    rewrite length_app in Hf. cbn [length] in Hf.
    destruct (IH q _ fuel Hd1 ltac:(lia)) as (r & -> & Hr). exists r. split; [done|].
    rewrite Hr, !first_of_app. by destruct l.
Qed.

(** The four stores that put [user] between two segments. *)
Lemma link_between h l1 l2 user nx pv :
  NoDup (l1 ++ user :: l2) → dseg h None l1 nx → dseg h pv l2 None → is_Some (h !! user) →
  ∃ h', (h1 ← store_prev h user (last_of l1 None); h2 ← store_next h1 user (first_of l2 None);
         h3 ← opt_set store_prev h2 (first_of l2 None) (Some user);
         opt_set store_next h3 (last_of l1 None) (Some user)) = Ok h' ∧
    dseg h' None (l1 ++ user :: l2) None ∧ relinked h h' (l1 ++ user :: l2).
Proof.
  intros Hnd Hd1 Hd2 [[u unx upv] Hu].
  apply NoDup_app in Hnd as (Hnd1 & Hdisj & [Hni Hnd2]%NoDup_cons).
  destruct (store_prev_spec h user u _ _ (last_of l1 None) Hu) as [-> Hr1]. m_step.
  set (h1 := <[user := _]> h) in *.
  destruct (store_next_spec h1 user u unx (last_of l1 None) (first_of l2 None)) as [-> Hr2];
    [by unfold h1; rewrite lookup_insert_eq|]. m_step.
  set (h2 := <[user := _]> h1) in *.
  assert (h2 !! user = Some (UNode u (first_of l2 None) (last_of l1 None))) as Hu2
    by (unfold h2; by rewrite lookup_insert_eq).
  pose proof (relinked_trans _ _ _ _ _ Hr1 Hr2) as Hr12.
  assert (dseg h2 pv l2 None) as Hd2'.
  { eapply dseg_frame; [|exact Hd2]. intros p Hp. apply Hr12. set_solver. }
  destruct (relink_first h2 pv l2 None (Some user) Hnd2 Hd2') as (h3 & -> & Hd3 & Hr3). m_step.
  assert (dseg h3 None l1 nx) as Hd1'.
  { eapply dseg_frame; [|exact Hd1]. intros p Hp. transitivity (h2 !! p); [apply Hr3|apply Hr12]; set_solver. }
  destruct (relink_last h3 None l1 nx (Some user) Hnd1 Hd1') as (h4 & -> & Hd4 & Hr4).
  exists h4. split; [done|]. split.
  - apply dseg_app. cbn [first_of]. split; [done|]. cbn [dseg]. split.
    + exists u. rewrite (proj1 Hr4), (proj1 Hr3) by set_solver. done.
    + eapply dseg_frame; [|exact Hd3]. intros p Hp. apply Hr4. set_solver.
  - pose proof (relinked_trans _ _ _ _ _ (relinked_trans _ _ _ _ _ Hr12 Hr3) Hr4) as [A B].
    split; [|done]. intros p Hp. apply A. set_solver.
Qed.

(** The two stores that take a node out from between two segments. *)
Lemma unlink_node h l1 o l2 :
  NoDup (l1 ++ o :: l2) → dseg h None (l1 ++ o :: l2) None →
  ∃ u h', h !! o = Some (UNode u (first_of l2 None) (last_of l1 None)) ∧
    (h1 ← opt_set store_next h (last_of l1 None) (first_of l2 None);
     opt_set store_prev h1 (first_of l2 None) (last_of l1 None)) = Ok h' ∧
    dseg h' None (l1 ++ l2) None ∧ relinked h h' (l1 ++ l2) ∧ h' !! o = h !! o.
Proof.
  intros Hnd Hd. apply NoDup_app in Hnd as (Hnd1 & Hdisj & [Hni Hnd2]%NoDup_cons).
  apply dseg_app in Hd as [Hd1 Hd]. cbn [dseg] in Hd. destruct Hd as [[u Hu] Hd2]. exists u.
  destruct (relink_last h None l1 _ (first_of l2 None) Hnd1 Hd1) as (h1 & -> & Hd1' & Hr1). m_step.
  assert (dseg h1 (Some o) l2 None) as Hd2'.
  { eapply dseg_frame; [|exact Hd2]. intros p Hp. apply Hr1. set_solver. }
  destruct (relink_first h1 _ l2 None (last_of l1 None) Hnd2 Hd2') as (h2 & -> & Hd3 & Hr2).
  exists h2. split_and!; [done|done|..].
  - apply dseg_app. split; [|done]. eapply dseg_frame; [|exact Hd1']. intros p Hp. apply Hr2. set_solver.
  - by apply (relinked_trans _ h1).
  - rewrite (proj1 Hr2), (proj1 Hr1) by set_solver. done.
Qed.

(** ** The invariant *)

Definition before (h : uheap) (p q : nat) : Prop := oid_lt (pkey h p) (pkey h q).

Definition user_list (h : uheap) (hd : option nat) (l : list nat) : Prop :=
  NoDup l ∧ dseg h None l None ∧ hd = first_of l None ∧ all_named h l ∧ StronglySorted (before h) l.

Lemma sorted_app h l1 l2 :
  StronglySorted (before h) (l1 ++ l2) ↔
  StronglySorted (before h) l1 ∧ StronglySorted (before h) l2 ∧ ∀ p q, p ∈ l1 → q ∈ l2 → before h p q.
Proof.
  induction l1 as [|p l1 IH]; cbn [app].
  { split; [|tauto]. intros Hs. split_and!; [constructor|done|set_solver]. }
  split.
  - intros [Hs Hf]%StronglySorted_inv. apply IH in Hs as (H1 & H2 & H12).
    apply Forall_app in Hf as [Hf1 Hf2]. split_and!; [by constructor|done|].
    intros a b [->|Ha]%elem_of_cons Hb; [by eapply Forall_forall|by apply H12].
  - intros ([H1 Hf]%StronglySorted_inv & H2 & H12). constructor.
    + apply IH. split_and!; [done..|]. intros. apply H12; set_solver.
    + apply Forall_app. split; [done|]. apply Forall_forall. intros q Hq. apply H12; set_solver.
Qed.

(** Sortedness and names depend on the users only. *)
Lemma sorted_keys h h' l :
  (∀ p, p ∈ l → pkey h' p = pkey h p) → StronglySorted (before h) l → StronglySorted (before h') l.
Proof.
  intros Hk. induction 1 as [|p l Hs IH Hf]; constructor.
  - apply IH. intros. apply Hk. set_solver.
  - rewrite Forall_forall in Hf |- *. intros q Hq. unfold before. rewrite !Hk by set_solver. by apply Hf.
Qed.

Lemma named_users h h' l :
  (∀ p, p ∈ l → un_user <$> h' !! p = un_user <$> h !! p) → all_named h l → all_named h' l.
Proof.
  intros Hu Hn p n Hp Hpn. specialize (Hu p Hp). rewrite Hpn in Hu.
  destruct (h !! p) as [n'|] eqn:E; [|done]. cbn in Hu. injection Hu as ->. by apply (Hn p).
Qed.

(** Placing a user between the smaller and the larger ones. *)
Lemma placed_sorted h l1 l2 user :
  StronglySorted (before h) (l1 ++ l2) → (∀ p, p ∈ l1 → before h p user) →
  (∀ q, q ∈ l2 → before h user q) → StronglySorted (before h) (l1 ++ user :: l2).
Proof.
  intros (H1 & H2 & H12)%sorted_app Hl Hr. apply sorted_app. split_and!; [done| |].
  - constructor; [done|]. by apply Forall_forall.
  - intros p q Hp [->|Hq]%elem_of_cons; [by apply Hl|by apply H12].
Qed.

Lemma sorted_after h q l x :
  StronglySorted (before h) (q :: l) → oid_lt x (pkey h q) → ∀ p, p ∈ q :: l → oid_lt x (pkey h p).
Proof.
  intros [_ Hf]%StronglySorted_inv Hx p [->|Hp]%elem_of_cons; [done|].
  etransitivity; [exact Hx|]. by eapply (proj1 (Forall_forall _ _) Hf).
Qed.

(** ** Insertion *)

(** The end of [usm_add_user_to_list], once the place is found. *)
Lemma place_user h l1 l2 user :
  NoDup (l1 ++ user :: l2) → dseg h None (l1 ++ l2) None → is_Some (h !! user) →
  ∃ h' p, (h1 ← store_prev h user (last_of l1 None); h2 ← store_next h1 user (first_of l2 None);
           h3 ← opt_set store_prev h2 (first_of l2 None) (Some user);
           h4 ← opt_set store_next h3 (last_of l1 None) (Some user);
           p ← rewind (size h4) h4 user; Ok (h4, p)) = Ok (h', p) ∧
    Some p = first_of (l1 ++ user :: l2) None ∧ dseg h' None (l1 ++ user :: l2) None ∧
    relinked h h' (l1 ++ user :: l2).
Proof.
  intros Hnd [Hd1 Hd2]%dseg_app Hu.
  destruct (link_between h l1 l2 user _ _ Hnd Hd1 Hd2 Hu) as (h' & HE & Hd & Hr).
  destruct (store_prev h user (last_of l1 None)) as [h1| |]; m_step; [|done..]. cbn [mbind M_bind] in HE.
  destruct (store_next h1 user _) as [h2| |]; m_step; [|done..]. cbn [mbind M_bind] in HE.
  destruct (opt_set store_prev h2 _ _) as [h3| |]; m_step; [|done..]. cbn [mbind M_bind] in HE.
  rewrite HE. m_step.
  pose proof (dseg_size _ _ _ _ Hnd Hd) as Hsz. rewrite length_app in Hsz. cbn [length] in Hsz.
  pose proof Hd as Hd'. rewrite (cons_middle user l1 l2), app_assoc in Hd'.
  apply dseg_app in Hd' as [Hd' _].
  destruct (rewind_spec (size h') h' l1 user _ Hd' ltac:(lia)) as (p & -> & Hp). m_step.
  exists h', p. split_and!; [done| |done|done]. rewrite Hp, !first_of_app. done.
Qed.

(** The user with the same key is unlinked and released. *)
Lemma take_out h l1 o l2 :
  NoDup (l1 ++ o :: l2) → dseg h None (l1 ++ o :: l2) None →
  ∃ u h', node h o = Ok (UNode u (first_of l2 None) (last_of l1 None)) ∧
    (h1 ← opt_set store_next h (last_of l1 None) (first_of l2 None);
     h2 ← opt_set store_prev h1 (first_of l2 None) (last_of l1 None);
     h3 ← store_next h2 o None; h4 ← store_prev h3 o None; usm_free_user h4 (Some o)) = Ok h' ∧
    dseg h' None (l1 ++ l2) None ∧ h' !! o = None ∧
    (∀ p, p ∉ l1 ++ o :: l2 → h' !! p = h !! p) ∧
    (∀ p, p ≠ o → un_user <$> h' !! p = un_user <$> h !! p).
Proof.
  intros Hnd Hd. destruct (unlink_node h l1 o l2 Hnd Hd) as (u & h2 & Ho & HE & Hd2 & Hr & Ho2).
  assert (o ∉ l1 ++ l2) as Hni.
  { apply NoDup_app in Hnd as (_ & Hdisj & [? _]%NoDup_cons). set_solver. }
  exists u. unfold node. rewrite Ho.
  destruct (opt_set store_next h _ _) as [h1| |]; m_step; [|done..]. cbn [mbind M_bind] in HE. rewrite HE. m_step.
  rewrite Ho in Ho2. destruct (store_next_spec h2 o u _ _ None Ho2) as [-> _]. m_step.
  set (h3 := <[o := _]> h2).
  destruct (store_prev_spec h3 o u None (last_of l1 None) None) as [-> _];
    [by unfold h3; rewrite lookup_insert_eq|]. m_step.
  unfold usm_free_user, node. rewrite lookup_insert_eq. m_step. cbn [un_prev un_next opt_set]. m_step.
  assert (∀ p, p ≠ o → delete o (<[o := UNode u None None]> h3) !! p = h2 !! p) as Hp.
  { intros p Hp. unfold h3. by rewrite lookup_delete_ne, !lookup_insert_ne by done. }
  eexists. split_and!; [done|done|..].
  - eapply dseg_frame; [|exact Hd2]. intros p Hin. apply Hp. intros ->. done.
  - apply lookup_delete_eq.
  - intros p Hin. rewrite Hp by (intros ->; set_solver). apply Hr. set_solver.
  - intros p Hne. rewrite Hp by done. apply Hr.
Qed.

(** The abstract effect of adding [user] to the users [l]: it takes the place of a user
    with the same key, and nothing else changes. *)
Definition added (h h' : uheap) (l l' : list nat) (user : nat) (u : usmUser) : Prop :=
  (∀ p, p ∈ l' ↔ p = user ∨ p ∈ l ∧ pkey h p ≠ ukey u) ∧
  (∀ p, p ∈ l' → un_user <$> h' !! p = un_user <$> h !! p).

Lemma oid_lt_ne a b : oid_lt a b → a ≠ b.
Proof. unfold oid_lt. intros Hlt ->. by rewrite oid_cmp_refl in Hlt. Qed.

(** Common end of both cases: the segment is in order again. *)
Lemma user_list_placed h h' l1 l2 user u p :
  StronglySorted (before h) (l1 ++ l2) → (∀ q, q ∈ l1 → oid_lt (pkey h q) (ukey u)) →
  (∀ q, q ∈ l2 → oid_lt (ukey u) (pkey h q)) → un_user <$> h !! user = Some u → named u →
  all_named h (l1 ++ l2) → NoDup (l1 ++ user :: l2) → Some p = first_of (l1 ++ user :: l2) None →
  dseg h' None (l1 ++ user :: l2) None →
  (∀ q, q ∈ l1 ++ user :: l2 → un_user <$> h' !! q = un_user <$> h !! q) →
  user_list h' (Some p) (l1 ++ user :: l2).
Proof.
  intros Hs Hl Hr Hu Hnu Hn Hnd Hp Hd Huser.
  assert (pkey h user = ukey u) as Hk.
  { unfold pkey. destruct (h !! user); [|done]. cbn in Hu. congruence. }
  assert (all_named h (l1 ++ user :: l2)) as Hn'.
  { intros q n Hq Hqn. destruct (decide (q = user)) as [->|].
    - rewrite Hqn in Hu. cbn in Hu. injection Hu as ->. done.
    - apply (Hn q); [set_solver|done]. }
  split_and!; [done|done|done|by eapply named_users|].
  eapply sorted_keys; [intros q Hq; by apply pkey_user, Huser|].
  apply placed_sorted; [done|intros q Hq; unfold before; rewrite Hk; auto..].
Qed.

Lemma usm_add_user_to_list_spec h hd l user nu :
  user_list h hd l → user ∉ l → h !! user = Some nu → named (un_user nu) →
  ∃ h' p l', usm_add_user_to_list h user hd = Ok (h', p) ∧ user_list h' (Some p) l' ∧
    added h h' l l' user (un_user nu).
Proof.
  intros (Hnd & Hd & -> & Hn & Hs) Hni Hu Hnu. unfold usm_add_user_to_list.
  assert (node h user = Ok nu) as -> by (unfold node; by rewrite Hu). m_step.
  pose proof (dseg_size _ _ _ _ Hnd Hd) as Hsz.
  destruct (place_loop_spec (size h) h (un_user nu) l None Hd Hn Hnu Hsz) as (l1 & l2 & -> & Hl1 & Hcase).
  assert (un_user <$> h !! user = Some (un_user nu)) as Hu' by by rewrite Hu.
  destruct Hcase as [[-> Hl2]|(o & l3 & -> & Hk & ->)]; m_step.
  - assert (∀ q, q ∈ l2 → oid_lt (ukey (un_user nu)) (pkey h q)) as Hr.
    { destruct l2 as [|q l2]; [set_solver|]. apply sorted_app in Hs as (_ & Hs2 & _).
      apply (sorted_after h q l2 _ Hs2). by apply Hl2. }
    assert (NoDup (l1 ++ user :: l2)) as Hnd'.
    { apply NoDup_app in Hnd as (? & ? & ?). apply NoDup_app. split_and!; [done|set_solver|].
      apply NoDup_cons. split; [set_solver|done]. }
    destruct (place_user h l1 l2 user Hnd' Hd ltac:(by eexists)) as (h' & p & -> & Hp & Hd' & Hr').
    exists h', p, (l1 ++ user :: l2). split; [done|]. split.
    + eapply user_list_placed; try done. intros q _. apply Hr'.
    + split; [|intros; apply Hr']. intros q. rewrite elem_of_app, elem_of_cons, elem_of_app.
      split; [|tauto]. intros [Hq|[->|Hq]]; [right|by left|right].
      * split; [by left|by apply oid_lt_ne, Hl1].
      * split; [by right|]. by apply not_eq_sym, oid_lt_ne, Hr.
  - destruct (take_out h l1 o l3 Hnd Hd) as (uo & h1 & -> & HE & Hd1 & Ho & Hout & Husers). m_step.
    cbn [un_next].
    destruct (opt_set store_next h _ _) as [x1| |]; m_step; [|done..]. cbn [mbind M_bind] in HE.
    destruct (opt_set store_prev x1 _ _) as [x2| |]; m_step; [|done..]. cbn [mbind M_bind] in HE.
    destruct (store_next x2 _ _) as [x3| |]; m_step; [|done..]. cbn [mbind M_bind] in HE.
    destruct (store_prev x3 _ _) as [x4| |]; m_step; [|done..]. cbn [mbind M_bind] in HE. rewrite HE. m_step.
    assert (o ∉ l1 ++ l3) as Hoi.
    { apply NoDup_app in Hnd as (_ & Hdisj & [? _]%NoDup_cons). set_solver. }
    assert (NoDup (l1 ++ user :: l3)) as Hnd'.
    { apply NoDup_app in Hnd as (? & ? & [? ?]%NoDup_cons). apply NoDup_app.
      split_and!; [done|set_solver|]. apply NoDup_cons. split; [set_solver|done]. }
    assert (user ≠ o) as Huo by set_solver.
    assert (h1 !! user = Some nu) as Hu1 by (by rewrite Hout).
    destruct (place_user h1 l1 l3 user Hnd' Hd1 ltac:(by eexists)) as (h' & p & -> & Hp & Hd' & Hr').
    exists h', p, (l1 ++ user :: l3). split; [done|].
    assert (∀ q, q ∈ l1 ++ user :: l3 → un_user <$> h' !! q = un_user <$> h !! q) as Hkeep.
    { intros q Hq. rewrite (proj2 Hr'). apply Husers. set_solver. }
    apply sorted_app in Hs as (Hs1 & [Hs3 Hf]%StronglySorted_inv & Hs13).
    rewrite Forall_forall in Hf.
    assert (∀ q, q ∈ l3 → oid_lt (ukey (un_user nu)) (pkey h q)) as Hr
      by (intros q Hq; rewrite <- Hk; by apply Hf).
    split.
    + eapply (user_list_placed h); try done.
      * apply sorted_app. split_and!; [done..|]. intros a b Ha Hb. apply Hs13; set_solver.
      * intros q n Hq. apply Hn. set_solver.
    + split; [|done]. intros q. rewrite !elem_of_app, !elem_of_cons. split.
      * intros [Hq|[->|Hq]]; [right|by left|right].
        { split; [by left|by apply oid_lt_ne, Hl1]. }
        { split; [by right; right|]. by apply not_eq_sym, oid_lt_ne, Hr. }
      * intros [->|[[?|[->|?]] ?]]; [by right; left|by left|done|by right; right].
Qed.

(** ** Lookup *)

Lemma match_key n id name :
  named n →
  (match u_name n with Some nm => bool_decide (cstr nm = cstr name) | None => false end)
    && engine_matches (u_engineID n) (Some id) = bool_decide (ukey n = key_of id name).
Proof.
  intros [[ne Hne] [nn Hnn]]. unfold ukey, engine_matches. rewrite Hne, Hnn. cbn [default from_option].
  apply Bool.eq_iff_eq_true. rewrite !andb_true_iff, !bool_decide_eq_true, key_of_inj, Z.eqb_eq. naive_solver.
Qed.

Lemma get_loop_spec fuel h id name l prev :
  dseg h prev l None → all_named h l → (length l ≤ fuel)%nat →
  (∃ p, p ∈ l ∧ pkey h p = key_of id name ∧
        get_loop fuel h (Some id) name (first_of l None) = Ok (Some p)) ∨
  ((∀ p, p ∈ l → pkey h p ≠ key_of id name) ∧
   get_loop fuel h (Some id) name (first_of l None) = Ok None).
Proof.
  revert l prev. induction fuel as [|fuel IH]; intros l prev Hd Hn Hf.
  { destruct l; [|cbn in Hf; lia]. right. split; [set_solver|done]. }
  destruct l as [|p l]; [right; split; [set_solver|done]|].
  cbn [dseg] in Hd. destruct Hd as [[n Hp] Hd]. cbn [first_of get_loop]. unfold node. rewrite Hp. m_step.
  cbn [un_user un_next]. rewrite (match_key n id name (Hn p _ ltac:(set_solver) Hp)).
  assert (pkey h p = ukey n) as Hk by (unfold pkey; by rewrite Hp).
  case_bool_decide as E; [left; exists p; split_and!; [set_solver|congruence|done]|].
  destruct (IH l (Some p) Hd) as [(q & Hq & HE)|[Hne HE]];
    [intros q m Hq; apply Hn; set_solver|cbn in Hf; lia| |].
  - left. exists q. split; [set_solver|done].
  - right. split; [|done]. intros q [->|Hq]%elem_of_cons; [congruence|by apply Hne].
Qed.

Lemma users_sorted_unique h l p q :
  StronglySorted (before h) l → p ∈ l → q ∈ l → pkey h p = pkey h q → p = q.
Proof.
  induction 1 as [|x l Hs IH Hf]; [set_solver|]. rewrite Forall_forall in Hf. unfold before in Hf.
  intros [->|Hp]%elem_of_cons [->|Hq]%elem_of_cons E; [done|..|by apply IH].
  - by apply Hf, oid_lt_ne in Hq.
  - by apply Hf, oid_lt_ne in Hp.
Qed.

(** The user with the key, or the default user for an empty name. *)
Lemma usm_get_user_spec h hd l id name use_default noNameUser :
  user_list h hd l →
  (∀ p, p ∈ l → pkey h p = key_of id name →
     usm_get_user_from_list h (Some id) (Some name) hd use_default noNameUser = Ok (Some p)) ∧
  ((∀ p, p ∈ l → pkey h p ≠ key_of id name) →
     usm_get_user_from_list h (Some id) (Some name) hd use_default noNameUser
     = Ok (if use_default && bool_decide (cstr name = []) then noNameUser else None)).
Proof.
  intros (Hnd & Hd & -> & Hn & Hs). unfold usm_get_user_from_list.
  change (default [] (Some name)) with name. pose proof (dseg_size _ _ _ _ Hnd Hd) as Hsz.
  destruct (get_loop_spec (size h) h id name l None Hd Hn Hsz) as [(p & Hp & Hk & HE)|[Hne HE]];
    rewrite HE; m_step.
  - split; [|by intros Hno; exfalso; apply (Hno p)]. intros q Hq Hkq.
    by rewrite (users_sorted_unique h l p q Hs Hp Hq) by congruence.
  - split; [|done]. intros q Hq Hkq. by destruct (Hne q Hq).
Qed.

(** ** Removal *)

Lemma remove_loop_in fuel h user l1 l2 prev :
  NoDup (l1 ++ user :: l2) → dseg h prev (l1 ++ user :: l2) None → (length l1 ≤ fuel)%nat →
  remove_loop fuel h user (first_of (l1 ++ user :: l2) None) prev = Ok (Some (user, last_of l1 prev)).
Proof.
  revert l1 prev. induction fuel as [|fuel IH]; intros [|p l1] prev Hnd Hd Hf; try (cbn in Hf; lia);
    cbn [app first_of remove_loop]; try (by rewrite Nat.eqb_refl).
  cbn [app dseg] in Hd. destruct Hd as [[n Hp] Hd]. apply NoDup_cons in Hnd as [Hni Hnd].
  destruct (Nat.eqb_spec p user) as [->|_]; [set_solver|].
  unfold node. rewrite Hp. m_step. cbn [un_next]. rewrite last_of_cons. cbn [length] in Hf.
  by rewrite IH by (done || lia).
Qed.

Lemma remove_loop_out fuel h user l prev :
  user ∉ l → dseg h prev l None → (length l ≤ fuel)%nat →
  remove_loop fuel h user (first_of l None) prev = Ok None.
Proof.
  revert l prev. induction fuel as [|fuel IH]; intros [|p l] prev Hni Hd Hf; try (cbn in Hf; lia); try done.
  cbn [dseg] in Hd. destruct Hd as [[n Hp] Hd]. cbn [first_of remove_loop].
  destruct (Nat.eqb_spec p user) as [->|_]; [set_solver|].
  unfold node. rewrite Hp. m_step. cbn [un_next]. cbn [length] in Hf. apply IH; [set_solver|done|lia].
Qed.

Lemma usm_remove_user_spec h hd l user :
  user_list h hd l →
  (user ∉ l → usm_remove_user_from_list h user hd = Ok (h, hd, None)) ∧
  (user ∈ l → ∃ h' hd' l', usm_remove_user_from_list h user hd = Ok (h', hd', hd') ∧
     user_list h' hd' l' ∧ (∀ p, p ∈ l' ↔ p ∈ l ∧ p ≠ user) ∧
     (∀ p, un_user <$> h' !! p = un_user <$> h !! p)).
Proof.
  intros (Hnd & Hd & -> & Hn & Hs). pose proof (dseg_size _ _ _ _ Hnd Hd) as Hsz.
  unfold usm_remove_user_from_list. split.
  - intros Hni. destruct l as [|p l]; [done|].
    pose proof (remove_loop_out (size h) h user (p :: l) None Hni Hd Hsz) as HE.
    cbn [first_of] in HE |- *. by rewrite HE.
  - intros (l1 & l2 & ->)%list_elem_of_split.
    destruct (first_of (l1 ++ user :: l2) None) as [f|] eqn:Ef; [|by destruct l1].
    rewrite <- Ef, remove_loop_in by (done || rewrite length_app in Hsz; lia). m_step.
    destruct (unlink_node h l1 user l2 Hnd Hd) as (u & h' & Hu & HE & Hd' & Hr & _).
    unfold node. rewrite Hu. m_step. cbn [un_next].
    destruct (opt_set store_next h _ _) as [x1| |]; m_step; [|done..]. cbn [mbind M_bind] in HE. rewrite HE. m_step.
    assert ((if bool_decide (first_of (l1 ++ user :: l2) None = Some user)
             then first_of l2 None else first_of (l1 ++ user :: l2) None) = first_of (l1 ++ l2) None) as ->.
    { apply NoDup_app in Hnd as (_ & Hdisj & _). destruct l1 as [|p l1]; cbn [app first_of].
      - by rewrite bool_decide_true.
      - rewrite bool_decide_false; [done|]. intros [= ->]. apply (Hdisj user); set_solver. }
    eexists h', _, (l1 ++ l2). split; [done|].
    assert (user ∉ l1 ++ l2) as Hni.
    { apply NoDup_app in Hnd as (_ & Hdisj & [? _]%NoDup_cons). set_solver. }
    split_and!; [|set_solver|apply Hr]. split_and!; [|done|done|..].
    + apply NoDup_app in Hnd as (? & ? & [? ?]%NoDup_cons). apply NoDup_app. split_and!; [done|set_solver|done].
    + eapply named_users; [intros; apply Hr|]. intros q n Hq. apply Hn. set_solver.
    + eapply sorted_keys; [intros; apply pkey_user, Hr|].
      apply sorted_app in Hs as (? & [? _]%StronglySorted_inv & Hs12). apply sorted_app.
      split_and!; [done..|]. intros. apply Hs12; set_solver.
Qed.

(** Releasing the whole list. *)
Lemma clear_user_list_spec fuel h l :
  NoDup l → dseg h None l None → (length l ≤ fuel)%nat →
  ∃ h', clear_user_list fuel h (first_of l None) = Ok h' ∧
    (∀ p, p ∈ l → h' !! p = None) ∧ (∀ p, p ∉ l → h' !! p = h !! p).
Proof.
  revert h l. induction fuel as [|fuel IH]; intros h l Hnd Hd Hf.
  { destruct l; [|cbn in Hf; lia]. exists h. split_and!; [done|set_solver|done]. }
  destruct l as [|p l]; [exists h; split_and!; [done|set_solver|done]|].
  cbn [dseg] in Hd. destruct Hd as [[u Hp] Hd]. apply NoDup_cons in Hnd as [Hni Hnd].
  cbn [first_of clear_user_list usm_free_user]. unfold node. rewrite Hp. m_step.
  cbn [un_prev un_next opt_set]. m_step.
  destruct (relink_first h (Some p) l None None Hnd Hd) as (h1 & -> & Hd1 & Hr1). m_step.
  destruct (IH (delete p h1) l Hnd) as (h' & -> & Hin & Hout).
  - eapply dseg_frame; [|exact Hd1]. intros q Hq. apply lookup_delete_ne. intros ->. done.
  - cbn [length] in Hf. lia.
  - exists h'. split_and!; [done|..].
    + intros q [->|Hq]%elem_of_cons; [|by apply Hin]. rewrite Hout by done. apply lookup_delete_eq.
    + intros q [Hne Hq]%not_elem_of_cons. rewrite Hout, lookup_delete_ne by done. by apply Hr1.
Qed.

(** ** The list as a finite map *)

(** What the user commands do with the list. *)
Inductive uop :=
| AddUser (u : usmUser)
| RemoveUser (engineID name : list Z)
| FindUser (engineID name : list Z).

(** A new user is allocated and added; one to be removed is looked up first.  A lookup
    answers with the user found. *)
Definition ustep (h : uheap) (hd : option nat) (op : uop) : M (uheap * option nat * option (option usmUser)) :=
  match op with
  | AddUser u =>
      let p := fresh (dom h) in
      '(h, hd) ← usm_add_user (<[p := UNode u None None]> h) hd p; Ok (h, hd, None)
  | RemoveUser id name =>
      r ← usm_get_user_from_list h (Some id) (Some name) hd false None;
      match r with
      | None => Ok (h, hd, None)
      | Some p => '(h, hd, _) ← usm_remove_user_from_list h p hd; Ok (h, hd, None)
      end
  | FindUser id name =>
      r ← usm_get_user_from_list h (Some id) (Some name) hd false None;
      match r with
      | None => Ok (h, hd, Some None)
      | Some p => n ← node h p; Ok (h, hd, Some (Some (un_user n)))
      end
  end.

Fixpoint urun (h : uheap) (hd : option nat) (ops : list uop) : M (list (option (option usmUser))) :=
  match ops with
  | [] => Ok []
  | op :: ops =>
      '(h, hd, r) ← ustep h hd op;
      rs ← urun h hd ops;
      Ok (r :: rs)
  end.

Definition umap_step (m : gmap (list Z) usmUser) (op : uop)
    : gmap (list Z) usmUser * option (option usmUser) :=
  match op with
  | AddUser u => (<[ukey u := u]> m, None)
  | RemoveUser id name => (delete (key_of id name) m, None)
  | FindUser id name => (m, Some (m !! key_of id name))
  end.

Fixpoint umap_run (m : gmap (list Z) usmUser) (ops : list uop) : list (option (option usmUser)) :=
  match ops with
  | [] => []
  | op :: ops => let '(m, r) := umap_step m op in r :: umap_run m ops
  end.

(** The users of the list are those of the map, under their keys. *)
Definition holds_users (h : uheap) (hd : option nat) (m : gmap (list Z) usmUser) : Prop :=
  ∃ l, user_list h hd l ∧
    ∀ k u, m !! k = Some u ↔ ∃ p, p ∈ l ∧ un_user <$> h !! p = Some u ∧ ukey u = k.

Lemma pkey_ukey h p u : un_user <$> h !! p = Some u → pkey h p = ukey u.
Proof. unfold pkey. destruct (h !! p); [|done]. cbn. congruence. Qed.

Lemma list_user h hd l p : user_list h hd l → p ∈ l → ∃ u, un_user <$> h !! p = Some u.
Proof.
  intros (_ & Hd & _) Hp. destruct (dseg_lookup _ _ _ _ _ Hd Hp) as [n ->]. by eexists.
Qed.

(** A lookup in the list is one in the map. *)
Lemma get_user_map h hd m id name :
  holds_users h hd m →
  ∃ r, usm_get_user_from_list h (Some id) (Some name) hd false None = Ok r ∧
    match r with
    | Some p => ∃ u, m !! key_of id name = Some u ∧ un_user <$> h !! p = Some u
    | None => m !! key_of id name = None
    end.
Proof.
  intros (l & Hl & Hm). destruct (usm_get_user_spec h hd l id name false None Hl) as [Hf Hn].
  destruct (m !! key_of id name) as [u|] eqn:E.
  - apply Hm in E as (p & Hp & Hu & Hk). exists (Some p). split; [|by exists u].
    apply Hf; [done|]. by rewrite (pkey_ukey h p u).
  - exists None. split; [|done]. apply Hn. intros p Hp Hk.
    destruct (list_user h hd l p Hl Hp) as [u Hu]. rewrite (pkey_ukey h p u Hu) in Hk.
    assert (m !! key_of id name = Some u); [|congruence]. apply Hm. by exists p.
Qed.

(** Allocating a node leaves a list alone that does not use it. *)
Lemma user_list_alloc h hd l p n :
  user_list h hd l → h !! p = None → p ∉ l ∧ user_list (<[p := n]> h) hd l.
Proof.
  intros (Hnd & Hd & Hhd & Hn & Hs) Hp.
  assert (p ∉ l) as Hni by (intros Hin; destruct (dseg_lookup _ _ _ _ _ Hd Hin); congruence).
  assert (∀ q, q ∈ l → <[p := n]> h !! q = h !! q) as Hf
    by (intros q Hq; apply lookup_insert_ne; by intros ->).
  split; [done|]. split_and!; [done|by eapply dseg_frame|done|..].
  - intros q m Hq. rewrite Hf by done. by apply Hn.
  - eapply sorted_keys; [|done]. intros q Hq. apply pkey_user. by rewrite Hf.
Qed.

Lemma add_user_map h hd m u :
  holds_users h hd m → named u →
  ∃ h' hd', ustep h hd (AddUser u) = Ok (h', hd', None) ∧ holds_users h' hd' (<[ukey u := u]> m).
Proof.
  intros (l & Hl & Hm) Hu. cbn [ustep]. set (p := fresh (dom h)).
  assert (h !! p = None) as Hp by (apply not_elem_of_dom, is_fresh).
  destruct (user_list_alloc h hd l p (UNode u None None) Hl Hp) as [Hni Hl1].
  set (h1 := <[p := _]> h) in *.
  assert (un_user <$> h1 !! p = Some u) as Hpu by (unfold h1; by rewrite lookup_insert_eq).
  assert (∀ q, q ∈ l → h1 !! q = h !! q) as Hf
    by (intros q Hq; unfold h1; apply lookup_insert_ne; by intros ->).
  destruct (usm_add_user_to_list_spec h1 hd l p (UNode u None None) Hl1 Hni) as (h' & q & l' & HE & Hl' & Ha1 & Ha2);
    [unfold h1; by rewrite lookup_insert_eq|done|].
  unfold usm_add_user. rewrite HE. m_step. exists h', (Some q). split; [done|]. exists l'. split; [done|].
  cbn [un_user] in Ha1. intros k v.
  assert (∀ x, x ∈ l → pkey h1 x ≠ ukey u → ∃ w, un_user <$> h1 !! x = Some w ∧ un_user <$> h !! x = Some w
            ∧ ukey w ≠ ukey u) as Hx.
  { intros x Hx Hk. destruct (list_user h hd l x Hl Hx) as [w Hw]. exists w. rewrite Hf by done.
    split_and!; [done|done|]. intros E. apply Hk. rewrite <- E. apply pkey_ukey. by rewrite Hf. }
  destruct (decide (k = ukey u)) as [->|Hk].
  - rewrite lookup_insert_eq. split.
    + intros [= <-]. exists p. split; [apply Ha1; by left|]. rewrite Ha2 by (apply Ha1; by left). done.
    + intros (x & Hin & Hv & Hkv). rewrite Ha2 in Hv by done. apply Ha1 in Hin as [->|[Hin Hne]]; [congruence|].
      destruct (Hx x Hin Hne) as (w & Hw & _ & Hwne). congruence.
  - rewrite lookup_insert_ne, Hm by done. split.
    + intros (x & Hin & Hv & Hkv). assert (x ∈ l') as Hin'.
      { apply Ha1. right. split; [done|]. rewrite (pkey_ukey h1 x v) by (by rewrite Hf). congruence. }
      exists x. split_and!; [done| |done]. by rewrite Ha2, Hf.
    + intros (x & Hin & Hv & Hkv). rewrite Ha2 in Hv by done. apply Ha1 in Hin as [->|[Hin Hne]]; [congruence|].
      exists x. split_and!; [done| |done]. by rewrite <- Hf.
Qed.

Lemma remove_user_map h hd m id name :
  holds_users h hd m →
  ∃ h' hd', ustep h hd (RemoveUser id name) = Ok (h', hd', None) ∧
    holds_users h' hd' (delete (key_of id name) m).
Proof.
  intros HH. destruct (get_user_map h hd m id name HH) as (r & HE & Hr). cbn [ustep]. rewrite HE. m_step.
  destruct r as [p|]; [|exists h, hd; split; [done|]; by rewrite delete_id].
  destruct Hr as (u & Hmu & Hpu). destruct HH as (l & Hl & Hm).
  apply Hm in Hmu as (p' & Hp' & Hpu' & Hk).
  assert (p ∈ l) as Hp.
  { destruct (usm_get_user_spec h hd l id name false None Hl) as [Hf _].
    assert (Ok (Some p') = Ok (Some p)) as [= <-]; [|done]. rewrite <- HE. symmetry. apply Hf; [done|].
    by rewrite (pkey_ukey h p' u). }
  destruct (proj2 (usm_remove_user_spec h hd l p Hl) Hp) as (h' & hd' & l' & -> & Hl' & Hin & Hkeep). m_step.
  exists h', hd'. split; [done|]. exists l'. split; [done|]. intros k v.
  assert (∀ x w, x ∈ l → un_user <$> h !! x = Some w → ukey w = key_of id name → x = p) as Huniq.
  { intros x w Hx Hw Hkw. destruct Hl as (_ & _ & _ & _ & Hs). apply (users_sorted_unique h l x p Hs Hx Hp).
    rewrite (pkey_ukey h x w Hw), (pkey_ukey h p u Hpu). congruence. }
  destruct (decide (k = key_of id name)) as [->|Hne].
  - rewrite lookup_delete_eq. split; [done|]. intros (x & Hx & Hv & Hkv). apply Hin in Hx as [Hx Hxp].
    rewrite Hkeep in Hv. by destruct Hxp; eapply Huniq.
  - rewrite lookup_delete_ne, Hm by done. split.
    + intros (x & Hx & Hv & Hkv). exists x. split_and!; [|by rewrite Hkeep|done]. apply Hin. split; [done|].
      intros ->. congruence.
    + intros (x & Hx & Hv & Hkv). apply Hin in Hx as [Hx _]. exists x. by rewrite <- Hkeep.
Qed.

(** ** Properties *)

(** C25: from an empty list, any sequence of added, removed and looked up users, each with an
    engine identifier and a name, behaves as a finite map keyed by engine identifier and
    name as a C string: a user that is added replaces the one with the same key. *)
Theorem users_refine_map ops :
  (∀ u, AddUser u ∈ ops → named u) → urun ∅ None ops = Ok (umap_run ∅ ops).
Proof.
  assert (holds_users ∅ None ∅) as H0.
  { exists []. split; [|intros k u; rewrite lookup_empty; set_solver].
    split_and!; [constructor|done|done|intros ??; set_solver|constructor]. }
  revert H0. generalize (∅ : gmap (list Z) usmUser), (∅ : uheap), (None : option nat).
  induction ops as [|op ops IH]; intros m h hd HH Hn; [done|]. cbn [urun umap_run].
  assert (∃ h' hd', ustep h hd op = Ok (h', hd', (umap_step m op).2) ∧
    holds_users h' hd' (umap_step m op).1) as (h' & hd' & -> & HH').
  { destruct op as [u|id name|id name]; cbn [umap_step fst snd].
    - apply add_user_map; [done|]. apply Hn. set_solver.
    - by apply remove_user_map.
    - destruct (get_user_map h hd m id name HH) as (r & HE & Hr). exists h, hd. split; [|done].
      cbn [ustep]. rewrite HE. m_step. destruct r as [p|]; [|by rewrite Hr].
      destruct Hr as (u & -> & Hu). unfold node. destruct (h !! p) as [n|]; [|done]. m_step.
      cbn in Hu. by injection Hu as ->. }
  m_step. destruct (umap_step m op) as [m' r]. cbn [fst snd] in *. rewrite (IH m' h' hd'); [done|done|].
  intros u Hu. apply Hn. set_solver.
Qed.

(** C26: usm_add_user keeps the list of users linked in both directions, free of duplicates and
    sorted by engine identifier and name; the user takes the place of the one with the same
    key, and every other user stays with its contents. *)
Theorem usm_add_user_invariant h hd l user nu :
  user_list h hd l → user ∉ l → h !! user = Some nu → named (un_user nu) →
  ∃ h' hd' l', usm_add_user h hd user = Ok (h', hd') ∧ user_list h' hd' l' ∧
    added h h' l l' user (un_user nu).
Proof.
  intros Hl Hni Hu Hn.
  destruct (usm_add_user_to_list_spec h hd l user nu Hl Hni Hu Hn) as (h' & p & l' & HE & HR).
  exists h', (Some p), l'. unfold usm_add_user. by rewrite HE.
Qed.

Definition a_user (id name key : list Z) : usmUser :=
  UsmUser (Some id) (Some name) (Some name) None (Some usmHMACMD5AuthProtocol) (Some key)
    (Some usmNoPrivProtocol) None None RS_ACTIVE ST_NONVOLATILE.

Lemma users_refine_map_witness :
  urun ∅ None
    [AddUser (a_user [9; 9] [98] [1]); AddUser (a_user [9] [99; 99] [2]); AddUser (a_user [9; 9] [97] [3]);
     AddUser (a_user [9; 9] [98] [4]); FindUser [9; 9] [98]; RemoveUser [9] [99; 99]; FindUser [9] [99; 99]]
  = Ok [None; None; None; None; Some (Some (a_user [9; 9] [98] [4])); None; Some None].
Proof.
  etransitivity; [apply users_refine_map|by vm_compute].
  intros u. rewrite !elem_of_cons, elem_of_nil. intros Hu.
  destruct_or!; try done; injection Hu as ->; split; by eexists.
Defined.

Lemma usm_add_user_invariant_witness :
  ∃ h' hd' l',
    usm_add_user (<[2%nat := UNode (a_user [9] [97] [2]) None None]>
                    {[ 1%nat := UNode (a_user [9] [98] [1]) None None ]}) (Some 1%nat) 2 = Ok (h', hd') ∧
    user_list h' hd' l' ∧ (2%nat ∈ l' ∧ 1%nat ∈ l').
Proof.
  destruct (usm_add_user_invariant
    (<[2%nat := UNode (a_user [9] [97] [2]) None None]> {[ 1%nat := UNode (a_user [9] [98] [1]) None None ]})
    (Some 1%nat) [1%nat] 2 (UNode (a_user [9] [97] [2]) None None)) as (h' & hd' & l' & HE & Hl & Ha & _).
  - split_and!; [by apply NoDup_singleton| |done|..].
    + cbn [dseg]. split; [|done]. by exists (a_user [9] [98] [1]).
    + intros p n ->%list_elem_of_singleton [= <-]. split; by eexists.
    + repeat constructor.
  - set_solver.
  - done.
  - split; by eexists.
  - exists h', hd', l'. split; [exact HE|]. split; [exact Hl|]. split; apply Ha; [by left|].
    right. split; [set_solver|]. by vm_compute.
Defined.
