(* ===== verification/UsmMsg.v ===== *)
(** * Messages of the user-based security model: snmplib/snmpusm.c

    Models the security model that snmpv3_build and snmpv3_parse call:
    usm_rgenerate_out_msg, which encrypts the scoped PDU, writes the security
    parameters and the header in front of it and signs the message;
    usm_process_in_msg with usm_parse_security_parameters, which does the reverse;
    the salts; and the window of time in which messages are accepted.

    The state is the users, the table of engine times and the counters for salts.
    Cryptography is that of Scapi.  The local engine's identifier, boots and time come
    from snmpv3.c and are an environment.  Statistics and the size of the
    largest response are left out. *)

From S2P Require Import Prelude Ber Asn1 Asn1Int Asn1Str Asn1Rbuild VarBind Pdu PduRbuild PduParse.
From S2P Require Import PduRoundtrip Message Session OidCompare Scapi LcdTime V3 Usm.
From stdpp Require Import prelude numbers list gmap.
From Stdlib Require Import ZArith Lia.
Open Scope Z_scope.

Definition SNMPERR_USM_GENERICERROR : Z := -42.
Definition SNMPERR_USM_UNKNOWNSECURITYNAME : Z := -43.
Definition SNMPERR_USM_UNSUPPORTEDSECURITYLEVEL : Z := -44.
Definition SNMPERR_USM_ENCRYPTIONERROR : Z := -45.
Definition SNMPERR_USM_AUTHENTICATIONFAILURE : Z := -46.
Definition SNMPERR_USM_PARSEERROR : Z := -47.
Definition SNMPERR_USM_UNKNOWNENGINEID : Z := -48.
Definition SNMPERR_USM_NOTINTIMEWINDOW : Z := -49.
Definition SNMPERR_USM_DECRYPTIONERROR : Z := -50.
Definition USM_MAX_ID_LENGTH : Z := 1024.
Definition USM_MAX_SALT_LENGTH : Z := 128.
Definition USM_DES_SALT_LENGTH : Z := 64.
Definition USM_AES_SALT_LENGTH : Z := 128.
Definition USM_MAX_KEYEDHASH_LENGTH : Z := 128.
Definition USM_TIME_WINDOW : Z := 150.
Definition SNMP_SESS_AUTHORITATIVE : Z := 1.
Definition SNMP_SESS_UNKNOWNAUTH : Z := 2.

(** ** State *)

(** The static variables of snmpusm.c and the table of lcd_time.c. *)
Record usm := Usm {
  us_heap : uheap;
  us_userList : option nat;
  us_noNameUser : option nat;
  us_etimes : etimelist;
  us_salt_integer : Z;
  us_salt_integer64_1 : Z;
  us_salt_integer64_2 : Z;
}.

Definition set_etimes (s : usm) (t : etimelist) : usm :=
  Usm (us_heap s) (us_userList s) (us_noNameUser s) t (us_salt_integer s)
    (us_salt_integer64_1 s) (us_salt_integer64_2 s).

(** snmpv3_get_engineID, snmpv3_local_snmpEngineBoots and snmpv3_local_snmpEngineTime. *)
Record local_engine := LocalEngine {
  le_engineID : list Z;
  le_boots : Z;
  le_time : Z;
}.

(** [usm_get_user] *)
Definition usm_get_user (s : usm) (engineID name : option (list Z)) : M (option nat) :=
  usm_get_user_from_list (us_heap s) engineID name (us_userList s) true (us_noNameUser s).

(** The octets of an int in network byte order. *)
Definition net_order (z : Z) : list Z := be_bytes 4 (u32 z).

(** ** Salts *)

(** Returns the initialisation vector, the salt for the message and the new counter.
    [priv_salt] is the key from its ninth octet on, with a length that wraps. *)
Definition usm_set_salt (s : usm) (le : local_engine) (privKey : list Z)
    : M (option (list Z * list Z * usm)) :=
  let priv_salt_length := u32 (zlen privKey - 8) in
  if priv_salt_length <? BYTESIZE USM_DES_SALT_LENGTH then Ok None
  else
    let salt := net_order (le_boots le) ++ net_order (us_salt_integer s) in
    priv_salt ← rd_list privKey 8 8;
    Ok (Some (xor_octets salt priv_salt, salt,
              Usm (us_heap s) (us_userList s) (us_noNameUser s) (us_etimes s)
                (u32 (us_salt_integer s + 1)) (us_salt_integer64_1 s) (us_salt_integer64_2 s))).

Definition usm_set_aes_iv (s : usm) (boots time : Z) : list Z * list Z * usm :=
  let salt := net_order (us_salt_integer64_1 s) ++ net_order (us_salt_integer64_2 s) in
  let next := u32 (us_salt_integer64_2 s + 1) in
  (net_order boots ++ net_order time ++ salt, salt,
   Usm (us_heap s) (us_userList s) (us_noNameUser s) (us_etimes s) (us_salt_integer s)
     (us_salt_integer64_1 s) (if next =? 0 then u32 (next + 1) else next)).

(** ** Sending *)

(** The local variables [the...]. *)
Record credentials := Credentials {
  theName : option (list Z);
  theEngineID : option (list Z);
  theAuthProtocol : option (list Z);
  theAuthKey : option (list Z);
  thePrivProtocol : option (list Z);
  thePrivKey : option (list Z);
  theSecLevel : Z;
}.

(** From the state of a request, or from the user list; [None] if the user is unknown. *)
Definition choose_credentials (s : usm) (secEngineID secName : option (list Z)) (secLevel : Z)
    (secStateRef : option usmStateReference) : M (option credentials) :=
  match secStateRef with
  | Some ref =>
      let id := if zlen (default [] (usr_engine_id ref)) =? 0 then secEngineID else usr_engine_id ref in
      Ok (Some (Credentials (usr_name ref) id (usr_auth_protocol ref) (usr_auth_key ref)
                  (usr_priv_protocol ref) (usr_priv_key ref) (usr_sec_level ref)))
  | None =>
      user ← usm_get_user s secEngineID secName;
      match user with
      | Some p =>
          n ← node (us_heap s) p;
          let u := un_user n in
          Ok (Some (Credentials secName secEngineID (u_authProtocol u) (u_authKey u)
                      (u_privProtocol u) (u_privKey u) secLevel))
      | None =>
          Ok (if negb (secLevel =? SNMP_SEC_LEVEL_NOAUTH) then None
              else Some (Credentials secName secEngineID (Some usmNoAuthProtocol) None
                           (Some usmNoPrivProtocol) None secLevel))
      end
  end.

(** [theSecLevel] is one with authentication. *)
Definition is_auth (level : Z) : bool :=
  (level =? SNMP_SEC_LEVEL_AUTHNOPRIV) || (level =? SNMP_SEC_LEVEL_AUTHPRIV).

(** [if (rc == 0) return code]: a C function returns 0 with results, or an error code. *)
Definition or_code {A B} (m : M A) (code : Z) (k : A → M (Z + B)) : M (Z + B) :=
  match m with Ok a => k a | Err => Ok (inl code) | UB => UB end.

Section Sending.
Context `{Crypto} `{alloc : Allocator}.
Variable malloc_ok : Z → bool.
Variable le : local_engine.

(** The initialisation vector and the salt for the user's privacy protocol; [None] is
    SNMPERR_USM_GENERICERROR. *)
Definition choose_salt (s : usm) (c : credentials) (boots time : Z)
    : M (option (list Z * list Z) * usm) :=
  match thePrivProtocol c with
  | None => UB
  | Some proto =>
      aes ← ISTRANSFORM proto usmAESPrivProtocol;
      des ← ISTRANSFORM proto usmDESPrivProtocol;
      if (aes : bool) then
        match thePrivKey c with
        | None => Ok (None, s)
        | Some _ => let '(iv, salt, s) := usm_set_aes_iv s boots time in Ok (Some (iv, salt), s)
        end
      else if (des : bool) then
        match thePrivKey c with
        | None => Ok (None, s)
        | Some key =>
            x ← usm_set_salt s le key;
            Ok (match x with Some (iv, salt, s) => (Some (iv, salt), s) | None => (None, s) end)
        end
      else Ok (Some ([], []), s)
  end.

(** Encrypts the scoped PDU [plain] and writes it to an empty packet.  The results are
    the packet and the salt. *)
Definition encrypt_scoped (s : usm) (c : credentials) (boots time : Z) (plain : list Z) (r : rstate)
    : M ((Z + rstate * list Z) * usm) :=
  if negb (malloc_ok (zlen plain + 64)) then Ok (inl SNMPERR_MALLOC, s)
  else
    '(x, s) ← choose_salt s c boots time;
    match x with
    | None => Ok (inl SNMPERR_USM_GENERICERROR, s)
    | Some (iv, salt) =>
        e ← or_code (sc_encrypt (thePrivProtocol c) (thePrivKey c) iv plain (zlen plain + 64))
              SNMPERR_USM_ENCRYPTIONERROR (λ ciphertext,
            or_code (asn_realloc_rbuild_string true ASN_OCTET_STR ciphertext (zlen ciphertext)
                       (RState (pkt r) 0))
              SNMPERR_USM_ENCRYPTIONERROR (λ r, Ok (inr (r, salt))));
        Ok (e, s)
    end.

(** The security parameters, from the privacy parameters in front of the message data
    to the header of the octet string around them.  Also returns [mac_offset]. *)
Definition rbuild_params (c : credentials) (boots time : Z) (salt : list Z) (r : rstate)
    : M (rstate * nat) :=
  let sp_offset := offset r in
  r ← asn_realloc_rbuild_string true ASN_OCTET_STR salt (zlen salt) r;
  let authParams := if is_auth (theSecLevel c) then replicate 12 0 else [] in
  r ← asn_realloc_rbuild_string true ASN_OCTET_STR authParams (zlen authParams) r;
  let mac_offset := (offset r - 2)%nat in
  let name := default [] (theName c) in
  r ← asn_realloc_rbuild_string true ASN_OCTET_STR name (zlen name) r;
  r ← asn_realloc_rbuild_int true ASN_INTEGER (s32 time) SIZEOF_LONG r;
  r ← asn_realloc_rbuild_int true ASN_INTEGER (s32 boots) SIZEOF_LONG r;
  let id := default [] (theEngineID c) in
  r ← asn_realloc_rbuild_string true ASN_OCTET_STR id (zlen id) r;
  r ← asn_realloc_rbuild_sequence true (Z.lor ASN_SEQUENCE ASN_CONSTRUCTOR) (since sp_offset r) r;
  r ← asn_realloc_rbuild_header true ASN_OCTET_STR (since sp_offset r) r;
  Ok (r, mac_offset).

(** The header of the message and the sequence around everything. *)
Definition rbuild_whole (globalData : list Z) (r : rstate) : M rstate :=
  r ← need true (zlen globalData) r;
  r ← push_block globalData r;
  asn_realloc_rbuild_sequence true (Z.lor ASN_SEQUENCE ASN_CONSTRUCTOR) (since 0 r) r.

(** The keyed hash over the message, stored over the zeros of the authentication
    parameters. *)
Definition sign (c : credentials) (mac_offset : nat) (r : rstate) : M (Z + rstate) :=
  if is_auth (theSecLevel c) then
    if negb (malloc_ok USM_MD5_AND_SHA_AUTH_LEN) then Ok (inl SNMPERR_USM_GENERICERROR)
    else
      proto_msg ← rd_list (pkt r) (length (pkt r) - offset r) (offset r);
      or_code (sc_generate_keyed_hash (theAuthProtocol c) (theAuthKey c) proto_msg
                 USM_MD5_AND_SHA_AUTH_LEN) SNMPERR_USM_AUTHENTICATIONFAILURE (λ temp_sig,
      if negb (zlen temp_sig =? USM_MD5_AND_SHA_AUTH_LEN)
      then Ok (inl SNMPERR_USM_AUTHENTICATIONFAILURE)
      else
        p ← wr_list (pkt r) (length (pkt r) - mac_offset) temp_sig;
        Ok (inr (RState p (offset r))))
  else Ok (inr r).

(** Everything in front of the message data, and the signature. *)
Definition rbuild_around (c : credentials) (boots time : Z) (globalData salt : list Z) (r : rstate)
    : M (Z + rstate) :=
  or_code (rbuild_params c boots time salt r) SNMPERR_TOO_LONG (λ '(r, mac_offset),
  or_code (rbuild_whole globalData r) SNMPERR_TOO_LONG (λ r, sign c mac_offset r)).

(** Returns the packet or an error code, and the state. *)
Definition usm_rgenerate_out_msg (s : usm) (globalData : list Z) (secEngineID secName : option (list Z))
    (secLevel : Z) (scopedPduLen : Z) (secStateRef : option usmStateReference) (r : rstate)
    : M ((Z + rstate) * usm) :=
  c ← choose_credentials s secEngineID secName secLevel secStateRef;
  match c with
  | None => Ok (inl SNMPERR_USM_UNKNOWNSECURITYNAME, s)
  | Some c =>
      bad ← usm_check_secLevel_vs_protocols (theSecLevel c) (theAuthProtocol c) (thePrivProtocol c);
      if bad =? 1 then Ok (inl SNMPERR_USM_UNSUPPORTEDSECURITYLEVEL, s)
      else
        '(_, (boots, time)) ← get_enginetime (us_etimes s) (le_time le) (default [] (theEngineID c)) false;
        plain ← rd_list (pkt r) (length (pkt r) - offset r) (Z.to_nat scopedPduLen);
        '(e, s) ← (if theSecLevel c =? SNMP_SEC_LEVEL_AUTHPRIV
                   then encrypt_scoped s c boots time plain r else Ok (inr (r, []), s));
        x ← (match e with
             | inl code => Ok (inl code)
             | inr (r, salt) => rbuild_around c boots time globalData salt r
             end);
        Ok (x, s)
  end.
End Sending.

(** ** Receiving *)

(** What [usm_parse_security_parameters] stores, with the message it has blanked the
    signature in. *)
Record sec_params := SecParams {
  sp_engineID : list Z;
  sp_boots : Z;
  sp_time : Z;
  sp_name : list Z;
  sp_signature : list Z;
  sp_salt : list Z;
  sp_data : nat;
  sp_buf : list Z;
}.

Notation seq_type := (Z.lor ASN_SEQUENCE ASN_CONSTRUCTOR).

(** [memset(next_ptr - signature_length, 0, signature_length)] *)
Definition blank_signature (buf : list Z) (next n : nat) : M (list Z) :=
  if (n =? 0)%nat then Ok buf
  else if (next <? n)%nat then UB else wr_list buf (next - n) (replicate n 0).

(** The buffers are arrays of [secEngineIDLen] and [secNameLen] octets of the caller
    and two arrays of 16 octets. *)
Definition usm_parse_security_parameters (buf : list Z) (secParams : nat) (remaining : Z)
    (secEngineIDLen secNameLen signature_length salt_length : Z) : M (Z + sec_params) :=
  let array n := replicate (Z.to_nat n) 0 in
  let bad_type t := negb (t =? ASN_OCTET_STR) in
  or_code (asn_parse_sequence buf (Some secParams) remaining ASN_OCTET_STR) (-1)
    (λ '(p, octet_string_length, _),
  or_code (asn_parse_sequence buf (Some p) octet_string_length seq_type) (-1)
    (λ '(p, rest, _),
  or_code (asn_parse_string buf p rest (array secEngineIDLen) secEngineIDLen) (-1)
    (λ '(p, rest, t, (id, id_len)),
  if bad_type t then Ok (inl (-1)) else
  or_code (asn_parse_int buf p rest SIZEOF_LONG) (-1) (λ '(p, rest, t, boots_long),
  if negb (t =? ASN_INTEGER) then Ok (inl (-1)) else
  or_code (asn_parse_int buf p rest SIZEOF_LONG) (-1) (λ '(p, rest, t, time_long),
  if negb (t =? ASN_INTEGER) then Ok (inl (-1)) else
  let boots := u32 boots_long in
  let time := u32 time_long in
  if (ENGINEBOOT_MAX <? boots) || (ENGINETIME_MAX <? time) then Ok (inl (-1)) else
  or_code (asn_parse_string buf p rest (array secNameLen) secNameLen) (-1)
    (λ '(p, rest, t, (name, name_len)),
  if (secNameLen <? u32 (name_len + 1)) || (32 <? name_len) then Ok (inl (-1)) else
  if bad_type t then Ok (inl (-1)) else
  or_code (asn_parse_string buf p rest (array signature_length) signature_length) (-1)
    (λ '(p, rest, t, (sig, sig_len)),
  if bad_type t then Ok (inl (-1)) else
  buf ← blank_signature buf p (Z.to_nat sig_len);
  or_code (asn_parse_string buf p rest (array salt_length) salt_length) (-2)
    (λ '(p, rest, t, (salt, salt_len)),
  if bad_type t then Ok (inl (-2)) else
  Ok (inr (SecParams (take (Z.to_nat id_len) id) boots time (take (Z.to_nat name_len) name)
             (take (Z.to_nat sig_len) sig) (take (Z.to_nat salt_len) salt) p buf)))))))))).

Section Receiving.
Context `{Crypto}.
Variable malloc_ok : Z → bool.
Variable le : local_engine.

(** Returns [*error], 0 for success, and the table. *)
Definition usm_check_and_update_timeliness (t : etimelist) (secEngineID : list Z)
    (boots_uint time_uint : Z) : M (Z * etimelist) :=
  let myID := le_engineID le in
  if (USM_MAX_ID_LENGTH <? zlen myID) || (zlen myID =? 0) then Ok (SNMPERR_USM_GENERICERROR, t)
  else
    let difference a b := if b <? a then a - b else b - a in
    if bool_decide (secEngineID = myID) then
      let time_difference := difference (le_time le) time_uint in
      if (boots_uint =? ENGINEBOOT_MAX) || negb (boots_uint =? le_boots le)
         || (USM_TIME_WINDOW <? time_difference)
      then Ok (SNMPERR_USM_NOTINTIMEWINDOW, t) else Ok (0, t)
    else
      '(ok, (theirBoots, theirTime, theirLastTime)) ←
        get_enginetime_ex t (le_time le) secEngineID true;
      if negb (ok : bool) then Ok (SNMPERR_USM_GENERICERROR, t)
      else
        let time_difference := difference theirTime time_uint in
        if (theirBoots =? ENGINEBOOT_MAX) || (boots_uint <? theirBoots)
        then Ok (SNMPERR_USM_NOTINTIMEWINDOW, t)
        else if (theirBoots =? boots_uint) && (time_uint <? theirLastTime) then
          Ok (if USM_TIME_WINDOW <? time_difference then SNMPERR_USM_NOTINTIMEWINDOW else 0, t)
        else
          '(ok, t) ← set_enginetime malloc_ok t (le_time le) secEngineID boots_uint time_uint true;
          Ok (if (ok : bool) then 0 else SNMPERR_USM_GENERICERROR, t).

(** The time of an unauthenticated message is only kept as a guess. *)
Definition check_time (t : etimelist) (secLevel : Z) (secEngineID : list Z) (boots_uint time_uint : Z)
    : M (Z * etimelist) :=
  if is_auth secLevel then usm_check_and_update_timeliness t secEngineID boots_uint time_uint
  else
    '(_, t) ← set_enginetime malloc_ok t (le_time le) secEngineID boots_uint time_uint false;
    Ok (0, t).

(** A session that is not authoritative may have the user without a name. *)
Definition use_default (isAuthoritative : option Z) : bool :=
  match isAuthoritative with
  | Some a => negb (a =? SNMP_SESS_AUTHORITATIVE)
  | None => false
  end.

(** The test or the creation of the engine's record; [isAuthoritative] is that of the
    session, if there is one. *)
Definition locate_engine (t : etimelist) (isAuthoritative : option Z) (msg_flags : Z) (id : list Z)
    : M (Z * etimelist) :=
  let report := negb (Z.land msg_flags SNMP_MSG_FLAG_RPRT_BIT =? 0) in
  let must_know := match isAuthoritative with
                   | Some a => (a =? SNMP_SESS_AUTHORITATIVE) || ((a =? SNMP_SESS_UNKNOWNAUTH) && report)
                   | None => report
                   end in
  if must_know then
    known ← ISENGINEKNOWN t (le_time le) id;
    Ok (if (known : bool) then 0 else SNMPERR_USM_UNKNOWNENGINEID, t)
  else
    '(ok, t) ← ENSURE_ENGINE_RECORD malloc_ok t (le_time le) id;
    Ok (if (ok : bool) then 0 else SNMPERR_USM_GENERICERROR, t).

(** The plaintext of the encrypted scoped PDU at [data]. *)
Definition decrypt_scoped (user : usmUser) (p : sec_params) (data_len : Z) (room : option (list Z))
    (room_len : Z) : M (Z + list Z) :=
  match asn_parse_sequence (sp_buf p) (Some (sp_data p)) data_len ASN_OCTET_STR with
  | UB => UB
  | Err => Ok (inl SNMPERR_USM_PARSEERROR)
  | Ok (value_ptr, remaining, _) =>
      match u_privProtocol user with
      | None => UB
      | Some proto =>
          des ← ISTRANSFORM proto usmDESPrivProtocol;
          aes ← ISTRANSFORM proto usmAESPrivProtocol;
          if des && negb (remaining mod 8 =? 0) then Ok (inl SNMPERR_USM_DECRYPTIONERROR)
          else
            iv ← (if (des : bool) then
                    match u_privKey user with
                    | None => UB
                    | Some key => k ← rd_list key 8 8; Ok (xor_octets (sp_salt p) k)
                    end
                  else if (aes : bool) then Ok (net_order (sp_boots p) ++ net_order (sp_time p) ++ sp_salt p)
                  else Ok (replicate 16 0));
            ciphertext ← rd_list (sp_buf p) value_ptr (Z.to_nat remaining);
            match (match room with
                   | None => Err
                   | Some _ => sc_decrypt (u_privProtocol user) (u_privKey user) iv ciphertext room_len
                   end) with
            | UB => UB
            | Err => Ok (inl SNMPERR_USM_DECRYPTIONERROR)
            | Ok plaintext => Ok (inr plaintext)
            end
      end
  end.

(** Name, engine identifier and level of the message for its response. *)
Definition cache_names (ref : usmStateReference) (p : sec_params) (secLevel : Z)
    : M usmStateReference :=
  ref ← usm_set_usmStateReference_name malloc_ok ref (Some (sp_name p));
  ref ← usm_set_usmStateReference_engine_id malloc_ok ref (Some (sp_engineID p));
  usm_set_usmStateReference_sec_level ref secLevel.

(** The user's protocols and keys for the response. *)
Definition cache_keys (ref : usmStateReference) (u : usmUser) : M usmStateReference :=
  ref ← usm_set_usmStateReference_auth_protocol malloc_ok ref (u_authProtocol u);
  ref ← usm_set_usmStateReference_auth_key malloc_ok ref (u_authKey u);
  ref ← usm_set_usmStateReference_priv_protocol malloc_ok ref (u_privProtocol u);
  usm_set_usmStateReference_priv_key malloc_ok ref (u_privKey u).

(** A refused message: the return value and what [*scopedPdu] and [*scopedPduLen] were left
    with.  It has no state reference here. *)
Definition refuse (code : Z) (scoped : option (list Z * nat)) (len : Z) (s : usm)
    : M (decode_result * option usmStateReference * usm) :=
  Ok (Decoded code [] [] scoped len, None, s).

(** [usm_process_in_msg] behind the check of the user's signature: the keys are cached, the
    time is checked and the scoped PDU decrypted. *)
Definition accept_message (s : usm) (i : incoming) (ref : usmStateReference) (p : sec_params)
    (user : usmUser) (data_len : Z) (scoped : option (list Z * nat)) (len : Z)
    : M (decode_result * option usmStateReference * usm) :=
  match cache_keys ref user with
  | UB => UB
  | Err => refuse SNMPERR_USM_GENERICERROR scoped len s
  | Ok ref =>
      '(code, t) ← check_time (us_etimes s) (i_secLevel i) (sp_engineID p) (sp_boots p) (sp_time p);
      let s := set_etimes s t in
      let accept scoped len := Ok (Decoded 0 (sp_engineID p) (sp_name p) scoped len, Some ref, s) in
      if negb (code =? 0) then refuse code scoped len s
      else if i_secLevel i =? SNMP_SEC_LEVEL_AUTHPRIV then
        plain ← decrypt_scoped user p data_len (i_scopedPdu i) (i_scopedPduLen i);
        match plain with
        | inl code => refuse code scoped len s
        | inr plain =>
            room ← wr_list (default [] (i_scopedPdu i)) 0 plain;
            accept (Some (room, 0%nat)) (zlen plain)
        end
      else accept scoped len
  end.

(** [usm_process_in_msg] behind the parser: the engine, the user, the level and the
    signature. *)
Definition process_params (s : usm) (isAuthoritative : option Z) (i : incoming)
    (ref : usmStateReference) (p : sec_params) : M (decode_result * option usmStateReference * usm) :=
  let level := i_secLevel i in
  let priv := level =? SNMP_SEC_LEVEL_AUTHPRIV in
  let room := (λ b, (b, 0%nat)) <$> i_scopedPdu i in
  let data_len := u32 (i_wholeMsgLen i - (Z.of_nat (sp_data p) - Z.of_nat (i_msg i))) in
  if priv && negb (zlen (sp_salt p) =? 8)
  then refuse SNMPERR_USM_DECRYPTIONERROR room (i_scopedPduLen i) s
  else
    let scoped := if priv then room else Some (sp_buf p, sp_data p) in
    let len := if priv then i_scopedPduLen i else data_len in
    match cache_names ref p level with
    | UB => UB
    | Err => refuse SNMPERR_USM_GENERICERROR scoped len s
    | Ok ref =>
        '(code, t) ← locate_engine (us_etimes s) isAuthoritative (i_msg_flags i) (sp_engineID p);
        let s := set_etimes s t in
        if negb (code =? 0) then refuse code scoped len s
        else
          user ← usm_get_user_from_list (us_heap s) (Some (sp_engineID p)) (Some (sp_name p))
                   (us_userList s) (use_default isAuthoritative) (us_noNameUser s);
          match user with
          | None => refuse SNMPERR_USM_UNKNOWNSECURITYNAME scoped len s
          | Some ptr =>
              n ← node (us_heap s) ptr;
              let user := un_user n in
              unsupported ← usm_check_secLevel level user;
              if unsupported =? 1 then refuse SNMPERR_USM_UNSUPPORTEDSECURITYLEVEL scoped len s
              else
                match (if is_auth level then
                         message ← rd_list (sp_buf p) (i_msg i) (Z.to_nat (i_wholeMsgLen i));
                         sc_check_keyed_hash (u_authProtocol user) (u_authKey user) message
                           (sp_signature p)
                       else Ok ()) with
                | UB => UB
                | Err => refuse SNMPERR_USM_AUTHENTICATIONFAILURE scoped len s
                | Ok _ => accept_message s i ref p user data_len scoped len
                end
          end
    end.

(** For a message that [snmpv3_parse] passes on, with room for an engine identifier of 64
    and a name of 256 octets and a place for the state reference.  Two octets are subtracted
    where the pointers to them are meant. *)
Definition usm_process_in_msg (s : usm) (isAuthoritative : option Z) (i : incoming)
    : M (decode_result * option usmStateReference * usm) :=
  let buf := i_wholeMsg i in
  let room := (λ b, (b, 0%nat)) <$> i_scopedPdu i in
  b1 ← rd buf (i_secParams i);
  b2 ← rd buf (i_msg i);
  let remaining := u32 (i_wholeMsgLen i - u32 (b1 - b2)) in
  match usm_malloc_usmStateReference malloc_ok with
  | None => refuse SNMPERR_USM_GENERICERROR room (i_scopedPduLen i) s
  | Some ref =>
      params ← usm_parse_security_parameters buf (i_secParams i) remaining
                 (SNMP_MAX_ENG_SIZE * 2) SNMP_MAX_SEC_NAME_SIZE
                 (BYTESIZE USM_MAX_KEYEDHASH_LENGTH) (BYTESIZE USM_MAX_SALT_LENGTH);
      match params with
      | inl rc =>
          refuse (if rc =? -2 then SNMPERR_USM_DECRYPTIONERROR else SNMPERR_USM_PARSEERROR)
            room (i_scopedPduLen i) s
      | inr p => process_params s isAuthoritative i ref p
      end
  end.
End Receiving.

(** ** The security module *)

(** [usm_secmod_rgenerate_out_msg] and [usm_secmod_process_in_msg] in the table of
    security models, in the state [s]. *)
Definition usm_secmod `{Crypto} `{Allocator} malloc_ok le (isAuthoritative : option Z)
    (secStateRef : option usmStateReference) (s : usm) : secmod :=
  Secmod
    (Some (λ o r,
       x ← usm_rgenerate_out_msg malloc_ok le s (o_globalData o) (Some (o_secEngineID o)) (o_secName o)
             (o_secLevel o) (o_scopedPduLen o) secStateRef r;
       Ok (match x with (inl code, _) => (r, code) | (inr r, _) => (r, 0) end)))
    (Some (λ i,
       '(d, _, _) ← usm_process_in_msg malloc_ok le s isAuthoritative i; Ok d)).
