(* ===== verification/UsmRound.v ===== *)
(** * Round trip of messages of the user-based security model

    What usm_rgenerate_out_msg writes is accepted by usm_process_in_msg, with the same
    names and scoped PDU, between engines that share the user's keys: the user-based
    security model meets the interface [SecurityModel] of the message layer, so the round
    trip of SNMPv3 messages holds for it.  First the reference encoding of the security
    parameters and what the parser makes of it, then what the sender writes, the
    signature and the encryption, and the instance. *)

From S2P Require Import Prelude Ber Asn1 Asn1Int Asn1Str Asn1Rbuild VarBind Pdu PduRbuild PduParse.
From S2P Require Import PduRoundtrip Message Session OidCompare Scapi LcdTime V3 Usm UsmMsg.
From stdpp Require Import prelude numbers list gmap.
From Stdlib Require Import ZArith Lia.
Open Scope Z_scope.

(** ** Security parameters *)

Definition ber_params_body (id : list Z) (boots time : Z) (name mac salt : list Z) : list Z :=
  ber_string ASN_OCTET_STR id ++ ber_int ASN_INTEGER boots ++ ber_int ASN_INTEGER time
  ++ ber_string ASN_OCTET_STR name ++ ber_string ASN_OCTET_STR mac ++ ber_string ASN_OCTET_STR salt.

Definition ber_params (id : list Z) (boots time : Z) (name mac salt : list Z) : list Z :=
  ber_string ASN_OCTET_STR (ber_tlv var_op_tag (ber_params_body id boots time name mac salt)).

Lemma decodes_code {A B} (f : list Z → nat → Z → M (nat * Z * Z * A)) tag enc v pre post dl code
    (k : nat * Z * Z * A → M (Z + B)) :
  Decodes f tag enc v → zlen enc ≤ dl < 2 ^ 32 →
  or_code (f (pre ++ enc ++ post) (length pre) dl) code k
  = k (length (pre ++ enc), dl - zlen enc, tag, v).
Proof. intros Hf Hd. rewrite Hf by done. cbn [or_code]. by rewrite length_app. Qed.

Lemma blank_signature_spec pre mac post :
  blank_signature (pre ++ ber_string ASN_OCTET_STR mac ++ post)
    (length (pre ++ ber_string ASN_OCTET_STR mac)) (length mac)
  = Ok (pre ++ ber_string ASN_OCTET_STR (replicate (length mac) 0) ++ post).
Proof.
  unfold blank_signature. destruct (Nat.eqb_spec (length mac) 0) as [E|_].
  { destruct mac; [done|discriminate]. }
  assert (∀ m, ber_string ASN_OCTET_STR m = tlv_head ASN_OCTET_STR m ++ m) as Hs by done.
  rewrite !Hs. unfold tlv_head. set (n := ber_length (zlen mac)).
  assert (ber_length (zlen (replicate (length mac) 0)) = n) as ->
    by (unfold zlen; rewrite length_replicate; done).
  destruct (Nat.ltb_spec (length (pre ++ (ASN_OCTET_STR :: n) ++ mac)) (length mac)) as [Hl|_].
  { rewrite !length_app in Hl. lia. }
  replace (length (pre ++ (ASN_OCTET_STR :: n) ++ mac) - length mac)%nat
    with (length (pre ++ ASN_OCTET_STR :: n)) by (rewrite !length_app; cbn [length]; lia).
  replace (pre ++ ((ASN_OCTET_STR :: n) ++ mac) ++ post)
    with ((pre ++ ASN_OCTET_STR :: n) ++ mac ++ post) by (by rewrite <- !app_assoc).
  rewrite wr_list_app by (by rewrite length_replicate). by rewrite <- !app_assoc.
Qed.

(** The octets in front of a signature of [n] octets, which do not depend on it. *)
Definition params_head (id : list Z) (boots time : Z) (name : list Z) (n : nat) (salt : list Z) : list Z :=
  let len := zlen (ber_params_body id boots time name (replicate n 0) salt) in
  (ASN_OCTET_STR :: ber_length (1 + zlen (ber_length len) + len)) ++ (var_op_tag :: ber_length len)
  ++ ber_string ASN_OCTET_STR id ++ ber_int ASN_INTEGER boots ++ ber_int ASN_INTEGER time
  ++ ber_string ASN_OCTET_STR name.

Lemma zlen_params_body id boots time name mac salt :
  zlen (ber_params_body id boots time name mac salt)
  = zlen (ber_params_body id boots time name (replicate (length mac) 0) salt).
Proof.
  unfold ber_params_body, ber_string. rewrite !zlen_app, !zlen_ber_tlv.
  by replace (zlen (replicate (length mac) 0)) with (zlen mac) by (unfold zlen; by rewrite length_replicate).
Qed.

Lemma ber_params_split id boots time name mac salt :
  ber_params id boots time name mac salt
  = params_head id boots time name (length mac) salt
    ++ ber_string ASN_OCTET_STR mac ++ ber_string ASN_OCTET_STR salt.
Proof.
  unfold ber_params, params_head. unfold ber_string at 1.
  rewrite (ber_tlv_cons ASN_OCTET_STR), zlen_ber_tlv, (ber_tlv_cons var_op_tag), zlen_params_body.
  rewrite <- !app_assoc. by unfold ber_params_body.
Qed.

Lemma zlen_ber_tlv_ge tag c : 2 + zlen c ≤ zlen (ber_tlv tag c).
Proof. rewrite zlen_ber_tlv, zlen_ber_length. destruct (_ <? 128); lia. Qed.

Lemma zlen_ber_params_ge id boots time name mac salt :
  12 ≤ zlen (ber_params id boots time name mac salt).
Proof.
  unfold ber_params, ber_string, ber_params_body, ber_int, ber_string.
  pose proof (zlen_nonneg id). pose proof (zlen_nonneg name). pose proof (zlen_nonneg mac).
  pose proof (zlen_nonneg salt).
  etransitivity; [|apply zlen_ber_tlv_ge]. etransitivity; [|apply Z.add_le_mono_l, zlen_ber_tlv_ge].
  rewrite !zlen_app.
  repeat match goal with |- context [zlen (ber_tlv ?t ?c)] =>
    pose proof (zlen_ber_tlv_ge t c); pose proof (zlen_nonneg c); generalize dependent (zlen (ber_tlv t c)) end.
  intros. lia.
Qed.

Lemma parse_params_spec id boots time name mac salt pre post dl :
  zlen id ≤ 64 → 0 ≤ boots < 2 ^ 31 → 0 ≤ time < 2 ^ 31 → zlen name ≤ 32 → zlen mac ≤ 16 →
  zlen salt ≤ 16 → zlen (ber_params id boots time name mac salt) ≤ dl < 2 ^ 31 →
  usm_parse_security_parameters (pre ++ ber_params id boots time name mac salt ++ post)
    (length pre) dl 64 256 16 16
  = Ok (inr (SecParams id boots time name mac salt
               (length (pre ++ ber_params id boots time name mac salt))
               (pre ++ ber_params id boots time name (replicate (length mac) 0) salt ++ post))).
Proof.
  intros Hid Hb Ht Hn Hm Hs Hd. unfold usm_parse_security_parameters.
  rewrite !ber_params_split in *. rewrite length_replicate. unfold params_head in *.
  rewrite <- (zlen_params_body id boots time name mac salt) in *.
  set (len := zlen (ber_params_body id boots time name mac salt)) in *.
  set (E := ber_string _ id) in *. set (B := ber_int _ boots) in *. set (T := ber_int _ time) in *.
  set (N := ber_string _ name) in *. set (S := ber_string _ salt) in *.
  assert (len = zlen E + (zlen B + (zlen T + (zlen N + (zlen (ber_string ASN_OCTET_STR mac) + zlen S)))))
    as Hlen by (unfold len, ber_params_body; by rewrite !zlen_app).
  set (n1 := 1 + zlen (ber_length len) + len) in *.
  pose proof (zlen_nonneg E). pose proof (zlen_nonneg B). pose proof (zlen_nonneg T).
  pose proof (zlen_nonneg N). pose proof (zlen_nonneg S).
  pose proof (zlen_nonneg (ber_string ASN_OCTET_STR mac)). pose proof (zlen_nonneg (ber_length len)).
  pose proof (zlen_nonneg (ber_length n1)). rewrite !zlen_app, !zlen_cons in Hd.
  rewrite <- !app_assoc. unfold asn_parse_sequence.
  rewrite (parse_form_header ASN_OCTET_STR n1) by (done || lia || by left). m_step.
  rewrite Z.eqb_refl. cbn [negb or_code].
  rewrite (app_assoc pre).
  rewrite (parse_form_header var_op_tag len) by (done || lia || by left). m_step.
  change (var_op_tag =? Z.lor ASN_SEQUENCE ASN_CONSTRUCTOR) with true. cbn [negb or_code].
  rewrite (app_assoc _ (var_op_tag :: _)). set (q := (pre ++ _) ++ _). change (Z.to_nat 64) with 64%nat.
  rewrite (decodes_code (λ b d l, asn_parse_string b d l (replicate 64 0) 64) ASN_OCTET_STR E
             (string_result id (replicate 64 0) 64, zlen id))
    by (lia || (apply asn_parse_string_decodes; [by split; [|vm_compute]|lia])).
  change (negb (ASN_OCTET_STR =? ASN_OCTET_STR)) with false. cbv beta iota zeta.
  rewrite (app_assoc q).
  rewrite (decodes_code (λ b d l, asn_parse_int b d l SIZEOF_LONG) ASN_INTEGER B boots)
    by (lia || (apply asn_parse_int_decodes; lia)).
  change (negb (ASN_INTEGER =? ASN_INTEGER)) with false. cbv beta iota zeta.
  rewrite (app_assoc _ B).
  rewrite (decodes_code (λ b d l, asn_parse_int b d l SIZEOF_LONG) ASN_INTEGER T time)
    by (lia || (apply asn_parse_int_decodes; lia)).
  change (negb (ASN_INTEGER =? ASN_INTEGER)) with false. cbv beta iota zeta.
  rewrite (app_assoc _ T), !u32_id by lia. unfold ENGINEBOOT_MAX, ENGINETIME_MAX.
  destruct (Z.ltb_spec 2147483647 boots), (Z.ltb_spec 2147483647 time); try lia. m_step.
  change (Z.to_nat 256) with 256%nat.
  rewrite (decodes_code (λ b d l, asn_parse_string b d l (replicate 256 0) 256) ASN_OCTET_STR N
             (string_result name (replicate 256 0) 256, zlen name))
    by (lia || (apply asn_parse_string_decodes; [split; [lia|by vm_compute]|lia])).
  change (negb (ASN_OCTET_STR =? ASN_OCTET_STR)) with false. cbv beta iota zeta.
  pose proof (zlen_nonneg name). rewrite u32_id by lia.
  destruct (Z.ltb_spec 256 (zlen name + 1)), (Z.ltb_spec 32 (zlen name)); try lia. m_step.
  rewrite (app_assoc _ N). change (Z.to_nat 16) with 16%nat.
  rewrite (decodes_code (λ b d l, asn_parse_string b d l (replicate 16 0) 16) ASN_OCTET_STR
             (ber_string ASN_OCTET_STR mac) (string_result mac (replicate 16 0) 16, zlen mac))
    by (lia || (apply asn_parse_string_decodes; [split; [lia|by vm_compute]|lia])).
  change (negb (ASN_OCTET_STR =? ASN_OCTET_STR)) with false. cbv beta iota zeta.
  rewrite (Z_to_nat_zlen mac), blank_signature_spec. m_step.
  replace (length (((((q ++ E) ++ B) ++ T) ++ N) ++ ber_string ASN_OCTET_STR mac))
    with (length (((((q ++ E) ++ B) ++ T) ++ N) ++ ber_string ASN_OCTET_STR (replicate (length mac) 0)))
    by (unfold ber_string; rewrite !(length_app _ (ber_tlv _ _)), !ber_tlv_cons; unfold zlen;
        by rewrite !length_app, length_replicate).
  rewrite (app_assoc _ (ber_string ASN_OCTET_STR _)).
  rewrite (decodes_code (λ b d l, asn_parse_string b d l (replicate 16 0) 16) ASN_OCTET_STR S
             (string_result salt (replicate 16 0) 16, zlen salt))
    by (lia || (apply asn_parse_string_decodes; [split; [lia|by vm_compute]|lia])).
  change (negb (ASN_OCTET_STR =? ASN_OCTET_STR)) with false. cbv beta iota zeta.
  assert (take (length mac) (string_result mac (replicate 16 0) 16) = mac) as ->
    by (rewrite <- (Z_to_nat_zlen mac) at 1; apply take_string_result).
  rewrite !take_string_result. unfold q. do 3 f_equal.
  - unfold ber_string. rewrite !ber_tlv_cons. unfold zlen.
    rewrite !length_app, length_replicate. cbn [length]. lia.
  - by rewrite <- !app_assoc.
Qed.

(** ** What the sender writes *)

(** The authentication parameters before the message is signed. *)
Definition no_mac (level : Z) : list Z := if is_auth level then replicate 12 0 else [].

Section Sending.
Context `{alloc : Allocator}.

Lemma rbuild_params_spec c boots time salt st :
  let P := ber_params (default [] (theEngineID c)) boots time (default [] (theName c))
             (no_mac (theSecLevel c)) salt in
  0 ≤ boots < 2 ^ 31 → 0 ≤ time < 2 ^ 31 → wf st → grants (offset st + length P) →
  ∃ st', rbuild_params c boots time salt st
         = Ok (st', (offset st + length (ber_string ASN_OCTET_STR salt)
                     + length (ber_string ASN_OCTET_STR (no_mac (theSecLevel c))) - 2)%nat) ∧
    rpost true P st st'.
Proof.
  intros P Hb Ht Hwf HT. unfold rbuild_params. rewrite !s32_id by lia. fold (no_mac (theSecLevel c)).
  set (mac := no_mac _) in *. set (id := default [] (theEngineID c)) in *.
  set (name := default [] (theName c)) in *.
  pose (f := λ st, st ← asn_realloc_rbuild_string true ASN_OCTET_STR salt (zlen salt) st;
    st ← asn_realloc_rbuild_string true ASN_OCTET_STR mac (zlen mac) st;
    st ← asn_realloc_rbuild_string true ASN_OCTET_STR name (zlen name) st;
    st ← asn_realloc_rbuild_int true ASN_INTEGER time SIZEOF_LONG st;
    st ← asn_realloc_rbuild_int true ASN_INTEGER boots SIZEOF_LONG st;
    asn_realloc_rbuild_string true ASN_OCTET_STR id (zlen id) st).
  assert (rspec true f (ber_params_body id boots time name mac salt)) as Hf.
  { unfold f, ber_params_body. rewrite !app_assoc.
    repeat (apply rspec_seq; [first [apply rbuild_string_rspec|apply rbuild_int_rspec; lia]|]).
    apply rbuild_string_rspec. }
  pose proof (rbuild_since_rspec true ASN_OCTET_STR _ _ 0
    (rbuild_since_rspec true var_op_tag _ _ 0 Hf ltac:(lia)) ltac:(lia)) as Hr.
  rewrite !Z.add_0_r in Hr.
  change ((ASN_OCTET_STR :: _) ++ _) with P in Hr.
  destruct (rspec_granted _ _ _ st Hr HT ltac:(lia) Hwf) as (st' & E & HP). exists st'.
  split; [|done]. revert E. unfold f.
  pose proof (rbuild_string_rspec true ASN_OCTET_STR salt st Hwf) as H1.
  destruct (asn_realloc_rbuild_string _ _ salt _ st) as [st1| |]; m_step; [|done..].
  destruct H1 as (Hwf1 & _ & Ho1 & _).
  pose proof (rbuild_string_rspec true ASN_OCTET_STR mac st1 Hwf1) as H2.
  destruct (asn_realloc_rbuild_string _ _ mac _ st1) as [st2| |]; m_step; [|done..].
  destruct H2 as (_ & _ & Ho2 & _).
  destruct (asn_realloc_rbuild_string _ _ name _ st2) as [st3| |]; m_step; [|done..].
  destruct (asn_realloc_rbuild_int _ _ time _ st3) as [st4| |]; m_step; [|done..].
  destruct (asn_realloc_rbuild_int _ _ boots _ st4) as [st5| |]; m_step; [|done..].
  destruct (asn_realloc_rbuild_string _ _ id _ st5) as [st6| |]; m_step; [|done..].
  rewrite !Z.add_0_r.
  change (Z.lor ASN_SEQUENCE ASN_CONSTRUCTOR) with var_op_tag.
  destruct (asn_realloc_rbuild_sequence _ _ _ st6) as [st7| |]; m_step; [|done..].
  rewrite Z.add_0_r. change (asn_realloc_rbuild_header true) with (asn_realloc_rbuild_sequence true).
  intros ->. m_step. by rewrite Ho2, Ho1.
Qed.

Lemma rbuild_whole_spec g st :
  let W := ber_tlv var_op_tag (g ++ written st) in
  wf st → grants (length W) →
  ∃ st', rbuild_whole g st = Ok st' ∧ wf st' ∧ written st' = W ∧ offset st' = length W.
Proof.
  intros W Hwf HT. unfold rbuild_whole.
  destruct (rspec_granted _ _ _ st (need_block_rspec true g) HT) as (st1 & E1 & Hwf1 & W1 & Ho1 & _);
    [|done|].
  { unfold W. rewrite ber_tlv_cons, !length_app, length_written by done. lia. }
  assert (since 0 st1 = zlen (g ++ written st)) as Hs.
  { unfold since, zlen. rewrite Ho1, length_app, length_written by done. lia. }
  destruct (rspec_granted _ _ _ st1 (rbuild_sequence_rspec true var_op_tag (since 0 st1)
    ltac:(destruct Hwf1; unfold since, zlen in *; lia)) HT) as (st2 & E2 & Hwf2 & W2 & Ho2 & _); [|done|].
  { unfold W. rewrite ber_tlv_cons, Hs, !length_app, length_written by done. rewrite Ho1. lia. }
  exists st2. destruct (need true (zlen g) st) as [x| |]; m_step; [|done..].
  cbn [mbind M_bind] in E1. rewrite E1. m_step. split_and!; [done|done|..].
  - rewrite W2, W1, Hs. unfold W. by rewrite ber_tlv_cons.
  - unfold W. rewrite ber_tlv_cons, Ho2, Ho1, Hs, !length_app, length_written by done. lia.
Qed.

Context `{CryptoLaws}.

(** The first 12 octets of the keyed hash, at a level with authentication. *)
Definition signature (c : credentials) (message : list Z) : list Z :=
  if is_auth (theSecLevel c) then
    match sc_generate_keyed_hash (theAuthProtocol c) (theAuthKey c) message USM_MD5_AND_SHA_AUTH_LEN with
    | Ok mac => mac
    | _ => []
    end
  else [].

(** A key that is long enough for the user's authentication protocol. *)
Definition auth_ready (c : credentials) : Prop :=
  is_auth (theSecLevel c) = true →
  ∃ t n d h key, hash_transform t n d h ∧ theAuthProtocol c = Some t ∧ theAuthKey c = Some key ∧
    n ≤ zlen key.

Lemma signature_spec c message :
  auth_ready c → message ≠ [] →
  length (signature c message) = length (no_mac (theSecLevel c)) ∧
  (is_auth (theSecLevel c) = true →
   sc_generate_keyed_hash (theAuthProtocol c) (theAuthKey c) message USM_MD5_AND_SHA_AUTH_LEN
   = Ok (signature c message) ∧
   (USM_MD5_AND_SHA_AUTH_LEN ≤ zlen message →
    sc_check_keyed_hash (theAuthProtocol c) (theAuthKey c) message (signature c message) = Ok ())).
Proof.
  intros Hc Hm. unfold signature, no_mac. destruct (is_auth _) eqn:E; [|done].
  destruct (Hc E) as (t & n & d & h & key & Ht & -> & -> & Hk).
  destruct (hash_transform_size _ _ _ _ Ht) as (_ & Hn & _ & Hl).
  rewrite (keyed_hash_spec t n d h) by (done || unfold USM_MD5_AND_SHA_AUTH_LEN; lia).
  replace (Z.to_nat (Z.min n USM_MD5_AND_SHA_AUTH_LEN)) with 12%nat
    by (unfold USM_MD5_AND_SHA_AUTH_LEN; lia).
  split; [rewrite length_take, Hl, length_replicate; lia|]. intros _. split; [done|]. intros Hlen.
  by apply (sc_check_keyed_hash_iff t n d h).
Qed.

Lemma sign_spec malloc_ok c a b st :
  wf st → auth_ready c → malloc_ok USM_MD5_AND_SHA_AUTH_LEN = true →
  a ≠ [] → written st = a ++ no_mac (theSecLevel c) ++ b →
  ∃ st', sign malloc_ok c (length (no_mac (theSecLevel c) ++ b)) st = Ok (inr st') ∧ wf st' ∧
    offset st' = offset st ∧ written st' = a ++ signature c (written st) ++ b.
Proof.
  intros Hwf Hc Hm Ha W. destruct (signature_spec c (written st) Hc) as [Hl Hs].
  { rewrite W. by destruct a. }
  unfold sign. destruct (is_auth (theSecLevel c)) eqn:Ea.
  2: { exists st. split_and!; [done..|]. rewrite W. unfold signature, no_mac in *. by rewrite Ea. }
  rewrite Hm. cbn [negb]. destruct (written_split st Hwf) as [Hp Hpl].
  assert (rd_list (pkt st) (length (pkt st) - offset st) (offset st) = Ok (written st)) as ->.
  { rewrite rd_list_spec by (destruct Hwf; lia). unfold written. f_equal. apply take_ge.
    rewrite length_drop. lia. }
  m_step. rewrite (proj1 (Hs eq_refl)). cbn [or_code].
  set (mac := signature c (written st)) in *. set (pre := take _ _) in *.
  assert (zlen mac =? USM_MD5_AND_SHA_AUTH_LEN = true) as ->.
  { unfold zlen. rewrite Hl. unfold no_mac. by rewrite Ea. }
  cbn [negb]. rewrite W in Hp.
  assert (length (pkt st) - length (no_mac (theSecLevel c) ++ b) = length (pre ++ a))%nat as ->.
  { rewrite Hp, !length_app. lia. }
  rewrite Hp, app_assoc, wr_list_app by done. m_step. eexists. split; [done|].
  assert (length ((pre ++ a) ++ mac ++ b) = length (pkt st)) as Hlen
    by (rewrite Hp, !length_app; lia).
  destruct Hwf. unfold wf, written, zlen in *. cbn [pkt offset]. rewrite Hlen. split_and!; [done..|].
  rewrite <- Hpl. rewrite <- app_assoc. by rewrite drop_app_length.
Qed.

(** The message with the authentication parameters [mac]. *)
Definition usm_wire (c : credentials) (boots time : Z) (g salt data mac : list Z) : list Z :=
  ber_tlv var_op_tag (g ++ ber_params (default [] (theEngineID c)) boots time (default [] (theName c)) mac salt
                        ++ data).

(** A message is its octets before the authentication parameters, those, and the rest. *)
Lemma usm_wire_split c boots time g salt data n :
  ∃ a, a ≠ [] ∧ ∀ mac, length mac = n →
    usm_wire c boots time g salt data mac = a ++ mac ++ ber_string ASN_OCTET_STR salt ++ data.
Proof.
  set (id := default [] (theEngineID c)). set (name := default [] (theName c)).
  set (len := zlen (g ++ ber_params id boots time name (replicate n 0) salt ++ data)).
  exists ((var_op_tag :: ber_length len) ++ g ++ params_head id boots time name n salt
          ++ ASN_OCTET_STR :: ber_length (Z.of_nat n)). split; [done|].
  intros mac Hn. unfold usm_wire. fold id name.
  assert (zlen (g ++ ber_params id boots time name mac salt ++ data) = len) as Hz.
  { unfold len. rewrite !zlen_app, !ber_params_split, Hn, length_replicate.
    unfold ber_string. rewrite !zlen_app, !zlen_ber_tlv. unfold zlen. by rewrite length_replicate, Hn. }
  rewrite ber_tlv_cons, Hz, ber_params_split, Hn. unfold ber_string at 1. rewrite ber_tlv_cons.
  unfold zlen. rewrite Hn. by rewrite <- !app_assoc.
Qed.

Lemma rbuild_around_spec malloc_ok c boots time g salt st :
  let W0 := usm_wire c boots time g salt (written st) (no_mac (theSecLevel c)) in
  0 ≤ boots < 2 ^ 31 → 0 ≤ time < 2 ^ 31 → wf st → auth_ready c →
  malloc_ok USM_MD5_AND_SHA_AUTH_LEN = true → grants (length W0) →
  ∃ st', rbuild_around malloc_ok c boots time g salt st = Ok (inr st') ∧ wf st' ∧
    written st' = usm_wire c boots time g salt (written st) (signature c W0).
Proof.
  intros W0 Hb Ht Hwf Hc Hm HT. unfold rbuild_around.
  destruct (rbuild_params_spec c boots time salt st) as (st1 & -> & Hwf1 & W1 & Ho1 & _); [done..| |].
  { intros n Hn. apply HT. unfold W0, usm_wire. rewrite ber_tlv_cons, !length_app, length_written by done. lia. }
  cbn [or_code].
  destruct (rbuild_whole_spec g st1 Hwf1) as (st2 & -> & Hwf2 & W2 & Ho2).
  { rewrite W1. exact HT. }
  cbn [or_code]. rewrite W1 in W2. change (ber_tlv _ _) with W0 in W2.
  destruct (usm_wire_split c boots time g salt (written st) (length (no_mac (theSecLevel c))))
    as (a & Ha & Hsp).
  pose proof (Hsp _ eq_refl) as HW0. fold W0 in HW0.
  destruct (sign_spec malloc_ok c a (ber_string ASN_OCTET_STR salt ++ written st) st2)
    as (st3 & E3 & Hwf3 & _ & W3); [done..|by rewrite W2|].
  exists st3. split_and!; [|done|].
  - rewrite <- E3. f_equal. unfold ber_string at 2. rewrite ber_tlv_cons, !length_app, length_written by done.
    assert (length (ber_string ASN_OCTET_STR (no_mac (theSecLevel c)))
            = 2 + length (no_mac (theSecLevel c)))%nat as Hn
      by (unfold no_mac; by destruct (is_auth _)).
    unfold ber_string in Hn. lia.
  - rewrite W3, W2. symmetry. apply Hsp. apply signature_spec; [done|]. rewrite HW0. by destruct a.
Qed.

(** *** Encryption *)

(** A key that is long enough for the user's privacy protocol. *)
Definition priv_ready (c : credentials) : Prop :=
  theSecLevel c = SNMP_SEC_LEVEL_AUTHPRIV →
  ∃ t nk niv padding key, priv_transform t nk niv padding ∧ thePrivProtocol c = Some t ∧
    thePrivKey c = Some key ∧ 16 ≤ zlen key ≤ 2 ^ 16.

(** The initialisation vector as the receiver computes it. *)
Definition iv_of (t key : list Z) (boots time : Z) (salt : list Z) : list Z :=
  if decide (t = usmDESPrivProtocol) then xor_octets salt (take 8 (drop 8 key))
  else net_order boots ++ net_order time ++ salt.

Lemma zlen_net_order z : zlen (net_order z) = 4.
Proof. apply zlen_be_bytes. Qed.

Lemma iv_of_DES key boots time salt :
  iv_of usmDESPrivProtocol key boots time salt = xor_octets salt (take 8 (drop 8 key)).
Proof. unfold iv_of. by rewrite decide_True. Qed.

Lemma iv_of_AES key boots time salt :
  iv_of usmAESPrivProtocol key boots time salt = net_order boots ++ net_order time ++ salt.
Proof. unfold iv_of. by rewrite decide_False. Qed.

Lemma is_DES_or_AES t nk niv padding :
  priv_transform t nk niv padding →
  ISTRANSFORM t usmDESPrivProtocol = Ok (bool_decide (t = usmDESPrivProtocol)) ∧
  ISTRANSFORM t usmAESPrivProtocol = Ok (bool_decide (t = usmAESPrivProtocol)).
Proof. by destruct 1 as [-> | ->]; rewrite !ISTRANSFORM_spec. Qed.

Lemma choose_salt_spec le s c boots time t nk niv padding key :
  priv_transform t nk niv padding → thePrivProtocol c = Some t → thePrivKey c = Some key →
  16 ≤ zlen key ≤ 2 ^ 16 →
  ∃ salt s', choose_salt le s c boots time = Ok (Some (iv_of t key boots time salt, salt), s') ∧
    zlen salt = 8 ∧ Z.of_nat niv ≤ zlen (iv_of t key boots time salt).
Proof.
  intros Ht Hp Hk Hl. unfold choose_salt. rewrite Hp, Hk.
  destruct (is_DES_or_AES _ _ _ _ Ht) as [-> ->]. m_step. destruct Ht as [-> | ->].
  - rewrite (bool_decide_false (usmDESPrivProtocol = usmAESPrivProtocol)) by done.
    rewrite bool_decide_true by done. unfold usm_set_salt.
    rewrite u32_id by lia. change (BYTESIZE USM_DES_SALT_LENGTH) with 8.
    destruct (Z.ltb_spec (zlen key - 8) 8); [lia|]. unfold zlen in Hl.
    rewrite rd_list_spec by lia. m_step. do 2 eexists. rewrite iv_of_DES. split; [done|].
    rewrite zlen_app, !zlen_net_order. split; [done|]. unfold zlen.
    rewrite length_xor_octets, length_take, length_drop;
      [lia|rewrite length_take, length_app; unfold net_order; rewrite !length_be_bytes; lia].
  - rewrite bool_decide_true by done. unfold usm_set_aes_iv. do 2 eexists. rewrite iv_of_AES.
    split; [done|]. rewrite !zlen_app, !zlen_net_order. done.
Qed.

(** The salt and the message data for the scoped PDU [scoped]. *)
Definition message_data (le : local_engine) (s : usm) (c : credentials) (boots time : Z)
    (scoped : list Z) : list Z * list Z :=
  if theSecLevel c =? SNMP_SEC_LEVEL_AUTHPRIV then
    match choose_salt le s c boots time with
    | Ok (Some (iv, salt), _) =>
        match sc_encrypt (thePrivProtocol c) (thePrivKey c) iv scoped (zlen scoped + 64) with
        | Ok ciphertext => (salt, ber_string ASN_OCTET_STR ciphertext)
        | _ => ([], [])
        end
    | _ => ([], [])
    end
  else ([], scoped).

Lemma message_data_spec le s c boots time scoped :
  priv_ready c → scoped ≠ [] →
  let '(salt, data) := message_data le s c boots time scoped in
  zlen salt ≤ 8 ∧
  if theSecLevel c =? SNMP_SEC_LEVEL_AUTHPRIV then
    ∃ t key iv s' ciphertext pad,
      thePrivProtocol c = Some t ∧ thePrivKey c = Some key ∧ 16 ≤ zlen key ∧
      (∃ nk niv padding, priv_transform t nk niv padding) ∧
      choose_salt le s c boots time = Ok (Some (iv, salt), s') ∧ iv = iv_of t key boots time salt ∧
      sc_encrypt (Some t) (Some key) iv scoped (zlen scoped + 64) = Ok ciphertext ∧
      data = ber_string ASN_OCTET_STR ciphertext ∧ zlen salt = 8 ∧
      zlen ciphertext = zlen scoped + zlen pad ∧
      (t = usmDESPrivProtocol → zlen ciphertext mod 8 = 0) ∧
      ∀ ptlen, zlen ciphertext ≤ ptlen → sc_decrypt (Some t) (Some key) iv ciphertext ptlen = Ok (scoped ++ pad)
  else salt = [] ∧ data = scoped.
Proof.
  intros Hc Hs. unfold message_data. destruct (Z.eqb_spec (theSecLevel c) SNMP_SEC_LEVEL_AUTHPRIV) as [E|_];
    [|done].
  destruct (Hc E) as (t & nk & niv & padding & key & Ht & Hp & Hk & Hl). rewrite Hp, Hk.
  destruct (choose_salt_spec le s c boots time t nk niv padding key Ht Hp Hk Hl) as (salt & s' & -> & Hz & Hiv).
  destruct (sc_crypt_spec t nk niv padding key (iv_of t key boots time salt) scoped (zlen scoped + 64))
    as (ct & pad & He & Hct & Hpad & H8 & Hdes & Hdec); [done..| |done| |].
  { destruct Ht; lia. }
  { destruct Ht as [_|_]; [|lia]. pose proof (Z.mod_pos_bound (- zlen scoped) 8). lia. }
  rewrite He. split; [lia|]. exists t, key, (iv_of t key boots time salt), s', ct, pad.
  split_and!; [done|done|lia|by eauto|done..].
Qed.

(** ** The message that is sent *)

Lemma usm_rgenerate_spec malloc_ok le s g id name level scoped c boots time known st :
  let '(salt, data) := message_data le s c boots time scoped in
  let W0 := usm_wire c boots time g salt data (no_mac (theSecLevel c)) in
  choose_credentials s id name level None = Ok (Some c) →
  usm_check_secLevel_vs_protocols (theSecLevel c) (theAuthProtocol c) (thePrivProtocol c) = Ok 0 →
  get_enginetime (us_etimes s) (le_time le) (default [] (theEngineID c)) false = Ok (known, (boots, time)) →
  0 ≤ boots < 2 ^ 31 → 0 ≤ time < 2 ^ 31 → auth_ready c → priv_ready c → scoped ≠ [] →
  wf st → written st = scoped → malloc_grants malloc_ok → zlen scoped < 2 ^ 15 → grants (length W0) →
  ∃ st' s', usm_rgenerate_out_msg malloc_ok le s g id name level (zlen scoped) None st
            = Ok (inr st', s') ∧ wf st' ∧
    written st' = usm_wire c boots time g salt data (signature c W0).
Proof.
  pose proof (message_data_spec le s c boots time scoped) as HD.
  destruct (message_data le s c boots time scoped) as [salt data].
  intros W0 Hcr Hlev Het Hb Ht Ha Hp Hs Hwf W Hm Hz HT. unfold usm_rgenerate_out_msg.
  rewrite Hcr. m_step. rewrite Hlev. m_step. cbn [Z.eqb]. rewrite Het. m_step.
  pose proof (length_written st Hwf) as Ho. rewrite W in Ho.
  rewrite Z_to_nat_zlen, Ho, rd_list_spec by (destruct Hwf; lia). m_step.
  assert (take (offset st) (drop (length (pkt st) - offset st) (pkt st)) = scoped) as ->.
  { fold (written st). rewrite W. apply take_ge. lia. }
  destruct (HD Hp Hs) as [Hsl HD'].
  destruct (Z.eqb_spec (theSecLevel c) SNMP_SEC_LEVEL_AUTHPRIV) as [El|El].
  - destruct HD' as (t & key & iv & s' & ct & pad & Hpp & Hk & _ & _ & Hcs & _ & He & -> & _).
    unfold encrypt_scoped. rewrite Hm by (pose proof (zlen_nonneg scoped); lia). cbn [negb].
    rewrite Hcs. m_step. rewrite Hpp, Hk, He. cbn [or_code].
    destruct (rspec_granted _ _ (length W0) (RState (pkt st) 0) (rbuild_string_rspec true ASN_OCTET_STR ct) HT)
      as (st1 & -> & Hwf1 & W1 & _).
    { cbn [offset]. unfold W0, usm_wire. rewrite (ber_tlv_cons var_op_tag), !length_app. lia. }
    { destruct Hwf. by split; cbn; [lia|]. }
    cbn [or_code]. m_step. unfold written in W1 at 2. cbn [pkt offset] in W1.
    rewrite Nat.sub_0_r, drop_all, app_nil_r in W1.
    destruct (rbuild_around_spec malloc_ok c boots time g salt st1) as (st2 & -> & Hwf2 & W2);
      [done..|apply Hm; by vm_compute|by rewrite W1|].
    rewrite W1 in W2. m_step. by eexists st2, s'.
  - destruct HD' as [-> ->]. m_step.
    destruct (rbuild_around_spec malloc_ok c boots time g [] st) as (st2 & -> & Hwf2 & W2);
      [done..|apply Hm; by vm_compute|by rewrite W|].
    rewrite W in W2. m_step. by eexists st2, s.
Qed.
End Sending.

(** ** Receiving *)

Lemma MAKE_ENTRY_granted malloc_ok size item :
  malloc_grants malloc_ok → 0 ≤ zlen (default [] item) * size ≤ 2 ^ 16 →
  ∃ o, MAKE_ENTRY malloc_ok size item = Ok o.
Proof.
  intros Hm Hs. unfold MAKE_ENTRY. destruct item as [l|]; [|by eexists]. cbn [default id] in Hs.
  destruct (zlen l =? 0); [by eexists|]. rewrite Hm by lia. by eexists.
Qed.

(** The protocols and keys of a user fit into memory. *)
Definition user_sizes (u : usmUser) : Prop :=
  zlen (default [] (u_authProtocol u)) ≤ 2 ^ 14 ∧ zlen (default [] (u_authKey u)) ≤ 2 ^ 16 ∧
  zlen (default [] (u_privProtocol u)) ≤ 2 ^ 14 ∧ zlen (default [] (u_privKey u)) ≤ 2 ^ 16.

Section Receiving.
Context `{CryptoLaws}.
Variable malloc_ok : Z → bool.
Hypothesis granted : malloc_grants malloc_ok.

Ltac entries := repeat match goal with |- context [MAKE_ENTRY malloc_ok ?n ?o] =>
  destruct (MAKE_ENTRY_granted malloc_ok n o granted) as [? ->];
  [pose proof (zlen_nonneg (default [] o)); cbn [default id] in *; lia|m_step] end.

Lemma cache_names_granted ref p level :
  zlen (sp_name p) ≤ 2 ^ 16 → zlen (sp_engineID p) ≤ 2 ^ 16 →
  ∃ ref', cache_names malloc_ok ref p level = Ok ref'.
Proof.
  intros Hn Hi. unfold cache_names, usm_set_usmStateReference_name,
    usm_set_usmStateReference_engine_id, usm_set_usmStateReference_sec_level. entries. by eexists.
Qed.

Lemma cache_keys_granted ref u : user_sizes u → ∃ ref', cache_keys malloc_ok ref u = Ok ref'.
Proof.
  intros (H1 & H2 & H3 & H4). unfold cache_keys, usm_set_usmStateReference_auth_protocol,
    usm_set_usmStateReference_auth_key, usm_set_usmStateReference_priv_protocol,
    usm_set_usmStateReference_priv_key. entries. by eexists.
Qed.

Lemma decrypt_scoped_spec u p t nk niv padding key ct plain pre post data_len room room_len :
  priv_transform t nk niv padding → u_privProtocol u = Some t → u_privKey u = Some key →
  16 ≤ zlen key → sp_buf p = pre ++ ber_string ASN_OCTET_STR ct ++ post → sp_data p = length pre →
  zlen (ber_string ASN_OCTET_STR ct) ≤ data_len < 2 ^ 31 →
  (t = usmDESPrivProtocol → zlen ct mod 8 = 0) →
  sc_decrypt (Some t) (Some key) (iv_of t key (sp_boots p) (sp_time p) (sp_salt p)) ct room_len = Ok plain →
  decrypt_scoped u p data_len (Some room) room_len = Ok (inr plain).
Proof.
  intros Ht Hp Hk Hl Hbuf Hdata Hd H8 Hdec. unfold decrypt_scoped. rewrite Hbuf, Hdata, Hp, Hk.
  unfold ber_string in *. rewrite ber_tlv_cons in *. set (h := ber_length (zlen ct)) in *.
  rewrite zlen_app, zlen_cons in Hd. pose proof (zlen_nonneg ct). pose proof (zlen_nonneg h).
  unfold asn_parse_sequence. rewrite <- !app_assoc.
  rewrite (parse_form_header ASN_OCTET_STR (zlen ct)) by (done || lia || by left). m_step.
  rewrite Z.eqb_refl. cbn [negb].
  destruct (is_DES_or_AES _ _ _ _ Ht) as [-> ->]. m_step. rewrite Z_to_nat_zlen, app_assoc, rd_list_app.
  destruct Ht as [-> | ->].
  - rewrite bool_decide_true, (H8 eq_refl) by done. cbn [andb negb Z.eqb].
    unfold zlen in Hl. rewrite rd_list_spec by lia. m_step. rewrite iv_of_DES in Hdec. by rewrite Hdec.
  - rewrite bool_decide_false, bool_decide_true by done. m_step. rewrite iv_of_AES in Hdec. by rewrite Hdec.
Qed.

(** The receiver has the user, with the level allowed, knows or learns the engine, and
    finds the message timely. *)
Definition receiver_ready (le : local_engine) (s : usm) (isAuthoritative : option Z) (u : usmUser)
    (level : Z) (id name : list Z) (boots time : Z) : Prop :=
  user_sizes u ∧ usm_check_secLevel level u = Ok 0 ∧
  (∃ ptr n, usm_get_user_from_list (us_heap s) (Some id) (Some name) (us_userList s)
              (use_default isAuthoritative) (us_noNameUser s) = Ok (Some ptr) ∧
            us_heap s !! ptr = Some n ∧ un_user n = u) ∧
  ∀ flags, ∃ t1 t2, locate_engine malloc_ok le (us_etimes s) isAuthoritative flags id = Ok (0, t1) ∧
    check_time malloc_ok le t1 level id boots time = Ok (0, t2).

Definition same_secrets (c : credentials) (u : usmUser) : Prop :=
  u_authProtocol u = theAuthProtocol c ∧ u_authKey u = theAuthKey c ∧
  u_privProtocol u = thePrivProtocol c ∧ u_privKey u = thePrivKey c.

Lemma accept_message_spec snd_le snd_s le s c u i ref p boots time scoped before post data_len
    scoped_at len t :
  let '(salt, data) := message_data snd_le snd_s c boots time scoped in
  same_secrets c u → user_sizes u → priv_ready c → scoped ≠ [] →
  sp_boots p = boots → sp_time p = time → sp_salt p = salt →
  sp_buf p = before ++ data ++ post → sp_data p = length before →
  zlen data ≤ data_len < 2 ^ 31 → i_secLevel i = theSecLevel c →
  check_time malloc_ok le (us_etimes s) (theSecLevel c) (sp_engineID p) boots time = Ok (0, t) →
  (∃ room, i_scopedPdu i = Some room ∧ zlen room = i_scopedPduLen i) →
  (theSecLevel c = SNMP_SEC_LEVEL_AUTHPRIV → zlen data ≤ i_scopedPduLen i) →
  (theSecLevel c ≠ SNMP_SEC_LEVEL_AUTHPRIV →
   scoped_at = Some (sp_buf p, sp_data p) ∧ len = data_len) →
  ∃ d ref' before' after,
    accept_message malloc_ok le s i ref p u data_len scoped_at len = Ok (d, Some ref', set_etimes s t) ∧
    d_ret d = 0 ∧ d_secEngineID d = sp_engineID p ∧ d_secName d = sp_name p ∧
    d_scopedPdu d = Some (before' ++ scoped ++ after, length before') ∧
    zlen scoped ≤ d_scopedPduLen d < 2 ^ 31.
Proof.
  pose proof (message_data_spec snd_le snd_s c boots time scoped) as HD.
  destruct (message_data snd_le snd_s c boots time scoped) as [salt data].
  intros (_ & _ & Hs3 & Hs4) Hsz Hp Hsc Hpb Hpt Hpsalt Hbuf Hdata Hdl Hl Htime (room & Hroom & Hrl) Hfit Hclear.
  destruct (HD Hp Hsc) as [_ HD']. unfold accept_message.
  destruct (cache_keys_granted ref u Hsz) as (ref' & ->). rewrite Hl, Hpb, Hpt, Htime. m_step. cbn [Z.eqb].
  destruct (Z.eqb_spec (theSecLevel c) SNMP_SEC_LEVEL_AUTHPRIV) as [El|El].
  - destruct HD' as (t' & key & iv & s' & ct & pad & Hpp & Hk & Hkl & (nk & niv & padding & Htr) & _ & Hiv & _
      & -> & _ & Hct & H8 & Hdec).
    specialize (Hfit El).
    assert (zlen ct ≤ zlen (ber_string ASN_OCTET_STR ct)) as Hle.
    { unfold ber_string. rewrite zlen_ber_tlv. pose proof (zlen_nonneg (ber_length (zlen ct))). lia. }
    rewrite Hroom, (decrypt_scoped_spec u p t' nk niv padding key ct (scoped ++ pad) before post)
      by (done || congruence || (rewrite Hpb, Hpt, Hpsalt, <- Hiv; apply Hdec; lia)).
    m_step. cbn [default id].
    assert (length (scoped ++ pad) ≤ length room)%nat as Hroomy
      by (rewrite length_app; unfold zlen in *; lia).
    rewrite wr_list_eq by done. m_step. rewrite take_0. cbn [app].
    eexists _, ref', [], _. split_and!; [done|done|done|done|..].
    { cbn [d_scopedPdu app length]. by rewrite <- app_assoc. }
    all: cbn [d_scopedPduLen]; rewrite zlen_app; pose proof (zlen_nonneg pad); lia.
  - destruct HD' as [-> ->]. destruct (Hclear El) as [-> ->].
    eexists _, ref', before, post. split; [done|].
    cbn [d_ret d_secEngineID d_secName d_scopedPdu d_scopedPduLen].
    split_and!; [done|done|done|by rewrite Hbuf, Hdata|lia|lia].
Qed.

Lemma process_params_spec snd_le snd_s le s isAuthoritative u c i ref p W0 boots time scoped before post :
  let '(salt, data) := message_data snd_le snd_s c boots time scoped in
  same_secrets c u → auth_ready c → priv_ready c → scoped ≠ [] →
  receiver_ready le s isAuthoritative u (theSecLevel c) (sp_engineID p) (sp_name p) boots time →
  zlen (sp_engineID p) ≤ 64 → zlen (sp_name p) ≤ 32 →
  sp_boots p = boots → sp_time p = time → sp_salt p = salt → sp_signature p = signature c W0 →
  sp_buf p = before ++ data ++ post → sp_data p = length before →
  rd_list (sp_buf p) (i_msg i) (Z.to_nat (i_wholeMsgLen i)) = Ok W0 → USM_MD5_AND_SHA_AUTH_LEN ≤ zlen W0 →
  i_wholeMsgLen i - (Z.of_nat (sp_data p) - Z.of_nat (i_msg i)) = zlen data → zlen data < 2 ^ 31 →
  i_secLevel i = theSecLevel c →
  (∃ room, i_scopedPdu i = Some room ∧ zlen room = i_scopedPduLen i) →
  (theSecLevel c = SNMP_SEC_LEVEL_AUTHPRIV → zlen data ≤ i_scopedPduLen i) →
  ∃ d ref' s' before' after,
    process_params malloc_ok le s isAuthoritative i ref p = Ok (d, Some ref', s') ∧
    d_ret d = 0 ∧ d_secEngineID d = sp_engineID p ∧ d_secName d = sp_name p ∧
    d_scopedPdu d = Some (before' ++ scoped ++ after, length before') ∧
    zlen scoped ≤ d_scopedPduLen d < 2 ^ 31.
Proof.
  pose proof (λ s ref t at_ len dl, accept_message_spec snd_le snd_s le s c u i ref p boots time scoped
                                      before post dl at_ len t) as HA.
  pose proof (message_data_spec snd_le snd_s c boots time scoped) as HD.
  destruct (message_data snd_le snd_s c boots time scoped) as [salt data].
  intros Hsec Ha Hp Hsc (Hsz & Hlev & (ptr & n & Hfind & Hn & Hu) & Hrec) Hil Hnl Hpb Hpt Hpsalt Hpsig Hbuf
    Hdata HW0 H12 Hdl Hd31 Hl Hroom Hfit.
  destruct (HD Hp Hsc) as [_ HD']. unfold process_params. rewrite Hl, Hdl.
  pose proof (zlen_nonneg data). rewrite u32_id by lia.
  assert ((theSecLevel c =? SNMP_SEC_LEVEL_AUTHPRIV) && negb (zlen (sp_salt p) =? 8) = false) as ->.
  { rewrite Hpsalt. destruct (theSecLevel c =? _); [|done].
    destruct HD' as (? & ? & ? & ? & ? & ? & _ & _ & _ & _ & _ & _ & _ & _ & -> & _). done. }
  destruct (cache_names_granted ref p (theSecLevel c)) as (ref1 & ->); [lia..|].
  destruct (Hrec (i_msg_flags i)) as (t1 & t2 & -> & Ht2). m_step. cbn [Z.eqb negb].
  cbn [us_heap us_userList us_noNameUser set_etimes]. rewrite Hfind. m_step.
  unfold node. rewrite Hn. m_step. rewrite Hu, Hlev. m_step. cbn [Z.eqb].
  assert ((if is_auth (theSecLevel c) then
      message ← rd_list (sp_buf p) (i_msg i) (Z.to_nat (i_wholeMsgLen i));
      sc_check_keyed_hash (u_authProtocol u) (u_authKey u) message (sp_signature p) else Ok ()) = Ok ()) as ->.
  { destruct (is_auth (theSecLevel c)) eqn:Ea; [|done]. rewrite HW0, Hpsig. m_step.
    destruct Hsec as (-> & -> & _ & _). by apply signature_spec; [|destruct W0|..]. }
  destruct (HA (set_etimes s t1) ref1 t2 (if theSecLevel c =? SNMP_SEC_LEVEL_AUTHPRIV
      then (λ b, (b, 0%nat)) <$> i_scopedPdu i else Some (sp_buf p, sp_data p))
      (if theSecLevel c =? SNMP_SEC_LEVEL_AUTHPRIV then i_scopedPduLen i else zlen data) (zlen data))
    as (d & ref' & before' & after & HE & HR); try done.
  { by intros El%Z.eqb_neq; rewrite El. }
  rewrite HE. by exists d, ref', (set_etimes (set_etimes s t1) t2), before', after.
Qed.

Lemma usm_process_spec snd_le snd_s le s isAuthoritative u c boots time g scoped id name i pre post :
  let '(salt, data) := message_data snd_le snd_s c boots time scoped in
  let W0 := usm_wire c boots time g salt data (no_mac (theSecLevel c)) in
  let W := usm_wire c boots time g salt data (signature c W0) in
  let tail := ber_params id boots time name (signature c W0) salt ++ data in
  theEngineID c = Some id → default [] (theName c) = name → same_secrets c u →
  receiver_ready le s isAuthoritative u (theSecLevel c) id name boots time →
  auth_ready c → priv_ready c → scoped ≠ [] →
  zlen id ≤ 64 → zlen name ≤ 32 → 0 ≤ boots < 2 ^ 31 → 0 ≤ time < 2 ^ 31 → zlen W < 2 ^ 30 →
  i_wholeMsg i = pre ++ W ++ post → i_msg i = length pre → i_wholeMsgLen i = zlen W →
  (i_secParams i + length tail = length pre + length W)%nat → i_secLevel i = theSecLevel c →
  (∃ room, i_scopedPdu i = Some room ∧ zlen room = i_scopedPduLen i) →
  (theSecLevel c = SNMP_SEC_LEVEL_AUTHPRIV → zlen W ≤ i_scopedPduLen i) →
  ∃ d ref s' before after, usm_process_in_msg malloc_ok le s isAuthoritative i = Ok (d, Some ref, s') ∧
    d_ret d = 0 ∧ d_secEngineID d = id ∧ d_secName d = name ∧
    d_scopedPdu d = Some (before ++ scoped ++ after, length before) ∧
    zlen scoped ≤ d_scopedPduLen d < 2 ^ 31.
Proof.
  pose proof (λ ref p W0 before, process_params_spec snd_le snd_s le s isAuthoritative u c i ref p W0
                boots time scoped before post) as HA.
  pose proof (message_data_spec snd_le snd_s c boots time scoped) as HD.
  destruct (message_data snd_le snd_s c boots time scoped) as [salt data].
  intros W0 W tail Hid Hname Hsec Hrec Ha Hp Hsc
    Hil Hnl Hb Ht HWz Hbuf Hmsg Hlen Hpos Hl Hroom Hfit.
  destruct (HD Hp Hsc) as [Hsalt HD']. clear HD.
  assert (W0 ≠ []) as HW0n by done.
  destruct (signature_spec c W0 Ha HW0n) as [Hsl Hsig]. set (sig := signature c W0) in *.
  assert (no_mac (theSecLevel c) = replicate (length sig) 0) as Hmac.
  { rewrite Hsl. unfold no_mac. by destruct (is_auth _). }
  set (h := var_op_tag :: ber_length (zlen (g ++ tail))).
  assert (W = h ++ g ++ tail) as HW.
  { unfold W, usm_wire. rewrite Hid, Hname. unfold h, tail. by rewrite ber_tlv_cons. }
  assert (W0 = h ++ g ++ ber_params id boots time name (replicate (length sig) 0) salt ++ data) as HW0.
  { unfold W0, usm_wire. rewrite Hid, Hname, Hmac, ber_tlv_cons. unfold h, tail. f_equal. f_equal. f_equal.
    rewrite !zlen_app, !ber_params_split, length_replicate. unfold ber_string.
    rewrite !zlen_app, !zlen_ber_tlv. unfold zlen. by rewrite length_replicate. }
  set (P := ber_params id boots time name sig salt) in *.
  set (P0 := ber_params id boots time name (replicate (length sig) 0) salt) in *.
  assert (length P0 = length P) as HPP.
  { unfold P, P0. rewrite !ber_params_split, length_replicate. unfold ber_string.
    rewrite !length_app, !ber_tlv_cons. unfold zlen. by rewrite !length_app, length_replicate. }
  assert (zlen W0 = zlen W) as HWW by (rewrite HW, HW0; unfold tail, zlen; rewrite !length_app; lia).
  assert (i_secParams i = length (pre ++ h ++ g)) as Hpos'.
  { rewrite HW in Hpos. rewrite !length_app in *. lia. }
  set (q := pre ++ h ++ g) in *.
  assert (i_wholeMsg i = q ++ P ++ data ++ post) as Hbuf'.
  { rewrite Hbuf, HW. unfold q, tail. by rewrite <- !app_assoc. }
  unfold usm_process_in_msg. rewrite Hpos', Hmsg, Hlen.
  assert (rd (i_wholeMsg i) (length q) = Ok ASN_OCTET_STR) as ->.
  { rewrite Hbuf'. apply rd_app_l. }
  assert (rd (i_wholeMsg i) (length pre) = Ok var_op_tag) as ->.
  { rewrite Hbuf, HW. apply rd_app_l. }
  m_step. unfold usm_malloc_usmStateReference. rewrite granted by lia.
  pose proof (zlen_nonneg W).
  assert (u32 (zlen W - u32 (ASN_OCTET_STR - var_op_tag)) = zlen W + 44) as ->.
  { change (u32 (ASN_OCTET_STR - var_op_tag)) with (2 ^ 32 - 44). unfold u32.
    replace (zlen W - (2 ^ 32 - 44)) with (zlen W + 44 + (-1) * 2 ^ 32) by lia.
    rewrite Z.mod_add by lia. apply Z.mod_small. lia. }
  assert (zlen P + zlen data ≤ zlen W) as HPW.
  { rewrite HW. unfold tail. rewrite !zlen_app. pose proof (zlen_nonneg h). pose proof (zlen_nonneg g). lia. }
  pose proof (zlen_nonneg data). pose proof (zlen_nonneg P).
  rewrite Hbuf'. unfold P.
  change (SNMP_MAX_ENG_SIZE * 2) with 64. change SNMP_MAX_SEC_NAME_SIZE with 256.
  change (BYTESIZE _) with 16. change (BYTESIZE _) with 16.
  assert (zlen sig ≤ 16) as Hs16.
  { unfold zlen. rewrite Hsl. unfold no_mac. destruct (is_auth _); cbn; lia. }
  rewrite parse_params_spec by (lia || fold P; lia). m_step. fold P P0.
  assert ((q ++ P0) ++ data ++ post = pre ++ W0 ++ post) as Hq.
  { rewrite HW0. unfold q. by rewrite <- !app_assoc. }
  match goal with |- context [SecParams ?a ?b ?c ?d ?e ?f ?g ?h] => set (p := SecParams a b c d e f g h) end.
  destruct (HA (UsmStateReference None None None None None None 0) p W0 (q ++ P0))
    as (d & ref' & s' & before & after & HE & HR); try done.
  - cbn [sp_buf p]. by rewrite <- app_assoc.
  - cbn [sp_data p]. by rewrite !length_app, HPP.
  - cbn [sp_buf p]. rewrite app_assoc, Hq, Hmsg, Hlen, <- HWW, Z_to_nat_zlen. apply rd_list_app.
  - pose proof (zlen_ber_params_ge id boots time name sig salt) as H12. fold P in H12.
    rewrite HWW. unfold USM_MD5_AND_SHA_AUTH_LEN. lia.
  - cbn [sp_data p]. rewrite Hlen, Hmsg, HW. unfold q, tail, zlen. rewrite !length_app. lia.
  - lia.
  - intros El. specialize (Hfit El). lia.
  - by exists d, ref', s', before, after.
Qed.
End Receiving.

(** ** The user-based security model as a security model *)

Section Model.
Context `{alloc : Allocator} `{CryptoLaws}.
Variable malloc_snd malloc_rcv : Z → bool.
Hypothesis granted_snd : malloc_grants malloc_snd.
Hypothesis granted_rcv : malloc_grants malloc_rcv.
(** The engines of the sender and of the receiver, and what the receiver's session is. *)
Variable le_snd le_rcv : local_engine.
Variable s_snd s_rcv : usm.
Variable isAuthoritative : option Z.
(** The user at either end, and the engine's boots and time as the sender knows them. *)
Variable u_snd u_rcv : usmUser.
Variable boots time : Z.

Definition user_credentials (o : outgoing) : credentials :=
  Credentials (o_secName o) (Some (o_secEngineID o)) (u_authProtocol u_snd) (u_authKey u_snd)
    (u_privProtocol u_snd) (u_privKey u_snd) (o_secLevel o).

Definition usm_tail (o : outgoing) (scoped : list Z) : list Z :=
  let c := user_credentials o in
  let '(salt, data) := message_data le_snd s_snd c boots time scoped in
  let W0 := usm_wire c boots time (o_globalData o) salt data (no_mac (o_secLevel o)) in
  ber_params (o_secEngineID o) boots time (default [] (o_secName o)) (signature c W0) salt ++ data.

(** The sender has the user with keys for the level and knows a time for the engine; the
    receiver shares the keys and is ready. *)
Definition usm_covers (o : outgoing) (scoped : list Z) : Prop :=
  let c := user_credentials o in
  choose_credentials s_snd (Some (o_secEngineID o)) (o_secName o) (o_secLevel o) None = Ok (Some c) ∧
  usm_check_secLevel_vs_protocols (o_secLevel o) (u_authProtocol u_snd) (u_privProtocol u_snd) = Ok 0 ∧
  (∃ known, get_enginetime (us_etimes s_snd) (le_time le_snd) (o_secEngineID o) false
            = Ok (known, (boots, time))) ∧
  (0 ≤ boots < 2 ^ 31) ∧ (0 ≤ time < 2 ^ 31) ∧ auth_ready c ∧ priv_ready c ∧
  same_secrets c u_rcv ∧
  receiver_ready malloc_rcv le_rcv s_rcv isAuthoritative u_rcv (o_secLevel o) (o_secEngineID o)
    (default [] (o_secName o)) boots time ∧
  zlen (o_secEngineID o) ≤ 64 ∧ zlen (default [] (o_secName o)) ≤ 32 ∧
  0 < zlen scoped < 2 ^ 15 ∧ zlen (v3_wire o (usm_tail o scoped)) < 2 ^ 30.

Lemma usm_encodes o scoped st :
  usm_covers o scoped → wf st → written st = scoped → o_scopedPduLen o = zlen scoped →
  grants (length (v3_wire o (usm_tail o scoped))) →
  ∃ st' s', usm_rgenerate_out_msg malloc_snd le_snd s_snd (o_globalData o) (Some (o_secEngineID o))
              (o_secName o) (o_secLevel o) (o_scopedPduLen o) None st = Ok (inr st', s') ∧ wf st' ∧
    written st' = v3_wire o (usm_tail o scoped).
Proof.
  intros (Hcr & Hlev & (known & Het) & Hb & Ht & Ha & Hp & _ & _ & _ & _ & Hsc & _) Hwf W Hsl Hg.
  assert (scoped ≠ []) as Hn by (intros ->; rewrite zlen_nil in Hsc; lia).
  pose proof (usm_rgenerate_spec malloc_snd le_snd s_snd (o_globalData o) (Some (o_secEngineID o))
    (o_secName o) (o_secLevel o) scoped (user_credentials o) boots time known st) as HS.
  unfold usm_tail in *. rewrite Hsl.
  destruct (message_data le_snd s_snd (user_credentials o) boots time scoped) as [salt data].
  set (W0 := usm_wire _ _ _ _ _ _ _) in *.
  change (v3_wire o _) with (usm_wire (user_credentials o) boots time (o_globalData o) salt data
    (signature (user_credentials o) W0)) in Hg |- *.
  apply HS; try done; [lia|].
  destruct (usm_wire_split (user_credentials o) boots time (o_globalData o) salt data
    (length (no_mac (o_secLevel o)))) as (a & _ & Hsp).
  assert (length W0 = length (usm_wire (user_credentials o) boots time (o_globalData o) salt data
    (signature (user_credentials o) W0))) as ->; [|done].
  pose proof (proj1 (signature_spec (user_credentials o) W0 Ha ltac:(done))) as Hl.
  rewrite (Hsp _ Hl). unfold W0 at 1. rewrite (Hsp _ eq_refl), !length_app, Hl. done.
Qed.

Lemma usm_decodes i o scoped pre post :
  usm_covers o scoped →
  i_wholeMsg i = pre ++ v3_wire o (usm_tail o scoped) ++ post → i_msg i = length pre →
  i_wholeMsgLen i = zlen (v3_wire o (usm_tail o scoped)) →
  (i_secParams i + length (usm_tail o scoped) = length pre + length (v3_wire o (usm_tail o scoped)))%nat →
  i_secLevel i = o_secLevel o →
  (∃ room, i_scopedPdu i = Some room ∧ zlen room = i_scopedPduLen i) →
  (o_secLevel o = SNMP_SEC_LEVEL_AUTHPRIV → i_wholeMsgLen i ≤ i_scopedPduLen i) →
  ∃ d ref s' before after,
    usm_process_in_msg malloc_rcv le_rcv s_rcv isAuthoritative i = Ok (d, Some ref, s') ∧ d_ret d = 0 ∧
    d_secEngineID d = o_secEngineID o ∧ d_secName d = default [] (o_secName o) ∧
    d_scopedPdu d = Some (before ++ scoped ++ after, length before) ∧
    zlen scoped ≤ d_scopedPduLen d < 2 ^ 31.
Proof.
  intros (_ & _ & _ & Hb & Ht & Ha & Hp & Hsec & Hrec & Hid & Hname & Hsc & Hz) Hbuf Hmsg Hlen Hpos Hl Hroom Hfit.
  assert (scoped ≠ []) as Hn by (intros ->; rewrite zlen_nil in Hsc; lia).
  pose proof (usm_process_spec malloc_rcv granted_rcv le_snd s_snd le_rcv s_rcv isAuthoritative u_rcv
    (user_credentials o) boots time (o_globalData o) scoped (o_secEngineID o) (default [] (o_secName o))
    i pre post) as HS.
  unfold usm_tail in *. rewrite Hlen in Hfit.
  destruct (message_data le_snd s_snd (user_credentials o) boots time scoped) as [salt data].
  by apply HS.
Qed.

#[export] Program Instance usm_model :
  SecurityModel (usm_secmod malloc_snd le_snd isAuthoritative None s_snd)
                (usm_secmod malloc_rcv le_rcv isAuthoritative None s_rcv) := {|
  sm_covers := usm_covers;
  sm_tail := usm_tail;
|}.
Next Obligation.
  intros o scoped st Hc Hwf Ho W Hsl Hg.
  destruct (usm_encodes o scoped st Hc Hwf W Hsl Hg) as (st' & s' & HE & HR).
  eexists _, st'. split; [done|]. cbv beta. by rewrite HE.
Qed.
Next Obligation.
  intros i o scoped pre post Hc HW Hm Hl Hp _ Hlev Hr Hf.
  destruct (usm_decodes i o scoped pre post Hc HW Hm Hl Hp Hlev Hr Hf)
    as (d & ref & s' & before & after & HE & HR).
  eexists _, d, before, after. split; [done|]. cbv beta. by rewrite HE.
Qed.
End Model.

(** ** Properties *)

(** A user with keys for SHA-1 and AES, known to both engines, and the time of the engine
    [128; 0; 1], which is the receiver. *)
Definition sample_user : usmUser :=
  UsmUser (Some [128; 0; 1]) (Some [109; 101]) (Some [109; 101]) None (Some usmHMACSHA1AuthProtocol)
    (Some (replicate 20 7)) (Some usmAESPrivProtocol) (Some (replicate 16 9)) None RS_ACTIVE ST_NONVOLATILE.
Definition sample_engine : local_engine := LocalEngine [128; 0; 1] 3 100.
Definition sample_usm : usm :=
  Usm {[ 1%nat := UNode sample_user None None ]} (Some 1%nat) None
    (<[slot (H := toy_crypto) [128; 0; 1] := [Enginetime [128; 0; 1] 90 3 90 true]]> (replicate 23 [])) 5 6 7.
Definition sample_usm_session : v3session :=
  V3Session [] (Some [99]) [128; 0; 1] (Some [109; 101]) 2 SNMP_DEFAULT_SECMODEL
    SNMP_SEC_LEVEL_AUTHPRIV 1472.
Definition sample_usm_sent : v3msg :=
  V3Msg SNMP_VERSION_3 9 SNMP_SEC_MODEL_USM SNMP_SEC_LEVEL_AUTHPRIV [128; 0; 1] (Some [99])
    [128; 0; 1] (Some [109; 101]) (sample_request 0).

(** C5: a message that snmpv3_build makes with the user-based security model at any
    level, signed with the user's HMAC and encrypted with DES or AES as the level asks, is
    accepted by snmpv3_parse at an engine that shares the keys, knows the engine
    identifier and finds the time in its window, with the same contents; the octets sent are those
    of the reference encoding.  The PDU is one of [pdu_exact], as for snmpv3_roundtrip:
    in particular it has no negative 64-bit integer that fits four octets. *)
Theorem usm_message_roundtrip `{alloc : Allocator} `{CryptoLaws} malloc_ok le_snd le_rcv s_snd s_rcv
    isAuthoritative u_snd u_rcv boots time find_snd find_rcv default_model hdrbuf objid tmp_buf
    s m m' bs pkt :
  let scoped := ber_scoped m' bs in
  let o := v3_outgoing s m' scoped in
  let W := v3_wire o (usm_tail le_snd s_snd u_snd boots time o scoped) in
  v3_complete malloc_ok default_model s m = Done m' → v3_ok s m' → pdu_exact (v3_pdu m') bs →
  wf (RState pkt 0) → wf (RState hdrbuf 0) → malloc_grants malloc_ok →
  zlen objid = MAX_OID_LEN → zlen tmp_buf = SNMP_MAX_MSG_SIZE →
  find_snd (v3_securityModel m') = Some (usm_secmod malloc_ok le_snd isAuthoritative None s_snd) →
  find_rcv (v3_securityModel m') = Some (usm_secmod malloc_ok le_rcv isAuthoritative None s_rcv) →
  usm_covers malloc_ok le_snd le_rcv s_snd s_rcv isAuthoritative u_snd u_rcv boots time o scoped →
  zlen W ≤ 2 ^ 16 → grants (length scoped) → grants (length W) →
  ∃ st, snmpv3_build malloc_ok find_snd default_model hdrbuf s m (RState pkt 0)
        = Ok (Done (st, m')) ∧ written st = W ∧
    snmpv3_parse malloc_ok find_rcv objid tmp_buf (Asn1Rbuild.pkt st)
      (length (Asn1Rbuild.pkt st) - offset st) (Z.of_nat (offset st))
    = Ok (Some (vs_rcvMsgMaxSize s), Done (v3_received m' bs)).
Proof.
  intros scoped o W Hc Hok Hx Hwf Hwf' Hm Hobj Htmp Hs Hr Hcov HW Hg Hg'.
  pose proof (v3_roundtrip malloc_ok find_snd find_rcv default_model hdrbuf objid tmp_buf _ _
    (SecurityModel0 := usm_model malloc_ok malloc_ok Hm Hm le_snd le_rcv s_snd s_rcv
      isAuthoritative u_snd u_rcv boots time) s m m' bs pkt) as HR.
  cbv zeta in HR. cbn [sm_tail sm_covers usm_model] in HR. fold scoped o W in HR.
  apply HR; try done.
  destruct Hcov as (_ & _ & _ & _ & _ & _ & _ & _ & _ & _ & _ & Hz & _). lia.
Qed.

Lemma sample_covers :
  let scoped := ber_scoped sample_usm_sent [sample_binding] in
  usm_covers (H := toy_crypto) (λ _, true) sample_engine sample_engine sample_usm sample_usm
    (Some SNMP_SESS_AUTHORITATIVE) sample_user sample_user 3 100
    (v3_outgoing sample_usm_session sample_usm_sent scoped) scoped.
Proof.
  intros scoped. split; [by vm_compute|]. split; [by vm_compute|]. split; [exists true; by vm_compute|].
  split; [lia|]. split; [lia|].
  split; [|split; [|split; [by split_and!|split; [|split; [by vm_compute|split; [by vm_compute|]]]]]].
  - intros _. exists usmHMACSHA1AuthProtocol, 20, (EVP_sha1 (Crypto := toy_crypto)),
      (HMAC_sha1 (Crypto := toy_crypto)), (replicate 20 7).
    split; [by apply is_sha1|]. split_and!; by vm_compute.
  - intros _. exists usmAESPrivProtocol, 16%nat, 16%nat, (λ _, 0), (replicate 16 9).
    split; [by apply is_AES|]. split_and!; by vm_compute.
  - split; [split_and!; by vm_compute|]. split; [by vm_compute|]. split.
    + exists 1%nat, (UNode sample_user None None). split_and!; by vm_compute.
    + intros flags. eexists _, _. split; by vm_compute.
  - apply (bool_decide_unpack _). by vm_compute.
Qed.

Definition sample_usm_msg : v3msg :=
  V3Msg SNMP_VERSION_3 9 SNMP_DEFAULT_SECMODEL 0 [] None [] None (sample_request SNMP_DEFAULT_ERRSTAT).
Definition sample_usm_models (_ : Z) : option secmod :=
  Some (usm_secmod (H := toy_crypto) (H0 := malloc_all) (λ _, true) sample_engine
          (Some SNMP_SESS_AUTHORITATIVE) None sample_usm).

Lemma usm_message_roundtrip_witness :
  let scoped := ber_scoped sample_usm_sent [sample_binding] in
  let o := v3_outgoing sample_usm_session sample_usm_sent scoped in
  let W := v3_wire o (usm_tail (H := toy_crypto) sample_engine sample_usm sample_user 3 100 o scoped) in
  length W = 105%nat ∧
  ∃ st, snmpv3_build (alloc := malloc_all) (λ _, true) sample_usm_models 0 (replicate 51 0)
          sample_usm_session sample_usm_msg (RState [] 0) = Ok (Done (st, sample_usm_sent)) ∧ written st = W ∧
    snmpv3_parse (λ _, true) sample_usm_models (replicate 128 0) (replicate 1472 0)
      (Asn1Rbuild.pkt st) (length (Asn1Rbuild.pkt st) - offset st) (Z.of_nat (offset st))
    = Ok (Some (vs_rcvMsgMaxSize sample_usm_session), Done (v3_received sample_usm_sent [sample_binding])).
Proof.
  intros scoped o W. split; [by vm_compute|].
  apply (usm_message_roundtrip (alloc := malloc_all) (H := toy_crypto) (λ _, true) sample_engine sample_engine
           sample_usm sample_usm (Some SNMP_SESS_AUTHORITATIVE) sample_user sample_user 3 100
           sample_usm_models sample_usm_models 0 (replicate 51 0) (replicate 128 0) (replicate 1472 0)
           sample_usm_session sample_usm_msg sample_usm_sent [sample_binding] []);
    [by vm_compute|by split_and!|apply sample_sent_ok|by split|split; [simpl; lia|by vm_compute]
    |by intros ? ?|by vm_compute|by vm_compute|done|done|exact sample_covers|by vm_compute
    |apply malloc_all_grants; by vm_compute|apply malloc_all_grants; by vm_compute].
Defined.
