(* ===== verification/UsmSafe.v ===== *)
(** * What the user-based security model accepts

    usm_process_in_msg returns success at a level with authentication only for a message
    whose authentication parameters are the keyed hash of the message under the key of a
    user of the list, and only in the window of time; a message of an engine with a lower
    number of boots than an authentic message had before is refused, whatever was
    received in between. *)

From S2P Require Import Prelude Ber Asn1 Asn1Int Asn1Str VarBind Pdu PduParse.
From S2P Require Import Message Session OidCompare Scapi LcdTime V3 Usm UsmMsg UsmRound.
From stdpp Require Import prelude numbers list gmap.
From Stdlib Require Import ZArith Lia.
Open Scope Z_scope.

(** ** Signatures *)

Lemma properlength_inv `{Crypto} t n :
  zlen t = USM_LENGTH_OID_TRANSFORM → sc_get_properlength t = Ok n → n ≠ -1 →
  ∃ d h, hash_transform t n d h.
Proof.
  intros Hz. unfold sc_get_properlength. rewrite !ISTRANSFORM_spec by done. m_step.
  case_bool_decide as E1; [intros [= <-] _; eexists _, _; by apply is_md5|].
  case_bool_decide as E2; intros [= <-] Hn; [|done]. eexists _, _. by apply is_sha1.
Qed.

(** What the check of a keyed hash has verified. *)
Lemma sc_check_keyed_hash_inv `{CryptoLaws} authtype key message MAC :
  sc_check_keyed_hash authtype key message MAC = Ok () →
  ∃ t k n d h, authtype = Some t ∧ key = Some k ∧ hash_transform t n d h ∧ n ≤ zlen k ∧
    MAC = take 12 (h k message).
Proof.
  intros HC. pose proof HC as HC'. unfold sc_check_keyed_hash in HC.
  destruct authtype as [t|]; [|done]. destruct key as [k|]; [|done].
  destruct (_ || _ || _ || _) eqn:E1; [done|]. apply orb_false_elim in E1 as [E1 Et].
  apply negb_false_iff, Z.eqb_eq in Et. destruct (negb _) eqn:E2; [done|].
  destruct (sc_generate_keyed_hash (Some t) (Some k) message SNMP_MAXBUF_SMALL) as [buf| |] eqn:Eg;
    m_step; [|done..].
  destruct (Z.ltb_spec (zlen message) (zlen MAC)) as [|Hl]; [done|]. clear HC.
  apply negb_false_iff, Z.eqb_eq in E2.
  unfold sc_generate_keyed_hash in Eg. destruct (_ || _ || _ || _); [done|].
  destruct (sc_get_properlength t) as [n| |] eqn:Ep; m_step; [|done..].
  cbn [mbind M_bind] in Eg. destruct (Z.eqb_spec n (-1)) as [|Hn]; [done|].
  destruct (Z.ltb_spec (zlen k) n) as [|Hk]; [done|]. clear Eg.
  destruct (properlength_inv t n Et Ep Hn) as (d & h & Ht). exists t, k, n, d, h.
  split_and!; try done. apply (sc_check_keyed_hash_iff t n d h k message); [done..|lia|done].
Qed.

(** ** What a result of usm_process_in_msg says *)

Section Inversion.
Context `{Crypto}.
Variable malloc_ok : Z → bool.
Variable le : local_engine.

Lemma decrypt_scoped_code u p data_len room room_len code :
  decrypt_scoped u p data_len room room_len = Ok (inl code) → code ≠ 0.
Proof.
  unfold decrypt_scoped.
  destruct (asn_parse_sequence _ _ _ _) as [[[q n] ty]| |]; [|by intros [= <-]|done].
  destruct (u_privProtocol u) as [proto|]; [|done].
  destruct (ISTRANSFORM proto usmDESPrivProtocol) as [des| |]; m_step; [|done..].
  destruct (ISTRANSFORM proto usmAESPrivProtocol) as [aes| |]; m_step; [|done..].
  destruct (des && _); [by intros [= <-]|].
  match goal with |- context [mbind _ ?m] => destruct m as [iv| |] end; m_step; [|done..].
  destruct (rd_list _ _ _) as [ct| |]; m_step; [|done..].
  match goal with |- match ?m with _ => _ end = _ → _ => destruct m as [pl| |] end;
    [done|by intros [= <-]|done].
Qed.

(** The checks that come last. *)
Lemma accept_message_inv s i ref p user data_len scoped len d ref' s' :
  accept_message malloc_ok le s i ref p user data_len scoped len = Ok (d, ref', s') →
  (d_ret d ≠ 0 ∧ s' = s) ∨
  ∃ code t, check_time malloc_ok le (us_etimes s) (i_secLevel i) (sp_engineID p) (sp_boots p) (sp_time p)
            = Ok (code, t) ∧ s' = set_etimes s t ∧
    (d_ret d = 0 → code = 0 ∧ d_secEngineID d = sp_engineID p ∧ d_secName d = sp_name p).
Proof.
  unfold accept_message, refuse. destruct (cache_keys _ _ _) as [ref1| |]; [|intros [= <- <- <-]; by left|done].
  destruct (check_time _ _ _ _ _ _ _) as [[code t]| |]; m_step; [|done..].
  intros HE. right. exists code, t. split; [done|]. revert HE.
  destruct (Z.eqb_spec code 0) as [->|Hc]; cbn [negb]; [|by intros [= <- <- <-]].
  destruct (_ =? SNMP_SEC_LEVEL_AUTHPRIV); [|by intros [= <- <- <-]].
  destruct (decrypt_scoped _ _ _ _ _) as [[c|plain]| |] eqn:Ed; m_step; [| |done..].
  - intros [= <- <- <-]. split; [done|]. intros E0. by apply decrypt_scoped_code in Ed.
  - destruct (wr_list _ _ _) as [r| |]; m_step; [|done..]. by intros [= <- <- <-].
Qed.

(** The outcome of processing the parsed parameters [p]: refused before the engine was
    located; refused with the table that locating the engine left; or with the table
    that the check of the time left, after the user, the level and the signature were checked. *)
Definition processed_params (s : usm) (isAuthoritative : option Z) (i : incoming) (p : sec_params)
    (d : decode_result) (s' : usm) : Prop :=
  (d_ret d ≠ 0 ∧ s' = s) ∨
  ∃ code t1, locate_engine malloc_ok le (us_etimes s) isAuthoritative (i_msg_flags i) (sp_engineID p)
             = Ok (code, t1) ∧
    ((d_ret d ≠ 0 ∧ s' = set_etimes s t1) ∨
     code = 0 ∧
     (∃ ptr n v, usm_get_user_from_list (us_heap s) (Some (sp_engineID p)) (Some (sp_name p))
                 (us_userList s) (use_default isAuthoritative) (us_noNameUser s) = Ok (Some ptr) ∧
       us_heap s !! ptr = Some n ∧ usm_check_secLevel (i_secLevel i) (un_user n) = Ok v ∧ v ≠ 1 ∧
       (is_auth (i_secLevel i) = true →
        ∃ message, rd_list (sp_buf p) (i_msg i) (Z.to_nat (i_wholeMsgLen i)) = Ok message ∧
          sc_check_keyed_hash (u_authProtocol (un_user n)) (u_authKey (un_user n)) message
            (sp_signature p) = Ok ())) ∧
     ∃ code2 t2, check_time malloc_ok le t1 (i_secLevel i) (sp_engineID p) (sp_boots p) (sp_time p)
                 = Ok (code2, t2) ∧ s' = set_etimes s t2 ∧
       (d_ret d = 0 → code2 = 0 ∧ d_secEngineID d = sp_engineID p ∧ d_secName d = sp_name p)).

Lemma process_params_inv s isAuthoritative i ref p d ref' s' :
  process_params malloc_ok le s isAuthoritative i ref p = Ok (d, ref', s') →
  processed_params s isAuthoritative i p d s'.
Proof.
  unfold process_params, refuse. destruct (_ && _); [intros [= <- <- <-]; by left|].
  destruct (cache_names _ _ _ _) as [ref1| |]; [|intros [= <- <- <-]; by left|done].
  destruct (locate_engine _ _ _ _ _ _) as [[code t1]| |] eqn:El; m_step; [|done..].
  intros HE. right. exists code, t1. split; [done|]. revert HE.
  destruct (Z.eqb_spec code 0) as [->|Hc]; cbn [negb]; [|intros [= <- <- <-]; by left].
  cbn [us_heap us_userList us_noNameUser set_etimes].
  destruct (usm_get_user_from_list _ _ _ _ _ _) as [[ptr|]| |] eqn:Eu; m_step;
    [|intros [= <- <- <-]; by left|done..].
  unfold node. destruct (us_heap s !! ptr) as [n|] eqn:En; m_step; [|done].
  destruct (usm_check_secLevel _ _) as [v| |] eqn:Ev; m_step; [|done..].
  destruct (Z.eqb_spec v 1) as [|Hv]; [intros [= <- <- <-]; by left|].
  destruct (if is_auth (i_secLevel i) then _ else _) as [[]| |] eqn:Es; [|intros [= <- <- <-]; by left|done].
  intros HE%accept_message_inv. destruct HE as [[HE ->]|(code2 & t2 & Ht & -> & HE)]; [by left|].
  right. split; [done|]. split; [|by exists code2, t2].
  exists ptr, n, v. split_and!; try done. intros Ha. rewrite Ha in Es.
  destruct (rd_list _ _ _) as [message| |]; [|done..]. by exists message.
Qed.

Lemma usm_process_inv s isAuthoritative i d ref' s' :
  usm_process_in_msg malloc_ok le s isAuthoritative i = Ok (d, ref', s') →
  (d_ret d ≠ 0 ∧ s' = s) ∨
  ∃ remaining p, usm_parse_security_parameters (i_wholeMsg i) (i_secParams i) remaining 64 256 16 16
                 = Ok (inr p) ∧ processed_params s isAuthoritative i p d s'.
Proof.
  unfold usm_process_in_msg, refuse.
  destruct (rd _ (i_secParams i)) as [b1| |]; m_step; [|done..].
  destruct (rd _ (i_msg i)) as [b2| |]; m_step; [|done..].
  destruct (usm_malloc_usmStateReference _) as [ref|]; [|intros [= <- <- <-]; by left].
  destruct (usm_parse_security_parameters _ _ _ _ _ _) as [[rc|p]| |] eqn:Ep; m_step; [| |done..].
  - intros [= <- <- <-]. left. split; [|done]. cbn [d_ret]. by destruct (rc =? -2).
  - intros HE%process_params_inv. right. by eexists _, p.
Qed.
End Inversion.

(** ** The window of time *)

(** What the parser has checked. *)
Lemma parse_params_bounds buf secParams remaining n1 n2 n3 n4 p :
  usm_parse_security_parameters buf secParams remaining n1 n2 n3 n4 = Ok (inr p) →
  0 ≤ sp_boots p ≤ ENGINEBOOT_MAX ∧ 0 ≤ sp_time p ≤ ENGINETIME_MAX.
Proof.
  unfold usm_parse_security_parameters.
  destruct (asn_parse_sequence _ _ remaining _) as [[[q1 l1] t1]| |]; cbn [or_code]; [|done..].
  destruct (asn_parse_sequence _ _ l1 _) as [[[q2 l2] t2]| |]; cbn [or_code]; [|done..].
  destruct (asn_parse_string _ q2 _ _ _) as [[[[q3 l3] t3] [id idl]]| |]; cbn [or_code]; [|done..].
  destruct (negb (t3 =? _)); [done|].
  destruct (asn_parse_int _ q3 _ _) as [[[[q4 l4] t4] boots]| |]; cbn [or_code]; [|done..].
  destruct (negb (t4 =? _)); [done|].
  destruct (asn_parse_int _ q4 _ _) as [[[[q5 l5] t5] time]| |]; cbn [or_code]; [|done..].
  destruct (negb (t5 =? _)); [done|].
  destruct (_ || (ENGINETIME_MAX <? _)) eqn:Em; [done|].
  destruct (asn_parse_string _ q5 _ _ _) as [[[[q6 l6] t6] [name namel]]| |]; cbn [or_code]; [|done..].
  destruct (_ || (32 <? _)); [done|]. destruct (negb (t6 =? _)); [done|].
  destruct (asn_parse_string _ q6 _ _ _) as [[[[q7 l7] t7] [sig sigl]]| |]; cbn [or_code]; [|done..].
  destruct (negb (t7 =? _)); [done|]. destruct (blank_signature _ _ _) as [buf'| |]; m_step; [|done..].
  destruct (asn_parse_string _ q7 _ _ _) as [[[[q8 l8] t8] [salt saltl]]| |]; cbn [or_code]; [|done..].
  destruct (negb (t8 =? _)); [done|]. intros [= <-]. cbn [sp_boots sp_time].
  rewrite orb_false_iff, !Z.ltb_ge in Em. pose proof (u32_range boots). pose proof (u32_range time). lia.
Qed.

Section Window.
Context `{CryptoLaws}.
Variable malloc_ok : Z → bool.
Hypothesis granted : ∀ n, malloc_ok n = true.
Variable le : local_engine.

(** The messages that are timely: of the local engine with its boots and a time at most
    150 seconds away from its own; of another engine with a known record, with later boots
    than estimated, or the same and a time that is later than the last one stored or at
    most 150 seconds away from the estimate. *)
Definition in_window (m : gmap (list Z) enginetime) (id : list Z) (boots time : Z) : Prop :=
  if decide (id = le_engineID le)
  then boots = le_boots le ∧ boots ≠ ENGINEBOOT_MAX ∧ Z.abs (le_time le - time) ≤ USM_TIME_WINDOW
  else
    ∃ e, m !! id = Some e ∧
      let '(theirBoots, theirTime, theirLastTime) := estimate (le_time le) e true in
      theirBoots ≠ ENGINEBOOT_MAX ∧
      (theirBoots < boots ∨
       theirBoots = boots ∧
       (theirLastTime ≤ time ∨ Z.abs (theirTime - time) ≤ USM_TIME_WINDOW)).

(** The message is newer than the record. *)
Definition is_fresh (m : gmap (list Z) enginetime) (id : list Z) (boots time : Z) : Prop :=
  id ≠ le_engineID le ∧
  ∃ e, m !! id = Some e ∧
    let '(theirBoots, _, theirLastTime) := estimate (le_time le) e true in
    theirBoots ≠ ENGINEBOOT_MAX ∧
    (theirBoots < boots ∨ theirBoots = boots ∧ theirLastTime ≤ time).

Lemma difference_abs a b : (if b <? a then a - b else b - a) = Z.abs (a - b).
Proof. destruct (Z.ltb_spec b a); lia. Qed.

Lemma in_window_remote m id e boots time B T L :
  id ≠ le_engineID le → m !! id = Some e → estimate (le_time le) e true = (B, T, L) →
  in_window m id boots time ↔
  B ≠ ENGINEBOOT_MAX ∧ (B < boots ∨ B = boots ∧ (L ≤ time ∨ Z.abs (T - time) ≤ USM_TIME_WINDOW)).
Proof.
  intros Hid Hm He. unfold in_window. rewrite decide_False by done. split.
  - intros (e' & Hm' & HW). replace e' with e in HW by congruence. by rewrite He in HW.
  - intros HW. exists e. by rewrite He.
Qed.

Lemma is_fresh_remote m id e boots time B T L :
  id ≠ le_engineID le → m !! id = Some e → estimate (le_time le) e true = (B, T, L) →
  is_fresh m id boots time ↔ B ≠ ENGINEBOOT_MAX ∧ (B < boots ∨ B = boots ∧ L ≤ time).
Proof.
  intros Hid Hm He. unfold is_fresh. split.
  - intros (_ & e' & Hm' & HW). replace e' with e in HW by congruence. by rewrite He in HW.
  - intros HW. split; [done|]. exists e. by rewrite He.
Qed.

Lemma timeliness_spec t m id boots time :
  represents t m → 0 < zlen (le_engineID le) ≤ USM_MAX_ID_LENGTH →
  ∃ code t', usm_check_and_update_timeliness malloc_ok le t id boots time = Ok (code, t') ∧
    (code = 0 ↔ in_window m id boots time) ∧
    ((is_fresh m id boots time ∧ represents t' (map_set m (le_time le) id boots time true)) ∨
     (¬ is_fresh m id boots time ∧ t' = t)).
Proof.
  intros HR Hme. unfold usm_check_and_update_timeliness.
  destruct (Z.ltb_spec USM_MAX_ID_LENGTH (zlen (le_engineID le))); [lia|].
  destruct (Z.eqb_spec (zlen (le_engineID le)) 0); [lia|]. cbn [orb].
  rewrite !difference_abs. destruct (decide (id = le_engineID le)) as [Eid|Eid].
  { rewrite bool_decide_true by done. unfold in_window, is_fresh. rewrite decide_True by done.
    destruct (Z.eqb_spec boots ENGINEBOOT_MAX), (Z.eqb_spec boots (le_boots le)),
      (Z.ltb_spec USM_TIME_WINDOW (Z.abs (le_time le - time))); cbn [orb negb];
      (eexists _, t; split; [done|]; split; [split; [done || lia|intros; done || lia]|right; tauto]). }
  rewrite bool_decide_false, (get_enginetime_ex_spec t m) by done. m_step.
  destruct (m !! id) as [e|] eqn:Em; m_step.
  2: { eexists _, t. split; [done|]. unfold in_window, is_fresh. rewrite decide_False by done.
       split; [split; [done|naive_solver]|right; naive_solver]. }
  destruct (estimate (le_time le) e true) as [[B T] L] eqn:Ee.
  setoid_rewrite (in_window_remote m id e boots time B T L Eid Em Ee).
  setoid_rewrite (is_fresh_remote m id e boots time B T L Eid Em Ee). rewrite !difference_abs.
  destruct (Z.eqb_spec B ENGINEBOOT_MAX); cbn [orb].
  { eexists _, t. split; [done|]. split; [split; [done|tauto]|right; tauto]. }
  destruct (Z.ltb_spec boots B).
  { eexists _, t. split; [done|]. split; [split; [done|lia]|right; split; [lia|done]]. }
  destruct (Z.eqb_spec B boots), (Z.ltb_spec time L); cbn [andb].
  1: { eexists _, t. split; [done|]. split; [|right; split; [lia|done]].
       destruct (Z.ltb_spec USM_TIME_WINDOW (Z.abs (T - time))); split; done || lia. }
  all: destruct (set_enginetime_spec malloc_ok t m (le_time le) id boots time true) as (t' & -> & HR');
    [done|by apply granted..|]; m_step;
    eexists _, t'; (split; [done|]); (split; [|by left; split; [lia|]]); split; done || lia.
Qed.
End Window.

(** ** Records only get newer *)

(** The record of an engine is from an authentic message and has at least [b] boots. *)
Definition knows (m : gmap (list Z) enginetime) (id : list Z) (b : Z) : Prop :=
  ∃ e, m !! id = Some e ∧ authenticatedFlag e = true ∧ 0 ≤ b ≤ engineBoot e ∧
    engineBoot e ≤ ENGINEBOOT_MAX.

(** [m'] has forgotten nothing of [m]. *)
Definition not_older (m m' : gmap (list Z) enginetime) : Prop := ∀ id b, knows m id b → knows m' id b.

#[local] Instance not_older_preorder : PreOrder not_older.
Proof. split; [by intros m id b|]. intros m1 m2 m3 H12 H23 id b Hk. by apply H23, H12. Qed.

Lemma estimate_boots now e B T L :
  authenticatedFlag e = true → 0 ≤ engineBoot e ≤ ENGINEBOOT_MAX →
  estimate now e true = (B, T, L) → engineBoot e ≤ B.
Proof.
  intros Ha Hb. unfold estimate. rewrite Ha. cbn [negb orb]. unfold ENGINEBOOT_MAX in *.
  destruct (_ <? s32 _); [|intros [= <- _ _]; lia].
  destruct (Z.ltb_spec (engineBoot e) 2147483647); intros [= <- _ _]; [rewrite u32_id; lia|lia].
Qed.

Lemma map_set_unauthentic m now id boots time : not_older m (map_set m now id boots time false).
Proof.
  intros id' b (e & He & Ha & Hb). unfold map_set. case_decide; [by exists e|].
  destruct (decide (id' = id)) as [->|Hne].
  - rewrite He. simpl. unfold stamp. rewrite Ha. cbn [orb negb]. exists e.
    by rewrite lookup_insert_eq.
  - exists e. by rewrite lookup_insert_ne by done.
Qed.

Section Newer.
Context `{CryptoLaws}.
Variable malloc_ok : Z → bool.
Hypothesis granted : ∀ n, malloc_ok n = true.

Lemma map_set_fresh le m id boots time :
  is_fresh le m id boots time → boots ≤ ENGINEBOOT_MAX →
  not_older m (map_set m (le_time le) id boots time true).
Proof.
  intros (_ & e0 & He0 & HF) Hmax id' b (e & He & Ha & Hb & Hb'). unfold map_set. case_decide; [by exists e|].
  destruct (decide (id' = id)) as [->|Hne].
  - assert (e0 = e) as -> by congruence. rewrite He. simpl. unfold stamp. cbn [orb].
    destruct (estimate (le_time le) e true) as [[B T] L] eqn:Ee.
    apply estimate_boots in Ee; [|done|lia].
    eexists. rewrite lookup_insert_eq. split; [done|]. cbn. split; [done|lia].
  - exists e. by rewrite lookup_insert_ne by done.
Qed.

Lemma locate_engine_newer le t m isAuthoritative flags id code t1 :
  represents t m → locate_engine malloc_ok le t isAuthoritative flags id = Ok (code, t1) →
  ∃ m1, represents t1 m1 ∧ not_older m m1.
Proof.
  intros HR. unfold locate_engine. destruct (match isAuthoritative with Some _ => _ | None => _ end).
  - destruct (ISENGINEKNOWN _ _ _) as [k| |]; m_step; [|done..]. intros [= _ <-]. by exists m.
  - unfold ENSURE_ENGINE_RECORD.
    destruct (set_enginetime_spec malloc_ok t m (le_time le) id 0 0 false) as (t' & -> & HR'); [done..|].
    m_step. intros [= _ <-]. eexists. split; [done|]. apply map_set_unauthentic.
Qed.

Lemma check_time_newer le t m level id boots time code t2 :
  represents t m → boots ≤ ENGINEBOOT_MAX →
  check_time malloc_ok le t level id boots time = Ok (code, t2) →
  (∃ m2, represents t2 m2 ∧ not_older m m2) ∧
  (code = 0 → is_auth level = true → in_window le m id boots time).
Proof.
  intros HR Hmax. unfold check_time. destruct (is_auth level); cbn [Bool.eqb].
  - destruct (decide (0 < zlen (le_engineID le) ≤ USM_MAX_ID_LENGTH)) as [Hme|Hme].
    + destruct (timeliness_spec malloc_ok granted le t m id boots time HR Hme)
        as (c & t' & -> & Hc & [[HF HR']|[_ ->]]); intros [= <- <-];
        (split; [|by intros ?%Hc]); [|by exists m].
      eexists. split; [done|]. by apply map_set_fresh.
    + unfold usm_check_and_update_timeliness.
      assert ((USM_MAX_ID_LENGTH <? zlen (le_engineID le)) || (zlen (le_engineID le) =? 0) = true) as ->.
      { pose proof (zlen_nonneg (le_engineID le)).
        destruct (Z.ltb_spec USM_MAX_ID_LENGTH (zlen (le_engineID le))); [done|]. apply Z.eqb_eq. lia. }
      intros [= <- <-]. split; [by exists m|done].
  - destruct (set_enginetime_spec malloc_ok t m (le_time le) id boots time false) as (t' & -> & HR'); [done..|].
    m_step. intros [= <- <-]. split; [|done]. eexists. split; [done|]. apply map_set_unauthentic.
Qed.

(** Every message keeps what is known, and an authentic one is timely. *)
Lemma usm_process_newer le s m isAuthoritative i d ref s' :
  represents (us_etimes s) m →
  usm_process_in_msg malloc_ok le s isAuthoritative i = Ok (d, ref, s') →
  (∃ m', represents (us_etimes s') m' ∧ not_older m m') ∧
  (d_ret d = 0 → is_auth (i_secLevel i) = true →
   ∃ remaining p m1, usm_parse_security_parameters (i_wholeMsg i) (i_secParams i) remaining 64 256 16 16
                  = Ok (inr p) ∧ d_secEngineID d = sp_engineID p ∧
     not_older m m1 ∧ in_window le m1 (sp_engineID p) (sp_boots p) (sp_time p)).
Proof.
  intros HR HE. apply usm_process_inv in HE as [[HE ->]|(rem & p & Hp & HE)]; [by split; [exists m|]|].
  destruct (parse_params_bounds _ _ _ _ _ _ _ _ Hp) as [Hb _].
  destruct HE as [[HE ->]|(code & t1 & Hl & HE)]; [by split; [exists m|]|].
  destruct (locate_engine_newer le _ m _ _ _ _ _ HR Hl) as (m1 & HR1 & H01).
  destruct HE as [[HE ->]|(_ & _ & code2 & t2 & Ht & -> & HE)]; [by split; [exists m1|]|].
  destruct (check_time_newer le t1 m1 _ _ _ _ _ _ HR1 (proj2 Hb) Ht) as [(m2 & HR2 & H12) Hw].
  split; [exists m2; split; [done|by etransitivity]|]. intros H0' Ha. destruct (HE H0') as (-> & Hid & _).
  exists rem, p, m1. split_and!; [done|done|done|]. by apply Hw.
Qed.
End Newer.

(** ** Properties *)

(** C6: usm_process_in_msg returns success at a level with authentication only if the user
    it found for the engine identifier and name of the message has a key for HMAC-MD5 or
    HMAC-SHA-1, and the authentication parameters are the first 12 octets of that keyed
    hash over the whole message with the parameters blanked; the names it returns are
    those of the message. *)
Theorem usm_accepts_authentic `{CryptoLaws} malloc_ok le s isAuthoritative i d ref s' :
  usm_process_in_msg malloc_ok le s isAuthoritative i = Ok (d, ref, s') → d_ret d = 0 →
  is_auth (i_secLevel i) = true →
  ∃ remaining p ptr n t key size digest hmac message,
    usm_parse_security_parameters (i_wholeMsg i) (i_secParams i) remaining 64 256 16 16 = Ok (inr p) ∧
    d_secEngineID d = sp_engineID p ∧ d_secName d = sp_name p ∧
    usm_get_user_from_list (us_heap s) (Some (sp_engineID p)) (Some (sp_name p)) (us_userList s)
      (use_default isAuthoritative) (us_noNameUser s) = Ok (Some ptr) ∧
    us_heap s !! ptr = Some n ∧ u_authProtocol (un_user n) = Some t ∧ u_authKey (un_user n) = Some key ∧
    hash_transform t size digest hmac ∧ size ≤ zlen key ∧
    rd_list (sp_buf p) (i_msg i) (Z.to_nat (i_wholeMsgLen i)) = Ok message ∧
    sp_signature p = take 12 (hmac key message).
Proof.
  intros HE H0' Ha. apply usm_process_inv in HE as [[HE _]|(rem & p & Hp & HE)]; [done|].
  destruct HE as [[HE _]|(code & t1 & _ & [[HE _]|(_ & Hu & code2 & t2 & _ & _ & HE)])]; [done..|].
  destruct (HE H0') as (_ & Hid & Hname). destruct Hu as (ptr & n & v & Hu & Hn & _ & _ & Hs).
  destruct (Hs Ha) as (message & Hm & Hc). apply sc_check_keyed_hash_inv in Hc as (t & k & sz & dg & h & Hc).
  destruct Hc as (Ht & Hk & Htr & Hl & Hsig). by exists rem, p, ptr, n, t, k, sz, dg, h, message.
Qed.

Section Messages.
Context `{Crypto}.
Variable malloc_ok : Z → bool.

(** A sequence of received messages, each with the local engine at the time. *)
Fixpoint usm_run (s : usm) (ms : list (local_engine * option Z * incoming)) : M usm :=
  match ms with
  | [] => Ok s
  | (le, isAuthoritative, i) :: ms =>
      '(_, _, s) ← usm_process_in_msg malloc_ok le s isAuthoritative i;
      usm_run s ms
  end.
End Messages.

Lemma usm_run_newer `{CryptoLaws} malloc_ok s m ms s' :
  (∀ n, malloc_ok n = true) → represents (us_etimes s) m → usm_run malloc_ok s ms = Ok s' →
  ∃ m', represents (us_etimes s') m' ∧ not_older m m'.
Proof.
  intros Hm. revert s m. induction ms as [|[[le a] i] ms IH]; intros s m HR; cbn [usm_run].
  { intros [= <-]. by exists m. }
  destruct (usm_process_in_msg _ _ _ _ _) as [[[d ref] s1]| |] eqn:E; m_step; [|done..].
  intros Hrun. apply (usm_process_newer malloc_ok Hm le s m) in E as [(m1 & HR1 & H01) _]; [|done].
  destruct (IH s1 m1 HR1 Hrun) as (m' & HR' & H1'). exists m'. split; [done|by etransitivity].
Qed.

(** C7: once the record of a remote engine is authentic with [b] boots, then after any
    sequence of further messages, accepted or refused and from whichever engines, every message
    of that engine that is accepted at a level with authentication carries at least [b]
    boots: a message from before the engine's last reboot cannot be replayed. *)
Theorem usm_refuses_replays `{CryptoLaws} malloc_ok s m ms s' id b le isAuthoritative i d ref s'' :
  (∀ n, malloc_ok n = true) → represents (us_etimes s) m → knows m id b →
  usm_run malloc_ok s ms = Ok s' →
  usm_process_in_msg malloc_ok le s' isAuthoritative i = Ok (d, ref, s'') → d_ret d = 0 →
  is_auth (i_secLevel i) = true → d_secEngineID d = id → id ≠ le_engineID le →
  ∃ remaining p,
    usm_parse_security_parameters (i_wholeMsg i) (i_secParams i) remaining 64 256 16 16 = Ok (inr p) ∧
    sp_engineID p = id ∧ b ≤ sp_boots p.
Proof.
  intros Hm HR Hk Hrun HE H0' Ha Hid Hle.
  destruct (usm_run_newer malloc_ok s m ms s' Hm HR Hrun) as (m' & HR' & Hn).
  destruct (usm_process_newer malloc_ok Hm le s' m' isAuthoritative i d ref s'' HR' HE) as [_ HW].
  destruct (HW H0' Ha) as (rem & p & m1 & Hp & Hpid & Hn1 & Hw). exists rem, p.
  rewrite <- Hpid. split_and!; [done|done|].
  destruct (Hn1 _ _ (Hn _ _ Hk)) as (e & He & Hauth & Hb & Hb'). rewrite <- Hpid, Hid in Hw.
  destruct (estimate (le_time le) e true) as [[B T] L] eqn:Ee.
  rewrite (in_window_remote le m1 id e _ _ B T L Hle He Ee) in Hw.
  apply estimate_boots in Ee; [lia|done|lia].
Qed.


(** A remote engine's record, five boots and 100 seconds, heard of at the local time 40. *)
Definition sample_record : gmap (list Z) enginetime := {[ [9; 9] := Enginetime [9; 9] 100 5 40 true ]}.
Definition sample_table : etimelist :=
  <[slot (H := toy_crypto) [9; 9] := [Enginetime [9; 9] 100 5 40 true]]> new_etimelist.

Lemma sample_table_represents : represents (H := toy_crypto) sample_table sample_record.
Proof.
  apply (insert_represents (H := toy_crypto) new_etimelist ∅ _ [] _ [9; 9]);
    [apply represents_new|done|done|by vm_compute|].
  intros id. rewrite chain_find_cons. cbn [engineID]. destruct (decide ([9; 9] = id)) as [->|].
  - by rewrite decide_True.
  - by rewrite decide_False.
Qed.


(** A message of the engine [9; 9] to a manager, signed with HMAC-SHA-1. *)
Definition remote_user : usmUser :=
  UsmUser (Some [9; 9]) (Some [109; 101]) (Some [109; 101]) None (Some usmHMACSHA1AuthProtocol)
    (Some (replicate 20 7)) (Some usmNoPrivProtocol) None None RS_ACTIVE ST_NONVOLATILE.
Definition remote_usm : usm :=
  Usm {[ 1%nat := UNode remote_user None None ]} (Some 1%nat) None sample_table 5 6 7.
Definition remote_outgoing : outgoing :=
  Outgoing [2; 1; 3] SNMP_SEC_MODEL_USM [9; 9] (Some [109; 101]) SNMP_SEC_LEVEL_AUTHNOPRIV 4.
Definition remote_tail : list Z :=
  usm_tail (H := toy_crypto) (LocalEngine [9; 9] 5 120) remote_usm remote_user 5 120 remote_outgoing
    [48; 2; 5; 0].
Definition remote_incoming : incoming :=
  let W := v3_wire remote_outgoing remote_tail in
  Incoming 1472 (length W - length remote_tail) SNMP_SEC_MODEL_USM SNMP_SEC_LEVEL_AUTHNOPRIV W 0 (zlen W)
    (Some (replicate 1472 0)) 1472 1.

Lemma remote_accepted :
  ∃ d ref s', usm_process_in_msg (H := toy_crypto) (λ _, true) (LocalEngine [1] 1 50) remote_usm (Some 0)
                remote_incoming = Ok (d, ref, s') ∧ d_ret d = 0 ∧ d_secEngineID d = [9; 9] ∧
    d_secName d = [109; 101] ∧ s' = set_etimes remote_usm (us_etimes s').
Proof. eexists _, _, _. split; [by vm_compute|]. by vm_compute. Qed.

Lemma usm_accepts_authentic_witness :
  ∃ p key message,
    rd_list (sp_buf p) 0 (length (i_wholeMsg remote_incoming)) = Ok message ∧
    sp_signature p = take 12 (HMAC_sha1 (Crypto := toy_crypto) key message) ∧ key = replicate 20 7.
Proof.
  destruct remote_accepted as (d & ref & s' & HE & H0 & _).
  destruct (usm_accepts_authentic (H := toy_crypto) (λ _, true) (LocalEngine [1] 1 50) remote_usm (Some 0)
              remote_incoming d ref s' HE H0 eq_refl)
    as (rem & p & ptr & n & t & key & sz & dg & h & message & _ & _ & _ & Hu & Hn & Ht & Hk & Htr & _ & Hm & Hs).
  assert (ptr = 1%nat) as ->.
  { destruct (decide (ptr = 1%nat)) as [|Hne]; [done|]. exfalso.
    cbn [remote_usm us_heap] in Hn. by rewrite lookup_singleton_ne in Hn. }
  assert (n = UNode remote_user None None) as -> by (revert Hn; vm_compute; congruence).
  assert (t = usmHMACSHA1AuthProtocol) as -> by (revert Ht; vm_compute; congruence).
  exists p, key, message. split; [|split].
  - unfold zlen in Hm. rewrite <- Hm. f_equal.
  - inversion Htr; subst; [discriminate|]. exact Hs.
  - revert Hk. vm_compute. congruence.
Defined.

Lemma usm_refuses_replays_witness :
  ∃ remaining p,
    usm_parse_security_parameters (i_wholeMsg remote_incoming) (i_secParams remote_incoming) remaining 64 256 16 16
    = Ok (inr p) ∧ sp_engineID p = [9; 9] ∧ 5 ≤ sp_boots p.
Proof.
  eapply (usm_refuses_replays (H := toy_crypto) (λ _, true) remote_usm sample_record
    [(LocalEngine [1] 1 45, Some 0, remote_incoming)] _ [9; 9] 5 (LocalEngine [1] 1 50) (Some 0) remote_incoming).
  - done.
  - apply sample_table_represents.
  - exists (Enginetime [9; 9] 100 5 40 true). split_and!; by vm_compute.
  - vm_compute. reflexivity.
  - vm_compute. reflexivity.
  - reflexivity.
  - reflexivity.
  - reflexivity.
  - done.
Defined.

(** A user whose row is not in service is still let in: usm_check_secLevel returns -1 for it,
    and the caller only looks for 1. *)
Lemma inactive_user_accepted :
  let user := UsmUser (Some [9; 9]) (Some [109; 101]) (Some [109; 101]) None (Some usmHMACSHA1AuthProtocol)
    (Some (replicate 20 7)) (Some usmNoPrivProtocol) None None 2 ST_NONVOLATILE in
  usm_check_secLevel SNMP_SEC_LEVEL_AUTHNOPRIV user = Ok (-1) ∧
  ∃ d ref s', usm_process_in_msg (H := toy_crypto) (λ _, true) (LocalEngine [1] 1 50)
                (Usm {[ 1%nat := UNode user None None ]} (Some 1%nat) None sample_table 5 6 7) (Some 0)
                remote_incoming = Ok (d, ref, s') ∧ d_ret d = 0.
Proof. intros user. split; [done|]. eexists _, _, _. by split; vm_compute. Qed.
