(* ===== verification/Vacm.v ===== *)
(** * Views, groups and access rights: snmplib/vacm.c

    The three tables of the View-based Access Control Model: view entries (families of
    subtrees with a mask), groups and access rights, with lookup, creation and removal.
    A table is the list of its entries in the order of the links; nothing else points
    into it, so inserting and unlinking an entry are operations on that list.  An entry
    has its arrays at their size: a name in it is its length, its characters and a NUL.
    A string argument is the list of its characters; [malloc_ok] says which calls of
    calloc succeed.

    VacmView has the theorems on views, VacmTables those on the tables, VacmCheck the
    access decision of the agent. *)

From S2P Require Import Prelude Ber Asn1 OidCompare.
From stdpp Require Import prelude numbers list.
From Stdlib Require Import ZArith Lia.
Open Scope Z_scope.

Definition VACM_SUCCESS : Z := 0.
Definition VACM_NOSECNAME : Z := 1.
Definition VACM_NOGROUP : Z := 2.
Definition VACM_NOACCESS : Z := 3.
Definition VACM_NOVIEW : Z := 4.
Definition VACM_NOTINVIEW : Z := 5.
Definition VACM_NOSUCHCONTEXT : Z := 6.
Definition VACM_SUBTREE_UNKNOWN : Z := 7.

Definition VACM_MAX_STRING : Z := 32.
Definition VACMSTRINGLEN : nat := 34.
Definition VACM_MAX_VIEWS : Z := 8.
Definition CONTEXT_MATCH_EXACT : Z := 1.
Definition CONTEXT_MATCH_PREFIX : Z := 2.
Definition SNMP_VIEW_INCLUDED : Z := 1.
Definition SNMP_VIEW_EXCLUDED : Z := 2.
Definition SNMP_SEC_MODEL_ANY : Z := 0.

Definition VACM_MODE_FIND : Z := 0.
Definition VACM_MODE_IGNORE_MASK : Z := 1.
Definition VACM_MODE_CHECK_SUBTREE : Z := 2.

(** [struct vacm_viewEntry], [struct vacm_groupEntry] and [struct vacm_accessEntry]
    without their links and their shadow copy [reserved]. *)
Record vacm_viewEntry := ViewEntry {
  viewName : list Z;
  viewSubtree : list Z;
  viewSubtreeLen : Z;
  viewMask : list Z;
  viewMaskLen : Z;
  viewType : Z;
  viewStorageType : Z;
  viewStatus : Z;
}.

Record vacm_groupEntry := GroupEntry {
  g_securityModel : Z;
  g_securityName : list Z;
  g_groupName : list Z;
  g_storageType : Z;
  g_status : Z;
}.

Record vacm_accessEntry := AccessEntry {
  a_groupName : list Z;
  a_contextPrefix : list Z;
  a_securityModel : Z;
  a_securityLevel : Z;
  a_contextMatch : Z;
  a_views : list (list Z);
  a_storageType : Z;
  a_status : Z;
}.

(** ** Strings and arrays *)

(** The bytes that [buf[0] = glen; strcpy(buf + 1, s)] puts into [buf]. *)
Definition counted (s : list Z) : list Z := zlen s :: s ++ [0].

(** [memcmp] of [n] bytes of [a] from [p] on and of [b] from [q] on. *)
Definition memcmp_at (a : list Z) (p : nat) (b : list Z) (q n : nat) : M Z :=
  x ← rd_list a p n;
  y ← rd_list b q n;
  Ok (oid_cmp x y).

(** [!strcmp(a, s)] for an array [a]; the comparison stops at the first difference. *)
Fixpoint streq (a s : list Z) : M bool :=
  match a with
  | [] => UB
  | c :: a =>
      match s with
      | [] => Ok (c =? 0)
      | d :: s => if c =? d then streq a s else Ok false
      end
  end.

(** [glen = (int) strlen(s); if (glen < 0 || glen >= VACM_MAX_STRING) return NULL;] *)
Definition too_long (s : list Z) : bool :=
  let glen := s32 (zlen s) in (glen <? 0) || (VACM_MAX_STRING <=? glen).

Definition name_len (s : list Z) : nat := Z.to_nat (s32 (zlen s)).

(** ** Looking up a view *)

(** The macro VIEW_MASK: masks are extended with ones. *)
Definition VIEW_MASK (vp : vacm_viewEntry) (idx : nat) (mask : Z) : M Z :=
  if viewMaskLen vp <=? Z.of_nat idx then Ok mask
  else m ← rd (viewMask vp) idx; Ok (Z.land m mask).

(** The loop over the subidentifiers, [n] of them left; the result is [found]. *)
Fixpoint mask_loop (ignore : bool) (vp : vacm_viewEntry) (viewSubtree' : list Z)
    (n oidpos : nat) (mask : Z) (maskpos : nat) : M bool :=
  match n with
  | O => Ok true
  | S n =>
      bit ← (if ignore then Ok 1 else VIEW_MASK vp maskpos mask);
      found ← (if negb (bit =? 0) then
                 a ← rd viewSubtree' oidpos;
                 b ← rd (viewSubtree vp) (S oidpos);
                 Ok (a =? b)
               else Ok true);
      if (found : bool) then
        if mask =? 1 then mask_loop ignore vp viewSubtree' n (S oidpos) 0x80 (S maskpos)
        else mask_loop ignore vp viewSubtree' n (S oidpos) (Z.shiftr mask 1) maskpos
      else Ok false
  end.

(** Longer than the match so far, or equally long and lexicographically greater. *)
Definition better_match (vp : vacm_viewEntry) (vpret : option vacm_viewEntry) : M bool :=
  match vpret with
  | None => Ok true
  | Some vpret =>
      if viewSubtreeLen vpret <? viewSubtreeLen vp then Ok true
      else if viewSubtreeLen vp =? viewSubtreeLen vpret then
        c ← snmp_oid_compare (drop 1 (viewSubtree vp)) (u32 (viewSubtreeLen vp - 1))
              (drop 1 (viewSubtree vpret)) (u32 (viewSubtreeLen vpret - 1));
        Ok (0 <? c)
      else Ok false
  end.

(** Whether the family [vp] of the view holds the object identifier. *)
Definition family_has (ignore : bool) (vp : vacm_viewEntry) (subtree : list Z) : M bool :=
  mask_loop ignore vp subtree (Z.to_nat (s32 (viewSubtreeLen vp) - 1)) 0 0x80 0.

(** [view] is the name with its length in front; the result is [vpret] and [count]. *)
Fixpoint view_get_loop (vps : list vacm_viewEntry) (view : list Z) (glen : nat)
    (subtree : list Z) (subtreeLen mode : Z) (vpret : option vacm_viewEntry) (count : Z)
    : M (option vacm_viewEntry * Z) :=
  match vps with
  | [] => Ok (vpret, count)
  | vp :: vps =>
      c ← memcmp_at view 0 (viewName vp) 0 (S glen);
      if (c =? 0) && (u32 (viewSubtreeLen vp - 1) <=? subtreeLen) then
        found ← family_has (mode =? VACM_MODE_IGNORE_MASK) vp subtree;
        if (found : bool) then
          keep ← (if mode =? VACM_MODE_CHECK_SUBTREE then Ok true else better_match vp vpret);
          view_get_loop vps view glen subtree subtreeLen mode
            (if (keep : bool) then Some vp else vpret) (count + 1)
        else view_get_loop vps view glen subtree subtreeLen mode vpret count
      else view_get_loop vps view glen subtree subtreeLen mode vpret count
  end.

Definition netsnmp_view_get (head : list vacm_viewEntry) (name subtree : list Z)
    (subtreeLen mode : Z) : M (option vacm_viewEntry) :=
  if too_long name then Ok None
  else
    '(vpret, count) ← view_get_loop head (counted name) (name_len name) subtree subtreeLen mode None 0;
    if (mode =? VACM_MODE_CHECK_SUBTREE) && (1 <? count) then Ok None else Ok vpret.

(** ** Checking a whole subtree *)

(** The loop of netsnmp_view_subtree_check; [None] is its [return VACM_SUBTREE_UNKNOWN]. *)
Fixpoint subtree_loop (vps : list vacm_viewEntry) (view : list Z) (glen : nat)
    (subtree : list Z) (subtreeLen : Z) (vpShorter vpLonger : option vacm_viewEntry)
    : M (option (option vacm_viewEntry * option vacm_viewEntry)) :=
  match vps with
  | [] => Ok (Some (vpShorter, vpLonger))
  | vp :: vps =>
      c ← memcmp_at view 0 (viewName vp) 0 (S glen);
      if c =? 0 then
        if u32 (viewSubtreeLen vp - 1) <=? subtreeLen then
          found ← family_has false vp subtree;
          if (found : bool) then
            keep ← better_match vp vpShorter;
            subtree_loop vps view glen subtree subtreeLen
              (if (keep : bool) then Some vp else vpShorter) vpLonger
          else subtree_loop vps view glen subtree subtreeLen vpShorter vpLonger
        else
          found ← mask_loop false vp subtree (Z.to_nat (s32 subtreeLen)) 0 0x80 0;
          if (found : bool) then
            match vpLonger with
            | Some l =>
                if negb (viewType l =? viewType vp) then Ok None
                else subtree_loop vps view glen subtree subtreeLen vpShorter vpLonger
            | None => subtree_loop vps view glen subtree subtreeLen vpShorter (Some vp)
            end
          else subtree_loop vps view glen subtree subtreeLen vpShorter vpLonger
      else subtree_loop vps view glen subtree subtreeLen vpShorter vpLonger
  end.

(** Whether a longer match contradicts the shorter one. *)
Definition inconsistent (vpShorter vpLonger : option vacm_viewEntry) : bool :=
  match vpLonger with
  | None => false
  | Some l =>
      match vpShorter with
      | None => negb (viewType l =? SNMP_VIEW_EXCLUDED)
      | Some s => negb (viewType l =? viewType s)
      end
  end.

Definition netsnmp_view_subtree_check (head : list vacm_viewEntry) (name subtree : list Z)
    (subtreeLen : Z) : M Z :=
  if too_long name then Ok VACM_NOTINVIEW
  else
    r ← subtree_loop head (counted name) (name_len name) subtree subtreeLen None None;
    match r with
    | None => Ok VACM_SUBTREE_UNKNOWN
    | Some (vpShorter, vpLonger) =>
        if inconsistent vpShorter vpLonger then Ok VACM_SUBTREE_UNKNOWN
        else
          match vpShorter with
          | Some s => if negb (viewType s =? SNMP_VIEW_EXCLUDED) then Ok VACM_SUCCESS
                      else Ok VACM_NOTINVIEW
          | None => Ok VACM_NOTINVIEW
          end
    end.

(** ** Creating and removing entries

    A creation gives the position of the new entry, or [None] when calloc fails. *)
Section Create.
Variable calloc_ok : bool * bool.

(** An array that calloc has cleared and a name is then copied into. *)
Definition name_array (s : list Z) : M (list Z) :=
  wr_list (replicate VACMSTRINGLEN 0) 0 (counted s).

(** [vp->viewSubtree[0] = len; memcpy(vp->viewSubtree + 1, subtree, len * sizeof(oid));] *)
Definition subtree_array (subtree : list Z) (subtreeLen : Z) : M (list Z) :=
  arr ← wr (replicate (Z.to_nat MAX_OID_LEN) 0) 0 subtreeLen;
  src ← rd_list subtree 0 (Z.to_nat subtreeLen);
  wr_list arr 1 src.

Fixpoint view_insert (vp : vacm_viewEntry) (glen : nat) (lps : list vacm_viewEntry)
    : M (nat * list vacm_viewEntry) :=
  match lps with
  | [] => Ok (0%nat, [vp])
  | lp :: rest =>
      cmp ← memcmp_at (viewName lp) 0 (viewName vp) 0 (S glen);
      cmp2 ← snmp_oid_compare (viewSubtree lp) (viewSubtreeLen lp)
               (viewSubtree vp) (viewSubtreeLen vp);
      if (cmp =? 0) && (0 <? cmp2) then Ok (0%nat, vp :: lps)
      else if 0 <? cmp then Ok (0%nat, vp :: lps)
      else '(k, rest) ← view_insert vp glen rest; Ok (S k, lp :: rest)
  end.

Definition netsnmp_view_create (head : list vacm_viewEntry) (name subtree : list Z)
    (subtreeLen : Z) : M (option nat * list vacm_viewEntry) :=
  if too_long name then Ok (None, head)
  else if negb (fst calloc_ok) then Ok (None, head)
  else if negb (snd calloc_ok) then Ok (None, head)
  else
    nm ← name_array name;
    sub ← subtree_array subtree subtreeLen;
    let vp := ViewEntry nm sub (u32 (subtreeLen + 1)) (replicate VACMSTRINGLEN 0) 0 0 0 0 in
    '(k, head) ← view_insert vp (name_len name) head;
    Ok (Some k, head).

Fixpoint group_insert (gp : vacm_groupEntry) (glen : nat) (lgs : list vacm_groupEntry)
    : M (nat * list vacm_groupEntry) :=
  match lgs with
  | [] => Ok (0%nat, [gp])
  | lg :: rest =>
      if g_securityModel gp <? g_securityModel lg then Ok (0%nat, gp :: lgs)
      else
        after ← (if g_securityModel lg =? g_securityModel gp then
                   cmp ← memcmp_at (g_securityName lg) 0 (g_securityName gp) 0 (S glen);
                   Ok (0 <? cmp)
                 else Ok false);
        if (after : bool) then Ok (0%nat, gp :: lgs)
        else '(k, rest) ← group_insert gp glen rest; Ok (S k, lg :: rest)
  end.

Definition vacm_createGroupEntry (groupList : list vacm_groupEntry) (securityModel : Z)
    (securityName : list Z) : M (option nat * list vacm_groupEntry) :=
  if too_long securityName then Ok (None, groupList)
  else if negb (fst calloc_ok) then Ok (None, groupList)
  else if negb (snd calloc_ok) then Ok (None, groupList)
  else
    nm ← name_array securityName;
    let gp := GroupEntry securityModel nm (replicate VACMSTRINGLEN 0) 0 0 in
    '(k, l) ← group_insert gp (name_len securityName) groupList;
    Ok (Some k, l).

(** The body of the loop: [true] is a [break], [false] goes on. *)
Definition access_stops (lp vp : vacm_accessEntry) (glen clen : nat) : M bool :=
  cmp ← memcmp_at (a_groupName lp) 0 (a_groupName vp) 0 (S glen);
  if 0 <? cmp then Ok true
  else if cmp <? 0 then Ok false
  else
    cmp ← memcmp_at (a_contextPrefix lp) 0 (a_contextPrefix vp) 0 (S clen);
    if 0 <? cmp then Ok true
    else if cmp <? 0 then Ok false
    else if a_securityModel vp <? a_securityModel lp then Ok true
    else if a_securityModel lp <? a_securityModel vp then Ok false
    else Ok (a_securityLevel vp <? a_securityLevel lp).

Fixpoint access_insert (vp : vacm_accessEntry) (glen clen : nat) (lps : list vacm_accessEntry)
    : M (nat * list vacm_accessEntry) :=
  match lps with
  | [] => Ok (0%nat, [vp])
  | lp :: rest =>
      stop ← access_stops lp vp glen clen;
      if (stop : bool) then Ok (0%nat, vp :: lps)
      else '(k, rest) ← access_insert vp glen clen rest; Ok (S k, lp :: rest)
  end.

Definition vacm_createAccessEntry (accessList : list vacm_accessEntry)
    (groupName contextPrefix : list Z) (securityModel securityLevel : Z)
    : M (option nat * list vacm_accessEntry) :=
  if too_long groupName then Ok (None, accessList)
  else if too_long contextPrefix then Ok (None, accessList)
  else if negb (fst calloc_ok) then Ok (None, accessList)
  else if negb (snd calloc_ok) then Ok (None, accessList)
  else
    gn ← name_array groupName;
    cp ← name_array contextPrefix;
    let vp := AccessEntry gn cp securityModel securityLevel 0
                (replicate (Z.to_nat VACM_MAX_VIEWS) (replicate VACMSTRINGLEN 0)) 0 0 in
    '(k, l) ← access_insert vp (name_len groupName) (name_len contextPrefix) accessList;
    Ok (Some k, l).

End Create.

(** The loop of the three destroy functions: the first entry that passes [test] is
    taken out.  It has a predecessor, since the head was tested before. *)
Fixpoint unlink_entry {A} (test : A → M bool) (l : list A) : M (list A) :=
  match l with
  | [] => Ok []
  | vp :: rest =>
      b ← test vp;
      if (b : bool) then Ok rest else rest ← unlink_entry test rest; Ok (vp :: rest)
  end.

Definition destroy {A} (test : A → M bool) (head : list A) : M (list A) :=
  match head with
  | [] => Ok []
  | hd :: rest =>
      b ← test hd;
      if (b : bool) then Ok rest
      else rest ← unlink_entry test rest; Ok (hd :: rest)
  end.

(** [a && b] with the second operand evaluated on demand. *)
Definition and_then (a : M bool) (b : M bool) : M bool :=
  x ← a; if (x : bool) then b else Ok false.

Definition netsnmp_view_destroy (head : list vacm_viewEntry) (name subtree : list Z)
    (subtreeLen : Z) : M (list vacm_viewEntry) :=
  destroy (λ vp,
    and_then (streq (drop 1 (viewName vp)) name)
      (if viewSubtreeLen vp =? subtreeLen then
         c ← memcmp_at (viewSubtree vp) 0 subtree 0 (Z.to_nat subtreeLen); Ok (c =? 0)
       else Ok false)) head.

Definition vacm_destroyGroupEntry (groupList : list vacm_groupEntry) (securityModel : Z)
    (securityName : list Z) : M (list vacm_groupEntry) :=
  destroy (λ vp,
    if g_securityModel vp =? securityModel then streq (drop 1 (g_securityName vp)) securityName
    else Ok false) groupList.

Definition vacm_destroyAccessEntry (accessList : list vacm_accessEntry)
    (groupName contextPrefix : list Z) (securityModel securityLevel : Z)
    : M (list vacm_accessEntry) :=
  destroy (λ vp,
    if (a_securityModel vp =? securityModel) && (a_securityLevel vp =? securityLevel) then
      and_then (streq (drop 1 (a_groupName vp)) groupName)
        (streq (drop 1 (a_contextPrefix vp)) contextPrefix)
    else Ok false) accessList.

(** ** Looking up groups and access rights *)

Fixpoint group_loop (vps : list vacm_groupEntry) (securityModel : Z) (secname : list Z)
    (glen : nat) : M (option vacm_groupEntry) :=
  match vps with
  | [] => Ok None
  | vp :: vps =>
      b ← (if (securityModel =? g_securityModel vp) || (g_securityModel vp =? SNMP_SEC_MODEL_ANY) then
             c ← memcmp_at (g_securityName vp) 0 secname 0 (S glen); Ok (c =? 0)
           else Ok false);
      if (b : bool) then Ok (Some vp) else group_loop vps securityModel secname glen
  end.

Definition vacm_getGroupEntry (groupList : list vacm_groupEntry) (securityModel : Z)
    (securityName : list Z) : M (option vacm_groupEntry) :=
  if too_long securityName then Ok None
  else group_loop groupList securityModel (counted securityName) (name_len securityName).

(** The context of the request against the prefix of an entry. *)
Definition context_matches (vp : vacm_accessEntry) (context : list Z) (clen : nat) : M bool :=
  n ← rd (a_contextPrefix vp) 0;
  exact ← (if (a_contextMatch vp =? CONTEXT_MATCH_EXACT) && (Z.of_nat clen =? n) then
             c ← memcmp_at (a_contextPrefix vp) 0 context 0 (S clen); Ok (c =? 0)
           else Ok false);
  if (exact : bool) then Ok true
  else if (a_contextMatch vp =? CONTEXT_MATCH_PREFIX) && (n <=? Z.of_nat clen) then
    c ← memcmp_at (a_contextPrefix vp) 1 context 1 (Z.to_nat n); Ok (c =? 0)
  else Ok false.

Fixpoint access_loop (vps : list vacm_accessEntry) (group : list Z) (glen : nat)
    (context : list Z) (clen : nat) (securityModel securityLevel : Z)
    : M (option vacm_accessEntry) :=
  match vps with
  | [] => Ok None
  | vp :: vps =>
      b ← (if ((securityModel =? a_securityModel vp) || (a_securityModel vp =? SNMP_SEC_MODEL_ANY))
              && (a_securityLevel vp <=? securityLevel) then
             and_then (c ← memcmp_at (a_groupName vp) 0 group 0 (S glen); Ok (c =? 0))
               (context_matches vp context clen)
           else Ok false);
      if (b : bool) then Ok (Some vp)
      else access_loop vps group glen context clen securityModel securityLevel
  end.

Definition vacm_getAccessEntry (accessList : list vacm_accessEntry)
    (groupName contextPrefix : list Z) (securityModel securityLevel : Z)
    : M (option vacm_accessEntry) :=
  if too_long groupName then Ok None
  else if too_long contextPrefix then Ok None
  else access_loop accessList (counted groupName) (name_len groupName)
         (counted contextPrefix) (name_len contextPrefix) securityModel securityLevel.
