(* ===== verification/VacmView.v ===== *)
(** * Views as families of subtrees

    What the entries of a view table mean, by RFC 3415 and the text of
    SNMP-VIEW-BASED-ACM-MIB: an entry is a [family], a subtree with a mask that says which
    of its subidentifiers must agree; of the families of a view that hold an object
    identifier the longest counts, and the lexicographically greatest of these.  The
    lookup of snmplib/vacm.c computes that choice, and when the check of a subtree gives
    a definite answer, the answer holds for every object identifier in the subtree. *)

From S2P Require Import Prelude Ber Asn1 OidCompare Vacm.
From stdpp Require Import prelude numbers list.
From Stdlib Require Import ZArith Lia.
Open Scope Z_scope.

(** ** Families *)
Record family := Family {
  f_name : list Z;
  f_sub : list Z;
  f_mask : list Z;
  f_type : Z;
}.

(** The text of an array that holds a name behind its length. *)
Definition array_text (arr : list Z) : list Z := take (Z.to_nat (hd 0 arr)) (drop 1 arr).

Definition family_of (vp : vacm_viewEntry) : family :=
  Family (array_text (viewName vp))
    (take (Z.to_nat (viewSubtreeLen vp - 1)) (drop 1 (viewSubtree vp)))
    (take (Z.to_nat (viewMaskLen vp)) (viewMask vp)) (viewType vp).

(** An array with a name in it: shorter than VACM_MAX_STRING, terminated, no NUL inside. *)
Definition array_ok (arr : list Z) : Prop :=
  length arr = VACMSTRINGLEN ∧ 0 ≤ hd 0 arr < VACM_MAX_STRING ∧
  Forall (λ c, c ≠ 0) (array_text arr) ∧ arr !! S (Z.to_nat (hd 0 arr)) = Some 0.

(** The type invariant of an entry. *)
Definition view_ok (vp : vacm_viewEntry) : Prop :=
  array_ok (viewName vp) ∧
  zlen (viewSubtree vp) = MAX_OID_LEN ∧ 1 ≤ viewSubtreeLen vp ≤ MAX_OID_LEN ∧
  hd 0 (viewSubtree vp) = viewSubtreeLen vp - 1 ∧
  length (viewMask vp) = VACMSTRINGLEN ∧ 0 ≤ viewMaskLen vp ≤ Z.of_nat VACMSTRINGLEN.

#[global] Instance array_ok_dec arr : Decision (array_ok arr).
Proof. unfold array_ok. apply _. Defined.
#[global] Instance view_ok_dec vp : Decision (view_ok vp).
Proof. unfold view_ok. apply _. Defined.

(** Bit [i] of a mask, the first bit being the highest of the first octet; a mask is
    extended with ones. *)
Definition mask_bit (mask : list Z) (i : nat) : bool :=
  match mask !! (i / 8)%nat with
  | Some m => Z.testbit m (7 - Z.of_nat i mod 8)
  | None => true
  end.

(** The subidentifiers from position [i] on that the mask selects are the same, as far
    as both lists go. *)
Fixpoint agrees (mask : list Z) (i : nat) (sub o : list Z) : bool :=
  match sub, o with
  | a :: sub, b :: o => (negb (mask_bit mask i) || (b =? a)) && agrees mask (S i) sub o
  | _, _ => true
  end.

Definition in_family (f : family) (o : list Z) : bool :=
  (length (f_sub f) <=? length o)%nat && agrees (f_mask f) 0 (f_sub f) o.

(** The longer subtree wins, then the lexicographically greater one. *)
Definition closer (f g : family) : bool :=
  (length (f_sub g) <? length (f_sub f))%nat
  || ((length (f_sub f) =? length (f_sub g))%nat && (0 <? oid_cmp (f_sub f) (f_sub g))).

Definition closer_opt (f : family) (best : option family) : bool :=
  match best with None => true | Some g => closer f g end.

Definition choose_step (name o : list Z) (best : option family) (f : family) : option family :=
  if bool_decide (f_name f = name) && in_family f o && closer_opt f best then Some f else best.

(** The family of the view [name] that decides about [o]. *)
Definition choose (name o : list Z) (fs : list family) : option family :=
  foldl (choose_step name o) None fs.

(** ** What a mask selects *)

Lemma agrees_spec mask i sub o :
  agrees mask i sub o = true ↔
  ∀ j a b, sub !! j = Some a → o !! j = Some b → mask_bit mask (i + j) = true → b = a.
Proof.
  revert i o. induction sub as [|a sub IH]; intros i [|b o]; simpl.
  - split; [|done]. intros _ j a b H. by rewrite lookup_nil in H.
  - split; [|done]. intros _ j a b' H. by rewrite lookup_nil in H.
  - split; [|done]. intros _ j a' b _ H. by rewrite lookup_nil in H.
  - rewrite andb_true_iff, IH. split.
    + intros [H1 H2] [|j] a' b' Ha Hb; simpl in *; simplify_eq.
      * rewrite Nat.add_0_r. intros Hm. rewrite Hm in H1. simpl in H1. lia.
      * intros Hm. apply (H2 j); [done..|]. by rewrite <- Nat.add_succ_comm in Hm.
    + intros H. split.
      * destruct (mask_bit mask i) eqn:Hm; [|done]. simpl. apply Z.eqb_eq.
        apply (H 0%nat); [done..|by rewrite Nat.add_0_r].
      * intros j a' b' Ha Hb Hm. apply (H (S j)); [done..|]. by rewrite <- Nat.add_succ_comm.
Qed.

Lemma agrees_app mask i sub o t :
  (length sub ≤ length o)%nat → agrees mask i sub (o ++ t) = agrees mask i sub o.
Proof.
  revert i o. induction sub as [|a sub IH]; intros i [|b o] Hl; simpl in *; try lia; try done.
  by rewrite IH by lia.
Qed.

Lemma agrees_app_le mask i sub o t :
  agrees mask i sub (o ++ t) = true → agrees mask i sub o = true.
Proof.
  rewrite !agrees_spec. intros H j a b Ha Hb. apply H; [done|]. by apply lookup_app_l_Some.
Qed.

Lemma land_bit_zero m k : 0 ≤ k → (Z.land m (2 ^ k) =? 0) = negb (Z.testbit m k).
Proof.
  intros Hk. destruct (Z.testbit m k) eqn:E; simpl.
  - apply Z.eqb_neq. intros H. assert (Z.testbit (Z.land m (2 ^ k)) k = false) as H'
      by (by rewrite H, Z.bits_0).
    rewrite Z.land_spec, E, Z.pow2_bits_true in H' by done. done.
  - apply Z.eqb_eq, Z.bits_inj'. intros i Hi. rewrite Z.land_spec, Z.bits_0.
    destruct (decide (i = k)) as [->|]; [by rewrite E|].
    by rewrite Z.pow2_bits_false, andb_false_r by done.
Qed.

(** The mask variable after [p] rounds. *)
Definition bit_at (p : nat) : Z := 2 ^ (7 - Z.of_nat p mod 8).

Lemma bit_at_next p :
  (if bit_at p =? 1 then (0x80, S (p / 8)) else (Z.shiftr (bit_at p) 1, (p / 8)%nat))
  = (bit_at (S p), (S p / 8)%nat).
Proof.
  unfold bit_at. pose proof (Nat.div_mod p 8) as Hp. pose proof (Nat.mod_upper_bound p 8) as Hb.
  assert (Z.of_nat p mod 8 = Z.of_nat (p mod 8)) as -> by (by rewrite Nat2Z.inj_mod).
  remember (p / 8)%nat as q. remember (p mod 8)%nat as r.
  destruct (decide (r = 7)%nat) as [->|Hr].
  - replace (S p) with ((S q) * 8)%nat by lia.
    rewrite Nat.div_mul, Nat2Z.inj_mul, Z.mod_mul by lia. done.
  - assert (S p / 8 = q)%nat as -> by (symmetry; apply (Nat.div_unique _ _ _ (S r)); lia).
    assert (Z.of_nat (S p) mod 8 = Z.of_nat (S r)) as ->.
    { symmetry. apply (Z.mod_unique _ _ (Z.of_nat q)); lia. }
    destruct (Z.eqb_spec (2 ^ (7 - Z.of_nat r)) 1) as [E|_].
    { pose proof (Z.pow_gt_1 2 (7 - Z.of_nat r)). lia. }
    f_equal. rewrite Z.shiftr_div_pow2 by lia.
    replace (7 - Z.of_nat r) with (7 - Z.of_nat (S r) + 1) by lia.
    rewrite Z.pow_add_r, Z.div_mul by lia. done.
Qed.

(** ** The loops of the lookup compute these *)

Lemma array_cons arr : array_ok arr → arr = hd 0 arr :: drop 1 arr.
Proof. intros (Hl & _). by destruct arr. Qed.

Lemma name_len_short s : zlen s < VACM_MAX_STRING → too_long s = false ∧ name_len s = length s.
Proof.
  intros H. pose proof (zlen_nonneg s) as H'. unfold too_long, name_len, VACM_MAX_STRING, zlen in *.
  rewrite s32_id by lia. split; [|lia].
  destruct (Z.ltb_spec (Z.of_nat (length s)) 0); [lia|].
  destruct (Z.leb_spec 32 (Z.of_nat (length s))); [lia|done].
Qed.

(** The first [n + 1] bytes of a name array and of another name of length [n]. *)
Lemma rd_array arr n :
  array_ok arr → (n < Z.to_nat VACM_MAX_STRING)%nat →
  rd_list arr 0 (S n) = Ok (hd 0 arr :: take n (drop 1 arr)).
Proof.
  intros Ha Hn. pose proof (array_cons _ Ha) as Hc. destruct Ha as (Hl & _).
  unfold VACM_MAX_STRING, VACMSTRINGLEN in *.
  rewrite rd_list_spec by lia. f_equal. rewrite drop_0. rewrite Hc at 1. done.
Qed.

Lemma rd_counted s : rd_list (counted s) 0 (S (length s)) = Ok (zlen s :: s).
Proof.
  unfold counted. rewrite rd_list_spec by (simpl; rewrite length_app; simpl; lia).
  simpl. by rewrite take_app_length.
Qed.

Lemma array_text_eq arr s :
  array_ok arr → zlen s :: s = hd 0 arr :: take (length s) (drop 1 arr) ↔ array_text arr = s.
Proof.
  intros (Hl & Hh & _). unfold array_text, zlen, VACM_MAX_STRING, VACMSTRINGLEN in *. split.
  - intros [= H1 H2]. rewrite <- H1, Nat2Z.id. done.
  - intros H. assert (hd 0 arr = Z.of_nat (length s)) as E.
    { rewrite <- H, length_take, length_drop. lia. }
    rewrite E in *. by rewrite Nat2Z.id in H; rewrite H.
Qed.

Lemma name_cmp arr s :
  array_ok arr → zlen s < VACM_MAX_STRING →
  ∃ c, memcmp_at (counted s) 0 arr 0 (S (length s)) = Ok c ∧
    (c =? 0) = bool_decide (array_text arr = s).
Proof.
  intros Ha Hs. unfold memcmp_at. rewrite rd_counted. m_step.
  rewrite (rd_array arr) by (try done; unfold zlen, VACM_MAX_STRING in *; lia). m_step. eexists. split; [done|].
  apply eq_bool_prop_intro. rewrite bool_decide_spec, Is_true_true, Z.eqb_eq, oid_cmp_eq.
  by apply array_text_eq.
Qed.

Lemma view_mask_spec vp p :
  view_ok vp →
  ∃ b, VIEW_MASK vp (p / 8) (bit_at p) = Ok b ∧
    (b =? 0) = negb (mask_bit (f_mask (family_of vp)) p).
Proof.
  intros (_ & _ & _ & _ & Hm & Hl). unfold VIEW_MASK, mask_bit. cbn [f_mask family_of].
  unfold bit_at. assert (0 ≤ 7 - Z.of_nat p mod 8) as Hk.
  { pose proof (Z.mod_pos_bound (Z.of_nat p) 8). lia. }
  destruct (Z.leb_spec (viewMaskLen vp) (Z.of_nat (p / 8))).
  - eexists. split; [done|]. rewrite lookup_take_ge by lia.
    apply Z.eqb_neq. apply Z.pow_nonzero; lia.
  - destruct (rd_lt (viewMask vp) (p / 8)) as (m & -> & Hx); [lia|]. m_step.
    eexists. split; [done|]. rewrite lookup_take_lt, Hx by lia. by apply land_bit_zero.
Qed.

Lemma view_sub_lookup vp j a :
  f_sub (family_of vp) !! j = Some a → rd (viewSubtree vp) (S j) = Ok a.
Proof.
  cbn [f_sub family_of]. rewrite lookup_take_Some. intros [H _].
  rewrite lookup_drop in H. by apply rd_Ok.
Qed.

Lemma mask_loop_spec vp obj n p :
  view_ok vp → (p + n ≤ length (f_sub (family_of vp)))%nat → (p + n ≤ length obj)%nat →
  mask_loop false vp obj n p (bit_at p) (p / 8)
  = Ok (agrees (f_mask (family_of vp)) p (take n (drop p (f_sub (family_of vp)))) (drop p obj)).
Proof.
  intros Hv. revert p. induction n as [|n IH]; intros p Hs Ho; [done|].
  cbn [mask_loop]. destruct (view_mask_spec vp p Hv) as (b & -> & Hb). m_step.
  destruct (lookup_lt_is_Some_2 (f_sub (family_of vp)) p) as [x Hx]; [lia|].
  destruct (lookup_lt_is_Some_2 obj p) as [y Hy]; [lia|].
  rewrite (drop_S _ x p Hx), (drop_S _ y p Hy). cbn [take agrees].
  pose proof (bit_at_next p) as Hn. specialize (IH (S p)).
  rewrite Hb, negb_involutive.
  assert (∀ r, (if bit_at p =? 1 then mask_loop false vp obj n (S p) 128 (S (p / 8))
    else mask_loop false vp obj n (S p) (Z.shiftr (bit_at p) 1) (p / 8)) = r →
    mask_loop false vp obj n (S p) (bit_at (S p)) (S p / 8) = r) as Hnext.
  { intros r <-. apply (f_equal (λ z, mask_loop false vp obj n (S p) z.1 z.2)) in Hn.
    cbn [fst snd] in Hn. rewrite <- Hn. by destruct (bit_at p =? 1). }
  rewrite (proj2 (rd_Ok obj p y) Hy), (view_sub_lookup _ _ _ Hx).
  destruct (mask_bit _ p); m_step.
  - destruct (y =? x); [|done]. m_step. erewrite <- (Hnext _ eq_refl). apply IH; lia.
  - erewrite <- (Hnext _ eq_refl). apply IH; lia.
Qed.

Lemma mask_loop_start vp obj n :
  view_ok vp → (n ≤ length (f_sub (family_of vp)))%nat → (n ≤ length obj)%nat →
  mask_loop false vp obj n 0 0x80 0
  = Ok (agrees (f_mask (family_of vp)) 0 (take n (f_sub (family_of vp))) obj).
Proof. intros. by apply (mask_loop_spec vp obj n 0). Qed.

Lemma view_sub_length vp :
  view_ok vp → Z.of_nat (length (f_sub (family_of vp))) = viewSubtreeLen vp - 1.
Proof.
  intros (_ & Hl & Hb & _). cbn [f_sub family_of]. unfold zlen, MAX_OID_LEN in *.
  rewrite length_take, length_drop. lia.
Qed.

Lemma view_sub_stored vp :
  view_ok vp →
  stored (drop 1 (viewSubtree vp)) (u32 (viewSubtreeLen vp - 1)) (f_sub (family_of vp)).
Proof.
  intros Hv. pose proof (view_sub_length _ Hv) as Hl. destruct Hv as (_ & _ & Hb & _).
  unfold MAX_OID_LEN in Hb.
  exists (drop (Z.to_nat (viewSubtreeLen vp - 1)) (drop 1 (viewSubtree vp))).
  rewrite u32_id by lia. unfold zlen. rewrite Hl. split_and!; [|done|lia].
  cbn [f_sub family_of]. by rewrite take_drop.
Qed.

(** The argument of a lookup: [o] at the start of the object [obj], with its length. *)
Lemma view_fits_spec vp obj len o :
  view_ok vp → stored obj len o →
  (u32 (viewSubtreeLen vp - 1) <=? len) = (length (f_sub (family_of vp)) <=? length o)%nat.
Proof.
  intros Hv (r & -> & -> & _). destruct (view_sub_stored _ Hv) as (_ & _ & -> & _).
  unfold zlen. apply eq_bool_prop_intro. rewrite !Is_true_true, Z.leb_le, Nat.leb_le. lia.
Qed.

Lemma family_has_spec vp obj len o :
  view_ok vp → stored obj len o → (length (f_sub (family_of vp)) ≤ length o)%nat →
  family_has false vp obj = Ok (agrees (f_mask (family_of vp)) 0 (f_sub (family_of vp)) o).
Proof.
  intros Hv (r & -> & -> & _) Hle. unfold family_has.
  pose proof (view_sub_length _ Hv) as Hl. destruct (Hv) as (_ & _ & Hb & _).
  unfold MAX_OID_LEN in Hb. rewrite s32_id by lia. rewrite <- Hl, Nat2Z.id.
  rewrite mask_loop_start by (rewrite ?length_app; done || lia).
  by rewrite firstn_all, agrees_app.
Qed.

Lemma better_match_spec vp r :
  view_ok vp → (∀ vp', r = Some vp' → view_ok vp') →
  better_match vp r = Ok (closer_opt (family_of vp) (family_of <$> r)).
Proof.
  intros Hv Hr. destruct r as [vr|]; [|done]. specialize (Hr vr eq_refl).
  cbn [better_match fmap option_fmap option_map closer_opt]. unfold closer.
  pose proof (view_sub_length _ Hv) as E1. pose proof (view_sub_length _ Hr) as E2.
  rewrite (compare_stored _ _ _ _ _ _ (view_sub_stored _ Hv) (view_sub_stored _ Hr)). m_step.
  destruct (Z.ltb_spec (viewSubtreeLen vr) (viewSubtreeLen vp)).
  { by rewrite (proj2 (Nat.ltb_lt _ _)) by lia. }
  rewrite (proj2 (Nat.ltb_ge _ _)) by lia.
  destruct (Z.eqb_spec (viewSubtreeLen vp) (viewSubtreeLen vr)).
  - by rewrite (proj2 (Nat.eqb_eq _ _)) by lia.
  - by rewrite (proj2 (Nat.eqb_neq _ _)) by lia.
Qed.

(** ** The lookup is the choice *)

Lemma view_get_loop_spec vps name obj len o vpret count :
  Forall view_ok vps → (∀ vp, vpret = Some vp → view_ok vp) →
  zlen name < VACM_MAX_STRING → stored obj len o →
  ∃ r count', view_get_loop vps (counted name) (length name) obj len VACM_MODE_FIND vpret count
      = Ok (r, count') ∧
    family_of <$> r = foldl (choose_step name o) (family_of <$> vpret) (family_of <$> vps) ∧
    (r = vpret ∨ ∃ vp, r = Some vp ∧ vp ∈ vps).
Proof.
  intros Hall Hr Hn Ho. revert vpret count Hr.
  induction Hall as [|vp vps Hv Hall IH]; intros vpret count Hr; [by eauto 6|].
  cbn [view_get_loop fmap list_fmap foldl]. destruct (Hv) as (Ha & _).
  destruct (name_cmp _ _ Ha Hn) as (c & -> & Hc). m_step.
  rewrite Hc, (view_fits_spec _ _ _ _ Hv Ho).
  set (k1 := choose_step name o (family_of <$> vpret) (family_of vp)).
  assert (∀ vpret', family_of <$> vpret' = k1 → (vpret' = vpret ∨ vpret' = Some vp) →
    ∀ count, ∃ r count', view_get_loop vps (counted name) (length name) obj len
        VACM_MODE_FIND vpret' count = Ok (r, count') ∧
      family_of <$> r = foldl (choose_step name o) k1 (family_of <$> vps) ∧
      (r = vpret ∨ ∃ v, r = Some v ∧ v ∈ vp :: vps)) as Hnext.
  { intros vpret' <- Hp count'. destruct (IH vpret' count') as (r & c' & E1 & E2 & E3).
    { intros v Hv'. destruct Hp as [->| ->]; [by apply Hr|by simplify_eq]. }
    exists r, c'. split_and!; [done..|]. destruct E3 as [->|(v & -> & Hi)].
    - destruct Hp as [->| ->]; [by left|right]. eexists. split; [done|]. by left.
    - right. eexists. split; [done|]. by right. }
  revert Hnext. unfold k1, choose_step, in_family. cbn [f_name family_of].
  destruct (bool_decide (array_text (viewName vp) = name)); m_step;
    [|intros Hnext; by apply Hnext; [|left]].
  destruct (Nat.leb_spec (length (f_sub (family_of vp))) (length o)) as [Hle|]; m_step;
    [|intros Hnext; by apply Hnext; [|left]].
  change (VACM_MODE_FIND =? VACM_MODE_IGNORE_MASK) with false.
  rewrite (family_has_spec _ _ _ _ Hv Ho Hle). m_step.
  destruct (agrees _ 0 _ o); m_step; [|intros Hnext; by apply Hnext; [|left]].
  change (VACM_MODE_FIND =? VACM_MODE_CHECK_SUBTREE) with false. cbn match.
  rewrite (better_match_spec _ _ Hv Hr). m_step.
  destruct (closer_opt _ _); intros Hnext; apply Hnext; auto.
Qed.

Lemma view_get_spec head name obj len o :
  Forall view_ok head → zlen name < VACM_MAX_STRING → stored obj len o →
  ∃ r, netsnmp_view_get head name obj len VACM_MODE_FIND = Ok r ∧
    family_of <$> r = choose name o (family_of <$> head) ∧
    ∀ vp, r = Some vp → vp ∈ head.
Proof.
  intros Hall Hn Ho. unfold netsnmp_view_get.
  destruct (name_len_short _ Hn) as [-> ->].
  destruct (view_get_loop_spec head name obj len o None 0) as (r & c & -> & E & Hr); [done..|].
  m_step. change (VACM_MODE_FIND =? VACM_MODE_CHECK_SUBTREE) with false. m_step.
  exists r. split_and!; [done..|]. intros vp ->. destruct Hr as [|(? & [= ->] & ?)]; done.
Qed.

(** ** The choice is the greatest of the families that hold the name *)

(** [f] is a family of the view [name] that holds [o]. *)
Definition candidate (name o : list Z) (f : family) : Prop :=
  f_name f = name ∧ (length (f_sub f) ≤ length o)%nat ∧
  ∀ i a b, f_sub f !! i = Some a → o !! i = Some b → mask_bit (f_mask f) i = true → b = a.

Lemma candidate_spec name o f :
  candidate name o f ↔ bool_decide (f_name f = name) && in_family f o = true.
Proof.
  unfold candidate, in_family.
  rewrite !andb_true_iff, bool_decide_eq_true, Nat.leb_le, agrees_spec. done.
Qed.

Lemma closer_trans f g h : closer f g = true → closer g h = true → closer f h = true.
Proof.
  unfold closer. rewrite !orb_true_iff, !andb_true_iff, !Nat.ltb_lt, !Nat.eqb_eq, !Z.ltb_lt.
  intros [?|[E1 H1]] [?|[E2 H2]]; [left; lia..|right]. split; [lia|].
  assert (oid_lt (f_sub g) (f_sub f)) as L1.
  { unfold oid_lt. rewrite oid_cmp_antisym. pose proof (oid_cmp_range (f_sub f) (f_sub g)). lia. }
  assert (oid_lt (f_sub h) (f_sub g)) as L2.
  { unfold oid_lt. rewrite oid_cmp_antisym. pose proof (oid_cmp_range (f_sub g) (f_sub h)). lia. }
  pose proof (transitivity L2 L1) as H. unfold oid_lt in H. rewrite oid_cmp_antisym in H. lia.
Qed.

Lemma closer_sub f g h : f_sub f = f_sub g → closer f h = closer g h.
Proof. unfold closer. by intros ->. Qed.

Lemma closer_total f g : closer f g = true ∨ closer g f = true ∨ f_sub f = f_sub g.
Proof.
  unfold closer. rewrite !orb_true_iff, !andb_true_iff, !Nat.ltb_lt, !Nat.eqb_eq, !Z.ltb_lt.
  destruct (decide (length (f_sub f) < length (f_sub g))%nat); [by auto|].
  destruct (decide (length (f_sub g) < length (f_sub f))%nat); [by auto|].
  rewrite (oid_cmp_antisym (f_sub f) (f_sub g)), <- (oid_cmp_eq (f_sub f) (f_sub g)).
  destruct (oid_cmp_range (f_sub f) (f_sub g)) as [H|[H|H]]; rewrite H.
  - right. left. right. lia.
  - auto.
  - left. right. lia.
Qed.

Lemma closer_irrefl f : closer f f = false.
Proof. unfold closer. by rewrite Nat.ltb_irrefl, Nat.eqb_refl, oid_cmp_refl. Qed.

(** The first family that no other candidate is closer than. *)
Lemma choose_from name o best fs :
  match foldl (choose_step name o) best fs with
  | None => best = None ∧ ∀ f, f ∈ fs → ¬ candidate name o f
  | Some g => (best = Some g ∨ g ∈ fs ∧ candidate name o g) ∧
      (∀ f, f ∈ fs → candidate name o f → closer f g = false) ∧
      (∀ b, best = Some b → closer b g = false)
  end.
Proof.
  revert best. induction fs as [|f fs IH]; intros best; cbn [foldl].
  { destruct best as [g|]; [|set_solver]. split_and!; [by left|set_solver|].
    intros b [= ->]. apply closer_irrefl. }
  specialize (IH (choose_step name o best f)). unfold choose_step in *.
  pose proof (candidate_spec name o f) as Hc.
  destruct (bool_decide (f_name f = name) && in_family f o); cbn [andb] in *.
  - destruct (closer_opt f best) eqn:Ecl; destruct (foldl _ _ fs) as [g|].
    + destruct IH as (H1 & H2 & H3). specialize (H3 f eq_refl). split_and!.
      * right. destruct H1 as [[= ->]|[]]; set_solver.
      * intros f' [->|?]%elem_of_cons ?; eauto.
      * intros b ->. destruct (closer b g) eqn:E; [|done]. simpl in Ecl.
        by rewrite (closer_trans f b g) in H3.
    + naive_solver.
    + destruct IH as (H1 & H2 & H3). split_and!; [set_solver| |done].
      intros f' [->|?]%elem_of_cons ?; [|by eauto]. destruct best as [b|]; [|done].
      simpl in Ecl. specialize (H3 b eq_refl). destruct (closer f g) eqn:E; [|done].
      destruct (closer_total f b) as [|[|Eq]]; [congruence|..].
      * by rewrite (closer_trans b f g) in H3.
      * by rewrite (closer_sub _ _ _ Eq), H3 in E.
    + destruct IH as [-> _]. done.
  - destruct (foldl _ _ fs) as [g|].
    + destruct IH as (H1 & H2 & H3). split_and!; [set_solver| |done].
      intros f' [->|?]%elem_of_cons ?; [naive_solver|by eauto].
    + destruct IH as [-> H]. split; [done|]. intros f' [->|?]%elem_of_cons; naive_solver.
Qed.

(** ** The lookup of a view entry

    The first of the families of the view that hold the name and that none of them is
    closer than. *)

(** Netsnmp_view_get implements the selection of RFC 3415: on a table of well-formed
    entries the lookup of an object identifier in a view never fails, and gives no entry
    exactly when no family of the view holds the identifier, each subidentifier compared
    where the mask has a one and masks being extended with ones; otherwise it gives an
    entry of the table whose family holds the identifier and than which no other family
    of the view that holds it has a longer subtree, or an equally long and
    lexicographically greater one. *)
Theorem view_get_selects_family head name obj len o :
  Forall view_ok head → zlen name < VACM_MAX_STRING → stored obj len o →
  ∃ r, netsnmp_view_get head name obj len VACM_MODE_FIND = Ok r ∧
  match r with
  | None => ∀ vp, vp ∈ head → ¬ candidate name o (family_of vp)
  | Some vp => vp ∈ head ∧ candidate name o (family_of vp) ∧
      ∀ vp', vp' ∈ head → candidate name o (family_of vp') →
        closer (family_of vp') (family_of vp) = false
  end.
Proof.
  intros Hall Hn Ho. destruct (view_get_spec head name obj len o Hall Hn Ho) as (r & Hr & Hf & Hin).
  exists r. split; [done|]. pose proof (choose_from name o None (family_of <$> head)) as HC.
  unfold choose in Hf. rewrite <- Hf in HC. destruct r as [vp|]; simpl in HC.
  - destruct HC as ([|[_ Hc]] & Hmax & _); [done|]. split_and!; [by apply Hin|done|].
    intros vp' Hv'. by apply Hmax, list_elem_of_fmap_2.
  - destruct HC as [_ HC]. intros vp Hv. by apply HC, list_elem_of_fmap_2.
Qed.

Definition sample_view (name sub mask : list Z) (type : Z) : vacm_viewEntry :=
  ViewEntry (counted name ++ replicate (VACMSTRINGLEN - 2 - length name) 0)
    (zlen sub :: sub ++ replicate (127 - length sub) 0) (zlen sub + 1)
    (mask ++ replicate (VACMSTRINGLEN - length mask) 0) (zlen mask) type 3 1.

(** A view "all" of 1.3.6.1 without the column 1.3.6.1.5.x.2. *)
Definition sample_views : list vacm_viewEntry :=
  [ sample_view [97; 108; 108] [1; 3; 6; 1] [] SNMP_VIEW_INCLUDED;
    sample_view [97; 108; 108] [1; 3; 6; 1; 5; 0; 2] [0xfa] SNMP_VIEW_EXCLUDED ].

Lemma view_get_selects_family_witness :
  ∃ r, netsnmp_view_get sample_views [97; 108; 108] [1; 3; 6; 1; 5; 9; 2] 7 VACM_MODE_FIND = Ok r ∧
  match r with
  | None => ∀ vp, vp ∈ sample_views → ¬ candidate [97; 108; 108] [1; 3; 6; 1; 5; 9; 2] (family_of vp)
  | Some vp => vp ∈ sample_views ∧ candidate [97; 108; 108] [1; 3; 6; 1; 5; 9; 2] (family_of vp) ∧
      ∀ vp', vp' ∈ sample_views → candidate [97; 108; 108] [1; 3; 6; 1; 5; 9; 2] (family_of vp') →
        closer (family_of vp') (family_of vp) = false
  end.
Proof.
  apply (view_get_selects_family sample_views [97; 108; 108] [1; 3; 6; 1; 5; 9; 2] 7
           [1; 3; 6; 1; 5; 9; 2]).
  - apply (bool_decide_unpack _). by vm_compute.
  - by vm_compute.
  - by apply (stored_full [1; 3; 6; 1; 5; 9; 2]).
Defined.

Example sample_views_decide :
  (netsnmp_view_get sample_views [97; 108; 108] [1; 3; 6; 1; 5; 9; 2] 7 VACM_MODE_FIND
   = Ok (sample_views !! 1%nat)) ∧
  (netsnmp_view_get sample_views [97; 108; 108] [1; 3; 6; 1; 5; 9; 3] 7 VACM_MODE_FIND
   = Ok (sample_views !! 0%nat)).
Proof. by vm_compute. Qed.

(** ** Checking a whole subtree *)

(** A family below the subtree [s] and not apart from it under the mask. *)
Definition below (name s : list Z) (f : family) : bool :=
  bool_decide (f_name f = name) && (length s <? length (f_sub f))%nat
  && agrees (f_mask f) 0 (f_sub f) s.

(** The first such family, given that they are all of one type. *)
Fixpoint first_below (name s : list Z) (l : option family) (fs : list family)
    : option (option family) :=
  match fs with
  | [] => Some l
  | f :: fs =>
      if below name s f then
        match l with
        | Some g => if negb (f_type g =? f_type f) then None else first_below name s l fs
        | None => first_below name s (Some f) fs
        end
      else first_below name s l fs
  end.

Lemma first_below_types name s l fs r :
  first_below name s l fs = Some r →
  (∀ g, l = Some g → r = Some g) ∧
  ∀ f, f ∈ fs → below name s f = true → ∃ g, r = Some g ∧ f_type g = f_type f.
Proof.
  revert l. induction fs as [|f fs IH]; intros l; cbn [first_below].
  { intros [= ->]. split; [done|set_solver]. }
  destruct (below name s f) eqn:Eb; [destruct l as [g|]|].
  - destruct (Z.eqb_spec (f_type g) (f_type f)) as [Et|]; [|done]. intros H.
    destruct (IH _ H) as [H1 H2]. split; [done|].
    intros f' [->|?]%elem_of_cons ?; [|by eauto]. eauto.
  - intros H. destruct (IH _ H) as [H1 H2]. split; [done|].
    intros f' [->|?]%elem_of_cons ?; [|by eauto]. eauto.
  - intros H. destruct (IH _ H) as [H1 H2]. split; [done|].
    intros f' [->|?]%elem_of_cons ?; [congruence|by eauto].
Qed.

Lemma agrees_take mask i sub o :
  agrees mask i (take (length o) sub) o = agrees mask i sub o.
Proof.
  revert i o. induction sub as [|a sub IH]; intros i [|b o]; simpl; try done. by rewrite IH.
Qed.

Lemma longer_has_spec vp obj len o :
  view_ok vp → stored obj len o → (length o ≤ length (f_sub (family_of vp)))%nat →
  mask_loop false vp obj (Z.to_nat (s32 len)) 0 0x80 0
  = Ok (agrees (f_mask (family_of vp)) 0 (f_sub (family_of vp)) o).
Proof.
  intros Hv (r & -> & -> & Hb) Hle. pose proof (zlen_nonneg o).
  rewrite s32_id by lia. unfold zlen. rewrite Nat2Z.id.
  rewrite mask_loop_start by (rewrite ?length_app; done || lia).
  by rewrite agrees_app, agrees_take by (rewrite length_take; lia).
Qed.

Lemma subtree_loop_spec vps name obj len o sh lo :
  Forall view_ok vps → (∀ vp, sh = Some vp → view_ok vp) →
  zlen name < VACM_MAX_STRING → stored obj len o →
  ∃ r, subtree_loop vps (counted name) (length name) obj len sh lo = Ok r ∧
  match first_below name o (family_of <$> lo) (family_of <$> vps) with
  | None => r = None
  | Some l => ∃ sh' lo', r = Some (sh', lo') ∧ family_of <$> lo' = l ∧
      family_of <$> sh' = foldl (choose_step name o) (family_of <$> sh) (family_of <$> vps)
  end.
Proof.
  intros Hall Hsh Hn Ho. revert sh lo Hsh.
  induction Hall as [|vp vps Hv Hall IH]; intros sh lo Hsh.
  { eexists. split; [done|]. by exists sh, lo. }
  cbn [subtree_loop fmap list_fmap foldl first_below]. destruct (Hv) as (Ha & _).
  destruct (name_cmp _ _ Ha Hn) as (c & -> & Hc). m_step. rewrite Hc, (view_fits_spec _ _ _ _ Hv Ho).
  unfold below, choose_step at 2, in_family. cbn [f_name family_of].
  destruct (bool_decide (array_text (viewName vp) = name)); m_step; [|by apply IH].
  destruct (Nat.leb_spec (length (f_sub (family_of vp))) (length o)) as [Hle|Hlt]; m_step.
  - rewrite (proj2 (Nat.ltb_ge _ _) Hle). cbn match. rewrite (family_has_spec _ _ _ _ Hv Ho Hle). m_step.
    destruct (agrees _ 0 _ o); m_step; [|by apply IH].
    rewrite (better_match_spec _ _ Hv Hsh). m_step.
    destruct (closer_opt _ _); [|by apply IH].
    apply (IH (Some vp) lo). by intros ? [= <-].
  - rewrite (proj2 (Nat.ltb_lt _ _) Hlt). m_step.
    rewrite (longer_has_spec _ _ _ _ Hv Ho) by lia. m_step.
    destruct (agrees _ 0 _ o); [|by apply IH].
    destruct lo as [g|]; [|by apply (IH sh (Some vp))].
    cbn [fmap option_fmap option_map f_type family_of].
    destruct (viewType g =? viewType vp); m_step; [by apply (IH sh (Some g))|by eauto].
Qed.

(** Whether an entry gives access to what it was chosen for. *)
Definition included (vp : option vacm_viewEntry) : bool :=
  match vp with Some vp => negb (viewType vp =? SNMP_VIEW_EXCLUDED) | None => false end.

Definition included_family (f : option family) : bool :=
  match f with Some f => negb (f_type f =? SNMP_VIEW_EXCLUDED) | None => false end.

Lemma included_of r : included r = included_family (family_of <$> r).
Proof. by destruct r. Qed.

Lemma in_family_short f s t :
  (length (f_sub f) ≤ length s)%nat → in_family f (s ++ t) = in_family f s.
Proof.
  intros H. unfold in_family. rewrite length_app, agrees_app by done.
  by rewrite !(proj2 (Nat.leb_le _ _)) by lia.
Qed.

(** What decides about a name below the subtree [s] is a longer family, or what decides
    about [s] itself. *)
Lemma choose_below name s t fs best best' :
  (∀ g, best = Some g → (length (f_sub g) ≤ length s)%nat) →
  best' = best ∨ (∃ g, best' = Some g ∧ (length s < length (f_sub g))%nat) →
  foldl (choose_step name (s ++ t)) best' fs = foldl (choose_step name s) best fs ∨
  ∃ g, foldl (choose_step name (s ++ t)) best' fs = Some g ∧ (length s < length (f_sub g))%nat.
Proof.
  revert best best'. induction fs as [|f fs IH]; intros best best' Hb Hb'; [done|]. cbn [foldl].
  destruct (decide (length (f_sub f) ≤ length s)%nat) as [Hs|Hs].
  - assert (∀ g, choose_step name s best f = Some g → (length (f_sub g) ≤ length s)%nat) as Hb2.
    { unfold choose_step. destruct (_ && _); [by intros ? [= <-]|done]. }
    apply (IH _ _ Hb2). destruct Hb' as [->|(g & -> & Hg)].
    + left. unfold choose_step. by rewrite in_family_short.
    + right. exists g. split; [|done]. unfold choose_step. cbn [closer_opt]. unfold closer.
      rewrite (proj2 (Nat.ltb_ge _ _)), (proj2 (Nat.eqb_neq _ _)) by lia.
      by rewrite andb_false_r.
  - assert (choose_step name s best f = best) as ->.
    { unfold choose_step, in_family. rewrite (proj2 (Nat.leb_gt _ _)) by lia.
      by rewrite andb_false_r. }
    apply (IH _ _ Hb). unfold choose_step. destruct (_ && _); [right|done].
    exists f. split; [done|lia].
Qed.

Lemma choose_subtree name s t fs :
  choose name (s ++ t) fs = choose name s fs ∨
  ∃ g, choose name (s ++ t) fs = Some g ∧ g ∈ fs ∧ below name s g = true.
Proof.
  destruct (choose_below name s t fs None None) as [H|(g & Hg & Hl)]; [done|by left|by left|right].
  exists g. split; [done|]. pose proof (choose_from name (s ++ t) None fs) as HC.
  rewrite Hg in HC. destruct HC as ([|[Hin Hc]] & _); [done|]. split; [done|].
  unfold below. apply candidate_spec in Hc. unfold in_family in Hc.
  rewrite !andb_true_iff in Hc. destruct Hc as [-> [_ Ha]].
  rewrite (proj2 (Nat.ltb_lt _ _) Hl). by apply agrees_app_le in Ha.
Qed.

Lemma subtree_check_definite head name obj len s r :
  Forall view_ok head → zlen name < VACM_MAX_STRING → stored obj len s →
  netsnmp_view_subtree_check head name obj len = Ok r → r ≠ VACM_SUBTREE_UNKNOWN →
  ∀ t, included_family (choose name (s ++ t) (family_of <$> head)) = (r =? VACM_SUCCESS).
Proof.
  intros Hall Hn Ho HR Hr t. unfold netsnmp_view_subtree_check in HR.
  destruct (name_len_short _ Hn) as [E1 E2]. rewrite E1, E2 in HR.
  destruct (subtree_loop_spec head name obj len s None None) as (res & E & Hres); [done..|].
  rewrite E in HR. cbn [mbind M_bind fmap option_fmap option_map] in HR, Hres.
  destruct (first_below name s None _) as [l|] eqn:Ef; [|subst res; congruence].
  destruct (first_below_types _ _ _ _ _ Ef) as [_ Hty].
  destruct Hres as (sh & lo & -> & <- & Hsh). fold (choose name s (family_of <$> head)) in Hsh.
  destruct (inconsistent sh lo) eqn:Ei; [congruence|].
  assert (included_family (choose name s (family_of <$> head)) = (r =? VACM_SUCCESS)) as Hs.
  { rewrite <- Hsh, <- included_of. unfold included.
    destruct sh as [v|]; [|by injection HR as <-].
    by destruct (viewType v =? SNMP_VIEW_EXCLUDED); injection HR as <-. }
  destruct (choose_subtree name s t (family_of <$> head)) as [->|(g & -> & Hg & Hb)]; [done|].
  destruct (Hty g Hg Hb) as (l & Hl & Et). destruct lo as [lo|]; [|done]. injection Hl as <-.
  rewrite <- Hs, <- Hsh. cbn [included_family]. rewrite <- Et. unfold inconsistent in Ei.
  destruct sh as [v|]; cbn [fmap option_fmap option_map included_family f_type family_of].
  - destruct (Z.eqb_spec (viewType lo) (viewType v)) as [->|]; done.
  - by destruct (viewType lo =? SNMP_VIEW_EXCLUDED).
Qed.

Lemma subtree_check_codes head name obj len s :
  Forall view_ok head → zlen name < VACM_MAX_STRING → stored obj len s →
  ∃ r, netsnmp_view_subtree_check head name obj len = Ok r ∧
    (r = VACM_SUCCESS ∨ r = VACM_NOTINVIEW ∨ r = VACM_SUBTREE_UNKNOWN).
Proof.
  intros Hall Hn Ho.
  unfold netsnmp_view_subtree_check. destruct (name_len_short _ Hn) as [-> ->].
  destruct (subtree_loop_spec head name obj len s None None) as (res & -> & _); [done..|]. m_step.
  destruct res as [[sh lo]|]; [|by eauto]. destruct (inconsistent sh lo); [by eauto|].
  destruct sh as [v|]; [|by eauto]. destruct (viewType v =? SNMP_VIEW_EXCLUDED); eauto.
Qed.

Lemma subtree_check_answers head name obj len s :
  Forall view_ok head → zlen name < VACM_MAX_STRING → stored obj len s →
  ∃ r, netsnmp_view_subtree_check head name obj len = Ok r ∧
    (r ≠ VACM_SUBTREE_UNKNOWN → ∀ t obj' len', stored obj' len' (s ++ t) →
      ∃ vp, netsnmp_view_get head name obj' len' VACM_MODE_FIND = Ok vp ∧
        included vp = (r =? VACM_SUCCESS)).
Proof.
  intros Hall Hn Ho.
  destruct (subtree_check_codes head name obj len s Hall Hn Ho) as (r & HR & _).
  exists r. split; [done|]. intros Hu t obj' len' Ho'.
  destruct (view_get_spec head name obj' len' (s ++ t) Hall Hn Ho') as (vp & Hg & Hf & _).
  exists vp. split; [done|]. rewrite included_of, Hf. by eapply subtree_check_definite.
Qed.

(** C29: A definite answer of netsnmp_view_subtree_check about a subtree is right for every
    object identifier in it: on a table of well-formed entries the check always returns
    one of its three codes, and when it is VACM_SUCCESS or VACM_NOTINVIEW, then for each
    continuation of the subtree the lookup of the complete identifier gives an entry of
    type included in the first case, and no entry or one of type excluded in the second,
    whatever masks and overlapping families the view has. *)
Theorem view_subtree_check_sound head name obj len s :
  Forall view_ok head → zlen name < VACM_MAX_STRING → stored obj len s →
  ∃ r, netsnmp_view_subtree_check head name obj len = Ok r ∧
    (r = VACM_SUCCESS ∨ r = VACM_NOTINVIEW ∨ r = VACM_SUBTREE_UNKNOWN) ∧
    (r ≠ VACM_SUBTREE_UNKNOWN → ∀ t obj' len', stored obj' len' (s ++ t) →
      ∃ vp, netsnmp_view_get head name obj' len' VACM_MODE_FIND = Ok vp ∧
        included vp = (r =? VACM_SUCCESS)).
Proof.
  intros Hall Hn Ho. destruct (subtree_check_codes head name obj len s Hall Hn Ho) as (r & HR & Hr).
  destruct (subtree_check_answers head name obj len s Hall Hn Ho) as (r' & HR' & HA).
  assert (r' = r) as -> by congruence. by exists r.
Qed.

Lemma view_subtree_check_sound_witness :
  ∃ r, netsnmp_view_subtree_check sample_views [97; 108; 108] [1; 3; 6; 1; 4] 5 = Ok r ∧
    (r = VACM_SUCCESS ∨ r = VACM_NOTINVIEW ∨ r = VACM_SUBTREE_UNKNOWN) ∧
    (r ≠ VACM_SUBTREE_UNKNOWN → ∀ t obj' len', stored obj' len' ([1; 3; 6; 1; 4] ++ t) →
      ∃ vp, netsnmp_view_get sample_views [97; 108; 108] obj' len' VACM_MODE_FIND = Ok vp ∧
        included vp = (r =? VACM_SUCCESS)).
Proof.
  apply (view_subtree_check_sound sample_views [97; 108; 108] [1; 3; 6; 1; 4] 5 [1; 3; 6; 1; 4]).
  - apply (bool_decide_unpack _). by vm_compute.
  - by vm_compute.
  - by apply (stored_full [1; 3; 6; 1; 4]).
Defined.

Example sample_views_subtrees :
  netsnmp_view_subtree_check sample_views [97; 108; 108] [1; 3; 6; 1; 4] 5 = Ok VACM_SUCCESS ∧
  netsnmp_view_subtree_check sample_views [97; 108; 108] [1; 3; 6; 1; 5] 5 = Ok VACM_SUBTREE_UNKNOWN ∧
  netsnmp_view_subtree_check sample_views [97; 108; 108] [1; 3; 6; 1; 5; 8; 2] 7 = Ok VACM_NOTINVIEW.
Proof. by vm_compute. Qed.
