(* ===== verification/VacmTables.v ===== *)
(** * The tables of the access control model

    The lists of snmplib/vacm.c are kept in the order of the instance identifiers of
    SNMP-VIEW-BASED-ACM-MIB: creating an entry puts it behind the entries that do not come
    after it, and removing an entry takes out the first one with its index.  The lookup of
    an access right gives the first entry that fits, which is the least in that order. *)

From S2P Require Import Prelude Ber Asn1 OidCompare Vacm VacmView.
From stdpp Require Import prelude numbers list sorting.
From Stdlib Require Import ZArith Lia.
Open Scope Z_scope.

(** ** Instance identifiers *)

(** A string as it is written in an instance identifier: its length, then its octets. *)
Definition arcs_of (s : list Z) : list Z := zlen s :: s.

Definition view_key (vp : vacm_viewEntry) : list Z :=
  arcs_of (f_name (family_of vp)) ++ arcs_of (f_sub (family_of vp)).

Definition group_key (gp : vacm_groupEntry) : list Z :=
  g_securityModel gp :: arcs_of (array_text (g_securityName gp)).

Definition access_key (ap : vacm_accessEntry) : list Z :=
  arcs_of (array_text (a_groupName ap)) ++ arcs_of (array_text (a_contextPrefix ap))
  ++ [a_securityModel ap; a_securityLevel ap].

Definition key_le {A} (key : A → list Z) (x y : A) : Prop := oid_cmp (key x) (key y) ≤ 0.

(** A table in order. *)
Definition key_sorted {A} (key : A → list Z) (l : list A) : Prop := StronglySorted (key_le key) l.

Definition group_ok (gp : vacm_groupEntry) : Prop :=
  array_ok (g_securityName gp) ∧ length (g_groupName gp) = VACMSTRINGLEN.

Definition access_ok (ap : vacm_accessEntry) : Prop :=
  array_ok (a_groupName ap) ∧ array_ok (a_contextPrefix ap) ∧
  length (a_views ap) = Z.to_nat VACM_MAX_VIEWS ∧
  Forall (λ v, length v = VACMSTRINGLEN) (a_views ap).

#[global] Instance group_ok_dec gp : Decision (group_ok gp).
Proof. unfold group_ok. apply _. Defined.
#[global] Instance access_ok_dec ap : Decision (access_ok ap).
Proof. unfold access_ok. apply _. Defined.

(** Length prefixes make the order of concatenations lexicographic. *)
Lemma oid_cmp_app_same a b x y :
  length a = length b →
  oid_cmp (a ++ x) (b ++ y) = if oid_cmp a b =? 0 then oid_cmp x y else oid_cmp a b.
Proof.
  revert b. induction a as [|c a IH]; intros [|d b] Hl; simpl in *; try lia; try done.
  destruct (c =? d); [apply IH; lia|]. by destruct (c <? d).
Qed.

Lemma oid_cmp_arcs a b x y :
  oid_cmp (arcs_of a ++ x) (arcs_of b ++ y)
  = if oid_cmp (arcs_of a) (arcs_of b) =? 0 then oid_cmp x y else oid_cmp (arcs_of a) (arcs_of b).
Proof.
  destruct (decide (length a = length b)) as [E|E].
  - apply oid_cmp_app_same. simpl. lia.
  - unfold arcs_of, zlen. simpl. destruct (Z.eqb_spec (Z.of_nat (length a)) (Z.of_nat (length b))); [lia|].
    by destruct (Z.of_nat (length a) <? Z.of_nat (length b)).
Qed.

(** ** Sorted insertion *)
Section Insertion.
Context {A : Type} (key : A → list Z).

(** Behind the entries that do not come after the new one. *)
Fixpoint place_in (v : A) (l : list A) : nat * list A :=
  match l with
  | [] => (0%nat, [v])
  | x :: r =>
      if 0 <? oid_cmp (key x) (key v) then (0%nat, v :: l)
      else let '(k, r) := place_in v r in (S k, x :: r)
  end.

Lemma place_in_split v l :
  let '(k, l') := place_in v l in
  (k ≤ length l)%nat ∧ l' = take k l ++ v :: drop k l ∧
  Forall (λ x, key_le key x v) (take k l) ∧
  (∀ x r, drop k l = x :: r → 0 < oid_cmp (key x) (key v)).
Proof.
  induction l as [|x l IH]; simpl; [by split_and!; [lia| |constructor|]|].
  destruct (Z.ltb_spec 0 (oid_cmp (key x) (key v))).
  - simpl. split_and!; [lia|done|constructor|]. by intros ? ? [= <- <-].
  - destruct (place_in v l) as [k l']. destruct IH as (H1 & -> & H3 & H4). simpl.
    split_and!; [lia|done|by constructor|done].
Qed.

Lemma place_in_order v l : key_sorted key l → key_sorted key (place_in v l).2.
Proof.
  unfold key_sorted. induction 1 as [|x l Hl IH Hx]; simpl; [by repeat constructor|].
  destruct (Z.ltb_spec 0 (oid_cmp (key x) (key v))) as [H|H]; simpl.
  - constructor; [by constructor|]. assert (key_le key v x) as Hvx.
    { unfold key_le. rewrite oid_cmp_antisym. lia. }
    constructor; [done|]. eapply Forall_impl; [exact Hx|]. intros y Hy.
    unfold key_le in *. by eapply oid_cmp_trans.
  - pose proof (place_in_split v l) as HP. destruct (place_in v l) as [k l']. simpl in *.
    constructor; [done|]. destruct HP as (_ & -> & _). rewrite <- (take_drop k l) in Hx.
    rewrite Forall_app in *. destruct Hx. by split; [|constructor].
Qed.

(** Nothing but the removal of the entry undoes an insertion. *)
Lemma place_in_unlink (test : A → M bool) v l :
  test v = Ok true → Forall (λ x, test x = Ok false) l →
  unlink_entry test (place_in v l).2 = Ok l.
Proof.
  intros Hv Hl. pose proof (place_in_split v l) as HP. destruct (place_in v l) as [k l'].
  destruct HP as (_ & -> & _). cbn [snd]. rewrite <- (take_drop k l) in Hl at 1.
  apply Forall_app in Hl as [Hl _]. rewrite <- (take_drop k l) at 3.
  induction Hl as [|x r Hx Hr IH]; simpl; [by rewrite Hv|]. rewrite Hx. m_step. by rewrite IH.
Qed.

End Insertion.

Lemma destroy_unlink {A} (test : A → M bool) l : destroy test l = unlink_entry test l.
Proof. by destruct l. Qed.

(** ** The three insertions are this one *)

Lemma array_hd arr : array_ok arr → hd 0 arr = zlen (array_text arr).
Proof.
  intros (Hl & Hh & _). unfold array_text, zlen, VACM_MAX_STRING, VACMSTRINGLEN in *.
  rewrite length_take, length_drop. lia.
Qed.

Lemma array_text_short arr : array_ok arr → zlen (array_text arr) < VACM_MAX_STRING.
Proof. intros H. rewrite <- (array_hd _ H). by destruct H as (_ & [_ H] & _). Qed.

(** The bytes of another name, as many as this one has, decide like the whole of it. *)
Lemma oid_cmp_arcs_take a b r :
  oid_cmp (zlen a :: take (length b) (a ++ r)) (arcs_of b) = oid_cmp (arcs_of a) (arcs_of b).
Proof.
  unfold arcs_of, zlen. simpl.
  destruct (Z.eqb_spec (Z.of_nat (length a)) (Z.of_nat (length b))) as [E|]; [|done].
  by rewrite take_app_length' by lia.
Qed.

Lemma array_split arr : array_ok arr → ∃ r, drop 1 arr = array_text arr ++ r.
Proof.
  intros _. unfold array_text. exists (drop (Z.to_nat (hd 0 arr)) (drop 1 arr)). by rewrite take_drop.
Qed.

Lemma memcmp_arrays a b :
  array_ok a → array_ok b →
  memcmp_at a 0 b 0 (S (length (array_text b)))
  = Ok (oid_cmp (arcs_of (array_text a)) (arcs_of (array_text b))).
Proof.
  intros Ha Hb. pose proof (array_text_short _ Hb) as Hs. unfold memcmp_at.
  unfold zlen, VACM_MAX_STRING in Hs.
  rewrite (rd_array a), (rd_array b) by (unfold VACM_MAX_STRING; done || lia). m_step.
  destruct (array_split _ Ha) as [ra Ea], (array_split _ Hb) as [rb Eb]. rewrite Ea, Eb.
  rewrite (array_hd _ Ha), (array_hd _ Hb). rewrite take_app_length. by rewrite oid_cmp_arcs_take.
Qed.

Lemma view_array_stored vp :
  view_ok vp → stored (viewSubtree vp) (viewSubtreeLen vp) (arcs_of (f_sub (family_of vp))).
Proof.
  intros Hv. destruct (view_sub_stored _ Hv) as (r & Hr & Hlen & _).
  destruct Hv as (_ & Hl & Hb & Hh & _). unfold MAX_OID_LEN in *. rewrite u32_id in Hlen by lia.
  exists r. unfold arcs_of. rewrite <- Hlen, zlen_cons, <- Hlen.
  split_and!; [|lia..]. rewrite <- app_comm_cons, <- Hr, <- Hh. by destruct (viewSubtree vp).
Qed.

Lemma view_insert_spec vp lps :
  view_ok vp → Forall view_ok lps →
  view_insert vp (length (f_name (family_of vp))) lps = Ok (place_in view_key vp lps).
Proof.
  intros Hv. induction 1 as [|lp lps Hl Hall IH]; [done|]. cbn [view_insert place_in].
  destruct (Hv) as (Hn & _), (Hl) as (Hn' & _).
  cbn [f_name family_of]. rewrite (memcmp_arrays _ _ Hn' Hn). m_step.
  rewrite (compare_stored _ _ _ _ _ _ (view_array_stored _ Hl) (view_array_stored _ Hv)). m_step.
  unfold view_key at 1 2. rewrite oid_cmp_arcs. cbn [f_name family_of] in *.
  set (c := oid_cmp (arcs_of (array_text (viewName lp))) _).
  destruct (Z.eqb_spec c 0) as [->|]; m_step; [rewrite Z.ltb_irrefl|];
    destruct (0 <? _); try done; rewrite IH; m_step; by destruct (place_in view_key vp lps).
Qed.

Lemma group_insert_spec gp lgs :
  group_ok gp → Forall group_ok lgs →
  group_insert gp (length (array_text (g_securityName gp))) lgs = Ok (place_in group_key gp lgs).
Proof.
  intros Hg. induction 1 as [|lg lgs Hl Hall IH]; [done|]. cbn [group_insert place_in].
  unfold group_key at 1 2. cbn [oid_cmp].
  destruct Hg as (Hn & _), Hl as (Hn' & _). rewrite (memcmp_arrays _ _ Hn' Hn). m_step.
  destruct (Z.eqb_spec (g_securityModel lg) (g_securityModel gp)) as [->|E].
  - rewrite Z.ltb_irrefl. m_step. destruct (0 <? _); [done|].
    rewrite IH. m_step. by destruct (place_in group_key gp lgs).
  - destruct (Z.ltb_spec (g_securityModel gp) (g_securityModel lg));
      destruct (Z.ltb_spec (g_securityModel lg) (g_securityModel gp)); try lia; [done|].
    m_step. rewrite IH. m_step. by destruct (place_in group_key gp lgs).
Qed.

Lemma access_stops_spec lp vp :
  access_ok lp → access_ok vp →
  access_stops lp vp (length (array_text (a_groupName vp))) (length (array_text (a_contextPrefix vp)))
  = Ok (0 <? oid_cmp (access_key lp) (access_key vp)).
Proof.
  intros (Hl & Hl' & _) (Hv & Hv' & _). unfold access_stops, access_key.
  rewrite (memcmp_arrays _ _ Hl Hv). m_step. rewrite !oid_cmp_arcs.
  set (c := oid_cmp (arcs_of (array_text (a_groupName lp))) _).
  destruct (Z.eqb_spec c 0) as [->|].
  2: { destruct (Z.ltb_spec 0 c); [done|]. by destruct (Z.ltb_spec c 0); [|lia]. }
  rewrite Z.ltb_irrefl, (memcmp_arrays _ _ Hl' Hv'). m_step.
  set (d := oid_cmp (arcs_of (array_text (a_contextPrefix lp))) _).
  destruct (Z.eqb_spec d 0) as [->|].
  2: { destruct (Z.ltb_spec 0 d); [done|]. by destruct (Z.ltb_spec d 0); [|lia]. }
  rewrite Z.ltb_irrefl. cbn [oid_cmp].
  destruct (Z.eqb_spec (a_securityModel lp) (a_securityModel vp)),
    (Z.ltb_spec (a_securityModel vp) (a_securityModel lp)),
    (Z.ltb_spec (a_securityModel lp) (a_securityModel vp)),
    (Z.eqb_spec (a_securityLevel lp) (a_securityLevel vp)),
    (Z.ltb_spec (a_securityLevel vp) (a_securityLevel lp)),
    (Z.ltb_spec (a_securityLevel lp) (a_securityLevel vp)); try lia; done.
Qed.

Lemma access_insert_spec vp lps :
  access_ok vp → Forall access_ok lps →
  access_insert vp (length (array_text (a_groupName vp))) (length (array_text (a_contextPrefix vp))) lps
  = Ok (place_in access_key vp lps).
Proof.
  intros Hv. induction 1 as [|lp lps Hl Hall IH]; [done|]. cbn [access_insert place_in].
  rewrite (access_stops_spec _ _ Hl Hv). m_step. destruct (0 <? _); [done|].
  rewrite IH. m_step. by destruct (place_in access_key vp lps).
Qed.

(** ** New entries *)

Definition nul_free (s : list Z) : Prop := Forall (λ c, c ≠ 0) s.

Lemma name_array_spec s :
  zlen s < VACM_MAX_STRING → nul_free s →
  ∃ arr, name_array s = Ok arr ∧ array_ok arr ∧ array_text arr = s.
Proof.
  intros Hs Hc. unfold name_array, zlen, VACM_MAX_STRING, VACMSTRINGLEN in *.
  rewrite wr_list_eq by (unfold counted; simpl; rewrite length_app; simpl; lia).
  eexists. split; [done|]. rewrite take_0, app_nil_l.
  set (pad := drop _ _).
  assert (length pad = 32 - length s)%nat as Hp.
  { unfold pad. rewrite length_drop, length_replicate. unfold counted. simpl. rewrite length_app. simpl. lia. }
  assert (array_text (counted s ++ pad) = s) as Ht.
  { unfold array_text, counted, zlen. simpl. rewrite Nat2Z.id, drop_0, <- app_assoc.
    by rewrite take_app_length. }
  split; [|done]. unfold array_ok. rewrite Ht.
  assert (hd 0 (counted s ++ pad) = Z.of_nat (length s)) as -> by done. rewrite Nat2Z.id.
  unfold VACM_MAX_STRING, VACMSTRINGLEN. split_and!; [|lia|lia|done|].
  - unfold counted. rewrite !length_app. simpl. rewrite length_app. simpl. lia.
  - unfold counted. simpl. rewrite <- app_assoc. by apply list_lookup_middle.
Qed.

Lemma subtree_array_spec obj len sub :
  stored obj len sub → zlen sub < MAX_OID_LEN →
  subtree_array obj len = Ok (zlen sub :: sub ++ replicate (127 - length sub) 0).
Proof.
  intros (r & -> & -> & _) Hl. unfold subtree_array, zlen, MAX_OID_LEN in *.
  change (Z.to_nat 128) with 128%nat. unfold wr at 1. rewrite decide_True by (rewrite length_replicate; lia).
  m_step. rewrite Nat2Z.id, rd_list_spec, drop_0, take_app_length by (rewrite length_app; lia). m_step.
  change (<[0%nat := ?x]> (replicate 128 0)) with (x :: replicate 127 0).
  rewrite wr_list_eq by (cbn [length]; rewrite length_replicate; lia).
  cbn [take Nat.add drop app]. rewrite take_0. by rewrite drop_replicate.
Qed.

(** The length takes one place of the array: with 128 subidentifiers, which an object
    identifier may have, the copy runs over its end. *)
Lemma view_create_overruns head name sub :
  zlen name < VACM_MAX_STRING → nul_free name → zlen sub = MAX_OID_LEN →
  netsnmp_view_create (true, true) head name sub MAX_OID_LEN = UB.
Proof.
  intros Hn Hc Hs. unfold netsnmp_view_create. destruct (name_len_short _ Hn) as [-> _]. cbn [fst snd negb].
  destruct (name_array_spec name Hn Hc) as (arr & -> & _). m_step.
  unfold subtree_array, zlen, MAX_OID_LEN in *. change (Z.to_nat 128) with 128%nat in *.
  unfold wr at 1. rewrite decide_True by (rewrite length_replicate; lia). m_step.
  rewrite rd_list_spec by lia. m_step. rewrite drop_0, firstn_all2 by lia.
  rewrite wr_list_overrun; [done|rewrite length_insert, length_replicate; lia|by destruct sub].
Qed.

(** What a creation gives: the new entry has the index asked for, no other entry is
    lost, and the table stays well formed and in order. *)
Definition creates {A} (ok : A → Prop) (key : A → list Z) (l : list A) (index : list Z)
    (res : M (option nat * list A)) : Prop :=
  ∃ k v, res = Ok (Some k, take k l ++ v :: drop k l) ∧ (k ≤ length l)%nat ∧ key v = index ∧
    Forall ok (take k l ++ v :: drop k l) ∧ key_sorted key (take k l ++ v :: drop k l).

Lemma creates_place {A} (ok : A → Prop) key l v :
  Forall ok l → ok v → key_sorted key l →
  creates ok key l (key v) ('(k, l') ← Ok (place_in key v l); Ok (Some k, l')).
Proof.
  intros Hl Hv Ho. pose proof (place_in_split key v l) as HP. pose proof (place_in_order key v l Ho) as HO.
  destruct (place_in key v l) as [k l']. destruct HP as (Hk & -> & _). m_step.
  exists k, v. split_and!; [done..| |done].
  rewrite <- (take_drop k l) in Hl. rewrite Forall_app in *. destruct Hl. by split; [|constructor].
Qed.

Lemma view_create_spec head name obj len sub :
  Forall view_ok head → key_sorted view_key head →
  zlen name < VACM_MAX_STRING → nul_free name → stored obj len sub → zlen sub < MAX_OID_LEN →
  ∃ vp, view_ok vp ∧ family_of vp = Family name sub [] 0 ∧
    netsnmp_view_create (true, true) head name obj len
    = ('(k, l') ← Ok (place_in view_key vp head); Ok (Some k, l')).
Proof.
  intros Hall Ho Hn Hc Hs Hl. unfold netsnmp_view_create.
  destruct (name_len_short _ Hn) as [-> ->]. cbn [fst snd negb].
  destruct (name_array_spec name Hn Hc) as (arr & -> & Ha & Ht). m_step.
  rewrite (subtree_array_spec _ _ _ Hs Hl). m_step.
  set (vp := ViewEntry _ _ _ _ _ _ _ _). exists vp.
  destruct Hs as (r & -> & -> & _). pose proof (zlen_nonneg sub).
  assert (family_of vp = Family name sub [] 0) as Hf.
  { unfold family_of, vp. cbn [viewName viewSubtree viewSubtreeLen viewMask viewMaskLen viewType].
    unfold MAX_OID_LEN in Hl. rewrite u32_id by lia. f_equal; [done|].
    replace (zlen sub + 1 - 1) with (zlen sub) by lia. unfold zlen. rewrite Nat2Z.id.
    simpl. by rewrite drop_0, take_app_length. }
  assert (view_ok vp) as Hv.
  { unfold view_ok, vp. cbn [viewName viewSubtree viewSubtreeLen viewMask viewMaskLen viewType].
    unfold MAX_OID_LEN, zlen, VACMSTRINGLEN in *. rewrite u32_id by lia.
    split_and!; [done| |lia|lia| |done|lia|lia].
    - simpl. rewrite length_app, length_replicate. lia.
    - simpl. lia. }
  split_and!; [done..|]. pose proof (view_insert_spec vp head Hv Hall) as E. rewrite Hf in E.
  cbn [f_name] in E. by rewrite E.
Qed.

Lemma group_create_spec l model name :
  Forall group_ok l → zlen name < VACM_MAX_STRING → nul_free name →
  ∃ gp, group_ok gp ∧ g_securityModel gp = model ∧ array_text (g_securityName gp) = name ∧
    vacm_createGroupEntry (true, true) l model name
    = ('(k, l') ← Ok (place_in group_key gp l); Ok (Some k, l')).
Proof.
  intros Hall Hn Hc. unfold vacm_createGroupEntry.
  destruct (name_len_short _ Hn) as [-> ->]. cbn [fst snd negb].
  destruct (name_array_spec name Hn Hc) as (arr & -> & Ha & Ht). m_step.
  set (gp := GroupEntry _ _ _ _ _). exists gp.
  assert (group_ok gp) as Hg by (split; [done|apply length_replicate]).
  split_and!; [done..|]. pose proof (group_insert_spec gp l Hg Hall) as E.
  cbn [g_securityName gp] in E. rewrite Ht in E. by rewrite E.
Qed.

Lemma access_create_spec l group context model level :
  Forall access_ok l →
  zlen group < VACM_MAX_STRING → nul_free group → zlen context < VACM_MAX_STRING → nul_free context →
  ∃ ap, access_ok ap ∧ array_text (a_groupName ap) = group ∧
    array_text (a_contextPrefix ap) = context ∧ a_securityModel ap = model ∧
    a_securityLevel ap = level ∧
    vacm_createAccessEntry (true, true) l group context model level
    = ('(k, l') ← Ok (place_in access_key ap l); Ok (Some k, l')).
Proof.
  intros Hall Hg Hgc Hx Hxc. unfold vacm_createAccessEntry.
  destruct (name_len_short _ Hg) as [-> ->], (name_len_short _ Hx) as [-> ->]. cbn [fst snd negb].
  destruct (name_array_spec group Hg Hgc) as (ga & -> & Hga & Hgt). m_step.
  destruct (name_array_spec context Hx Hxc) as (ca & -> & Hca & Hct). m_step.
  set (ap := AccessEntry _ _ _ _ _ _ _ _). exists ap.
  assert (access_ok ap) as Ha.
  { split_and!; [done..|apply length_replicate|]. apply Forall_replicate, length_replicate. }
  split_and!; [done..|]. pose proof (access_insert_spec ap l Ha Hall) as E.
  cbn [a_groupName a_contextPrefix ap] in E. rewrite Hgt, Hct in E. by rewrite E.
Qed.

(** The view, group and access tables are kept in the order in which a manager walks
    them: when the tables are well formed and sorted by their instance identifiers, with
    the length of each name first, then creating an entry with names of at most 31
    characters and a subtree of at most 127 subidentifiers succeeds if memory is left,
    the new entry has the index asked for, every other entry stays, and the table is
    again well formed and in order. *)
Theorem vacm_tables_in_order views groups accesses name obj len sub context model level :
  Forall view_ok views → key_sorted view_key views →
  Forall group_ok groups → key_sorted group_key groups →
  Forall access_ok accesses → key_sorted access_key accesses →
  zlen name < VACM_MAX_STRING → nul_free name →
  zlen context < VACM_MAX_STRING → nul_free context →
  stored obj len sub → zlen sub < MAX_OID_LEN →
  creates view_ok view_key views (arcs_of name ++ arcs_of sub)
    (netsnmp_view_create (true, true) views name obj len) ∧
  creates group_ok group_key groups (model :: arcs_of name)
    (vacm_createGroupEntry (true, true) groups model name) ∧
  creates access_ok access_key accesses (arcs_of name ++ arcs_of context ++ [model; level])
    (vacm_createAccessEntry (true, true) accesses name context model level).
Proof.
  intros Hv Ov Hg Og Ha Oa Hn Hc Hx Hxc Hs Hl. split_and!.
  - destruct (view_create_spec views name obj len sub) as (vp & Hok & Hf & ->); [done..|].
    replace (arcs_of name ++ arcs_of sub) with (view_key vp) by (unfold view_key; by rewrite Hf).
    by apply creates_place.
  - destruct (group_create_spec groups model name) as (gp & Hok & <- & <- & ->); [done..|].
    by apply (creates_place group_ok group_key groups gp).
  - destruct (access_create_spec accesses name context model level)
      as (ap & Hok & <- & <- & <- & <- & ->); [done..|].
    by apply (creates_place access_ok access_key accesses ap).
Qed.

Definition sample_group (model : Z) (name group : list Z) : vacm_groupEntry :=
  GroupEntry model (counted name ++ replicate (VACMSTRINGLEN - 2 - length name) 0)
    (group ++ replicate (VACMSTRINGLEN - length group) 0) 3 1.

Definition sample_access (group context : list Z) (model level match_ : Z) (view : list Z)
    : vacm_accessEntry :=
  AccessEntry (counted group ++ replicate (VACMSTRINGLEN - 2 - length group) 0)
    (counted context ++ replicate (VACMSTRINGLEN - 2 - length context) 0) model level match_
    (replicate 8 (view ++ replicate (VACMSTRINGLEN - length view) 0)) 3 1.

(** A user "joe" in the group "ops", who may read the view "all" in any context. *)
Definition sample_groups : list vacm_groupEntry := [ sample_group 3 [106; 111; 101] [111; 112; 115] ].
Definition sample_accesses : list vacm_accessEntry :=
  [ sample_access [111; 112; 115] [] 0 1 CONTEXT_MATCH_PREFIX [97; 108; 108];
    sample_access [111; 112; 115] [] 3 2 CONTEXT_MATCH_PREFIX [97; 108; 108] ].

Lemma in_order_check {A} (key : A → list Z) l :
  bool_decide (StronglySorted (λ x y, oid_cmp x y ≤ 0) (key <$> l)) = true → key_sorted key l.
Proof.
  intros H%bool_decide_eq_true. unfold key_sorted. induction l as [|x l IH]; [constructor|].
  inversion H as [|? ? Hl Hx]; subst. constructor; [by apply IH|].
  apply (Forall_fmap key (λ y, oid_cmp (key x) y ≤ 0)) in Hx. exact Hx.
Qed.

Lemma vacm_tables_in_order_witness :
  creates view_ok view_key sample_views (arcs_of [98; 111; 98] ++ arcs_of [1; 3])
    (netsnmp_view_create (true, true) sample_views [98; 111; 98] [1; 3] 2) ∧
  creates group_ok group_key sample_groups (3 :: arcs_of [98; 111; 98])
    (vacm_createGroupEntry (true, true) sample_groups 3 [98; 111; 98]) ∧
  creates access_ok access_key sample_accesses (arcs_of [98; 111; 98] ++ arcs_of [120] ++ [3; 1])
    (vacm_createAccessEntry (true, true) sample_accesses [98; 111; 98] [120] 3 1).
Proof.
  apply (vacm_tables_in_order sample_views sample_groups sample_accesses [98; 111; 98] [1; 3] 2
           [1; 3] [120] 3 1); try (by apply in_order_check);
    try (apply (bool_decide_unpack _); by vm_compute).
  by apply (stored_full [1; 3]).
Defined.

(** ** Removing entries *)

Lemma streq_text t pad s :
  nul_free t → nul_free s → streq (t ++ 0 :: pad) s = Ok (bool_decide (t = s)).
Proof.
  intros Ht. revert s. induction Ht as [|c t Hc Ht IH]; intros [|d s] Hs; cbn [app streq].
  - done.
  - inversion Hs; subst. destruct (Z.eqb_spec 0 d); [congruence|done].
  - destruct (Z.eqb_spec c 0); [done|]. done.
  - inversion Hs; subst. destruct (Z.eqb_spec c d) as [->|].
    + rewrite IH by done. f_equal. apply bool_decide_ext. split; congruence.
    + rewrite bool_decide_eq_false_2; congruence.
Qed.

Lemma streq_array arr s :
  array_ok arr → nul_free s → streq (drop 1 arr) s = Ok (bool_decide (array_text arr = s)).
Proof.
  intros (Hl & Hh & Hc & Hz) Hs.
  assert (drop 1 arr !! Z.to_nat (hd 0 arr) = Some 0) as Hz'.
  { by rewrite lookup_drop. }
  assert (drop 1 arr = array_text arr ++ 0 :: drop (S (Z.to_nat (hd 0 arr))) (drop 1 arr)) as E.
  { unfold array_text. by rewrite <- (drop_S _ _ _ Hz'), take_drop. }
  rewrite E. by apply streq_text.
Qed.

Lemma view_test vp name sub :
  view_ok vp → nul_free name → zlen sub < MAX_OID_LEN →
  and_then (streq (drop 1 (viewName vp)) name)
    (if viewSubtreeLen vp =? zlen sub + 1 then
       c ← memcmp_at (viewSubtree vp) 0 (arcs_of sub) 0 (Z.to_nat (zlen sub + 1)); Ok (c =? 0)
     else Ok false)
  = Ok (bool_decide (view_key vp = arcs_of name ++ arcs_of sub)).
Proof.
  intros Hv Hc Hl. destruct (view_array_stored _ Hv) as (r & Er & Elen & _). destruct Hv as (Ha & _).
  unfold and_then. rewrite (streq_array _ _ Ha Hc). m_step.
  pose proof (oid_cmp_arcs (f_name (family_of vp)) name (arcs_of (f_sub (family_of vp))) (arcs_of sub)) as EC.
  fold (view_key vp) in EC.
  replace (bool_decide (view_key vp = _)) with (oid_cmp (view_key vp) (arcs_of name ++ arcs_of sub) =? 0).
  2: { apply eq_bool_prop_intro. rewrite bool_decide_spec, Is_true_true, Z.eqb_eq. apply oid_cmp_eq. }
  rewrite EC. cbn [f_name family_of]. case_bool_decide as E.
  - rewrite E, oid_cmp_refl. cbn [Z.eqb]. unfold arcs_of in Elen at 1. rewrite zlen_cons in Elen.
    destruct (Z.eqb_spec (viewSubtreeLen vp) (zlen sub + 1)) as [El|El].
    + assert (length (f_sub (family_of vp)) = length sub) as Hs by (unfold zlen in *; lia).
      unfold memcmp_at. rewrite Er. replace (Z.to_nat (zlen sub + 1)) with (S (length sub)) by (unfold zlen; lia).
      rewrite (rd_list_spec (_ ++ r)) by (rewrite length_app; unfold arcs_of; cbn [length]; lia). m_step.
      rewrite rd_list_spec by (simpl; lia). m_step. rewrite !drop_0.
      by rewrite (take_ge (arcs_of sub)), take_app_length' by (unfold arcs_of; cbn [length]; lia).
    + destruct (Z.eqb_spec (oid_cmp (arcs_of (f_sub (family_of vp))) (arcs_of sub)) 0) as [E0|]; [|done].
      apply oid_cmp_eq, (f_equal (hd 0)) in E0. cbn [hd arcs_of] in E0. lia.
  - destruct (Z.eqb_spec (oid_cmp (arcs_of (array_text (viewName vp))) (arcs_of name)) 0) as [E0|E0].
    + apply oid_cmp_eq in E0. unfold arcs_of in E0. by injection E0 as ? E0.
    + by destruct (Z.eqb_spec (oid_cmp (arcs_of (array_text (viewName vp))) (arcs_of name)) 0).
Qed.

(** A length prefix makes a concatenation uniquely readable. *)
Lemma arcs_app_inj a b x y : arcs_of a ++ x = arcs_of b ++ y → a = b ∧ x = y.
Proof.
  unfold arcs_of, zlen. simpl. intros [= Hl H]. apply Nat2Z.inj in Hl.
  by apply app_inj_1 in H.
Qed.

Lemma access_test ap group context model level :
  access_ok ap → nul_free group → nul_free context →
  (if (a_securityModel ap =? model) && (a_securityLevel ap =? level) then
     and_then (streq (drop 1 (a_groupName ap)) group) (streq (drop 1 (a_contextPrefix ap)) context)
   else Ok false)
  = Ok (bool_decide (access_key ap = arcs_of group ++ arcs_of context ++ [model; level])).
Proof.
  intros (Hg & Hx & _) Hgc Hxc. unfold access_key, and_then.
  rewrite (streq_array _ _ Hg Hgc), (streq_array _ _ Hx Hxc). m_step.
  replace (bool_decide (_ ++ _ = _)) with
    (bool_decide (array_text (a_groupName ap) = group ∧ array_text (a_contextPrefix ap) = context ∧
       a_securityModel ap = model ∧ a_securityLevel ap = level)).
  2: { apply bool_decide_ext. split; [by intros (-> & -> & -> & ->)|].
       intros [-> H]%arcs_app_inj. apply arcs_app_inj in H as [-> H]. by injection H as -> ->. }
  rewrite !bool_decide_and.
  destruct (Z.eqb_spec (a_securityModel ap) model) as [->|]; m_step.
  2: { rewrite (bool_decide_eq_false_2 (a_securityModel ap = model)) by done. cbn [andb]. by rewrite !andb_false_r. }
  destruct (Z.eqb_spec (a_securityLevel ap) level) as [->|]; m_step.
  2: { rewrite (bool_decide_eq_false_2 (a_securityLevel ap = level)) by done. by rewrite !andb_false_r. }
  rewrite (bool_decide_eq_true_2 (model = model)), (bool_decide_eq_true_2 (level = level)) by done.
  cbn [andb]. rewrite !andb_true_r. by destruct (bool_decide (_ = group)).
Qed.

(** An index that is not in the table yet. *)
Definition fresh {A} (key : A → list Z) (index : list Z) (l : list A) : Prop :=
  Forall (λ x, key x ≠ index) l.

Lemma destroy_placed {A} (ok : A → Prop) (key : A → list Z) test index v l :
  (∀ x, ok x → test x = Ok (bool_decide (key x = index))) →
  Forall ok l → ok v → key v = index → fresh key index l →
  destroy test (place_in key v l).2 = Ok l.
Proof.
  intros Ht Hl Hv Hk Hf. rewrite destroy_unlink. apply place_in_unlink.
  - rewrite Ht by done. by rewrite bool_decide_eq_true_2.
  - unfold fresh in Hf. rewrite Forall_forall in *. intros x Hx. rewrite Ht by auto.
    by rewrite bool_decide_eq_false_2 by (by apply Hf).
Qed.

Lemma created_pair {A} (x : nat * list A) :
  ('(k, l) ← Ok x; Ok (Some k, l)) = Ok (Some x.1, x.2).
Proof. by destruct x. Qed.

(** Removing an entry undoes its creation in each of the three tables: when no entry
    has the index yet, the entry that was created is the one that netsnmp_view_destroy,
    vacm_destroyGroupEntry or vacm_destroyAccessEntry then takes out, leaving exactly the
    table of before; a view is named there by its subtree with the length in front. *)
Theorem vacm_destroy_undoes_create views groups accesses name obj len sub context model level :
  Forall view_ok views → key_sorted view_key views → fresh view_key (arcs_of name ++ arcs_of sub) views →
  Forall group_ok groups → fresh group_key (model :: arcs_of name) groups →
  Forall access_ok accesses →
  fresh access_key (arcs_of name ++ arcs_of context ++ [model; level]) accesses →
  zlen name < VACM_MAX_STRING → nul_free name →
  zlen context < VACM_MAX_STRING → nul_free context →
  stored obj len sub → zlen sub < MAX_OID_LEN →
  (∃ k l, netsnmp_view_create (true, true) views name obj len = Ok (Some k, l) ∧
     netsnmp_view_destroy l name (arcs_of sub) (zlen sub + 1) = Ok views) ∧
  (∃ k l, vacm_createGroupEntry (true, true) groups model name = Ok (Some k, l) ∧
     vacm_destroyGroupEntry l model name = Ok groups) ∧
  (∃ k l, vacm_createAccessEntry (true, true) accesses name context model level = Ok (Some k, l) ∧
     vacm_destroyAccessEntry l name context model level = Ok accesses).
Proof.
  intros Hv Ov Fv Hg Fg Ha Fa Hn Hc Hx Hxc Hs Hl. split_and!.
  - destruct (view_create_spec views name obj len sub) as (vp & Hok & Hf & ->); [done..|].
    rewrite created_pair. do 2 eexists. split; [done|]. unfold netsnmp_view_destroy.
    apply (destroy_placed view_ok view_key _ (arcs_of name ++ arcs_of sub)); [|done..| |done].
    + intros x Hxok. by apply view_test.
    + unfold view_key. by rewrite Hf.
  - destruct (group_create_spec groups model name) as (gp & Hok & E1 & E2 & ->); [done..|].
    rewrite created_pair. do 2 eexists. split; [done|]. unfold vacm_destroyGroupEntry.
    apply (destroy_placed group_ok group_key _ (model :: arcs_of name)); [|done..| |done].
    + intros x [Hxok _]. unfold group_key. rewrite (streq_array _ _ Hxok Hc).
      destruct (Z.eqb_spec (g_securityModel x) model) as [->|];
        [|rewrite bool_decide_eq_false_2; congruence].
      f_equal. apply bool_decide_ext. unfold arcs_of. split; [by intros ->|]. by intros [= _ ->].
    + unfold group_key. by rewrite E1, E2.
  - destruct (access_create_spec accesses name context model level)
      as (ap & Hok & E1 & E2 & E3 & E4 & ->); [done..|].
    rewrite created_pair. do 2 eexists. split; [done|]. unfold vacm_destroyAccessEntry.
    apply (destroy_placed access_ok access_key _ (arcs_of name ++ arcs_of context ++ [model; level]));
      [|done..| |done].
    + intros x Hxok. by apply access_test.
    + unfold access_key. by rewrite E1, E2, E3, E4.
Qed.

#[global] Instance fresh_dec {A} (key : A → list Z) index l : Decision (fresh key index l).
Proof. unfold fresh. apply _. Defined.

Lemma vacm_destroy_undoes_create_witness :
  (∃ k l, netsnmp_view_create (true, true) sample_views [98; 111; 98] [1; 3] 2 = Ok (Some k, l) ∧
     netsnmp_view_destroy l [98; 111; 98] (arcs_of [1; 3]) (zlen [1; 3] + 1) = Ok sample_views) ∧
  (∃ k l, vacm_createGroupEntry (true, true) sample_groups 3 [98; 111; 98] = Ok (Some k, l) ∧
     vacm_destroyGroupEntry l 3 [98; 111; 98] = Ok sample_groups) ∧
  (∃ k l, vacm_createAccessEntry (true, true) sample_accesses [98; 111; 98] [120] 3 1 = Ok (Some k, l) ∧
     vacm_destroyAccessEntry l [98; 111; 98] [120] 3 1 = Ok sample_accesses).
Proof.
  apply (vacm_destroy_undoes_create sample_views sample_groups sample_accesses [98; 111; 98] [1; 3] 2
           [1; 3] [120] 3 1); try (by apply in_order_check);
    try (apply (bool_decide_unpack _); by vm_compute).
  by apply (stored_full [1; 3]).
Defined.

(** ** Which access right is used *)

(** The entry lets the group in, with this context, security model and level. *)
Definition admits (ap : vacm_accessEntry) (group context : list Z) (model level : Z) : Prop :=
  array_text (a_groupName ap) = group ∧
  (a_securityModel ap = model ∨ a_securityModel ap = SNMP_SEC_MODEL_ANY) ∧
  a_securityLevel ap ≤ level ∧
  (a_contextMatch ap = CONTEXT_MATCH_EXACT ∧ array_text (a_contextPrefix ap) = context ∨
   a_contextMatch ap = CONTEXT_MATCH_PREFIX ∧ array_text (a_contextPrefix ap) `prefix_of` context).

#[global] Instance admits_dec ap group context model level :
  Decision (admits ap group context model level).
Proof. unfold admits. apply _. Defined.

Lemma name_cmp_swap arr s :
  array_ok arr → zlen s < VACM_MAX_STRING →
  ∃ c, memcmp_at arr 0 (counted s) 0 (S (length s)) = Ok c ∧
    (c =? 0) = bool_decide (array_text arr = s).
Proof.
  intros Ha Hs. unfold memcmp_at.
  rewrite (rd_array arr) by (try done; unfold zlen, VACM_MAX_STRING in *; lia). m_step.
  rewrite rd_counted. m_step. eexists. split; [done|].
  apply eq_bool_prop_intro. rewrite bool_decide_spec, Is_true_true, Z.eqb_eq, oid_cmp_eq.
  rewrite <- (array_text_eq _ _ Ha). done.
Qed.

Lemma context_matches_spec ap context :
  access_ok ap → zlen context < VACM_MAX_STRING →
  context_matches ap (counted context) (length context)
  = Ok (bool_decide (a_contextMatch ap = CONTEXT_MATCH_EXACT ∧ array_text (a_contextPrefix ap) = context ∨
      a_contextMatch ap = CONTEXT_MATCH_PREFIX ∧ array_text (a_contextPrefix ap) `prefix_of` context)).
Proof.
  intros (_ & Hx & _) Hc. unfold context_matches. destruct (name_cmp_swap _ _ Hx Hc) as (c & -> & Ec). m_step.
  assert (rd (a_contextPrefix ap) 0 = Ok (zlen (array_text (a_contextPrefix ap)))) as ->.
  { apply rd_Ok. rewrite <- (array_hd _ Hx). rewrite (array_cons _ Hx) at 1. done. }
  m_step. set (t := array_text (a_contextPrefix ap)) in *. rewrite Ec.
  destruct (Z.eqb_spec (a_contextMatch ap) CONTEXT_MATCH_EXACT) as [E1|E1];
    [|destruct (Z.eqb_spec (a_contextMatch ap) CONTEXT_MATCH_PREFIX) as [E2|E2]]; m_step.
  - rewrite E1. change (CONTEXT_MATCH_EXACT =? CONTEXT_MATCH_PREFIX) with false. m_step.
    destruct (Z.eqb_spec (Z.of_nat (length context)) (zlen t)) as [El|El]; m_step.
    + case_bool_decide as Et; [by rewrite bool_decide_eq_true_2 by auto|].
      rewrite bool_decide_eq_false_2; [done|]. naive_solver.
    + rewrite bool_decide_eq_false_2; [done|]. intros [[_ <-]|[? _]]; done.
  - destruct (Z.leb_spec (zlen t) (Z.of_nat (length context))) as [Hle|Hgt].
    + unfold zlen in *. rewrite Nat2Z.id. unfold memcmp_at.
      destruct (array_split _ Hx) as [r Er]. fold t in Er.
      assert ((1 + length t ≤ length (a_contextPrefix ap))%nat) as Hlen.
      { rewrite (array_cons _ Hx), Er. simpl. rewrite length_app. lia. }
      rewrite (rd_list_spec (a_contextPrefix ap)) by lia. m_step. rewrite Er, take_app_length.
      rewrite rd_list_spec by (unfold counted; simpl; rewrite length_app; lia). m_step.
      unfold counted. cbn [drop]. rewrite drop_0, take_app_le by lia. f_equal.
      apply eq_bool_prop_intro. rewrite bool_decide_spec, Is_true_true, Z.eqb_eq, oid_cmp_eq.
      split; [intros Ht; right; split; [done|]; rewrite Ht; apply prefix_take|].
      intros [[? _]|[_ [k ->]]]; [done|]. by rewrite take_app_length.
    + rewrite bool_decide_eq_false_2; [done|]. intros [[? _]|[_ Hp%prefix_length]]; [done|].
      unfold zlen in *. lia.
  - rewrite bool_decide_eq_false_2; [done|]. naive_solver.
Qed.

(** The first entry of a table with a property. *)
Definition first_such {A} (P : A → Prop) `{∀ x, Decision (P x)} (l : list A) : option A :=
  snd <$> list_find P l.

Lemma first_such_cons {A} (P : A → Prop) `{∀ x, Decision (P x)} x l :
  first_such P (x :: l) = if decide (P x) then Some x else first_such P l.
Proof.
  unfold first_such. simpl. case_decide; [done|]. destruct (list_find P l) as [[i y]|]; done.
Qed.

Lemma first_such_spec {A} (P : A → Prop) `{∀ x, Decision (P x)} l :
  match first_such P l with
  | Some x => P x ∧ ∃ l1 l2, l = l1 ++ x :: l2 ∧ Forall (λ y, ¬ P y) l1
  | None => Forall (λ y, ¬ P y) l
  end.
Proof.
  induction l as [|y l IH]; [by constructor|]. rewrite first_such_cons. case_decide as Hy.
  - split; [done|]. by exists [], l.
  - destruct (first_such P l) as [x|]; [|by constructor].
    destruct IH as (Hx & l1 & l2 & -> & Hl1). split; [done|]. exists (y :: l1), l2. by split; [|constructor].
Qed.

(** In a table in order the first such entry is the least one. *)
Lemma first_such_least {A} (key : A → list Z) (P : A → Prop) `{∀ x, Decision (P x)} l x :
  key_sorted key l → first_such P l = Some x → P x ∧ x ∈ l ∧ ∀ y, y ∈ l → P y → key_le key x y.
Proof.
  intros Ho Hf. pose proof (first_such_spec P l) as HS. rewrite Hf in HS.
  destruct HS as (Hx & l1 & l2 & -> & Hn). split_and!; [done|set_solver|].
  intros y [Hy|[->|Hy]%elem_of_cons]%elem_of_app Py.
  - rewrite Forall_forall in Hn. by destruct (Hn y Hy).
  - unfold key_le. by rewrite oid_cmp_refl.
  - unfold key_sorted in Ho. induction l1 as [|z l1 IH]; simpl in Ho.
    + inversion Ho as [|? ? _ Hz]. rewrite Forall_forall in Hz. by apply Hz.
    + inversion Ho; inversion Hn; subst. rewrite <- app_comm_cons, first_such_cons in Hf.
      destruct (decide (P z)); [done|]. by apply IH.
Qed.

Lemma access_get_spec l group context model level :
  Forall access_ok l → zlen group < VACM_MAX_STRING → zlen context < VACM_MAX_STRING →
  vacm_getAccessEntry l group context model level
  = Ok (first_such (λ ap, admits ap group context model level) l).
Proof.
  intros Hall Hg Hc. unfold vacm_getAccessEntry.
  destruct (name_len_short _ Hg) as [-> ->], (name_len_short _ Hc) as [-> ->].
  induction Hall as [|ap l Ha Hall IH]; [done|]. rewrite first_such_cons. cbn [access_loop].
  destruct (name_cmp_swap _ _ (proj1 Ha) Hg) as (c & -> & Ec). unfold and_then. m_step. rewrite Ec.
  rewrite (context_matches_spec _ _ Ha Hc). unfold admits at 2.
  destruct (Z.leb_spec (a_securityLevel ap) level).
  2: { rewrite andb_false_r, decide_False by lia. done. }
  destruct (Z.eqb_spec model (a_securityModel ap)), (Z.eqb_spec (a_securityModel ap) SNMP_SEC_MODEL_ANY);
    m_step; try (case_bool_decide; [case_bool_decide|]; m_step;
      first [rewrite decide_True by naive_solver | rewrite decide_False by naive_solver]; done).
  rewrite decide_False by naive_solver. done.
Qed.

Lemma arcs_le_length a b x y :
  oid_cmp (arcs_of a ++ x) (arcs_of b ++ y) ≤ 0 →
  zlen a < zlen b ∨ zlen a = zlen b ∧ (a = b → oid_cmp x y ≤ 0).
Proof.
  intros H. destruct (decide (a = b)) as [->|Hne].
  - right. split; [done|]. intros _. by rewrite oid_cmp_arcs, oid_cmp_refl in H.
  - unfold arcs_of in H. simpl in H. destruct (Z.eqb_spec (zlen a) (zlen b)) as [E|]; [by right|].
    destruct (Z.ltb_spec (zlen a) (zlen b)); [by left|lia].
Qed.

(** The order in which the lookup tries the entries of one group: a shorter context
    prefix first, then a smaller security model (any is the smallest), then a lower
    security level. *)
Definition tried_before (ap ap' : vacm_accessEntry) : Prop :=
  let c := zlen (array_text (a_contextPrefix ap)) in
  let c' := zlen (array_text (a_contextPrefix ap')) in
  c < c' ∨ c = c' ∧ (a_securityModel ap < a_securityModel ap' ∨
    a_securityModel ap = a_securityModel ap' ∧ a_securityLevel ap ≤ a_securityLevel ap').

(** Which access right vacm_getAccessEntry uses: in a table in order it finds no entry
    exactly when none admits the group with the context, security model and level of the
    request; otherwise it gives an entry that does, and among those that do the one with
    the shortest context prefix, then the smallest security model, so one for any model
    is taken before one for the model of the request, then the lowest security level.
    The MIB prescribes the opposite on each count. *)
Theorem vacm_access_least l group context model level :
  Forall access_ok l → key_sorted access_key l →
  zlen group < VACM_MAX_STRING → zlen context < VACM_MAX_STRING →
  ∃ r, vacm_getAccessEntry l group context model level = Ok r ∧
  match r with
  | None => ∀ ap, ap ∈ l → ¬ admits ap group context model level
  | Some ap => ap ∈ l ∧ admits ap group context model level ∧
      ∀ ap', ap' ∈ l → admits ap' group context model level → tried_before ap ap'
  end.
Proof.
  intros Hall Ho Hg Hc. eexists. split; [by apply access_get_spec|].
  destruct (first_such _ l) as [ap|] eqn:Ef.
  2: { intros ap Hap. pose proof (first_such_spec (λ ap, admits ap group context model level) l) as HS.
       rewrite Ef, Forall_forall in HS. by apply HS. }
  destruct (first_such_least access_key _ _ _ Ho Ef) as (Hap & Hin & Hle). split_and!; [done..|].
  intros ap' Hin' Hap'. specialize (Hle ap' Hin' Hap'). unfold key_le, access_key in Hle.
  destruct Hap as (Eg & _ & _ & Hx), Hap' as (Eg' & _ & _ & Hx').
  rewrite Eg, Eg', oid_cmp_arcs, oid_cmp_refl in Hle. cbn [Z.eqb] in Hle.
  apply arcs_le_length in Hle as [Hlt|[El Hle]]; [by left|right]. split; [done|].
  assert (array_text (a_contextPrefix ap) = array_text (a_contextPrefix ap')) as Et.
  { assert (∀ t, t = context ∨ t `prefix_of` context → t = take (length t) context) as Ht.
    { intros t [->|[k ->]]; [by rewrite firstn_all|by rewrite take_app_length]. }
    rewrite (Ht (array_text (a_contextPrefix ap))), (Ht (array_text (a_contextPrefix ap'))) by tauto.
    f_equal. unfold zlen in El. lia. }
  specialize (Hle Et). cbn [oid_cmp] in Hle.
  destruct (Z.eqb_spec (a_securityModel ap) (a_securityModel ap')) as [Em|].
  - right. split; [done|]. destruct (Z.eqb_spec (a_securityLevel ap) (a_securityLevel ap')); [lia|].
    destruct (Z.ltb_spec (a_securityLevel ap) (a_securityLevel ap')); lia.
  - left. destruct (Z.ltb_spec (a_securityModel ap) (a_securityModel ap')); lia.
Qed.

Lemma vacm_access_least_witness :
  ∃ r, vacm_getAccessEntry sample_accesses [111; 112; 115] [120] 3 3 = Ok r ∧
  match r with
  | None => ∀ ap, ap ∈ sample_accesses → ¬ admits ap [111; 112; 115] [120] 3 3
  | Some ap => ap ∈ sample_accesses ∧ admits ap [111; 112; 115] [120] 3 3 ∧
      ∀ ap', ap' ∈ sample_accesses → admits ap' [111; 112; 115] [120] 3 3 → tried_before ap ap'
  end.
Proof.
  apply (vacm_access_least sample_accesses [111; 112; 115] [120] 3 3); try (by apply in_order_check);
    apply (bool_decide_unpack _); by vm_compute.
Defined.

(** The entry for any model and noAuthNoPriv is used, not the one for the user-based
    model and authNoPriv. *)
Example sample_access_used :
  vacm_getAccessEntry sample_accesses [111; 112; 115] [120] 3 3 = Ok (sample_accesses !! 0%nat) ∧
  Forall (λ ap, admits ap [111; 112; 115] [120] 3 3) sample_accesses.
Proof. split; [by vm_compute|]. apply (bool_decide_unpack _). by vm_compute. Qed.

(** ** Looking up a group *)

Lemma group_get_spec l model name :
  Forall group_ok l → zlen name < VACM_MAX_STRING →
  vacm_getGroupEntry l model name
  = Ok (first_such (λ gp, (g_securityModel gp = model ∨ g_securityModel gp = SNMP_SEC_MODEL_ANY) ∧
      array_text (g_securityName gp) = name) l).
Proof.
  intros Hall Hn. unfold vacm_getGroupEntry. destruct (name_len_short _ Hn) as [-> ->].
  induction Hall as [|gp l Hg Hall IH]; [done|]. rewrite first_such_cons. cbn [group_loop].
  destruct (name_cmp_swap _ _ (proj1 Hg) Hn) as (c & -> & Ec). m_step. rewrite Ec.
  destruct (Z.eqb_spec model (g_securityModel gp)), (Z.eqb_spec (g_securityModel gp) SNMP_SEC_MODEL_ANY);
    m_step; case_bool_decide;
      first [rewrite decide_True by naive_solver | rewrite decide_False by naive_solver]; done.
Qed.
