(* ===== verification/VacmCheck.v ===== *)
(** * The access decision of the agent

    agent/mibgroup/mibII/vacm_conf.c decides whether a request may touch an object:
    vacm_in_view and vacm_check_view_contents, over the tables of snmplib/vacm.c, the
    security models of snmplib/snmp_secmod.c, the contexts of agent/agent_registry.c and
    the mapping from communities to security names of snmplib/snmpUDPDomain.c.  The
    mappings of the IPv6 and Unix transports are fields of [agent].

    [rfc_decision] is the decision of RFC 3415, section 3.2, and of the descriptions in
    mibs/SNMP-VIEW-BASED-ACM-MIB.txt, written without the code: the code makes it on tables
    as the MIB has them where the order of preference among access rights does not matter.
    Where it does, or where rows are not active, the code differs ([inactive_rows_used],
    VacmTables.vacm_access_least).  An answer about a whole subtree is right for every object
    in it. *)

From S2P Require Import Prelude Ber Asn1 OidCompare Pdu Message Vacm VacmView VacmTables.
From stdpp Require Import prelude numbers list.
From Stdlib Require Import ZArith Lia.
Open Scope Z_scope.

Definition VACM_VIEW_READ : Z := 0.
Definition VACM_VIEW_WRITE : Z := 1.
Definition VACM_VIEW_NOTIFY : Z := 2.
Definition VACM_CHECK_VIEW_CONTENTS_NO_FLAGS : Z := 0.
Definition VACM_CHECK_VIEW_CONTENTS_DNE_CONTEXT_OK : Z := 1.
Definition CONTEXTNAMEINDEXLEN : Z := 32.
Definition STAT_SNMPINBADCOMMUNITYNAMES : Z := 12.
Definition STAT_SNMPINBADCOMMUNITYUSES : Z := 13.
Definition AF_INET : Z := 2.
Definition SIZEOF_UDP_ADDR_PAIR : Z := 20.

(** ** The state of the agent *)

Inductive tdomain := UdpDomain | TcpDomain | Udp6Domain | Tcp6Domain | UnixDomain | OtherDomain.

(** What [transport_data] holds for UDP and TCP over IPv4. *)
Record udp_source := UdpSource {
  us_olength : Z;
  us_family : Z;
  us_addr : Z;
}.

(** The fields of a [netsnmp_pdu] that access control uses.  A string is the list of its
    characters; [contextName] is the object its pointer leads to. *)
Record view_request := ViewRequest {
  rq_version : Z;
  rq_command : Z;
  rq_securityModel : Z;
  rq_securityLevel : Z;
  rq_securityName : option (list Z);
  rq_contextName : option (list Z);
  rq_contextNameLen : Z;
  rq_community : option (list Z);
  rq_community_len : Z;
  rq_tDomain : tdomain;
  rq_transport_data : option udp_source;
}.

Definition set_context (pdu : view_request) (name : option (list Z)) (len : Z) : view_request :=
  ViewRequest (rq_version pdu) (rq_command pdu) (rq_securityModel pdu) (rq_securityLevel pdu)
    (rq_securityName pdu) name len (rq_community pdu) (rq_community_len pdu)
    (rq_tDomain pdu) (rq_transport_data pdu).

Record com2SecEntry := Com2SecEntry {
  c2_community : list Z;
  c2_network : Z;
  c2_mask : Z;
  c2_secName : list Z;
  c2_contextName : list Z;
}.

(** The results of a mapping: its return value, the security name and the context. *)
Notation mapping := (Z * option (list Z) * list Z)%type.

Record agent := Agent {
  ag_views : list vacm_viewEntry;
  ag_groups : list vacm_groupEntry;
  ag_accesses : list vacm_accessEntry;
  ag_com2sec : list com2SecEntry;
  ag_udp6_getSecName : view_request → list Z → M mapping;
  ag_unix_getSecName : view_request → list Z → M mapping;
  ag_secmods : list (Z * option nat);
  ag_contexts : list (option (list Z) * option nat);
  ag_strdup_ok : bool;
}.

(** ** Helpers in other files *)

(** [find_sec_mod] *)
Fixpoint find_sec_mod (services : list (Z * option nat)) (secmod : Z) : option nat :=
  match services with
  | [] => None
  | (model, def) :: services => if model =? secmod then def else find_sec_mod services secmod
  end.

(** [netsnmp_subtree_find_first] *)
Fixpoint netsnmp_subtree_find_first (contexts : list (option (list Z) * option nat))
    (context_name : list Z) : option nat :=
  match contexts with
  | [] => None
  | (name, first_subtree) :: contexts =>
      if match name with Some n => bool_decide (n = context_name) | None => false end
      then first_subtree else netsnmp_subtree_find_first contexts context_name
  end.

(** The loop over the com2sec entries: the first that fits. *)
Fixpoint com2sec_loop (cs : list com2SecEntry) (addr : Z) (community : list Z) (community_len : Z)
    : M (option com2SecEntry) :=
  match cs with
  | [] => Ok None
  | c :: cs =>
      same ← (if community_len =? zlen (c2_community c) then
                d ← memcmp_at community 0 (c2_community c ++ [0]) 0 (Z.to_nat community_len); Ok (d =? 0)
              else Ok false);
      if (same : bool) && (Z.land addr (c2_mask c) =? c2_network c) then Ok (Some c)
      else com2sec_loop cs addr community community_len
  end.

(** [contextName] is what the caller's variable points to beforehand. *)
Definition netsnmp_udp_getSecName (com2SecList : list com2SecEntry) (opaque : option udp_source)
    (community : list Z) (community_len : Z) (contextName : list Z) : M mapping :=
  match com2SecList with
  | [] => Ok (0, None, contextName)
  | _ :: _ =>
      match opaque with
      | None => Ok (1, None, contextName)
      | Some s =>
          if negb (us_olength s =? SIZEOF_UDP_ADDR_PAIR) || negb (us_family s =? AF_INET)
          then Ok (1, None, contextName)
          else
            r ← com2sec_loop com2SecList (us_addr s) community community_len;
            match r with
            | Some c => Ok (1, Some (c2_secName c), c2_contextName c)
            | None => Ok (1, None, contextName)
            end
      end
  end.

(** The text of a character array; a missing NUL is undefined behaviour. *)
Fixpoint array_string (arr : list Z) : M (list Z) :=
  match arr with
  | [] => UB
  | c :: arr => if c =? 0 then Ok [] else s ← array_string arr; Ok (c :: s)
  end.

(** [strncpy(dst, src, n); dst[n] = 0]: the text then in [dst]. *)
Fixpoint strncpy_text (src : list Z) (n : nat) {struct n} : M (list Z) :=
  match n with
  | O => Ok []
  | S n =>
      match src with
      | [] => UB
      | c :: src => if c =? 0 then Ok [] else s ← strncpy_text src n; Ok (c :: s)
      end
  end.

(** ** vacm_check_view_contents *)

Definition community_based (pdu : view_request) : bool :=
  (rq_version pdu =? SNMP_VERSION_1) || (rq_version pdu =? SNMP_VERSION_2c).

(** The security name is discarded when there were no entries, and the context of the
    community replaces the one of the PDU; strdup may fail. *)
Definition force_context (ag : agent) (pdu : view_request) (r : mapping) : option (list Z) * view_request :=
  let '(ret, sn, contextName) := r in
  (if ret =? 0 then None else sn,
   set_context pdu (if ag_strdup_ok ag then Some (contextName ++ [0]) else None) (zlen contextName)).

(** The security name, and the PDU with its context. *)
Definition security_name (ag : agent) (pdu : view_request) : M (option (list Z) * view_request) :=
  if community_based pdu then
    let pdu_community := default [0] (rq_community pdu) in
    match rq_tDomain pdu with
    | UdpDomain | TcpDomain =>
        r ← netsnmp_udp_getSecName (ag_com2sec ag) (rq_transport_data pdu) pdu_community
              (rq_community_len pdu) [];
        Ok (force_context ag pdu r)
    | Udp6Domain | Tcp6Domain =>
        r ← ag_udp6_getSecName ag pdu pdu_community; Ok (force_context ag pdu r)
    | UnixDomain =>
        r ← ag_unix_getSecName ag pdu pdu_community; Ok (force_context ag pdu r)
    | OtherDomain => Ok (None, pdu)
    end
  else
    match find_sec_mod (ag_secmods ag) (rq_securityModel pdu) with
    | Some _ => Ok (rq_securityName pdu, pdu)
    | None => Ok (None, pdu)
    end.

(** The text in [contextNameIndex]. *)
Definition context_index (pdu : view_request) : M (list Z) :=
  match rq_contextName pdu with
  | Some name => strncpy_text name (Z.to_nat (rq_contextNameLen pdu))
  | None => Ok []
  end.

(** From the view of an access right on; the second result is the statistic that is
    incremented, if any. *)
Definition check_entry (ag : agent) (pdu : view_request) (ap : vacm_accessEntry)
    (name : option (list Z * Z)) (check_subtree : bool) (viewtype : Z) : M (Z * list Z) :=
  match name with
  | None => Ok (VACM_SUCCESS, [])
  | Some (name, namelen) =>
      if (viewtype <? 0) || (VACM_MAX_VIEWS <=? viewtype) then Ok (VACM_NOACCESS, [])
      else
        match a_views ap !! Z.to_nat viewtype with
        | None => UB
        | Some view =>
            vn ← array_string view;
            if check_subtree then
              r ← netsnmp_view_subtree_check (ag_views ag) vn name namelen; Ok (r, [])
            else
              vp ← netsnmp_view_get (ag_views ag) vn name namelen VACM_MODE_FIND;
              match vp with
              | None => Ok (VACM_NOVIEW, [])
              | Some vp =>
                  if viewType vp =? SNMP_VIEW_EXCLUDED then
                    Ok (VACM_NOTINVIEW, if community_based pdu then [STAT_SNMPINBADCOMMUNITYUSES] else [])
                  else Ok (VACM_SUCCESS, [])
              end
        end
  end.

(** The code, the statistics to increment, and the PDU as it is left. *)
Definition vacm_check_view_contents (ag : agent) (pdu : view_request) (name : option (list Z * Z))
    (check_subtree : bool) (viewtype flags : Z) : M (Z * list Z * view_request) :=
  '(sn, pdu) ← security_name ag pdu;
  match sn with
  | None => Ok (VACM_NOSECNAME, [STAT_SNMPINBADCOMMUNITYNAMES], pdu)
  | Some sn =>
      if CONTEXTNAMEINDEXLEN <? rq_contextNameLen pdu then Ok (VACM_NOSUCHCONTEXT, [], pdu)
      else
        context ← context_index pdu;
        if (Z.land flags VACM_CHECK_VIEW_CONTENTS_DNE_CONTEXT_OK =? 0)
           && match netsnmp_subtree_find_first (ag_contexts ag) context with None => true | Some _ => false end
        then Ok (VACM_NOSUCHCONTEXT, [], pdu)
        else
          gp ← vacm_getGroupEntry (ag_groups ag) (rq_securityModel pdu) sn;
          match gp with
          | None => Ok (VACM_NOGROUP, [], pdu)
          | Some gp =>
              groupName ← array_string (g_groupName gp);
              ap ← vacm_getAccessEntry (ag_accesses ag) groupName context
                     (rq_securityModel pdu) (rq_securityLevel pdu);
              match ap with
              | None => Ok (VACM_NOACCESS, [], pdu)
              | Some ap =>
                  '(code, stats) ← check_entry ag pdu ap name check_subtree viewtype;
                  Ok (code, stats, pdu)
              end
          end
  end.

Definition vacm_check_view (ag : agent) (pdu : view_request) (name : option (list Z * Z))
    (check_subtree : bool) (viewtype : Z) : M (Z * list Z * view_request) :=
  vacm_check_view_contents ag pdu name check_subtree viewtype VACM_CHECK_VIEW_CONTENTS_NO_FLAGS.

(** The kind of view for the type of the PDU. *)
Definition view_for (command : Z) : Z :=
  if (command =? SNMP_MSG_GET) || (command =? SNMP_MSG_GETNEXT) || (command =? SNMP_MSG_GETBULK)
  then VACM_VIEW_READ
  else if command =? SNMP_MSG_SET then VACM_VIEW_WRITE
  else if (command =? SNMP_MSG_TRAP) || (command =? SNMP_MSG_TRAP2) || (command =? SNMP_MSG_INFORM)
  then VACM_VIEW_NOTIFY
  else VACM_VIEW_READ.

Definition vacm_in_view (ag : agent) (pdu : view_request) (name : option (list Z * Z))
    (check_subtree : bool) : M (Z * list Z * view_request) :=
  vacm_check_view ag pdu name check_subtree (view_for (rq_command pdu)).

(** ** What the tables give, in their order *)

Definition text_of (arr : list Z) : list Z :=
  match array_string arr with Ok s => s | _ => [] end.

Definition in_group (gp : vacm_groupEntry) (model : Z) (sn : list Z) : Prop :=
  (g_securityModel gp = model ∨ g_securityModel gp = SNMP_SEC_MODEL_ANY) ∧
  array_text (g_securityName gp) = sn.

#[global] Instance in_group_dec gp model sn : Decision (in_group gp model sn).
Proof. unfold in_group. apply _. Defined.

(** Context, group, access right, view: the first that is missing gives the code. *)
Definition table_decision (ag : agent) (known : bool) (model level : Z) (sn context o : list Z)
    (viewtype : Z) : Z :=
  if negb known then VACM_NOSUCHCONTEXT
  else
    match first_such (λ gp, in_group gp model sn) (ag_groups ag) with
    | None => VACM_NOGROUP
    | Some gp =>
        match first_such (λ ap, admits ap (text_of (g_groupName gp)) context model level)
                (ag_accesses ag) with
        | None => VACM_NOACCESS
        | Some ap =>
            match a_views ap !! Z.to_nat viewtype with
            | None => VACM_NOACCESS
            | Some view =>
                match choose (text_of view) o (family_of <$> ag_views ag) with
                | None => VACM_NOVIEW
                | Some f => if f_type f =? SNMP_VIEW_EXCLUDED then VACM_NOTINVIEW else VACM_SUCCESS
                end
            end
        end
    end.

(** ** The decision, as RFC 3415 and the MIB have it *)

Inductive access_outcome :=
| noSuchContext
| noGroupName
| noAccessEntry
| noSuchView
| notInView (f : option family)
| accessAllowed.

Definition row_active (status : Z) : Prop := status = 1.

(** Step 1 of vacmAccessTable: the set of possible matches. *)
Definition possible_match (group context : list Z) (model level : Z) (ap : vacm_accessEntry) : Prop :=
  row_active (a_status ap) ∧ array_text (a_groupName ap) = group ∧
  (array_text (a_contextPrefix ap) = context ∨
   a_contextMatch ap = CONTEXT_MATCH_PREFIX ∧ array_text (a_contextPrefix ap) `prefix_of` context) ∧
  (a_securityModel ap = model ∨ a_securityModel ap = SNMP_SEC_MODEL_ANY) ∧
  a_securityLevel ap ≤ level.

#[global] Instance possible_match_dec group context model level ap :
  Decision (possible_match group context model level ap).
Proof. unfold possible_match, row_active. apply _. Defined.

(** The subset with [P], if it is not empty. *)
Definition prefer {A} (P : A → Prop) `{∀ x, Decision (P x)} (l : list A) : list A :=
  match filter P l with [] => l | l' => l' end.

(** Step 2: the model of the message before any other, the context itself before a
    prefix, the longest prefix, the highest level. *)
Definition select_access (context : list Z) (model : Z) (l : list vacm_accessEntry) : option vacm_accessEntry :=
  let prefix ap := array_text (a_contextPrefix ap) in
  let l := prefer (λ ap, a_securityModel ap = model) l in
  let l := prefer (λ ap, prefix ap = context) l in
  let l := prefer (λ ap, Forall (λ ap', zlen (prefix ap') ≤ zlen (prefix ap)) l) l in
  head (prefer (λ ap, Forall (λ ap', a_securityLevel ap' ≤ a_securityLevel ap) l) l).

Definition active_families (ag : agent) : list family :=
  family_of <$> filter (λ vp, row_active (viewStatus vp)) (ag_views ag).

(** The name of the view of a right for a kind of request. *)
Definition view_name (ap : vacm_accessEntry) (viewtype : Z) : list Z :=
  text_of (default [0] (a_views ap !! Z.to_nat viewtype)).

(** Whether [o] is in the view: [notInView] has the family that excludes it, or none when no
    family of the view holds it. *)
Definition view_outcome (fs : list family) (vn o : list Z) : access_outcome :=
  if decide (vn = []) then noSuchView
  else if decide (filter (λ f, f_name f = vn) fs = []) then noSuchView
  else
    match choose vn o fs with
    | None => notInView None
    | Some f => if f_type f =? SNMP_VIEW_EXCLUDED then notInView (Some f) else accessAllowed
    end.

Definition rfc_decision (ag : agent) (known : bool) (model level : Z) (sn context o : list Z)
    (viewtype : Z) : access_outcome :=
  if negb known then noSuchContext
  else
    match head (filter (λ gp, row_active (g_status gp) ∧ g_securityModel gp = model ∧
                               array_text (g_securityName gp) = sn) (ag_groups ag)) with
    | None => noGroupName
    | Some gp =>
        match select_access context model
                (filter (possible_match (text_of (g_groupName gp)) context model level) (ag_accesses ag)) with
        | None => noAccessEntry
        | Some ap => view_outcome (active_families ag) (view_name ap viewtype) o
        end
    end.

(** The code of each outcome.  An object that no family of an existing view holds is
    not in the view for the RFC; the code reports it as it does a missing view. *)
Definition outcome_code (r : access_outcome) : Z :=
  match r with
  | noSuchContext => VACM_NOSUCHCONTEXT
  | noGroupName => VACM_NOGROUP
  | noAccessEntry => VACM_NOACCESS
  | noSuchView | notInView None => VACM_NOVIEW
  | notInView (Some _) => VACM_NOTINVIEW
  | accessAllowed => VACM_SUCCESS
  end.

(** The tables have what the MIB allows them to have, and all rows are active. *)
Record mib_tables (ag : agent) : Prop := {
  mt_groups : Forall (λ gp, row_active (g_status gp) ∧ g_securityModel gp ≠ SNMP_SEC_MODEL_ANY) (ag_groups ag);
  mt_accesses : Forall (λ ap, row_active (a_status ap) ∧
    (a_contextMatch ap = CONTEXT_MATCH_EXACT ∨ a_contextMatch ap = CONTEXT_MATCH_PREFIX)) (ag_accesses ag);
  mt_views : Forall (λ vp, row_active (viewStatus vp) ∧ array_text (viewName vp) ≠ []) (ag_views ag);
}.

(** All rights that a request could use name the same view, as when there is only one, so
    that the order of preference does not matter. *)
Definition same_view (ag : agent) (context : list Z) (model level viewtype : Z) : Prop :=
  ∀ group ap ap', ap ∈ ag_accesses ag → ap' ∈ ag_accesses ag →
    possible_match group context model level ap → possible_match group context model level ap' →
    view_name ap viewtype = view_name ap' viewtype.

(** The tables are well formed and every character array has a NUL. *)
Record agent_ok (ag : agent) : Prop := {
  ok_views : Forall view_ok (ag_views ag);
  ok_groups : Forall group_ok (ag_groups ag);
  ok_group_names : Forall (λ gp, 0 ∈ g_groupName gp) (ag_groups ag);
  ok_accesses : Forall access_ok (ag_accesses ag);
  ok_view_names : Forall (λ ap, Forall (λ v, 0 ∈ v) (a_views ap)) (ag_accesses ag);
}.

Lemma array_string_text arr :
  0 ∈ arr → array_string arr = Ok (text_of arr) ∧ (length (text_of arr) < length arr)%nat.
Proof.
  intros H. assert (∃ s, array_string arr = Ok s ∧ (length s < length arr)%nat) as (s & Hs & Hl).
  { induction arr as [|c arr IH]; [by apply elem_of_nil in H|]. cbn [array_string].
    destruct (Z.eqb_spec c 0); [eexists; split; [done|simpl; lia]|].
    destruct IH as (s & -> & Hs); [set_solver|]. m_step. eexists. split; [done|]. simpl. lia. }
  unfold text_of. by rewrite Hs.
Qed.

(** A name that is too long for the tables is in none of them. *)
Lemma too_long_spec s : zlen s < 2 ^ 31 → too_long s = negb (bool_decide (zlen s < VACM_MAX_STRING)).
Proof.
  intros H. pose proof (zlen_nonneg s). unfold too_long. rewrite s32_id by lia.
  destruct (Z.ltb_spec (zlen s) 0), (Z.leb_spec VACM_MAX_STRING (zlen s)); try lia;
    case_bool_decide; simpl; done || lia.
Qed.

Lemma first_such_none {A} (P : A → Prop) `{∀ x, Decision (P x)} l :
  Forall (λ x, ¬ P x) l → first_such P l = None.
Proof.
  induction 1 as [|x l Hx Hl IH]; [done|]. rewrite first_such_cons. by rewrite decide_False.
Qed.

Lemma group_found ag model sn :
  agent_ok ag → zlen sn < 2 ^ 31 →
  vacm_getGroupEntry (ag_groups ag) model sn
  = Ok (first_such (λ gp, in_group gp model sn) (ag_groups ag)).
Proof.
  intros [_ Hg _ _ _] Hs. destruct (decide (zlen sn < VACM_MAX_STRING)) as [Hn|Hn].
  - unfold in_group. by apply group_get_spec.
  - unfold vacm_getGroupEntry. rewrite too_long_spec, bool_decide_eq_false_2 by done. simpl.
    rewrite first_such_none; [done|]. eapply Forall_impl; [exact Hg|].
    intros gp [Ha _] [_ <-]. by apply Hn, array_text_short.
Qed.

Lemma access_found ag group context model level :
  agent_ok ag → zlen group < 2 ^ 31 → zlen context < VACM_MAX_STRING →
  vacm_getAccessEntry (ag_accesses ag) group context model level
  = Ok (first_such (λ ap, admits ap group context model level) (ag_accesses ag)).
Proof.
  intros [_ _ _ Ha _] Hs Hc. destruct (decide (zlen group < VACM_MAX_STRING)) as [Hn|Hn].
  - by apply access_get_spec.
  - unfold vacm_getAccessEntry. rewrite too_long_spec, bool_decide_eq_false_2 by done. simpl.
    rewrite first_such_none; [done|]. eapply Forall_impl; [exact Ha|].
    intros ap (Hok & _) (<- & _). by apply Hn, array_text_short.
Qed.

Lemma view_found ag vn obj len o :
  agent_ok ag → zlen vn < 2 ^ 31 → stored obj len o →
  ∃ vp, netsnmp_view_get (ag_views ag) vn obj len VACM_MODE_FIND = Ok vp ∧
    family_of <$> vp = choose vn o (family_of <$> ag_views ag).
Proof.
  intros [Hv _ _ _ _] Hs Ho. destruct (decide (zlen vn < VACM_MAX_STRING)) as [Hn|Hn].
  - destruct (view_get_spec (ag_views ag) vn obj len o Hv Hn Ho) as (vp & ? & ? & _). eauto.
  - unfold netsnmp_view_get. rewrite too_long_spec, bool_decide_eq_false_2 by done. simpl.
    exists None. split; [done|].
    pose proof (choose_from vn o None (family_of <$> ag_views ag)) as HC.
    fold (choose vn o (family_of <$> ag_views ag)) in HC.
    destruct (choose vn o _) as [g|]; [|done]. destruct HC as ([|[Hg Hc]] & _); [done|].
    apply list_elem_of_fmap in Hg as (vp & -> & Hin). rewrite Forall_forall in Hv.
    destruct Hc as [<- _]. destruct Hn. by apply array_text_short, Hv.
Qed.

(** The text copied from the context name is no longer than the name. *)
Lemma strncpy_length src n s : strncpy_text src n = Ok s → (length s ≤ n)%nat.
Proof.
  revert src s. induction n as [|n IH]; intros src s; cbn [strncpy_text]; [by intros [= <-]|].
  destruct src as [|c src]; [done|]. destruct (c =? 0); [intros [= <-]; simpl; lia|].
  destruct (strncpy_text src n) as [s'| |] eqn:E; m_step; [|done..]. intros [= <-].
  apply IH in E. simpl. lia.
Qed.

(** Whether the context is to be accepted. *)
Definition context_known (ag : agent) (context : list Z) (flags : Z) : bool :=
  negb (Z.land flags VACM_CHECK_VIEW_CONTENTS_DNE_CONTEXT_OK =? 0)
  || match netsnmp_subtree_find_first (ag_contexts ag) context with None => false | Some _ => true end.

(** Everything before the view is looked at. *)
Lemma check_until_view ag pdu pdu' sn context name sub viewtype flags :
  agent_ok ag →
  security_name ag pdu = Ok (Some sn, pdu') → zlen sn < 2 ^ 31 →
  0 ≤ rq_contextNameLen pdu' < VACM_MAX_STRING → context_index pdu' = Ok context →
  vacm_check_view_contents ag pdu name sub viewtype flags
  = if negb (context_known ag context flags) then Ok (VACM_NOSUCHCONTEXT, [], pdu')
    else
      match first_such (λ gp, in_group gp (rq_securityModel pdu') sn) (ag_groups ag) with
      | None => Ok (VACM_NOGROUP, [], pdu')
      | Some gp =>
          match first_such (λ ap, admits ap (text_of (g_groupName gp)) context
                  (rq_securityModel pdu') (rq_securityLevel pdu')) (ag_accesses ag) with
          | None => Ok (VACM_NOACCESS, [], pdu')
          | Some ap =>
              '(code, stats) ← check_entry ag pdu' ap name sub viewtype; Ok (code, stats, pdu')
          end
      end.
Proof.
  intros Hok Hsn Hsl Hcl Hcx. unfold vacm_check_view_contents. rewrite Hsn. m_step.
  unfold CONTEXTNAMEINDEXLEN, VACM_MAX_STRING in *.
  destruct (Z.ltb_spec 32 (rq_contextNameLen pdu')); [lia|]. rewrite Hcx. m_step.
  assert (zlen context < VACM_MAX_STRING) as Hc.
  { unfold context_index in Hcx. unfold zlen, VACM_MAX_STRING.
    destruct (rq_contextName pdu') as [nm|]; [|by injection Hcx as <-].
    apply strncpy_length in Hcx. lia. }
  unfold context_known. rewrite negb_orb, negb_involutive.
  replace (negb _) with (match netsnmp_subtree_find_first (ag_contexts ag) context with
    None => true | Some _ => false end) by (by destruct (netsnmp_subtree_find_first _ _)).
  destruct (_ && _); [done|]. rewrite (group_found ag) by done. m_step.
  pose proof (first_such_spec (λ gp, in_group gp (rq_securityModel pdu') sn) (ag_groups ag)) as HG.
  destruct (first_such (λ gp, in_group gp (rq_securityModel pdu') sn) _) as [gp|]; [|done].
  assert (gp ∈ ag_groups ag) as Hin by (destruct HG as (_ & l1 & l2 & -> & _); set_solver).
  pose proof (ok_groups _ Hok) as Hg. pose proof (ok_group_names _ Hok) as Hgn.
  rewrite Forall_forall in Hg, Hgn.
  destruct (array_string_text _ (Hgn _ Hin)) as [-> Hgl]. m_step.
  rewrite (access_found ag); [done|done| |done]. destruct (Hg _ Hin) as [_ Hl].
  rewrite Hl in Hgl. unfold zlen, VACMSTRINGLEN in *. lia.
Qed.

Lemma view_for_range command : 0 ≤ view_for command < VACM_MAX_VIEWS.
Proof.
  unfold view_for, VACM_VIEW_READ, VACM_VIEW_WRITE, VACM_VIEW_NOTIFY, VACM_MAX_VIEWS.
  repeat case_match; lia.
Qed.

Lemma view_name_of ag ap viewtype :
  agent_ok ag → ap ∈ ag_accesses ag → 0 ≤ viewtype < VACM_MAX_VIEWS →
  ∃ view, a_views ap !! Z.to_nat viewtype = Some view ∧
    array_string view = Ok (text_of view) ∧ zlen (text_of view) < 2 ^ 31.
Proof.
  intros Hok Hin Hv. pose proof (ok_accesses _ Hok) as Ha. pose proof (ok_view_names _ Hok) as Hn.
  rewrite Forall_forall in Ha, Hn. destruct (Ha _ Hin) as (_ & _ & Hl & Hlen).
  destruct (lookup_lt_is_Some_2 (a_views ap) (Z.to_nat viewtype)) as [view Hview].
  { rewrite Hl. unfold VACM_MAX_VIEWS in *. lia. }
  exists view. specialize (Hn _ Hin). rewrite Forall_forall in Hn, Hlen.
  pose proof (list_elem_of_lookup_2 _ _ _ Hview) as Hel.
  destruct (array_string_text view (Hn _ Hel)) as [-> Ht]. split_and!; [done..|].
  rewrite (Hlen _ Hel) in Ht. unfold zlen, VACMSTRINGLEN in *. lia.
Qed.

Lemma first_such_elem {A} (P : A → Prop) `{∀ x, Decision (P x)} l x :
  first_such P l = Some x → x ∈ l.
Proof.
  intros Hf. pose proof (first_such_spec P l) as HS. rewrite Hf in HS.
  destruct HS as (_ & l1 & l2 & -> & _). set_solver.
Qed.

(** What a request brings to the decision: a security name, and a context whose name has
    at most 31 characters. *)
Record presents (ag : agent) (pdu pdu' : view_request) (sn context : list Z) : Prop := {
  pr_name : security_name ag pdu = Ok (Some sn, pdu');
  pr_name_len : zlen sn < 2 ^ 31;
  pr_context_len : 0 ≤ rq_contextNameLen pdu' < VACM_MAX_STRING;
  pr_context : context_index pdu' = Ok context;
}.

(** The code follows the tables in their order, whatever they hold. *)
Lemma in_view_in_table_order ag pdu pdu' sn context obj len o :
  agent_ok ag → presents ag pdu pdu' sn context → stored obj len o →
  let code := table_decision ag (context_known ag context 0) (rq_securityModel pdu')
    (rq_securityLevel pdu') sn context o (view_for (rq_command pdu)) in
  vacm_in_view ag pdu (Some (obj, len)) false
  = Ok (code, if (code =? VACM_NOTINVIEW) && community_based pdu'
              then [STAT_SNMPINBADCOMMUNITYUSES] else [], pdu').
Proof.
  intros Hok [Hsn Hsl Hcl Hcx] Ho. cbv zeta. unfold vacm_in_view, vacm_check_view.
  rewrite (check_until_view ag pdu pdu' sn context) by done. unfold table_decision.
  change VACM_CHECK_VIEW_CONTENTS_NO_FLAGS with 0.
  destruct (context_known ag context 0); [|done]. cbn [negb].
  destruct (first_such (λ gp, in_group gp _ sn) _) as [gp|]; [|done].
  destruct (first_such (λ ap, admits ap _ context _ _) _) as [ap|] eqn:Ea; [|done].
  apply first_such_elem in Ea. pose proof (view_for_range (rq_command pdu)) as Hr.
  destruct (view_name_of ag ap _ Hok Ea Hr) as (view & Hview & Htext & Hlen).
  unfold check_entry. rewrite Hview.
  destruct (Z.ltb_spec (view_for (rq_command pdu)) 0); [lia|].
  destruct (Z.leb_spec VACM_MAX_VIEWS (view_for (rq_command pdu))); [lia|]. cbn [orb].
  rewrite Htext. m_step. destruct (view_found ag (text_of view) obj len o Hok Hlen Ho) as (vp & -> & <-).
  m_step. destruct vp as [vp|]; [|done]. cbn [fmap option_fmap option_map f_type family_of].
  by destruct (viewType vp =? SNMP_VIEW_EXCLUDED).
Qed.

Lemma head_filter {A} (P : A → Prop) `{∀ x, Decision (P x)} l : head (filter P l) = first_such P l.
Proof.
  induction l as [|x l IH]; [done|]. rewrite first_such_cons. case_decide as Hx.
  - by rewrite filter_cons_True.
  - by rewrite filter_cons_False.
Qed.

Lemma first_such_iff {A} (P Q : A → Prop) `{∀ x, Decision (P x)} `{∀ x, Decision (Q x)} l :
  Forall (λ x, P x ↔ Q x) l → first_such P l = first_such Q l.
Proof.
  induction 1 as [|x l Hx Hl IH]; [done|]. rewrite !first_such_cons, IH.
  destruct (decide (P x)), (decide (Q x)); tauto.
Qed.

Lemma prefer_elem {A} (P : A → Prop) `{∀ x, Decision (P x)} l : prefer P l ⊆ l.
Proof.
  unfold prefer. destruct (filter P l) as [|y l'] eqn:E; [done|]. rewrite <- E. intros x.
  by intros [_ ?]%list_elem_of_filter.
Qed.

Lemma prefer_nil {A} (P : A → Prop) `{∀ x, Decision (P x)} l : prefer P l = [] → l = [].
Proof. unfold prefer. by destruct (filter P l). Qed.

(** The right that is selected is one of the possible ones; there is none only if none is. *)
Lemma select_access_spec context model l :
  match select_access context model l with Some ap => ap ∈ l | None => l = [] end.
Proof.
  unfold select_access. cbv zeta. destruct (head _) as [ap|] eqn:E.
  - apply head_Some_elem_of in E. by do 4 apply prefer_elem in E.
  - apply head_None in E. by do 4 apply prefer_nil in E.
Qed.

Lemma choose_none vn o fs : Forall (λ f, f_name f ≠ vn) fs → choose vn o fs = None.
Proof.
  intros H. pose proof (choose_from vn o None fs) as HC. fold (choose vn o fs) in HC.
  destruct (choose vn o fs) as [f|]; [|done]. destruct HC as ([|[Hf [Hn _]]] & _); [done|].
  rewrite Forall_forall in H. by destruct (H f Hf).
Qed.

(** The outcome for a view, when no family has an empty name. *)
Lemma view_outcome_code fs vn o :
  Forall (λ f, f_name f ≠ []) fs →
  outcome_code (view_outcome fs vn o)
  = match choose vn o fs with
    | None => VACM_NOVIEW
    | Some f => if f_type f =? SNMP_VIEW_EXCLUDED then VACM_NOTINVIEW else VACM_SUCCESS
    end.
Proof.
  intros Hn. unfold view_outcome. case_decide as Hv; [subst vn; by rewrite choose_none|].
  case_decide as Hf.
  - rewrite choose_none; [done|]. apply Forall_forall. intros f Hin Heq.
    assert (f ∈ filter (λ f, f_name f = vn) fs) as HI by (by apply list_elem_of_filter).
    rewrite Hf in HI. by apply elem_of_nil in HI.
  - destruct (choose vn o fs) as [f|]; [|done]. by destruct (f_type f =? SNMP_VIEW_EXCLUDED).
Qed.

(** On such tables the first right in their order gives the same view as the preferred one. *)
Lemma decisions_agree ag known model level sn context o viewtype :
  agent_ok ag → mib_tables ag → same_view ag context model level viewtype →
  0 ≤ viewtype < VACM_MAX_VIEWS →
  table_decision ag known model level sn context o viewtype
  = outcome_code (rfc_decision ag known model level sn context o viewtype).
Proof.
  intros Hok [Hg Ha Hv] Hsame Hr. unfold table_decision, rfc_decision. destruct known; [|done]. cbn [negb].
  rewrite head_filter, (first_such_iff (λ gp, row_active (g_status gp) ∧ g_securityModel gp = model ∧
    array_text (g_securityName gp) = sn) (λ gp, in_group gp model sn)).
  2: { eapply Forall_impl; [exact Hg|]. unfold in_group. intros gp [Hs Hm]. cbn beta. naive_solver. }
  destruct (first_such _ (ag_groups ag)) as [gp|]; [|done].
  set (group := text_of (g_groupName gp)). pose proof (select_access_spec context model
    (filter (possible_match group context model level) (ag_accesses ag))) as Hsel.
  assert (∀ ap, ap ∈ ag_accesses ag → admits ap group context model level ↔
    possible_match group context model level ap) as Hadm.
  { intros ap Hin. rewrite Forall_forall in Ha. destruct (Ha ap Hin) as [Hst Hm].
    unfold admits, possible_match. split; [naive_solver|].
    intros (_ & ? & Hx & ? & ?). split_and!; [done..|]. destruct Hx as [Hx|Hx]; [|by right].
    destruct Hm as [Hm|Hm]; [by left|right]. by rewrite Hx. }
  pose proof (first_such_spec (λ ap, admits ap group context model level) (ag_accesses ag)) as HF.
  destruct (first_such (λ ap, admits ap group context model level) (ag_accesses ag)) as [ap|] eqn:Ef.
  2: { destruct (select_access context model _) as [ap|]; [|done]. apply list_elem_of_filter in Hsel as [Hp Hin].
       rewrite Forall_forall in HF. destruct (HF ap Hin). by apply Hadm. }
  apply first_such_elem in Ef as Hin. destruct HF as [Hp _]. apply Hadm in Hp; [|done].
  destruct (select_access context model _) as [ap'|].
  2: { assert (ap ∈ filter (possible_match group context model level) (ag_accesses ag)) as HI
         by (by apply list_elem_of_filter). rewrite Hsel in HI. by apply elem_of_nil in HI. }
  apply list_elem_of_filter in Hsel as [Hp' Hin']. rewrite <- (Hsame group ap ap') by done.
  destruct (view_name_of ag ap viewtype Hok Hin Hr) as (view & Hview & _). unfold view_name. rewrite Hview.
  cbn [default from_option id]. unfold active_families.
  rewrite filter_all by (eapply Forall_impl; [exact Hv|]; by intros vp [? _]).
  rewrite view_outcome_code; [done|]. rewrite Forall_fmap. eapply Forall_impl; [exact Hv|]. by intros vp [_ ?].
Qed.

(** C30: vacm_in_view makes the access decision of RFC 3415, section 3.2, and of the MIB, and
    returns its code: for a request that has a security name and a context name of at most
    31 characters, on tables that are well formed, whose rows are all active and as the MIB
    allows them, and where the rights the request could use name the same view.  The
    decision is which is missing first of the context, the group, the access right in the
    MIB's order of preference, and the view; and else whether the family that decides
    about the object is included.  The only statistic it counts then is that of bad
    community uses, when a community-based request meets an excluded family. *)
Theorem vacm_in_view_decides ag pdu pdu' sn context obj len o :
  agent_ok ag → mib_tables ag → presents ag pdu pdu' sn context → stored obj len o →
  same_view ag context (rq_securityModel pdu') (rq_securityLevel pdu') (view_for (rq_command pdu)) →
  let code := outcome_code (rfc_decision ag (context_known ag context 0) (rq_securityModel pdu')
    (rq_securityLevel pdu') sn context o (view_for (rq_command pdu))) in
  vacm_in_view ag pdu (Some (obj, len)) false
  = Ok (code, if (code =? VACM_NOTINVIEW) && community_based pdu'
              then [STAT_SNMPINBADCOMMUNITYUSES] else [], pdu').
Proof.
  intros Hok Hmib Hpr Ho Hsame. cbv zeta.
  rewrite <- decisions_agree by (done || apply view_for_range).
  by apply in_view_in_table_order.
Qed.

(** "joe" asks over SNMPv3 for an object. *)
Definition sample_agent : agent :=
  Agent sample_views sample_groups sample_accesses []
    (λ _ _, Ok (0, None, [])) (λ _ _, Ok (0, None, []))
    [(3, Some 1%nat)] [(Some [120], Some 2%nat)] true.

Definition sample_view_request : view_request :=
  ViewRequest 3 SNMP_MSG_GET 3 3 (Some [106; 111; 101]) (Some [120]) 1 None 0 UdpDomain None.

Lemma sample_agent_ok : agent_ok sample_agent.
Proof. split; apply (bool_decide_unpack _); by vm_compute. Qed.

Lemma sample_presents :
  presents sample_agent sample_view_request sample_view_request [106; 111; 101] [120].
Proof. by split. Qed.

Lemma vacm_in_view_decides_witness :
  let code := outcome_code (rfc_decision sample_agent (context_known sample_agent [120] 0) 3 3
    [106; 111; 101] [120] [1; 3; 6; 1; 5; 9; 2] (view_for SNMP_MSG_GET)) in
  vacm_in_view sample_agent sample_view_request (Some ([1; 3; 6; 1; 5; 9; 2], 7)) false
  = Ok (code, if (code =? VACM_NOTINVIEW) && community_based sample_view_request
              then [STAT_SNMPINBADCOMMUNITYUSES] else [], sample_view_request).
Proof.
  apply (vacm_in_view_decides sample_agent sample_view_request sample_view_request [106; 111; 101] [120]
           [1; 3; 6; 1; 5; 9; 2] 7 [1; 3; 6; 1; 5; 9; 2]).
  - exact sample_agent_ok.
  - split; apply (bool_decide_unpack _); by vm_compute.
  - exact sample_presents.
  - by apply (stored_full [1; 3; 6; 1; 5; 9; 2]).
  - intros group ap ap' Hin Hin' _ _. trans [97; 108; 108]; [|symmetry].
    + revert ap Hin. apply Forall_forall, (bool_decide_unpack _). by vm_compute.
    + revert ap' Hin'. apply Forall_forall, (bool_decide_unpack _). by vm_compute.
Defined.

Example sample_decisions :
  vacm_in_view sample_agent sample_view_request (Some ([1; 3; 6; 1; 5; 9; 2], 7)) false
  = Ok (VACM_NOTINVIEW, [], sample_view_request) ∧
  vacm_in_view sample_agent sample_view_request (Some ([1; 3; 6; 1; 5; 9; 3], 7)) false
  = Ok (VACM_SUCCESS, [], sample_view_request).
Proof. by vm_compute. Qed.

(** The check of a subtree, for a view name of any length. *)
Lemma subtree_answer ag vn obj len s :
  agent_ok ag → zlen vn < 2 ^ 31 → stored obj len s →
  ∃ code, netsnmp_view_subtree_check (ag_views ag) vn obj len = Ok code ∧
    (code ≠ VACM_SUBTREE_UNKNOWN → ∀ t obj' len', stored obj' len' (s ++ t) →
      ∃ vp, netsnmp_view_get (ag_views ag) vn obj' len' VACM_MODE_FIND = Ok vp ∧
        included vp = (code =? VACM_SUCCESS)).
Proof.
  intros Hok Hs Ho. destruct (decide (zlen vn < VACM_MAX_STRING)) as [Hn|Hn].
  - by apply subtree_check_answers; [apply ok_views|..].
  - unfold netsnmp_view_subtree_check, netsnmp_view_get.
    rewrite too_long_spec, bool_decide_eq_false_2 by done. cbn [negb]. eauto 10.
Qed.

(** C31: A definite answer about a subtree spares the checks of its objects: when
    vacm_in_view with check_subtree gives any code but VACM_SUBTREE_UNKNOWN, then for every
    object identifier in the subtree the check of that object alone gives access if and
    only if the code was VACM_SUCCESS, through all the steps of the decision: security
    name, context, group, access right and view.  The request has a security name and a
    context name of at most 31 characters; the tables are well formed. *)
Theorem vacm_subtree_spares_checks ag pdu pdu' sn context obj len s :
  agent_ok ag → presents ag pdu pdu' sn context → stored obj len s →
  ∃ code, vacm_in_view ag pdu (Some (obj, len)) true = Ok (code, [], pdu') ∧
    (code ≠ VACM_SUBTREE_UNKNOWN → ∀ t obj' len', stored obj' len' (s ++ t) →
      ∃ code' stats, vacm_in_view ag pdu (Some (obj', len')) false = Ok (code', stats, pdu') ∧
        (code' = VACM_SUCCESS ↔ code = VACM_SUCCESS)).
Proof.
  intros Hok [Hsn Hsl Hcl Hcx] Ho. unfold vacm_in_view, vacm_check_view.
  rewrite (check_until_view ag pdu pdu' sn context) by done.
  setoid_rewrite (check_until_view ag pdu pdu' sn context); [|done..].
  destruct (context_known ag context _); [|by eauto 10]. cbn [negb].
  destruct (first_such (λ gp, in_group gp _ sn) _) as [gp|]; [|by eauto 10].
  destruct (first_such (λ ap, admits ap _ context _ _) _) as [ap|] eqn:Ea; [|by eauto 10].
  apply first_such_elem in Ea. pose proof (view_for_range (rq_command pdu)) as Hr.
  destruct (view_name_of ag ap _ Hok Ea Hr) as (view & Hview & Htext & Hlen).
  unfold check_entry. rewrite Hview, Htext.
  destruct (Z.ltb_spec (view_for (rq_command pdu)) 0); [lia|].
  destruct (Z.leb_spec VACM_MAX_VIEWS (view_for (rq_command pdu))); [lia|]. cbn [orb]. m_step.
  destruct (subtree_answer ag (text_of view) obj len s Hok Hlen Ho) as (code & -> & Hcode). m_step.
  exists code. split; [done|]. intros Hu t obj' len' Ho'.
  destruct (Hcode Hu t obj' len' Ho') as (vp & -> & Hvp). m_step.
  destruct vp as [vp|]; cbn [included] in Hvp.
  - destruct (viewType vp =? SNMP_VIEW_EXCLUDED); m_step; do 2 eexists; (split; [done|]).
    + split; [done|]. intros ->. done.
    + split; [|done]. intros _. symmetry in Hvp. by apply Z.eqb_eq in Hvp.
  - do 2 eexists. split; [done|]. split; [done|]. intros ->. done.
Qed.

Lemma vacm_subtree_spares_checks_witness :
  ∃ code, vacm_in_view sample_agent sample_view_request (Some ([1; 3; 6; 1; 4], 5)) true
      = Ok (code, [], sample_view_request) ∧
    (code ≠ VACM_SUBTREE_UNKNOWN → ∀ t obj' len', stored obj' len' ([1; 3; 6; 1; 4] ++ t) →
      ∃ code' stats, vacm_in_view sample_agent sample_view_request (Some (obj', len')) false
          = Ok (code', stats, sample_view_request) ∧
        (code' = VACM_SUCCESS ↔ code = VACM_SUCCESS)).
Proof.
  apply (vacm_subtree_spares_checks sample_agent sample_view_request sample_view_request [106; 111; 101] [120]
           [1; 3; 6; 1; 4] 5 [1; 3; 6; 1; 4]).
  - exact sample_agent_ok.
  - exact sample_presents.
  - by apply (stored_full [1; 3; 6; 1; 4]).
Defined.

(** Names of 32 characters, which the MIB allows and the arrays have room for, are refused:
    a request in such a context gets no access, whatever the tables say, and no entry can
    be made with such a name. *)
Lemma full_names_refused l gl vl al model level name other obj len :
  zlen name = VACM_MAX_STRING →
  vacm_getAccessEntry l other name model level = Ok None ∧
  vacm_getGroupEntry gl model name = Ok None ∧
  netsnmp_view_create (true, true) vl name obj len = Ok (None, vl) ∧
  vacm_createGroupEntry (true, true) gl model name = Ok (None, gl) ∧
  vacm_createAccessEntry (true, true) al name other model level = Ok (None, al).
Proof.
  intros Hn. assert (too_long name = true) as Ht.
  { rewrite too_long_spec, bool_decide_eq_false_2 by (rewrite Hn; done). done. }
  unfold vacm_getAccessEntry, vacm_getGroupEntry, netsnmp_view_create, vacm_createGroupEntry,
    vacm_createAccessEntry. rewrite Ht. split_and!; try done. by destruct (too_long other).
Qed.

(** The status of a row plays no part: with all rows notInService the request is let in. *)
Definition inactive_agent : agent :=
  Agent
    ((λ v, ViewEntry (viewName v) (viewSubtree v) (viewSubtreeLen v) (viewMask v) (viewMaskLen v)
        (viewType v) (viewStorageType v) 2) <$> sample_views)
    ((λ g, GroupEntry (g_securityModel g) (g_securityName g) (g_groupName g) (g_storageType g) 2)
       <$> sample_groups)
    ((λ a, AccessEntry (a_groupName a) (a_contextPrefix a) (a_securityModel a) (a_securityLevel a)
        (a_contextMatch a) (a_views a) (a_storageType a) 2) <$> sample_accesses)
    [] (λ _ _, Ok (0, None, [])) (λ _ _, Ok (0, None, []))
    [(3, Some 1%nat)] [(Some [120], Some 2%nat)] true.

Example inactive_rows_used :
  vacm_in_view inactive_agent sample_view_request (Some ([1; 3; 6; 1; 5; 9; 3], 7)) false
  = Ok (VACM_SUCCESS, [], sample_view_request).
Proof. by vm_compute. Qed.
