(* ===== verification/ClientVar.v ===== *)
(** * Building and releasing PDUs: snmplib/snmp_client.c and snmp_api.c

    Models the functions with which an application builds a request and lets it go:
    snmp_pdu_create, snmp_set_var_value and its variants, snmp_varlist_add_variable,
    snmp_pdu_add_variable, snmp_add_null_var, the searches and counts over a list of
    variables, snmp_reset_var_buffers, snmp_replace_var_types, and the snmp_free
    functions.  Variables and heap are those of Client: each variable and PDU that is
    allocated is in a block of the heap of its own, which must be there when the variable is
    linked, walked over or released.  A new variable is cleared, and the application's
    [data] pointer stays null.  malloc may refuse any request.

    The theorems: what a variable shows after a value was set; adding appends; and a list
    built by any sequence of additions, whether they succeed or not, is released without
    a leak and without releasing anything twice. *)

From S2P Require Import Prelude Ber Asn1 Asn1Int64 Asn1Float Asn1Oid VarBind Pdu PduParse.
From S2P Require Import OidCompare Message Client V3.
From stdpp Require Import prelude numbers list.
From Stdlib Require Import ZArith Lia.
Open Scope Z_scope.

Definition ASN_UNSIGNED : Z := Z.lor ASN_APPLICATION 2.
Definition ASN_PRIVATE : Z := 0xC0.
Definition ASN_PRIV_INCL_RANGE : Z := Z.lor ASN_PRIVATE 2.
Definition ASN_PRIV_EXCL_RANGE : Z := Z.lor ASN_PRIVATE 3.
Definition ASN_PRIV_IMPLIED_OCTET_STR : Z := Z.lor ASN_PRIVATE ASN_OCTET_STR.
Definition ASN_PRIV_IMPLIED_OBJECT_ID : Z := Z.lor ASN_PRIVATE ASN_OBJECT_ID.

Definition SIZEOF_INT : Z := 4.
Definition SIZEOF_SHORT : Z := 2.
Definition SIZEOF_INTMAX_T : Z := 8.

(** ** Setting a value *)

(** The cases of the [switch] in snmp_set_var_value. *)
Inductive vkind := KInteger | KObjid | KString | KNull | KCounter64 | KFloat | KDouble | KOther.

Definition kind_of (type : Z) : vkind :=
  if bool_decide (type ∈ [ASN_INTEGER; ASN_UNSIGNED; ASN_TIMETICKS; ASN_COUNTER]) then KInteger
  else if bool_decide (type ∈ [ASN_OBJECT_ID; ASN_PRIV_IMPLIED_OBJECT_ID; ASN_PRIV_INCL_RANGE;
                               ASN_PRIV_EXCL_RANGE]) then KObjid
  else if bool_decide (type ∈ [ASN_IPADDRESS; ASN_PRIV_IMPLIED_OCTET_STR; ASN_OCTET_STR;
                               ASN_BIT_STR; ASN_OPAQUE; ASN_NSAP]) then KString
  else if bool_decide (type ∈ [SNMP_NOSUCHOBJECT; SNMP_NOSUCHINSTANCE; SNMP_ENDOFMIBVIEW; ASN_NULL])
  then KNull
  else if bool_decide (type ∈ [ASN_OPAQUE_U64; ASN_OPAQUE_I64; ASN_COUNTER64]) then KCounter64
  else if type =? ASN_OPAQUE_FLOAT then KFloat
  else if type =? ASN_OPAQUE_DOUBLE then KDouble
  else KOther.

(** A [w]-bit word taken as signed. *)
Definition sign_extend (w v : Z) : Z := if v <? 2 ^ (w - 1) then v else v - 2 ^ w.

(** The [long] made of an integer of [len] octets; [None] is a bad size. *)
Definition widen (signed : bool) (value : list Z) (len : Z) : M (option Z) :=
  if len =? SIZEOF_INT then w ← obj32 value 0; Ok (Some w)
  else if len =? SIZEOF_INTMAX_T then l ← rd_list value 0 8; Ok (Some (load32 (take 4 l)))
  else if len =? SIZEOF_SHORT then
    a ← rd value 0; b ← rd value 1;
    let v := a + 256 * b in Ok (Some (if signed then sign_extend 16 v else v))
  else if len =? 1 then a ← rd value 0; Ok (Some (if signed then sign_extend 8 a else a))
  else Ok None.

Section Setting.
Variable malloc_ok : Z → bool.

(** [memmove(vars->buf, value, n)], for a value kept in the variable. *)
Definition keep_local (h : heap) (vars : cvar) (value : list Z) (n : Z) : M (Z * heap * cvar) :=
  l ← rd_list value 0 (Z.to_nat n);
  buf ← wr_list (cv_buf vars) 0 l;
  Ok (0, h, set_val vars PLocal n buf).

(** The result code, 0 or 1, with the heap and the variable.  [vars->val.string[0] = 0]
    is a write through a null pointer when the value is too long for [buf]. *)
Definition snmp_set_var_value (h : heap) (vars : cvar) (value : option (list Z)) (len : Z)
    : M (Z * heap * cvar) :=
  h ← match cv_val vars with PHeap b => free h b | _ => Ok h end;
  let largeval := SIZEOF_BUF <? len in
  let val := if largeval then PNull else PLocal in
  match (if len =? 0 then None else value) with
  | None =>
      if largeval then UB
      else buf ← wr (cv_buf vars) 0 0; Ok (0, h, set_val vars PLocal 0 buf)
  | Some value =>
      let vars := set_val vars val len (cv_buf vars) in
      match kind_of (cv_type vars) with
      | KInteger =>
          w ← widen (cv_type vars =? ASN_INTEGER) value len;
          match w with
          | None => Ok (1, h, vars)
          | Some w =>
              buf ← wr_list (cv_buf vars) 0 (store32 w);
              Ok (0, h, set_val vars val SIZEOF_LONG buf)
          end
      | KObjid =>
          if largeval then
            if malloc_ok len then
              l ← rd_list value 0 (Z.to_nat len);
              match malloc_copy malloc_ok h len l with
              | Some (h, b) => Ok (0, h, set_val vars (PHeap b) len (cv_buf vars))
              | None => Ok (1, h, set_val vars PNull len (cv_buf vars))
              end
            else Ok (1, h, set_val vars PNull len (cv_buf vars))
          else keep_local h vars value len
      | KString =>
          if SIZEOF_BUF <=? len then
            if malloc_ok (u32 (len + 1)) then
              l ← rd_list value 0 (Z.to_nat len);
              match malloc_copy malloc_ok h (u32 (len + 1)) (l ++ [0]) with
              | Some (h, b) => Ok (0, h, set_val vars (PHeap b) len (cv_buf vars))
              | None => Ok (1, h, set_val vars PNull len (cv_buf vars))
              end
            else Ok (1, h, set_val vars PNull len (cv_buf vars))
          else
            '(rc, h, vars) ← keep_local h vars value len;
            buf ← wr (cv_buf vars) (Z.to_nat len) 0;
            Ok (rc, h, set_val vars PLocal len buf)
      | KNull => Ok (0, h, set_val vars PNull 0 (cv_buf vars))
      | KCounter64 => if largeval then Ok (1, h, vars) else keep_local h vars value SIZEOF_COUNTER64
      | KFloat => if largeval then Ok (1, h, vars) else keep_local h vars value SIZEOF_FLOAT
      | KDouble => if largeval then Ok (1, h, vars) else keep_local h vars value SIZEOF_DOUBLE
      | KOther => Ok (1, h, vars)
      end
  end.

Definition set_type (vp : cvar) (type : Z) : cvar :=
  CVar (cv_name vp) (cv_name_length vp) (cv_name_loc vp) type (cv_val vp) (cv_val_len vp) (cv_buf vp)
    (cv_self vp).

Definition snmp_set_var_typed_value (h : heap) (newvar : cvar) (type : Z) (val_str : option (list Z))
    (val_len : Z) : M (Z * heap * cvar) :=
  snmp_set_var_value h (set_type newvar type) val_str val_len.

(** [val] is a [long]; its bytes are the value. *)
Definition snmp_set_var_typed_integer (h : heap) (newvar : cvar) (type val : Z)
    : M (Z * heap * cvar) :=
  snmp_set_var_value h (set_type newvar type) (Some (store32 val)) SIZEOF_LONG.

(** ** Releasing *)

(** [if (p != loc) SNMP_FREE(p)] *)
Definition free_unless_local (h : heap) (p : ptr) : M heap :=
  match p with PHeap b => free h b | _ => Ok h end.

(** [free(p)]; an object that was not allocated must not be passed. *)
Definition free_self (h : heap) (p : ptr) : M heap :=
  match p with PHeap b => free h b | PNull => Ok h | PLocal => UB end.

Definition snmp_free_var_internals (h : heap) (var : cvar) : M heap :=
  _ ← touch h var;
  h ← free_unless_local h (cv_name var);
  free_unless_local h (cv_val var).

Definition snmp_free_var (h : heap) (var : cvar) : M heap :=
  h ← snmp_free_var_internals h var;
  free_self h (cv_self var).

Fixpoint snmp_free_varbind (h : heap) (vars : list cvar) : M heap :=
  match vars with
  | [] => Ok h
  | var :: vars => _ ← touch h var; h ← snmp_free_var h var; snmp_free_varbind h vars
  end.

(** ** Adding variables *)

(** What SNMP_MALLOC_TYPEDEF gives, at [self]. *)
Definition cleared_var (self : ptr) : cvar :=
  CVar PNull 0 (replicate (Z.to_nat MAX_OID_LEN) 0) 0 PNull 0 (replicate (Z.to_nat SIZEOF_BUF) 0) self.

(** [for (vtmp = *varlist; vtmp->next_variable; vtmp = vtmp->next_variable);] and
    [vtmp->next_variable = vars]: every variable of the list is looked at. *)
Fixpoint link_last (h : heap) (varlist : list cvar) (vars : cvar) : M (list cvar) :=
  match varlist with
  | [] => Ok [vars]
  | vtmp :: varlist => _ ← touch h vtmp; l ← link_last h varlist vars; Ok (vtmp :: l)
  end.

(** The heap and the list, and whether a variable was added. *)
Definition snmp_varlist_add_variable (h : heap) (varlist : list cvar) (name : option (list Z))
    (name_length type : Z) (value : option (list Z)) (len : Z) : M (heap * list cvar * bool) :=
  match malloc_copy malloc_ok h SIZEOF_VARIABLE_LIST [] with
  | None => Ok (h, varlist, false)
  | Some (h, self) =>
      '(rc, h, vars) ← snmp_set_var_value h (set_type (cleared_var (PHeap self)) type) value len;
      if negb (rc =? 0) then h ← snmp_free_var h vars; Ok (h, varlist, false)
      else
        r ← match name with
            | None => Ok (Some (h, vars))
            | Some name => snmp_set_var_objid malloc_ok h vars (Some name) name_length
            end;
        match r with
        | None => h ← snmp_free_var h vars; Ok (h, varlist, false)
        | Some (h, vars) => varlist ← link_last h varlist vars; Ok (h, varlist, true)
        end
  end.

Definition snmp_pdu_add_variable (h : heap) (pdu : cpdu) (name : option (list Z))
    (name_length type : Z) (value : option (list Z)) (len : Z) : M (heap * cpdu * bool) :=
  '(h, vars, added) ← snmp_varlist_add_variable h (cp_variables pdu) name name_length type value len;
  Ok (h, set_variables pdu vars, added).

Definition snmp_add_null_var (h : heap) (pdu : cpdu) (name : list Z) (name_length : Z)
    : M (heap * cpdu * bool) :=
  snmp_pdu_add_variable h pdu (Some name) name_length ASN_NULL None 0.

(** The counters of identifiers come back with the PDU; [None] when calloc fails. *)
Definition snmp_pdu_create (ids16 : bool) (Reqid Msgid : Z) (h : heap) (command : Z)
    : heap * option cpdu * Z * Z :=
  match malloc_copy malloc_ok h SIZEOF_PDU [] with
  | Some (h, self) =>
      let '(reqid, Reqid) := get_next_id ids16 Reqid in
      let '(msgid, Msgid) := get_next_id ids16 Msgid in
      let none := CBuf PNull 0 in
      (h, Some (CPdu (PduFields SNMP_DEFAULT_VERSION command reqid msgid 0 0 SNMP_DEFAULT_ERRSTAT
                  SNMP_DEFAULT_ERRINDEX 0 0 SNMP_DEFAULT_SECMODEL 0 0 0 0 0 0 [0; 0; 0; 0] 0 0 PNull)
                none none none none none none none [] (PHeap self)), Reqid, Msgid)
  | None => (h, None, Reqid, Msgid)
  end.

(** [SNMP_FREE] of an allocated field. *)
Definition free_field (h : heap) (c : cbuf) : M heap := free_unless_local h (cb_ptr c).

(** [find_sec_mod(securityModel)->pdu_free], when that module has one. *)
Variable pdu_free : Z → option (heap → cpdu → M heap).

Definition snmp_free_pdu (h : heap) (pdu : cpdu) : M heap :=
  h ← match pdu_free (pf_securityModel (cp_fields pdu)) with Some f => f h pdu | None => Ok h end;
  h ← snmp_free_varbind h (cp_variables pdu);
  h ← free_field h (cp_enterprise pdu);
  h ← free_field h (cp_community pdu);
  h ← free_field h (cp_contextEngineID pdu);
  h ← free_field h (cp_securityEngineID pdu);
  h ← free_field h (cp_contextName pdu);
  h ← free_field h (cp_securityName pdu);
  h ← free_field h (cp_transport_data pdu);
  free_self h (cp_self pdu).

(** ** Lists of variables *)

Fixpoint snmp_reset_var_buffers (h : heap) (vars : list cvar) : M (heap * list cvar) :=
  match vars with
  | [] => Ok (h, [])
  | var :: vars =>
      '(h, var) ← match cv_name var with
                  | PLocal => Ok (h, var)
                  | p => h ← free_unless_local h p; Ok (h, set_name var PLocal 0 (cv_name_loc var))
                  end;
      '(h, var) ← match cv_val var with
                  | PLocal => Ok (h, var)
                  | p => h ← free_unless_local h p; Ok (h, set_val var PLocal 0 (cv_buf var))
                  end;
      '(h, vars) ← snmp_reset_var_buffers h vars;
      Ok (h, var :: vars)
  end.

Fixpoint snmp_replace_var_types (h : heap) (vbl : list cvar) (old_type new_type : Z)
    : M (heap * list cvar) :=
  match vbl with
  | [] => Ok (h, [])
  | var :: vbl =>
      '(h, var) ← (if cv_type var =? old_type
                   then '(_, h, var) ← snmp_set_var_typed_value h var new_type None 0; Ok (h, var)
                   else Ok (h, var));
      '(h, vbl) ← snmp_replace_var_types h vbl old_type new_type;
      Ok (h, var :: vbl)
  end.

Fixpoint snmp_reset_var_types (h : heap) (vbl : list cvar) (new_type : Z) : M (heap * list cvar) :=
  match vbl with
  | [] => Ok (h, [])
  | var :: vbl =>
      '(_, h, var) ← snmp_set_var_typed_value h var new_type None 0;
      '(h, vbl) ← snmp_reset_var_types h vbl new_type;
      Ok (h, var :: vbl)
  end.

(** The counters are [int]s. *)
Definition count_varbinds (vars : list cvar) : Z := fold_left (λ count _, s32 (count + 1)) vars 0.

Definition count_varbinds_of_type (vars : list cvar) (type : Z) : Z :=
  fold_left (λ count v, if cv_type v =? type then s32 (count + 1) else count) vars 0.

(** The searches give the rest of the list from the variable found on. *)
Fixpoint find_varbind_of_type (vars : list cvar) (type : Z) : list cvar :=
  match vars with
  | [] => []
  | v :: vs => if negb (cv_type v =? type) then find_varbind_of_type vs type else vars
  end.

Fixpoint find_varbind_in_list (h : heap) (vars : list cvar) (name : list Z) (len : Z) : M (list cvar) :=
  match vars with
  | [] => Ok []
  | v :: vs =>
      n ← match cv_name v with PNull => Ok [] | p => deref h p (cv_name_loc v) end;
      c ← snmp_oid_compare n (cv_name_length v) name len;
      if c =? 0 then Ok vars else find_varbind_in_list h vs name len
  end.

End Setting.

(** ** What a value becomes *)

(** The octets a variable shows after a value was set; nothing for the null types. *)
Definition shown_value (type : Z) (value : option (list Z)) : option (list Z) :=
  match value with
  | None | Some [] => Some []
  | Some v =>
      match kind_of type with
      | KInteger =>
          match widen (type =? ASN_INTEGER) v (zlen v) with Ok (Some w) => Some (store32 w) | _ => None end
      | KObjid | KString => Some v
      | KCounter64 => Some (take (Z.to_nat SIZEOF_COUNTER64) v)
      | KFloat => Some (take (Z.to_nat SIZEOF_FLOAT) v)
      | KDouble => Some (take (Z.to_nat SIZEOF_DOUBLE) v)
      | KNull | KOther => None
      end
  end.

(** The object behind the pointer is as large as its type and its length say. *)
Definition sound_value (type : Z) (value : option (list Z)) : Prop :=
  match value with
  | None => True
  | Some v => zlen v < 2 ^ 31 - 1 ∧
      match kind_of type with
      | KCounter64 => SIZEOF_COUNTER64 ≤ zlen v
      | KFloat => SIZEOF_FLOAT ≤ zlen v
      | KDouble => SIZEOF_DOUBLE ≤ zlen v
      | _ => True
      end
  end.

(** The sizes that are not refused. *)
Definition good_size (type : Z) (value : option (list Z)) : Prop :=
  match value with
  | None | Some [] => True
  | Some v =>
      match kind_of type with
      | KInteger => zlen v ∈ [1; 2; 4; 8]
      | KCounter64 | KFloat | KDouble => zlen v ≤ SIZEOF_BUF
      | KObjid | KString | KNull => True
      | KOther => False
      end
  end.

(** The blocks of the heap a variable owns, its own among them. *)
Definition block_of (p : ptr) : list nat := match p with PHeap b => [b] | _ => [] end.
Definition owned (cv : cvar) : list nat :=
  block_of (cv_name cv) ++ block_of (cv_val cv) ++ block_of (cv_self cv).

Definition value_len (value : option (list Z)) : Z := zlen (default [] value).

Lemma widen_ok signed v :
  ∃ r, widen signed v (zlen v) = Ok r ∧ (zlen v ∈ [1; 2; 4; 8] → r ≠ None).
Proof.
  unfold widen, SIZEOF_INT, SIZEOF_INTMAX_T, SIZEOF_SHORT, zlen.
  destruct (Z.eqb_spec (Z.of_nat (length v)) 4).
  { unfold obj32. rewrite rd_list_spec by lia. m_step. by eexists. }
  destruct (Z.eqb_spec (Z.of_nat (length v)) 8).
  { rewrite rd_list_spec by lia. m_step. by eexists. }
  destruct (Z.eqb_spec (Z.of_nat (length v)) 2).
  { destruct (rd_lt v 0) as (a & -> & _); [lia|]. destruct (rd_lt v 1) as (b & -> & _); [lia|].
    m_step. by eexists. }
  destruct (Z.eqb_spec (Z.of_nat (length v)) 1).
  { destruct (rd_lt v 0) as (a & -> & _); [lia|]. m_step. by eexists. }
  eexists. split; [done|]. set_solver.
Qed.

Lemma widen_small signed v x : widen signed v (zlen v) = Ok (Some x) → zlen v ≤ SIZEOF_BUF.
Proof.
  unfold widen, SIZEOF_INT, SIZEOF_INTMAX_T, SIZEOF_SHORT, SIZEOF_BUF.
  destruct (Z.eqb_spec (zlen v) 4); [lia|]. destruct (Z.eqb_spec (zlen v) 8); [lia|].
  destruct (Z.eqb_spec (zlen v) 2); [lia|]. destruct (Z.eqb_spec (zlen v) 1); [lia|done].
Qed.

Section SetValue.
Variable malloc_ok : Z → bool.

(** What setting a value in a variable without an allocated value gives: a result code,
    at most one new block, which the variable owns, and the value shown on success. *)
Record value_set (h : heap) (cv : cvar) (value : option (list Z)) (rc : Z) (k : heap) (cv' : cvar)
    : Prop := {
  vs_rc : rc = 0 ∨ rc = 1;
  vs_name : cv_name cv' = cv_name cv ∧ cv_name_length cv' = cv_name_length cv ∧
    cv_name_loc cv' = cv_name_loc cv ∧ cv_type cv' = cv_type cv ∧ cv_self cv' = cv_self cv;
  vs_buf : zlen (cv_buf cv') = SIZEOF_BUF;
  vs_block : (k = [] ∧ block_of (cv_val cv') = []) ∨
    ∃ l, k = [Some l] ∧ cv_val cv' = PHeap (length h);
  vs_shown : rc = 0 →
    match shown_value (cv_type cv) value with
    | None => cv_val cv' = PNull
    | Some v => cv_val_len cv' = zlen v ∧ zlen v < 2 ^ 31 ∧
        ∃ rest, deref (h ++ k) (cv_val cv') (cv_buf cv') = Ok (v ++ rest)
    end;
}.

Lemma keep_local_set h cv value v n :
  zlen (cv_buf cv) = SIZEOF_BUF → 0 ≤ n ≤ SIZEOF_BUF → n ≤ zlen v →
  shown_value (cv_type cv) value = Some (take (Z.to_nat n) v) →
  ∃ cv', keep_local h cv v n = Ok (0, h, cv') ∧ value_set h cv value 0 [] cv' ∧
    cv_val cv' = PLocal ∧ cv_val_len cv' = n ∧
    cv_buf cv' = take (Z.to_nat n) v ++ drop (Z.to_nat n) (cv_buf cv).
Proof.
  intros Hb Hn Hv Hsh. unfold keep_local, zlen, SIZEOF_BUF in *.
  rewrite rd_list_spec by lia. m_step. rewrite drop_0.
  rewrite wr_list_eq by (rewrite length_take; lia). m_step. rewrite take_0, app_nil_l, Nat.add_0_l.
  rewrite length_take, Nat.min_l by lia.
  eexists. split; [done|]. split; [|done]. split; cbn; [by left|done| |by left|].
  - unfold zlen. rewrite length_app, length_take, length_drop. unfold SIZEOF_BUF. lia.
  - intros _. rewrite Hsh. unfold zlen. rewrite length_take. split_and!; [lia|lia|by eexists].
Qed.

Definition grants : Prop := ∀ n, 0 ≤ n < 2 ^ 31 → malloc_ok n = true.

(** The three ways a value ends up: not at all, in a new block, or in the variable. *)
Lemma set_refused h cv value p n :
  zlen (cv_buf cv) = SIZEOF_BUF → block_of p = [] →
  value_set h cv value 1 [] (set_val cv p n (cv_buf cv)).
Proof. intros Hb Hp. by split; cbn; [right| | |left|]. Qed.

Lemma set_block h cv value v rest n :
  zlen (cv_buf cv) = SIZEOF_BUF → shown_value (cv_type cv) value = Some v → n = zlen v → n < 2 ^ 31 →
  value_set h cv value 0 [Some (v ++ rest)] (set_val cv (PHeap (length h)) n (cv_buf cv)).
Proof.
  intros Hb Hsh -> Hn. split; cbn [cv_name cv_name_length cv_name_loc cv_type cv_val cv_val_len
    cv_buf set_val]; [by left|done|done|right; by eexists|].
  intros _. rewrite Hsh. split_and!; [done..|]. exists rest. apply deref_last.
Qed.

(** A copy of [v], with [tail] behind it, in memory that malloc may refuse. *)
Lemma set_malloc h cv value v tail size :
  zlen (cv_buf cv) = SIZEOF_BUF → shown_value (cv_type cv) value = Some v → zlen v < 2 ^ 31 →
  0 ≤ size < 2 ^ 31 →
  ∃ rc k cv',
    (if malloc_ok size then
       l ← rd_list v 0 (Z.to_nat (zlen v));
       match malloc_copy malloc_ok h size (l ++ tail) with
       | Some (h, b) => Ok (0, h, set_val cv (PHeap b) (zlen v) (cv_buf cv))
       | None => Ok (1, h, set_val cv PNull (zlen v) (cv_buf cv))
       end
     else Ok (1, h, set_val cv PNull (zlen v) (cv_buf cv))) = Ok (rc, h ++ k, cv') ∧
    value_set h cv value rc k cv' ∧ (grants → rc = 0).
Proof.
  intros Hb Hsh Hv Hs. destruct (malloc_ok size) eqn:Em.
  - assert (rd_list v 0 (Z.to_nat (zlen v)) = Ok v) as ->.
    { rewrite Z_to_nat_zlen, rd_list_spec by lia. by rewrite drop_0, firstn_all. }
    m_step. unfold malloc_copy. rewrite Em.
    do 3 eexists. split; [done|]. split; [|done]. by apply set_block.
  - exists 1, []. eexists. rewrite app_nil_r. split; [done|]. split; [by apply set_refused|].
    intros Hg. specialize (Hg size Hs). congruence.
Qed.

(** The variable as it is when the [switch] is reached. *)
Definition val_ptr (w : list Z) : ptr := if SIZEOF_BUF <? zlen w then PNull else PLocal.
Definition at_switch (cv : cvar) (w : list Z) : cvar := set_val cv (val_ptr w) (zlen w) (cv_buf cv).

(** What each case of the [switch] has to give. *)
Definition case_done (h : heap) (cv : cvar) (w : list Z) (good : Prop) (m : M (Z * heap * cvar)) : Prop :=
  ∃ rc k cv', m = Ok (rc, h ++ k, cv') ∧ value_set h cv (Some w) rc k cv' ∧ (good → grants → rc = 0).

Lemma case_refused h cv w :
  zlen (cv_buf cv) = SIZEOF_BUF → case_done h cv w False (Ok (1, h, at_switch cv w)).
Proof.
  intros Hb. exists 1, []. eexists. rewrite app_nil_r. split; [done|]. split; [|done].
  apply set_refused; [done|]. unfold val_ptr. by destruct (SIZEOF_BUF <? zlen w).
Qed.

Lemma case_weaken h cv w (P Q : Prop) m : (Q → P) → case_done h cv w P m → case_done h cv w Q m.
Proof. intros HPQ (rc & k & cv' & E & Hv & Hr). exists rc, k, cv'. eauto. Qed.

Lemma case_integer h cv w :
  zlen (cv_buf cv) = SIZEOF_BUF →
  shown_value (cv_type cv) (Some w)
  = match widen (cv_type cv =? ASN_INTEGER) w (zlen w) with Ok (Some x) => Some (store32 x) | _ => None end →
  case_done h cv w (zlen w ∈ [1; 2; 4; 8])
    (r ← widen (cv_type cv =? ASN_INTEGER) w (zlen w);
     match r with
     | None => Ok (1, h, at_switch cv w)
     | Some x =>
         buf ← wr_list (cv_buf (at_switch cv w)) 0 (store32 x);
         Ok (0, h, set_val (at_switch cv w) (val_ptr w) SIZEOF_LONG buf)
     end).
Proof.
  intros Hb Hsh. destruct (widen_ok (cv_type cv =? ASN_INTEGER) w) as (r & Hw & Hgood).
  rewrite Hw in *. m_step. destruct r as [x|].
  2: { eapply case_weaken; [|by apply case_refused]. intros Hin. by destruct (Hgood Hin). }
  assert (zlen w ≤ SIZEOF_BUF) as Hle by (by eapply widen_small).
  unfold at_switch, val_ptr. destruct (Z.ltb_spec SIZEOF_BUF (zlen w)); [lia|]. cbn [cv_buf set_val].
  rewrite wr_list_eq by (rewrite length_store32; unfold zlen, SIZEOF_BUF in Hb; lia). m_step.
  exists 0, []. eexists. rewrite app_nil_r. split; [done|]. split; [|done].
  split; cbn [cv_name cv_name_length cv_name_loc cv_type cv_val cv_val_len cv_buf cv_self set_val];
    [by left|done| |by left|].
  - unfold zlen, SIZEOF_BUF in *. rewrite !length_app, length_store32, length_drop, length_take. lia.
  - intros _. rewrite Hsh. unfold zlen, SIZEOF_LONG. rewrite length_store32.
    split_and!; [done|lia|by eexists].
Qed.

Lemma case_local h cv w n :
  zlen (cv_buf cv) = SIZEOF_BUF → 0 ≤ n ≤ SIZEOF_BUF → n ≤ zlen w →
  shown_value (cv_type cv) (Some w) = Some (take (Z.to_nat n) w) →
  case_done h cv w True (keep_local h (at_switch cv w) w n).
Proof.
  intros Hb Hn Hw Hsh.
  destruct (keep_local_set h cv (Some w) w n) as (cv' & E & Hv & _); [done..|].
  exists 0, [], cv'. rewrite app_nil_r. split; [exact E|by split].
Qed.

(** The types of a fixed size. *)
Lemma case_fixed h cv w n :
  zlen (cv_buf cv) = SIZEOF_BUF → 0 ≤ n ≤ SIZEOF_BUF → n ≤ zlen w →
  shown_value (cv_type cv) (Some w) = Some (take (Z.to_nat n) w) →
  case_done h cv w (zlen w ≤ SIZEOF_BUF)
    (if SIZEOF_BUF <? zlen w then Ok (1, h, at_switch cv w) else keep_local h (at_switch cv w) w n).
Proof.
  intros Hb Hn Hw Hsh. destruct (Z.ltb_spec SIZEOF_BUF (zlen w)).
  - eapply case_weaken; [|by apply case_refused]. lia.
  - eapply case_weaken; [|by apply case_local]. done.
Qed.

Lemma case_objid h cv w :
  zlen (cv_buf cv) = SIZEOF_BUF → zlen w < 2 ^ 31 - 1 → shown_value (cv_type cv) (Some w) = Some w →
  case_done h cv w True
    (if SIZEOF_BUF <? zlen w then
       if malloc_ok (zlen w) then
         l ← rd_list w 0 (Z.to_nat (zlen w));
         match malloc_copy malloc_ok h (zlen w) l with
         | Some (h, b) => Ok (0, h, set_val (at_switch cv w) (PHeap b) (zlen w) (cv_buf (at_switch cv w)))
         | None => Ok (1, h, set_val (at_switch cv w) PNull (zlen w) (cv_buf (at_switch cv w)))
         end
       else Ok (1, h, set_val (at_switch cv w) PNull (zlen w) (cv_buf (at_switch cv w)))
     else keep_local h (at_switch cv w) w (zlen w)).
Proof.
  intros Hb Hl Hsh. pose proof (zlen_nonneg w). destruct (Z.ltb_spec SIZEOF_BUF (zlen w)).
  - destruct (set_malloc h cv (Some w) w [] (zlen w)) as (rc & k & cv' & E & Hv & Hrc); [done..|lia|lia|].
    exists rc, k, cv'. split; [|by split]. rewrite <- E.
    destruct (malloc_ok (zlen w)); [|done]. destruct (rd_list w 0 _) as [l| |]; [|done..].
    m_step. by rewrite app_nil_r.
  - apply case_local; [done|lia|lia|]. by rewrite Z_to_nat_zlen, firstn_all.
Qed.

Lemma case_string h cv w :
  zlen (cv_buf cv) = SIZEOF_BUF → zlen w < 2 ^ 31 - 1 → shown_value (cv_type cv) (Some w) = Some w →
  case_done h cv w True
    (if SIZEOF_BUF <=? zlen w then
       if malloc_ok (u32 (zlen w + 1)) then
         l ← rd_list w 0 (Z.to_nat (zlen w));
         match malloc_copy malloc_ok h (u32 (zlen w + 1)) (l ++ [0]) with
         | Some (h, b) => Ok (0, h, set_val (at_switch cv w) (PHeap b) (zlen w) (cv_buf (at_switch cv w)))
         | None => Ok (1, h, set_val (at_switch cv w) PNull (zlen w) (cv_buf (at_switch cv w)))
         end
       else Ok (1, h, set_val (at_switch cv w) PNull (zlen w) (cv_buf (at_switch cv w)))
     else
       '(rc, h, vars) ← keep_local h (at_switch cv w) w (zlen w);
       buf ← wr (cv_buf vars) (Z.to_nat (zlen w)) 0;
       Ok (rc, h, set_val vars PLocal (zlen w) buf)).
Proof.
  intros Hb Hl Hsh. pose proof (zlen_nonneg w). destruct (Z.leb_spec SIZEOF_BUF (zlen w)).
  - assert (u32 (zlen w + 1) = zlen w + 1) as -> by (apply u32_id; lia).
    destruct (set_malloc h cv (Some w) w [0] (zlen w + 1)) as (rc & k & cv' & E & Hv & Hrc); [done..|lia|lia|].
    exists rc, k, cv'. split; [exact E|by split].
  - destruct (keep_local_set h (at_switch cv w) (Some w) w (zlen w))
      as (cv' & E & Hv & Hp' & Hn' & Hbuf'); [done|lia|lia| |].
    { change (cv_type (at_switch cv w)) with (cv_type cv). rewrite Hsh.
      by rewrite Z_to_nat_zlen, firstn_all. }
    rewrite E. m_step. destruct Hv as [_ (N1 & N2 & N3 & N4 & N5) Hb' _ _].
    unfold wr. rewrite decide_True by (unfold zlen, SIZEOF_BUF in *; lia). m_step.
    exists 0, []. eexists. rewrite app_nil_r. split; [done|]. split; [|done].
    split; cbn [cv_name cv_name_length cv_name_loc cv_type cv_val cv_val_len cv_buf cv_self set_val];
      [by left|by rewrite N1, N2, N3, N4, N5|by unfold zlen; rewrite length_insert|by left|].
    intros _. rewrite Hsh. split_and!; [done|lia|]. cbn [deref].
    rewrite Hbuf', Z_to_nat_zlen, firstn_all. eexists. by rewrite insert_app_r_alt by done.
Qed.

Lemma case_null h cv w :
  zlen (cv_buf cv) = SIZEOF_BUF → shown_value (cv_type cv) (Some w) = None →
  case_done h cv w True (Ok (0, h, set_val (at_switch cv w) PNull 0 (cv_buf (at_switch cv w)))).
Proof.
  intros Hb Hsh. exists 0, []. eexists. rewrite app_nil_r. split; [done|]. split; [|done].
  split; [by left|done|done|by left|]. intros _. by rewrite Hsh.
Qed.

(** No value. *)
Lemma set_nothing h cv value :
  zlen (cv_buf cv) = SIZEOF_BUF → value = None ∨ value = Some [] →
  ∃ cv', (buf ← wr (cv_buf cv) 0 0; Ok (0, h, set_val cv PLocal 0 buf)) = Ok (0, h, cv') ∧
    value_set h cv value 0 [] cv'.
Proof.
  intros Hb Hv. unfold wr. rewrite decide_True by (unfold zlen, SIZEOF_BUF in Hb; lia). m_step.
  eexists. split; [done|].
  split; [by left|done|by unfold zlen; cbn [cv_buf set_val]; rewrite length_insert|by left|].
  intros _. by destruct Hv as [-> | ->]; cbn; split_and!; [| |eexists| | |eexists].
Qed.

Lemma set_value_spec h cv value :
  block_of (cv_val cv) = [] → zlen (cv_buf cv) = SIZEOF_BUF → sound_value (cv_type cv) value →
  ∃ rc k cv', snmp_set_var_value malloc_ok h cv value (value_len value) = Ok (rc, h ++ k, cv') ∧
    value_set h cv value rc k cv' ∧ (good_size (cv_type cv) value → grants → rc = 0).
Proof.
  intros Hp Hb Hs. unfold snmp_set_var_value.
  replace (match cv_val cv with PHeap b => free h b | _ => Ok h end) with (Ok h) by (by destruct (cv_val cv)).
  m_step. assert (value = None ∨ value = Some [] ∨ ∃ a v, value = Some (a :: v)) as [Hv|[Hv|(a & v & ->)]].
  { destruct value as [[|a v]|]; eauto. }
  1, 2: destruct (set_nothing h cv value Hb) as (cv' & E & Hset); [by auto|];
    exists 0, [], cv'; rewrite app_nil_r; subst value; by split.
  pose proof (zlen_nonneg v). set (w := a :: v) in *. change (value_len (Some w)) with (zlen w).
  assert (zlen w ≠ 0) as Hw by (unfold w; rewrite zlen_cons; lia).
  rewrite (proj2 (Z.eqb_neq (zlen w) 0) Hw). destruct Hs as [Hlen Hs].
  fold (val_ptr w) (at_switch cv w). fold (case_done h cv w (good_size (cv_type cv) (Some w))).
  cbn [cv_type at_switch set_val]. unfold good_size, w at 1. fold w.
  destruct (kind_of (cv_type cv)) eqn:Ek;
    first [eapply case_weaken; [|by apply case_refused] | idtac].
  - apply case_integer; [done|]. unfold shown_value, w. by rewrite Ek.
  - apply case_objid; [done..|]. unfold shown_value, w. by rewrite Ek.
  - apply case_string; [done..|]. unfold shown_value, w. by rewrite Ek.
  - apply case_null; [done|]. unfold shown_value, w. by rewrite Ek.
  - apply case_fixed; [done..|]. unfold shown_value, w. by rewrite Ek.
  - apply case_fixed; [done..|]. unfold shown_value, w. by rewrite Ek.
  - apply case_fixed; [done..|]. unfold shown_value, w. by rewrite Ek.
  - done.
Qed.

(** ** Adding a variable *)

Record addition := Addition {
  ad_name : list Z;
  ad_type : Z;
  ad_value : option (list Z);
}.

Definition sound (a : addition) : Prop :=
  zlen (ad_name a) < 2 ^ 16 ∧ sound_value (ad_type a) (ad_value a).

(** The binding it makes. *)
Definition binding_of (a : addition) : vb := (ad_name a, ad_type a, shown_value (ad_type a) (ad_value a)).

Definition add (h : heap) (vars : list cvar) (a : addition) : M (heap * list cvar * bool) :=
  snmp_varlist_add_variable malloc_ok h vars (Some (ad_name a)) (zlen (ad_name a)) (ad_type a)
    (ad_value a) (value_len (ad_value a)).

Fixpoint add_all (h : heap) (vars : list cvar) (l : list addition) : M (heap * list cvar) :=
  match l with
  | [] => Ok (h, vars)
  | a :: l => '(h, vars, _) ← add h vars a; add_all h vars l
  end.

(** The outcome of [snmp_set_var_objid] on a variable without a name. *)
Lemma set_objid_fresh h cv name :
  cv_name cv = PNull → zlen (cv_name_loc cv) = MAX_OID_LEN → zlen name < 2 ^ 16 →
  ∃ r, snmp_set_var_objid malloc_ok h cv (Some name) (zlen name) = Ok r ∧
  match r with
  | None => ¬ grants
  | Some (h', cv') => ∃ k p loc, h' = h ++ k ∧ cv' = set_name cv p (zlen name) loc ∧
      (∃ rest, deref (h ++ k) p loc = Ok (name ++ rest)) ∧ zlen loc = MAX_OID_LEN ∧
      ((k = [] ∧ block_of p = []) ∨ ∃ l, k = [Some l] ∧ p = PHeap (length h))
  end.
Proof.
  intros Hp Hloc Hn. pose proof (zlen_nonneg name). unfold snmp_set_var_objid. rewrite Hp. m_step.
  unfold SIZEOF_OID, SIZEOF_NAME_LOC. rewrite u32_id, Z.mul_comm, Z.div_mul by lia.
  assert (rd_list name 0 (Z.to_nat (zlen name)) = Ok name) as ->.
  { rewrite Z_to_nat_zlen, rd_list_spec by lia. by rewrite drop_0, firstn_all. }
  destruct (Z.leb_spec (zlen name * 4) (MAX_OID_LEN * SIZEOF_OID)) as [Hs|Hs].
  - unfold SIZEOF_OID in Hs. m_step. rewrite wr_list_front by lia. m_step. eexists. split; [done|].
    exists [], PLocal. eexists. rewrite app_nil_r. split_and!; [done..|by eexists| |by left].
    unfold zlen in *. rewrite length_app, length_drop. lia.
  - destruct (malloc_ok (zlen name * 4)) eqn:Em; m_step.
    + unfold malloc_copy. rewrite Em. eexists. split; [done|].
      exists [Some name], (PHeap (length h)), (cv_name_loc cv). split_and!; [done..| |done|right; by eexists].
      exists []. by rewrite deref_last, app_nil_r.
    + eexists. split; [done|]. intros Hg. rewrite Hg in Em by lia. done.
Qed.

(** ** Releasing what was added *)

(** Releasing a list of blocks. *)
Fixpoint free_blocks (h : heap) (bs : list nat) : M heap :=
  match bs with
  | [] => Ok h
  | b :: bs => h ← free h b; free_blocks h bs
  end.

Lemma free_blocks_app h bs bs' : free_blocks h (bs ++ bs') = (h ← free_blocks h bs; free_blocks h bs').
Proof.
  revert h. induction bs as [|b bs IH]; intros h; [done|]. cbn [app free_blocks].
  destruct (free h b); m_step; [apply IH|done..].
Qed.

Definition live (h : heap) (b : nat) : Prop := ∃ l, h !! b = Some (Some l).

Lemma free_blocks_spec h bs :
  NoDup bs → Forall (live h) bs →
  ∃ h', free_blocks h bs = Ok h' ∧ ∀ b, h' !! b = if decide (b ∈ bs) then Some None else h !! b.
Proof.
  intros Hnd. revert h. induction Hnd as [|b bs Hb Hnd IH]; intros h Hl; cbn [free_blocks].
  { exists h. split; [done|]. intros b. by rewrite decide_False by apply not_elem_of_nil. }
  inversion Hl as [|? ? [l Hbl] Hl']; subst. unfold free. rewrite Hbl. m_step.
  destruct (IH (<[b := None]> h)) as (h' & -> & Hh').
  { rewrite Forall_forall in *. intros x Hx. destruct (Hl' x Hx) as [l' Hx']. exists l'.
    rewrite list_lookup_insert_ne; [done|]. intros ->. done. }
  exists h'. split; [done|]. intros x. rewrite Hh'. apply lookup_lt_Some in Hbl.
  destruct (decide (x ∈ bs)) as [Hx|Hx]; [by rewrite decide_True by (by right)|].
  destruct (decide (x = b)) as [->|Hne].
  - rewrite decide_True by (by left). by rewrite list_lookup_insert_eq.
  - rewrite decide_False by (rewrite elem_of_cons; naive_solver). by rewrite list_lookup_insert_ne.
Qed.

(** The variable is in a block of its own. *)
Definition allocated (cv : cvar) : Prop := ∃ b, cv_self cv = PHeap b.

Lemma allocated_touch h cv : allocated cv → Forall (live h) (owned cv) → touch h cv = Ok tt.
Proof.
  intros [b Hb] Hl. unfold owned in Hl. rewrite Hb, !Forall_app in Hl.
  destruct Hl as (_ & _ & [[l Hl] _]%Forall_cons). unfold touch, deref. by rewrite Hb, Hl.
Qed.

Lemma free_var_blocks h cv :
  allocated cv → Forall (live h) (owned cv) → snmp_free_var h cv = free_blocks h (owned cv).
Proof.
  intros Ha Hl. unfold snmp_free_var, snmp_free_var_internals, owned. rewrite allocated_touch by done. m_step.
  assert (∀ h p, free_unless_local h p = free_blocks h (block_of p)) as E.
  { intros h' [| |b]; [done..|]. cbn. by destruct (free h' b). }
  rewrite !free_blocks_app, !M_bind_assoc, <- E.
  destruct (free_unless_local h (cv_name cv)) as [h1| |]; m_step; [|done..].
  rewrite free_blocks_app, <- E. destruct (free_unless_local h1 (cv_val cv)) as [h2| |]; m_step; [|done..].
  destruct Ha as [b ->]. cbn. by destruct (free h2 b).
Qed.

Lemma free_varbind_blocks vars : ∀ h,
  Forall allocated vars → NoDup (concat (owned <$> vars)) → Forall (live h) (concat (owned <$> vars)) →
  snmp_free_varbind h vars = free_blocks h (concat (owned <$> vars)).
Proof.
  induction vars as [|cv vars IH]; intros h Ha Hnd Hl; [done|].
  cbn [snmp_free_varbind fmap list_fmap concat] in *. apply Forall_cons in Ha as [Hcv Ha].
  apply NoDup_app in Hnd as (Hn1 & Hsep & Hn2). apply Forall_app in Hl as [Hl1 Hl2].
  rewrite free_blocks_app, allocated_touch by done. m_step. rewrite free_var_blocks by done.
  destruct (free_blocks_spec h (owned cv) Hn1 Hl1) as (h' & -> & Hh'). m_step. apply IH; [done..|].
  rewrite Forall_forall in *. intros b Hb. destruct (Hl2 b Hb) as [l Hl]. exists l.
  rewrite Hh', decide_False by (intros Hb'; by apply (Hsep b)). done.
Qed.

(** What an addition does: nothing but blocks that are released again, or a new variable
    at the end, which owns the new blocks. *)
Inductive added (h : heap) (vars : list cvar) (a : addition) : heap → list cvar → bool → Prop :=
| added_not k : Forall (λ b, b = None) k → added h vars a (h ++ k) vars false
| added_last k cv :
    shows (h ++ k) cv (binding_of a) → Forall (λ b, b ≠ None) k →
    allocated cv → owned cv ≡ₚ seq (length h) (length k) →
    added h vars a (h ++ k) (vars ++ [cv]) true.

Lemma new_blocks_released h k cv :
  Forall (λ b, b ≠ None) k → allocated cv → owned cv ≡ₚ seq (length h) (length k) →
  ∃ k', snmp_free_var (h ++ k) cv = Ok (h ++ k') ∧ Forall (λ b, b = None) k'.
Proof.
  intros Hk Ha Ho. assert (Forall (live (h ++ k)) (owned cv)) as Hl.
  { rewrite Ho. apply Forall_seq. intros i Hi. destruct (lookup_lt_is_Some_2 k (i - length h)) as [o Hko]; [lia|].
    rewrite Forall_lookup in Hk. destruct o as [l|]; [|by destruct (Hk _ _ Hko)].
    exists l. by rewrite lookup_app_r by lia. }
  rewrite free_var_blocks by done.
  destruct (free_blocks_spec (h ++ k) (owned cv)) as (h' & -> & Hh'); [rewrite Ho; apply NoDup_seq|done|].
  exists (drop (length h) h'). split.
  - f_equal. rewrite <- (take_drop (length h) h') at 1. f_equal. apply list_eq. intros i.
    destruct (decide (i < length h)%nat) as [Hi|Hi].
    + rewrite lookup_take_lt, Hh', decide_False by (done || (rewrite Ho, elem_of_seq; lia)).
      by rewrite lookup_app_l.
    + rewrite lookup_take_ge by lia. symmetry. apply lookup_ge_None. lia.
  - apply Forall_lookup. intros i o. rewrite lookup_drop, Hh'.
    destruct (decide ((length h + i)%nat ∈ owned cv)) as [|Hd]; [by intros [= <-]|].
    rewrite Ho, elem_of_seq in Hd. rewrite lookup_ge_None_2; [done|]. rewrite length_app. lia.
Qed.

Lemma link_last_ok h vars cv :
  Forall (λ v, touch h v = Ok tt) vars → link_last h vars cv = Ok (vars ++ [cv]).
Proof. induction 1 as [|v vars Hv _ IH]; [done|]. cbn [link_last]. rewrite Hv. m_step. by rewrite IH. Qed.

Lemma live_blocks (h : heap) (k : heap) : (k = [] ∨ ∃ l, k = [Some l]) → Forall (λ b, b ≠ None) k.
Proof. intros [->|(l & ->)]; by repeat constructor. Qed.

Lemma add_spec h vars a :
  sound a → Forall (λ v, touch h v = Ok tt) vars →
  ∃ h' vars' b, add h vars a = Ok (h', vars', b) ∧ added h vars a h' vars' b ∧
    (good_size (ad_type a) (ad_value a) → grants → b = true).
Proof.
  intros [Hn Hs] Hvars. unfold add, snmp_varlist_add_variable, malloc_copy.
  destruct (malloc_ok SIZEOF_VARIABLE_LIST) eqn:Em.
  2: { exists h, vars, false. split; [done|]. split.
       - rewrite <- (app_nil_r h) at 2. by apply added_not.
       - intros _ Hg. by rewrite Hg in Em. }
  destruct (set_value_spec (h ++ [Some []]) (set_type (cleared_var (PHeap (length h))) (ad_type a)) (ad_value a))
    as (rc & k & cv & -> & Hv & Hrc); [done..|]. m_step.
  destruct Hv as [_ (N1 & N2 & N3 & N4 & N5) Hbuf Hblk Hsh]. cbn [cv_self cv_name set_type cleared_var] in N1, N5.
  assert (Forall (λ b, b ≠ None) k) as Hk by (apply (live_blocks h); naive_solver).
  assert (block_of (cv_val cv) = seq (S (length h)) (length k)) as Hval.
  { destruct Hblk as [[-> ->]|(l & -> & ->)]; [done|]. cbn. by rewrite length_app, Nat.add_1_r. }
  assert (∃ kf, snmp_free_var ((h ++ [Some []]) ++ k) cv = Ok (h ++ kf) ∧ Forall (λ b, b = None) kf)
    as (kf & Hfree & Hkf).
  { rewrite <- app_assoc. apply new_blocks_released; [by constructor|by exists (length h)|].
    unfold owned. rewrite N1, N5, Hval. cbn. by rewrite Permutation_app_comm. }
  destruct (Z.eqb_spec rc 0) as [->|Hne]; cbn [negb].
  2: { rewrite Hfree. m_step. do 3 eexists. split; [done|]. split; [by apply added_not|].
       intros Hg Hm. by destruct (Hne (Hrc Hg Hm)). }
  destruct (set_objid_fresh ((h ++ [Some []]) ++ k) cv (ad_name a)) as (r & -> & Hr); [done|by rewrite N3|done|].
  m_step. destruct r as [[h' cv']|].
  2: { rewrite Hfree. m_step. do 3 eexists. split; [done|]. split; [by apply added_not|].
       intros _ Hm. by destruct (Hr Hm). }
  destruct Hr as (k2 & p & loc & -> & -> & Hd & Hloc & Hblk2).
  rewrite link_last_ok.
  2: { eapply Forall_impl; [exact Hvars|]. intros v Hv. rewrite <- !app_assoc. by apply touch_app. }
  m_step. do 3 eexists. split; [done|]. split; [|done].
  assert (((h ++ [Some []]) ++ k) ++ k2 = h ++ [Some []] ++ k ++ k2) as E by (by rewrite <- !app_assoc).
  rewrite E in *. apply added_last.
  - split; cbn [binding_of fst snd cv_name cv_name_length cv_name_loc cv_type cv_val
      cv_val_len cv_buf set_name]; [exact Hd|done|lia|by rewrite N4| |done|done|].
    + specialize (Hsh eq_refl). cbn [cv_type set_type] in Hsh.
      destruct (shown_value (ad_type a) (ad_value a)) as [v|]; [|done].
      destruct Hsh as (H1 & H2 & rest & H3). split_and!; [done..|]. exists rest. rewrite <- E. by apply deref_app.
    + unfold touch. cbn [cv_self set_name]. rewrite N5. cbn [app deref]. by rewrite list_lookup_middle by done.
  - constructor; [done|]. apply Forall_app. split; [done|]. apply (live_blocks h). naive_solver.
  - by exists (length h).
  - unfold owned. cbn [cv_name cv_val cv_self set_name]. rewrite N5, Hval.
    assert (block_of p = seq (S (length h) + length k) (length k2)) as ->.
    { destruct Hblk2 as [[-> ->]|(l & -> & ->)]; [done|]. cbn. rewrite !length_app. cbn.
      f_equal. lia. }
    cbn [block_of length app]. rewrite length_app. cbn [seq]. rewrite seq_app.
    rewrite (app_assoc _ _ [length h]), (Permutation_app_comm _ [length h]). cbn.
    by rewrite (Permutation_app_comm (seq (S (length h + length k)) _)).
Qed.

(** The variables own exactly the blocks that were allocated since the heap was [h0]
    and are still in use. *)
Record accounted (h0 h : heap) (vars : list cvar) : Prop := {
  ac_grown : ∃ k, h = h0 ++ k;
  ac_self : Forall allocated vars;
  ac_once : NoDup (concat (owned <$> vars));
  ac_all : ∀ b, b ∈ concat (owned <$> vars) ↔ (length h0 ≤ b)%nat ∧ live h b;
}.

Lemma live_app_none h k b : Forall (λ o, o = None) k → live (h ++ k) b ↔ live h b.
Proof.
  intros Hk. unfold live. split; intros [l Hl].
  - exists l. apply lookup_app_Some in Hl as [|[_ Hl]]; [done|].
    rewrite Forall_lookup in Hk. by specialize (Hk _ _ Hl).
  - exists l. by apply lookup_app_l_Some.
Qed.

Lemma live_app_some h k b :
  Forall (λ o, o ≠ None) k → live (h ++ k) b ↔ live h b ∨ b ∈ seq (length h) (length k).
Proof.
  intros Hk. unfold live. rewrite elem_of_seq. split.
  - intros [l Hl]. apply lookup_app_Some in Hl as [|[Hb Hl]]; [by eauto|right].
    apply lookup_lt_Some in Hl. lia.
  - intros [[l Hl]|Hb]; [exists l; by apply lookup_app_l_Some|].
    destruct (lookup_lt_is_Some_2 k (b - length h)) as [o Ho]; [lia|].
    rewrite Forall_lookup in Hk. destruct o as [l|]; [|by destruct (Hk _ _ Ho)].
    exists l. by rewrite lookup_app_r by lia.
Qed.

Lemma accounted_add h0 h vars a h' vars' b :
  accounted h0 h vars → added h vars a h' vars' b → accounted h0 h' vars'.
Proof.
  intros [[k0 Hg] Ha Hnd Hall] Hadd. destruct Hadd as [k Hk|k cv Hs Hk Hcv Hown].
  - split; [exists (k0 ++ k); by rewrite Hg, app_assoc|done|done|].
    intros b'. by rewrite Hall, (live_app_none h k).
  - assert (concat (owned <$> vars ++ [cv]) ≡ₚ seq (length h) (length k) ++ concat (owned <$> vars)) as Hc.
    { rewrite fmap_app, concat_app. cbn [fmap list_fmap concat]. rewrite app_nil_r, Hown.
      apply Permutation_app_comm. }
    split; [exists (k0 ++ k); by rewrite Hg, app_assoc|apply Forall_app; by repeat constructor| |].
    + rewrite Hc. apply NoDup_app. split_and!; [apply NoDup_seq| |done].
      intros x Hx%elem_of_seq [_ [l Hl]]%Hall. apply lookup_lt_Some in Hl. lia.
    + intros b'. rewrite Hc, elem_of_app, Hall, (live_app_some h k) by done.
      assert (length h0 ≤ length h)%nat by (rewrite Hg, length_app; lia). rewrite elem_of_seq.
      intuition lia.
Qed.

Lemma accounted_live h0 h vars : accounted h0 h vars → Forall (live h) (concat (owned <$> vars)).
Proof. intros Hac. apply Forall_forall. intros b Hb. by apply (ac_all _ _ _ Hac) in Hb as [_ ?]. Qed.

Lemma accounted_touch h0 h vars : accounted h0 h vars → Forall (λ v, touch h v = Ok tt) vars.
Proof.
  intros Hac. pose proof (accounted_live _ _ _ Hac) as Hl. pose proof (ac_self _ _ _ Hac) as Ha. clear Hac.
  induction Ha as [|cv vars Hcv _ IH]; [done|]. cbn [fmap list_fmap concat] in Hl. apply Forall_app in Hl as [? ?].
  constructor; [by apply allocated_touch|by apply IH].
Qed.

Lemma add_all_accounted h0 h vars l :
  Forall sound l → accounted h0 h vars →
  ∃ h' vars', add_all h vars l = Ok (h', vars') ∧ accounted h0 h' vars'.
Proof.
  intros Hl. revert h vars. induction Hl as [|a l Ha Hl IH]; intros h vars Hac; [by eauto|].
  destruct (add_spec h vars a Ha) as (h' & vars' & b & E & Hadd & _); [by eapply accounted_touch|].
  cbn [add_all]. rewrite E. m_step. apply IH. by eapply accounted_add.
Qed.

Lemma accounted_free h0 h vars :
  accounted h0 h vars →
  ∃ k, snmp_free_varbind h vars = Ok (h0 ++ k) ∧ Forall (λ o, o = None) k.
Proof.
  intros Hac. pose proof (accounted_live _ _ _ Hac) as Hlive. destruct Hac as [[k Hg] Ha Hnd Hall].
  rewrite free_varbind_blocks by done.
  destruct (free_blocks_spec h (concat (owned <$> vars)) Hnd Hlive) as (h' & -> & Hh').
  assert (take (length h0) h' = h0) as Ht.
  { apply list_eq. intros i. destruct (decide (i < length h0)%nat) as [Hi|Hi].
    - rewrite lookup_take_lt, Hh', decide_False by (done || (intros [? _]%Hall; lia)).
      by rewrite Hg, lookup_app_l.
    - rewrite lookup_take_ge by lia. symmetry. apply lookup_ge_None. lia. }
  exists (drop (length h0) h'). split; [by rewrite <- Ht at 1; rewrite take_drop|].
  apply Forall_lookup. intros i o Hi. rewrite lookup_drop, Hh' in Hi.
  case_decide as Hd; [by simplify_eq|]. destruct o as [l|]; [|done].
  destruct Hd. apply Hall. split; [lia|by eexists].
Qed.
End SetValue.


Definition sample_additions : list addition :=
  [ Addition [1; 3; 6; 1; 2; 1] ASN_NULL None;
    Addition [1; 3; 6; 1; 4; 1] ASN_OCTET_STR (Some (replicate 50 65));
    Addition [1; 3; 6; 1; 4; 2] ASN_INTEGER (Some [254; 255]);
    Addition [1; 3; 6; 1; 4; 3] ASN_INTEGER (Some [1; 2; 3]) ].


(** A request has the variables the application added, in their order: when memory
    is granted and no size is refused, any sequence of additions succeeds, and afterwards
    the list shows the variables it had and then, for each addition, the name, the type
    and the value given; the value of an integer type widened to a long, of a counter, a
    float or a double cut to its size, and none for the null types. *)
Theorem added_variables_shown malloc_ok h vars bs l :
  grants malloc_ok → Forall2 (shows h) vars bs →
  Forall (λ a, sound a ∧ good_size (ad_type a) (ad_value a)) l →
  ∃ k vars', add_all malloc_ok h vars l = Ok (h ++ k, vars') ∧
    Forall2 (shows (h ++ k)) vars' (bs ++ (binding_of <$> l)).
Proof.
  intros Hm Hb Hl. revert h vars bs Hb. induction Hl as [|a l [Ha Hg] Hl IH]; intros h vars bs Hb.
  { exists [], vars. rewrite !app_nil_r. done. }
  destruct (add_spec malloc_ok h vars a Ha) as (h' & vars' & b & E & Hadd & Hb').
  { apply Forall_forall. intros v (i & Hi)%list_elem_of_lookup.
    destruct (Forall2_lookup_l _ _ _ _ _ Hb Hi) as (x & _ & Hx). apply (sh_self _ _ _ Hx). }
  specialize (Hb' Hg Hm). subst b. cbn [add_all]. rewrite E. m_step.
  inversion Hadd as [|k cv Hs Hk Hc Ho]; subst.
  destruct (IH (h ++ k) (vars ++ [cv]) (bs ++ [binding_of a])) as (k' & vs & -> & Hvs).
  { apply Forall2_app; [|by constructor; [|constructor]].
    eapply Forall2_impl; [exact Hb|]. intros. by apply shows_app. }
  exists (k ++ k'), vs. rewrite !(app_assoc h). split; [done|]. by rewrite <- (app_assoc bs) in Hvs.
Qed.

Lemma added_variables_shown_witness :
  ∃ k vars', add_all (λ _, true) [] [] (take 3 sample_additions) = Ok ([] ++ k, vars') ∧
    Forall2 (shows ([] ++ k)) vars' ([] ++ (binding_of <$> take 3 sample_additions)).
Proof.
  apply (added_variables_shown (λ _, true) [] [] [] (take 3 sample_additions)).
  - by intros n _.
  - constructor.
  - repeat constructor; by vm_compute.
Defined.

(** ** Integers *)

(** The object that holds the integer [n] in [size] octets. *)
Definition int_object (size : nat) (n : Z) : list Z := rev (be_bytes size n).

Lemma length_int_object size n : length (int_object size n) = size.
Proof. unfold int_object. by rewrite length_rev, length_be_bytes. Qed.

(** An integer that [size] octets hold, signed for ASN_INTEGER. *)
Definition int_fits (type : Z) (size : nat) (n : Z) : Prop :=
  let bits := 8 * Z.of_nat (size `min` 4)%nat in
  if type =? ASN_INTEGER then - 2 ^ (bits - 1) ≤ n < 2 ^ (bits - 1) else 0 ≤ n < 2 ^ bits.

Lemma sign_extend_low w n :
  0 < w → - 2 ^ (w - 1) ≤ n < 2 ^ (w - 1) → sign_extend w (n mod 2 ^ w) = n.
Proof.
  intros Hw Hn. unfold sign_extend.
  assert (2 ^ w = 2 * 2 ^ (w - 1)) as E by (rewrite <- Z.pow_succ_r by lia; f_equal; lia).
  destruct (Z_lt_le_dec n 0) as [Hneg|Hpos].
  - rewrite <- (Z.mod_add n 1), Z.mod_small by lia.
    destruct (Z.ltb_spec (n + 1 * 2 ^ w) (2 ^ (w - 1))); lia.
  - rewrite Z.mod_small by lia. by destruct (Z.ltb_spec n (2 ^ (w - 1))); [|lia].
Qed.

Lemma widen_int_object type size n :
  size ∈ [1; 2; 4; 8]%nat → int_fits type size n →
  ∃ w, widen (type =? ASN_INTEGER) (int_object size n) (Z.of_nat size) = Ok (Some w) ∧ u32 w = u32 n.
Proof.
  intros Hsz Hf. unfold int_fits in Hf. cbv zeta in Hf.
  repeat (apply elem_of_cons in Hsz as [->|Hsz]); [..|by apply elem_of_nil in Hsz].
  - exists n. split; [|done]. change (int_object 1 n) with [n / 1 mod 2 ^ 8]. rewrite Z.div_1_r.
    unfold widen. change (Z.of_nat 1 =? SIZEOF_INT) with false. change (Z.of_nat 1 =? SIZEOF_INTMAX_T) with false.
    change (Z.of_nat 1 =? SIZEOF_SHORT) with false. change (Z.of_nat 1 =? 1) with true. cbn match.
    change (rd [n mod 2 ^ 8] 0) with (Ok (n mod 2 ^ 8)). m_step.
    change (8 * Z.of_nat (1 `min` 4)) with 8 in Hf.
    destruct (type =? ASN_INTEGER); [by rewrite (sign_extend_low 8)|].
    by rewrite Z.mod_small.
  - exists n. split; [|done]. change (int_object 2 n) with [n / 1 mod 2 ^ 8; n / 2 ^ 8 mod 2 ^ 8].
    rewrite Z.div_1_r. unfold widen. change (Z.of_nat 2 =? SIZEOF_INT) with false.
    change (Z.of_nat 2 =? SIZEOF_INTMAX_T) with false. change (Z.of_nat 2 =? SIZEOF_SHORT) with true. cbn match.
    change (rd [n mod 2 ^ 8; n / 2 ^ 8 mod 2 ^ 8] 0) with (Ok (n mod 2 ^ 8)).
    change (rd [n mod 2 ^ 8; n / 2 ^ 8 mod 2 ^ 8] 1) with (Ok (n / 2 ^ 8 mod 2 ^ 8)).
    m_step.
    assert (n mod 2 ^ 8 + 256 * (n / 2 ^ 8 mod 2 ^ 8) = n mod 2 ^ 16) as ->.
    { change (2 ^ 16) with (2 ^ 8 * 2 ^ 8). by rewrite Z.rem_mul_r by lia. }
    change (8 * Z.of_nat (2 `min` 4)) with 16 in Hf.
    destruct (type =? ASN_INTEGER); [by rewrite (sign_extend_low 16)|].
    by rewrite Z.mod_small.
  - exists (u32 n). change (int_object 4 n) with (store32 n). unfold widen. change (Z.of_nat 4) with SIZEOF_INT.
    rewrite Z.eqb_refl, obj32_single. split; [done|]. by rewrite u32_id by apply u32_range.
  - exists (u32 n). unfold widen. change (Z.of_nat 8 =? SIZEOF_INT) with false.
    change (Z.of_nat 8 =? SIZEOF_INTMAX_T) with true. cbn match.
    rewrite rd_list_spec by (rewrite length_int_object; lia). m_step.
    change (take 4 (take 8 (drop 0 (int_object 8 n)))) with (store32 n). rewrite load32_store32. split; [done|].
    by rewrite u32_id by apply u32_range.
Qed.

(** An integer may be handed over in an object of one, two, four or eight octets: for
    each of the integer types and every integer that the object holds, signed for
    ASN_INTEGER and unsigned otherwise, and that fits 32 bits, snmp_set_var_value returns 0
    and leaves in the variable a long whose value is that integer. *)
Theorem set_integer_any_width malloc_ok h cv size n :
  kind_of (cv_type cv) = KInteger → size ∈ [1; 2; 4; 8]%nat → int_fits (cv_type cv) size n →
  block_of (cv_val cv) = [] → zlen (cv_buf cv) = SIZEOF_BUF →
  ∃ cv', snmp_set_var_value malloc_ok h cv (Some (int_object size n)) (Z.of_nat size) = Ok (0, h, cv') ∧
    cv_val_len cv' = SIZEOF_LONG ∧
    ∃ obj, deref h (cv_val cv') (cv_buf cv') = Ok obj ∧
      (if cv_type cv =? ASN_INTEGER then var_long obj else var_ulong obj) = Ok n.
Proof.
  intros Hk Hsz Hf Hp Hb. destruct (widen_int_object _ _ _ Hsz Hf) as (w & Hw & Huw).
  unfold snmp_set_var_value.
  replace (match cv_val cv with PHeap b => free h b | _ => Ok h end) with (Ok h) by (by destruct (cv_val cv)).
  m_step. assert (Z.of_nat size =? 0 = false ∧ SIZEOF_BUF <? Z.of_nat size = false) as [-> ->].
  { repeat (apply elem_of_cons in Hsz as [->|Hsz]); [done..|by apply elem_of_nil in Hsz]. }
  cbn match. cbn [cv_type set_val]. rewrite Hk, Hw. m_step. cbn [cv_buf set_val].
  rewrite wr_list_eq by (rewrite length_store32; unfold zlen, SIZEOF_BUF in Hb; lia). m_step.
  eexists. split; [done|]. split; [done|]. cbn [cv_val cv_buf set_val deref]. eexists. split; [done|].
  rewrite take_0, app_nil_l. unfold var_long, var_ulong. rewrite obj32_head. m_step. rewrite Huw.
  unfold int_fits in Hf. cbv zeta in Hf. assert (2 ^ (8 * Z.of_nat (size `min` 4)) ≤ 2 ^ 32) by (apply Z.pow_le_mono_r; lia).
  destruct (cv_type cv =? ASN_INTEGER); [|by rewrite u32_id by lia].
  rewrite s32_u32, s32_id; [done|].
  assert (2 ^ (8 * Z.of_nat (size `min` 4) - 1) ≤ 2 ^ 31) by (apply Z.pow_le_mono_r; lia). lia.
Qed.

Lemma set_integer_any_width_witness :
  ∃ cv', snmp_set_var_value (λ _, true) [] (set_type (cleared_var PLocal) ASN_INTEGER)
      (Some (int_object 2 (-2))) 2 = Ok (0, [], cv') ∧
    cv_val_len cv' = SIZEOF_LONG ∧
    ∃ obj, deref [] (cv_val cv') (cv_buf cv') = Ok obj ∧ var_long obj = Ok (-2).
Proof.
  apply (set_integer_any_width (λ _, true) [] (set_type (cleared_var PLocal) ASN_INTEGER) 2 (-2));
    [done|apply (bool_decide_unpack _); by vm_compute|by vm_compute|done|done].
Defined.

(** A value of more than 40 octets that is announced but not given is written to through
    a null pointer. *)
Lemma set_missing_large_value malloc_ok h cv len :
  block_of (cv_val cv) = [] → SIZEOF_BUF < len →
  snmp_set_var_value malloc_ok h cv None len = UB.
Proof.
  intros Hp Hl. unfold snmp_set_var_value.
  replace (match cv_val cv with PHeap b => free h b | _ => Ok h end) with (Ok h) by (by destruct (cv_val cv)).
  m_step. unfold SIZEOF_BUF in *. destruct (Z.ltb_spec 40 len); [|lia]. by destruct (len =? 0).
Qed.

(** A counter announced with fewer octets than a counter has is read beyond its end. *)
Lemma set_short_counter malloc_ok h cv v :
  kind_of (cv_type cv) = KCounter64 → block_of (cv_val cv) = [] → 0 < zlen v < SIZEOF_COUNTER64 →
  snmp_set_var_value malloc_ok h cv (Some v) (zlen v) = UB.
Proof.
  intros Hk Hp Hv. unfold snmp_set_var_value, SIZEOF_COUNTER64, SIZEOF_BUF in *.
  replace (match cv_val cv with PHeap b => free h b | _ => Ok h end) with (Ok h) by (by destruct (cv_val cv)).
  m_step. destruct (Z.eqb_spec (zlen v) 0); [lia|]. destruct (Z.ltb_spec 40 (zlen v)); [lia|].
  cbn [cv_type set_val]. rewrite Hk. unfold keep_local.
  assert (∀ l p k, (length l < p + k)%nat → (0 < k)%nat → rd_list l p k = UB) as Hrd.
  { intros l p k. revert p. induction k as [|k IH]; intros p Hl Hk'; [lia|]. cbn [rd_list].
    unfold rd. destruct (l !! p) as [x|] eqn:E; m_step; [|done].
    destruct k as [|k]; [apply lookup_lt_Some in E; lia|]. rewrite IH by lia. done. }
  rewrite Hrd by (unfold zlen in *; lia). done.
Qed.

(** In that run two of the four variables are added, one finds no memory for its value,
    one has a bad size; four blocks were allocated for the variables and two of them are
    released at once. *)
Example sample_additions_blocks :
  match add_all (λ n, negb (n =? 51)) [Some [7]] [] sample_additions with
  | Ok (h, vars) => length vars = 2%nat ∧ h = [Some [7]; Some []; None; Some []; None] ∧
      snmp_free_varbind h vars = Ok [Some [7]; None; None; None; None]
  | _ => False
  end.
Proof. by vm_compute. Qed.
