(* ===== verification/ConfigText.v ===== *)
(** * Words and octet strings in configuration files: snmplib/read_config.c

    A line is a C string, the list of its characters without the NUL; a pointer into it is
    the rest of the line from there on, and [None] a null pointer.  A destination is an
    array with a position.  Characters are those of the C locale.

    The theorems: copy_nword takes out exactly the next word, cut to the room there is, and
    never writes beyond it; an octet string is read back as it was saved. *)

From S2P Require Import Prelude Ber Scapi.
From stdpp Require Import prelude numbers list.
From Stdlib Require Import ZArith Lia.
Open Scope Z_scope.

Definition is_space (c : Z) : bool := ((9 <=? c) && (c <=? 13)) || (c =? 32).
Definition is_digit (c : Z) : bool := (48 <=? c) && (c <=? 57).
Definition is_alpha (c : Z) : bool := ((65 <=? c) && (c <=? 90)) || ((97 <=? c) && (c <=? 122)).

Definition QUOTE : Z := 34.
Definition APOSTROPHE : Z := 39.
Definition BACKSLASH : Z := 92.
Definition HASH : Z := 35.

(** ** Skipping *)

Fixpoint drop_while (f : Z → bool) (s : list Z) : list Z :=
  match s with
  | [] => []
  | c :: s' => if f c then drop_while f s' else s
  end.

(** The end of the line and a comment give a null pointer. *)
Definition unless_end (s : list Z) : option (list Z) :=
  match s with
  | [] => None
  | c :: _ => if c =? HASH then None else Some s
  end.

Definition skip_white (ptr : option (list Z)) : option (list Z) :=
  match ptr with None => None | Some s => unless_end (drop_while is_space s) end.

Definition skip_not_white (ptr : option (list Z)) : option (list Z) :=
  match ptr with None => None | Some s => unless_end (drop_while (λ c, negb (is_space c)) s) end.

Definition skip_token (ptr : option (list Z)) : option (list Z) :=
  skip_white (skip_not_white (skip_white ptr)).

(** ** Copying a word *)

(** The destination: the array, where [to] points, and the [len] that is left. *)
Record dest := Dest { d_buf : list Z; d_pos : nat; d_left : Z }.

(** [if (len > 0) { *to++ = c; if (--len == 0) *(to - 1) = 0; }] *)
Definition put_char (d : dest) (c : Z) : M dest :=
  if 0 <? d_left d then
    buf ← wr (d_buf d) (d_pos d) c;
    let len := d_left d - 1 in
    buf ← (if len =? 0 then wr buf (d_pos d) 0 else Ok buf);
    Ok (Dest buf (S (d_pos d)) len)
  else Ok d.

(** The loops: up to the character [stop] accepts; a backslash takes the next character
    as it is. *)
Fixpoint copy_loop (stop : Z → bool) (from : list Z) (d : dest) : M (list Z * dest) :=
  match from with
  | [] => Ok ([], d)
  | c :: rest =>
      if stop c then Ok (from, d)
      else
        match rest with
        | e :: rest' =>
            if c =? BACKSLASH then d ← put_char d e; copy_loop stop rest' d
            else d ← put_char d c; copy_loop stop rest d
        | [] => d ← put_char d c; Ok ([], d)
        end
  end.

Definition copy_nword (from : option (list Z)) (to : option (list Z)) (len : Z)
    : M (option (list Z) * option (list Z)) :=
  match from, to with
  | Some from, Some to =>
      let d := Dest to 0 len in
      '(from, d) ← match from with
                   | c :: rest =>
                       if (c =? QUOTE) || (c =? APOSTROPHE) then
                         '(from, d) ← copy_loop (λ x, x =? c) rest d;
                         Ok (drop 1 from, d)
                       else copy_loop is_space from d
                   | [] => copy_loop is_space from d
                   end;
      to ← (if 0 <? d_left d then wr (d_buf d) (d_pos d) 0 else Ok (d_buf d));
      Ok (skip_white (Some from), Some to)
  | _, _ => Ok (None, to)
  end.

(** ** Saving an octet string *)

Definition printable (c : Z) : bool := is_alpha c || is_digit c || (c =? 32).

(** [printf("%02x")] of an octet *)
Definition hex_digit (v : Z) : Z := if v <? 10 then 48 + v else 87 + v.
Definition hex2 (c : Z) : list Z := [hex_digit (c / 16); hex_digit (c mod 16)].

Fixpoint count_printable (str : list Z) (n : nat) : M nat :=
  match n with
  | O => Ok O
  | S n =>
      match str with
      | [] => UB
      | c :: str => if printable c then k ← count_printable str n; Ok (S k) else Ok O
      end
  end.

(** The text written at [saveto], without the NUL behind it. *)
Definition octet_text (str : option (list Z)) (len : Z) : M (list Z) :=
  match str with
  | None => Ok [QUOTE; QUOTE]
  | Some str =>
      let n := Z.to_nat (s32 len) in
      i ← count_printable str n;
      s ← rd_list str 0 n;
      if negb (len =? 0) && (Z.of_nat i =? s32 len) then Ok (QUOTE :: s ++ [QUOTE])
      else Ok ([48; 120] ++ concat (hex2 <$> s))
  end.

(** The buffer and the position behind the text. *)
Definition read_config_save_octet_string (buf : list Z) (saveto : nat) (str : option (list Z))
    (len : Z) : M (list Z * nat) :=
  t ← octet_text str len;
  buf ← wr_list buf saveto (t ++ [0]);
  Ok (buf, (saveto + length t)%nat).

(** ** Reading an octet string *)

Definition hex_value (c : Z) : option Z :=
  if is_digit c then Some (c - 48)
  else if (65 <=? c) && (c <=? 70) then Some (c - 55)
  else if (97 <=? c) && (c <=? 102) then Some (c - 87)
  else None.

(** [sscanf(readfrom, "%2x", &tmp)]: white space is skipped; at most two characters are
    taken, of which the first may be a sign; "0x" alone is not a number. *)
Definition scan_2x (s : list Z) : option Z :=
  match drop_while is_space s with
  | [] => None
  | c :: s =>
      match hex_value c with
      | Some a =>
          match s with
          | [] => Some a
          | e :: _ =>
              match hex_value e with
              | Some b => Some (16 * a + b)
              | None => if (c =? 48) && ((e =? 120) || (e =? 88)) then None else Some a
              end
          end
      | None =>
          if (c =? 43) || (c =? 45) then
            match s with
            | e :: _ => v ← hex_value e; Some (if c =? 45 then u32 (- v) else v)
            | [] => None
            end
          else None
      end
  end.

(** The loop that converts [n] pairs of digits; [None] is [return NULL] from within. *)
Fixpoint hex_loop (n : nat) (readfrom : list Z) (dst : list Z) (cptr : nat)
    : M (option (list Z * list Z)) :=
  match n with
  | O => Ok (Some (readfrom, dst))
  | S n =>
      match scan_2x readfrom with
      | None => Ok None
      | Some tmp => dst ← wr dst cptr (u8 tmp); hex_loop n (drop 2 readfrom) dst (S cptr)
      end
  end.

(** [strncasecmp(readfrom, "0x", 2) == 0] *)
Definition starts_hex (s : list Z) : bool :=
  match s with
  | a :: b :: _ => (a =? 48) && ((b =? 120) || (b =? 88))
  | _ => false
  end.

(** [strlen] of the text in an array; no NUL in it is undefined behaviour. *)
Fixpoint array_strlen (a : list Z) : M Z :=
  match a with
  | [] => UB
  | c :: a => if c =? 0 then Ok 0 else n ← array_strlen a; Ok (n + 1)
  end.

Section Reading.
(** Which calls of malloc succeed, and what fresh memory holds. *)
Variable malloc_ok : Z → bool.
Variable garbage : nat → list Z.

Definition fresh_block (n : Z) : list Z := take (Z.to_nat n) (garbage (Z.to_nat n)).

(** The hexadecimal branch, [readfrom] being behind "0x". *)
Definition read_hex (readfrom : list Z) (str : option (list Z)) (len : Z)
    : M (option (list Z) * option (list Z) * Z) :=
  let cptr1 := skip_not_white (Some readfrom) in
  let ilen := match cptr1 with
              | Some c => zlen readfrom - zlen c
              | None => zlen readfrom
              end in
  if negb (ilen mod 2 =? 0) then Ok (None, str, len)
  else
    let ilen := ilen / 2 in
    match str with
    | None =>
        if malloc_ok (u32 (ilen + 1)) then
          r ← hex_loop (Z.to_nat ilen) readfrom (fresh_block (ilen + 1)) 0;
          match r with
          | Some (rest, dst) => Ok (skip_white (Some rest), Some dst, ilen)
          | None => Ok (None, Some (fresh_block (ilen + 1)), ilen)
          end
        else Ok (None, None, len)
    | Some dst =>
        if len <? ilen then Ok (skip_white (skip_not_white (Some readfrom)), str, len)
        else
          r ← hex_loop (Z.to_nat ilen) readfrom dst 0;
          match r with
          | Some (rest, dst) => Ok (skip_white (Some rest), Some dst, ilen)
          | None => Ok (None, Some dst, ilen)
          end
    end.

(** The results are the return value, [*str] and [*len].  After a conversion that failed
    the contents of [*str] do not matter and are given as they were before. *)
Definition read_config_read_octet_string (readfrom : option (list Z)) (str : option (list Z))
    (len : Z) : M (option (list Z) * option (list Z) * Z) :=
  match readfrom with
  | None => Ok (None, str, len)
  | Some readfrom =>
      if starts_hex readfrom then read_hex (drop 2 readfrom) str len
      else
        match str with
        | None =>
            '(rest, buf) ← copy_nword (Some readfrom) (Some (fresh_block SNMP_MAXBUF)) SNMP_MAXBUF;
            n ← array_strlen (default [] buf);
            if malloc_ok (u32 (n + 1)) then
              s ← rd_list (default [] buf) 0 (Z.to_nat (n + 1));
              Ok (rest, Some s, n)
            else Ok (None, None, n)
        | Some dst =>
            '(rest, buf) ← copy_nword (Some readfrom) (Some dst) (s32 len);
            n ← array_strlen (default [] buf);
            Ok (rest, buf, n)
        end
  end.

End Reading.

(** ** Words *)

(** The characters up to one that [stop] accepts, backslashes taken away, and the rest. *)
Fixpoint word (stop : Z → bool) (s : list Z) : list Z * list Z :=
  match s with
  | [] => ([], [])
  | c :: rest =>
      if stop c then ([], s)
      else
        match rest with
        | e :: rest' =>
            if c =? BACKSLASH then let '(t, r) := word stop rest' in (e :: t, r)
            else let '(t, r) := word stop rest in (c :: t, r)
        | [] => ([c], [])
        end
  end.

(** The next word of a line: within quotes, or up to white space. *)
Definition next_word (s : list Z) : list Z * list Z :=
  match s with
  | c :: rest =>
      if (c =? QUOTE) || (c =? APOSTROPHE) then
        let '(t, r) := word (λ x, x =? c) rest in (t, drop 1 r)
      else word is_space s
  | [] => ([], [])
  end.

Fixpoint put_all (d : dest) (t : list Z) : M dest :=
  match t with
  | [] => Ok d
  | c :: t => d ← put_char d c; put_all d t
  end.

Lemma copy_loop_word stop s d :
  copy_loop stop s d = (d ← put_all d (word stop s).1; Ok ((word stop s).2, d)).
Proof.
  remember (length s) as n eqn:Hn. revert s d Hn.
  induction n as [n IH] using lt_wf_ind. intros s d ->.
  destruct s as [|c rest]; [done|]. cbn [copy_loop word]. destruct (stop c); [done|].
  destruct rest as [|e rest].
  { cbn [fst snd put_all]. by destruct (put_char d c). }
  destruct (c =? BACKSLASH).
  - pose proof (IH (length rest)) as IH1. destruct (word stop rest) as [t r] eqn:Ew. cbn [fst snd put_all].
    destruct (put_char d e) as [d'| |]; m_step; [|done..].
    rewrite IH1 by (simpl; lia || done). by rewrite Ew.
  - pose proof (IH (length (e :: rest))) as IH1. destruct (word stop (e :: rest)) as [t r] eqn:Ew.
    cbn [fst snd put_all]. destruct (put_char d c) as [d'| |]; m_step; [|done..].
    rewrite IH1 by (simpl; lia || done). by rewrite Ew.
Qed.

(** The destination after [t] was put into it at the end of [w], with [left] to go. *)
Lemma put_all_spec t : ∀ w junk left,
  0 ≤ left ≤ zlen junk →
  put_all (Dest (w ++ junk) (length w) left) t
  = Ok (if zlen t <? left
        then Dest (w ++ t ++ drop (length t) junk) (length w + length t) (left - zlen t)
        else if left =? 0 then Dest (w ++ junk) (length w) 0
        else Dest (w ++ take (Z.to_nat (left - 1)) t ++ 0 :: drop (Z.to_nat left) junk)
               (length w + Z.to_nat left) 0).
Proof.
  induction t as [|c t IH]; intros w junk left Hl; cbn [put_all].
  { change (zlen []) with 0. destruct (Z.ltb_spec 0 left).
    - simpl. by rewrite drop_0, Nat.add_0_r, Z.sub_0_r.
    - by replace left with 0 by lia. }
  rewrite zlen_cons. pose proof (zlen_nonneg t). unfold put_char. cbn [d_left d_buf d_pos].
  destruct (Z.ltb_spec 0 left) as [Hpos|Hpos].
  2: { replace left with 0 in * by lia. m_step. rewrite IH by lia.
       destruct (Z.ltb_spec (zlen t) 0); [lia|]. by destruct (Z.ltb_spec (1 + zlen t) 0); [lia|]. }
  destruct junk as [|j junk]; [unfold zlen in Hl; simpl in Hl; lia|]. rewrite zlen_cons in Hl.
  rewrite wr_app. m_step. destruct (Z.eqb_spec (left - 1) 0) as [E|E].
  - replace left with 1 in * by lia. rewrite wr_app. m_step.
    change (w ++ 0 :: junk) with (w ++ [0] ++ junk). rewrite app_assoc.
    replace (S (length w)) with (length (w ++ [0])) by (rewrite length_app; simpl; lia).
    change (1 - 1) with 0. rewrite IH by lia.
    destruct (Z.ltb_spec (zlen t) 0); [lia|]. destruct (Z.ltb_spec (1 + zlen t) 1); [lia|].
    cbn [Z.eqb]. f_equal. rewrite <- app_assoc, length_app. simpl. by rewrite drop_0.
  - m_step. change (w ++ c :: junk) with (w ++ [c] ++ junk). rewrite app_assoc.
    replace (S (length w)) with (length (w ++ [c])) by (rewrite length_app; simpl; lia).
    rewrite IH by lia. rewrite length_app. cbn [length].
    destruct (Z.eqb_spec (left - 1) 0); [lia|]. destruct (Z.eqb_spec left 0); [lia|].
    destruct (Z.ltb_spec (zlen t) (left - 1)), (Z.ltb_spec (1 + zlen t) left); try lia.
    + rewrite <- app_assoc. do 2 f_equal; [cbn; lia|lia].
    + replace (Z.to_nat (left - 1)) with (S (Z.to_nat (left - 1 - 1))) by lia.
      replace (Z.to_nat left) with (S (S (Z.to_nat (left - 1 - 1)))) by lia.
      rewrite <- app_assoc. f_equal. f_equal. lia.
Qed.

(** The array after a word was copied into the first [len] places of it. *)
Definition copied_word (t buf : list Z) (len : Z) : list Z :=
  if len =? 0 then buf
  else let w := take (Z.to_nat (len - 1)) t in w ++ 0 :: drop (S (length w)) buf.

Lemma put_all_end t buf len :
  0 ≤ len ≤ zlen buf →
  (d ← put_all (Dest buf 0 len) t; if 0 <? d_left d then wr (d_buf d) (d_pos d) 0 else Ok (d_buf d))
  = Ok (copied_word t buf len).
Proof.
  intros Hl. pose proof (put_all_spec t [] buf len Hl) as HP. cbn [app length] in HP. rewrite HP. m_step.
  unfold copied_word. pose proof (zlen_nonneg t).
  destruct (Z.ltb_spec (zlen t) len); cbn [d_left d_buf d_pos].
  - destruct (Z.ltb_spec 0 (len - zlen t)); [|lia]. destruct (Z.eqb_spec len 0); [lia|].
    rewrite (take_ge t) by (unfold zlen in *; lia). rewrite Nat.add_0_l.
    destruct (drop (length t) buf) as [|x r] eqn:Ed.
    { apply (f_equal length) in Ed. rewrite length_drop in Ed. unfold zlen in *. simpl in Ed. lia. }
    rewrite wr_app. do 3 f_equal. rewrite <- Nat.add_1_r, <- drop_drop, Ed. done.
  - destruct (Z.eqb_spec len 0); cbn [d_left d_buf d_pos]; [done|]. cbn match.
    rewrite length_take, Nat.min_l by (unfold zlen in *; lia). do 4 f_equal. lia.
Qed.

Lemma copy_nword_copies s buf len :
  0 ≤ len ≤ zlen buf →
  copy_nword (Some s) (Some buf) len
  = Ok (skip_white (Some (next_word s).2), Some (copied_word (next_word s).1 buf len)).
Proof.
  intros Hl. unfold copy_nword.
  assert (∀ (m : M (list Z * dest)), m = (d ← put_all (Dest buf 0 len) (next_word s).1; Ok ((next_word s).2, d)) →
    ('(from, d) ← m; to ← (if 0 <? d_left d then wr (d_buf d) (d_pos d) 0 else Ok (d_buf d));
     Ok (skip_white (Some from), Some to))
    = Ok (skip_white (Some (next_word s).2), Some (copied_word (next_word s).1 buf len))) as Hend.
  { intros m ->. pose proof (put_all_end (next_word s).1 buf len Hl) as HE.
    destruct (put_all _ _) as [d| |]; m_step; [|done..]. cbn [mbind M_bind] in HE. by rewrite HE. }
  apply Hend. unfold next_word. destruct s as [|c rest]; [done|].
  destruct ((c =? QUOTE) || (c =? APOSTROPHE)); rewrite copy_loop_word; [|done].
  destruct (word _ rest) as [t r]. cbn [fst snd]. by destruct (put_all _ t).
Qed.

(** Copy_nword stays within its room on any line: with an array of at least [len]
    characters it copies the next word, taken without its quotes and backslashes and cut
    to [len] - 1 characters, ends it with a NUL, and leaves the array from there on as it
    was; with no room at all it writes nothing; and it returns what follows the whole word
    and the white space behind it, also when the word was cut. *)
Theorem copy_nword_bounded s buf len :
  0 ≤ len ≤ zlen buf →
  let '(t, rest) := next_word s in
  ∃ buf', copy_nword (Some s) (Some buf) len = Ok (skip_white (Some rest), Some buf') ∧
    length buf' = length buf ∧ drop (Z.to_nat len) buf' = drop (Z.to_nat len) buf ∧
    (0 < len → ∃ junk, buf' = take (Z.to_nat (len - 1)) t ++ 0 :: junk).
Proof.
  intros Hl. pose proof (copy_nword_copies s buf len Hl) as HC.
  destruct (next_word s) as [t rest]. cbn [fst snd] in HC. eexists. split; [exact HC|].
  unfold copied_word. destruct (Z.eqb_spec len 0) as [->|Hn]; [by split_and!; [| |lia]|].
  cbv zeta. set (w := take (Z.to_nat (len - 1)) t).
  assert (length w < Z.to_nat len)%nat as Hw by (unfold w; rewrite length_take; lia).
  unfold zlen in Hl. split_and!.
  - rewrite length_app. cbn [length]. rewrite length_drop. lia.
  - rewrite drop_app_ge by lia. replace (Z.to_nat len - length w)%nat with (S (Z.to_nat len - length w - 1)) by lia.
    cbn [drop]. rewrite drop_drop. f_equal. lia.
  - intros _. by eexists.
Qed.

Lemma copy_nword_bounded_witness :
  let '(t, rest) := next_word [34; 97; 92; 34; 98; 99; 34; 32; 100] in
  ∃ buf', copy_nword (Some [34; 97; 92; 34; 98; 99; 34; 32; 100]) (Some [1; 2; 3; 4; 5]) 4
      = Ok (skip_white (Some rest), Some buf') ∧
    length buf' = length [1; 2; 3; 4; 5] ∧ drop (Z.to_nat 4) buf' = drop (Z.to_nat 4) [1; 2; 3; 4; 5] ∧
    (0 < 4 → ∃ junk, buf' = take (Z.to_nat (4 - 1)) t ++ 0 :: junk).
Proof.
  apply (copy_nword_bounded [34; 97; 92; 34; 98; 99; 34; 32; 100] [1; 2; 3; 4; 5] 4). by vm_compute.
Defined.

(** ** Saving and reading back *)

Lemma hex_value_digit v : 0 ≤ v < 16 → hex_value (hex_digit v) = Some v ∧ is_space (hex_digit v) = false.
Proof.
  intros Hv. assert (v ∈ Z.of_nat <$> seq 0 16) as Hin.
  { apply list_elem_of_fmap. exists (Z.to_nat v). split; [lia|]. apply elem_of_seq. lia. }
  clear Hv. revert v Hin. apply Forall_forall. apply (bool_decide_unpack _). by vm_compute.
Qed.

Lemma scan_hex2 c s : is_byte c → scan_2x (hex2 c ++ s) = Some c.
Proof.
  unfold is_byte. intros Hc. unfold scan_2x, hex2. cbn [app].
  destruct (hex_value_digit (c / 16)) as [H1 S1]; [split; [apply Z.div_pos|apply Z.div_lt_upper_bound]; lia|].
  destruct (hex_value_digit (c mod 16)) as [H2 _]; [apply Z.mod_pos_bound; lia|].
  cbn [drop_while]. rewrite S1, H1, H2. f_equal. pose proof (Z.div_mod c 16). lia.
Qed.

Lemma hex_loop_reads str : ∀ w junk rest,
  Forall is_byte str → (length str ≤ length junk)%nat →
  hex_loop (length str) (concat (hex2 <$> str) ++ rest) (w ++ junk) (length w)
  = Ok (Some (rest, w ++ str ++ drop (length str) junk)).
Proof.
  induction str as [|c str IH]; intros w junk rest Hb Hl; [by cbn; rewrite drop_0|].
  inversion Hb; subst. destruct junk as [|j junk]; [simpl in Hl; lia|].
  cbn [length hex_loop fmap list_fmap concat]. rewrite <- app_assoc, scan_hex2 by done.
  rewrite wr_app. m_step. rewrite u8_id by done. cbn [hex2 app drop].
  change (w ++ c :: junk) with (w ++ [c] ++ junk). rewrite app_assoc.
  replace (S (length w)) with (length (w ++ [c])) by (rewrite length_app; simpl; lia).
  rewrite drop_0, IH by (done || (simpl in Hl; lia)). by rewrite <- app_assoc.
Qed.

Lemma hex_not_white str rest :
  Forall is_byte str → (rest = [] ∨ ∃ c r, rest = c :: r ∧ is_space c = true) →
  drop_while (λ c, negb (is_space c)) (concat (hex2 <$> str) ++ rest) = rest.
Proof.
  intros Hb Hr. induction Hb as [|c str Hc Hb IH].
  - destruct Hr as [->|(c & r & -> & Hc)]; [done|]. cbn. by rewrite Hc.
  - cbn [fmap list_fmap concat hex2 app]. unfold is_byte in Hc.
    destruct (hex_value_digit (c / 16)) as [_ S1]; [split; [apply Z.div_pos|apply Z.div_lt_upper_bound]; lia|].
    destruct (hex_value_digit (c mod 16)) as [_ S2]; [apply Z.mod_pos_bound; lia|].
    cbn [drop_while]. rewrite S1, S2. exact IH.
Qed.

Lemma count_printable_spec str :
  ∃ k, count_printable str (length str) = Ok k ∧ (k ≤ length str)%nat ∧
    (k = length str ↔ Forall (λ c, printable c = true) str).
Proof.
  induction str as [|c str (k & E & Hk & IH)]; [by exists 0%nat|]. cbn [length count_printable].
  destruct (printable c) eqn:Ec.
  - rewrite E. m_step. exists (S k). split; [done|]. split; [lia|]. rewrite Forall_cons, <- IH.
    split; [intros; split; [done|lia]|intros [_ ?]; lia].
  - exists 0%nat. split; [done|]. split; [lia|]. split; [lia|]. rewrite Forall_cons. intros [? _]. congruence.
Qed.

Lemma quoted_word str rest :
  Forall (λ c, printable c = true) str →
  word (λ x, x =? QUOTE) (str ++ QUOTE :: rest) = (str, QUOTE :: rest).
Proof.
  induction 1 as [|c str Hc Hs IH]; [done|]. cbn [app word].
  assert (c ≠ QUOTE ∧ c ≠ BACKSLASH) as [H1 H2].
  { split; intros ->; done. }
  rewrite (proj2 (Z.eqb_neq c QUOTE) H1), (proj2 (Z.eqb_neq c BACKSLASH) H2).
  destruct (str ++ QUOTE :: rest) as [|e s] eqn:E; [by destruct str|]. by rewrite IH.
Qed.

Lemma array_strlen_text t junk :
  Forall (λ c, printable c = true) t → array_strlen (t ++ 0 :: junk) = Ok (zlen t).
Proof.
  induction 1 as [|c t Hc Ht IH]; [done|]. cbn [app array_strlen].
  destruct (Z.eqb_spec c 0) as [->|]; [done|]. rewrite IH. m_step. rewrite zlen_cons. f_equal. lia.
Qed.

(** What may stand behind a word: the end of the line or white space. *)
Definition word_end (rest : list Z) : Prop := rest = [] ∨ ∃ c r, rest = c :: r ∧ is_space c = true.

Lemma octet_text_saved str :
  zlen str < 2 ^ 31 →
  (str ≠ [] ∧ Forall (λ c, printable c = true) str ∧
   octet_text (Some str) (zlen str) = Ok (QUOTE :: str ++ [QUOTE])) ∨
  octet_text (Some str) (zlen str) = Ok ([48; 120] ++ concat (hex2 <$> str)).
Proof.
  intros Hs. pose proof (zlen_nonneg str). unfold octet_text. rewrite s32_id by lia.
  rewrite Z_to_nat_zlen. destruct (count_printable_spec str) as (k & -> & Hk & Hp). m_step.
  pose proof (rd_list_app str [] []) as HR. rewrite app_nil_l, app_nil_r in HR. cbn [length] in HR.
  rewrite HR. m_step.
  destruct (Z.eqb_spec (zlen str) 0) as [E|E]; [by right|]. cbn [negb andb].
  destruct (Z.eqb_spec (Z.of_nat k) (zlen str)) as [Ek|]; [left|by right].
  split; [by intros ->|]. split; [|done]. apply Hp. unfold zlen in Ek. lia.
Qed.

Lemma length_hex_text str : length (concat (hex2 <$> str)) = (2 * length str)%nat.
Proof. induction str as [|c str IH]; [done|]. rewrite fmap_cons. cbn [concat hex2 app length]. lia. Qed.

Lemma skip_hex_text str rest :
  Forall is_byte str → word_end rest →
  match skip_not_white (Some (concat (hex2 <$> str) ++ rest)) with
  | Some c => zlen (concat (hex2 <$> str) ++ rest) - zlen c
  | None => zlen (concat (hex2 <$> str) ++ rest)
  end = 2 * zlen str.
Proof.
  intros Hb Hr. unfold skip_not_white, zlen. rewrite hex_not_white, length_app, length_hex_text by done.
  destruct Hr as [->|(c & r & -> & Hc)]; cbn [unless_end length]; [lia|].
  destruct (Z.eqb_spec c HASH) as [->|]; [done|]. cbn [length]. lia.
Qed.

Section SavedAndRead.
Context (malloc_ok : Z → bool) (garbage : nat → list Z).
Hypothesis malloc_grants : ∀ n, malloc_ok n = true.
Hypothesis garbage_fills : ∀ n, (n ≤ length (garbage n))%nat.

Lemma length_fresh_block n : length (fresh_block garbage n) = Z.to_nat n.
Proof. unfold fresh_block. rewrite length_take. pose proof (garbage_fills (Z.to_nat n)). lia. Qed.

Lemma hex_text_read str rest len :
  Forall is_byte str → word_end rest →
  ∃ junk, read_config_read_octet_string malloc_ok garbage
      (Some (([48; 120] ++ concat (hex2 <$> str)) ++ rest)) None len
    = Ok (skip_white (Some rest), Some (str ++ junk), zlen str).
Proof.
  intros Hb Hr. unfold read_config_read_octet_string. rewrite <- app_assoc.
  change (starts_hex _) with true. cbn match. change (drop 2 ([48; 120] ++ ?s)) with s.
  unfold read_hex. rewrite skip_hex_text by done. rewrite Z.mul_comm, Z_mod_mult, Z_div_mult by lia.
  cbn [negb Z.eqb]. rewrite malloc_grants, Z_to_nat_zlen.
  pose proof (hex_loop_reads str [] (fresh_block garbage (zlen str + 1)) rest Hb) as HL.
  cbn [app length] in HL. rewrite HL by (rewrite length_fresh_block; unfold zlen; lia).
  m_step. by eexists.
Qed.

Lemma quoted_text_read str rest len :
  Forall (λ c, printable c = true) str → zlen str < SNMP_MAXBUF →
  read_config_read_octet_string malloc_ok garbage
    (Some ((QUOTE :: str ++ [QUOTE]) ++ rest)) None len
  = Ok (skip_white (Some rest), Some (str ++ [0]), zlen str).
Proof.
  intros Hp Hl. unfold read_config_read_octet_string. cbn [app]. rewrite <- app_assoc. cbn [app].
  assert (starts_hex (QUOTE :: str ++ QUOTE :: rest) = false) as ->.
  { cbn. by destruct (str ++ QUOTE :: rest). }
  rewrite copy_nword_copies by (unfold zlen; rewrite length_fresh_block; unfold SNMP_MAXBUF; lia).
  assert (next_word (QUOTE :: str ++ QUOTE :: rest) = (str, rest)) as ->.
  { unfold next_word. cbn [Z.eqb orb]. change (QUOTE =? QUOTE) with true. cbn match.
    by rewrite quoted_word. }
  m_step. cbn [fst snd default]. unfold copied_word. change (SNMP_MAXBUF =? 0) with false. cbn match.
  cbv zeta. rewrite take_ge by (unfold zlen in Hl; lia). unfold id. rewrite array_strlen_text by done. m_step.
  rewrite malloc_grants. set (junk := drop _ _).
  replace (Z.to_nat (zlen str + 1)) with (length (str ++ [0])) by (rewrite length_app; unfold zlen; simpl; lia).
  change (0 :: junk) with ([0] ++ junk). rewrite app_assoc.
  pose proof (rd_list_app (str ++ [0]) [] junk) as HR. cbn [app length] in HR. rewrite HR. by m_step.
Qed.

(** C40: an octet string that is saved is read back by a caller that passes no array of its
    own ([*str] is NULL).  In a buffer with room for it,
    read_config_save_octet_string writes the text of any octets, ended by a NUL, changes
    nothing else and returns the place of the NUL; and reading that text, at the end of a
    line or before white space, gives a new block that starts with the same octets, their
    number, and the rest of the line from its next word on.  This holds for text that is
    quoted and for text in hexadecimal, the empty string included, and needs that a quoted
    string is shorter than the buffer words are read into. *)
Theorem octet_string_saved_and_read str buf p rest len :
  Forall is_byte str → zlen str < 2 ^ 30 →
  (Forall (λ c, printable c = true) str → zlen str < SNMP_MAXBUF) →
  (p + 2 * length str + 3 ≤ length buf)%nat → word_end rest →
  ∃ t s,
    read_config_save_octet_string buf p (Some str) (zlen str)
      = Ok (take p buf ++ (t ++ [0]) ++ drop (p + length (t ++ [0])) buf, (p + length t)%nat) ∧
    read_config_read_octet_string malloc_ok garbage (Some (t ++ rest)) None len
      = Ok (skip_white (Some rest), Some s, zlen str) ∧
    take (length str) s = str.
Proof.
  intros Hb Hl Hp Hroom Hr. unfold read_config_save_octet_string.
  destruct (octet_text_saved str) as [(Hn & Hq & ->)| ->]; [lia|..]; m_step.
  - exists (QUOTE :: str ++ [QUOTE]), (str ++ [0]). split_and!.
    + rewrite wr_list_eq; [done|]. destruct str; [done|]. simpl. rewrite !length_app. simpl in *. lia.
    + by apply quoted_text_read; auto.
    + apply take_app_length.
  - destruct (hex_text_read str rest len Hb Hr) as [junk HR].
    exists ([48; 120] ++ concat (hex2 <$> str)), (str ++ junk). split_and!; [|done|apply take_app_length].
    rewrite wr_list_eq; [done|]. rewrite !length_app, length_hex_text. simpl. lia.
Qed.

End SavedAndRead.

Lemma octet_string_saved_and_read_witness :
  ∃ t s,
    read_config_save_octet_string (replicate 10 7) 1 (Some [0; 255]) (zlen [0; 255])
      = Ok (take 1 (replicate 10 7) ++ (t ++ [0]) ++ drop (1 + length (t ++ [0])) (replicate 10 7),
            (1 + length t)%nat) ∧
    read_config_read_octet_string (λ _, true) (λ n, replicate n 5) (Some (t ++ [32; 97])) None 0
      = Ok (skip_white (Some [32; 97]), Some s, zlen [0; 255]) ∧
    take (length [0; 255]) s = [0; 255].
Proof.
  apply (octet_string_saved_and_read (λ _, true) (λ n, replicate n 5)).
  - done.
  - intros n. by rewrite length_replicate.
  - apply (bool_decide_unpack _). by vm_compute.
  - by vm_compute.
  - intros _. by vm_compute.
  - cbn. lia.
  - right. by exists 32, [97].
Defined.

(** ** Reading into the caller's array *)

(** An array that is said to have no room keeps what it had, and the length stays 0. *)
Lemma hex_without_room malloc_ok garbage str rest dst :
  Forall is_byte str → str ≠ [] → word_end rest →
  read_config_read_octet_string malloc_ok garbage
    (Some (([48; 120] ++ concat (hex2 <$> str)) ++ rest)) (Some dst) 0
  = Ok (skip_white (Some rest), Some dst, 0).
Proof.
  intros Hb Hn Hr. unfold read_config_read_octet_string. rewrite <- app_assoc.
  change (starts_hex _) with true. cbn match. change (drop 2 ([48; 120] ++ ?s)) with s.
  unfold read_hex. rewrite skip_hex_text by done. rewrite Z.mul_comm, Z_mod_mult, Z_div_mult by lia.
  cbn [negb Z.eqb]. destruct (Z.ltb_spec 0 (zlen str)) as [_|E].
  2: { destruct str; [done|]. rewrite zlen_cons in E. pose proof (zlen_nonneg str). lia. }
  unfold skip_not_white. rewrite hex_not_white by done.
  destruct Hr as [->|(c & r & -> & Hc)]; cbn [unless_end]; [done|].
  by destruct (Z.eqb_spec c HASH) as [->|].
Qed.

(** A string that fills the caller's array is read whole when it is in hexadecimal, but
    loses its last octet to the NUL when it is quoted. *)
Example quoted_loses_last :
  read_config_read_octet_string (λ _, true) (λ n, replicate n 5) (Some [34; 97; 98; 99; 34]) (Some [1; 1; 1]) 3
    = Ok (None, Some [97; 98; 0], 2) ∧
  read_config_read_octet_string (λ _, true) (λ n, replicate n 5) (Some [48; 120; 54; 49; 54; 50; 54; 51])
    (Some [1; 1; 1]) 3
    = Ok (None, Some [97; 98; 99], 3).
Proof. by vm_compute. Qed.
