(* ===== verification/SlList.v ===== *)
(** * Linked list containers: snmplib/container_list_ssll.c

    Models the sorted list, the stack and the queue that share one implementation, with
    their iterator.  The nodes of a container are a heap with pointers; a [void *] that
    refers to an entry is an [option A], as in BinaryArray, and the comparison routine is
    a parameter.  [alloc] gives the address of the next node.  The methods are called
    through a container, which is not null; the registry of container types is left out.

    The theorems: the pointer operations are those of a list, for all three kinds; a
    sorted list stays sorted; what a search finds, which in a sorted list is the entry after
    the place of a key that is missing, where container.h promises none; and that an iterator visits each entry, and none once the
    container has changed. *)

From S2P Require Import Prelude BinaryArray ArraySort ArraySet.
From stdpp Require Import prelude numbers list gmap sorting.
From Stdlib Require Import ZArith Lia.
Open Scope Z_scope.

Record sl_node (A : Type) := SlNode { sn_data : option A; sn_next : option nat }.
Arguments SlNode {A}.
Arguments sn_data {A}.
Arguments sn_next {A}.

Definition SIZEOF_SL_NODE : Z := 8.
Definition SIZEOF_SL_CONTAINER : Z := 100.
Definition SIZEOF_SSLL_ITERATOR : Z := 40.

(** The nodes it owns, [c.sync] and the fields of its own. *)
Record sl_container (A : Type) := SlContainer {
  sl_nodes : gmap nat (sl_node A);
  sl_sync : Z;
  sl_count : Z;
  sl_head : option nat;
  sl_unsorted : Z;
  sl_fifo : Z;
}.
Arguments SlContainer {A}.
Arguments sl_nodes {A}.
Arguments sl_sync {A}.
Arguments sl_count {A}.
Arguments sl_head {A}.
Arguments sl_unsorted {A}.
Arguments sl_fifo {A}.

Record ssll_iterator := SsllIterator { si_sync : Z; si_pos : option nat; si_last : option nat }.

(** What an iterator may return: nothing, an entry, or the address of a node. *)
Inductive sl_ptr (A : Type) := SlNull | SlData (a : A) | SlAddr (p : nat).
Arguments SlNull {A}.
Arguments SlData {A}.
Arguments SlAddr {A}.

Section Lists.
Context {A : Type}.
Variable compare : A → A → M Z.
Variable calloc_ok : Z → Z → bool.
Variable alloc : gmap nat (sl_node A) → nat.

Notation sl_heap := (gmap nat (sl_node A)).

Definition sl_load (h : sl_heap) (p : nat) : M (sl_node A) :=
  match h !! p with Some n => Ok n | None => UB end.

(** [p->next = q] *)
Definition sl_link (h : sl_heap) (p : nat) (q : option nat) : M sl_heap :=
  n ← sl_load h p; Ok (<[p := SlNode (sn_data n) q]> h).

Definition sl_free (h : sl_heap) (p : nat) : M sl_heap :=
  _ ← sl_load h p; Ok (delete p h).

(** A list longer than the heap is cyclic. *)
Definition sl_fuel (c : sl_container A) : nat := S (size (sl_nodes c)).

(** ** Searching *)

(** Where the loop stops, and the last result of the comparison. *)
Fixpoint sl_find_loop (fuel : nat) (h : sl_heap) (unsorted : Z) (key : A) (curr : option nat) (rc : Z)
    : M (option nat * Z) :=
  match fuel, curr with
  | O, _ => UB
  | S _, None => Ok (None, rc)
  | S fuel, Some p =>
      n ← sl_load h p;
      rc ← on_ptrs compare (sn_data n) (Some key);
      if rc =? 0 then Ok (curr, rc)
      else if (0 <? rc) && (unsorted =? 0) then Ok (curr, rc)
      else sl_find_loop fuel h unsorted key (sn_next n) rc
  end.

Definition _get (c : sl_container A) (key : option A) (exact : bool) : M (option A) :=
  curr ← match sl_head c, key with
         | Some _, Some key =>
             '(curr, rc) ← sl_find_loop (sl_fuel c) (sl_nodes c) (sl_unsorted c) key (sl_head c) 0;
             match curr with
             | Some p =>
                 if negb exact && (rc =? 0) then n ← sl_load (sl_nodes c) p; Ok (sn_next n)
                 else Ok curr
             | None => Ok None
             end
         | curr, _ => Ok curr
         end;
  match curr with
  | Some p => n ← sl_load (sl_nodes c) p; Ok (sn_data n)
  | None => Ok None
  end.

Definition _ssll_find (c : sl_container A) (data : option A) : M (option A) :=
  match data with None => Ok None | Some _ => _get c data true end.

Definition _ssll_find_next (c : sl_container A) (data : option A) : M (option A) := _get c data false.

(** ** Changing the list *)

(** [while (NULL != curr->next) curr = curr->next;] *)
Fixpoint sl_tail_loop (fuel : nat) (h : sl_heap) (p : nat) : M nat :=
  match fuel with
  | O => UB
  | S fuel =>
      n ← sl_load h p;
      match sn_next n with None => Ok p | Some q => sl_tail_loop fuel h q end
  end.

(** [last] when the loop ends. *)
Fixpoint sl_place_loop (fuel : nat) (h : sl_heap) (data : option A) (last curr : option nat)
    : M (option nat) :=
  match fuel, curr with
  | O, _ => UB
  | S _, None => Ok last
  | S fuel, Some p =>
      n ← sl_load h p;
      rc ← on_ptrs compare (sn_data n) data;
      if 0 <? rc then Ok last else sl_place_loop fuel h data curr (sn_next n)
  end.

Definition _ssll_insert (c : sl_container A) (data : option A) : M (sl_container A * Z) :=
  if calloc_ok 1 SIZEOF_SL_NODE then
    let new_node := alloc (sl_nodes c) in
    let h := <[new_node := SlNode data None]> (sl_nodes c) in
    let done h head :=
      Ok (SlContainer h (u32 (sl_sync c + 1)) (u32 (sl_count c + 1)) (Some head)
            (sl_unsorted c) (sl_fifo c), 0) in
    match sl_head c with
    | None => done h new_node
    | Some hd =>
        if sl_unsorted c =? 1 then
          if sl_fifo c =? 1 then
            last ← sl_tail_loop (sl_fuel c) h hd;
            h ← sl_link h last (Some new_node);
            done h hd
          else h ← sl_link h new_node (Some hd); done h new_node
        else
          last ← sl_place_loop (sl_fuel c) h data None (Some hd);
          match last with
          | None => h ← sl_link h new_node (Some hd); done h new_node
          | Some p =>
              n ← sl_load h p;
              h ← sl_link h new_node (sn_next n);
              h ← sl_link h p (Some new_node);
              done h hd
          end
    end
  else Ok (c, -1).

(** The loop behind the first node: the node that was unlinked, if any. *)
Fixpoint sl_remove_loop (fuel : nat) (h : sl_heap) (unsorted : Z) (data : option A) (last : nat)
    (curr : option nat) : M (sl_heap * option nat) :=
  match fuel, curr with
  | O, _ => UB
  | S _, None => Ok (h, None)
  | S fuel, Some p =>
      n ← sl_load h p;
      rc ← on_ptrs compare (sn_data n) data;
      if rc =? 0 then h ← sl_link h last (sn_next n); Ok (h, curr)
      else if (0 <? rc) && (unsorted =? 0) then Ok (h, None)
      else sl_remove_loop fuel h unsorted data p (sn_next n)
  end.

Definition _ssll_remove (c : sl_container A) (data : option A) : M (sl_container A * Z) :=
  match sl_head c with
  | None => Ok (c, -1)
  | Some hd =>
      first ← sl_load (sl_nodes c) hd;
      here ← match data with
             | None => Ok true
             | Some _ => rc ← on_ptrs compare (sn_data first) data; Ok (rc =? 0)
             end;
      '(h, head, curr) ← (if (here : bool) then Ok (sl_nodes c, sn_next first, Some hd)
                          else '(h, curr) ← sl_remove_loop (sl_fuel c) (sl_nodes c) (sl_unsorted c)
                                              data hd (sn_next first);
                               Ok (h, Some hd, curr));
      match curr with
      | None => Ok (c, -2)
      | Some p =>
          h ← sl_free h p;
          Ok (SlContainer h (u32 (sl_sync c + 1)) (u32 (sl_count c - 1)) head
                (sl_unsorted c) (sl_fifo c), 0)
      end
  end.

Definition _ssll_size (c : sl_container A) : Z := sl_count c.

(** A function with a state of its own is called for each entry. *)
Fixpoint sl_each_loop {St : Type} (fuel : nat) (h : sl_heap) (f : St → option A → M St) (s : St)
    (curr : option nat) : M St :=
  match fuel, curr with
  | O, _ => UB
  | S _, None => Ok s
  | S fuel, Some p => n ← sl_load h p; s ← f s (sn_data n); sl_each_loop fuel h f s (sn_next n)
  end.

Definition _ssll_for_each {St : Type} (c : sl_container A) (f : St → option A → M St) (context : St)
    : M St :=
  sl_each_loop (sl_fuel c) (sl_nodes c) f context (sl_head c).

Fixpoint sl_clear_loop {St : Type} (fuel : nat) (h : sl_heap) (f : option (St → option A → M St))
    (s : St) (curr : option nat) : M (sl_heap * St) :=
  match fuel, curr with
  | O, _ => UB
  | S _, None => Ok (h, s)
  | S fuel, Some p =>
      n ← sl_load h p;
      '(h, s) ← match f with
                | Some f => h ← sl_link h p None; s ← f s (sn_data n); Ok (h, s)
                | None => Ok (h, s)
                end;
      h ← sl_free h p;
      sl_clear_loop fuel h f s (sn_next n)
  end.

Definition _ssll_clear {St : Type} (c : sl_container A) (f : option (St → option A → M St))
    (context : St) : M (sl_container A * St) :=
  '(h, s) ← sl_clear_loop (sl_fuel c) (sl_nodes c) f context (sl_head c);
  Ok (SlContainer h (u32 (sl_sync c + 1)) 0 None (sl_unsorted c) (sl_fifo c), s).

(** ** New containers *)

Definition netsnmp_container_get_ssll : option (sl_container A) :=
  if calloc_ok 1 SIZEOF_SL_CONTAINER then Some (SlContainer ∅ 0 0 None 0 0) else None.

Definition netsnmp_container_get_usll : option (sl_container A) :=
  sl ← netsnmp_container_get_ssll;
  Some (SlContainer (sl_nodes sl) (sl_sync sl) (sl_count sl) (sl_head sl) 1 (sl_fifo sl)).

Definition netsnmp_container_get_singly_linked_list (fifo : Z) : option (sl_container A) :=
  sl ← netsnmp_container_get_usll;
  Some (SlContainer (sl_nodes sl) (sl_sync sl) (sl_count sl) (sl_head sl) (sl_unsorted sl) fifo).

Definition netsnmp_container_get_fifo : option (sl_container A) :=
  netsnmp_container_get_singly_linked_list 1.

(** ** Iterator *)

(** Whether the container has not changed since. *)
Definition _ssll_it2cont (c : sl_container A) (it : ssll_iterator) : bool := sl_sync c =? si_sync it.

(** [p->data] *)
Definition sl_entry (c : sl_container A) (p : option nat) : M (option A) :=
  match p with None => Ok None | Some p => n ← sl_load (sl_nodes c) p; Ok (sn_data n) end.

Definition _ssll_iterator_curr (c : sl_container A) (it : ssll_iterator) : M (option A) :=
  if _ssll_it2cont c it then sl_entry c (si_pos it) else Ok None.

Definition _ssll_iterator_first (c : sl_container A) (it : ssll_iterator) : M (option A) :=
  if _ssll_it2cont c it then sl_entry c (sl_head c) else Ok None.

Definition _ssll_iterator_next (c : sl_container A) (it : ssll_iterator)
    : M (ssll_iterator * option A) :=
  if _ssll_it2cont c it then
    match si_pos it with
    | None => Ok (it, None)
    | Some p =>
        n ← sl_load (sl_nodes c) p;
        a ← sl_entry c (sn_next n);
        Ok (SsllIterator (si_sync it) (sn_next n) (si_last it), a)
    end
  else Ok (it, None).

(** The second call returns the node that the first one remembered, not its entry. *)
Definition _ssll_iterator_last (c : sl_container A) (it : ssll_iterator)
    : M (ssll_iterator * sl_ptr A) :=
  if _ssll_it2cont c it then
    match si_last it with
    | Some p => Ok (it, SlAddr p)
    | None =>
        match match si_pos it with Some p => Some p | None => sl_head c end with
        | None => Ok (it, SlNull)
        | Some n =>
            p ← sl_tail_loop (sl_fuel c) (sl_nodes c) n;
            a ← sl_entry c (Some p);
            Ok (SsllIterator (si_sync it) (si_pos it) (Some p),
                match a with Some a => SlData a | None => SlNull end)
        end
    end
  else Ok (it, SlNull).

Definition _ssll_iterator_reset (c : sl_container A) : ssll_iterator :=
  SsllIterator (sl_sync c) (sl_head c) None.

Definition _ssll_iterator_get (c : sl_container A) : option ssll_iterator :=
  if calloc_ok 1 SIZEOF_SSLL_ITERATOR then Some (_ssll_iterator_reset c) else None.
End Lists.

(** ** The nodes of a list *)

Section Nodes.
Context {A : Type}.
Notation sl_heap := (gmap nat (sl_node A)).
Notation cells := (list (nat * A)).

(** The heap with exactly the nodes of [l], an entry of which is an address and its data. *)
Fixpoint sl_build (l : cells) : sl_heap :=
  match l with
  | [] => ∅
  | (p, a) :: l => <[p := SlNode (Some a) (head l.*1)]> (sl_build l)
  end.

Lemma sl_build_None l p : p ∉ l.*1 → sl_build l !! p = None.
Proof.
  induction l as [|[q a] l IH]; cbn [sl_build]; intros Hp; [done|].
  rewrite fmap_cons in Hp. apply not_elem_of_cons in Hp as [Hq Hl].
  rewrite lookup_insert_ne by (cbn in Hq; congruence). auto.
Qed.

Lemma sl_build_fresh l p : sl_build l !! p = None → p ∉ l.*1.
Proof.
  induction l as [|[q a] l IH]; cbn [sl_build]; intros Hp; [apply not_elem_of_nil|].
  apply lookup_insert_None in Hp as [Hp Hq]. rewrite fmap_cons. apply not_elem_of_cons. split; [done|auto].
Qed.

Lemma sl_build_size l : NoDup l.*1 → size (sl_build l) = length l.
Proof.
  induction l as [|[q a] l IH]; [done|]. rewrite fmap_cons. intros [Hq Hl]%NoDup_cons.
  cbn [sl_build length]. rewrite map_size_insert_None by (by apply sl_build_None). by rewrite IH.
Qed.

Lemma head_middle (pre post post' : cells) p a :
  head (pre ++ (p, a) :: post).*1 = head (pre ++ (p, a) :: post').*1.
Proof. by destruct pre. Qed.

Lemma last_address (pre : cells) p a : last (pre ++ [(p, a)]).*1 = Some p.
Proof. rewrite fmap_app. apply last_snoc. Qed.

Lemma nodup_middle (pre post : cells) p a :
  NoDup (pre ++ (p, a) :: post).*1 → p ∉ pre.*1 ∧ p ∉ post.*1.
Proof.
  rewrite fmap_app, fmap_cons. intros (_ & H & [Hp _]%NoDup_cons)%NoDup_app.
  split; [|done]. intros Hin. apply (H p Hin). by left.
Qed.

Lemma sl_build_middle pre p a post :
  NoDup (pre ++ (p, a) :: post).*1 →
  sl_build (pre ++ (p, a) :: post) !! p = Some (SlNode (Some a) (head post.*1)).
Proof.
  intros Hnd. apply nodup_middle in Hnd as [Hp _].
  induction pre as [|[q b] pre IH]; cbn [app sl_build]; [by rewrite lookup_insert_eq|].
  rewrite fmap_cons in Hp. apply not_elem_of_cons in Hp as [Hq Hp].
  rewrite lookup_insert_ne by (cbn in Hq; congruence). auto.
Qed.

Lemma sl_load_middle h pre p a post :
  sl_build (pre ++ (p, a) :: post) ⊆ h → NoDup (pre ++ (p, a) :: post).*1 →
  sl_load h p = Ok (SlNode (Some a) (head post.*1)).
Proof.
  intros Hh Hnd. unfold sl_load.
  by rewrite (lookup_weaken _ _ _ _ (sl_build_middle pre p a post Hnd) Hh).
Qed.

(** A node put behind another one. *)
Lemma sl_build_after pre p a q b post :
  NoDup (pre ++ (p, a) :: post).*1 → q ∉ (pre ++ (p, a) :: post).*1 →
  <[p := SlNode (Some a) (Some q)]> (<[q := SlNode (Some b) (head post.*1)]> (sl_build (pre ++ (p, a) :: post)))
  = sl_build (pre ++ (p, a) :: (q, b) :: post).
Proof.
  intros Hnd Hq. induction pre as [|[x c] pre IH].
  - cbn [app sl_build fst snd] in *. rewrite fmap_cons in Hq. cbn in Hq. apply not_elem_of_cons in Hq as [Hqp _].
    rewrite (insert_insert_ne _ q p) by done. by rewrite insert_insert_eq.
  - cbn [app sl_build] in *. rewrite fmap_cons in Hnd, Hq. apply NoDup_cons in Hnd as [Hx Hnd].
    apply not_elem_of_cons in Hq as [Hqx Hq]. cbn [fst] in *.
    assert (p ≠ x) as Hpx. { intros ->. apply Hx. rewrite fmap_app. set_solver. }
    rewrite (insert_insert_ne _ q x) by done. rewrite (insert_insert_ne _ p x) by done.
    rewrite IH by done. f_equal. f_equal. apply head_middle.
Qed.

(** The node behind another one taken out. *)
Lemma sl_build_without pre p a q b post :
  NoDup (pre ++ (p, a) :: (q, b) :: post).*1 →
  delete q (<[p := SlNode (Some a) (head post.*1)]> (sl_build (pre ++ (p, a) :: (q, b) :: post)))
  = sl_build (pre ++ (p, a) :: post).
Proof.
  intros Hnd. induction pre as [|[x c] pre IH].
  - cbn [app sl_build]. cbn [app] in Hnd. rewrite !fmap_cons in Hnd. cbn [fst] in Hnd.
    apply NoDup_cons in Hnd as [Hp [Hq Hnd]%NoDup_cons]. apply not_elem_of_cons in Hp as [Hpq Hp].
    rewrite insert_insert_eq, delete_insert_ne by done. by rewrite delete_insert_id by (by apply sl_build_None).
  - cbn [app sl_build] in *. rewrite fmap_cons in Hnd. apply NoDup_cons in Hnd as [Hx Hnd].
    cbn [fst] in *. assert (p ≠ x ∧ q ≠ x) as [Hpx Hqx].
    { split; intros ->; apply Hx; rewrite fmap_app, !fmap_cons; set_solver. }
    rewrite (insert_insert_ne _ p x) by done. rewrite delete_insert_ne by done.
    rewrite IH by done. f_equal. f_equal. apply head_middle.
Qed.

Lemma sl_build_tail p a l : NoDup ((p, a) :: l).*1 → delete p (sl_build ((p, a) :: l)) = sl_build l.
Proof.
  rewrite fmap_cons. intros [Hp _]%NoDup_cons. cbn [sl_build].
  by rewrite delete_insert_id by (by apply sl_build_None).
Qed.

(** The container has the entries [l], in nodes of its own and nothing else. *)
Definition sl_holds (c : sl_container A) (l : list A) : Prop :=
  ∃ cs : cells, cs.*2 = l ∧ NoDup cs.*1 ∧ sl_nodes c = sl_build cs ∧ sl_head c = head cs.*1 ∧
    sl_count c = u32 (Z.of_nat (length l)).
End Nodes.

(** ** Lists as the specification *)

(** The rest of the list from the first entry on that [stop] accepts. *)
Fixpoint l_from {B} (stop : B → bool) (l : list B) : list B :=
  match l with
  | [] => []
  | x :: r => if stop x then l else l_from stop r
  end.

Lemma l_from_suffix {B} (stop : B → bool) l :
  ∃ pre, l = pre ++ l_from stop l ∧ Forall (λ x, stop x = false) pre.
Proof.
  induction l as [|x l (pre & E & Hp)]; [by exists []|]. cbn [l_from]. destruct (stop x) eqn:Es.
  - by exists [].
  - exists (x :: pre). cbn [app]. split; [by rewrite <- E|]. by constructor.
Qed.

Lemma l_from_snd {B C} (stop : C → bool) (l : list (B * C)) :
  (l_from (stop ∘ snd) l).*2 = l_from stop l.*2.
Proof. induction l as [|[b c] l IH]; [done|]. cbn. by destruct (stop c). Qed.

Inductive sl_kind := KSorted | KStack | KQueue.

#[global] Instance sl_kind_eq_dec : EqDecision sl_kind.
Proof. solve_decision. Defined.

Definition kind_unsorted (k : sl_kind) : Z := match k with KSorted => 0 | _ => 1 end.
Definition kind_fifo (k : sl_kind) : Z := match k with KQueue => 1 | _ => 0 end.

Section Spec.
Context {A : Type} {compare : A → A → M Z} {valid : A → Prop} {order : A → A → Z}.
Context {Hcompare : Comparison compare valid order}.
Notation cells := (list (nat * A)).

(** Where a search for [key] ends. *)
Definition l_stop (k : sl_kind) (key x : A) : bool :=
  (order x key =? 0) || ((0 <? order x key) && (kind_unsorted k =? 0)).

(** The entry a search with [exact] ends at, and the one a search without it gives. *)
Definition l_found (k : sl_kind) (key : A) (l : list A) : option A := head (l_from (l_stop k key) l).

Definition l_after (k : sl_kind) (key : option A) (l : list A) : option A :=
  match key with
  | None => head l
  | Some key =>
      match l_from (l_stop k key) l with
      | [] => None
      | x :: r => if order x key =? 0 then head r else Some x
      end
  end.

(** What container.h promises: [find] gives the entry with the same key, and [find_next]
    the one with the next highest key, or the first one when no key is given. *)
Definition l_find (key : A) (l : list A) : option A := head (filter (λ x, order x key = 0) l).

Definition l_next (key : option A) (l : list A) : option A :=
  match key with
  | None => head l
  | Some key => head (filter (λ x, 0 < order x key) l)
  end.

Definition l_insert (k : sl_kind) (a : A) (l : list A) : list A :=
  match k with
  | KSorted => filter (λ x, order x a ≤ 0) l ++ a :: filter (λ x, 0 < order x a) l
  | KStack => a :: l
  | KQueue => l ++ [a]
  end.

(** Without the first entry that is equal to [a]. *)
Fixpoint l_delete (a : A) (l : list A) : option (list A) :=
  match l with
  | [] => None
  | x :: r => if order x a =? 0 then Some r else (x ::.) <$> l_delete a r
  end.

Definition l_remove (a : option A) (l : list A) : list A * Z :=
  match l, a with
  | [], _ => ([], -1)
  | _ :: r, None => (r, 0)
  | _, Some a => match l_delete a l with Some r => (r, 0) | None => (l, -2) end
  end.

Lemma sl_find_loop_spec fuel h k key (pre post : cells) rc :
  sl_build (pre ++ post) ⊆ h → NoDup (pre ++ post).*1 →
  (length post < fuel)%nat → Forall valid post.*2 → valid key →
  ∃ rc', sl_find_loop compare fuel h (kind_unsorted k) key (head post.*1) rc
      = Ok (head (l_from (l_stop k key ∘ snd) post).*1, rc') ∧
    (∀ p a r, l_from (l_stop k key ∘ snd) post = (p, a) :: r → rc' = order a key).
Proof.
  revert pre rc fuel. induction post as [|[p a] post IH]; intros pre rc [|fuel] Hh Hnd Hf Hv Hk;
    cbn [length] in Hf; try lia; [by exists rc|].
  rewrite fmap_cons in Hv. rewrite fmap_cons. apply Forall_cons in Hv as [Ha Hv].
  cbn [fst snd head sl_find_loop] in *.
  rewrite (sl_load_middle h pre p a post) by done. m_step. cbn [sn_data sn_next on_ptrs].
  rewrite (compare_order a key) by done. m_step. cbn [l_from compose snd].
  destruct (l_stop k key a) eqn:Es.
  - exists (order a key). unfold l_stop in Es. split; [|by intros ??? [= <- <- <-]].
    destruct (order a key =? 0); [done|]. cbn [orb] in Es. by rewrite Es.
  - unfold l_stop in Es. apply orb_false_iff in Es as [-> ->].
    specialize (IH (pre ++ [(p, a)]) (order a key) fuel). rewrite <- app_assoc in IH.
    apply IH; [done|done|lia|done|done].
Qed.

(** The node behind which an entry goes: the last one of those that are not greater. *)
Lemma sl_place_loop_spec fuel h a (pre post : cells) prev :
  sl_build (pre ++ post) ⊆ h → NoDup (pre ++ post).*1 →
  (length post < fuel)%nat → Forall valid post.*2 → valid a →
  ∃ p1 p2, post = p1 ++ p2 ∧
    sl_place_loop compare fuel h (Some a) prev (head post.*1)
      = Ok (match last p1.*1 with Some p => Some p | None => prev end) ∧
    Forall (λ x, order x a ≤ 0) p1.*2 ∧
    match p2 with [] => True | (_, x) :: _ => 0 < order x a end.
Proof.
  revert pre prev fuel. induction post as [|[p x] post IH]; intros pre prev [|fuel] Hh Hnd Hf Hv Ha;
    cbn [length] in Hf; try lia; [by exists [], []|].
  rewrite fmap_cons in Hv. rewrite fmap_cons. apply Forall_cons in Hv as [Hx Hv].
  cbn [fst snd head sl_place_loop] in *.
  rewrite (sl_load_middle h pre p x post) by done. m_step. cbn [sn_data sn_next on_ptrs].
  rewrite (compare_order x a) by done. m_step. destruct (Z.ltb_spec 0 (order x a)) as [Hlt|Hle].
  { exists [], ((p, x) :: post). by split_and!. }
  specialize (IH (pre ++ [(p, x)]) (Some p) fuel). rewrite <- app_assoc in IH.
  destruct IH as (p1 & p2 & -> & E & Hp1 & Hp2); [done|done|lia|done|done|].
  exists ((p, x) :: p1), p2. split_and!; [done| |by constructor|done].
  rewrite E. rewrite fmap_cons, last_cons. by destruct (last p1.*1).
Qed.

Lemma sl_tail_loop_spec fuel h (pre post : cells) p a :
  sl_build (pre ++ (p, a) :: post) ⊆ h → NoDup (pre ++ (p, a) :: post).*1 →
  (length post < fuel)%nat →
  sl_tail_loop fuel h p = Ok (default p (last post.*1)).
Proof.
  revert pre p a fuel. induction post as [|[q b] post IH]; intros pre p a [|fuel] Hh Hnd Hf;
    cbn [length sl_tail_loop] in *; try lia; rewrite (sl_load_middle h pre p a _) by done; m_step; [done|].
  rewrite fmap_cons. cbn [head sn_next fst].
  rewrite (IH (pre ++ [(p, a)]) q b) by (rewrite <- ?app_assoc; done || lia).
  rewrite last_cons. by destruct (last post.*1).
Qed.

(** What the loop of a removal unlinks: the first equal entry, unless a sorted list shows
    a greater one before. *)
Lemma sl_remove_loop_spec fuel h k a (pre post : cells) p x :
  h = sl_build (pre ++ (p, x) :: post) → NoDup (pre ++ (p, x) :: post).*1 →
  (length post < fuel)%nat → Forall valid post.*2 → valid a →
  match l_from (l_stop k a ∘ snd) post with
  | (q, y) :: r =>
      if order y a =? 0 then
        ∃ p1, post = p1 ++ (q, y) :: r ∧ Forall (λ z, order z a ≠ 0) p1.*2 ∧
        ∃ h', sl_remove_loop compare fuel h (kind_unsorted k) (Some a) p (head post.*1) = Ok (h', Some q) ∧
          sl_free h' q = Ok (sl_build (pre ++ (p, x) :: p1 ++ r))
      else sl_remove_loop compare fuel h (kind_unsorted k) (Some a) p (head post.*1) = Ok (h, None)
  | [] => sl_remove_loop compare fuel h (kind_unsorted k) (Some a) p (head post.*1) = Ok (h, None)
  end.
Proof.
  revert pre p x fuel. induction post as [|[q y] post IH]; intros pre p x [|fuel] Hh Hnd Hf Hv Ha;
    cbn [length] in Hf; try lia; [done|].
  rewrite fmap_cons in Hv. apply Forall_cons in Hv as [Hy Hv]. cbn [fst snd] in Hy.
  cbn [l_from]. rewrite fmap_cons. cbn [compose snd fst head sl_remove_loop].
  assert (sl_load h q = Ok (SlNode (Some y) (head post.*1))) as Hq.
  { apply (sl_load_middle h (pre ++ [(p, x)])); rewrite <- app_assoc; [by subst|done]. }
  rewrite Hq. m_step. cbn [sn_data sn_next on_ptrs]. rewrite (compare_order y a) by done. m_step.
  destruct (l_stop k a y) eqn:Es; unfold l_stop in Es.
  - destruct (order y a =? 0); [|by cbn [orb] in Es; rewrite Es].
    exists []. split_and!; [done|constructor|]. unfold sl_link.
    rewrite (sl_load_middle h pre p x ((q, y) :: post)) by (by subst). m_step. cbn [sn_data].
    eexists. split; [done|]. unfold sl_free, sl_load. rewrite lookup_insert_ne.
    2: { intros ->. rewrite fmap_app, !fmap_cons in Hnd. apply NoDup_app in Hnd as (_ & _ & [Hn _]%NoDup_cons).
         apply Hn. by left. }
    unfold sl_load in Hq. destruct (h !! q) eqn:E; [|done]. m_step. f_equal. subst h.
    by apply sl_build_without.
  - apply orb_false_iff in Es as [E0 E1]. rewrite E0, E1.
    specialize (IH (pre ++ [(p, x)]) q y fuel). rewrite <- app_assoc in IH. cbn [app] in IH.
    specialize (IH Hh Hnd ltac:(lia) Hv Ha).
    destruct (l_from _ post) as [|[r z] post'] eqn:El; [done|].
    destruct (order z a =? 0) eqn:Ez; [|done]. destruct IH as (p1 & -> & Hp1 & h' & E & Hfree).
    exists ((q, y) :: p1). split_and!; [done|constructor; [by apply Z.eqb_neq|done]|].
    exists h'. split; [done|]. rewrite <- app_assoc in Hfree. exact Hfree.
Qed.
(** The container is of kind [k] and has the entries [l]. *)
Definition sl_rep (k : sl_kind) (c : sl_container A) (l : list A) : Prop :=
  sl_holds c l ∧ sl_unsorted c = kind_unsorted k ∧ sl_fifo c = kind_fifo k ∧
  Forall valid l ∧ (k = KSorted → StronglySorted (ole order) l).

Lemma sl_fuel_cells c (cs : cells) :
  NoDup cs.*1 → sl_nodes c = sl_build cs → sl_fuel c = S (length cs).
Proof. intros Hnd Hh. unfold sl_fuel. by rewrite Hh, sl_build_size. Qed.

Lemma u32_succ z : u32 (u32 z + 1) = u32 (z + 1).
Proof. unfold u32. by rewrite Zplus_mod_idemp_l. Qed.

Lemma u32_pred z : u32 (u32 (z + 1) - 1) = u32 z.
Proof. unfold u32. rewrite Zminus_mod_idemp_l. f_equal. lia. Qed.

Lemma l_from_cells k key (cs : cells) :
  ∃ pre, cs = pre ++ l_from (l_stop k key ∘ snd) cs ∧
    (l_from (l_stop k key ∘ snd) cs).*2 = l_from (l_stop k key) cs.*2.
Proof. destruct (l_from_suffix (l_stop k key ∘ snd) cs) as (pre & E & _). exists pre. by rewrite l_from_snd. Qed.

Lemma get_list k c l key exact :
  sl_rep k c l → (∀ a, key = Some a → valid a) →
  _get compare c key exact
  = Ok (match key with
        | Some a => if (exact : bool) then l_found k a l else l_after k (Some a) l
        | None => head l
        end).
Proof.
  intros ((cs & El & Hnd & Hh & Hhd & _) & Hu & _ & Hv & _) Hkey. unfold _get. subst l.
  destruct cs as [|[p0 a0] cs0] eqn:Ecs; cbn [fmap list_fmap head fst] in Hhd.
  { rewrite Hhd. m_step. by destruct key, exact. }
  rewrite <- Ecs in *. rewrite Hhd. destruct key as [key|].
  2: { m_step. rewrite (sl_load_middle _ [] p0 a0 cs0) by (subst cs; by rewrite ?Hh). by rewrite Ecs. }
  rewrite (sl_fuel_cells c cs), Hu by done.
  destruct (sl_find_loop_spec (S (length cs)) (sl_nodes c) k key [] cs 0) as (rc & E & Hrc);
    [by rewrite Hh|done|lia|done|by apply Hkey|].
  rewrite Ecs in E at 2. cbn [fmap list_fmap head fst] in E. rewrite E. m_step. clear E.
  destruct (l_from_cells k key cs) as (pre & Epre & Esnd).
  unfold l_found, l_after. rewrite <- Esnd. rewrite Epre in Hnd, Hh.
  destruct (l_from (l_stop k key ∘ snd) cs) as [|[p a] r]; [by destruct exact|].
  rewrite fmap_cons. cbn [head fst]. rewrite (Hrc p a r eq_refl).
  assert (sl_load (sl_nodes c) p = Ok (SlNode (Some a) (head r.*1))) as Hp.
  { by apply (sl_load_middle _ pre p a r); [rewrite Hh|]. }
  rewrite fmap_cons. cbn [head snd]. destruct exact; cbn [negb andb].
  { m_step. by rewrite Hp. }
  destruct (order a key =? 0).
  2: { m_step. by rewrite Hp. }
  rewrite Hp. m_step. cbn [sn_next]. destruct r as [|[q b] r]; [done|].
  rewrite fmap_cons. cbn [head fst].
  rewrite (sl_load_middle _ (pre ++ [(p, a)]) q b r) by (rewrite <- app_assoc; by rewrite ?Hh). done.
Qed.
(** An entry goes between those that are not greater and those that are. *)
Lemma sorted_split a l1 l2 :
  StronglySorted (ole order) (l1 ++ l2) → Forall (λ x, order x a ≤ 0) l1 →
  match l2 with [] => True | x :: _ => 0 < order x a end →
  l_insert KSorted a (l1 ++ l2) = l1 ++ a :: l2 ∧ StronglySorted (ole order) (l1 ++ a :: l2).
Proof.
  intros Hs H1 H2. apply StronglySorted_app in Hs as (Hc & Hl & Hh).
  assert (Forall (λ x, 0 < order x a) l2) as H2'.
  { destruct l2 as [|x l2]; [constructor|]. constructor; [done|]. apply StronglySorted_cons in Hh as [Hx _].
    eapply Forall_impl; [exact Hx|]. intros y Hy. apply order_flip.
    apply (olt_ole_trans a x y); [by apply order_flip|done]. }
  split.
  - unfold l_insert. rewrite !filter_app.
    rewrite (filter_all (λ x, order x a ≤ 0) l1), (filter_none (λ x, 0 < order x a) l1),
      (filter_none (λ x, order x a ≤ 0) l2), (filter_all (λ x, 0 < order x a) l2), app_nil_r;
      [done|done|eapply Forall_impl; [done|]; cbn; lia..].
  - apply StronglySorted_app_2; [|done|]; rewrite Forall_forall in H1, H2'.
    + intros x y Hx Hy. apply elem_of_cons in Hy as [->|Hy]; [by apply H1|by apply Hc].
    + apply StronglySorted_cons. split; [|done]. apply Forall_forall. intros y Hy.
      apply olt_ole, order_flip. by apply H2'.
Qed.

Lemma l_delete_first a l1 x l2 :
  Forall (λ z, order z a ≠ 0) l1 → order x a = 0 → l_delete a (l1 ++ x :: l2) = Some (l1 ++ l2).
Proof.
  intros H Hx. induction H as [|y l1 Hy H IH]; cbn [app l_delete]; [by rewrite Hx|].
  rewrite (proj2 (Z.eqb_neq _ _)) by done. by rewrite IH.
Qed.

Lemma l_delete_None a l : Forall (λ z, order z a ≠ 0) l → l_delete a l = None.
Proof.
  induction 1 as [|y l Hy H IH]; [done|]. cbn [l_delete].
  rewrite (proj2 (Z.eqb_neq _ _)) by done. by rewrite IH.
Qed.

(** A search that ends before an equal entry shows that there is none. *)
Lemma stopped_early k a l :
  (k = KSorted → StronglySorted (ole order) l) →
  match l_from (l_stop k a) l with [] => True | y :: _ => order y a ≠ 0 end →
  Forall (λ z, order z a ≠ 0) l.
Proof.
  intros Hs Hend. destruct (l_from_suffix (l_stop k a) l) as (pre & E & Hpre).
  destruct (l_from (l_stop k a) l) as [|y r] eqn:Ey; rewrite E in *.
  - rewrite app_nil_r. eapply Forall_impl; [exact Hpre|]. intros z Hz. unfold l_stop in Hz.
    apply orb_false_iff in Hz as [Hz _]. by apply Z.eqb_neq.
  - apply Forall_app. split.
    { eapply Forall_impl; [exact Hpre|]. intros z Hz. unfold l_stop in Hz.
      apply orb_false_iff in Hz as [Hz _]. by apply Z.eqb_neq. }
    assert (l_stop k a y = true) as Hy.
    { clear -Ey. revert Ey. generalize (pre ++ y :: r). intros l. induction l as [|x l IH]; [done|]. cbn [l_from].
      destruct (l_stop k a x) eqn:E; [by intros [= -> _]|done]. }
    unfold l_stop in Hy. rewrite (proj2 (Z.eqb_neq _ _)) in Hy by done. cbn [orb] in Hy.
    apply andb_true_iff in Hy as [Hy Hk]. destruct k; [|done..]. specialize (Hs eq_refl).
    apply StronglySorted_app in Hs as (_ & _ & [Hr _]%StronglySorted_cons). apply Z.ltb_lt in Hy.
    constructor; [done|]. eapply Forall_impl; [exact Hr|]. intros z Hz.
    assert (olt order a z) as H by (apply (olt_ole_trans a y z); [by apply order_flip|done]).
    apply order_flip in H. lia.
Qed.

(** A container with the nodes [cs'], which are those of [cs] and a new one. *)
Lemma sl_rep_with k (cs cs' : cells) new a sync :
  NoDup cs.*1 → new ∉ cs.*1 → Forall valid cs.*2 → valid a → cs' ≡ₚ (new, a) :: cs →
  (k = KSorted → StronglySorted (ole order) cs'.*2) →
  sl_rep k (SlContainer (sl_build cs') sync (u32 (Z.of_nat (length cs.*2) + 1)) (head cs'.*1)
              (kind_unsorted k) (kind_fifo k)) cs'.*2.
Proof.
  intros Hnd Hn Hv Ha Hp Hs. split_and!; try done.
  - exists cs'. split_and!; try done; [rewrite Hp, fmap_cons; by constructor|].
    cbn [sl_count]. f_equal. rewrite !length_fmap, Hp. cbn [length]. lia.
  - rewrite Hp, fmap_cons. by constructor.
Qed.

(** A new node in the heap of the nodes [cs]. *)
Section Insertion.
Context (cs : cells) (new : nat) (a : A).
Hypothesis cs_nodup : NoDup cs.*1.
Hypothesis new_fresh : new ∉ cs.*1.
Let h : gmap nat (sl_node A) := <[new := SlNode (Some a) None]> (sl_build cs).

Lemma with_new_sub : sl_build cs ⊆ h.
Proof. by apply insert_subseteq, sl_build_None. Qed.

Lemma link_new q : sl_link h new q = Ok (<[new := SlNode (Some a) q]> (sl_build cs)).
Proof.
  unfold sl_link, sl_load, h. rewrite lookup_insert_eq. m_step. cbn [sn_data]. by rewrite insert_insert_eq.
Qed.

Lemma link_front : sl_link h new (head cs.*1) = Ok (sl_build ((new, a) :: cs)).
Proof. apply link_new. Qed.

Lemma link_back p0 :
  head cs.*1 = Some p0 →
  ∃ p, sl_tail_loop (S (length cs)) h p0 = Ok p ∧ sl_link h p (Some new) = Ok (sl_build (cs ++ [(new, a)])).
Proof.
  intros Ehd. assert (∃ a1 cs1, cs = (p0, a1) :: cs1) as (a1 & cs1 & Ecs).
  { destruct cs as [|[p1 a1] cs1]; [done|]. injection Ehd as ->. by eexists _, _. }
  rewrite (sl_tail_loop_spec _ h [] cs1 p0 a1)
    by (cbn [app]; rewrite <- ?Ecs; first [done | apply with_new_sub | rewrite Ecs; cbn; lia]).
  destruct (nil_or_last cs) as [E|(cs' & [p x] & E)]; [congruence|]. eexists. split; [done|].
  assert (default p0 (last cs1.*1) = p) as ->.
  { pose proof (last_address cs' p x) as Hl. rewrite <- E, Ecs, fmap_cons, last_cons in Hl. cbn [fst] in Hl.
    destruct (last cs1.*1); cbn; congruence. }
  unfold sl_link. rewrite (sl_load_middle h cs' p x []) by (rewrite <- E; first [done | apply with_new_sub]).
  m_step. cbn [sn_data]. unfold h. rewrite E in *. f_equal. rewrite <- app_assoc.
  by apply (sl_build_after cs' p x new a []).
Qed.

(** Where the sorted insertion links the node. *)
Lemma link_sorted p1 p x p2 :
  cs = p1 ++ (p, x) :: p2 →
  ∃ n h1, sl_load h p = Ok n ∧ sl_link h new (sn_next n) = Ok h1 ∧
    sl_link h1 p (Some new) = Ok (sl_build (p1 ++ (p, x) :: (new, a) :: p2)).
Proof.
  intros E. pose proof with_new_sub as Hsub. eexists _, _. split_and!; [|apply link_new|].
  - apply (sl_load_middle h p1 p x p2); by rewrite <- E.
  - cbn [sn_next]. unfold sl_link, sl_load.
    rewrite lookup_insert_ne by (intros ->; apply new_fresh; rewrite E, fmap_app; set_solver).
    rewrite E in *. rewrite sl_build_middle by done. m_step. cbn [sn_data]. by rewrite sl_build_after.
Qed.
End Insertion.

Context (calloc_ok : Z → Z → bool) (alloc : gmap nat (sl_node A) → nat).
Hypothesis alloc_fresh : ∀ h, h !! alloc h = None.

Lemma insert_list k c l a :
  sl_rep k c l → valid a → calloc_ok 1 SIZEOF_SL_NODE = true →
  ∃ c', _ssll_insert compare calloc_ok alloc c (Some a) = Ok (c', 0) ∧ sl_rep k c' (l_insert k a l) ∧
    sl_sync c' = u32 (sl_sync c + 1).
Proof.
  intros ((cs & <- & Hnd & Hh & Hhd & Hcnt) & Hu & Hf & Hv & Hs) Ha Hm. unfold _ssll_insert. rewrite Hm.
  assert (alloc (sl_nodes c) ∉ cs.*1) as Hnew by (apply sl_build_fresh; rewrite <- Hh; apply alloc_fresh).
  rewrite Hcnt, u32_succ, (sl_fuel_cells c cs) by done. rewrite Hu, Hf.
  revert Hnew. generalize (alloc (sl_nodes c)). intros new Hnew. rewrite Hh. cbv zeta.
  pose proof (λ cs', sl_rep_with k cs cs' new a) as Hrep. pose proof (link_front cs new a) as Hfront.
  destruct (head cs.*1) as [p0|] eqn:Ehd; rewrite Hhd.
  2: { assert (cs = []) as -> by (by destruct cs). eexists. split; [done|]. split; [|done].
       replace (l_insert k a ([] : cells).*2) with ([(new, a)] : cells).*2 by (by destruct k).
       apply (Hrep [(new, a)]); try done. intros _. apply StronglySorted_cons. split; constructor. }
  destruct k; cbn [kind_unsorted kind_fifo]; try change (0 =? 1) with false; try change (1 =? 1) with true; cbn match.
  - rewrite <- Ehd. destruct (sl_place_loop_spec (S (length cs)) _ a [] cs None (with_new_sub cs new a Hnew))
      as (p1 & p2 & Ecs & -> & H1 & H2); [done|lia|done|done|]. m_step.
    destruct (sorted_split a p1.*2 p2.*2) as [Hins Hsorted];
      [rewrite <- fmap_app, <- Ecs; by apply Hs|done|by destruct p2 as [|[q x] p2]|].
    rewrite <- fmap_app, <- Ecs in Hins. rewrite Hins.
    change (a :: p2.*2) with ((new, a) :: p2).*2 in *. rewrite <- fmap_app in *.
    destruct (nil_or_last p1) as [->|(p1' & [p x] & ->)].
    + cbn [fmap list_fmap last]. rewrite Ehd, Hfront. m_step. eexists. split; [done|].
      split; [|done]. cbn [app] in *. subst p2. by apply (Hrep ((new, a) :: cs)).
    + rewrite last_address. rewrite <- app_assoc in Ecs, Hsorted |- *. cbn [app] in *.
      destruct (link_sorted cs new a Hnd Hnew p1' p x p2 Ecs) as (n & h1 & -> & E1 & E2).
      m_step. rewrite E1. m_step. rewrite E2. m_step. eexists. split; [done|]. split; [|done].
      rewrite Ecs at 2. rewrite (head_middle p1' p2 ((new, a) :: p2)).
      apply (Hrep (p1' ++ (p, x) :: (new, a) :: p2)); try done.
      rewrite Ecs, Permutation_middle. apply Permutation_app_head, perm_swap.
  - rewrite Hfront. m_step. eexists. split; [done|]. split; [|done]. by apply (Hrep ((new, a) :: cs)).
  - destruct (link_back cs new a Hnd Hnew p0 Ehd) as (p & -> & E). m_step. rewrite E. m_step.
    eexists. split; [done|]. split; [|done]. cbn [l_insert].
    change [a] with ([(new, a)] : cells).*2. rewrite <- fmap_app.
    replace (Some p0) with (head (cs ++ [(new, a)]).*1) by (by destruct cs).
    apply (Hrep (cs ++ [(new, a)])); try done. by rewrite Permutation_app_comm.
Qed.

(** A container with the nodes [cs'], which are those of [cs] but one. *)
Lemma sl_rep_less k (cs cs' : cells) x sync :
  NoDup cs.*1 → Forall valid cs.*2 → cs ≡ₚ x :: cs' →
  (k = KSorted → StronglySorted (ole order) cs'.*2) →
  sl_rep k (SlContainer (sl_build cs') sync (u32 (u32 (Z.of_nat (length cs.*2)) - 1)) (head cs'.*1)
              (kind_unsorted k) (kind_fifo k)) cs'.*2.
Proof.
  intros Hnd Hv Hp Hs. rewrite Hp, fmap_cons in Hnd. rewrite Hp, fmap_cons in Hv. apply NoDup_cons in Hnd as [_ Hnd].
  apply Forall_cons in Hv as [_ Hv]. split_and!; try done. exists cs'. split_and!; try done.
  cbn [sl_count]. rewrite !length_fmap, Hp. cbn [length]. rewrite Nat2Z.inj_succ. apply u32_pred.
Qed.

Lemma sorted_less (l1 l2 : list A) x :
  StronglySorted (ole order) (l1 ++ x :: l2) → StronglySorted (ole order) (l1 ++ l2).
Proof.
  intros (Hc & Hl & [_ Hr]%StronglySorted_cons)%StronglySorted_app. apply StronglySorted_app_2; [|done|done].
  intros y z Hy Hz. apply Hc; [done|by right].
Qed.

Lemma remove_first k c p x (cs : cells) sync :
  NoDup ((p, x) :: cs).*1 → sl_nodes c = sl_build ((p, x) :: cs) →
  sl_count c = u32 (Z.of_nat (length ((p, x) :: cs).*2)) → sl_unsorted c = kind_unsorted k →
  sl_fifo c = kind_fifo k → Forall valid (x :: cs.*2) → (k = KSorted → StronglySorted (ole order) (x :: cs.*2)) →
  sl_free (sl_nodes c) p = Ok (sl_build cs) ∧
  sl_rep k (SlContainer (sl_build cs) sync (u32 (sl_count c - 1)) (head cs.*1) (sl_unsorted c) (sl_fifo c)) cs.*2.
Proof.
  intros Hnd Hh Hcnt Hu Hf Hv Hs. split.
  - unfold sl_free. rewrite (sl_load_middle _ [] p x cs) by (by rewrite ?Hh). m_step.
    rewrite Hh. by rewrite sl_build_tail.
  - rewrite Hcnt, Hu, Hf. apply (sl_rep_less k ((p, x) :: cs) cs (p, x)); [done|done|done|].
    intros E. by apply StronglySorted_cons in Hs as [_ Hs].
Qed.

Lemma remove_list k c l a :
  sl_rep k c l → (∀ x, a = Some x → valid x) →
  ∃ c', _ssll_remove compare c a = Ok (c', (l_remove a l).2) ∧ sl_rep k c' (l_remove a l).1 ∧
    sl_sync c' = (if (l_remove a l).2 =? 0 then u32 (sl_sync c + 1) else sl_sync c).
Proof.
  intros Hrep Ha. pose proof Hrep as ((cs & <- & Hnd & Hh & Hhd & Hcnt) & Hu & Hf & Hv & Hs).
  unfold _ssll_remove. pose proof (λ cs' x, sl_rep_less k cs cs' x) as Hless.
  destruct cs as [|[p x] cs]; cbn [fmap list_fmap head fst] in Hhd; rewrite Hhd; [by exists c|].
  rewrite (sl_load_middle _ [] p x cs) by (by rewrite ?Hh). m_step. cbn [sn_data sn_next].
  rewrite fmap_cons in Hv. rewrite fmap_cons in Hs. rewrite fmap_cons. rewrite fmap_cons in Hrep. cbn [snd] in *. apply Forall_cons in Hv as [Hx Hv].
  destruct (remove_first k c p x cs (u32 (sl_sync c + 1))) as [Efree Hrest]; [done..|by constructor|done|].
  destruct a as [a|]; cbn [l_remove].
  2: { m_step. rewrite Efree. m_step. by eexists. }
  cbn [on_ptrs]. rewrite (compare_order x a) by (by auto). m_step. cbn [l_delete].
  destruct (order x a =? 0) eqn:E0; m_step.
  { rewrite Efree. m_step. by eexists. }
  rewrite (sl_fuel_cells c ((p, x) :: cs)), Hu by done.
  pose proof (sl_remove_loop_spec (S (length ((p, x) :: cs))) (sl_nodes c) k a [] cs p x Hh Hnd ltac:(simpl; lia) Hv
    ltac:(auto)) as HL.
  assert (k = KSorted → StronglySorted (ole order) cs.*2) as Hs'
    by (intros E; by apply StronglySorted_cons in Hs as [_ Hs]).
  pose proof (stopped_early k a cs.*2 Hs') as Hmiss. rewrite <- l_from_snd in Hmiss.
  destruct (l_from (l_stop k a ∘ snd) cs) as [|[q y] r].
  { rewrite HL, l_delete_None by (by apply Hmiss). m_step. by exists c. }
  rewrite fmap_cons in Hmiss. cbn [snd] in Hmiss. destruct (Z.eqb_spec (order y a) 0) as [Ey|Ey].
  2: { rewrite HL, l_delete_None by (by apply Hmiss). m_step. by exists c. }
  destruct HL as (p1 & -> & Hp1 & h' & -> & Efree'). m_step. rewrite Efree'. m_step.
  rewrite fmap_app, fmap_cons. cbn [snd]. rewrite l_delete_first by done. cbn. eexists. split; [done|].
  split; [|done]. rewrite Hcnt, Hf. rewrite <- fmap_app.
  apply (Hless ((p, x) :: p1 ++ r) (q, y) (u32 (sl_sync c + 1))); [done|by constructor| |].
  - rewrite <- Permutation_middle. apply perm_swap.
  - intros E. specialize (Hs E). rewrite fmap_app, fmap_cons in Hs. cbn [snd] in Hs.
    rewrite fmap_cons, fmap_app. apply (sorted_less (x :: p1.*2) r.*2 y). exact Hs.
Qed.

Lemma sl_each_loop_spec {St} fuel h (f : St → option A → M St) s (pre post : cells) :
  sl_build (pre ++ post) ⊆ h → NoDup (pre ++ post).*1 → (length post < fuel)%nat →
  sl_each_loop fuel h f s (head post.*1) = visit f s (Some <$> post.*2).
Proof.
  revert pre fuel s. induction post as [|[p a] post IH]; intros pre [|fuel] s Hh Hnd Hf;
    cbn [length] in Hf; try lia; [done|].
  rewrite !fmap_cons. cbn [fst snd head sl_each_loop visit].
  rewrite (sl_load_middle h pre p a post) by done. m_step. cbn [sn_data sn_next].
  destruct (f s (Some a)); m_step; [|done..].
  apply (IH (pre ++ [(p, a)])); rewrite <- ?app_assoc; done || lia.
Qed.

Lemma for_each_list {St} k c l (f : St → option A → M St) s :
  sl_rep k c l → _ssll_for_each c f s = visit f s (Some <$> l).
Proof.
  intros ((cs & <- & Hnd & Hh & Hhd & _) & _). unfold _ssll_for_each.
  rewrite (sl_fuel_cells c cs), Hhd by done. apply (sl_each_loop_spec _ _ _ _ []); [by rewrite Hh|done|lia].
Qed.

Lemma sl_clear_loop_spec {St} fuel (f : option (St → option A → M St)) s (cs : cells) :
  NoDup cs.*1 → (length cs < fuel)%nat →
  sl_clear_loop fuel (sl_build cs) f s (head cs.*1)
  = (s ← match f with Some f => visit f s (Some <$> cs.*2) | None => Ok s end; Ok (∅, s)).
Proof.
  revert fuel s. induction cs as [|[p a] cs IH]; intros [|fuel] s Hnd Hf; cbn [length] in Hf; try lia.
  { by destruct f. }
  pose proof (sl_load_middle (sl_build ((p, a) :: cs)) [] p a cs ltac:(done) Hnd) as Hl.
  pose proof (sl_build_tail p a cs Hnd) as Ht. rewrite fmap_cons in Hnd. apply NoDup_cons in Hnd as [_ Hnd].
  revert Hl Ht. generalize (sl_build ((p, a) :: cs)). intros h Hl Ht.
  rewrite !fmap_cons. cbn [fst snd head sl_clear_loop]. rewrite Hl. m_step. cbn [sn_data sn_next].
  destruct f as [f|]; cbn [visit].
  - unfold sl_link. rewrite Hl. m_step. destruct (f s (Some a)) as [s'| |]; m_step; [|done..].
    unfold sl_free, sl_load. rewrite lookup_insert_eq. m_step. rewrite delete_insert_eq, Ht.
    rewrite IH by (done || lia). done.
  - m_step. unfold sl_free. rewrite Hl. m_step. rewrite Ht. by rewrite IH by (done || lia).
Qed.

Lemma sl_rep_empty k sync : sl_rep k (SlContainer ∅ sync 0 None (kind_unsorted k) (kind_fifo k)) [].
Proof. split_and!; try done; [|intros; constructor]. exists []. split_and!; try done. constructor. Qed.

Lemma clear_list {St} k c l (f : option (St → option A → M St)) s s' :
  sl_rep k c l →
  match f with Some f => visit f s (Some <$> l) | None => Ok s end = Ok s' →
  ∃ c', _ssll_clear c f s = Ok (c', s') ∧ sl_rep k c' [] ∧ sl_nodes c' = ∅ ∧
    sl_sync c' = u32 (sl_sync c + 1).
Proof.
  intros ((cs & <- & Hnd & Hh & Hhd & _) & Hu & Hf & _) E. unfold _ssll_clear.
  rewrite (sl_fuel_cells c cs), Hhd, Hh, sl_clear_loop_spec by (done || lia). rewrite E. m_step.
  eexists. split; [done|].
  rewrite Hu, Hf. split; [apply sl_rep_empty|done].
Qed.

(** ** What a search finds *)

Lemma from_sorted key l :
  StronglySorted (ole order) l → l_from (l_stop KSorted key) l = filter (λ x, 0 ≤ order x key) l.
Proof.
  induction l as [|x l IH]; intros Hs; [done|]. apply StronglySorted_cons in Hs as [Hx Hs].
  cbn [l_from]. unfold l_stop at 1. cbn [kind_unsorted Z.eqb]. rewrite andb_true_r.
  destruct (Z.eqb_spec (order x key) 0), (Z.ltb_spec 0 (order x key)); cbn [orb]; try lia.
  3: { rewrite filter_cons_False by lia. by apply IH. }
  all: rewrite filter_all; [done|constructor; [lia|]].
  all: eapply Forall_impl; [exact Hx|]; intros y Hy.
  all: pose proof (order_flip x key); pose proof (order_flip key y); pose proof (order_flip y key).
  all: assert (order key x ≤ 0) as Hk by (pose proof (order_flip key x); lia).
  all: pose proof (order_trans key x y Hk Hy); lia.
Qed.

Lemma filter_ge_gt key l :
  filter (λ x, order x key = 0) l = [] → filter (λ x, 0 ≤ order x key) l = filter (λ x, 0 < order x key) l.
Proof.
  induction l as [|x l IH]; [done|]. destruct (decide (order x key = 0)) as [E|E].
  { by rewrite filter_cons_True. }
  rewrite filter_cons_False by done. intros Hl. specialize (IH Hl).
  destruct (decide (0 < order x key)); [rewrite !filter_cons_True by lia|rewrite !filter_cons_False by lia]; congruence.
Qed.

(** In a sorted list with at most one entry for the key the next one is the next greater. *)
Lemma after_next key l :
  StronglySorted (ole order) l → (length (filter (λ x, order x key = 0%Z) l) ≤ 1)%nat →
  l_after KSorted (Some key) l = l_next (Some key) l.
Proof.
  intros Hs Hone. unfold l_after, l_next. rewrite from_sorted by done.
  induction l as [|x l IH]; [done|]. apply StronglySorted_cons in Hs as [Hx Hs].
  destruct (decide (0 ≤ order x key)) as [Hge|Hlt].
  2: { rewrite !filter_cons_False by lia. apply IH; [done|]. rewrite filter_cons_False in Hone by lia. done. }
  rewrite filter_cons_True by done. destruct (Z.eqb_spec (order x key) 0) as [E|E].
  2: { by rewrite filter_cons_True by lia. }
  rewrite filter_cons_True in Hone by done. cbn [length] in Hone.
  rewrite filter_cons_False by lia. f_equal. apply filter_ge_gt.
  destruct (filter _ l); [done|simpl in Hone; lia].
Qed.

(** The searches that are answered as container.h says: in a sorted list, those for a key
    that it has or that is above all its entries, and the next one of a key that is there
    at most once; in the other kinds any search for a key. *)
Definition find_kept (k : sl_kind) (key : A) (l : list A) : Prop :=
  k ≠ KSorted ∨ Exists (λ x, order x key = 0) l ∨ Forall (λ x, order x key < 0) l.

Definition next_kept (k : sl_kind) (key : option A) (l : list A) : Prop :=
  match key with
  | None => True
  | Some key => k = KSorted ∧ (length (filter (λ x, order x key = 0%Z) l) ≤ 1)%nat
  end.

#[global] Instance find_kept_dec k key l : Decision (find_kept k key l).
Proof. unfold find_kept. apply _. Defined.

#[global] Instance next_kept_dec k key l : Decision (next_kept k key l).
Proof. unfold next_kept. destruct key; apply _. Defined.

Lemma stop_unequal k key x : l_stop k key x = false → order x key ≠ 0.
Proof. intros [H _]%orb_false_iff. by apply Z.eqb_neq. Qed.

Lemma l_from_stops {B} (stop : B → bool) l y r : l_from stop l = y :: r → stop y = true.
Proof.
  induction l as [|x l IH]; [done|]. cbn [l_from]. destruct (stop x) eqn:E; [by intros [= -> _]|done].
Qed.

Lemma found_find k key l :
  (k = KSorted → StronglySorted (ole order) l) → find_kept k key l → l_found k key l = l_find key l.
Proof.
  intros Hs Hk. pose proof (stopped_early k key l Hs) as Hearly. unfold l_found, l_find.
  destruct (l_from_suffix (l_stop k key) l) as (pre & E & Hpre).
  destruct (l_from (l_stop k key) l) as [|y r] eqn:Ey.
  { rewrite filter_none; [done|]. by apply Hearly. }
  destruct (Z.eqb_spec (order y key) 0) as [E0|E0].
  - rewrite E, filter_app, (filter_none _ pre), filter_cons_True; [done|done|].
    eapply Forall_impl; [exact Hpre|]. apply stop_unequal.
  - exfalso. pose proof (l_from_stops _ _ _ _ Ey) as Hy. unfold l_stop in Hy.
    rewrite (proj2 (Z.eqb_neq _ _)) in Hy by done. cbn [orb] in Hy. apply andb_true_iff in Hy as [Hy Hu].
    apply Z.ltb_lt in Hy. destruct k; [|done..]. destruct Hk as [Hk|[Hex|Hall]]; [done|..].
    + specialize (Hearly E0). rewrite Exists_exists in Hex. rewrite Forall_forall in Hearly. naive_solver.
    + rewrite E, Forall_app, Forall_cons in Hall. lia.
Qed.

(** A search in a sorted list gives the first entry that is not below the key.  So
    the search for the entry with a key finds it when there is one, but when there is
    none it gives the next greater entry and not NULL, which only a key above all entries
    gives.  The search for the next entry gives the first greater one, unless two entries
    have the key. *)
Theorem ssll_search_sorted c l key :
  sl_rep KSorted c l → valid key →
  _ssll_find compare c (Some key) = Ok (head (filter (λ x, 0 ≤ order x key) l)) ∧
  (Z.of_nat (length (filter (λ x, order x key = 0) l)) ≤ 1 →
   _ssll_find_next compare c (Some key) = Ok (head (filter (λ x, 0 < order x key) l))).
Proof.
  intros H Hk. pose proof H as (_ & _ & _ & _ & Hs). specialize (Hs eq_refl).
  unfold _ssll_find, _ssll_find_next. rewrite !(get_list KSorted c l) by (done || by intros ? [= ->]).
  split; [unfold l_found; by rewrite from_sorted|]. intros Hone. rewrite after_next; [done|done|lia].
Qed.

(** ** Sequences of operations *)

Inductive sl_op :=
| LInsert (a : A)
| LRemove (a : option A)
| LFind (a : A)
| LNext (a : option A)
| LSize
| LAll
| LClear.

Definition sl_op_valid (o : sl_op) : Prop :=
  match o with
  | LInsert a | LFind a | LRemove (Some a) | LNext (Some a) => valid a
  | _ => True
  end.

(** Whether container.h's promise about the operation is kept on the list [l]. *)
Definition sl_op_kept (k : sl_kind) (l : list A) (o : sl_op) : Prop :=
  match o with
  | LFind a => find_kept k a l
  | LNext a => next_kept k a l
  | _ => True
  end.

Definition sl_do (c : sl_container A) (o : sl_op) : M (sl_container A * result A) :=
  match o with
  | LInsert a => '(c, rc) ← _ssll_insert compare calloc_ok alloc c (Some a); Ok (c, RInt rc)
  | LRemove a => '(c, rc) ← _ssll_remove compare c a; Ok (c, RInt rc)
  | LFind a => p ← _ssll_find compare c (Some a); Ok (c, RPtr p)
  | LNext a => p ← _ssll_find_next compare c a; Ok (c, RPtr p)
  | LSize => Ok (c, RInt (_ssll_size c))
  | LAll => l ← _ssll_for_each c (λ l p, Ok (l ++ [p])) []; Ok (c, RList l)
  | LClear => '(c, l) ← _ssll_clear c (Some (λ l p, Ok (l ++ [p]))) []; Ok (c, RList l)
  end.

(** The same on a list. *)
Definition l_do (k : sl_kind) (l : list A) (o : sl_op) : list A * result A :=
  match o with
  | LInsert a => (l_insert k a l, RInt 0)
  | LRemove a => ((l_remove a l).1, RInt (l_remove a l).2)
  | LFind a => (l, RPtr (l_find a l))
  | LNext a => (l, RPtr (l_next a l))
  | LSize => (l, RInt (u32 (Z.of_nat (length l))))
  | LAll => (l, RList (Some <$> l))
  | LClear => ([], RList (Some <$> l))
  end.

Fixpoint sl_run (c : sl_container A) (ops : list sl_op) : M (sl_container A * list (result A)) :=
  match ops with
  | [] => Ok (c, [])
  | o :: ops => '(c, r) ← sl_do c o; '(c, rs) ← sl_run c ops; Ok (c, r :: rs)
  end.

Fixpoint l_run (k : sl_kind) (l : list A) (ops : list sl_op) : list A * list (result A) :=
  match ops with
  | [] => (l, [])
  | o :: ops => let '(l, r) := l_do k l o in let '(l, rs) := l_run k l ops in (l, r :: rs)
  end.

(** The same of each operation, on the list it finds. *)
Fixpoint sl_ops_kept (k : sl_kind) (l : list A) (ops : list sl_op) : Prop :=
  match ops with
  | [] => True
  | o :: ops => sl_op_kept k l o ∧ sl_ops_kept k (l_do k l o).1 ops
  end.

#[global] Instance sl_op_kept_dec k l o : Decision (sl_op_kept k l o).
Proof. destruct o; apply _. Defined.

#[global] Instance sl_ops_kept_dec k ops : ∀ l, Decision (sl_ops_kept k l ops).
Proof. induction ops as [|o ops IH]; intros l; [apply _|]. apply and_dec; [apply _|apply IH]. Defined.

(** A new container of each kind. *)
Definition sl_new (k : sl_kind) : option (sl_container A) :=
  match k with
  | KSorted => netsnmp_container_get_ssll calloc_ok
  | KStack => netsnmp_container_get_usll calloc_ok
  | KQueue => netsnmp_container_get_fifo calloc_ok
  end.

Hypothesis calloc_grants : ∀ n m, calloc_ok n m = true.

Lemma sl_do_spec k c l o :
  sl_rep k c l → sl_op_valid o → sl_op_kept k l o →
  ∃ c', sl_do c o = Ok (c', (l_do k l o).2) ∧ sl_rep k c' (l_do k l o).1.
Proof.
  intros H Hv Hk. destruct o as [a|a|a|a| | |]; cbn [sl_do l_do fst snd sl_op_kept] in *.
  - destruct (insert_list k c l a H Hv) as (c' & -> & Hc & _); [done|]. by exists c'.
  - destruct (remove_list k c l a H) as (c' & -> & Hc & _); [by intros x ->|]. by exists c'.
  - exists c. unfold _ssll_find. rewrite (get_list k c l (Some a) true H) by (by intros ? [= ->]).
    by rewrite found_find by (done || apply H).
  - exists c. unfold _ssll_find_next. rewrite (get_list k c l a false H) by (by intros ? ->).
    destruct a as [a|]; [|done]. destruct Hk as [-> Hone]. rewrite after_next; [done| |done].
    by apply H.
  - exists c. unfold _ssll_size. pose proof H as ((cs & _ & _ & _ & _ & ->) & _). done.
  - exists c. rewrite (for_each_list k c l _ [] H), visit_collect. done.
  - destruct (clear_list k c l (Some (λ l p, Ok (l ++ [p]))) [] (Some <$> l) H) as (c' & -> & Hc & _).
    { by rewrite visit_collect. }
    by exists c'.
Qed.

Lemma sl_run_spec k ops : ∀ c l, sl_rep k c l → Forall sl_op_valid ops → sl_ops_kept k l ops →
  ∃ c', sl_run c ops = Ok (c', (l_run k l ops).2) ∧ sl_rep k c' (l_run k l ops).1.
Proof.
  induction ops as [|o ops IH]; intros c l H Hv Hk; [by exists c|]. apply Forall_cons in Hv as [Ho Hv].
  destruct Hk as [Hko Hk].
  destruct (sl_do_spec k c l o H Ho Hko) as (c1 & E & H1). cbn [sl_run l_run]. rewrite E. m_step.
  destruct (l_do k l o) as [l1 r]. cbn [fst snd] in *.
  destruct (IH c1 l1 H1 Hv Hk) as (c2 & -> & H2). m_step. destruct (l_run k l1 ops) as [l2 rs]. by exists c2.
Qed.

(** C19: The pointer operations of a new list container of any kind are those of a list.
    While memory lasts, any sequence of insertions, removals, searches, traversals and
    clearings ends without undefined behaviour and gives the answers of the list
    operations: a sorted list puts an entry behind those that are not greater, a stack in
    front, a queue at the end; removing takes out the first equal entry, or the first
    one when none is named; a search gives the first entry with the same key, or no
    entry, and the search for the next one the entry with the next highest key.  The
    container then has exactly the nodes of the list, and a sorted list is sorted.

    The searches are those [sl_ops_kept] allows, where the code keeps the promise of
    container.h: in a sorted list, for a key that is in the list or above all entries
    (for another key the code gives the next greater entry, [ssll_search_sorted]), and
    for the next entry of a key that is there at most once; a search for the next entry
    of a key is meaningless in a list that is not sorted, as the code says. *)
Theorem ssll_refines_list k ops :
  Forall sl_op_valid ops → sl_ops_kept k [] ops →
  ∃ c c', sl_new k = Some c ∧ sl_run c ops = Ok (c', (l_run k [] ops).2) ∧
    sl_rep k c' (l_run k [] ops).1.
Proof.
  intros Hv Hk. assert (sl_new k = Some (SlContainer ∅ 0 0 None (kind_unsorted k) (kind_fifo k))) as Hn.
  { destruct k; unfold sl_new, netsnmp_container_get_fifo, netsnmp_container_get_singly_linked_list,
      netsnmp_container_get_usll, netsnmp_container_get_ssll; by rewrite calloc_grants. }
  destruct (sl_run_spec k ops _ [] (sl_rep_empty k 0) Hv Hk) as (c' & E & H). eexists _, c'. by split_and!.
Qed.

(** ** Iterators *)

(** The entries from [p], the current one, on. *)
Fixpoint sl_it_walk (n : nat) (c : sl_container A) (it : ssll_iterator) (p : option A) : M (list A) :=
  match p, n with
  | None, _ => Ok []
  | Some _, O => UB
  | Some a, S n => '(it, p) ← _ssll_iterator_next c it; l ← sl_it_walk n c it p; Ok (a :: l)
  end.

Lemma sl_it_walk_from n (c : sl_container A) (pre post : cells) :
  NoDup (pre ++ post).*1 → sl_nodes c = sl_build (pre ++ post) → (length post ≤ n)%nat →
  sl_it_walk n c (SsllIterator (sl_sync c) (head post.*1) None) (head post.*2) = Ok post.*2.
Proof.
  revert n pre. induction post as [|[p a] post IH]; intros n pre Hnd Hh Hn; [by destruct n|].
  destruct n as [|n]; cbn [length] in Hn; [lia|]. rewrite !fmap_cons. cbn [fst snd head sl_it_walk].
  unfold _ssll_iterator_next, _ssll_it2cont. cbn [si_sync si_pos si_last]. rewrite Z.eqb_refl.
  rewrite (sl_load_middle _ pre p a post) by (by rewrite ?Hh). m_step. cbn [sn_next].
  assert (sl_entry c (head post.*1) = Ok (head post.*2)) as ->.
  { destruct post as [|[q b] post]; [done|]. rewrite !fmap_cons. cbn [fst snd head sl_entry].
    rewrite (sl_load_middle _ (pre ++ [(p, a)]) q b post) by (rewrite <- app_assoc; by rewrite ?Hh). done. }
  m_step. rewrite (IH n (pre ++ [(p, a)])) by (rewrite <- ?app_assoc; done || lia). done.
Qed.

(** The container has changed since the iterator was reset. *)
Lemma iterator_stale (c : sl_container A) it :
  sl_sync c ≠ si_sync it →
  _ssll_iterator_curr c it = Ok None ∧ _ssll_iterator_first c it = Ok None ∧
  _ssll_iterator_next c it = Ok (it, None) ∧ _ssll_iterator_last c it = Ok (it, SlNull).
Proof.
  intros H. unfold _ssll_iterator_curr, _ssll_iterator_first, _ssll_iterator_next, _ssll_iterator_last, _ssll_it2cont.
  by rewrite (proj2 (Z.eqb_neq _ _)) by done.
Qed.

Lemma next_sync z : 0 ≤ z < 2 ^ 32 → u32 (z + 1) ≠ z.
Proof.
  intros Hz E. unfold u32 in E. destruct (decide (z + 1 = 2 ^ 32)) as [E1|].
  - rewrite E1, Z_mod_same_full in E. lia.
  - rewrite Z.mod_small in E by lia. lia.
Qed.

(** An iterator that was reset stands on the first entry, and moving it on visits
    every entry of the list once and in order.  Once an entry has been inserted or
    removed it gives nothing until it is reset, so that it never follows a pointer to a
    node that was freed. *)
Theorem ssll_iterator_visits k c l :
  sl_rep k c l → 0 ≤ sl_sync c < 2 ^ 32 →
  let it := _ssll_iterator_reset c in
  _ssll_iterator_curr c it = Ok (head l) ∧ _ssll_iterator_first c it = Ok (head l) ∧
  sl_it_walk (length l) c it (head l) = Ok l ∧
  (∀ a, valid a → ∃ c' rc, _ssll_insert compare calloc_ok alloc c (Some a) = Ok (c', rc) ∧
     _ssll_iterator_curr c' it = Ok None ∧ _ssll_iterator_next c' it = Ok (it, None)) ∧
  (∀ a, (∀ x, a = Some x → valid x) → ∃ c' rc, _ssll_remove compare c a = Ok (c', rc) ∧
     (rc = 0 → _ssll_iterator_curr c' it = Ok None ∧ _ssll_iterator_next c' it = Ok (it, None))).
Proof.
  intros H Hsync it. pose proof H as ((cs & <- & Hnd & Hh & Hhd & _) & _).
  assert (sl_entry c (head cs.*1) = Ok (head cs.*2)) as Hent.
  { destruct cs as [|[p a] cs]; [done|]. rewrite !fmap_cons. cbn [fst snd head sl_entry].
    rewrite (sl_load_middle _ [] p a cs) by (by rewrite ?Hh). done. }
  split_and!.
  - unfold _ssll_iterator_curr, _ssll_it2cont. cbn [it _ssll_iterator_reset si_sync si_pos]. by rewrite Z.eqb_refl, Hhd.
  - unfold _ssll_iterator_first, _ssll_it2cont. cbn [it _ssll_iterator_reset si_sync]. by rewrite Z.eqb_refl, Hhd.
  - unfold it, _ssll_iterator_reset. rewrite Hhd, length_fmap. by apply (sl_it_walk_from _ c []).
  - intros a Ha. destruct (insert_list k c cs.*2 a H Ha) as (c' & E & _ & Hs); [done|]. exists c', 0. split; [done|].
    destruct (iterator_stale c' it) as (? & _ & ? & _); [|done]. rewrite Hs. by apply next_sync.
  - intros a Ha. destruct (remove_list k c cs.*2 a H Ha) as (c' & E & _ & Hs). eexists c', _. split; [done|].
    intros Hrc. rewrite Hrc in Hs. cbn [Z.eqb] in Hs.
    destruct (iterator_stale c' it) as (? & _ & ? & _); [|done]. rewrite Hs. by apply next_sync.
Qed.
End Spec.
Arguments sl_op : clear implicits.

(** ** Examples *)

(** Numbers in ascending order, and the least address that is free. *)
Definition sub_compare (x y : Z) : M Z := Ok (x - y).

#[local] Instance sub_comparison : Comparison sub_compare (λ _, True) Z.sub.
Proof. split; try done; lia. Qed.

Definition first_free {A} (h : gmap nat (sl_node A)) : nat := fresh (dom h : gset nat).

Lemma first_free_fresh {A} (h : gmap nat (sl_node A)) : h !! first_free h = None.
Proof. pose proof (is_fresh (dom h : gset nat)) as H. by apply not_elem_of_dom. Qed.

Definition sample_ops : list (sl_op Z) :=
  [LInsert 5; LInsert 3; LInsert 9; LFind 5; LNext (Some 3); LRemove (Some 5); LFind 10; LAll; LSize; LRemove None; LClear].

Lemma ssll_refines_list_witness :
  ∃ c c', sl_new (A := Z) (λ _ _, true) KSorted = Some c ∧
    sl_run (compare := sub_compare) (λ _ _, true) first_free c sample_ops
      = Ok (c', (l_run (order := Z.sub) KSorted [] sample_ops).2) ∧
    sl_rep (valid := λ _, True) (order := Z.sub) KSorted c' (l_run (order := Z.sub) KSorted [] sample_ops).1.
Proof.
  apply (ssll_refines_list (compare := sub_compare) (valid := λ _, True) (λ _ _, true) first_free first_free_fresh).
  - done.
  - by repeat constructor.
  - apply (bool_decide_unpack _). by vm_compute.
Defined.

(** The answers in that run. *)
Example sample_answers :
  (l_run (order := Z.sub) KSorted [] sample_ops).2
  = [RInt 0; RInt 0; RInt 0; RPtr (Some 5); RPtr (Some 5); RInt 0; RPtr None; RList [Some 3; Some 9]; RInt 2;
     RInt 0; RList [Some 9]].
Proof. by vm_compute. Qed.

Definition sample_list : sl_container Z :=
  SlContainer (<[0%nat := SlNode (Some 3) (Some 1%nat)]> {[1%nat := SlNode (Some 7) None]}) 2 2 (Some 0%nat) 0 0.

Lemma sample_list_rep : sl_rep (valid := λ _, True) (order := Z.sub) KSorted sample_list [3; 7].
Proof.
  split_and!; try done; [|by repeat constructor|intros _; repeat constructor; unfold ole; lia].
  exists [(0%nat, 3); (1%nat, 7)]. split_and!; try done. apply (bool_decide_unpack _). by vm_compute.
Qed.

Lemma ssll_search_sorted_witness :
  _ssll_find sub_compare sample_list (Some 4) = Ok (head (filter (λ x, 0 ≤ x - 4) [3; 7])) ∧
  (Z.of_nat (length (filter (λ x, x - 4 = 0) [3; 7])) ≤ 1 →
   _ssll_find_next sub_compare sample_list (Some 4) = Ok (head (filter (λ x, 0 < x - 4) [3; 7]))).
Proof.
  apply (ssll_search_sorted (compare := sub_compare) (valid := λ _, True) (order := Z.sub) sample_list [3; 7] 4).
  - apply sample_list_rep.
  - done.
Defined.

Lemma ssll_iterator_visits_witness :
  let it := _ssll_iterator_reset sample_list in
  _ssll_iterator_curr sample_list it = Ok (head [3; 7]) ∧ _ssll_iterator_first sample_list it = Ok (head [3; 7]) ∧
  sl_it_walk (length [3; 7]) sample_list it (head [3; 7]) = Ok [3; 7] ∧
  (∀ a : Z, True → ∃ c' rc, _ssll_insert sub_compare (λ _ _, true) first_free sample_list (Some a) = Ok (c', rc) ∧
     _ssll_iterator_curr c' it = Ok None ∧ _ssll_iterator_next c' it = Ok (it, None)) ∧
  (∀ a : option Z, (∀ x, a = Some x → True) → ∃ c' rc, _ssll_remove sub_compare sample_list a = Ok (c', rc) ∧
     (rc = 0 → _ssll_iterator_curr c' it = Ok None ∧ _ssll_iterator_next c' it = Ok (it, None))).
Proof.
  apply (ssll_iterator_visits (compare := sub_compare) (valid := λ _, True) (order := Z.sub)
           (λ _ _, true) first_free first_free_fresh) with (k := KSorted).
  - done.
  - apply sample_list_rep.
  - by vm_compute.
Defined.

(** The last entry is given once, then the address of its node. *)
Example last_twice :
  ∃ it, _ssll_iterator_last sample_list (_ssll_iterator_reset sample_list) = Ok (it, SlData 7) ∧
    _ssll_iterator_last sample_list it = Ok (it, SlAddr 1).
Proof. eexists. split; by vm_compute. Qed.
