(* ===== verification/Alarm.v ===== *)
(** * Timers: snmplib/snmp_alarm.c

    Models the list of registered alarms and every operation on it: registering,
    unregistering, running the alarms that are due, the delay until the next one, and
    the system timer set for it.  A pointer to an alarm is its position in the list
    [thealarms]: no operation keeps one across a change of the list.  The clock, the
    memory and the callbacks are parameters; a callback is the list of operations on
    alarms that it performs.  Signals arrive between operations.

    The theorems: run_alarms ends and leaves no alarm due, having called each that was
    due once, the earliest first, except those a callback unregistered; what becomes of
    an alarm that was called; and the delay until the next alarm. *)

From S2P Require Import Prelude Session.
From stdpp Require Import prelude numbers list sorting.
From Stdlib Require Import ZArith Lia.
Open Scope Z_scope.

Definition SA_REPEAT : Z := 0x01.
Definition SIZEOF_SNMP_ALARM : Z := 44.

Record snmp_alarm := SnmpAlarm {
  a_t : timeval;
  a_flags : Z;
  a_clientreg : Z;
  a_t_last : timeval;
  a_t_next : timeval;
  a_clientarg : Z;
  a_thecallback : nat;
}.

#[global] Instance snmp_alarm_eq_dec : EqDecision snmp_alarm.
Proof. solve_decision. Defined.

(** What a callback may do to the alarms. *)
Inductive alarm_op :=
| ARegister (when flags : Z) (cb : nat) (arg : Z)
| ARegisterHr (t : timeval) (flags : Z) (cb : nat) (arg : Z)
| AUnregister (clientreg : Z)
| AUnregisterAll.

(** The static variables, how often the clock was read, the value of the system timer and
    the callbacks that were called so far. *)
Record alarms := Alarms {
  thealarms : list snmp_alarm;
  start_alarms : bool;
  regnum : Z;
  al_clock : nat;
  al_timer : option timeval;
  al_history : list (Z * Z);
}.

Definition set_thealarms (s : alarms) (l : list snmp_alarm) : alarms :=
  Alarms l (start_alarms s) (regnum s) (al_clock s) (al_timer s) (al_history s).
Definition al_tick (s : alarms) : alarms :=
  Alarms (thealarms s) (start_alarms s) (regnum s) (S (al_clock s)) (al_timer s) (al_history s).

Definition set_t_last (a : snmp_alarm) (t : timeval) : snmp_alarm :=
  SnmpAlarm (a_t a) (a_flags a) (a_clientreg a) t (a_t_next a) (a_clientarg a) (a_thecallback a).
Definition set_t_next (a : snmp_alarm) (t : timeval) : snmp_alarm :=
  SnmpAlarm (a_t a) (a_flags a) (a_clientreg a) (a_t_last a) t (a_clientarg a) (a_thecallback a).

Definition tv_zero : timeval := TV 0 0.

(** [while (tv_usec >= 1000000) { tv_usec -= 1000000; tv_sec += 1; }] *)
Fixpoint carry_loop (fuel : nat) (tv : timeval) : M timeval :=
  if 1000000 <=? tv_usec tv then
    match fuel with
    | O => UB
    | S fuel => carry_loop fuel (TV (s32 (tv_sec tv + 1)) (s32 (tv_usec tv - 1000000)))
    end
  else Ok tv.

(** [while (tv_usec < 0) { tv_sec -= 1; tv_usec += 1000000; }] *)
Fixpoint borrow_loop (fuel : nat) (tv : timeval) : M timeval :=
  if tv_usec tv <? 0 then
    match fuel with
    | O => UB
    | S fuel => borrow_loop fuel (TV (s32 (tv_sec tv - 1)) (s32 (tv_usec tv + 1000000)))
    end
  else Ok tv.

(** Field by field, without a carry. *)
Definition tv_add (a b : timeval) : timeval := TV (s32 (tv_sec a + tv_sec b)) (s32 (tv_usec a + tv_usec b)).

(** 2^31 microseconds are less than 2148 seconds. *)
Definition tv_fuel : nat := Z.to_nat 2148.

Definition alarm_at (s : alarms) (i : nat) : M snmp_alarm :=
  match thealarms s !! i with Some a => Ok a | None => UB end.

Definition put_alarm (s : alarms) (i : nat) (a : snmp_alarm) : M alarms :=
  _ ← alarm_at s i; Ok (set_thealarms s (<[i := a]> (thealarms s))).

(** The first alarm with that number is taken out. *)
Fixpoint without_alarm (clientreg : Z) (l : list snmp_alarm) : list snmp_alarm :=
  match l with
  | [] => []
  | a :: l => if a_clientreg a =? clientreg then l else a :: without_alarm clientreg l
  end.

Definition snmp_alarm_unregister (s : alarms) (clientreg : Z) : alarms :=
  set_thealarms s (without_alarm clientreg (thealarms s)).

Definition snmp_alarm_unregister_all (s : alarms) : alarms := set_thealarms s [].

Fixpoint find_specific_loop (clientreg : Z) (l : list snmp_alarm) (i : nat) : option nat :=
  match l with
  | [] => None
  | a :: l => if a_clientreg a =? clientreg then Some i else find_specific_loop clientreg l (S i)
  end.

Definition sa_find_specific (s : alarms) (clientreg : Z) : option nat :=
  find_specific_loop clientreg (thealarms s) 0.

(** A time that is further away than the interval is corrected. *)
Definition fix_skew (t_now : timeval) (a : snmp_alarm) : snmp_alarm :=
  if tv_sec (a_t a) <? s32 (tv_sec (a_t_next a) - tv_sec t_now)
  then set_t_next a (tv_add t_now (a_t a)) else a.

(** The list with the corrections, and the place of the lowest alarm with its time. *)
Fixpoint find_next_loop (t_now : timeval) (l : list snmp_alarm) (i : nat) (lowest : option (nat * timeval))
    : list snmp_alarm * option (nat * timeval) :=
  match l with
  | [] => ([], lowest)
  | a :: l =>
      let a := fix_skew t_now a in
      let lowest := match lowest with
                    | None => Some (i, a_t_next a)
                    | Some (j, t) => if timer_lt (a_t_next a) t then Some (i, a_t_next a) else lowest
                    end in
      let '(l, lowest) := find_next_loop t_now l (S i) lowest in (a :: l, lowest)
  end.

Section Timers.
Variable gettimeofday : nat → timeval.
Variable calloc_ok : Z → Z → bool.
(** The setting [NETSNMP_DS_LIB_ALARM_DONT_USE_SIG]. *)
Variable dont_use_sig : bool.
(** The body of a callback, given its number, its argument and the calls before. *)
Variable on_alarm : nat → Z → Z → list (Z * Z) → list alarm_op.

Definition sa_update_entry (s : alarms) (i : nat) : M alarms :=
  a ← alarm_at s i;
  if bool_decide (a_t_last a = tv_zero) then
    let t_now := gettimeofday (al_clock s) in
    let s := al_tick s in
    t_next ← carry_loop tv_fuel (tv_add t_now (a_t a));
    put_alarm s i (set_t_next (set_t_last a t_now) t_next)
  else if bool_decide (a_t_next a = tv_zero) then
    if negb (Z.land (a_flags a) SA_REPEAT =? 0) then
      if bool_decide (a_t a = tv_zero) then Ok (snmp_alarm_unregister s (a_clientreg a))
      else
        t_next ← carry_loop tv_fuel (tv_add (a_t_last a) (a_t a));
        put_alarm s i (set_t_next a t_next)
    else Ok (snmp_alarm_unregister s (a_clientreg a))
  else Ok s.

Definition sa_find_next (s : alarms) : alarms * option nat :=
  let t_now := gettimeofday (al_clock s) in
  let '(l, lowest) := find_next_loop t_now (thealarms s) 0 None in
  (set_thealarms (al_tick s) l, fst <$> lowest).

(** The state, the number of the alarm or 0, and [*delta] when there is one. *)
Definition get_next_alarm_delay_time (s : alarms) : M (alarms * Z * option timeval) :=
  let '(s, sa_ptr) := sa_find_next s in
  match sa_ptr with
  | None => Ok (s, 0, None)
  | Some i =>
      a ← alarm_at s i;
      let t_now := gettimeofday (al_clock s) in
      let s := al_tick s in
      if timer_lt (a_t_next a) t_now then Ok (s, s32 (a_clientreg a), Some (TV 0 1))
      else
        t_diff ← borrow_loop tv_fuel (TV (s32 (tv_sec (a_t_next a) - tv_sec t_now))
                                         (s32 (tv_usec (a_t_next a) - tv_usec t_now)));
        Ok (s, s32 (a_clientreg a), Some t_diff)
  end.

(** [setitimer] refuses microseconds out of range, and 0 stops the timer. *)
Definition setitimer (s : alarms) (v : timeval) : alarms :=
  let timer :=
    if (0 <=? tv_sec v) && (0 <=? tv_usec v) && (tv_usec v <? 1000000)
    then (if bool_decide (v = tv_zero) then None else Some v)
    else al_timer s in
  Alarms (thealarms s) (start_alarms s) (regnum s) (al_clock s) timer (al_history s).

Definition set_an_alarm (s : alarms) : M alarms :=
  '(s, nextalarm, delta) ← get_next_alarm_delay_time s;
  if negb (nextalarm =? 0) && negb dont_use_sig
  then match delta with Some d => Ok (setitimer s d) | None => UB end
  else Ok s.

(** A new alarm at the end of the list; the number is 0 when memory is refused. *)
Definition add_alarm (s : alarms) (t : timeval) (flags : Z) (cb : nat) (arg : Z) : M (alarms * Z) :=
  if calloc_ok 1 SIZEOF_SNMP_ALARM then
    let clientreg := regnum s in
    let i := length (thealarms s) in
    let a := SnmpAlarm t flags clientreg tv_zero tv_zero arg cb in
    s ← sa_update_entry (Alarms (thealarms s ++ [a]) (start_alarms s) (u32 (regnum s + 1)) (al_clock s)
                           (al_timer s) (al_history s)) i;
    s ← (if start_alarms s then set_an_alarm s else Ok s);
    a ← alarm_at s i;
    Ok (s, a_clientreg a)
  else Ok (s, 0).

Definition snmp_alarm_register (s : alarms) (when flags : Z) (cb : nat) (arg : Z) : M (alarms * Z) :=
  add_alarm s (if when =? 0 then TV 0 1 else TV (s32 when) 0) flags cb arg.

Definition snmp_alarm_register_hr (s : alarms) (t : timeval) (flags : Z) (cb : nat) (arg : Z)
    : M (alarms * Z) :=
  add_alarm s t flags cb arg.

Definition do_alarm_op (s : alarms) (o : alarm_op) : M alarms :=
  match o with
  | ARegister when flags cb arg => '(s, _) ← snmp_alarm_register s when flags cb arg; Ok s
  | ARegisterHr t flags cb arg => '(s, _) ← snmp_alarm_register_hr s t flags cb arg; Ok s
  | AUnregister n => Ok (snmp_alarm_unregister s n)
  | AUnregisterAll => Ok (snmp_alarm_unregister_all s)
  end.

Fixpoint do_alarm_ops (s : alarms) (l : list alarm_op) : M alarms :=
  match l with [] => Ok s | o :: l => s ← do_alarm_op s o; do_alarm_ops s l end.

(** [( *(a->thecallback)) (clientreg, a->clientarg)] *)
Definition call_alarm (s : alarms) (a : snmp_alarm) : M alarms :=
  let h := al_history s in
  do_alarm_ops (Alarms (thealarms s) (start_alarms s) (regnum s) (al_clock s) (al_timer s)
                  (h ++ [(a_clientreg a, a_clientarg a)]))
    (on_alarm (a_thecallback a) (a_clientreg a) (a_clientarg a) h).

(** One round, and whether there may be another one. *)
Definition run_alarm (s : alarms) : M (alarms * bool) :=
  let '(s, next) := sa_find_next s in
  match next with
  | None => Ok (s, false)
  | Some i =>
      a ← alarm_at s i;
      let t_now := gettimeofday (al_clock s) in
      let s := al_tick s in
      if timer_lt (a_t_next a) t_now then
        s ← call_alarm s a;
        match sa_find_specific s (a_clientreg a) with
        | None => Ok (s, true)
        | Some j =>
            b ← alarm_at s j;
            s ← put_alarm s j (set_t_next (set_t_last b t_now) tv_zero);
            s ← sa_update_entry s j;
            Ok (s, true)
        end
      else Ok (s, false)
  end.

Fixpoint run_alarms (fuel : nat) (s : alarms) : M alarms :=
  match fuel with
  | O => UB
  | S fuel => '(s, again) ← run_alarm s; if (again : bool) then run_alarms fuel s else Ok s
  end.

Definition alarm_handler (fuel : nat) (s : alarms) : M alarms :=
  s ← run_alarms fuel s; set_an_alarm s.

Definition init_snmp_alarm (s : alarms) : alarms :=
  Alarms (thealarms s) false (regnum s) (al_clock s) (al_timer s) (al_history s).

Definition init_alarm_post_config (s : alarms) : M alarms :=
  set_an_alarm (Alarms (thealarms s) true (regnum s) (al_clock s) (al_timer s) (al_history s)).
End Timers.

(** ** Times *)

Definition micros (tv : timeval) : Z := tv_sec tv * 1000000 + tv_usec tv.

(** A time of the clock, and an interval. *)
Definition time_ok (tv : timeval) : Prop := 0 ≤ tv_sec tv < 2 ^ 30 ∧ 0 ≤ tv_usec tv < 1000000.

Lemma tv_fuel_two : ∃ n, tv_fuel = S (S n).
Proof. exists (Z.to_nat 2146). unfold tv_fuel. lia. Qed.

Lemma carry_loop_spec tv :
  0 ≤ tv_sec tv < 2 ^ 31 - 1 → 0 ≤ tv_usec tv < 2000000 →
  ∃ tv', carry_loop tv_fuel tv = Ok tv' ∧ micros tv' = micros tv ∧
    0 ≤ tv_sec tv' ∧ tv_sec tv ≤ tv_sec tv' ≤ tv_sec tv + 1 ∧ 0 ≤ tv_usec tv' < 1000000.
Proof.
  intros Hs Hu. destruct tv_fuel_two as [n ->]. cbn [carry_loop].
  destruct (Z.leb_spec 1000000 (tv_usec tv)).
  - cbn [tv_usec]. rewrite (s32_id (tv_usec tv - _)), (s32_id (tv_sec tv + 1)) by lia.
    destruct (Z.leb_spec 1000000 (tv_usec tv - 1000000)); [lia|].
    eexists. split; [done|]. unfold micros. cbn [tv_sec tv_usec]. lia.
  - exists tv. split; [done|]. lia.
Qed.

Lemma borrow_loop_spec tv :
  - 2 ^ 31 + 1 ≤ tv_sec tv < 2 ^ 31 → - 1000000 ≤ tv_usec tv < 2000000 →
  ∃ tv', borrow_loop tv_fuel tv = Ok tv' ∧ micros tv' = micros tv ∧ 0 ≤ tv_usec tv' ∧
    (tv_usec tv < 1000000 → tv_usec tv' < 1000000).
Proof.
  intros Hs Hu. destruct tv_fuel_two as [n ->]. cbn [borrow_loop].
  destruct (Z.ltb_spec (tv_usec tv) 0).
  - cbn [tv_usec]. rewrite (s32_id (tv_usec tv + _)), (s32_id (tv_sec tv - 1)) by lia.
    destruct (Z.ltb_spec (tv_usec tv + 1000000) 0); [lia|].
    eexists. split; [done|]. unfold micros. cbn [tv_sec tv_usec]. lia.
  - exists tv. split; [done|]. lia.
Qed.

Lemma tv_add_spec a b : time_ok a → time_ok b → tv_add a b = TV (tv_sec a + tv_sec b) (tv_usec a + tv_usec b).
Proof. unfold time_ok. intros [??] [??]. unfold tv_add. by rewrite !s32_id by lia. Qed.

Lemma timer_lt_irrefl a : timer_lt a a = false.
Proof. unfold timer_lt. by rewrite Z.eqb_refl, Z.ltb_irrefl. Qed.

Lemma timer_lt_iff a b :
  timer_lt a b = true ↔ tv_sec a < tv_sec b ∨ tv_sec a = tv_sec b ∧ tv_usec a < tv_usec b.
Proof.
  unfold timer_lt. destruct (Z.eqb_spec (tv_sec a) (tv_sec b)); rewrite Z.ltb_lt; lia.
Qed.

Lemma timer_ge_spec a b :
  timer_lt a b = false ↔ tv_sec b < tv_sec a ∨ tv_sec a = tv_sec b ∧ tv_usec b ≤ tv_usec a.
Proof.
  unfold timer_lt. destruct (Z.eqb_spec (tv_sec a) (tv_sec b)); rewrite Z.ltb_ge; lia.
Qed.

Lemma timer_ge_trans a b c : timer_lt b a = false → timer_lt c b = false → timer_lt c a = false.
Proof. rewrite !timer_ge_spec. lia. Qed.

(** ** One moment

    From here on the clock stands at [T] while the operations run. *)

Section Moment.
Context (T : timeval) (T_ok : time_ok T) (T_set : T ≠ tv_zero).

Definition is_due (a : snmp_alarm) : bool := timer_lt (a_t_next a) T.

Record alarm_ok (a : snmp_alarm) : Prop := {
  ok_interval : time_ok (a_t a);
  ok_last : a_t_last a ≠ tv_zero;
  ok_next : 0 ≤ tv_sec (a_t_next a) < 2 ^ 31 ∧ 0 ≤ tv_usec (a_t_next a) < 2000000;
}.

Record alarms_ok (s : alarms) : Prop := {
  ok_alarms : Forall alarm_ok (thealarms s);
  ok_unique : NoDup (a_clientreg <$> thealarms s);
  ok_numbers : Forall (λ a, 0 < a_clientreg a < regnum s) (thealarms s);
  ok_regnum : 0 < regnum s < 2 ^ 32;
}.

Definition due_alarms (s : alarms) : list snmp_alarm := filter (λ a, is_due a = true) (thealarms s).

(** The next time is the interval from [T] on. *)
Definition rescheduled (a : snmp_alarm) : Prop :=
  micros (a_t_next a) = micros T + micros (a_t a).

Lemma fix_skew_cases a :
  alarm_ok a →
  (tv_sec (a_t_next a) - tv_sec T ≤ tv_sec (a_t a) ∧ fix_skew T a = a) ∨
  (tv_sec (a_t a) < tv_sec (a_t_next a) - tv_sec T ∧
   fix_skew T a = set_t_next a (TV (tv_sec T + tv_sec (a_t a)) (tv_usec T + tv_usec (a_t a)))).
Proof.
  intros [H1 _ [H2 H3]]. pose proof T_ok as [H4 H5]. unfold fix_skew. rewrite s32_id by lia.
  destruct (Z.ltb_spec (tv_sec (a_t a)) (tv_sec (a_t_next a) - tv_sec T)); [right|left]; (split; [lia|]); [|done].
  by rewrite tv_add_spec.
Qed.

Lemma fix_skew_reg a : a_clientreg (fix_skew T a) = a_clientreg a.
Proof. unfold fix_skew. by destruct (_ <? _). Qed.

Lemma fix_skew_ok a : alarm_ok a → alarm_ok (fix_skew T a).
Proof.
  intros H. pose proof T_ok as [H4 H5]. destruct (fix_skew_cases a H) as [[_ ->]|[_ ->]]; [done|].
  destruct H as [[H1 H1'] H2 H3]. split; cbn; [done|done|]. lia.
Qed.

(** The correction leaves an alarm that is due alone, and makes none due. *)
Lemma fix_skew_due a : alarm_ok a → is_due (fix_skew T a) = is_due a ∧ (is_due a = true → fix_skew T a = a).
Proof.
  intros H. destruct (fix_skew_cases a H) as [[_ ->]|[Hs ->]]; [done|].
  destruct H as [[H1 H1'] H2 H3]. unfold is_due. cbn [a_t_next set_t_next].
  assert (timer_lt (TV (tv_sec T + tv_sec (a_t a)) (tv_usec T + tv_usec (a_t a))) T = false) as ->
    by (apply timer_ge_spec; cbn; lia).
  assert (timer_lt (a_t_next a) T = false) as -> by (apply timer_ge_spec; lia). done.
Qed.

Lemma fix_skew_twice a : alarm_ok a → fix_skew T (fix_skew T a) = fix_skew T a.
Proof.
  intros H. pose proof (fix_skew_ok a H) as H'. destruct (fix_skew_cases a H) as [[_ E]|[_ E]].
  { by rewrite !E. }
  destruct (fix_skew_cases _ H') as [[_ ?]|[Hs _]]; [done|]. rewrite E in Hs. cbn in Hs. lia.
Qed.

Lemma fix_skew_rescheduled a : alarm_ok a → rescheduled a → rescheduled (fix_skew T a).
Proof.
  intros H HP. destruct (fix_skew_cases a H) as [[_ ->]|[_ ->]]; [done|]. unfold rescheduled, micros. cbn. lia.
Qed.

(** ** The earliest alarm *)

Lemma find_next_loop_spec l : ∀ i low,
  let '(l', low') := find_next_loop T l i low in
  l' = fix_skew T <$> l ∧
  match low' with
  | None => l = [] ∧ low = None
  | Some (j, t) =>
      (low = Some (j, t) ∨ ∃ k a, j = (i + k)%nat ∧ l' !! k = Some a ∧ t = a_t_next a) ∧
      (∀ a, a ∈ l' → timer_lt (a_t_next a) t = false) ∧
      (∀ j0 t0, low = Some (j0, t0) → timer_lt t0 t = false)
  end.
Proof.
  induction l as [|x l IH]; intros i low; cbn [find_next_loop].
  { split; [done|]. destruct low as [[j t]|]; [|done]. split; [by left|]. split; [by intros a ?%elem_of_nil|].
    intros ?? [= <- <-]. apply timer_lt_irrefl. }
  cbv zeta. set (y := fix_skew T x). set (low1 := match low with None => _ | Some _ => _ end).
  specialize (IH (S i) low1). destruct (find_next_loop T l (S i) low1) as [l' low'].
  destruct IH as [-> IH]. split; [done|].
  assert (∃ j1 t1, low1 = Some (j1, t1) ∧ timer_lt (a_t_next y) t1 = false ∧
            (∀ j0 t0, low = Some (j0, t0) → timer_lt t0 t1 = false) ∧
            (low = Some (j1, t1) ∨ j1 = i ∧ t1 = a_t_next y)) as (j1 & t1 & E1 & Hy & Hlow & Hfrom).
  { unfold low1. destruct low as [[j0 t0]|].
    - destruct (timer_lt (a_t_next y) t0) eqn:E; eexists _, _; (split; [done|]).
      + split; [apply timer_lt_irrefl|]. split; [|by right]. intros ?? [= <- <-].
        apply timer_ge_spec. apply timer_lt_iff in E. lia.
      + split; [done|]. split; [|by left]. intros ?? [= <- <-]. apply timer_lt_irrefl.
    - eexists _, _. split; [done|]. split; [apply timer_lt_irrefl|]. split; [done|by right]. }
  destruct low' as [[j t]|]; [|by destruct IH as [_ ->]]. destruct IH as (Hj & Hall & Hlow1).
  pose proof (Hlow1 j1 t1 E1) as H1t. split_and!.
  - rewrite E1 in Hj. destruct Hj as [[= -> ->]|(k & a & -> & Hk & ->)].
    + destruct Hfrom as [->|[-> ->]]; [by left|]. right. exists 0%nat, y. by rewrite Nat.add_0_r.
    + right. exists (S k), a. split; [lia|done].
  - intros a Ha. apply elem_of_cons in Ha as [->|Ha]; [|by apply Hall]. by apply (timer_ge_trans _ t1).
  - intros j0 t0 E. apply (timer_ge_trans _ t1); [done|by eapply Hlow].
Qed.

Context (clock : nat → timeval) (clock_stands : ∀ n, clock n = T).

(** The list after a search: only skewed times have changed. *)
Definition skew_fixed (s : alarms) : alarms := set_thealarms (al_tick s) (fix_skew T <$> thealarms s).

Lemma sa_find_next_spec s :
  ∃ r, sa_find_next clock s = (skew_fixed s, r) ∧
  match r with
  | None => thealarms s = []
  | Some i => ∃ a, thealarms (skew_fixed s) !! i = Some a ∧
      (∀ b, b ∈ thealarms (skew_fixed s) → timer_lt (a_t_next b) (a_t_next a) = false)
  end.
Proof.
  unfold sa_find_next. rewrite clock_stands. pose proof (find_next_loop_spec (thealarms s) 0 None) as H.
  destruct (find_next_loop T (thealarms s) 0 None) as [l low]. destruct H as [-> H]. eexists. split; [done|].
  destruct low as [[j t]|]; cbn; [|by apply H].
  destruct H as ([?|(k & a & -> & Hk & ->)] & Hall & _); [done|]. exists a. by rewrite Nat.add_0_l.
Qed.

(** ** Operations of a callback *)

(** What [s] became after operations that register at most [k] alarms and call none. *)
Record keeps (k : Z) (s s' : alarms) : Prop := {
  k_ok : alarms_ok s';
  k_old : ∀ b', b' ∈ thealarms s' →
    (∃ b, b ∈ thealarms s ∧ (b' = b ∨ b' = fix_skew T b)) ∨ regnum s ≤ a_clientreg b' ∧ is_due b' = false;
  k_regnum : regnum s ≤ regnum s' ≤ regnum s + k;
  k_history : al_history s' = al_history s;
}.

Lemma keeps_refl s : alarms_ok s → keeps 0 s s.
Proof. intros H. split; [done| |lia|done]. intros b Hb. left. exists b. auto. Qed.

Lemma ok_elem s a : alarms_ok s → a ∈ thealarms s → alarm_ok a ∧ 0 < a_clientreg a < regnum s.
Proof.
  intros H Ha. pose proof (ok_alarms s H) as H1. pose proof (ok_numbers s H) as H2.
  rewrite Forall_forall in H1, H2. auto.
Qed.

Lemma keeps_trans k1 k2 s1 s2 s3 :
  alarms_ok s1 → keeps k1 s1 s2 → keeps k2 s2 s3 → keeps (k1 + k2) s1 s3.
Proof.
  intros H1 [O2 F2 R2 E2] [O3 F3 R3 E3]. split; [done| |lia|by rewrite E3].
  intros b3 Hb3. destruct (F3 b3 Hb3) as [(b2 & Hb2 & Eb)|[Hr Hd]]; [|right; split; [lia|done]].
  destruct (F2 b2 Hb2) as [(b1 & Hb1 & Eb1)|[Hr Hd]].
  - left. exists b1. split; [done|]. destruct (ok_elem s1 b1 H1 Hb1) as [Hok _].
    destruct Eb as [->| ->]; [done|]. destruct Eb1 as [->| ->]; right; [done|]. by apply fix_skew_twice.
  - right. destruct (ok_elem s2 b2 O2 Hb2) as [Hok _]. destruct Eb as [->| ->]; [done|].
    rewrite fix_skew_reg. split; [done|]. by rewrite (proj1 (fix_skew_due b2 Hok)).
Qed.

Lemma regs_fixed (l : list snmp_alarm) : a_clientreg <$> (fix_skew T <$> l) = a_clientreg <$> l.
Proof. induction l as [|a l IH]; [done|]. rewrite !fmap_cons, fix_skew_reg. by rewrite IH. Qed.

Lemma keeps_skew s : alarms_ok s → keeps 0 s (skew_fixed s).
Proof.
  intros H. split; [|intros b' (b & -> & Hb)%list_elem_of_fmap; left; eauto|cbn; lia|done].
  split; cbn [thealarms skew_fixed set_thealarms regnum al_tick].
  - apply Forall_fmap. eapply Forall_impl; [apply (ok_alarms s H)|]. apply fix_skew_ok.
  - rewrite regs_fixed. apply H.
  - apply Forall_fmap. eapply Forall_impl; [apply (ok_numbers s H)|]. intros a. cbn. by rewrite fix_skew_reg.
  - apply H.
Qed.

Lemma sublist_elem {A} (l1 l2 : list A) a : l1 `sublist_of` l2 → a ∈ l1 → a ∈ l2.
Proof. induction 1; rewrite ?elem_of_cons; naive_solver. Qed.

Lemma sublist_nodup_map {A B} (f : A → B) l1 l2 :
  l1 `sublist_of` l2 → NoDup (f <$> l2) → NoDup (f <$> l1).
Proof.
  induction 1 as [|x l1 l2 Hl IH|x l1 l2 Hl IH]; [done|..]; rewrite ?fmap_cons; intros [Hx Hn]%NoDup_cons; [|auto].
  constructor; [|auto]. rewrite list_elem_of_fmap in *. intros (y & E & Hy). apply Hx. eauto using sublist_elem.
Qed.

Lemma without_alarm_sublist n l : without_alarm n l `sublist_of` l.
Proof.
  induction l as [|b l IH]; cbn [without_alarm]; [done|].
  destruct (_ =? _); [by apply sublist_cons|by apply sublist_skip].
Qed.

(** Fewer alarms. *)
Lemma alarms_ok_sublist s l : alarms_ok s → l `sublist_of` thealarms s → alarms_ok (set_thealarms s l).
Proof.
  intros [H1 H2 H3 H4] Hl. rewrite Forall_forall in H1, H3. split; cbn; [| |by apply Forall_forall; eauto using sublist_elem|done].
  - apply Forall_forall. eauto using sublist_elem.
  - by eapply sublist_nodup_map.
Qed.

Lemma keeps_fewer s l : alarms_ok s → l `sublist_of` thealarms s → keeps 0 s (set_thealarms s l).
Proof.
  intros H Hl. split; [by apply alarms_ok_sublist| |cbn; lia|done].
  intros b Hb. left. exists b. split; [|by left]. by eapply sublist_elem.
Qed.

Context (calloc_ok : Z → Z → bool) (dont_use_sig : bool).

Lemma get_delay_spec s :
  alarms_ok s → ∃ n d, get_next_alarm_delay_time clock s
    = Ok (match thealarms s with [] => skew_fixed s | _ => al_tick (skew_fixed s) end, n, d) ∧
    (n ≠ 0 → is_Some d).
Proof.
  intros H. unfold get_next_alarm_delay_time. destruct (sa_find_next_spec s) as (r & -> & Hr).
  destruct r as [i|]; [|rewrite Hr; by exists 0, None].
  destruct Hr as (a & Ha & _). unfold alarm_at. rewrite Ha. m_step. rewrite clock_stands.
  assert (∃ x l, thealarms s = x :: l) as (x & l & E).
  { destruct (thealarms s) eqn:E; [|by eauto]. unfold skew_fixed in Ha. rewrite E in Ha. done. }
  rewrite E. destruct (timer_lt _ T); [by eexists _, (Some _)|].
  pose proof (k_ok _ _ _ (keeps_skew s H)) as H'.
  destruct (ok_elem _ a H') as [[_ _ [Hn1 Hn2]] _]; [by eapply list_elem_of_lookup_2|].
  pose proof T_ok as [HT1 HT2]. rewrite (s32_id (tv_sec _ - _)), (s32_id (tv_usec _ - _)) by lia.
  destruct (borrow_loop_spec (TV (tv_sec (a_t_next a) - tv_sec T) (tv_usec (a_t_next a) - tv_usec T)))
    as (d & -> & _); [cbn; lia..|]. m_step. by eexists _, (Some d).
Qed.

Lemma same_alarms_keeps s s' :
  alarms_ok s → thealarms s' = thealarms s → regnum s' = regnum s → al_history s' = al_history s → keeps 0 s s'.
Proof.
  intros H Hl Hr Hh. split; [|rewrite Hl; intros b Hb; left; exists b; auto|lia|done].
  destruct H. split; by rewrite ?Hl, ?Hr.
Qed.

Lemma set_an_alarm_spec s :
  alarms_ok s → ∃ s', set_an_alarm clock dont_use_sig s = Ok s' ∧ keeps 0 s s' ∧
    length (thealarms s') = length (thealarms s).
Proof.
  intros H. unfold set_an_alarm. destruct (get_delay_spec s H) as (n & d & -> & Hd). m_step.
  set (s1 := match thealarms s with [] => _ | _ => _ end).
  assert (∀ s2, thealarms s2 = thealarms s1 → regnum s2 = regnum s1 → al_history s2 = al_history s1 →
    keeps 0 s s2 ∧ length (thealarms s2) = length (thealarms s)) as Hs.
  { intros s2 El Er Eh. pose proof (keeps_skew s H) as Hk.
    assert (thealarms s1 = thealarms (skew_fixed s) ∧ regnum s1 = regnum (skew_fixed s) ∧
            al_history s1 = al_history (skew_fixed s)) as (E1 & E2 & E3).
    { unfold s1. by destruct (thealarms s). }
    split; [|rewrite El, E1; cbn; by rewrite length_fmap].
    apply (keeps_trans 0 0 _ _ _ H Hk), same_alarms_keeps; [apply (k_ok _ _ _ Hk)|congruence..]. }
  destruct (Z.eqb_spec n 0) as [->|Hn]; cbn [negb andb]; [by eexists; split; [done|]; apply Hs|].
  destruct dont_use_sig; cbn [negb]; [by eexists; split; [done|]; apply Hs|].
  destruct (Hd Hn) as [v ->]. eexists. split; [done|]. by apply Hs.
Qed.

(** A new alarm is not due. *)
Lemma next_time t :
  time_ok t → ∃ t', carry_loop tv_fuel (tv_add T t) = Ok t' ∧ micros t' = micros T + micros t ∧
    timer_lt t' T = false ∧ 0 ≤ tv_sec t' < 2 ^ 31 ∧ 0 ≤ tv_usec t' < 1000000.
Proof.
  intros [H1 H2]. pose proof T_ok as [HT1 HT2]. rewrite tv_add_spec by done.
  destruct (carry_loop_spec (TV (tv_sec T + tv_sec t) (tv_usec T + tv_usec t))) as (t' & -> & Hm & _ & Hs & Hu);
    [cbn; lia..|].
  cbn [tv_sec tv_usec] in *. exists t'. unfold micros in *. cbn [tv_sec tv_usec] in Hm.
  split_and!; try lia; [done|]. apply timer_ge_spec. nia.
Qed.

Lemma keeps_new s b st c tm :
  alarms_ok s → alarm_ok b → a_clientreg b = regnum s → is_due b = false → regnum s + 1 < 2 ^ 32 →
  keeps 1 s (Alarms (thealarms s ++ [b]) st (u32 (regnum s + 1)) c tm (al_history s)).
Proof.
  intros [O1 O2 O3 O4] Hb Er Hd Hr. rewrite u32_id by lia.
  split; cbn [thealarms regnum al_history]; [| |lia|done].
  - split; cbn [thealarms regnum]; [| | |lia].
    + apply Forall_app. split; [done|]. by constructor.
    + rewrite fmap_app. apply NoDup_app. split_and!; [done| |apply NoDup_singleton].
      intros n Hn ->%list_elem_of_singleton. apply list_elem_of_fmap in Hn as (x & E & Hx).
      rewrite Forall_forall in O3. apply O3 in Hx. lia.
    + apply Forall_app. split; [eapply Forall_impl; [exact O3|]; cbn; lia|]. constructor; [lia|done].
  - intros x [Hx|Hx]%elem_of_app; [left; exists x; auto|]. apply list_elem_of_singleton in Hx as ->.
    right. split; [lia|done].
Qed.

Lemma add_alarm_spec s t flags cb arg :
  alarms_ok s → time_ok t → regnum s + 1 < 2 ^ 32 →
  ∃ s' n, add_alarm clock calloc_ok dont_use_sig s t flags cb arg = Ok (s', n) ∧ keeps 1 s s'.
Proof.
  intros H Ht Hr. unfold add_alarm. destruct (calloc_ok _ _).
  2: { eexists _, _. split; [done|]. pose proof (keeps_refl s H) as [? ? ? ?]. split; [done|done|lia|done]. }
  cbv zeta. unfold sa_update_entry, alarm_at. cbn [thealarms]. rewrite list_lookup_middle by done.
  m_step. cbn [a_t_last]. rewrite bool_decide_eq_true_2 by done. cbn [al_clock a_t]. rewrite clock_stands.
  destruct (next_time t Ht) as (t' & -> & Hm & Hge & Hrange). m_step.
  unfold put_alarm, alarm_at. cbn [al_tick thealarms]. rewrite list_lookup_middle by done. m_step.
  set (b := set_t_next _ _). set (s1 := set_thealarms _ _).
  assert (s1 = Alarms (thealarms s ++ [b]) (start_alarms s) (u32 (regnum s + 1)) (S (al_clock s))
                 (al_timer s) (al_history s)) as Es.
  { unfold s1, set_thealarms. cbn [al_tick thealarms start_alarms regnum al_clock al_timer al_history].
    f_equal. rewrite insert_app_r_alt by lia. by rewrite Nat.sub_diag. }
  assert (keeps 1 s s1) as Hk.
  { rewrite Es. apply keeps_new; try done. split; cbn; [done|done|lia]. }
  assert (length (thealarms s1) = S (length (thealarms s))) as Hl by (rewrite Es; cbn; rewrite length_app; simpl; lia).
  destruct (start_alarms s1).
  - destruct (set_an_alarm_spec s1 (k_ok _ _ _ Hk)) as (s2 & -> & Hk2 & Hl2). m_step.
    destruct (lookup_lt_is_Some_2 (thealarms s2) (length (thealarms s))) as [x ->]; [lia|]. m_step.
    eexists _, _. split; [done|]. by apply (keeps_trans 1 0 _ _ _ H Hk).
  - m_step. destruct (lookup_lt_is_Some_2 (thealarms s1) (length (thealarms s))) as [x ->]; [lia|]. m_step.
    eexists _, _. split; [done|]. done.
Qed.

Definition alarm_op_ok (o : alarm_op) : Prop :=
  match o with
  | ARegister when _ _ _ => 0 ≤ when < 2 ^ 30
  | ARegisterHr t _ _ _ => time_ok t
  | _ => True
  end.

Lemma do_alarm_op_spec s o :
  alarms_ok s → alarm_op_ok o → regnum s + 1 < 2 ^ 32 →
  ∃ s', do_alarm_op clock calloc_ok dont_use_sig s o = Ok s' ∧ keeps 1 s s'.
Proof.
  intros H Ho Hr.
  assert (∀ l, l `sublist_of` thealarms s → keeps 1 s (set_thealarms s l)) as Hless.
  { intros l Hl. destruct (keeps_fewer s l H Hl). split; [done|done|lia|done]. }
  destruct o as [w f cb arg|t f cb arg|n|]; cbn [do_alarm_op].
  - unfold snmp_alarm_register. destruct (add_alarm_spec s (if w =? 0 then TV 0 1 else TV (s32 w) 0) f cb arg)
      as (s' & n & -> & Hk); [done| |done|by exists s']. cbn in Ho. unfold time_ok.
    destruct (w =? 0); cbn; rewrite ?s32_id; lia.
  - unfold snmp_alarm_register_hr. destruct (add_alarm_spec s t f cb arg) as (s' & n & -> & Hk); [done..|by exists s'].
  - eexists. split; [done|]. apply Hless, without_alarm_sublist.
  - eexists. split; [done|]. apply Hless, sublist_nil_l.
Qed.

Lemma do_alarm_ops_spec l : ∀ s,
  alarms_ok s → Forall alarm_op_ok l → regnum s + Z.of_nat (length l) < 2 ^ 32 →
  ∃ s', do_alarm_ops clock calloc_ok dont_use_sig s l = Ok s' ∧ keeps (Z.of_nat (length l)) s s'.
Proof.
  induction l as [|o l IH]; intros s H Hl Hr; cbn [do_alarm_ops].
  { exists s. split; [done|]. by apply keeps_refl. }
  apply Forall_cons in Hl as [Ho Hl]. cbn [length] in *.
  destruct (do_alarm_op_spec s o H Ho) as (s1 & -> & H1); [lia|]. m_step. pose proof (k_regnum _ _ _ H1).
  destruct (IH s1 (k_ok _ _ _ H1) Hl) as (s2 & -> & H2); [lia|]. exists s2. split; [done|].
  replace (Z.of_nat (S (length l))) with (1 + Z.of_nat (length l)) by lia. by eapply keeps_trans.
Qed.

(** ** An alarm that was called *)

Lemma find_specific_spec n l : ∀ i,
  match find_specific_loop n l i with
  | Some j => ∃ k b, j = (i + k)%nat ∧ l !! k = Some b ∧ a_clientreg b = n
  | None => n ∉ a_clientreg <$> l
  end.
Proof.
  induction l as [|a l IH]; intros i; cbn [find_specific_loop]; [apply not_elem_of_nil|].
  destruct (Z.eqb_spec (a_clientreg a) n) as [E|E].
  { exists 0%nat, a. by rewrite Nat.add_0_r. }
  specialize (IH (S i)). destruct (find_specific_loop n l (S i)).
  - destruct IH as (k & b & -> & Hk & Hb). exists (S k), b. split; [lia|done].
  - rewrite fmap_cons. apply not_elem_of_cons. split; congruence.
Qed.

Lemma without_alarm_reg n l x : NoDup (a_clientreg <$> l) → x ∈ without_alarm n l → a_clientreg x ≠ n.
Proof.
  induction l as [|a l IH]; cbn [without_alarm]; [by intros _ ?%elem_of_nil|].
  rewrite fmap_cons. intros [Ha Hn]%NoDup_cons Hx. destruct (Z.eqb_spec (a_clientreg a) n) as [<-|E].
  - intros Hr. apply Ha. apply list_elem_of_fmap. eauto.
  - apply elem_of_cons in Hx as [->|Hx]; [done|]. auto.
Qed.

(** What [s] became when the alarm [n] was given its next time or taken out. *)
Record settled (n : Z) (s s' : alarms) : Prop := {
  st_ok : alarms_ok s';
  st_regnum : regnum s' = regnum s;
  st_history : al_history s' = al_history s;
  st_from : ∀ x, x ∈ thealarms s' →
    x ∈ thealarms s ∧ a_clientreg x ≠ n ∨
    a_clientreg x = n ∧ Z.land (a_flags x) SA_REPEAT ≠ 0 ∧ rescheduled x ∧ is_due x = false;
}.

(** Another alarm with the same number at its place. *)
Lemma replaced_ok s j b b' :
  alarms_ok s → thealarms s !! j = Some b → a_clientreg b' = a_clientreg b → alarm_ok b' →
  alarms_ok (set_thealarms s (<[j := b']> (thealarms s))) ∧
  (∀ x, x ∈ <[j := b']> (thealarms s) → x = b' ∨ x ∈ thealarms s ∧ a_clientreg x ≠ a_clientreg b).
Proof.
  intros [O1 O2 O3 O4] Hj Er Hb.
  assert (a_clientreg <$> <[j := b']> (thealarms s) = a_clientreg <$> thealarms s) as Hregs.
  { rewrite list_fmap_insert, Er. apply list_insert_id. by rewrite list_lookup_fmap, Hj. }
  split.
  - split; cbn [set_thealarms thealarms regnum]; [by apply Forall_insert|by rewrite Hregs| |done].
    apply Forall_insert; [done|]. rewrite Er. by apply (Forall_lookup_1 _ _ _ _ O3 Hj).
  - intros x (i & Hi)%list_elem_of_lookup. destruct (decide (i = j)) as [->|Hij].
    + rewrite list_lookup_insert_eq in Hi by (by eapply lookup_lt_Some). left. congruence.
    + rewrite list_lookup_insert_ne in Hi by done. right. split; [by eapply list_elem_of_lookup_2|].
      intros E. apply Hij. eapply NoDup_lookup; [exact O2|rewrite list_lookup_fmap, Hi; cbn; by rewrite E|].
      by rewrite list_lookup_fmap, Hj.
Qed.

Lemma settle_spec s j b :
  alarms_ok s → thealarms s !! j = Some b →
  ∃ s', (s1 ← put_alarm s j (set_t_next (set_t_last b T) tv_zero); sa_update_entry clock s1 j) = Ok s' ∧
    settled (a_clientreg b) s s'.
Proof.
  intros H Hj. destruct (ok_elem s b H) as [[Hi Hl Hn] Hreg]; [by eapply list_elem_of_lookup_2|].
  set (b0 := set_t_next (set_t_last b T) tv_zero).
  unfold put_alarm, alarm_at. rewrite Hj. m_step. unfold sa_update_entry, alarm_at. cbn [set_thealarms thealarms].
  rewrite list_lookup_insert_eq by (by eapply lookup_lt_Some). m_step.
  rewrite bool_decide_eq_false_2 by done. cbn [a_t_next b0 set_t_next]. rewrite bool_decide_eq_true_2 by done.
  assert (∀ st, st = snmp_alarm_unregister (set_thealarms s (<[j := b0]> (thealarms s))) (a_clientreg b) →
    settled (a_clientreg b) s st) as Hgone.
  { intros st ->. destruct (replaced_ok s j b b0 H Hj) as [Hok Hx]; [done|split; cbn; [done|done|lia]|].
    pose proof (without_alarm_sublist (a_clientreg b) (<[j := b0]> (thealarms s))) as Hsub.
    split; [by apply alarms_ok_sublist|done|done|]. intros x Hin. left.
    pose proof (without_alarm_reg _ _ _ (ok_unique _ Hok) Hin) as Hne.
    destruct (Hx x (sublist_elem _ _ _ Hsub Hin)) as [->|[? ?]]; [done|by split]. }
  change (a_flags b0) with (a_flags b). change (a_t b0) with (a_t b). change (a_t_last b0) with T.
  change (a_clientreg b0) with (a_clientreg b). destruct (Z.eqb_spec (Z.land (a_flags b) SA_REPEAT) 0) as [Ef|Ef]; cbn [negb];
    [eexists; split; [reflexivity|]; apply Hgone; reflexivity|].
  case_bool_decide; [eexists; split; [reflexivity|]; apply Hgone; reflexivity|].
  destruct (next_time (a_t b) Hi) as (t' & -> & Hm & Hge & Hb1 & Hb2). m_step.
  unfold put_alarm, alarm_at. cbn [set_thealarms thealarms]. rewrite list_lookup_insert_eq by (by eapply lookup_lt_Some).
  m_step. eexists. split; [done|]. unfold set_thealarms at 1. cbn [set_thealarms thealarms]. rewrite list_insert_insert_eq.
  match goal with |- context [<[j := ?b']> (thealarms s)] => destruct (replaced_ok s j b b' H Hj) as [Hok Hx] end;
    [done|split; cbn; [done|done|lia]|].
  split; [exact Hok|done|done|]. intros x Hin. destruct (Hx x Hin) as [->|?]; [|by left]. right. by split_and!.
Qed.

(** ** A round *)

Lemma elem_of_due s a : a ∈ due_alarms s ↔ a ∈ thealarms s ∧ is_due a = true.
Proof. unfold due_alarms. rewrite list_elem_of_filter. tauto. Qed.

Context (on_alarm : nat → Z → Z → list (Z * Z) → list alarm_op) (K : Z).
Hypothesis callbacks_ok : ∀ cb n arg h,
  Forall alarm_op_ok (on_alarm cb n arg h) ∧ Z.of_nat (length (on_alarm cb n arg h)) ≤ K.

(** [a] was called: it was due and none was due before it; what the list is made of then. *)
Record round (a : snmp_alarm) (s s' : alarms) : Prop := {
  r_due : a ∈ due_alarms s;
  r_first : ∀ d, d ∈ due_alarms s → timer_lt (a_t_next d) (a_t_next a) = false;
  r_history : al_history s' = al_history s ++ [(a_clientreg a, a_clientarg a)];
  r_from : ∀ x, x ∈ thealarms s' →
    (∃ y, y ∈ thealarms s ∧ a_clientreg y ≠ a_clientreg a ∧ (x = y ∨ x = fix_skew T y)) ∨
    (a_clientreg x = a_clientreg a ∧ Z.land (a_flags x) SA_REPEAT ≠ 0 ∧ rescheduled x ∧ is_due x = false) ∨
    (regnum s ≤ a_clientreg x ∧ is_due x = false);
}.

Lemma call_alarm_spec s a :
  alarms_ok s → regnum s + K < 2 ^ 32 →
  ∃ s', call_alarm clock calloc_ok dont_use_sig on_alarm s a = Ok s' ∧ alarms_ok s' ∧
    regnum s ≤ regnum s' ≤ regnum s + K ∧
    al_history s' = al_history s ++ [(a_clientreg a, a_clientarg a)] ∧
    (∀ x, x ∈ thealarms s' → (∃ y, y ∈ thealarms s ∧ (x = y ∨ x = fix_skew T y)) ∨
       regnum s ≤ a_clientreg x ∧ is_due x = false).
Proof.
  intros H Hr. unfold call_alarm. cbv zeta.
  destruct (callbacks_ok (a_thecallback a) (a_clientreg a) (a_clientarg a) (al_history s)) as [Hops Hlen].
  set (s0 := Alarms _ _ _ _ _ _). assert (alarms_ok s0) as H0 by (destruct H; by split).
  destruct (do_alarm_ops_spec (on_alarm (a_thecallback a) (a_clientreg a) (a_clientarg a) (al_history s)) s0)
    as (s' & -> & [Ok1 F1 R1 Hh]); [done|done|cbn; lia|].
  exists s'. cbn [regnum s0] in R1. split_and!; try done; lia.
Qed.

(** A round after the call: the alarm is settled unless it is gone. *)
Lemma settle_called s n :
  alarms_ok s →
  ∃ s', match sa_find_specific s n with
        | None => Ok (s, true)
        | Some j =>
            b ← alarm_at s j;
            s ← put_alarm s j (set_t_next (set_t_last b T) tv_zero);
            s ← sa_update_entry clock s j;
            Ok (s, true)
        end = Ok (s', true) ∧ settled n s s'.
Proof.
  intros H. unfold sa_find_specific. pose proof (find_specific_spec n (thealarms s) 0) as Hf.
  destruct (find_specific_loop n (thealarms s) 0) as [j|].
  - destruct Hf as (k & b & -> & Hk & <-). rewrite Nat.add_0_l. unfold alarm_at at 1. rewrite Hk. m_step.
    destruct (settle_spec s k b H Hk) as (s' & E & Hs). exists s'. split; [|done].
    destruct (put_alarm s k _) as [s1| |]; cbn [mbind M_bind] in E |- *; [|done..]. by rewrite E.
  - exists s. split; [done|]. split; [done|done|done|]. intros x Hx. left. split; [done|].
    intros E. apply Hf. apply list_elem_of_fmap. eauto.
Qed.

Lemma run_alarm_spec s :
  alarms_ok s → regnum s + K < 2 ^ 32 →
  ∃ s' again, run_alarm clock calloc_ok dont_use_sig on_alarm s = Ok (s', again) ∧ alarms_ok s' ∧
    regnum s ≤ regnum s' ≤ regnum s + K ∧
    if (again : bool) then ∃ a, round a s s'
    else due_alarms s = [] ∧ keeps 0 s s'.
Proof.
  intros H Hr. destruct (callbacks_ok 0 0 0 []) as [_ HK].
  pose proof (keeps_skew s H) as Hsk. pose proof (k_ok _ _ _ Hsk) as H1.
  unfold run_alarm. destruct (sa_find_next_spec s) as (r & -> & Hnext). destruct r as [i|].
  2: { eexists _, false. split; [done|]. split; [done|]. split; [cbn; lia|]. split; [|done].
       unfold due_alarms. by rewrite Hnext. }
  destruct Hnext as (a & Hi & Hlow).
  assert (alarm_at (skew_fixed s) i = Ok a) as -> by (unfold alarm_at; by rewrite Hi). m_step. rewrite clock_stands.
  assert (a ∈ thealarms (skew_fixed s)) as Ha by (by eapply list_elem_of_lookup_2).
  destruct (list_elem_of_fmap_1 _ _ _ Ha) as (y & Ey & Hy). destruct (ok_elem s y H Hy) as [Hyok _].
  destruct (fix_skew_due y Hyok) as [Hd1 Hd2]. rewrite <- Ey in Hd1.
  destruct (timer_lt (a_t_next a) T) eqn:Edue.
  2: { eexists _, false. split; [done|]. split; [destruct H1; by split|]. split; [cbn; lia|].
       split; [|by apply (keeps_trans 0 0 _ _ _ H Hsk), same_alarms_keeps].
       apply elem_of_nil_inv. intros b [Hb Hbd]%elem_of_due. destruct (ok_elem s b H Hb) as [Hbok _].
       destruct (fix_skew_due b Hbok) as [_ Hb2]. specialize (Hb2 Hbd).
       assert (b ∈ thealarms (skew_fixed s)) as Hb' by (apply list_elem_of_fmap; eauto).
       unfold is_due in Hbd. by rewrite (timer_ge_trans T (a_t_next a) (a_t_next b) Edue (Hlow b Hb')) in Hbd. }
  assert (is_due y = true) as Hyd by (by rewrite <- Hd1). rewrite (Hd2 Hyd) in Ey. subst y.
  destruct (call_alarm_spec (al_tick (skew_fixed s)) a) as (s2 & -> & H2 & R2 & Eh & F2); [destruct H1; by split|done|].
  m_step. destruct (settle_called s2 (a_clientreg a) H2) as (s3 & -> & [H3 R3 Eh3 F3]).
  eexists s3, true. split; [done|]. split; [done|]. split; [cbn in R2; lia|]. exists a. split.
  - by apply elem_of_due.
  - intros d Hd. apply elem_of_due in Hd as [Hd Hdd]. destruct (ok_elem s d H Hd) as [Hdok _].
    apply Hlow. apply list_elem_of_fmap. exists d. split; [|done]. symmetry. by apply fix_skew_due.
  - by rewrite Eh3, Eh.
  - intros x Hx. destruct (F3 x Hx) as [[Hx2 Hne]|Hset]; [|by right; left].
    destruct (F2 x Hx2) as [(z & Hz & Ez)|Hnew]; [left|by right; right].
    destruct (list_elem_of_fmap_1 _ _ _ Hz) as (w & -> & Hw). destruct (ok_elem s w H Hw) as [Hwok _].
    exists w. split; [done|]. assert (x = fix_skew T w) as ->.
    { destruct Ez as [->| ->]; [done|]. by apply fix_skew_twice. }
    rewrite fix_skew_reg in Hne. split; [done|by right].
Qed.

(** ** All rounds *)

Lemma unique_alarm s a b :
  alarms_ok s → a ∈ thealarms s → b ∈ thealarms s → a_clientreg a = a_clientreg b → a = b.
Proof.
  intros H (i & Hi)%list_elem_of_lookup (j & Hj)%list_elem_of_lookup E.
  assert (i = j) as ->; [|congruence]. eapply NoDup_lookup; [apply (ok_unique s H)|..].
  - by rewrite list_lookup_fmap, Hi.
  - rewrite list_lookup_fmap, Hj. cbn. by rewrite E.
Qed.

(** Where an alarm with a number of before comes from: it may have been called meanwhile. *)
Definition descends (s : alarms) (x : snmp_alarm) : Prop :=
  ∃ y, y ∈ thealarms s ∧ a_clientreg y = a_clientreg x ∧
    (x = y ∨ x = fix_skew T y ∨ Z.land (a_flags x) SA_REPEAT ≠ 0 ∧ rescheduled x).

Lemma round_descends a s s' x :
  round a s s' → x ∈ thealarms s' → a_clientreg x < regnum s → descends s x.
Proof.
  intros [Hd _ _ Hfrom] Hx Hr. destruct (Hfrom x Hx) as [(y & Hy & _ & E)|[(E & Hf & Hres & _)|[? _]]]; [| |lia].
  - exists y. split; [done|]. destruct E as [->| ->]; [by auto|]. rewrite fix_skew_reg. by auto.
  - apply elem_of_due in Hd as [Hd _]. exists a. split; [done|]. split; [done|]. by right; right.
Qed.

Lemma descends_trans s1 s2 x :
  alarms_ok s1 → alarms_ok s2 → descends s2 x →
  (∀ y, y ∈ thealarms s2 → a_clientreg y < regnum s1 → descends s1 y) → a_clientreg x < regnum s1 → descends s1 x.
Proof.
  intros H1 H2 (y & Hy & Er & E) Hall Hr. destruct (Hall y Hy) as (z & Hz & Ez & E1); [lia|].
  exists z. split; [done|]. split; [congruence|].
  destruct (ok_elem s1 z H1 Hz) as [Hzok _], (ok_elem s2 y H2 Hy) as [Hyok _].
  destruct E as [->|[->|?]]; [done| |by auto]. destruct E1 as [->|[->|[Hf Hres]]].
  - by auto.
  - right; left. by apply fix_skew_twice.
  - right; right. split; [|by apply fix_skew_rescheduled]. unfold fix_skew. by destruct (_ <? _).
Qed.

Lemma round_due a s s' d : alarms_ok s → round a s s' → d ∈ due_alarms s' → d ∈ due_alarms s ∧ d ≠ a.
Proof.
  intros H [_ _ _ Hfrom] [Hd Hdue]%elem_of_due.
  destruct (Hfrom d Hd) as [(y & Hy & Hne & E)|[(_ & _ & _ & ?)|[_ ?]]]; [|congruence..].
  destruct (ok_elem s y H Hy) as [Hyok _]. destruct (fix_skew_due y Hyok) as [H1 H2].
  assert (d = y) as ->. { destruct E as [->|E]; [done|]. rewrite E in Hdue |- *. rewrite H1 in Hdue. auto. }
  split; [by apply elem_of_due|]. by intros ->.
Qed.

(** An alarm that was due is due still, or it was called, or there is none with its number. *)
Lemma round_lost a s s' d :
  alarms_ok s → alarms_ok s' → round a s s' → d ∈ due_alarms s → d ≠ a → d ∉ due_alarms s' →
  a_clientreg d ∉ a_clientreg <$> thealarms s'.
Proof.
  intros H H' [Ha _ _ Hfrom] [Hd Hdue]%elem_of_due Hne Hnd (x & E & Hx)%list_elem_of_fmap.
  apply elem_of_due in Ha as [Ha _]. destruct (ok_elem s d H Hd) as [Hdok Hdr].
  destruct (Hfrom x Hx) as [(y & Hy & _ & Ex)|[(Er & _)|[? _]]]; [| |lia].
  - assert (y = d) as ->.
    { apply (unique_alarm s); [done..|]. destruct Ex as [->| ->]; [done|]. by rewrite fix_skew_reg in E. }
    apply Hnd, elem_of_due. destruct (fix_skew_due d Hdok) as [_ H2].
    destruct Ex as [->| ->]; [done|]. by rewrite H2 in Hx by done.
  - apply Hne. apply (unique_alarm s); [done..|congruence].
Qed.

Lemma due_nodup s : alarms_ok s → NoDup (due_alarms s).
Proof. intros H. apply NoDup_filter. eapply NoDup_fmap_1. apply (ok_unique s H). Qed.

Lemma round_fewer a s s' :
  alarms_ok s → alarms_ok s' → round a s s' → (length (due_alarms s') < length (due_alarms s))%nat.
Proof.
  intros H H' Hr. apply (submseteq_length (a :: due_alarms s')), NoDup_submseteq.
  - constructor; [|by apply due_nodup]. intros Ha. by destruct (round_due a s s' a H Hr Ha).
  - intros x [->|Hx]%elem_of_cons; [apply Hr|]. by destruct (round_due a s s' x H Hr Hx).
Qed.

(** What a run of all that is due has done. *)
Record ran (called : list snmp_alarm) (s s' : alarms) : Prop := {
  ran_ok : alarms_ok s';
  ran_none_due : due_alarms s' = [];
  ran_history : al_history s' = al_history s ++ ((λ a, (a_clientreg a, a_clientarg a)) <$> called);
  ran_once : NoDup called;
  ran_due : ∀ a, a ∈ called → a ∈ due_alarms s;
  ran_order : StronglySorted (λ a b, timer_lt (a_t_next b) (a_t_next a) = false) called;
  ran_all : ∀ a, a ∈ due_alarms s → a ∈ called ∨ a_clientreg a ∉ a_clientreg <$> thealarms s';
  ran_again : ∀ a x, a ∈ called → x ∈ thealarms s' → a_clientreg x = a_clientreg a →
    Z.land (a_flags x) SA_REPEAT ≠ 0 ∧ rescheduled x;
}.

Lemma ran_nothing s s' :
  alarms_ok s → due_alarms s = [] → keeps 0 s s' →
  ran [] s s' ∧ (∀ x, x ∈ thealarms s' → a_clientreg x < regnum s → descends s x).
Proof.
  intros H Hnone Hk. assert (due_alarms s' = []) as Hnone'.
  { apply elem_of_nil_inv. intros x [Hx Hxd]%elem_of_due.
    destruct (k_old _ _ _ Hk x Hx) as [(b & Hb & E)|[_ ?]]; [|congruence].
    destruct (ok_elem s b H Hb) as [Hbok _]. destruct (fix_skew_due b Hbok) as [E1 _].
    assert (b ∈ due_alarms s) as Hbd by (apply elem_of_due; split; [done|]; destruct E as [->| ->]; congruence).
    rewrite Hnone in Hbd. by apply elem_of_nil in Hbd. }
  split.
  - split; try done; [apply (k_ok _ _ _ Hk)|by rewrite (k_history _ _ _ Hk), app_nil_r|constructor|
      by intros a ?%elem_of_nil|constructor| |by intros a x ?%elem_of_nil].
    rewrite Hnone. by intros a ?%elem_of_nil.
  - intros x Hx Hxr. destruct (k_old _ _ _ Hk x Hx) as [(b & Hb & E)|[? _]]; [|lia].
    exists b. split; [done|]. destruct E as [->| ->]; rewrite ?fix_skew_reg; auto.
Qed.

Lemma ran_round a called s s1 s' :
  alarms_ok s → alarms_ok s1 → regnum s ≤ regnum s1 → round a s s1 → ran called s1 s' →
  (∀ x, x ∈ thealarms s' → a_clientreg x < regnum s1 → descends s1 x) →
  ran (a :: called) s s'.
Proof.
  intros H H1 Hr Hround [O1 O2 O3 O4 O5 O6 O7 O8] Hdesc.
  assert (a ∈ thealarms s) as Ha by (by apply elem_of_due, (r_due _ _ _ Hround)).
  destruct (ok_elem s a H Ha) as [_ Har].
  assert (∀ b, b ∈ called → b ∈ due_alarms s ∧ b ≠ a) as Hcalled by (intros b Hb; eapply round_due; eauto).
  split; [done|done|by rewrite O3, (r_history _ _ _ Hround), <- app_assoc| | | | |].
  - constructor; [|done]. intros Hin. by destruct (Hcalled a Hin).
  - intros b [->|Hb]%elem_of_cons; [apply Hround|]. by apply Hcalled.
  - apply StronglySorted_cons. split; [|done]. apply Forall_forall. intros b Hb.
    apply (r_first _ _ _ Hround). by apply Hcalled.
  - intros d Hd. destruct (decide (d ∈ a :: called)) as [|Hnot]; [by left|right].
    apply not_elem_of_cons in Hnot as [Hne Hnc].
    destruct (decide (d ∈ due_alarms s1)) as [Hd1|Hd1]; [by destruct (O7 d Hd1)|].
    pose proof (round_lost a s s1 d H H1 Hround Hd Hne Hd1) as Hlost.
    intros (x & E & Hx)%list_elem_of_fmap. apply elem_of_due in Hd as [Hd _]. destruct (ok_elem s d H Hd) as [_ Hdr].
    destruct (Hdesc x Hx) as (y & Hy & Ey & _); [lia|]. apply Hlost, list_elem_of_fmap. exists y. split; [congruence|done].
  - intros b x [->|Hb]%elem_of_cons Hx E; [|by eapply O8].
    destruct (Hdesc x Hx) as (y & Hy & Ey & Exy); [lia|]. destruct (ok_elem s1 y H1 Hy) as [Hyok _].
    destruct (r_from _ _ _ Hround y Hy) as [(z & _ & Hz & Ezy)|[(_ & Hf & Hres & _)|[? _]]]; [|clear Ey|lia].
    { destruct Ezy as [->| ->]; rewrite ?fix_skew_reg in Ey; congruence. }
    destruct Exy as [->|[->|?]]; [done| |done]. split; [|by apply fix_skew_rescheduled].
    unfold fix_skew. by destruct (_ <? _).
Qed.

Lemma run_alarms_ran n : ∀ s fuel,
  length (due_alarms s) = n → (n < fuel)%nat → alarms_ok s → regnum s + K * (Z.of_nat n + 1) < 2 ^ 32 →
  ∃ s' called, run_alarms clock calloc_ok dont_use_sig on_alarm fuel s = Ok s' ∧ ran called s s' ∧
    regnum s ≤ regnum s' ∧ (∀ x, x ∈ thealarms s' → a_clientreg x < regnum s → descends s x).
Proof.
  destruct (callbacks_ok 0 0 0 []) as [_ HK]. induction n as [n IH] using lt_wf_ind.
  intros s [|fuel] Hn Hf H Hr; [lia|]. cbn [run_alarms].
  destruct (run_alarm_spec s H) as (s1 & again & -> & H1 & R1 & Hround); [nia|]. m_step. destruct again.
  2: { destruct Hround as [Hnone Hk]. destruct (ran_nothing s s1 H Hnone Hk) as [Hran Hdesc].
       exists s1, []. split_and!; [done|done|lia|done]. }
  destruct Hround as [a Hround]. pose proof (round_fewer a s s1 H H1 Hround) as Hlt.
  destruct (IH (length (due_alarms s1))) with (s := s1) (fuel := fuel) as (s' & called & E & Hran & Hreg & Hdesc);
    [lia|done|lia|done|nia|].
  exists s', (a :: called). split_and!; [done|eapply (ran_round a called s s1 s'); done || lia|lia|].
  intros x Hx Hxr. eapply (descends_trans s s1); [done..|apply Hdesc; [done|lia]| |done].
  intros y Hy Hyr. by eapply round_descends.
Qed.

(** C18: run_alarms ends and leaves no alarm due.  At any one moment, whatever the callbacks
    register and unregister, one round per alarm that is due and one more are enough; the
    callbacks called are those of alarms that were due, each once and the one that has
    been due longest first; every alarm that was due was called, unless a callback
    unregistered it before; and an alarm that was called is registered afterwards only
    if it repeats, for its interval from that moment on.  The numbers of alarms stay
    unique throughout, as long as the counter does not wrap. *)
Theorem run_alarms_calls_due s fuel :
  alarms_ok s → (length (due_alarms s) < fuel)%nat →
  regnum s + K * (Z.of_nat (length (due_alarms s)) + 1) < 2 ^ 32 →
  ∃ s' called, run_alarms clock calloc_ok dont_use_sig on_alarm fuel s = Ok s' ∧ ran called s s'.
Proof.
  intros H Hf Hr. destruct (run_alarms_ran _ s fuel eq_refl Hf H Hr) as (s' & called & E & Hran & _).
  by exists s', called.
Qed.

(** The delay until the next alarm belongs to the alarm that is due first: it is one
    microsecond when that one is due already, and else exactly the time that is left;
    without alarms the number 0 says that there is none.  The microseconds of the delay
    are in range for the system timer when those of the alarm's time are. *)
Theorem next_alarm_delay s :
  alarms_ok s →
  (thealarms s = [] → get_next_alarm_delay_time clock s = Ok (skew_fixed s, 0, None)) ∧
  (thealarms s ≠ [] → ∃ a d,
     get_next_alarm_delay_time clock s = Ok (al_tick (skew_fixed s), s32 (a_clientreg a), Some d) ∧
     a ∈ thealarms (skew_fixed s) ∧
     (∀ b, b ∈ thealarms (skew_fixed s) → timer_lt (a_t_next b) (a_t_next a) = false) ∧
     if is_due a then d = TV 0 1
     else micros d = micros (a_t_next a) - micros T ∧ 0 ≤ tv_usec d ∧
          (tv_usec (a_t_next a) < 1000000 → tv_usec d < 1000000)).
Proof.
  intros H. unfold get_next_alarm_delay_time. destruct (sa_find_next_spec s) as (r & -> & Hr).
  destruct r as [i|]; [|by split; [|rewrite Hr]].
  destruct Hr as (a & Ha & Hlow). unfold alarm_at. rewrite Ha. m_step. rewrite clock_stands.
  split; [intros E; unfold skew_fixed in Ha; by rewrite E in Ha|]. intros _.
  assert (a ∈ thealarms (skew_fixed s)) as Hin by (by eapply list_elem_of_lookup_2).
  exists a. unfold is_due. destruct (timer_lt (a_t_next a) T); [by eexists|].
  destruct (ok_elem _ a (k_ok _ _ _ (keeps_skew s H)) Hin) as [[_ _ [Hn1 Hn2]] _].
  pose proof T_ok as [HT1 HT2]. rewrite (s32_id (tv_sec _ - _)), (s32_id (tv_usec _ - _)) by lia.
  destruct (borrow_loop_spec (TV (tv_sec (a_t_next a) - tv_sec T) (tv_usec (a_t_next a) - tv_usec T)))
    as (d & -> & Hm & Hu & Hv); [cbn; lia..|]. m_step. exists d. split; [done|]. split; [done|]. split; [done|].
  unfold micros in *. cbn [tv_sec tv_usec] in *. split_and!; [lia|done|]. intros. apply Hv. lia.
Qed.
End Moment.

(** ** Examples *)

Definition noon : timeval := TV 100 500000.

(** A repeating alarm and a single one that are due, the first unregistering the second
    and registering another one, and one that is not due. *)
Definition sample_alarms : alarms :=
  Alarms [SnmpAlarm (TV 10 0) SA_REPEAT 1 (TV 80 0) (TV 90 0) 7 0; SnmpAlarm (TV 5 0) 0 2 (TV 90 0) (TV 95 0) 8 1;
          SnmpAlarm (TV 150 0) 0 3 (TV 90 0) (TV 240 0) 9 1] false 4 0 None [].

Definition sample_callbacks (cb : nat) (n arg : Z) (h : list (Z * Z)) : list alarm_op :=
  match cb with O => [AUnregister 2; ARegister 5 SA_REPEAT 1 3] | _ => [] end.

Lemma sample_alarms_ok : alarms_ok sample_alarms.
Proof.
  split; [| |apply (bool_decide_unpack _); by vm_compute..].
  - repeat constructor; by vm_compute.
  - apply (bool_decide_unpack _). by vm_compute.
Qed.

Lemma run_alarms_calls_due_witness :
  ∃ s' called, run_alarms (λ _, noon) (λ _ _, true) true sample_callbacks 3 sample_alarms = Ok s' ∧
    ran noon called sample_alarms s'.
Proof.
  apply (run_alarms_calls_due noon) with (K := 2).
  - by vm_compute.
  - done.
  - done.
  - intros cb n arg h. destruct cb; cbn; (split; [|lia]); repeat constructor.
    all: cbn; lia.
  - apply sample_alarms_ok.
  - vm_compute. lia.
  - by vm_compute.
Defined.

Lemma next_alarm_delay_witness :
  (thealarms sample_alarms = [] →
   get_next_alarm_delay_time (λ _, TV 90 999999) sample_alarms = Ok (skew_fixed (TV 90 999999) sample_alarms, 0, None)) ∧
  (thealarms sample_alarms ≠ [] → ∃ a d,
     get_next_alarm_delay_time (λ _, TV 90 999999) sample_alarms
       = Ok (al_tick (skew_fixed (TV 90 999999) sample_alarms), s32 (a_clientreg a), Some d) ∧
     a ∈ thealarms (skew_fixed (TV 90 999999) sample_alarms) ∧
     (∀ b, b ∈ thealarms (skew_fixed (TV 90 999999) sample_alarms) → timer_lt (a_t_next b) (a_t_next a) = false) ∧
     if is_due (TV 90 999999) a then d = TV 0 1
     else micros d = micros (a_t_next a) - micros (TV 90 999999) ∧ 0 ≤ tv_usec d ∧
          (tv_usec (a_t_next a) < 1000000 → tv_usec d < 1000000)).
Proof.
  apply (next_alarm_delay (TV 90 999999)).
  - by vm_compute.
  - done.
  - apply sample_alarms_ok.
Defined.

(** An interval of 1.5 seconds that crosses a full second: the next time is taken for
    skewed at once and set without a carry.  In the second after that the delay has more
    than a million microseconds, the system timer refuses it, and no timer is set for the
    alarm. *)
Example carry_not_scheduled :
  match snmp_alarm_register_hr (λ _, TV 100 700000) (λ _ _, true) true
          (Alarms [] true 1 0 None []) (TV 1 500000) 0 0 0 with
  | Ok (s, _) =>
      a_t_next <$> thealarms s = [TV 101 1200000] ∧
      ('(_, n, d) ← get_next_alarm_delay_time (λ _, TV 101 100000) s; Ok (n, d)) = Ok (1, Some (TV 0 1100000)) ∧
      (s ← set_an_alarm (λ _, TV 101 100000) false s; Ok (al_timer s)) = Ok None
  | _ => False
  end.
Proof. vm_compute. done. Qed.

(** An alarm whose time is just now stops the timer instead of setting it. *)
Example timer_stopped :
  (s ← set_an_alarm (λ _, TV 90 0) false
         (Alarms [SnmpAlarm (TV 10 0) SA_REPEAT 1 (TV 80 0) (TV 90 0) 7 0] true 2 0 (Some (TV 1 0)) []);
   Ok (al_timer s)) = Ok None.
Proof. vm_compute. done. Qed.
