(* ===== verification/OidStash.v ===== *)
(** * Data kept by object identifier: snmplib/oid_stash.c

    A stash is a tree with one level per subidentifier; a node has a hash table of
    children, each slot a list of siblings.  The tree is an inductive type: the siblings
    of a slot are the list along [next_sibling], and [parent] of a node is the node whose
    table it is in.  Memory may be refused, and a node that was refused in the middle of an
    insertion is written through a null pointer.

    The theorems: adding and looking up data is a finite map from object identifiers;
    storing visits, and freeing releases, every entry once. *)

From S2P Require Import Prelude Ber Asn1 Session Message.
From stdpp Require Import prelude numbers list gmap.
From Stdlib Require Import ZArith Lia.
Open Scope Z_scope.

Definition OID_STASH_CHILDREN_SIZE : Z := 31.
Definition SIZEOF_OID_STASH_NODE : Z := 28.
Definition SNMPERR_SUCCESS : Z := 0.

Inductive netsnmp_oid_stash_node (D : Type) :=
| StashNode (value : Z) (children : list (list (netsnmp_oid_stash_node D))) (thedata : option D).
Arguments StashNode {D}.

Section Stash.
Context {D : Type}.
Notation stash := (netsnmp_oid_stash_node D).

Definition sh_value (t : stash) : Z := let 'StashNode v _ _ := t in v.
Definition sh_children (t : stash) : list (list stash) := let 'StashNode _ ch _ := t in ch.
Definition sh_data (t : stash) : option D := let 'StashNode _ _ d := t in d.

(** [children[v % children_size]]: the slot and the siblings in it. *)
Definition stash_slot (t : stash) (v : Z) : M (nat * list stash) :=
  let j := Z.to_nat (v mod Z.of_nat (length (sh_children t))) in
  match sh_children t !! j with Some sibs => Ok (j, sibs) | None => UB end.

(** The loop over the siblings. *)
Fixpoint find_sibling (v : Z) (l : list stash) : option stash :=
  match l with
  | [] => None
  | c :: l => if sh_value c =? v then Some c else find_sibling v l
  end.

(** A change of the node that the loop found, in its place. *)
Fixpoint set_sibling (v : Z) (t : stash) (l : list stash) : list stash :=
  match l with
  | [] => []
  | c :: l => if sh_value c =? v then t :: l else c :: set_sibling v t l
  end.

Definition set_slot (t : stash) (j : nat) (sibs : list stash) : stash :=
  StashNode (sh_value t) (<[j := sibs]> (sh_children t)) (sh_data t).

Variable calloc_ok : Z → Z → bool.

Definition netsnmp_oid_stash_create_sized_node (mysize : Z) : option stash :=
  if calloc_ok 1 SIZEOF_OID_STASH_NODE then
    if calloc_ok mysize 4 then Some (StashNode 0 (replicate (Z.to_nat mysize) []) None) else None
  else None.

Definition netsnmp_oid_stash_create_node : option stash :=
  netsnmp_oid_stash_create_sized_node OID_STASH_CHILDREN_SIZE.

(** The loop from a node on, for the rest of [lookup], and what follows it. *)
Fixpoint stash_add (t : stash) (lookup : list Z) (mydata : option D) : M (stash * Z) :=
  match lookup with
  | [] =>
      match sh_data t with
      | Some _ => Ok (t, SNMPERR_GENERR)
      | None => Ok (StashNode (sh_value t) (sh_children t) mydata, SNMPERR_SUCCESS)
      end
  | v :: lookup =>
      '(j, sibs) ← stash_slot t v;
      match find_sibling v sibs with
      | Some c =>
          '(c, rc) ← stash_add c lookup mydata;
          Ok (set_slot t j (set_sibling v c sibs), rc)
      | None =>
          match netsnmp_oid_stash_create_node with
          | None => UB
          | Some c =>
              '(c, rc) ← stash_add (StashNode v (sh_children c) (sh_data c)) lookup mydata;
              Ok (set_slot t j (c :: sibs), rc)
          end
      end
  end.

Definition netsnmp_oid_stash_add_data (root : option stash) (lookup : list Z) (mydata : option D)
    : M (option stash * Z) :=
  if decide (lookup = []) then Ok (root, SNMPERR_GENERR)
  else
    match match root with Some t => Some t | None => netsnmp_oid_stash_create_node end with
    | None => Ok (None, SNMPERR_MALLOC)
    | Some t => '(t, rc) ← stash_add t lookup mydata; Ok (Some t, rc)
    end.

Fixpoint stash_walk (t : stash) (lookup : list Z) : M (option stash) :=
  match lookup with
  | [] => Ok (Some t)
  | v :: lookup =>
      '(_, sibs) ← stash_slot t v;
      match find_sibling v sibs with
      | Some c => stash_walk c lookup
      | None => Ok None
      end
  end.

Definition netsnmp_oid_stash_get_node (root : option stash) (lookup : list Z) : M (option stash) :=
  match root with
  | None => Ok None
  | Some t => if decide (lookup = []) then Ok None else stash_walk t lookup
  end.

Definition netsnmp_oid_stash_get_data (root : option stash) (lookup : list Z) : M (option D) :=
  ret ← netsnmp_oid_stash_get_node root lookup;
  Ok (match ret with Some t => sh_data t | None => None end).

(** The object identifiers and data that are given to [dumpfn], in their order; [curoid] is
    an array of [MAX_OID_LEN], of which the part in use is kept. *)
Fixpoint stash_store (t : stash) (curoid : list Z) : M (list (list Z * D)) :=
  match t with
  | StashNode _ children _ =>
      (fix slots (l : list (list stash)) : M (list (list Z * D)) :=
         match l with
         | [] => Ok []
         | sibs :: l =>
             a ← (fix siblings (s : list stash) : M (list (list Z * D)) :=
                    match s with
                    | [] => Ok []
                    | c :: s =>
                        if MAX_OID_LEN <=? zlen curoid then UB
                        else
                          let curoid := curoid ++ [sh_value c] in
                          let here := match sh_data c with Some d => [(curoid, d)] | None => [] end in
                          below ← stash_store c curoid;
                          more ← siblings s;
                          Ok (here ++ below ++ more)
                    end) sibs;
             b ← slots l;
             Ok (a ++ b)
         end) children
  end.

Definition netsnmp_oid_stash_store (root : option stash) : M (list (list Z * D)) :=
  match root with None => Ok [] | Some t => stash_store t [] end.

(** The data given to [freefn], in their order. *)
Fixpoint stash_free (t : stash) : list D :=
  match t with
  | StashNode _ children _ =>
      concat (map (λ sibs, concat (map (λ c, option_list (sh_data c) ++ stash_free c) sibs)) children)
  end.

Definition netsnmp_oid_stash_free (root : option stash) : option stash * list D :=
  (None, match root with None => [] | Some t => stash_free t end).
End Stash.

(** ** Well-formed stashes *)

Section Map.
Context {D : Type}.
Notation stash := (netsnmp_oid_stash_node D).

(** Every child is in the slot of its value, at most once. *)
Inductive stash_ok : stash → Prop :=
| stash_ok_node v ch d :
    length ch = 31%nat →
    (∀ j sibs c, ch !! j = Some sibs → c ∈ sibs → sh_value c mod 31 = Z.of_nat j) →
    (∀ j sibs, ch !! j = Some sibs → NoDup (sh_value <$> sibs)) →
    (∀ j sibs c, ch !! j = Some sibs → c ∈ sibs → stash_ok c) →
    stash_ok (StashNode v ch d).

(** The siblings a subidentifier belongs to, and the data of an object identifier below. *)
Definition stash_sibs (t : stash) (v : Z) : list stash :=
  default [] (sh_children t !! Z.to_nat (v mod 31)).

Fixpoint stash_data (t : stash) (k : list Z) : option D :=
  match k with
  | [] => sh_data t
  | v :: k => c ← find_sibling v (stash_sibs t v); stash_data c k
  end.

Lemma slot_range v : (Z.to_nat (v mod 31) < 31)%nat.
Proof. pose proof (Z.mod_pos_bound v 31). lia. Qed.

Lemma stash_slot_ok t v :
  stash_ok t → stash_slot t v = Ok (Z.to_nat (v mod 31), stash_sibs t v) ∧
    sh_children t !! Z.to_nat (v mod 31) = Some (stash_sibs t v).
Proof.
  intros [v0 ch d Hl _ _ _]. unfold stash_slot, stash_sibs. cbn [sh_children]. rewrite Hl.
  change (Z.of_nat 31) with 31. destruct (lookup_lt_is_Some_2 ch (Z.to_nat (v mod 31))) as [sibs ->]; [|done].
  pose proof (slot_range v). lia.
Qed.

Lemma find_sibling_Some v (l : list stash) c : find_sibling v l = Some c → c ∈ l ∧ sh_value c = v.
Proof.
  induction l as [|x l IH]; cbn [find_sibling]; [done|]. destruct (Z.eqb_spec (sh_value x) v).
  - intros [= ->]. split; [by left|done].
  - intros H. destruct (IH H). split; [by right|done].
Qed.

Lemma find_sibling_None v (l : list stash) : find_sibling v l = None → v ∉ sh_value <$> l.
Proof.
  induction l as [|x l IH]; cbn [find_sibling]; [intros _; apply not_elem_of_nil|].
  destruct (Z.eqb_spec (sh_value x) v); [done|]. intros H. rewrite fmap_cons. apply not_elem_of_cons.
  split; [congruence|auto].
Qed.

Lemma find_sibling_elem v (l : list stash) c : NoDup (sh_value <$> l) → c ∈ l → sh_value c = v → find_sibling v l = Some c.
Proof.
  induction l as [|x l IH]; cbn [find_sibling]; [by intros _ ?%elem_of_nil|].
  rewrite fmap_cons. intros [Hx Hn]%NoDup_cons [->|Hc]%elem_of_cons Hv; [by rewrite Hv, Z.eqb_refl|].
  destruct (Z.eqb_spec (sh_value x) v) as [E|]; [|auto]. exfalso. apply Hx. apply list_elem_of_fmap.
  exists c. split; [congruence|done].
Qed.

Lemma set_sibling_values v (t : stash) l : sh_value t = v → sh_value <$> set_sibling v t l = sh_value <$> l.
Proof.
  intros Ht. induction l as [|x l IH]; cbn [set_sibling]; [done|]. destruct (Z.eqb_spec (sh_value x) v).
  - by rewrite !fmap_cons, Ht, <- e.
  - by rewrite !fmap_cons, IH.
Qed.

Lemma set_sibling_elem v (t : stash) l c : c ∈ set_sibling v t l → c = t ∨ c ∈ l.
Proof.
  induction l as [|x l IH]; cbn [set_sibling]; [by intros ?%elem_of_nil|]. destruct (_ =? _); rewrite !elem_of_cons; naive_solver.
Qed.

Lemma find_set_sibling v w (t : stash) l :
  sh_value t = v → v ∈ sh_value <$> l →
  find_sibling w (set_sibling v t l) = if decide (w = v) then Some t else find_sibling w l.
Proof.
  intros Ht. induction l as [|x l IH]; cbn [set_sibling find_sibling]; [by intros ?%elem_of_nil|].
  rewrite fmap_cons. intros Hv. destruct (Z.eqb_spec (sh_value x) v) as [E|E]; cbn [find_sibling].
  - rewrite Ht, E. destruct (Z.eqb_spec v w), (decide (w = v)); congruence.
  - apply elem_of_cons in Hv as [?|Hv]; [congruence|]. rewrite IH by done.
    destruct (Z.eqb_spec (sh_value x) w), (decide (w = v)); congruence.
Qed.

(** A slot with other siblings, of the same subidentifiers or one more. *)
Lemma set_slot_ok t v sibs :
  stash_ok t → NoDup (sh_value <$> sibs) → (∀ c, c ∈ sibs → stash_ok c ∧ sh_value c mod 31 = v mod 31) →
  stash_ok (set_slot t (Z.to_nat (v mod 31)) sibs).
Proof.
  intros [v0 ch d Hl Hm Hn Hc] Hs Hall. unfold set_slot. cbn [sh_value sh_children sh_data].
  pose proof (slot_range v). pose proof (Z.mod_pos_bound v 31).
  constructor; [by rewrite length_insert|..]; intros j l; (destruct (decide (j = Z.to_nat (v mod 31))) as [->|Hj];
    [rewrite list_lookup_insert_eq by lia|rewrite list_lookup_insert_ne by done]); eauto.
  - intros c [= <-] Hin. destruct (Hall c Hin) as [_ ->]. lia.
  - by intros [= <-].
  - intros c [= <-] Hin. by apply Hall.
Qed.

Lemma set_slot_sibs t v w sibs :
  stash_ok t →
  stash_sibs (set_slot t (Z.to_nat (v mod 31)) sibs) w
  = if decide (w mod 31 = v mod 31) then sibs else stash_sibs t w.
Proof.
  intros [v0 ch d Hl _ _ _]. unfold stash_sibs, set_slot. cbn [sh_children].
  pose proof (slot_range v). destruct (decide (w mod 31 = v mod 31)) as [->|Hne].
  - by rewrite list_lookup_insert_eq by lia.
  - rewrite list_lookup_insert_ne; [done|]. intros E. apply Hne.
    pose proof (Z.mod_pos_bound v 31). pose proof (Z.mod_pos_bound w 31). lia.
Qed.

Lemma new_node_ok v : stash_ok (StashNode v (replicate 31 []) None).
Proof.
  assert (∀ j (sibs : list stash), replicate 31 [] !! j = Some sibs → sibs = []) as H.
  { intros j sibs Hj. by apply lookup_replicate in Hj as [-> _]. }
  constructor; [apply length_replicate|..].
  - intros j sibs c ->%H ?%elem_of_nil. done.
  - intros j sibs ->%H. constructor.
  - intros j sibs c ->%H ?%elem_of_nil. done.
Qed.

Lemma new_node_data v k : stash_data (StashNode v (replicate 31 []) None) k = None.
Proof.
  destruct k as [|w k]; [done|]. cbn [stash_data]. unfold stash_sibs. cbn [sh_children].
  rewrite lookup_replicate_2 by apply slot_range. done.
Qed.

Lemma stash_child_ok t v c :
  stash_ok t → c ∈ stash_sibs t v → stash_ok c ∧ sh_value c mod 31 = v mod 31.
Proof.
  intros Ht Hc. destruct (stash_slot_ok t v Ht) as [_ Hs]. destruct Ht as [v0 ch d _ Hm _ Hok].
  cbn [sh_children] in Hs. split; [by eapply Hok|]. rewrite (Hm _ _ _ Hs Hc). pose proof (Z.mod_pos_bound v 31). lia.
Qed.

Lemma stash_sibs_nodup t v : stash_ok t → NoDup (sh_value <$> stash_sibs t v).
Proof. intros Ht. destruct (stash_slot_ok t v Ht) as [_ Hs]. destruct Ht as [v0 ch d _ _ Hn _]. by eapply Hn. Qed.

Context (calloc_ok : Z → Z → bool).
Hypothesis calloc_grants : ∀ n m, calloc_ok n m = true.

(** The data after an attempt to add [d] at [k]. *)
Definition with_data (look : list Z → option D) (k : list Z) (d : option D) (k' : list Z) : option D :=
  match look k with None => if decide (k' = k) then d else look k' | Some _ => look k' end.

Definition add_result (old : option D) : Z :=
  match old with Some _ => SNMPERR_GENERR | None => SNMPERR_SUCCESS end.

Lemma stash_create : netsnmp_oid_stash_create_node (D := D) calloc_ok = Some (StashNode 0 (replicate 31 []) None).
Proof. unfold netsnmp_oid_stash_create_node, netsnmp_oid_stash_create_sized_node. by rewrite !calloc_grants. Qed.

(** The data of a node in which the child [c] stands for [v]. *)
Lemma slot_data t v c sibs (look : list Z → option D) k d :
  stash_ok t →
  (∀ w, find_sibling w sibs = if decide (w = v) then Some c else find_sibling w (stash_sibs t v)) →
  (∀ k', look k' = (x ← find_sibling v (stash_sibs t v); stash_data x k')) →
  (∀ k', stash_data c k' = with_data look k d k') →
  ∀ k', stash_data (set_slot t (Z.to_nat (v mod 31)) sibs) k' = with_data (stash_data t) (v :: k) d k'.
Proof.
  intros Ht Hfind Hlook Hc k'. unfold with_data in *. cbn [stash_data]. rewrite <- Hlook.
  assert (∀ (x y z : option D), k' = [] → match look k with None => if decide (k' = v :: k) then x else y | Some _ => y end = y) as Hnil.
  { intros x y z ->. destruct (look k); [done|]. by rewrite decide_False. }
  destruct k' as [|w k'].
  { symmetry. apply (Hnil d (stash_data t []) None eq_refl). }
  cbn [stash_data]. rewrite set_slot_sibs by done. destruct (decide (w = v)) as [->|Hw].
  - rewrite decide_True by done. rewrite Hfind, decide_True by done. cbn [mbind option_bind]. rewrite Hc, <- Hlook.
    destruct (look k); [done|]. destruct (decide (k' = k)) as [->|Hk]; [by rewrite decide_True|].
    by rewrite decide_False by congruence.
  - assert (∀ x y : option D, match look k with None => if decide (w :: k' = v :: k) then x else y | Some _ => y end = y) as Hne.
    { intros x y. destruct (look k); [done|]. by rewrite decide_False by congruence. }
    rewrite Hne. destruct (decide (w mod 31 = v mod 31)) as [Hm|Hm]; [|done].
    rewrite Hfind, decide_False by done. unfold stash_sibs. by rewrite Hm.
Qed.

Lemma stash_add_spec k d : ∀ t, stash_ok t →
  ∃ t', stash_add calloc_ok t k d = Ok (t', add_result (stash_data t k)) ∧ stash_ok t' ∧
    sh_value t' = sh_value t ∧ (∀ k', stash_data t' k' = with_data (stash_data t) k d k') ∧
    (k ≠ [] → sh_data t' = sh_data t).
Proof.
  induction k as [|v k IH]; intros t Ht; cbn [stash_add].
  { destruct Ht as [v0 ch d0 Hl Hm Hn Hc]. cbn [sh_data stash_data]. unfold with_data. destruct d0 as [x|]; cbn [stash_data].
    - eexists. split; [done|]. split; [by constructor|]. done.
    - eexists. split; [done|]. split; [by constructor|]. split; [done|]. split; [|done].
      intros [|w k']; [by rewrite decide_True|]. by rewrite decide_False. }
  destruct (stash_slot_ok t v Ht) as [-> _]. m_step. cbn [stash_data].
  pose proof (stash_sibs_nodup t v Ht) as Hnd.
  destruct (find_sibling v (stash_sibs t v)) as [c|] eqn:Ef; cbn [mbind option_bind].
  - apply find_sibling_Some in Ef as Hc. destruct Hc as [Hin Hv]. destruct (stash_child_ok t v c Ht Hin) as [Hcok Hmod].
    destruct (IH c Hcok) as (c' & -> & Hc' & Hv' & Hdata & _). m_step. eexists. split; [done|].
    split; [|split; [done|split; [|done]]].
    + apply set_slot_ok; [done|by rewrite set_sibling_values by congruence|].
      intros x [->|Hx]%set_sibling_elem; [split; [done|]; congruence|by apply (stash_child_ok t)].
    + apply (slot_data t v c' _ (stash_data c)); [done| |by rewrite Ef|done].
      intros w. apply find_set_sibling; [congruence|]. apply list_elem_of_fmap. eauto.
  - rewrite stash_create. cbn [sh_children sh_data].
    destruct (IH (StashNode v (replicate 31 []) None) (new_node_ok v)) as (c' & -> & Hc' & Hv' & Hdata & _).
    m_step. rewrite new_node_data. eexists. split; [done|]. cbn [sh_value] in Hv'. split; [|split; [done|split; [|done]]].
    + apply set_slot_ok; [done| |].
      * rewrite fmap_cons, Hv'. constructor; [|done]. by apply find_sibling_None.
      * intros x [->|Hx]%elem_of_cons; [split; [done|]; congruence|by apply (stash_child_ok t)].
    + apply (slot_data t v c' _ (λ _, None)); [done| |by rewrite Ef|].
      * intros w. cbn [find_sibling]. rewrite Hv'. destruct (Z.eqb_spec v w), (decide (w = v)); congruence.
      * intros k'. rewrite Hdata. unfold with_data. rewrite !new_node_data. done.
Qed.

Lemma stash_walk_spec k : ∀ t, stash_ok t →
  ∃ r, stash_walk t k = Ok r ∧ match r with Some x => sh_data x | None => None end = stash_data t k.
Proof.
  induction k as [|v k IH]; intros t Ht; cbn [stash_walk stash_data]; [by eexists|].
  destruct (stash_slot_ok t v Ht) as [-> _]. m_step.
  destruct (find_sibling v (stash_sibs t v)) as [c|] eqn:Ef; [|by eexists].
  apply find_sibling_Some in Ef as [Hin _]. by apply IH, (stash_child_ok t v).
Qed.

(** ** Entries *)

(** The entries below a node whose object identifier is [cur]. *)
Fixpoint stash_entries (cur : list Z) (t : stash) : list (list Z * D) :=
  match t with
  | StashNode _ ch _ =>
      concat (map (λ sibs, concat (map (λ c,
        ((cur ++ [sh_value c],.) <$> option_list (sh_data c)) ++ stash_entries (cur ++ [sh_value c]) c) sibs)) ch)
  end.

Definition child_entries (cur : list Z) (c : stash) : list (list Z * D) :=
  ((cur ++ [sh_value c],.) <$> option_list (sh_data c)) ++ stash_entries (cur ++ [sh_value c]) c.

Lemma elem_of_entries cur t e :
  e ∈ stash_entries cur t ↔ ∃ j sibs c, sh_children t !! j = Some sibs ∧ c ∈ sibs ∧ e ∈ child_entries cur c.
Proof.
  destruct t as [v ch d]. cbn [stash_entries sh_children].
  rewrite list_elem_of_In, in_concat. setoid_rewrite in_map_iff. split.
  - intros (l & (sibs & <- & Hs) & He). apply in_concat in He as (l & Hl & He).
    apply in_map_iff in Hl as (c & <- & Hc). apply list_elem_of_In in Hs, Hc, He.
    apply list_elem_of_lookup in Hs as [j Hj]. by exists j, sibs, c.
  - intros (j & sibs & c & Hj & Hc & He). eexists. split; [exists sibs; split; [done|]|].
    + apply list_elem_of_In. by eapply list_elem_of_lookup_2.
    + apply in_concat. exists (child_entries cur c). split; [|by apply list_elem_of_In].
      apply in_map_iff. exists c. split; [done|]. by apply list_elem_of_In.
Qed.

(** They are the data of the stash. *)
Lemma entries_data t : stash_ok t → ∀ cur k d,
  (k, d) ∈ stash_entries cur t ↔ ∃ k', k' ≠ [] ∧ k = cur ++ k' ∧ stash_data t k' = Some d.
Proof.
  induction 1 as [v0 ch d0 Hl Hm Hn Hc IH]. intros cur k d. rewrite elem_of_entries. cbn [sh_children].
  assert (stash_ok (StashNode v0 ch d0)) as Hok by (by constructor). split.
  - intros (j & sibs & c & Hj & Hin & He).
    assert (stash_sibs (StashNode v0 ch d0) (sh_value c) = sibs) as Hs.
    { unfold stash_sibs. cbn [sh_children]. rewrite (Hm j sibs c Hj Hin), Nat2Z.id. by rewrite Hj. }
    assert (find_sibling (sh_value c) sibs = Some c) as Hf by (apply find_sibling_elem; eauto).
    unfold child_entries in He. apply elem_of_app in He as [He|He].
    + apply list_elem_of_fmap in He as (x & [= -> ->] & Hx). exists [sh_value c]. split; [done|]. split; [done|].
      cbn [stash_data]. rewrite Hs, Hf. cbn. by destruct (sh_data c); set_solver.
    + apply (IH j sibs c Hj Hin) in He as (k' & Hk' & -> & Hd). exists (sh_value c :: k'). split; [done|].
      split; [by rewrite <- app_assoc|]. cbn [stash_data]. rewrite Hs, Hf. done.
  - intros ([|v k'] & Hk' & -> & Hd); [done|]. cbn [stash_data] in Hd.
    destruct (stash_slot_ok _ v Hok) as [_ Hj]. cbn [sh_children] in Hj.
    destruct (find_sibling v (stash_sibs (StashNode v0 ch d0) v)) as [c|] eqn:Ef; [|done]. cbn in Hd.
    apply find_sibling_Some in Ef as [Hin <-]. eexists _, _, c. split; [done|]. split; [done|].
    unfold child_entries. apply elem_of_app. destruct k' as [|w k'].
    + left. cbn in Hd. rewrite Hd. set_solver.
    + right. apply (IH _ _ c Hj Hin). exists (w :: k'). by rewrite <- app_assoc.
Qed.

(** Every object identifier is no longer than [n]. *)
Fixpoint depth_le (n : nat) (t : stash) : Prop :=
  ∀ j sibs c, sh_children t !! j = Some sibs → c ∈ sibs → match n with O => False | S n => depth_le n c end.

Lemma new_node_depth n v : depth_le n (StashNode v (replicate 31 []) None).
Proof.
  destruct n; intros j sibs c Hj Hc; cbn [sh_children] in Hj; apply lookup_replicate in Hj as [-> _]; by apply elem_of_nil in Hc.
Qed.

Lemma entries_bind cur t : stash_entries cur t = concat (sh_children t) ≫= child_entries cur.
Proof.
  destruct t as [v ch d]. cbn [stash_entries sh_children]. induction ch as [|sibs ch IH]; [done|].
  cbn [map concat]. rewrite bind_app, <- IH. f_equal. clear. induction sibs as [|c sibs IH]; [done|].
  cbn [map concat]. rewrite bind_cons, <- IH. done.
Qed.

Lemma slots_nodup (ch : list (list stash)) : ∀ i,
  (∀ j sibs c, ch !! j = Some sibs → c ∈ sibs → sh_value c mod 31 = Z.of_nat (i + j)) →
  (∀ j sibs, ch !! j = Some sibs → NoDup (sh_value <$> sibs)) →
  NoDup (sh_value <$> concat ch).
Proof.
  induction ch as [|sibs ch IH]; intros i Hm Hn; [constructor|]. cbn [concat]. rewrite fmap_app. apply NoDup_app.
  split_and!; [by apply (Hn 0%nat)| |].
  - intros v (c & -> & Hc)%list_elem_of_fmap (c' & E & Hc')%list_elem_of_fmap.
    pose proof (Hm 0%nat sibs c eq_refl Hc) as H1.
    apply list_elem_of_In, in_concat in Hc' as (l & Hl & Hc'). apply list_elem_of_In in Hl, Hc'.
    apply list_elem_of_lookup in Hl as [j Hj]. pose proof (Hm (S j) l c' Hj Hc') as H2. rewrite E in H1. lia.
  - apply (IH (S i)); [|intros j; apply (Hn (S j))]. intros j l c Hj Hc. rewrite (Hm (S j) l c Hj Hc). lia.
Qed.

Lemma entries_nodup t : stash_ok t → ∀ cur, NoDup (stash_entries cur t).
Proof.
  induction 1 as [v0 ch d0 Hl Hm Hn Hc IH]. intros cur. rewrite entries_bind. cbn [sh_children].
  pose proof (slots_nodup ch 0 Hm Hn) as Hnd.
  assert (∀ c, c ∈ concat ch → ∃ j sibs, ch !! j = Some sibs ∧ c ∈ sibs) as Hin.
  { intros c Hx. apply list_elem_of_In, in_concat in Hx as (l & Hx & Hcl). apply list_elem_of_In in Hx, Hcl.
    apply list_elem_of_lookup in Hx as [j Hj]. eauto. }
  assert (∀ c e, c ∈ concat ch → e ∈ child_entries cur c → ∃ r, e.1 = cur ++ sh_value c :: r) as Hkey.
  { intros c [k d] Hx. destruct (Hin c Hx) as (j & sibs & Hj & Hcs). unfold child_entries.
    intros [He|He]%elem_of_app.
    - apply list_elem_of_fmap in He as (x & [= -> _] & _). by exists [].
    - apply entries_data in He as (k' & _ & -> & _); [|by eapply Hc]. exists k'. cbn. by rewrite <- app_assoc. }
  apply NoDup_bind; [| |by eapply NoDup_fmap_1].
  - intros c1 c2 e H1 H2 He1 He2. destruct (Hkey c1 e H1 He1) as [r1 E1], (Hkey c2 e H2 He2) as [r2 E2].
    rewrite E1 in E2. apply app_inv_head in E2. injection E2 as E _.
    apply list_elem_of_lookup in H1 as [i1 H1], H2 as [i2 H2].
    assert (i1 = i2) as ->; [|congruence]. eapply NoDup_lookup; [exact Hnd|rewrite list_lookup_fmap, H1; cbn; by rewrite E|].
    by rewrite list_lookup_fmap, H2.
  - intros c Hx. destruct (Hin c Hx) as (j & sibs & Hj & Hcs). unfold child_entries. apply NoDup_app. split_and!.
    + destruct (sh_data c); [apply NoDup_singleton|constructor].
    + intros [k d] (x & [= -> ->] & _)%list_elem_of_fmap He.
      apply entries_data in He as (k' & Hk' & E & _); [|by eapply Hc].
      rewrite <- (app_nil_r (cur ++ _)) in E at 1. by apply app_inv_head in E.
    + by eapply IH.
Qed.

Lemma stash_free_entries t : stash_ok t → ∀ cur, stash_free t = (stash_entries cur t).*2.
Proof.
  induction 1 as [v0 ch d0 Hl Hm Hn Hc IH]. intros cur. cbn [stash_free stash_entries]. clear Hl Hm Hn Hc.
  induction ch as [|sibs ch IHch]; [done|]. cbn [map concat]. rewrite fmap_app. f_equal.
  2: { apply IHch. intros j l c Hj. by apply (IH (S j)). }
  specialize (IH 0%nat sibs). clear IHch. induction sibs as [|c sibs IHs]; [done|]. cbn [map concat].
  rewrite !fmap_app, <- (IH c eq_refl (list_elem_of_here _ _)). f_equal.
  - f_equal. by destruct (sh_data c).
  - apply IHs. intros x _ Hx. apply IH; [done|by right].
Qed.

Lemma stash_store_entries t : stash_ok t → ∀ n cur,
  depth_le n t → (length cur + n ≤ 128)%nat → stash_store t cur = Ok (stash_entries cur t).
Proof.
  induction 1 as [v0 ch d0 Hl Hm Hn Hc IH]. intros n cur Hd Hcur. cbn [stash_store stash_entries].
  assert (∀ j sibs c, ch !! j = Some sibs → c ∈ sibs →
    (MAX_OID_LEN <=? zlen cur) = false ∧
    stash_store c (cur ++ [sh_value c]) = Ok (stash_entries (cur ++ [sh_value c]) c)) as Hchild.
  { intros j sibs c Hj Hin. destruct n as [|n]; [by destruct (Hd j sibs c Hj Hin)|]. split.
    - apply Z.leb_gt. unfold MAX_OID_LEN, zlen. lia.
    - apply (IH j sibs c Hj Hin n); [by apply (Hd j sibs)|rewrite length_app; simpl; lia]. }
  clear Hl Hm Hn Hc IH Hd. induction ch as [|sibs ch IHch]; [done|]. cbn [map concat].
  rewrite IHch by (intros j l c Hj; by apply (Hchild (S j))).
  specialize (Hchild 0%nat sibs). clear IHch.
  match goal with |- (?f sibs ≫= _) = _ => assert (f sibs = Ok (concat (map (child_entries cur) sibs))) as -> end.
  { induction sibs as [|c sibs IHs]; [done|].
    destruct (Hchild c eq_refl (list_elem_of_here _ _)) as [Hlen Hst]. cbn [map concat].
    rewrite IHs by (intros x _ Hx; apply Hchild; [done|by right]). rewrite Hlen, Hst. m_step. unfold child_entries at 2.
    rewrite <- app_assoc. by destruct (sh_data c). }
  by m_step.
Qed.

Lemma set_slot_depth n t v sibs :
  stash_ok t → depth_le (S n) t → (∀ c, c ∈ sibs → depth_le n c) →
  depth_le (S n) (set_slot t (Z.to_nat (v mod 31)) sibs).
Proof.
  intros [v0 ch d Hl _ _ _] Hd Hs j l c Hj Hc. cbn [set_slot sh_children] in Hj.
  destruct (decide (j = Z.to_nat (v mod 31))) as [->|Hne].
  - pose proof (slot_range v). rewrite list_lookup_insert_eq in Hj by lia. injection Hj as <-. auto.
  - rewrite list_lookup_insert_ne in Hj by done. by apply (Hd j l).
Qed.

Lemma stash_add_depth k d : ∀ t n t' rc,
  stash_ok t → depth_le n t → (length k ≤ n)%nat → stash_add calloc_ok t k d = Ok (t', rc) → depth_le n t'.
Proof.
  induction k as [|v k IH]; intros t n t' rc Ht Hd Hk E; cbn [stash_add] in E.
  { destruct t as [v0 ch [x|]]; cbn in E; injection E as <- <-; [done|]. destruct n; exact Hd. }
  destruct n as [|n]; [simpl in Hk; lia|]. destruct (stash_slot_ok t v Ht) as [Es Hj]. rewrite Es in E.
  cbn [mbind M_bind] in E.
  assert (∀ c, c ∈ stash_sibs t v → depth_le n c) as Hsib by (intros c Hc; by apply (Hd _ _ c Hj)).
  destruct (find_sibling v (stash_sibs t v)) as [c|] eqn:Ef.
  - apply find_sibling_Some in Ef as [Hin _]. destruct (stash_child_ok t v c Ht Hin) as [Hcok _].
    destruct (stash_add_spec k d c Hcok) as (c' & Ec & _). rewrite Ec in E. injection E as <- <-.
    apply set_slot_depth; [done|done|]. intros x [->|Hx]%set_sibling_elem; [|auto].
    eapply (IH c n c'); [exact Hcok|auto|simpl in Hk; lia|exact Ec].
  - rewrite stash_create in E. cbn [sh_children sh_data] in E.
    destruct (stash_add_spec k d _ (new_node_ok v)) as (c' & Ec & _). rewrite Ec in E. injection E as <- <-.
    apply set_slot_depth; [done|done|]. intros x [->|Hx]%elem_of_cons; [|auto].
    eapply (IH _ n c'); [apply (new_node_ok v)|apply new_node_depth|simpl in Hk; lia|exact Ec].
Qed.

(** ** Sequences of operations *)

Inductive stash_op :=
| SAdd (k : list Z) (d : D)
| SGet (k : list Z).

Definition stash_op_ok (o : stash_op) : Prop :=
  match o with SAdd k _ => (length k ≤ 128)%nat | SGet _ => True end.

Definition stash_do (root : option stash) (o : stash_op) : M (option stash * (Z + option D)) :=
  match o with
  | SAdd k d => '(root, rc) ← netsnmp_oid_stash_add_data calloc_ok root k (Some d); Ok (root, inl rc)
  | SGet k => r ← netsnmp_oid_stash_get_data root k; Ok (root, inr r)
  end.

(** The same on a finite map: data is added once, and nothing at the empty identifier. *)
Definition smap_do (m : gmap (list Z) D) (o : stash_op) : gmap (list Z) D * (Z + option D) :=
  match o with
  | SAdd k d =>
      if decide (k = [] ∨ is_Some (m !! k)) then (m, inl SNMPERR_GENERR)
      else (<[k := d]> m, inl SNMPERR_SUCCESS)
  | SGet k => (m, inr (m !! k))
  end.

Fixpoint stash_run (root : option stash) (l : list stash_op) : M (option stash * list (Z + option D)) :=
  match l with
  | [] => Ok (root, [])
  | o :: l => '(root, r) ← stash_do root o; '(root, rs) ← stash_run root l; Ok (root, r :: rs)
  end.

Fixpoint smap_run (m : gmap (list Z) D) (l : list stash_op) : gmap (list Z) D * list (Z + option D) :=
  match l with
  | [] => (m, [])
  | o :: l => let '(m, r) := smap_do m o in let '(m, rs) := smap_run m l in (m, r :: rs)
  end.

Definition stash_rep (root : option stash) (m : gmap (list Z) D) : Prop :=
  match root with
  | None => m = ∅
  | Some t => stash_ok t ∧ depth_le 128 t ∧ (∀ k, stash_data t k = m !! k) ∧ m !! [] = None
  end.

Lemma stash_add_map root m k d :
  stash_rep root m → (length k ≤ 128)%nat →
  ∃ root', netsnmp_oid_stash_add_data calloc_ok root k (Some d)
      = Ok (root', if decide (k = [] ∨ is_Some (m !! k)) then SNMPERR_GENERR else SNMPERR_SUCCESS) ∧
    stash_rep root' (if decide (k = [] ∨ is_Some (m !! k)) then m else <[k := d]> m).
Proof.
  intros Hrep Hk. unfold netsnmp_oid_stash_add_data. destruct (decide (k = [])) as [->|Hne].
  { rewrite !decide_True by (by left). by exists root. }
  assert (∃ t, match root with Some t => Some t | None => netsnmp_oid_stash_create_node calloc_ok end = Some t ∧
    stash_rep (Some t) m) as (t & -> & Hok & Hdep & Hdata & Hnil).
  { destruct root as [t|]; [by exists t|]. rewrite stash_create. eexists. split; [done|]. cbn in Hrep. subst m.
    split; [apply new_node_ok|]. split; [apply new_node_depth|]. split; [intros k'; by rewrite new_node_data|done]. }
  destruct (stash_add_spec k (Some d) t Hok) as (t' & E & Ht' & _ & Hd' & _).
  pose proof (stash_add_depth k (Some d) t 128 t' _ Hok Hdep Hk E) as Hdep'. rewrite E. m_step.
  eexists. split; [f_equal; f_equal|].
  - rewrite Hdata. unfold add_result. destruct (m !! k) eqn:Em; [by rewrite decide_True by (right; eauto)|].
    rewrite decide_False; [done|]. intros [?|[? ?]]; done.
  - unfold with_data in Hd'. rewrite Hdata in Hd'. split; [done|]. split; [done|].
    destruct (m !! k) eqn:Em.
    + rewrite decide_True by (right; eauto). split; [|done]. intros k'. by rewrite Hd', Hdata.
    + rewrite decide_False by (intros [?|[? ?]]; done). split; [|by rewrite lookup_insert_ne].
      intros k'. rewrite Hd'. destruct (decide (k' = k)) as [->|Hk']; [by rewrite lookup_insert_eq|].
      by rewrite lookup_insert_ne by congruence.
Qed.

Lemma stash_get_map root m k :
  stash_rep root m → netsnmp_oid_stash_get_data root k = Ok (m !! k).
Proof.
  intros Hrep. unfold netsnmp_oid_stash_get_data, netsnmp_oid_stash_get_node. destruct root as [t|].
  2: { cbn in Hrep. subst m. done. }
  destruct Hrep as (Hok & _ & Hdata & Hnil). destruct (decide (k = [])) as [->|Hne]; [by rewrite Hnil|].
  destruct (stash_walk_spec k t Hok) as (r & -> & Hr). m_step. by rewrite Hr, Hdata.
Qed.

Lemma stash_run_map l : ∀ root m, stash_rep root m → Forall stash_op_ok l →
  ∃ root', stash_run root l = Ok (root', (smap_run m l).2) ∧ stash_rep root' (smap_run m l).1.
Proof.
  induction l as [|o l IH]; intros root m Hrep Hl; [by exists root|]. apply Forall_cons in Hl as [Ho Hl].
  assert (∃ root', stash_do root o = Ok (root', (smap_do m o).2) ∧ stash_rep root' (smap_do m o).1) as (r1 & E & H1).
  { destruct o as [k d|k]; cbn [stash_do smap_do].
    - destruct (stash_add_map root m k d Hrep Ho) as (r1 & -> & H1). m_step. exists r1. by case_decide.
    - rewrite (stash_get_map root m k Hrep). m_step. by exists root. }
  cbn [stash_run smap_run]. rewrite E. m_step. destruct (smap_do m o) as [m1 r]. cbn [fst snd] in *.
  destruct (IH r1 m1 H1 Hl) as (r2 & -> & H2). m_step. destruct (smap_run m1 l) as [m2 rs]. by exists r2.
Qed.

Lemma stash_entries_map t m : stash_rep (Some t) m → stash_entries [] t ≡ₚ map_to_list m.
Proof.
  intros (Hok & _ & Hdata & Hnil). apply NoDup_Permutation; [by apply entries_nodup|apply NoDup_map_to_list|].
  intros [k d]. rewrite entries_data, elem_of_map_to_list by done. split.
  - intros (k' & _ & -> & E). by rewrite <- Hdata.
  - intros E. exists k. split; [by intros ->; congruence|]. split; [done|]. by rewrite Hdata.
Qed.

(** C22: A stash is a finite map from object identifiers.  While memory lasts, any sequence
    of additions and searches gives the answers of the map: data is found at exactly the
    object identifiers it was added at, and a second addition at the same one, or one
    at the empty identifier, is refused.  Afterwards storing the stash visits every entry
    of the map once, with its object identifier, within the array for it, and freeing it
    releases the data of every entry once. *)
Theorem stash_refines_map l :
  Forall stash_op_ok l →
  ∃ root, stash_run None l = Ok (root, (smap_run ∅ l).2) ∧
    (∃ es, netsnmp_oid_stash_store root = Ok es ∧ es ≡ₚ map_to_list (smap_run ∅ l).1) ∧
    (netsnmp_oid_stash_free root).1 = None ∧
    (netsnmp_oid_stash_free root).2 ≡ₚ (map_to_list (smap_run ∅ l).1).*2.
Proof.
  intros Hl. destruct (stash_run_map l None ∅ eq_refl Hl) as (root & E & Hrep). exists root. split; [done|].
  destruct root as [t|]; cbn [netsnmp_oid_stash_store netsnmp_oid_stash_free fst snd].
  - pose proof (stash_entries_map t _ Hrep) as Hp. destruct Hrep as (Hok & Hd & _). split_and!; [|done|].
    + exists (stash_entries [] t). split; [|done]. by apply (stash_store_entries t Hok 128).
    + rewrite (stash_free_entries t Hok []). by rewrite Hp.
  - cbn in Hrep. rewrite Hrep, map_to_list_empty. split_and!; [by exists []|done|done].
Qed.
End Map.
Arguments stash_op : clear implicits.

(** ** Example *)

(** 3 and 34 share a slot. *)
Definition sample_stash : list (stash_op Z) :=
  [SAdd [1; 3; 6] 5; SAdd [1; 3; 6] 7; SAdd [1; 34] 9; SGet [1; 3; 6]; SGet [1; 3]; SAdd [] 1].

Lemma stash_refines_map_witness :
  ∃ root, stash_run (λ _ _, true) None sample_stash = Ok (root, (smap_run ∅ sample_stash).2) ∧
    (∃ es, netsnmp_oid_stash_store root = Ok es ∧ es ≡ₚ map_to_list (smap_run ∅ sample_stash).1) ∧
    (netsnmp_oid_stash_free root).1 = None ∧
    (netsnmp_oid_stash_free root).2 ≡ₚ (map_to_list (smap_run ∅ sample_stash).1).*2.
Proof.
  apply (stash_refines_map (λ _ _, true)).
  - done.
  - repeat (constructor; [cbn; lia|]). constructor.
Defined.

Example sample_stash_answers :
  (smap_run ∅ sample_stash).2 = [inl 0; inl (-1); inl 0; inr (Some 5); inr None; inl (-1)].
Proof. by vm_compute. Qed.
