(* ===== verification/StashNext.v ===== *)
(** * The next entry of a stash: netsnmp_oid_stash_getnext_node of snmplib/oid_stash.c

    The search goes down to the closest node and from there through the tree, along
    [parent] where a node has no further children; the nodes on the way down stand for
    [parent].

    The theorem: from an object identifier that is a node of the tree the search finds
    the next one with data in lexicographic order, or that there is none.  An example shows
    that it goes back when the object identifier is not in the tree. *)

From S2P Require Import Prelude Ber Asn1 Session OidCompare OidStash.
From stdpp Require Import prelude numbers list gmap.
From Stdlib Require Import ZArith Lia.
Open Scope Z_scope.

Section Search.
Context {D : Type}.
Notation stash := (netsnmp_oid_stash_node D).

(** [curnode] after the first loop with the nodes above it, and [lookup] from [i] on. *)
Fixpoint stash_closest (t : stash) (above : list stash) (lookup : list Z) : M (stash * list stash * list Z) :=
  match lookup with
  | [] => Ok (t, above, [])
  | v :: rest =>
      '(_, sibs) ← stash_slot t v;
      match find_sibling v sibs with
      | Some c => stash_closest c (t :: above) rest
      | None => Ok (t, above, lookup)
      end
  end.

(** [!do_bigger || v > bigger_than] *)
Definition allows (bigger : option Z) (v : Z) : bool :=
  match bigger with None => true | Some b => b <? v end.

(** The two loops over the children, which [goto] leaves together. *)
Fixpoint least_child (children_size : Z) (bigger : option Z) (l : list stash) (tmpp : option stash) : option stash :=
  match l with
  | [] => tmpp
  | loopp :: l =>
      if allows bigger (sh_value loopp) && match tmpp with None => true | Some t => sh_value loopp <? sh_value t end
      then if sh_value loopp <=? u32 (children_size - 1) then Some loopp
           else least_child children_size bigger l (Some loopp)
      else least_child children_size bigger l tmpp
  end.

(** The node that is returned with the nodes above it. *)
Fixpoint getnext_loop (fuel : nat) (curnode : stash) (above : list stash) (bigger : option Z)
    : M (option (stash * list stash)) :=
  match fuel with
  | O => UB
  | S fuel =>
      match least_child (Z.of_nat (length (sh_children curnode))) bigger (concat (sh_children curnode)) None with
      | Some t =>
          match sh_data t with
          | Some _ => Ok (Some (t, curnode :: above))
          | None => getnext_loop fuel t (curnode :: above) None
          end
      | None =>
          match above with
          | [] => Ok None
          | p :: above => getnext_loop fuel p above (Some (sh_value curnode))
          end
      end
  end.

(** [bigger_than] is [lookup[i+1]] when there is one. *)
Definition netsnmp_oid_stash_getnext_node (fuel : nat) (root : option stash) (lookup : list Z)
    : M (option (stash * list stash)) :=
  match root with
  | None => Ok None
  | Some t =>
      '(curnode, above, rest) ← stash_closest t [] lookup;
      getnext_loop fuel curnode above (match rest with _ :: b :: _ => Some b | _ => None end)
  end.

(** The object identifier of a node. *)
Fixpoint stash_path (t : stash) (above : list stash) : list Z :=
  match above with [] => [] | p :: above => stash_path p above ++ [sh_value t] end.

(** ** The least child *)

(** Subidentifiers are unsigned. *)
Inductive stash_nonneg : stash → Prop :=
| stash_nonneg_node v ch d :
    (∀ j sibs c, ch !! j = Some sibs → c ∈ sibs → 0 ≤ sh_value c) →
    (∀ j sibs c, ch !! j = Some sibs → c ∈ sibs → stash_nonneg c) →
    stash_nonneg (StashNode v ch d).

Lemma elem_of_children (ch : list (list stash)) c : c ∈ concat ch ↔ ∃ j sibs, ch !! j = Some sibs ∧ c ∈ sibs.
Proof.
  rewrite list_elem_of_In, in_concat. setoid_rewrite <- list_elem_of_In. setoid_rewrite list_elem_of_lookup at 1.
  naive_solver.
Qed.

(** No child behind one with the number of its slot is smaller. *)
Fixpoint in_slots (l : list stash) : Prop :=
  match l with
  | [] => True
  | c :: l => (sh_value c ≤ 30 → Forall (λ c', sh_value c ≤ sh_value c') l) ∧ in_slots l
  end.

Lemma in_slots_app l1 l2 :
  in_slots l1 → in_slots l2 → (∀ c c', c ∈ l1 → c' ∈ l2 → sh_value c ≤ 30 → sh_value c ≤ sh_value c') →
  in_slots (l1 ++ l2).
Proof.
  induction l1 as [|x l1 IH]; [done|]. intros [Hx H1] H2 H. split.
  - intros Hle. apply Forall_app. split; [auto|]. apply Forall_forall. intros c' Hc'. apply H; [by left|done|done].
  - apply IH; [done|done|]. intros c c' Hc. apply H. by right.
Qed.

Lemma slots_in_order (ch : list (list stash)) : ∀ i,
  (i + length ch ≤ 31)%nat →
  (∀ j sibs c, ch !! j = Some sibs → c ∈ sibs → 0 ≤ sh_value c ∧ sh_value c mod 31 = Z.of_nat (i + j)) →
  in_slots (concat ch).
Proof.
  induction ch as [|sibs ch IH]; intros i Hi H; [done|]. cbn [concat length] in *.
  assert (∀ c, c ∈ sibs → 0 ≤ sh_value c ∧ sh_value c mod 31 = Z.of_nat i) as H0.
  { intros c Hc. destruct (H 0%nat sibs c eq_refl Hc). split; [done|lia]. }
  assert (∀ c, c ∈ sibs → sh_value c ≤ 30 → sh_value c = Z.of_nat i) as Hsmall.
  { intros c Hc Hle. destruct (H0 c Hc) as [? Hm]. rewrite Z.mod_small in Hm by lia. done. }
  assert (∀ v j, 0 ≤ v → v mod 31 = j → j ≤ v) as Hmod by (intros v j Hv <-; apply Z.mod_le; lia).
  apply in_slots_app.
  - clear -H0 Hsmall Hmod. induction sibs as [|c sibs IHs]; [done|]. split.
    + intros Hle. rewrite (Hsmall c (list_elem_of_here _ _) Hle). apply Forall_forall. intros c' Hc'.
      destruct (H0 c') as [? ?]; [by right|]. by apply Hmod.
    + apply IHs; intros x Hx; [apply H0|apply Hsmall]; by right.
  - apply (IH (S i)); [lia|]. intros j l c Hj Hc. destruct (H (S j) l c Hj Hc). split; [done|lia].
  - intros c c' Hc (j & l & Hj & Hc')%elem_of_children Hle. rewrite (Hsmall c Hc Hle).
    destruct (H (S j) l c' Hj Hc') as [? Hm]. apply Hmod in Hm; [lia|done].
Qed.

Lemma children_in_slots t : stash_ok t → stash_nonneg t → in_slots (concat (sh_children t)).
Proof.
  intros [v ch d Hl Hm _ _] Hn. inversion Hn as [? ? ? Hpos _]; subst. cbn [sh_children].
  apply (slots_in_order ch 0); [lia|]. intros j sibs c Hj Hc. split; eauto.
Qed.

Lemma least_child_spec bigger l : ∀ tmpp,
  in_slots l → (∀ t, tmpp = Some t → allows bigger (sh_value t) = true) →
  match least_child 31 bigger l tmpp with
  | None => tmpp = None ∧ ∀ c, c ∈ l → allows bigger (sh_value c) = false
  | Some c => (c ∈ l ∨ tmpp = Some c) ∧ allows bigger (sh_value c) = true ∧
      (∀ c', c' ∈ l → allows bigger (sh_value c') = true → sh_value c ≤ sh_value c') ∧
      (∀ t, tmpp = Some t → sh_value c ≤ sh_value t)
  end.
Proof.
  induction l as [|x l IH]; intros tmpp Hl Ht; cbn [least_child].
  { destruct tmpp as [t|]; [|split; [done|]; by intros c ?%elem_of_nil].
    split_and!; [by right|auto|by intros c' ?%elem_of_nil|by intros t' [= ->]]. }
  destruct Hl as [Hx Hl]. change (u32 (31 - 1)) with 30.
  destruct (allows bigger (sh_value x)) eqn:Ea; cbn [andb].
  2: { specialize (IH tmpp Hl Ht). destruct (least_child 31 bigger l tmpp) as [c|].
       - destruct IH as (Hc & ? & Hall & ?). split_and!; [set_solver|done| |done].
         intros c' [->|Hc']%elem_of_cons; [congruence|auto].
       - destruct IH as [-> IH]. split; [done|]. intros c [->|Hc]%elem_of_cons; auto. }
  destruct (match tmpp with None => true | Some t => sh_value x <? sh_value t end) eqn:Elt.
  - assert (∀ t, tmpp = Some t → sh_value x ≤ sh_value t) as Hxt by (intros t ->; lia).
    destruct (Z.leb_spec (sh_value x) 30) as [Hle|Hgt].
    + split_and!; [left; by left|done| |done]. intros c' [->|Hc']%elem_of_cons _; [done|].
      specialize (Hx Hle). rewrite Forall_forall in Hx. auto.
    + specialize (IH (Some x) Hl). destruct (least_child 31 bigger l (Some x)) as [c|].
      * destruct IH as (Hc & ? & Hall & Hle); [by intros t [= <-]|]. specialize (Hle x eq_refl). split_and!.
        -- left. destruct Hc as [Hc|[= ->]]; [by right|by left].
        -- done.
        -- intros c' [->|Hc']%elem_of_cons; [done|auto].
        -- intros t E. specialize (Hxt t E). lia.
      * destruct IH as [? _]; [by intros t [= <-]|done].
  - destruct tmpp as [t|]; [|done]. specialize (IH (Some t) Hl Ht). destruct (least_child 31 bigger l (Some t)) as [c|].
    + destruct IH as (Hc & ? & Hall & Hle). specialize (Hle t eq_refl). split_and!; [set_solver|done| |by intros t' [= <-]].
      intros c' [->|Hc']%elem_of_cons; [lia|auto].
    + by destruct IH.
Qed.

(** ** Children and data *)

Lemma child_found (t c : stash) :
  stash_ok t → c ∈ concat (sh_children t) → find_sibling (sh_value c) (stash_sibs t (sh_value c)) = Some c.
Proof.
  intros [v ch d Hl Hm Hn Hc]. cbn [sh_children]. intros (j & sibs & Hj & Hin)%elem_of_children.
  unfold stash_sibs. cbn [sh_children]. rewrite (Hm j sibs c Hj Hin), Nat2Z.id, Hj. cbn.
  by apply find_sibling_elem; eauto.
Qed.

Lemma found_child (t c : stash) v :
  stash_ok t → find_sibling v (stash_sibs t v) = Some c → c ∈ concat (sh_children t) ∧ sh_value c = v.
Proof.
  intros Ht [Hin Hv]%find_sibling_Some. split; [|done]. apply elem_of_children.
  destruct (stash_slot_ok t v Ht) as [_ Hs]. eauto.
Qed.

Lemma child_ok (t c : stash) : stash_ok t → stash_nonneg t → c ∈ concat (sh_children t) → stash_ok c ∧ stash_nonneg c.
Proof.
  intros [v ch d _ _ _ Hok] Hn. inversion Hn; subst. cbn [sh_children]. intros (j & sibs & Hj & Hin)%elem_of_children. eauto.
Qed.

(** ** The next entry below a node *)

(** [k] has data below [t], and its first subidentifier is allowed. *)
Definition below (t : stash) (bigger : option Z) (k : list Z) : Prop :=
  match k with [] => False | v :: _ => allows bigger v = true end ∧ is_Some (stash_data t k).

Definition least (P : list Z → Prop) (k : list Z) : Prop := P k ∧ ∀ k', P k' → k' = k ∨ oid_lt k k'.

Lemma oid_lt_cons a o1 o2 : oid_lt o1 o2 → oid_lt (a :: o1) (a :: o2).
Proof. unfold oid_lt. cbn. by rewrite Z.eqb_refl. Qed.

Lemma oid_lt_head a b o1 o2 : a < b → oid_lt (a :: o1) (b :: o2).
Proof. intros H. unfold oid_lt. cbn. replace (a =? b) with false by lia. by replace (a <? b) with true by lia. Qed.

Lemma allows_greater bigger c v : allows bigger c = true → c < v → allows bigger v = true.
Proof. destruct bigger; cbn; lia. Qed.

(** A key below [t] begins with the least child that is allowed, or with a greater one. *)
Lemma below_least (t c : stash) bigger v r :
  stash_ok t → stash_nonneg t →
  least_child 31 bigger (concat (sh_children t)) None = Some c → below t bigger (v :: r) →
  (v = sh_value c ∧ is_Some (stash_data c r)) ∨ sh_value c < v.
Proof.
  intros Ht Hn Ec [Hv Hd]. pose proof (least_child_spec bigger (concat (sh_children t)) None (children_in_slots t Ht Hn)) as H.
  rewrite Ec in H. destruct H as (Hc & _ & Hall & _); [done|]. destruct Hc as [Hc|]; [|done].
  cbn [stash_data] in Hd. destruct (find_sibling v (stash_sibs t v)) as [c'|] eqn:Ef; [|by destruct Hd].
  apply found_child in Ef as Hc'; [|done]. destruct Hc' as [Hin <-]. specialize (Hall c' Hin Hv).
  destruct (decide (sh_value c' = sh_value c)) as [E|E]; [left|right; lia]. split; [done|].
  rewrite E, (child_found t c Ht Hc) in Ef. injection Ef as <-. done.
Qed.

Definition getnext_up (fuel : nat) (t : stash) (above : list stash) : M (option (stash * list stash)) :=
  match above with [] => Ok None | p :: above => getnext_loop fuel p above (Some (sh_value t)) end.

(** Either the search ends at the least key below [t], or there is none and it goes up. *)
Definition node_result (t : stash) (above : list stash) (bigger : option Z) : Prop :=
  (∃ n k c up, least (below t bigger) k ∧ sh_data c = stash_data t k ∧ stash_path c up = stash_path t above ++ k ∧
     ∀ fuel, (n ≤ fuel)%nat → getnext_loop fuel t above bigger = Ok (Some (c, up))) ∨
  ((∀ k, ¬ below t bigger k) ∧ ∃ n, ∀ fuel, getnext_loop (n + fuel) t above bigger = getnext_up fuel t above).

(** The least child has no data, and none below it. *)
Lemma skip_child (t c : stash) above bigger :
  stash_ok t → stash_nonneg t →
  least_child 31 bigger (concat (sh_children t)) None = Some c → allows bigger (sh_value c) = true →
  length (sh_children t) = 31%nat → sh_data c = None →
  (∀ k, ¬ below c None k) → (∃ n, ∀ fuel, getnext_loop (n + fuel) c (t :: above) None = getnext_loop fuel t above (Some (sh_value c))) →
  node_result t above (Some (sh_value c)) → node_result t above bigger.
Proof.
  intros Ht Hn Ec Ha Hl Hd Hnone (n & Hloop) Hres.
  assert (∀ k, below t bigger k ↔ below t (Some (sh_value c)) k) as Hiff.
  { intros [|v r]; [done|]. split; intros Hb.
    - split; [|apply Hb]. destruct (below_least t c bigger v r Ht Hn Ec Hb) as [[-> Hr]|Hlt]; [|cbn; lia].
      exfalso. destruct r as [|w r]; [cbn in Hr; rewrite Hd in Hr; by destruct Hr|]. by apply (Hnone (w :: r)).
    - split; [|apply Hb]. destruct Hb as [Hv _]. cbn in Hv. apply (allows_greater bigger (sh_value c)); [done|lia]. }
  assert (∀ fuel, getnext_loop (S (n + fuel)) t above bigger = getnext_loop fuel t above (Some (sh_value c))) as Hstep.
  { intros fuel. cbn [getnext_loop]. rewrite Hl. change (Z.of_nat 31) with 31. rewrite Ec, Hd. apply Hloop. }
  destruct Hres as [(n' & k & x & up & [Hk Hleast] & Hx & Hp & E)|[Hno (n' & E)]].
  - left. exists (S (n + n')), k, x, up. split_and!; [split; [by apply Hiff|]|done|done|].
    + intros k' Hk'. apply Hleast. by apply Hiff.
    + intros fuel Hf. replace fuel with (S (n + (fuel - S n))) by lia. rewrite Hstep. apply E. lia.
  - right. split; [intros k; rewrite Hiff; apply Hno|]. exists (S (n + n')). intros fuel.
    replace (S (n + n') + fuel)%nat with (S (n + (n' + fuel))) by lia. by rewrite Hstep, E.
Qed.

(** What is left to visit gets less with a greater bound. *)
Lemma fewer_allowed bigger (c : stash) (l : list stash) :
  c ∈ l → allows bigger (sh_value c) = true →
  (length (filter (λ x, allows (Some (sh_value c)) (sh_value x) = true) l) <
   length (filter (λ x, allows bigger (sh_value x) = true) l))%nat.
Proof.
  intros Hc Ha. induction l as [|x l IH]; [by apply elem_of_nil in Hc|]. rewrite !filter_cons.
  assert (length (filter (λ x, allows (Some (sh_value c)) (sh_value x) = true) l) ≤
          length (filter (λ x, allows bigger (sh_value x) = true) l))%nat as Hle.
  { clear -Ha. induction l as [|y l IH]; [done|]. rewrite !filter_cons.
    destruct (decide (allows (Some _) (sh_value y) = true)) as [Hy|Hy].
    - rewrite decide_True; [cbn [length]; lia|]. cbn in Hy. apply (allows_greater bigger (sh_value c)); [done|lia].
    - destruct (decide _); cbn [length]; lia. }
  apply elem_of_cons in Hc as [<-|Hc].
  - rewrite decide_False by (cbn; lia). rewrite decide_True by done. cbn [length]. lia.
  - specialize (IH Hc). destruct (decide (allows (Some _) (sh_value x) = true)) as [Hx|Hx].
    + rewrite decide_True; [cbn [length]; lia|]. cbn in Hx. apply (allows_greater bigger (sh_value c)); [done|lia].
    + destruct (decide _); cbn [length]; lia.
Qed.

Lemma getnext_node (t : stash) : stash_ok t → stash_nonneg t → ∀ above bigger, node_result t above bigger.
Proof.
  induction 1 as [v ch d Hl Hm Hnd Hc IH]. intros Hn. set (t := StashNode v ch d) in *.
  assert (stash_ok t) as Ht by (by constructor). intros above bigger.
  assert (∀ c, c ∈ concat ch → ∀ above bigger, node_result c above bigger) as IHc.
  { intros c (j & sibs & Hj & Hin)%elem_of_children. inversion Hn; subst. eapply IH; eauto. }
  clear IH. remember (length (filter (λ x, allows bigger (sh_value x) = true) (concat ch))) as size eqn:Es.
  revert bigger Es. induction (lt_wf size) as [size _ IHs]. intros bigger Es.
  pose proof (least_child_spec bigger (concat ch) None (children_in_slots t Ht Hn)) as Hspec.
  destruct (least_child 31 bigger (concat ch) None) as [c|] eqn:Ec.
  2: { destruct Hspec as [_ Hno]; [done|]. right. split.
       - intros [|w r] [Hw Hd]; [done|]. cbn [stash_data] in Hd.
         destruct (find_sibling w (stash_sibs t w)) as [c|] eqn:Ef; [|by destruct Hd].
         apply found_child in Ef as [Hin <-]; [|done]. rewrite (Hno c Hin) in Hw. done.
       - exists 1%nat. intros fuel. cbn [getnext_loop Nat.add sh_children t]. rewrite Hl.
         change (Z.of_nat 31) with 31. by rewrite Ec. }
  destruct Hspec as (Hcin & Ha & _ & _); [done|]. destruct Hcin as [Hcin|]; [|done].
  assert (∀ k, stash_data t (sh_value c :: k) = stash_data c k) as Hdata.
  { intros k. cbn [stash_data]. by rewrite (child_found t c Ht Hcin). }
  assert (∀ fuel, getnext_loop (S fuel) t above bigger =
    match sh_data c with Some _ => Ok (Some (c, t :: above)) | None => getnext_loop fuel c (t :: above) None end) as Hstep.
  { intros fuel. cbn [getnext_loop sh_children t]. rewrite Hl. change (Z.of_nat 31) with 31. by rewrite Ec. }
  destruct (sh_data c) as [x|] eqn:Ed.
  - left. exists 1%nat, [sh_value c], c, (t :: above). split_and!; [split; [split|]| | |].
    + done.
    + rewrite Hdata. cbn. by rewrite Ed.
    + intros [|w r] Hb; [by destruct Hb|]. destruct (below_least t c bigger w r Ht Hn Ec Hb) as [[-> _]|Hlt].
      * destruct r; [by left|right; by apply oid_lt_cons].
      * right. by apply oid_lt_head.
    + rewrite Hdata. by rewrite Ed.
    + done.
    + intros [|fuel] Hf; [lia|]. by rewrite Hstep.
  - destruct (IHc c Hcin (t :: above) None) as [(n & k & y & up & [Hk Hleast] & Hy & Hp & E)|[Hno (n & E)]].
    + left. exists (S n), (sh_value c :: k), y, up. split_and!; [split; [split|]| | |].
      * done.
      * rewrite Hdata. apply Hk.
      * intros [|w r] Hb; [by destruct Hb|]. destruct (below_least t c bigger w r Ht Hn Ec Hb) as [[-> Hr]|Hlt].
        -- assert (below c None r) as Hr'.
           { split; [|done]. destruct r; [cbn in Hr; rewrite Ed in Hr; by destruct Hr|done]. }
           destruct (Hleast r Hr') as [->|Hlt]; [by left|right; by apply oid_lt_cons].
        -- right. by apply oid_lt_head.
      * by rewrite Hdata.
      * rewrite Hp. cbn [stash_path]. by rewrite <- app_assoc.
      * intros [|fuel] Hf; [lia|]. rewrite Hstep. apply E. lia.
    + apply (skip_child t c above bigger); eauto.
      eapply (IHs _); [|reflexivity]. subst size. by apply fewer_allowed.
Qed.

(** ** The way up *)

Fixpoint root_of (t : stash) (above : list stash) : stash :=
  match above with [] => t | p :: above => root_of p above end.

(** Every node above has the one below it as a child. *)
Fixpoint chain (t : stash) (above : list stash) : Prop :=
  match above with
  | [] => True
  | p :: above =>
      stash_ok p ∧ stash_nonneg p ∧ find_sibling (sh_value t) (stash_sibs p (sh_value t)) = Some t ∧ chain p above
  end.

Lemma path_data above : ∀ t k, chain t above → stash_data (root_of t above) (stash_path t above ++ k) = stash_data t k.
Proof.
  induction above as [|p above IH]; intros t k Hc; [done|]. destruct Hc as (Hp & _ & Hf & Hc).
  cbn [root_of stash_path]. rewrite <- app_assoc. cbn [app]. rewrite IH by done. cbn [stash_data]. by rewrite Hf.
Qed.

(** The object identifiers that differ from [o] first by a greater subidentifier, and those
    that follow the position [bigger] below [o]. *)
Definition passed (o o' : list Z) : Prop := ∃ o0 a o1 v r, o = o0 ++ a :: o1 ∧ o' = o0 ++ v :: r ∧ a < v.

Definition extends (o : list Z) (bigger : option Z) (o' : list Z) : Prop :=
  ∃ v r, o' = o ++ v :: r ∧ allows bigger v = true.

Definition after (o : list Z) (bigger : option Z) (o' : list Z) : Prop := extends o bigger o' ∨ passed o o'.

Lemma passed_snoc o a o' : passed (o ++ [a]) o' ↔ after o (Some a) o'.
Proof.
  split.
  - intros (o0 & b & o1 & v & r & E & -> & Hlt). destruct o1 as [|z o2 _] using rev_ind.
    + apply app_inj_tail in E as [-> ->]. left. exists v, r. split; [done|]. cbn. lia.
    + rewrite app_comm_cons, app_assoc in E. apply app_inj_tail in E as [-> ->]. right. by exists o0, b, o2, v, r.
  - intros [(v & r & -> & Hv)|(o0 & b & o1 & v & r & -> & -> & Hlt)].
    + exists o, a, [], v, r. split_and!; [done|done|cbn in Hv; lia].
    + exists o0, b, (o1 ++ [a]), v, r. by rewrite <- app_assoc.
Qed.

Lemma passed_lt o o' : passed o o' → oid_lt o o'.
Proof.
  intros (o0 & a & o1 & v & r & -> & -> & Hlt). induction o0 as [|x o0 IH]; [by apply oid_lt_head|by apply oid_lt_cons].
Qed.

Lemma after_lt o o' : after o None o' ↔ oid_lt o o'.
Proof.
  split.
  - intros [(v & r & -> & _)|H]; [|by apply passed_lt]. induction o as [|x o IH]; [done|by apply oid_lt_cons].
  - revert o'. induction o as [|x o IH]; intros [|y o'] H; [done| |done|].
    { left. by exists y, o'. }
    unfold oid_lt in H. cbn in H. destruct (Z.eqb_spec x y) as [<-|Hne].
    + destruct (IH o' H) as [(v & r & -> & Hv)|(o0 & a & o1 & v & r & -> & -> & Hlt)].
      * left. by exists v, r.
      * right. by exists (x :: o0), a, o1, v, r.
    + right. exists [], x, o, y, o'. destruct (Z.ltb_spec x y); [done|lia].
Qed.

(** What extends an object identifier comes before what has passed it. *)
Lemma extends_before o bigger o1 o2 : extends o bigger o1 → passed o o2 → oid_lt o1 o2.
Proof.
  intros (v & r & -> & _) (o0 & a & o3 & w & s & -> & -> & Hlt). rewrite <- app_assoc. cbn [app].
  induction o0 as [|x o0 IH]; [by apply oid_lt_head|by apply oid_lt_cons].
Qed.

Definition has_data (t : stash) (o : list Z) : Prop := is_Some (stash_data t o).

(** The search from a node on, to the end. *)
Definition search_result (t : stash) (above : list stash) (bigger : option Z) : Prop :=
  let P o := has_data (root_of t above) o ∧ after (stash_path t above) bigger o in
  (∃ n o c up, least P o ∧ stash_path c up = o ∧ sh_data c = stash_data (root_of t above) o ∧
     ∀ fuel, (n ≤ fuel)%nat → getnext_loop fuel t above bigger = Ok (Some (c, up))) ∨
  ((∀ o, ¬ P o) ∧ ∃ n, ∀ fuel, (n ≤ fuel)%nat → getnext_loop fuel t above bigger = Ok None).

(** The keys below a node come first. *)
Lemma least_found t above bigger k :
  chain t above → least (below t bigger) k →
  least (λ o, has_data (root_of t above) o ∧ after (stash_path t above) bigger o) (stash_path t above ++ k).
Proof.
  intros Hc [[Hv Hk] Hleast]. pose proof (λ k, path_data above t k Hc) as Hd. destruct k as [|v r]; [done|].
  assert (extends (stash_path t above) bigger (stash_path t above ++ v :: r)) as He by (by exists v, r).
  split; [split; [unfold has_data; by rewrite Hd|by left]|].
  intros o [Ho [(w & s & -> & Hw)|Hp]]; [|right; by eapply extends_before].
  destruct (Hleast (w :: s)) as [->|Hlt]; [split; [done|]; unfold has_data in Ho; by rewrite Hd in Ho|by left|right].
  clear -Hlt. induction (stash_path t above) as [|x o IH]; [done|by apply oid_lt_cons].
Qed.

Lemma none_below t above bigger o :
  chain t above → (∀ k, ¬ below t bigger k) → has_data (root_of t above) o → after (stash_path t above) bigger o →
  passed (stash_path t above) o.
Proof.
  intros Hc Hno Ho [(v & r & -> & Hv)|Hp]; [|done]. exfalso. apply (Hno (v :: r)). split; [done|].
  unfold has_data in Ho. by rewrite path_data in Ho.
Qed.

Lemma getnext_search above : ∀ t bigger,
  stash_ok t → stash_nonneg t → chain t above → search_result t above bigger.
Proof.
  induction above as [|p above IH]; intros t bigger Ht Hn Hc.
  - destruct (getnext_node t Ht Hn [] bigger) as [(n & k & c & up & Hk & Hx & Hp & E)|[Hno (n & E)]].
    + left. exists n, k, c, up. split_and!; [|done|done|done]. by apply (least_found t [] bigger k).
    + right. split.
      * intros o [Ho Ha]. destruct (none_below t [] bigger o) as (o0 & a & o1 & v & r & E0 & _); [done..|]. by destruct o0.
      * exists n. intros fuel Hf. replace fuel with (n + (fuel - n))%nat by lia. apply E.
  - destruct (getnext_node t Ht Hn (p :: above) bigger) as [(n & k & c & up & Hk & Hx & Hp & E)|[Hno (n & E)]].
    + left. exists n, (stash_path t (p :: above) ++ k), c, up. split_and!; [by apply least_found|done| |done].
      by rewrite path_data.
    + destruct Hc as (Hpok & Hpn & Hf & Hc). pose proof (IH p (Some (sh_value t)) Hpok Hpn Hc) as Hres.
      assert (∀ o, has_data (root_of p above) o →
        (after (stash_path t (p :: above)) bigger o ↔ after (stash_path p above) (Some (sh_value t)) o)) as Hiff.
      { intros o Ho. rewrite <- passed_snoc. split; [|by right].
        intros Ha. by apply (none_below t (p :: above) bigger o). }
      destruct Hres as [(n' & o & c & up & [[Ho Ha] Hleast] & Hp & Hd & E')|[Hno' (n' & E')]].
      * left. exists (n + n')%nat, o, c, up. split_and!; [split; [split; [done|by apply Hiff]|]|done|done|].
        -- intros o' [Ho' Ha']. apply Hleast. split; [done|by apply Hiff].
        -- intros fuel Hfu. replace fuel with (n + (fuel - n))%nat by lia. rewrite E. apply E'. lia.
      * right. split; [intros o [Ho Ha]; apply (Hno' o); split; [done|by apply Hiff]|].
        exists (n + n')%nat. intros fuel Hfu. replace fuel with (n + (fuel - n))%nat by lia. rewrite E. apply E'. lia.
Qed.

(** ** The search from the root *)

Lemma closest_node k : ∀ t above,
  stash_ok t → stash_nonneg t → chain t above → (∃ r, is_Some (stash_data t (k ++ r))) →
  ∃ c up, stash_closest t above k = Ok (c, up, []) ∧ stash_ok c ∧ stash_nonneg c ∧ chain c up ∧
    stash_path c up = stash_path t above ++ k ∧ root_of c up = root_of t above.
Proof.
  induction k as [|v k IH]; intros t above Ht Hn Hc [r Hr]; cbn [stash_closest].
  { exists t, above. by rewrite app_nil_r. }
  destruct (stash_slot_ok t v Ht) as [-> _]. m_step. cbn [app stash_data] in Hr.
  destruct (find_sibling v (stash_sibs t v)) as [c|] eqn:Ef; [|by destruct Hr].
  apply found_child in Ef as Hin; [|done]. destruct Hin as [Hin <-]. destruct (child_ok t c Ht Hn Hin) as [Hcok Hcn].
  destruct (IH c (t :: above)) as (x & up & E & Hxok & Hxn & Hch & Hp & Hroot); [done|done|by split_and!|by exists r|].
  exists x, up. split_and!; try done. rewrite Hp. cbn [stash_path]. by rewrite <- app_assoc.
Qed.

Lemma getnext_map t m lookup :
  stash_rep (Some t) m → stash_nonneg t → (∃ r, is_Some (m !! (lookup ++ r))) →
  (∃ n o c up, ∀ fuel, (n ≤ fuel)%nat →
     netsnmp_oid_stash_getnext_node fuel (Some t) lookup = Ok (Some (c, up)) ∧ stash_path c up = o ∧
     sh_data c = m !! o ∧ least (λ o, is_Some (m !! o) ∧ oid_lt lookup o) o) ∨
  (∃ n, ∀ fuel, (n ≤ fuel)%nat →
     netsnmp_oid_stash_getnext_node fuel (Some t) lookup = Ok None ∧ ∀ o, is_Some (m !! o) → ¬ oid_lt lookup o).
Proof.
  intros (Hok & _ & Hd & _) Hn Hr. destruct (closest_node lookup t [] Hok Hn I) as (c & up & E & Hcok & Hcn & Hch & Hp & Hroot).
  { destruct Hr as [r Hr]. exists r. by rewrite Hd. }
  unfold netsnmp_oid_stash_getnext_node. rewrite E. m_step. cbn [stash_path app root_of] in *.
  destruct (getnext_search up c None Hcok Hcn Hch) as [(n & o & x & up' & [[Ho Ha] Hleast] & Hpx & Hdx & Ex)|[Hno (n & Ex)]];
    rewrite Hroot in *; rewrite Hp in *; unfold has_data in *.
  - left. exists n, o, x, up'. intros fuel Hf. split_and!; [by apply Ex|done|by rewrite Hdx, Hd|].
    rewrite after_lt, Hd in *. split; [done|]. intros o' [Ho' Hlt]. apply Hleast. by rewrite after_lt, Hd.
  - right. exists n. intros fuel Hf. split; [by apply Ex|]. intros o Ho Hlt. apply (Hno o). by rewrite Hd, after_lt.
Qed.

(** Additions of object identifiers keep the subidentifiers unsigned. *)
Lemma set_slot_nonneg t j sibs :
  stash_nonneg t → (∀ c, c ∈ sibs → 0 ≤ sh_value c ∧ stash_nonneg c) → stash_nonneg (set_slot t j sibs).
Proof.
  intros [v ch d Hv Hc] Hs. unfold set_slot. cbn [sh_value sh_children sh_data].
  assert (∀ j' l c, <[j:=sibs]> ch !! j' = Some l → c ∈ l → 0 ≤ sh_value c ∧ stash_nonneg c) as H.
  { intros j' l c Hl Hin. apply list_lookup_insert_Some in Hl as [(<- & <- & _)|[_ Hl]]; [auto|split; eauto]. }
  constructor; intros j' l c Hl Hin; by destruct (H j' l c Hl Hin).
Qed.

Lemma new_node_nonneg v : stash_nonneg (StashNode v (replicate 31 []) None).
Proof. constructor; intros j sibs c Hj Hc; apply lookup_replicate in Hj as [-> _]; by apply elem_of_nil in Hc. Qed.

Context (calloc_ok : Z → Z → bool).
Hypothesis calloc_grants : ∀ n m, calloc_ok n m = true.

Lemma stash_add_nonneg k d : ∀ t t' rc,
  stash_ok t → stash_nonneg t → Forall (Z.le 0) k → stash_add calloc_ok t k d = Ok (t', rc) → stash_nonneg t'.
Proof.
  induction k as [|v k IH]; intros t t' rc Ht Hn Hk E; cbn [stash_add] in E.
  { destruct t as [v0 ch [x|]]; cbn in E; injection E as <- <-; [done|]. inversion Hn; subst. by constructor. }
  apply Forall_cons in Hk as [Hv Hk]. destruct (stash_slot_ok t v Ht) as [Es Hj]. rewrite Es in E. cbn [mbind M_bind] in E.
  assert (∀ c, c ∈ stash_sibs t v → 0 ≤ sh_value c ∧ stash_nonneg c) as Hsib.
  { intros c Hc. destruct Hn as [v0 ch d0 Hpos Hc']. split; [by eapply Hpos|by eapply Hc']. }
  destruct (find_sibling v (stash_sibs t v)) as [c|] eqn:Ef.
  - apply find_sibling_Some in Ef as [Hin Hvc]. destruct (stash_child_ok t v c Ht Hin) as [Hcok _].
    destruct (stash_add_spec calloc_ok calloc_grants k d c Hcok) as (c' & Ec & _ & Hvc' & _).
    rewrite Ec in E. injection E as <- <-. apply set_slot_nonneg; [done|].
    intros x [->|Hx]%set_sibling_elem; [|auto]. split; [lia|]. eapply (IH c c'); [done|by apply Hsib|done|exact Ec].
  - rewrite (stash_create calloc_ok calloc_grants) in E. cbn [sh_children sh_data] in E.
    destruct (stash_add_spec calloc_ok calloc_grants k d _ (new_node_ok v)) as (c' & Ec & _ & Hvc' & _).
    rewrite Ec in E. injection E as <- <-. cbn [sh_value] in Hvc'. apply set_slot_nonneg; [done|].
    intros x [->|Hx]%elem_of_cons; [|auto]. split; [lia|]. eapply (IH _ c'); [apply new_node_ok|apply new_node_nonneg|done|exact Ec].
Qed.

Definition op_nonneg (o : stash_op D) : Prop := match o with SAdd k _ => Forall (Z.le 0) k | SGet _ => True end.

Definition root_nonneg (root : option stash) : Prop := match root with Some t => stash_nonneg t | None => True end.

Lemma stash_do_nonneg root m o root' r :
  stash_rep root m → root_nonneg root → op_nonneg o → stash_do calloc_ok root o = Ok (root', r) → root_nonneg root'.
Proof.
  intros Hrep Hn Ho E. destruct o as [k d|k]; cbn [stash_do] in E.
  2: { destruct (netsnmp_oid_stash_get_data root k); try done. by injection E as <- _. }
  unfold netsnmp_oid_stash_add_data in E. destruct (decide (k = [])); [by injection E as <- _|].
  rewrite (stash_create calloc_ok calloc_grants) in E. cbn in Ho.
  destruct root as [t|]; cbn [mbind M_bind] in E.
  - destruct (stash_add calloc_ok t k (Some d)) as [[t' rc]| |] eqn:Ea; try done. injection E as <- _.
    destruct Hrep as (Hok & _). by eapply stash_add_nonneg.
  - destruct (stash_add calloc_ok _ k (Some d)) as [[t' rc]| |] eqn:Ea; try done. injection E as <- _.
    eapply stash_add_nonneg; [apply new_node_ok|apply new_node_nonneg|exact Ho|exact Ea].
Qed.

Lemma stash_run_nonneg l : ∀ root m root' rs,
  stash_rep root m → root_nonneg root → Forall stash_op_ok l → Forall op_nonneg l →
  stash_run calloc_ok root l = Ok (root', rs) → root_nonneg root'.
Proof.
  induction l as [|o l IH]; intros root m root' rs Hrep Hn Hl Hp E; [by injection E as <- _|].
  apply Forall_cons in Hl as [Ho Hl], Hp as [Hpo Hp].
  destruct (stash_run_map calloc_ok calloc_grants [o] root m Hrep) as (r1 & E1 & H1); [by constructor|].
  cbn [stash_run] in *. destruct (stash_do calloc_ok root o) as [[r2 a]| |] eqn:Ed; try done.
  cbn [mbind M_bind] in *. injection E1 as -> _.
  destruct (stash_run calloc_ok r1 l) as [[r3 as3]| |] eqn:Er; try done. cbn in E. injection E as <- <-.
  eapply (IH r1); [exact H1| |done|done|exact Er]. eapply stash_do_nonneg; [exact Hrep|exact Hn|exact Hpo|exact Ed].
Qed.

(** In a stash that any sequence of additions has made, the search from an object identifier
    with data, or from one above such, ends and returns the node of the next object
    identifier with data in lexicographic order, or NULL when there is none. *)
Theorem stash_getnext_next l root lookup :
  Forall stash_op_ok l → Forall op_nonneg l →
  stash_run calloc_ok None l = Ok (root, (smap_run ∅ l).2) →
  let m := (smap_run ∅ l).1 in
  (∃ r, is_Some (m !! (lookup ++ r))) →
  (∃ n o c up, ∀ fuel, (n ≤ fuel)%nat →
     netsnmp_oid_stash_getnext_node fuel root lookup = Ok (Some (c, up)) ∧ stash_path c up = o ∧
     sh_data c = m !! o ∧ least (λ o, is_Some (m !! o) ∧ oid_lt lookup o) o) ∨
  (∃ n, ∀ fuel, (n ≤ fuel)%nat →
     netsnmp_oid_stash_getnext_node fuel root lookup = Ok None ∧ ∀ o, is_Some (m !! o) → ¬ oid_lt lookup o).
Proof.
  intros Hl Hp E m Hr. destruct (stash_run_map calloc_ok calloc_grants l None ∅ eq_refl Hl) as (root' & E' & Hrep).
  rewrite E in E'. injection E' as <-. pose proof (stash_run_nonneg l None ∅ _ _ eq_refl I Hl Hp E) as Hn.
  destruct root as [t|]; [by apply getnext_map|]. cbn in Hrep. fold m in Hrep. rewrite Hrep in Hr.
  destruct Hr as [r [x Hx]]. by rewrite lookup_empty in Hx.
Qed.
End Search.

(** ** Examples *)

Definition four : list (stash_op Z) := [SAdd [1; 5] 50; SAdd [1; 40; 2] 402; SAdd [1; 9; 3] 93; SAdd [2] 20].

Definition next_of (l : list (stash_op Z)) (lookup : list Z) : option (list Z * option Z) :=
  match stash_run (λ _ _, true) None l with
  | Ok (root, _) =>
      match netsnmp_oid_stash_getnext_node 50 root lookup with
      | Ok (Some (c, up)) => Some (stash_path c up, sh_data c)
      | _ => None
      end
  | _ => None
  end.

Lemma stash_getnext_next_witness :
  ∃ (root : option (netsnmp_oid_stash_node Z)) n o c up, ∀ fuel, (n ≤ fuel)%nat →
    netsnmp_oid_stash_getnext_node fuel root [1; 5] = Ok (Some (c, up)) ∧ stash_path c up = o ∧
    least (λ o, is_Some ((smap_run ∅ four).1 !! o) ∧ oid_lt [1; 5] o) o.
Proof.
  assert (Forall stash_op_ok four) as Hl by (repeat (constructor; [cbn; lia|]); constructor).
  destruct (stash_run_map (λ _ _, true) (λ _ _, eq_refl) four None ∅ eq_refl Hl) as (root & E & _).
  exists root. destruct (stash_getnext_next (λ _ _, true) (λ _ _, eq_refl) four root [1; 5]) as [H|(n & H)].
  - exact Hl.
  - repeat (constructor; [repeat constructor; lia|]). constructor.
  - exact E.
  - exists []. vm_compute. by eexists.
  - destruct H as (n & o & c & up & H). exists n, o, c, up. intros fuel Hf. destruct (H fuel Hf) as (? & ? & ? & ?). by split_and!.
  - exfalso. destruct (H n (Nat.le_refl n)) as [_ Hno]. apply (Hno [1; 9; 3]); vm_compute; [by eexists|done].
Defined.

Example four_in_order :
  next_of four [1; 5] = Some ([1; 9; 3], Some 93) ∧ next_of four [1; 9; 3] = Some ([1; 40; 2], Some 402) ∧
  next_of four [1; 40] = Some ([1; 40; 2], Some 402) ∧ next_of four [1; 40; 2] = Some ([2], Some 20) ∧
  next_of four [2] = None.
Proof. vm_compute. by split_and!. Qed.

(** For an object identifier that is not in the tree the search starts at the closest node
    without a bound, or with the wrong subidentifier, and goes back. *)
Example absent_goes_back : next_of four [1; 7] = Some ([1; 5], Some 50).
Proof. vm_compute. reflexivity. Qed.
