(* ===== verification/Callback.v ===== *)
(** * Callbacks of the library: snmplib/callback.c

    Models the registry of callbacks, one list of nodes per pair of identifiers, ordered
    by priority, with the counters that serve as locks.  The nodes of a list are a heap
    of their own, as in SlList; a function is a number, a client argument an optional
    address, and what a callback does to the registry while it runs is a parameter.  There
    is one thread: a lock that is taken already stays taken for the 100 milliseconds that
    _callback_lock waits.

    The theorems: registering, unregistering, counting and calling are the operations of
    lists in the order of their priorities, calls reach every callback once and in that
    order also when they change other lists; clearing frees every client argument once.
    An example shows that a callback that unregisters itself has its node freed under
    the loop that called it. *)

From S2P Require Import Prelude BinaryArray ArraySort ArraySet SlList Session.
From stdpp Require Import prelude numbers list gmap sorting.
From Stdlib Require Import ZArith Lia.
Open Scope Z_scope.

Definition MAX_CALLBACK_IDS : Z := 2.
Definition MAX_CALLBACK_SUBIDS : Z := 16.
Definition NETSNMP_CALLBACK_DEFAULT_PRIORITY : Z := 0.
Definition SIZEOF_SNMP_GEN_CALLBACK : Z := 16.

(** [struct snmp_gen_callback] without its link. *)
Record snmp_gen_callback := GenCallback {
  sc_callback : option nat;
  sc_client_arg : option Z;
  sc_priority : Z;
}.

Notation cb_heap := (gmap nat (sl_node snmp_gen_callback)).

(** [thecallbacks[major][minor]], its nodes and [_locks[major][minor]]. *)
Record cb_slot := CbSlot { cs_nodes : cb_heap; cs_head : option nat; cs_lock : Z }.

(** The slots that are not there are as after [memset].  The calls with their client
    arguments, and the client arguments that were freed, are kept in order. *)
Record cb_state := CbState {
  cb_need_init : bool;
  cb_table : gmap (Z * Z) cb_slot;
  cb_called : list (nat * option Z);
  cb_freed : list Z;
}.

Definition empty_slot : cb_slot := CbSlot ∅ None 0.

(** An index below 0 is out of bounds. *)
Definition cb_get (s : cb_state) (k : Z * Z) : M cb_slot :=
  if (0 <=? k.1) && (k.1 <? MAX_CALLBACK_IDS) && (0 <=? k.2) && (k.2 <? MAX_CALLBACK_SUBIDS)
  then Ok (default empty_slot (cb_table s !! k)) else UB.

Definition cb_put (s : cb_state) (k : Z * Z) (c : cb_slot) : cb_state :=
  CbState (cb_need_init s) (<[k := c]> (cb_table s)) (cb_called s) (cb_freed s).

Definition too_high (major minor : Z) : bool :=
  (MAX_CALLBACK_IDS <=? major) || (MAX_CALLBACK_SUBIDS <=? minor).

Definition init_callbacks (s : cb_state) : cb_state :=
  if cb_need_init s then CbState false ∅ (cb_called s) (cb_freed s) else s.

(** Returns 1 without taking the lock when it is held. *)
Definition _callback_lock (c : cb_slot) : cb_slot * Z :=
  if 1 <=? cs_lock c then (c, 1) else (CbSlot (cs_nodes c) (cs_head c) (s32 (cs_lock c + 1)), 0).

Definition _callback_unlock (c : cb_slot) : cb_slot := CbSlot (cs_nodes c) (cs_head c) (s32 (cs_lock c - 1)).

Definition cb_data (n : sl_node snmp_gen_callback) : M snmp_gen_callback :=
  match sn_data n with Some d => Ok d | None => UB end.

(** [prevNext] points into the node [prev], or to the head. *)
Definition store_at (h : cb_heap) (head prev p : option nat) : M (cb_heap * option nat) :=
  match prev with None => Ok (h, p) | Some q => h ← sl_link h q p; Ok (h, head) end.

Fixpoint priority_loop (fuel : nat) (h : cb_heap) (priority : Z) (prev scp : option nat)
    : M (option nat * option nat) :=
  match fuel, scp with
  | O, _ => UB
  | S _, None => Ok (prev, None)
  | S fuel, Some p =>
      n ← sl_load h p;
      d ← cb_data n;
      if priority <? sc_priority d then Ok (prev, scp)
      else priority_loop fuel h priority scp (sn_next n)
  end.

Section Registry.
Variable calloc_ok : Z → Z → bool.
Variable alloc : cb_heap → nat.

Definition netsnmp_register_callback (s : cb_state) (major minor : Z) (new_callback : option nat)
    (arg : option Z) (priority : Z) : M (cb_state * Z) :=
  if too_high major minor then Ok (s, SNMPERR_GENERR)
  else
    let s := init_callbacks s in
    c ← cb_get s (major, minor);
    let '(c, _) := _callback_lock c in
    if calloc_ok 1 SIZEOF_SNMP_GEN_CALLBACK then
      let newscp := alloc (cs_nodes c) in
      '(prev, next) ← priority_loop (S (size (cs_nodes c))) (cs_nodes c) priority None (cs_head c);
      let h := <[newscp := SlNode (Some (GenCallback new_callback arg priority)) next]> (cs_nodes c) in
      '(h, head) ← store_at h (cs_head c) prev (Some newscp);
      Ok (cb_put s (major, minor) (_callback_unlock (CbSlot h head (cs_lock c))), 0)
    else Ok (cb_put s (major, minor) (_callback_unlock c), SNMPERR_GENERR).

Definition snmp_register_callback (s : cb_state) (major minor : Z) (new_callback : option nat)
    (arg : option Z) : M (cb_state * Z) :=
  netsnmp_register_callback s major minor new_callback arg NETSNMP_CALLBACK_DEFAULT_PRIORITY.

Definition unregister_matches (target : option nat) (arg : option Z) (matchargs : bool)
    (d : snmp_gen_callback) : bool :=
  bool_decide (sc_callback d = target) && (negb matchargs || bool_decide (sc_client_arg d = arg)).

(** The nodes, the head and the number of callbacks that were taken out or disabled. *)
Fixpoint unregister_loop (fuel : nat) (h : cb_heap) (head : option nat) (lock : Z)
    (test : snmp_gen_callback → bool) (prev scp : option nat) (count : Z) : M (cb_heap * option nat * Z) :=
  match fuel, scp with
  | O, _ => UB
  | S _, None => Ok (h, head, count)
  | S fuel, Some p =>
      n ← sl_load h p;
      d ← cb_data n;
      if test d then
        if lock =? 1 then
          '(h, head) ← store_at h head prev (sn_next n);
          h ← sl_free h p;
          unregister_loop fuel h head lock test prev (sn_next n) (s32 (count + 1))
        else
          let d := GenCallback None (sc_client_arg d) (sc_priority d) in
          unregister_loop fuel (<[p := SlNode (Some d) (sn_next n)]> h) head lock test prev scp (s32 (count + 1))
      else unregister_loop fuel h head lock test scp (sn_next n) count
  end.

(** The head of the list is read before the identifiers are checked. *)
Definition snmp_unregister_callback (s : cb_state) (major minor : Z) (target : option nat)
    (arg : option Z) (matchargs : bool) : M (cb_state * Z) :=
  c0 ← cb_get s (major, minor);
  let s := init_callbacks s in
  c ← cb_get s (major, minor);
  let '(c, _) := _callback_lock c in
  '(h, head, count) ← unregister_loop (2 * size (cs_nodes c) + 1) (cs_nodes c) (cs_head c) (cs_lock c)
                        (unregister_matches target arg matchargs) None (cs_head c0) 0;
  Ok (cb_put s (major, minor) (_callback_unlock (CbSlot h head (cs_lock c))), count).

Fixpoint count_loop (fuel : nat) (h : cb_heap) (scp : option nat) (count : Z) : M Z :=
  match fuel, scp with
  | O, _ => UB
  | S _, None => Ok count
  | S fuel, Some p => n ← sl_load h p; count_loop fuel h (sn_next n) (s32 (count + 1))
  end.

Definition snmp_count_callbacks (s : cb_state) (major minor : Z) : M (cb_state * Z) :=
  if too_high major minor then Ok (s, SNMPERR_GENERR)
  else
    let s := init_callbacks s in
    c ← cb_get s (major, minor);
    n ← count_loop (S (size (cs_nodes c))) (cs_nodes c) (cs_head c) 0;
    Ok (s, n).

Definition snmp_callback_available (s : cb_state) (major minor : Z) : M (cb_state * Z) :=
  if too_high major minor then Ok (s, SNMPERR_GENERR)
  else
    let s := init_callbacks s in
    c ← cb_get s (major, minor);
    Ok (s, match cs_head c with Some _ => 0 | None => SNMPERR_GENERR end).

(** ** Calling *)

(** What a callback may do to the registry. *)
Inductive cb_op :=
| CRegister (major minor : Z) (f : option nat) (arg : option Z) (priority : Z)
| CUnregister (major minor : Z) (f : option nat) (arg : option Z) (matchargs : bool).

Definition cb_do (s : cb_state) (o : cb_op) : M (cb_state * Z) :=
  match o with
  | CRegister major minor f arg priority => netsnmp_register_callback s major minor f arg priority
  | CUnregister major minor f arg matchargs => snmp_unregister_callback s major minor f arg matchargs
  end.

Fixpoint cb_do_all (s : cb_state) (l : list cb_op) : M cb_state :=
  match l with [] => Ok s | o :: l => '(s, _) ← cb_do s o; cb_do_all s l end.

(** The body of a function, given the identifiers and its client argument. *)
Variable body : nat → Z * Z → option Z → list cb_op.

(** [scp->next] is read after the call. *)
Fixpoint call_loop (fuel : nat) (s : cb_state) (k : Z * Z) (scp : option nat) : M cb_state :=
  match fuel, scp with
  | O, _ => UB
  | S _, None => Ok s
  | S fuel, Some p =>
      c ← cb_get s k;
      n ← sl_load (cs_nodes c) p;
      d ← cb_data n;
      s ← match sc_callback d with
          | None => Ok s
          | Some f =>
              cb_do_all (CbState (cb_need_init s) (cb_table s) (cb_called s ++ [(f, sc_client_arg d)]) (cb_freed s))
                (body f k (sc_client_arg d))
          end;
      c ← cb_get s k;
      n ← sl_load (cs_nodes c) p;
      call_loop fuel s k (sn_next n)
  end.

Definition snmp_call_callbacks (fuel : nat) (s : cb_state) (major minor : Z) : M (cb_state * Z) :=
  if too_high major minor then Ok (s, SNMPERR_GENERR)
  else
    let k := (major, minor) in
    let s := init_callbacks s in
    c ← cb_get s k;
    let s := cb_put s k (_callback_lock c).1 in
    s ← call_loop fuel s k (cs_head c);
    c ← cb_get s k;
    Ok (cb_put s k (_callback_unlock c), 0).

(** ** Clearing *)

(** The identifiers from [(i, j)] on. *)
Definition keys_from (i j : Z) : list (Z * Z) :=
  ((i,.) <$> seqZ j (MAX_CALLBACK_SUBIDS - j)) ++
  concat ((λ i, (i,.) <$> seqZ 0 MAX_CALLBACK_SUBIDS) <$> seqZ (i + 1) (MAX_CALLBACK_IDS - (i + 1))).

Definition clears (ptr : Z) (d : snmp_gen_callback) : bool :=
  bool_decide (is_Some (sc_callback d)) && bool_decide (sc_client_arg d = Some ptr).

Definition no_arg (d : snmp_gen_callback) : snmp_gen_callback :=
  GenCallback (sc_callback d) None (sc_priority d).

Fixpoint args_loop (fuel : nat) (h : cb_heap) (ptr : Z) (scp : option nat) (rc : Z) : M (cb_heap * Z) :=
  match fuel, scp with
  | O, _ => UB
  | S _, None => Ok (h, rc)
  | S fuel, Some p =>
      n ← sl_load h p;
      d ← cb_data n;
      if clears ptr d
      then args_loop fuel (<[p := SlNode (Some (no_arg d)) (sn_next n)]> h) ptr (sn_next n) (s32 (rc + 1))
      else args_loop fuel h ptr (sn_next n) rc
  end.

Fixpoint clear_args (s : cb_state) (ptr : Z) (keys : list (Z * Z)) (rc : Z) : M (cb_state * Z) :=
  match keys with
  | [] => Ok (s, rc)
  | k :: keys =>
      c ← cb_get s k;
      '(h, rc) ← args_loop (S (size (cs_nodes c))) (cs_nodes c) ptr (cs_head c) rc;
      clear_args (cb_put s k (CbSlot h (cs_head c) (cs_lock c))) ptr keys rc
  end.

Definition netsnmp_callback_clear_client_arg (s : cb_state) (ptr i j : Z) : M (cb_state * Z) :=
  clear_args s ptr (keys_from i j) 0.

(** The client argument of the node [p], which is out of the list [k]: it is wiped there
    and from the rest of the lists, and freed. *)
Definition clear_arg (s : cb_state) (k : Z * Z) (p : nat) : M cb_state :=
  c ← cb_get s k;
  n ← sl_load (cs_nodes c) p;
  d ← cb_data n;
  match sc_callback d, sc_client_arg d with
  | Some _, Some tmp_arg =>
      let h := <[p := SlNode (Some (no_arg d)) (sn_next n)]> (cs_nodes c) in
      let s := cb_put s k (CbSlot h (cs_head c) (cs_lock c)) in
      '(s, _) ← netsnmp_callback_clear_client_arg s tmp_arg k.1 k.2;
      Ok (CbState (cb_need_init s) (cb_table s) (cb_called s) (cb_freed s ++ [tmp_arg]))
  | _, _ => Ok s
  end.

(** The loop that empties the list of one pair of identifiers. *)
Fixpoint clear_list_loop (fuel : nat) (s : cb_state) (k : Z * Z) : M cb_state :=
  match fuel with
  | O => UB
  | S fuel =>
      c ← cb_get s k;
      match cs_head c with
      | None => Ok s
      | Some p =>
          n ← sl_load (cs_nodes c) p;
          s ← clear_arg (cb_put s k (CbSlot (cs_nodes c) (sn_next n) (cs_lock c))) k p;
          c ← cb_get s k;
          h ← sl_free (cs_nodes c) p;
          clear_list_loop fuel (cb_put s k (CbSlot h (cs_head c) (cs_lock c))) k
      end
  end.

Fixpoint clear_slots (s : cb_state) (keys : list (Z * Z)) : M cb_state :=
  match keys with
  | [] => Ok s
  | k :: keys =>
      c ← cb_get s k;
      let s := cb_put s k (_callback_lock c).1 in
      s ← clear_list_loop (S (size (cs_nodes c))) s k;
      c ← cb_get s k;
      clear_slots (cb_put s k (_callback_unlock c)) keys
  end.

Definition clear_callback (s : cb_state) : M cb_state :=
  clear_slots (init_callbacks s) (keys_from 0 0).
End Registry.

(** ** The lists of the registry *)

Notation cb_cells := (list (nat * snmp_gen_callback)).

Definition in_range (k : Z * Z) : Prop := 0 ≤ k.1 < MAX_CALLBACK_IDS ∧ 0 ≤ k.2 < MAX_CALLBACK_SUBIDS.

Definition slot_at (s : cb_state) (k : Z * Z) : cb_slot := default empty_slot (cb_table s !! k).

(** The list of a slot has the nodes [post]; [pre] are nodes that are not linked. *)
Definition slot_holds (lock : Z) (c : cb_slot) (pre post : cb_cells) : Prop :=
  NoDup (pre ++ post).*1 ∧ cs_nodes c = sl_build (pre ++ post) ∧ cs_head c = head post.*1 ∧ cs_lock c = lock.

Lemma cb_get_slot s k : in_range k → cb_get s k = Ok (slot_at s k).
Proof.
  intros [[??] [??]]. unfold cb_get. destruct k as [i j]. cbn [fst snd] in *.
  replace (0 <=? i) with true by lia. replace (i <? MAX_CALLBACK_IDS) with true by lia.
  replace (0 <=? j) with true by lia. by replace (j <? MAX_CALLBACK_SUBIDS) with true by lia.
Qed.

Lemma slot_put s k c : slot_at (cb_put s k c) k = c.
Proof. unfold slot_at, cb_put. cbn [cb_table]. by rewrite lookup_insert_eq. Qed.

Lemma slot_put_ne s k k' c : k' ≠ k → slot_at (cb_put s k c) k' = slot_at s k'.
Proof. intros H. unfold slot_at, cb_put. cbn [cb_table]. by rewrite lookup_insert_ne. Qed.

(** Before the first use the table is empty. *)
Definition ready (s : cb_state) : Prop := cb_need_init s = true → cb_table s = ∅.

Lemma slot_init s k : ready s → slot_at (init_callbacks s) k = slot_at s k.
Proof. unfold ready, init_callbacks, slot_at. destruct (cb_need_init s); [|done]. intros ->; done. Qed.

Lemma init_ready s : cb_need_init (init_callbacks s) = false.
Proof. unfold init_callbacks. by destruct (cb_need_init s) eqn:E. Qed.

Lemma init_called s : cb_called (init_callbacks s) = cb_called s ∧ cb_freed (init_callbacks s) = cb_freed s.
Proof. unfold init_callbacks. by destruct (cb_need_init s). Qed.

Lemma ready_need s : cb_need_init s = false → ready s.
Proof. intros E. unfold ready. congruence. Qed.

Lemma too_high_range major minor :
  0 ≤ major → 0 ≤ minor → too_high major minor = false → in_range (major, minor).
Proof. unfold too_high, in_range. cbn [fst snd]. lia. Qed.

Lemma range_too_high major minor : in_range (major, minor) → too_high major minor = false.
Proof. unfold too_high, in_range. cbn [fst snd]. lia. Qed.

(** Taking and releasing the lock of a list that is not held. *)
Lemma lock_free c pre post : slot_holds 0 c pre post →
  _callback_lock c = (CbSlot (sl_build (pre ++ post)) (head post.*1) 1, 0).
Proof. intros (_ & En & Eh & El). unfold _callback_lock. by rewrite El, En, Eh. Qed.

Lemma unlock_holds c pre post : slot_holds 1 c pre post → slot_holds 0 (_callback_unlock c) pre post.
Proof. intros (? & ? & ? & El). unfold slot_holds, _callback_unlock. cbn. by rewrite El. Qed.

(** A node gets other data. *)
Lemma sl_build_update {A} (pre : list (nat * A)) p a b post :
  NoDup (pre ++ (p, a) :: post).*1 →
  <[p := SlNode (Some b) (head post.*1)]> (sl_build (pre ++ (p, a) :: post)) = sl_build (pre ++ (p, b) :: post).
Proof.
  intros Hnd. induction pre as [|[x c] pre IH].
  - cbn [app sl_build]. by rewrite insert_insert_eq.
  - cbn [app sl_build] in *. rewrite fmap_cons in Hnd. apply NoDup_cons in Hnd as [Hx Hnd]. cbn [fst] in Hx.
    assert (p ≠ x) as Hpx. { intros ->. apply Hx. rewrite fmap_app. set_solver. }
    rewrite (insert_insert_ne _ p x) by done. rewrite IH by done. f_equal. f_equal. by destruct pre.
Qed.

(** ** Registration *)

(** In front of the first callback with a greater priority. *)
Fixpoint p_insert (d : snmp_gen_callback) (l : list snmp_gen_callback) : list snmp_gen_callback :=
  match l with
  | [] => [d]
  | x :: r => if sc_priority d <? sc_priority x then d :: l else x :: p_insert d r
  end.

Lemma priority_loop_spec fuel h d (pre post : cb_cells) prev :
  sl_build (pre ++ post) ⊆ h → NoDup (pre ++ post).*1 → (length post < fuel)%nat →
  ∃ p1 p2, post = p1 ++ p2 ∧ p_insert d post.*2 = p1.*2 ++ d :: p2.*2 ∧
    priority_loop fuel h (sc_priority d) prev (head post.*1)
      = Ok (match last p1.*1 with Some p => Some p | None => prev end, head p2.*1).
Proof.
  revert pre prev fuel. induction post as [|[p x] post IH]; intros pre prev [|fuel] Hh Hnd Hf;
    cbn [length] in Hf; try lia; [by exists [], []|].
  rewrite !fmap_cons. cbn [fst snd head priority_loop p_insert].
  rewrite (sl_load_middle h pre p x post) by done. m_step. unfold cb_data. cbn [sn_data sn_next]. m_step.
  destruct (sc_priority d <? sc_priority x). { by exists [], ((p, x) :: post). }
  specialize (IH (pre ++ [(p, x)]) (Some p) fuel). rewrite <- app_assoc in IH.
  destruct IH as (p1 & p2 & -> & Ei & E); [done|done|lia|].
  exists ((p, x) :: p1), p2. split_and!; [done|by rewrite Ei|].
  rewrite E. rewrite fmap_cons, last_cons. by destruct (last p1.*1).
Qed.

(** The new node is stored through [prevNext]. *)
Lemma store_new (p1 p2 : cb_cells) new d :
  NoDup (p1 ++ p2).*1 → new ∉ (p1 ++ p2).*1 →
  store_at (<[new := SlNode (Some d) (head p2.*1)]> (sl_build (p1 ++ p2))) (head (p1 ++ p2).*1)
    (last p1.*1) (Some new)
  = Ok (sl_build (p1 ++ (new, d) :: p2), head (p1 ++ (new, d) :: p2).*1).
Proof.
  intros Hnd Hnew. destruct (nil_or_last p1) as [->|(q1 & [q x] & ->)]; [done|].
  rewrite last_address. cbn [store_at]. unfold sl_link, sl_load. rewrite <- app_assoc in *. cbn [app] in *.
  rewrite lookup_insert_ne by (intros ->; apply Hnew; rewrite fmap_app; set_solver).
  rewrite sl_build_middle by done. m_step. cbn [sn_data].
  rewrite sl_build_after by done. rewrite <- app_assoc. do 2 f_equal. apply head_middle.
Qed.

Lemma nodup_new (p1 p2 : cb_cells) new d :
  NoDup (p1 ++ p2).*1 → new ∉ (p1 ++ p2).*1 → NoDup (p1 ++ (new, d) :: p2).*1.
Proof.
  intros Hnd Hnew. rewrite fmap_app, fmap_cons. cbn [fst]. rewrite fmap_app in Hnd, Hnew.
  rewrite <- Permutation_middle. by constructor.
Qed.

(** The lists of callbacks by their identifiers. *)
Notation registry := (gmap (Z * Z) (list snmp_gen_callback)).

Definition reg (m : registry) (k : Z * Z) : list snmp_gen_callback := default [] (m !! k).

(** The list of [held] is locked, because its callbacks are being called. *)
Definition held_lock (held : option (Z * Z)) (k : Z * Z) : Z := if bool_decide (held = Some k) then 1 else 0.

Definition cb_rep (held : option (Z * Z)) (s : cb_state) (m : registry) : Prop :=
  ready s ∧
  ∀ k, in_range k → ∃ cs, slot_holds (held_lock held k) (slot_at s k) [] cs ∧ cs.*2 = reg m k.

(** Only the list [k] is changed. *)
Definition cb_keeps (k : Z * Z) (s s' : cb_state) : Prop :=
  (∀ k', k' ≠ k → slot_at s' k' = slot_at s k') ∧ cb_called s' = cb_called s ∧ cb_freed s' = cb_freed s.

Lemma not_held held k : held ≠ Some k → held_lock held k = 0.
Proof. intros H. unfold held_lock. by rewrite bool_decide_false. Qed.

Lemma reg_insert m k l : reg (<[k := l]> m) k = l.
Proof. unfold reg. by rewrite lookup_insert_eq. Qed.

Lemma cb_rep_init held s m : cb_rep held s m → cb_rep held (init_callbacks s) m.
Proof.
  intros [Hr H]. split; [apply ready_need, init_ready|]. intros k Hk. rewrite slot_init by done. auto.
Qed.

Lemma cb_rep_put held s m k c cs :
  cb_rep held s m → slot_holds (held_lock held k) c [] cs →
  cb_rep held (cb_put (init_callbacks s) k c) (<[k := cs.*2]> m) ∧ cb_keeps k s (cb_put (init_callbacks s) k c).
Proof.
  intros [Hr H] Hc. split_and!; [split|unfold cb_keeps; split_and!].
  - apply ready_need, init_ready.
  - intros k' Hk'. destruct (decide (k' = k)) as [->|Hne].
    + rewrite slot_put, reg_insert. by exists cs.
    + rewrite slot_put_ne, slot_init by done. unfold reg. rewrite lookup_insert_ne by done. auto.
  - intros k' Hne. by rewrite slot_put_ne, slot_init.
  - apply init_called.
  - apply init_called.
Qed.

Lemma reg_same m k : (∀ held s, cb_rep held s m → cb_rep held s (<[k := reg m k]> m)).
Proof.
  intros held s [Hr H]. split; [done|]. intros k' Hk'. destruct (decide (k' = k)) as [->|Hne].
  - rewrite reg_insert. auto.
  - unfold reg at 1. rewrite lookup_insert_ne by done. auto.
Qed.

Section Operations.
Variable calloc_ok : Z → Z → bool.
Variable alloc : cb_heap → nat.
Hypothesis alloc_fresh : ∀ h, h !! alloc h = None.

Definition r_register (m : registry) (k : Z * Z) (d : snmp_gen_callback) : registry * Z :=
  if calloc_ok 1 SIZEOF_SNMP_GEN_CALLBACK then (<[k := p_insert d (reg m k)]> m, 0)
  else (<[k := reg m k]> m, SNMPERR_GENERR).

Lemma register_list held s m major minor f arg priority :
  in_range (major, minor) → held ≠ Some (major, minor) → cb_rep held s m →
  let '(m', v) := r_register m (major, minor) (GenCallback f arg priority) in
  ∃ s', netsnmp_register_callback calloc_ok alloc s major minor f arg priority = Ok (s', v) ∧
    cb_rep held s' m' ∧ cb_keeps (major, minor) s s'.
Proof.
  intros Hk Hheld Hs. unfold netsnmp_register_callback, r_register.
  set (k := (major, minor)) in *. set (d := GenCallback f arg priority) in *.
  rewrite range_too_high by done. rewrite cb_get_slot by done. m_step.
  destruct (proj2 Hs k Hk) as (cs & Hc & Ecs). rewrite not_held in Hc by done.
  rewrite slot_init by apply Hs. rewrite (lock_free _ [] cs) by done. cbn [app cs_nodes cs_head cs_lock].
  destruct Hc as (Hnd & En & Eh & El). cbn [app] in *.
  destruct (calloc_ok 1 SIZEOF_SNMP_GEN_CALLBACK).
  - destruct (priority_loop_spec (S (size (sl_build cs))) (sl_build cs) d [] cs None)
      as (p1 & p2 & Ep & Ei & E); [done|done|rewrite sl_build_size by done; lia|].
    rewrite <- Ecs, Ei. cbn [sc_priority d] in E. rewrite E. m_step.
    replace (match last p1.*1 with Some p => Some p | None => None end) with (last p1.*1) by (by destruct (last p1.*1)).
    pose proof (sl_build_fresh cs _ (alloc_fresh (sl_build cs))) as Hnew.
    set (new := alloc (sl_build cs)) in *. clearbody new. rewrite Ep in Hnd, Hnew |- *.
    rewrite store_new by done. m_step. eexists. split; [done|].
    replace (p1.*2 ++ d :: p2.*2) with ((p1 ++ (new, d) :: p2).*2) by (by rewrite fmap_app).
    apply cb_rep_put; [done|]. rewrite not_held by done. unfold slot_holds. cbn.
    split_and!; [by apply nodup_new|done..].
  - eexists. split; [done|]. rewrite <- Ecs. apply cb_rep_put; [done|].
    rewrite not_held by done. by unfold slot_holds.
Qed.

(** ** Taking callbacks out *)

Definition r_unregister (m : registry) (k : Z * Z) (test : snmp_gen_callback → bool) : registry * Z :=
  (<[k := filter (λ d, test d = false) (reg m k)]> m,
   s32 (Z.of_nat (length (filter (λ d, test d = true) (reg m k))))).

Lemma unlink_callback (pre : cb_cells) p d post :
  NoDup (pre ++ (p, d) :: post).*1 →
  ∃ h, store_at (sl_build (pre ++ (p, d) :: post)) (head (pre ++ (p, d) :: post).*1) (last pre.*1) (head post.*1)
      = Ok (h, head (pre ++ post).*1) ∧
    sl_free h p = Ok (sl_build (pre ++ post)).
Proof.
  intros Hnd. destruct (nil_or_last pre) as [->|(q1 & [q x] & ->)].
  - eexists. split; [done|]. unfold sl_free. rewrite (sl_load_middle _ [] p d post) by done. m_step.
    f_equal. by apply (sl_build_tail p d).
  - rewrite last_address. cbn [store_at]. unfold sl_link. rewrite <- !app_assoc in *. cbn [app] in *.
    rewrite (sl_load_middle _ q1 q x ((p, d) :: post)) by done. m_step. cbn [sn_data]. eexists. split.
    { do 2 f_equal. apply head_middle. }
    unfold sl_free, sl_load. rewrite lookup_insert_ne.
    2: { intros ->. rewrite fmap_app, !fmap_cons in Hnd. apply NoDup_app in Hnd as (_ & _ & [Hn _]%NoDup_cons).
         apply Hn. by left. }
    replace (q1 ++ (q, x) :: (p, d) :: post) with ((q1 ++ [(q, x)]) ++ (p, d) :: post) in * by (by rewrite <- app_assoc).
    rewrite sl_build_middle by done. m_step. rewrite <- app_assoc in *. f_equal. by apply (sl_build_without q1 q x p d).
Qed.

Lemma s32_succ z n : s32 (s32 z + 1 + Z.of_nat n) = s32 (z + Z.of_nat (S n)).
Proof. apply s32_cong. unfold s32. zify. Z.to_euclidean_division_equations. lia. Qed.

Lemma unregister_loop_spec fuel test (pre post : cb_cells) count :
  NoDup (pre ++ post).*1 → (length post < fuel)%nat →
  ∃ post', NoDup (pre ++ post').*1 ∧ post'.*2 = filter (λ d, test d = false) post.*2 ∧
    unregister_loop fuel (sl_build (pre ++ post)) (head (pre ++ post).*1) 1 test (last pre.*1) (head post.*1) (s32 count)
    = Ok (sl_build (pre ++ post'), head (pre ++ post').*1,
          s32 (count + Z.of_nat (length (filter (λ d, test d = true) post.*2)))).
Proof.
  revert pre count fuel. induction post as [|[p d] post IH]; intros pre count [|fuel] Hnd Hf;
    cbn [length] in Hf; try lia.
  { exists []. split_and!; [done..|]. cbn. by rewrite Z.add_0_r. }
  rewrite !fmap_cons. cbn [fst snd head unregister_loop].
  rewrite (sl_load_middle _ pre p d post) by done. m_step. unfold cb_data. cbn [sn_data sn_next]. m_step.
  rewrite !filter_cons. destruct (test d) eqn:Et.
  - rewrite decide_False, decide_True by done. cbn [Z.eqb Pos.eqb].
    destruct (unlink_callback pre p d post Hnd) as (h & -> & E). m_step. rewrite E. m_step.
    destruct (IH pre (count + 1) fuel) as (post' & Hnd' & Ep & E'); [|lia|].
    { rewrite fmap_app in *. rewrite fmap_cons in Hnd. rewrite <- Permutation_middle in Hnd.
      by apply NoDup_cons in Hnd as [_ ?]. }
    exists post'. split_and!; [done..|]. cbn [length].
    replace (s32 (s32 count + 1)) with (s32 (count + 1)).
    + rewrite E'. do 3 f_equal. lia.
    + pose proof (s32_succ count 0) as Hs. rewrite Z.add_0_r in Hs. symmetry. exact Hs.
  - rewrite decide_True, decide_False by done.
    specialize (IH (pre ++ [(p, d)]) count fuel). rewrite <- app_assoc, last_address in IH.
    destruct IH as (post' & Hnd' & Ep & E'); [done|lia|]. rewrite <- app_assoc in Hnd', E'.
    exists ((p, d) :: post'). split_and!; [done| |exact E'].
    rewrite fmap_cons. cbn [snd]. by rewrite Ep.
Qed.

Lemma unregister_list held s m major minor target arg matchargs :
  in_range (major, minor) → held ≠ Some (major, minor) → cb_rep held s m →
  let '(m', v) := r_unregister m (major, minor) (unregister_matches target arg matchargs) in
  ∃ s', snmp_unregister_callback s major minor target arg matchargs = Ok (s', v) ∧
    cb_rep held s' m' ∧ cb_keeps (major, minor) s s'.
Proof.
  intros Hk Hheld Hs. unfold snmp_unregister_callback, r_unregister.
  set (k := (major, minor)) in *. rewrite !cb_get_slot by done. m_step.
  destruct (proj2 Hs k Hk) as (cs & Hc & Ecs). rewrite not_held in Hc by done.
  rewrite slot_init by apply Hs. rewrite (lock_free _ [] cs) by done. cbn [app cs_nodes cs_head cs_lock].
  destruct Hc as (Hnd & En & Eh & El). cbn [app] in *. rewrite Eh, sl_build_size by done.
  destruct (unregister_loop_spec (2 * length cs + 1) (unregister_matches target arg matchargs) [] cs 0)
    as (cs' & Hnd' & Ecs' & E); [done|lia|].
  cbn [app] in *. change (s32 0) with 0 in E. change (last [].*1) with (@None nat) in E. rewrite E. m_step.
  eexists. split; [by rewrite <- Ecs|]. rewrite <- Ecs, <- Ecs'. apply cb_rep_put; [done|].
  rewrite not_held by done. by unfold slot_holds.
Qed.

(** ** Counting and calling *)

Lemma count_loop_spec fuel (pre post : cb_cells) count :
  NoDup (pre ++ post).*1 → (length post < fuel)%nat →
  count_loop fuel (sl_build (pre ++ post)) (head post.*1) (s32 count) = Ok (s32 (count + Z.of_nat (length post))).
Proof.
  revert pre count fuel. induction post as [|[p d] post IH]; intros pre count [|fuel] Hnd Hf;
    cbn [length] in Hf; try lia; [by cbn; rewrite Z.add_0_r|].
  rewrite fmap_cons. cbn [fst head count_loop]. rewrite (sl_load_middle _ pre p d post) by done. m_step.
  cbn [sn_next]. specialize (IH (pre ++ [(p, d)]) (count + 1) fuel). rewrite <- app_assoc in IH. cbn [app] in IH.
  replace (s32 (s32 count + 1)) with (s32 (count + 1)).
  - rewrite IH by (done || lia). cbn [length]. do 2 f_equal. lia.
  - pose proof (s32_succ count 0) as Hs. rewrite Z.add_0_r in Hs. symmetry. exact Hs.
Qed.

(** What an operation does to the lists, with its answer. *)
Definition op_key (o : cb_op) : Z * Z :=
  match o with CRegister major minor _ _ _ | CUnregister major minor _ _ _ => (major, minor) end.

(** Unregistering does not check the identifiers; no operation checks that they are not negative. *)
Definition op_ok (o : cb_op) : Prop :=
  match o with
  | CRegister major minor _ _ _ => 0 ≤ major ∧ 0 ≤ minor
  | CUnregister major minor _ _ _ => in_range (major, minor)
  end.

Definition r_do (m : registry) (o : cb_op) : registry * Z :=
  match o with
  | CRegister major minor f arg priority =>
      if too_high major minor then (m, SNMPERR_GENERR) else r_register m (major, minor) (GenCallback f arg priority)
  | CUnregister major minor target arg matchargs =>
      r_unregister m (major, minor) (unregister_matches target arg matchargs)
  end.

Definition r_do_all : registry → list cb_op → registry := foldl (λ m o, (r_do m o).1).

Lemma do_list held s m o :
  op_ok o → held ≠ Some (op_key o) → cb_rep held s m →
  ∃ s', cb_do calloc_ok alloc s o = Ok (s', (r_do m o).2) ∧ cb_rep held s' (r_do m o).1 ∧ cb_keeps (op_key o) s s'.
Proof.
  intros Ho Hh Hs. destruct o as [major minor f arg prio|major minor f arg matchargs]; cbn [op_ok op_key cb_do r_do] in *.
  - destruct (too_high major minor) eqn:Et.
    + unfold netsnmp_register_callback, cb_keeps. rewrite Et. exists s. by split_and!.
    + pose proof (register_list held s m major minor f arg prio) as H.
      destruct (r_register _ _ _) as [m' v]. apply H; [|done|done]. destruct Ho. by apply too_high_range.
  - pose proof (unregister_list held s m major minor f arg matchargs) as H.
    destruct (r_unregister _ _ _) as [m' v]. by apply H.
Qed.

(** Operations on lists other than the one that is held. *)
Lemma do_all_list k s m l :
  Forall (λ o, op_ok o ∧ op_key o ≠ k) l → cb_rep (Some k) s m →
  ∃ s', cb_do_all calloc_ok alloc s l = Ok s' ∧ cb_rep (Some k) s' (r_do_all m l) ∧
    slot_at s' k = slot_at s k ∧ cb_called s' = cb_called s ∧ cb_freed s' = cb_freed s.
Proof.
  intros Hl. revert s m. induction Hl as [|o l [Ho Hk] _ IH]; intros s m Hs; [by exists s|].
  destruct (do_list (Some k) s m o) as (s1 & E & Hs1 & Hkeep & Hc & Hf); [done|congruence|done|].
  destruct (IH s1 _ Hs1) as (s' & E' & Hs' & Hsl & Hc' & Hf').
  exists s'. cbn [cb_do_all]. rewrite E. m_step. split_and!; [done|done| |congruence..].
  rewrite Hsl. apply Hkeep. congruence.
Qed.

Variable body : nat → Z * Z → option Z → list cb_op.
Hypothesis body_elsewhere : ∀ f k arg, Forall (λ o, op_ok o ∧ op_key o ≠ k) (body f k arg).

(** The calls a list stands for. *)
Definition live_call (d : snmp_gen_callback) : option (nat * option Z) := (λ f, (f, sc_client_arg d)) <$> sc_callback d.

Definition bodies (k : Z * Z) (calls : list (nat * option Z)) : list cb_op :=
  concat ((λ fa, body fa.1 k fa.2) <$> calls).

Definition logged (s : cb_state) (f : nat) (arg : option Z) : cb_state :=
  CbState (cb_need_init s) (cb_table s) (cb_called s ++ [(f, arg)]) (cb_freed s).

Lemma call_loop_spec fuel k (pre post : cb_cells) s m :
  in_range k → cb_rep (Some k) s m → slot_holds 1 (slot_at s k) [] (pre ++ post) → (length post < fuel)%nat →
  ∃ s', call_loop calloc_ok alloc body fuel s k (head post.*1) = Ok s' ∧
    cb_rep (Some k) s' (r_do_all m (bodies k (omap live_call post.*2))) ∧
    cb_called s' = cb_called s ++ omap live_call post.*2 ∧ cb_freed s' = cb_freed s ∧ slot_at s' k = slot_at s k.
Proof.
  intros Hk. revert pre s m fuel. induction post as [|[p d] post IH]; intros pre s m [|fuel] Hs Hc Hf;
    cbn [length] in Hf; try lia.
  { exists s. split_and!; [done|done| |done|done]. cbn. by rewrite app_nil_r. }
  rewrite !fmap_cons. cbn [fst head call_loop snd omap list_omap]. rewrite cb_get_slot by done. m_step.
  assert (∀ s1, slot_at s1 k = slot_at s k → sl_load (cs_nodes (slot_at s1 k)) p = Ok (SlNode (Some d) (head post.*1))) as Hload.
  { intros s1 ->. destruct Hc as (Hnd & -> & _). by apply (sl_load_middle _ pre). }
  rewrite Hload by done. m_step. unfold cb_data. cbn [sn_data]. m_step.
  assert (∃ s1, match sc_callback d with
                | None => Ok s
                | Some f => cb_do_all calloc_ok alloc (logged s f (sc_client_arg d)) (body f k (sc_client_arg d))
                end = Ok s1 ∧
    cb_rep (Some k) s1 (r_do_all m (bodies k (option_list (live_call d)))) ∧
    cb_called s1 = cb_called s ++ option_list (live_call d) ∧ cb_freed s1 = cb_freed s ∧ slot_at s1 k = slot_at s k)
    as (s1 & E1 & Hs1 & Hc1 & Hf1 & Hsl1).
  { unfold live_call. destruct (sc_callback d) as [f|]; cbn [fmap option_fmap option_map option_list].
    - destruct (do_all_list k (logged s f (sc_client_arg d)) m (body f k (sc_client_arg d)))
        as (s1 & E & Hs1 & Hsl & Hc1 & Hf1); [apply body_elsewhere|exact Hs|].
      exists s1. cbn. rewrite app_nil_r. by split_and!.
    - exists s. cbn. by rewrite app_nil_r. }
  unfold logged in E1. rewrite E1. m_step. rewrite cb_get_slot by done. m_step. rewrite Hload by done. m_step.
  destruct (IH (pre ++ [(p, d)]) s1 (r_do_all m (bodies k (option_list (live_call d)))) fuel)
    as (s' & E & Hs' & Hc' & Hf' & Hsl'); [done|rewrite <- app_assoc, Hsl1; exact Hc|lia|].
  exists s'. cbn [sn_next]. split_and!; [done| | |congruence|congruence].
  - destruct (live_call d) as [fa|]; cbn [option_list] in Hs'; [|exact Hs'].
    replace (bodies k (fa :: omap live_call post.*2)) with (bodies k [fa] ++ bodies k (omap live_call post.*2)).
    + unfold r_do_all. by rewrite foldl_app.
    + unfold bodies. cbn. by rewrite app_nil_r.
  - rewrite Hc', Hc1, <- app_assoc. by destruct (live_call d).
Qed.

Lemma held_call k : held_lock (Some k) k = 1.
Proof. unfold held_lock. by rewrite bool_decide_true. Qed.

(** The list that is called is held from the first call to the last. *)
Lemma hold_rep s m k cs :
  cb_rep None s m → in_range k → slot_holds 0 (slot_at s k) [] cs → cs.*2 = reg m k →
  let s1 := cb_put (init_callbacks s) k (_callback_lock (slot_at (init_callbacks s) k)).1 in
  cb_rep (Some k) s1 m ∧ slot_holds 1 (slot_at s1 k) [] cs.
Proof.
  intros Hs Hk Hc Ecs s1. assert (slot_holds 1 (slot_at s1 k) [] cs) as H1.
  { unfold s1. rewrite slot_put, slot_init by apply Hs. rewrite (lock_free _ [] cs) by done.
    destruct Hc as (? & ? & ? & ?). by unfold slot_holds. }
  split; [|done]. split; [apply ready_need, init_ready|]. intros k' Hk'.
  destruct (proj2 Hs k' Hk') as (cs' & Hc' & E). destruct (decide (k' = k)) as [->|Hne].
  - exists cs. by rewrite held_call.
  - exists cs'. unfold s1. rewrite slot_put_ne, slot_init by first [done|apply Hs]. split; [|done].
    unfold held_lock in *. by rewrite bool_decide_false in * by congruence.
Qed.

Lemma release_rep s m k :
  cb_rep (Some k) s m → in_range k → cb_rep None (cb_put s k (_callback_unlock (slot_at s k))) m.
Proof.
  intros [Hr Hs] Hk. destruct (Hs k Hk) as (cs & Hc & E). rewrite held_call in Hc. split.
  - intros Hn. destruct Hc as (_ & _ & _ & El). specialize (Hr Hn). unfold slot_at in El. by rewrite Hr in El.
  - intros k' Hk'. destruct (decide (k' = k)) as [->|Hne].
    + exists cs. rewrite slot_put. split; [by apply unlock_holds|done].
    + destruct (Hs k' Hk') as (cs' & Hc' & E'). exists cs'. rewrite slot_put_ne by done. split; [|done].
      unfold held_lock in *. by rewrite bool_decide_false in * by congruence.
Qed.

Lemma call_list fuel s m major minor :
  in_range (major, minor) → cb_rep None s m → (length (reg m (major, minor)) < fuel)%nat →
  ∃ s', snmp_call_callbacks calloc_ok alloc body fuel s major minor = Ok (s', 0) ∧
    cb_rep None s' (r_do_all m (bodies (major, minor) (omap live_call (reg m (major, minor))))) ∧
    cb_called s' = cb_called s ++ omap live_call (reg m (major, minor)) ∧ cb_freed s' = cb_freed s.
Proof.
  intros Hk Hs Hf. unfold snmp_call_callbacks. rewrite range_too_high by done. set (k := (major, minor)) in *.
  rewrite cb_get_slot by done. m_step. destruct (proj2 Hs k Hk) as (cs & Hc & Ecs).
  destruct (hold_rep s m k cs) as [Hs1 Hc1]; [done..|].
  set (s1 := cb_put _ _ _) in *. rewrite slot_init by apply Hs. destruct Hc as (_ & _ & Eh & _). rewrite Eh.
  destruct (call_loop_spec fuel k [] cs s1 m) as (s' & E & Hs' & Hc' & Hf' & _); [done|done|done| |].
  { rewrite <- Ecs, length_fmap in Hf. done. }
  rewrite E. m_step. rewrite cb_get_slot by done. m_step. eexists. split; [done|].
  rewrite <- Ecs. split_and!.
  - by apply release_rep.
  - cbn [cb_put cb_called]. rewrite Hc'. unfold s1. cbn [cb_put cb_called]. by rewrite (proj1 (init_called s)).
  - cbn [cb_put cb_freed]. rewrite Hf'. unfold s1. cbn [cb_put cb_freed]. apply init_called.
Qed.

(** ** Sequences of operations *)

Inductive cb_event :=
| EDo (o : cb_op)
| ECount (major minor : Z)
| EAvailable (major minor : Z)
| ECall (major minor : Z).

Definition event_ok (e : cb_event) : Prop :=
  match e with
  | EDo o => op_ok o
  | ECount major minor | EAvailable major minor | ECall major minor => 0 ≤ major ∧ 0 ≤ minor
  end.

Definition cb_step (fuel : nat) (s : cb_state) (e : cb_event) : M (cb_state * Z) :=
  match e with
  | EDo o => cb_do calloc_ok alloc s o
  | ECount major minor => snmp_count_callbacks s major minor
  | EAvailable major minor => snmp_callback_available s major minor
  | ECall major minor => snmp_call_callbacks calloc_ok alloc body fuel s major minor
  end.

Fixpoint cb_run (fuel : nat) (s : cb_state) (l : list cb_event) : M (cb_state * list Z) :=
  match l with
  | [] => Ok (s, [])
  | e :: l => '(s, v) ← cb_step fuel s e; '(s, vs) ← cb_run fuel s l; Ok (s, v :: vs)
  end.

(** The lists, the answer and the calls that are made. *)
Definition r_step (m : registry) (e : cb_event) : registry * Z * list (nat * option Z) :=
  match e with
  | EDo o => (r_do m o, [])
  | ECount major minor =>
      (m, if too_high major minor then SNMPERR_GENERR else s32 (Z.of_nat (length (reg m (major, minor)))), [])
  | EAvailable major minor =>
      (m, if too_high major minor then SNMPERR_GENERR
          else match reg m (major, minor) with [] => SNMPERR_GENERR | _ => 0 end, [])
  | ECall major minor =>
      if too_high major minor then (m, SNMPERR_GENERR, [])
      else
        let calls := omap live_call (reg m (major, minor)) in
        (r_do_all m (bodies (major, minor) calls), 0, calls)
  end.

Fixpoint r_run (m : registry) (l : list cb_event) : registry * list Z * list (nat * option Z) :=
  match l with
  | [] => (m, [], [])
  | e :: l =>
      let '(m, v, calls) := r_step m e in
      let '(m, vs, calls') := r_run m l in (m, v :: vs, calls ++ calls')
  end.

Definition cb_start : cb_state := CbState true ∅ [] [].

Lemma start_rep : cb_rep None cb_start ∅.
Proof.
  split; [done|]. intros k _. exists []. split; [|done]. split_and!; [constructor|done..].
Qed.

Lemma step_list fuel s m e :
  event_ok e → cb_rep None s m →
  (∀ major minor, e = ECall major minor → length (reg m (major, minor)) < fuel)%nat →
  let '(m', v, calls) := r_step m e in
  ∃ s', cb_step fuel s e = Ok (s', v) ∧ cb_rep None s' m' ∧ cb_called s' = cb_called s ++ calls.
Proof.
  intros He Hs Hf. destruct e as [o|major minor|major minor|major minor]; cbn [event_ok r_step cb_step] in *.
  - destruct (do_list None s m o) as (s' & E & Hs' & _ & Hc & _); [done..|].
    destruct (r_do m o) as [m' v]. exists s'. by rewrite app_nil_r.
  - unfold snmp_count_callbacks. destruct (too_high major minor) eqn:Et.
    { exists s. by rewrite app_nil_r. }
    assert (in_range (major, minor)) as Hk by (destruct He; by apply too_high_range).
    rewrite cb_get_slot by done. m_step. rewrite slot_init by apply Hs.
    destruct (proj2 Hs _ Hk) as (cs & (Hnd & En & Eh & _) & Ecs). rewrite En, Eh. cbn [app] in *.
    change 0 with (s32 0) at 1. rewrite (count_loop_spec _ [] cs) by (rewrite ?sl_build_size by done; done || lia).
    m_step. exists (init_callbacks s). rewrite <- Ecs, length_fmap, app_nil_r.
    split_and!; [done|by apply cb_rep_init|apply init_called].
  - unfold snmp_callback_available. destruct (too_high major minor) eqn:Et.
    { exists s. by rewrite app_nil_r. }
    assert (in_range (major, minor)) as Hk by (destruct He; by apply too_high_range).
    rewrite cb_get_slot by done. m_step. rewrite slot_init by apply Hs.
    destruct (proj2 Hs _ Hk) as (cs & (Hnd & En & Eh & _) & Ecs). rewrite Eh, <- Ecs, app_nil_r.
    exists (init_callbacks s). split_and!; [by destruct cs as [|[??] ?]|by apply cb_rep_init|apply init_called].
  - destruct (too_high major minor) eqn:Et.
    { unfold snmp_call_callbacks. rewrite Et. exists s. by rewrite app_nil_r. }
    destruct (call_list fuel s m major minor) as (s' & E & Hs' & Hc & _);
      [destruct He; by apply too_high_range|done|by apply Hf|].
    by exists s'.
Qed.

Lemma run_list m l :
  Forall event_ok l →
  let '(m', vs, calls) := r_run m l in
  ∃ n, ∀ fuel s, (n ≤ fuel)%nat → cb_rep None s m →
    ∃ s', cb_run fuel s l = Ok (s', vs) ∧ cb_rep None s' m' ∧ cb_called s' = cb_called s ++ calls.
Proof.
  intros Hl. revert m. induction Hl as [|e l He _ IH]; intros m.
  { exists 0%nat. intros fuel s _ Hs. exists s. cbn. by rewrite app_nil_r. }
  cbn [r_run cb_run]. set (len := match e with ECall major minor => S (length (reg m (major, minor))) | _ => 0%nat end).
  assert (∀ fuel, (len ≤ fuel)%nat → ∀ major minor, e = ECall major minor →
    (length (reg m (major, minor)) < fuel)%nat) as Hlen by (intros fuel Hf major minor ->; unfold len in Hf; lia).
  pose proof (λ fuel s Hf Hs, step_list fuel s m e He Hs (Hlen fuel Hf)) as Hstep. clearbody len.
  destruct (r_step m e) as [[m1 v] calls]. specialize (IH m1).
  destruct (r_run m1 l) as [[m' vs] calls']. destruct IH as (n & IH).
  exists (len `max` n)%nat. intros fuel s Hf Hs.
  destruct (Hstep fuel s) as (s1 & E1 & Hs1 & Hc1); [lia|done|].
  destruct (IH fuel s1) as (s' & E & Hs' & Hc); [lia|done|].
  exists s'. rewrite E1. m_step. rewrite E. m_step. split_and!; [done|done|]. by rewrite Hc, Hc1, app_assoc.
Qed.

(** *** The order of the lists *)

Definition by_priority (d d' : snmp_gen_callback) : Prop := sc_priority d ≤ sc_priority d'.

Definition ordered (m : registry) : Prop := ∀ k, StronglySorted by_priority (reg m k).

Lemma p_insert_In d l x : x ∈ p_insert d l ↔ x = d ∨ x ∈ l.
Proof.
  induction l as [|y l IH]; cbn [p_insert]; [set_solver|]. destruct (_ <? _); set_solver.
Qed.

Lemma p_insert_sorted d l : StronglySorted by_priority l → StronglySorted by_priority (p_insert d l).
Proof.
  induction 1 as [|x l Hl IH Hx]; cbn [p_insert]; [by repeat constructor|].
  destruct (Z.ltb_spec (sc_priority d) (sc_priority x)) as [Hlt|Hle].
  - constructor; [by constructor|]. constructor; [unfold by_priority; lia|].
    eapply Forall_impl; [exact Hx|]. unfold by_priority. lia.
  - constructor; [done|]. apply Forall_forall. intros y [->|Hy]%p_insert_In; [done|].
    rewrite Forall_forall in Hx. by apply Hx.
Qed.

Lemma filter_sorted (P : snmp_gen_callback → Prop) `{!∀ x, Decision (P x)} l :
  StronglySorted by_priority l → StronglySorted by_priority (filter P l).
Proof.
  induction 1 as [|x l Hl IH Hx]; [constructor|]. rewrite filter_cons. destruct (decide (P x)); [|done].
  constructor; [done|]. apply Forall_forall. intros y Hy.
  rewrite Forall_forall in Hx. apply Hx. apply list_elem_of_filter in Hy. apply Hy.
Qed.

Lemma ordered_insert m k l : ordered m → StronglySorted by_priority l → ordered (<[k := l]> m).
Proof.
  intros Hm Hl k'. destruct (decide (k' = k)) as [->|Hne]; [by rewrite reg_insert|].
  unfold reg. rewrite lookup_insert_ne by done. apply Hm.
Qed.

Lemma do_ordered m o : ordered m → ordered (r_do m o).1.
Proof.
  intros Hm. destruct o as [major minor f arg prio|major minor f arg matchargs]; cbn [r_do].
  - destruct (too_high major minor); [done|]. unfold r_register.
    destruct (calloc_ok _ _); apply ordered_insert; [done|apply p_insert_sorted, Hm|done|apply Hm].
  - apply ordered_insert; [done|]. apply filter_sorted, Hm.
Qed.

Lemma do_all_ordered m l : ordered m → ordered (r_do_all m l).
Proof. revert m. induction l as [|o l IH]; intros m Hm; [done|]. apply IH. by apply do_ordered. Qed.

Lemma run_ordered m l : ordered m → ordered (r_run m l).1.1.
Proof.
  revert m. induction l as [|e l IH]; intros m Hm; [done|]. cbn [r_run].
  assert (ordered (r_step m e).1.1) as H1.
  { destruct e; cbn [r_step]; try done; [by apply do_ordered|]. destruct (too_high _ _); [done|].
    by apply do_all_ordered. }
  destruct (r_step m e) as [[m1 v] calls]. specialize (IH m1 H1). by destruct (r_run m1 l) as [[m' vs] calls'].
Qed.

(** C20: from the first use on, the registry of callbacks is a list per pair of identifiers.
    Any sequence of registrations, removals, counts, queries and calls, in which the
    functions called may register and unregister callbacks of other identifiers, runs
    without a fault and with the answers of the lists: a registration goes behind the
    callbacks of the same or a smaller priority, a removal takes all that match out and
    answers their number, and a call reaches every callback of the list once, in the order
    of the list, which is that of the priorities. *)
Theorem callbacks_refine_lists l :
  Forall event_ok l →
  let '(m, vs, calls) := r_run ∅ l in
  ordered m ∧
  ∃ n, ∀ fuel, (n ≤ fuel)%nat →
    ∃ s, cb_run fuel cb_start l = Ok (s, vs) ∧ cb_rep None s m ∧ cb_called s = calls.
Proof.
  intros Hl. pose proof (run_list ∅ l Hl) as Hrun. pose proof (run_ordered ∅ l) as Hord.
  destruct (r_run ∅ l) as [[m vs] calls]. destruct Hrun as (n & Hrun). split.
  - apply Hord. intros k. unfold reg. rewrite lookup_empty. constructor.
  - exists n. intros fuel Hf. destruct (Hrun fuel cb_start Hf start_rep) as (s & E & Hs & Hc). by exists s.
Qed.
End Operations.

(** ** Clearing the registry *)

Definition live_arg (d : snmp_gen_callback) : option Z :=
  match sc_callback d with Some _ => sc_client_arg d | None => None end.

Definition args (l : list snmp_gen_callback) : list Z := omap live_arg l.

Definition wiped (a : Z) (d : snmp_gen_callback) : snmp_gen_callback := if clears a d then no_arg d else d.

Definition wipe (a : Z) (cs : cb_cells) : cb_cells := (λ c, (c.1, wiped a c.2)) <$> cs.

Lemma wipe_addresses a cs : (wipe a cs).*1 = cs.*1.
Proof. induction cs as [|[p d] cs IH]; [done|]. cbn. by f_equal. Qed.

Lemma wipe_data a cs : (wipe a cs).*2 = wiped a <$> cs.*2.
Proof. induction cs as [|[p d] cs IH]; [done|]. cbn. by f_equal. Qed.

Lemma wiped_live a d : live_arg (wiped a d) = if decide (live_arg d = Some a) then None else live_arg d.
Proof.
  unfold wiped, clears, live_arg. destruct d as [[f|] [b|] prio]; cbn; try done.
  destruct (decide (Some b = Some a)) as [E|E]; [by rewrite bool_decide_true|by rewrite bool_decide_false].
Qed.

Lemma args_wiped a l b : b ∈ args (wiped a <$> l) ↔ b ∈ args l ∧ b ≠ a.
Proof.
  unfold args. rewrite !list_elem_of_omap. setoid_rewrite list_elem_of_fmap. split.
  - intros (? & (d & -> & Hd) & E). rewrite wiped_live in E. destruct (decide _); [done|].
    split; [by exists d|]. congruence.
  - intros [(d & Hd & E) Hne]. exists (wiped a d). split; [by exists d|]. rewrite wiped_live.
    rewrite decide_False; [done|congruence].
Qed.

Lemma args_loop_spec fuel a (pre post : cb_cells) rc :
  NoDup (pre ++ post).*1 → (length post < fuel)%nat →
  ∃ rc', args_loop fuel (sl_build (pre ++ post)) a (head post.*1) rc = Ok (sl_build (pre ++ wipe a post), rc').
Proof.
  revert pre rc fuel. induction post as [|[p d] post IH]; intros pre rc [|fuel] Hnd Hf;
    cbn [length] in Hf; try lia; [by exists rc|].
  rewrite fmap_cons. cbn [fst head args_loop]. rewrite (sl_load_middle _ pre p d post) by done. m_step.
  unfold cb_data. cbn [sn_data sn_next]. m_step.
  assert (∀ d', NoDup ((pre ++ [(p, d')]) ++ post).*1) as Hnd'.
  { intros d'. rewrite <- app_assoc. rewrite fmap_app, fmap_cons in *. done. }
  assert (wipe a ((p, d) :: post) = [(p, wiped a d)] ++ wipe a post) as -> by done.
  unfold wiped. destruct (clears a d).
  - rewrite sl_build_update by done. destruct (IH (pre ++ [(p, no_arg d)]) (s32 (rc + 1)) fuel) as (rc' & E); [done|lia|].
    rewrite <- !app_assoc in E. by exists rc'.
  - destruct (IH (pre ++ [(p, d)]) rc fuel) as (rc' & E); [done|lia|]. rewrite <- !app_assoc in E. by exists rc'.
Qed.

(** Only the slots change. *)
Definition same_rest (s s' : cb_state) : Prop :=
  cb_need_init s' = cb_need_init s ∧ cb_called s' = cb_called s.

Lemma clear_args_spec a keys s rc :
  NoDup keys → Forall in_range keys →
  (∀ k, k ∈ keys → ∃ lock pre post, slot_holds lock (slot_at s k) pre post) →
  ∃ s' rc', clear_args s a keys rc = Ok (s', rc') ∧
    (∀ k, k ∉ keys → slot_at s' k = slot_at s k) ∧
    (∀ k lock pre post, k ∈ keys → slot_holds lock (slot_at s k) pre post →
      slot_holds lock (slot_at s' k) pre (wipe a post)) ∧
    same_rest s s' ∧ cb_freed s' = cb_freed s.
Proof.
  intros Hnd. revert s rc. induction Hnd as [|k keys Hk Hnd IH]; intros s rc Hr Hex.
  { exists s, rc. split_and!; [done|done| |done|done]. intros k ??? Hk. set_solver. }
  apply Forall_cons in Hr as [Hkr Hr]. cbn [clear_args]. rewrite cb_get_slot by done. m_step.
  assert (∀ lock pre post, slot_holds lock (slot_at s k) pre post →
    ∃ rc', args_loop (S (size (cs_nodes (slot_at s k)))) (cs_nodes (slot_at s k)) a (cs_head (slot_at s k)) rc
      = Ok (sl_build (pre ++ wipe a post), rc')) as Hargs.
  { intros lock pre post (Hn & En & Eh & _). rewrite En, Eh. apply args_loop_spec; [done|].
    rewrite sl_build_size by done. rewrite length_app. lia. }
  destruct (Hex k) as (lock & pre & post & Hc); [by left|].
  destruct (Hargs _ _ _ Hc) as (rc1 & E1). rewrite E1. m_step.
  set (s1 := cb_put s k _). destruct (IH s1 rc1) as (s' & rc' & E & Hout & Hin & Hsame & Hfr); [done| |].
  { intros k' Hk'. destruct (decide (k' = k)) as [->|Hne]; [done|]. unfold s1. rewrite slot_put_ne by done.
    apply Hex. by right. }
  exists s', rc'. split_and!; [done| | |done|done].
  - intros k' Hk'. apply not_elem_of_cons in Hk' as [Hne Hk']. rewrite Hout by done. unfold s1. by rewrite slot_put_ne.
  - intros k' lock' pre' post' [->|Hk']%elem_of_cons Hc'.
    + rewrite Hout by done. unfold s1. rewrite slot_put. destruct (Hargs _ _ _ Hc') as (rc2 & E2).
      rewrite E1 in E2. injection E2 as Eh _. destruct Hc' as (Hn & _ & Ehd & El).
      unfold slot_holds. cbn [cs_nodes cs_head cs_lock]. rewrite fmap_app, wipe_addresses, <- fmap_app. by split_and!.
    + apply Hin; [done|]. unfold s1. rewrite slot_put_ne; [done|]. intros ->. done.
Qed.

(** The lists of the keys are [m], and not held. *)
Definition lists_of (s : cb_state) (keys : list (Z * Z)) (m : Z * Z → list snmp_gen_callback) : Prop :=
  ∀ k, k ∈ keys → ∃ cs, slot_holds 0 (slot_at s k) [] cs ∧ cs.*2 = m k.

Definition args_of (keys : list (Z * Z)) (m : Z * Z → list snmp_gen_callback) (a : Z) : Prop :=
  ∃ k, k ∈ keys ∧ a ∈ args (m k).

(** What is left of the lists when the client argument of [d] is freed. *)
Definition freed_by (d : snmp_gen_callback) (l : list snmp_gen_callback) : list snmp_gen_callback :=
  match live_arg d with Some a => wiped a <$> l | None => l end.

Section OneList.
Context (k : Z * Z) (later : list (Z * Z)).
Hypothesis keys_nodup : NoDup (k :: later).
Hypothesis keys_range : Forall in_range (k :: later).
Hypothesis keys_rest : keys_from k.1 k.2 = k :: later.

Lemma k_range : in_range k.
Proof. by apply Forall_cons in keys_range as [? _]. Qed.

Lemma later_ne k' : k' ∈ later → k' ≠ k.
Proof. apply NoDup_cons in keys_nodup as [Hk _]. by intros Hk' ->. Qed.

Lemma clear_arg_live s m p d f a cs :
  sc_callback d = Some f → sc_client_arg d = Some a →
  slot_holds 1 (slot_at s k) [(p, d)] cs → lists_of s later m →
  ∃ s1, clear_arg s k p = Ok s1 ∧
    slot_holds 1 (slot_at s1 k) [(p, no_arg d)] (wipe a cs) ∧ lists_of s1 later (λ k', wiped a <$> m k') ∧
    same_rest s s1 ∧ cb_freed s1 = cb_freed s ++ [a] ∧ (∀ k', k' ∉ k :: later → slot_at s1 k' = slot_at s k').
Proof.
  intros Ef Ea (Hn & En & Eh & El) Hl. cbn [app] in *. unfold clear_arg, netsnmp_callback_clear_client_arg.
  rewrite cb_get_slot by apply k_range. m_step. rewrite En, (sl_load_middle _ [] p d cs) by done. m_step.
  unfold cb_data. cbn [sn_data sn_next]. m_step. rewrite Ef, Ea, keys_rest.
  set (s0 := cb_put _ _ _). assert (slot_holds 1 (slot_at s0 k) [(p, no_arg d)] cs) as Hs0.
  { unfold s0. rewrite slot_put. unfold slot_holds. cbn [cs_nodes cs_head cs_lock].
    split_and!; [done|by apply (sl_build_update [])|done|done]. }
  assert (∀ k', k' ≠ k → slot_at s0 k' = slot_at s k') as Hs0ne by (intros k' Hne; unfold s0; by rewrite slot_put_ne).
  destruct (clear_args_spec a (k :: later) s0 0) as (s1 & rc & E & Hout & Hin & Hsame & Hfr); [done|done| |].
  { intros k' [->|Hk']%elem_of_cons; [by eexists _, _, _|]. rewrite Hs0ne by (by apply later_ne).
    destruct (Hl k' Hk') as (cs' & ? & _). by eexists _, _, _. }
  rewrite E. m_step. eexists. split; [done|]. split_and!.
  - apply Hin; [by left|done].
  - intros k' Hk'. destruct (Hl k' Hk') as (cs' & Hc' & E'). exists (wipe a cs'). rewrite wipe_data, E'. split; [|done].
    apply Hin; [by right|]. by rewrite Hs0ne by (by apply later_ne).
  - exact Hsame.
  - cbn [cb_freed]. by rewrite Hfr.
  - intros k' Hk'. etrans; [apply Hout, Hk'|]. apply Hs0ne. set_solver.
Qed.

Lemma clear_arg_spec s m p d cs :
  slot_holds 1 (slot_at s k) [(p, d)] cs → lists_of s later m →
  ∃ s1 d1 cs1, clear_arg s k p = Ok s1 ∧
    slot_holds 1 (slot_at s1 k) [(p, d1)] cs1 ∧ cs1.*2 = freed_by d cs.*2 ∧ lists_of s1 later (freed_by d ∘ m) ∧
    same_rest s s1 ∧ cb_freed s1 = cb_freed s ++ option_list (live_arg d) ∧
    (∀ k', k' ∉ k :: later → slot_at s1 k' = slot_at s k').
Proof.
  intros Hc Hl. unfold freed_by. destruct (live_arg d) as [a|] eqn:Ea; cbn [option_list].
  - assert (∃ f, sc_callback d = Some f ∧ sc_client_arg d = Some a) as (f & Ef & Ed).
    { unfold live_arg in Ea. destruct (sc_callback d); [by eexists|done]. }
    destruct (clear_arg_live s m p d f a cs) as (s1 & E & Hc1 & Hrest); [done..|].
    exists s1, (no_arg d), (wipe a cs). split_and!; [done|done|apply wipe_data|apply Hrest..].
  - exists s, d, cs. rewrite app_nil_r. split_and!; try done. destruct Hc as (Hn & En & _).
    unfold clear_arg. rewrite cb_get_slot by apply k_range. m_step.
    rewrite En, (sl_load_middle _ [] p d cs) by done. m_step. unfold cb_data. cbn [sn_data]. m_step.
    unfold live_arg in Ea. by destruct (sc_callback d), (sc_client_arg d).
Qed.

(** A node that is out of its list is freed. *)
Lemma free_first c p d cs :
  slot_holds 1 c [(p, d)] cs →
  sl_free (cs_nodes c) p = Ok (sl_build cs) ∧ slot_holds 1 (CbSlot (sl_build cs) (cs_head c) (cs_lock c)) [] cs.
Proof.
  intros (Hn & En & Eh & El). rewrite En. cbn [app] in *. split.
  - unfold sl_free. rewrite (sl_load_middle _ [] p d cs) by done. m_step. f_equal. by apply (sl_build_tail p d).
  - rewrite fmap_cons in Hn. apply NoDup_cons in Hn as [_ Hn]. by unfold slot_holds.
Qed.

(** One round of the loop. *)
Lemma clear_node s m p d cs fuel :
  slot_holds 1 (slot_at s k) [] ((p, d) :: cs) → lists_of s later m →
  ∃ s1 cs1, clear_list_loop (S fuel) s k = clear_list_loop fuel s1 k ∧
    slot_holds 1 (slot_at s1 k) [] cs1 ∧ cs1.*2 = freed_by d cs.*2 ∧ lists_of s1 later (freed_by d ∘ m) ∧
    same_rest s s1 ∧ cb_freed s1 = cb_freed s ++ option_list (live_arg d) ∧
    (∀ k', k' ∉ k :: later → slot_at s1 k' = slot_at s k').
Proof.
  intros (Hn & En & Eh & El) Hl. cbn [app] in *. cbn [clear_list_loop].
  rewrite cb_get_slot by apply k_range. m_step. rewrite Eh, fmap_cons. cbn [head fst].
  rewrite En, (sl_load_middle _ [] p d cs) by done. m_step. cbn [sn_next].
  set (s0 := cb_put _ _ _). assert (slot_holds 1 (slot_at s0 k) [(p, d)] cs) as Hs0.
  { unfold s0. rewrite slot_put. by unfold slot_holds. }
  assert (∀ k', k' ≠ k → slot_at s0 k' = slot_at s k') as Hs0ne by (intros k' Hne; unfold s0; by rewrite slot_put_ne).
  destruct (clear_arg_spec s0 m p d cs) as (s1 & d1 & cs1 & E & Hc1 & Ecs1 & Hl1 & Hsame & Hfr & Hout); [done| |].
  { intros k' Hk'. rewrite Hs0ne by (by apply later_ne). auto. }
  rewrite E. m_step. rewrite cb_get_slot by apply k_range. m_step.
  destruct (free_first _ _ _ _ Hc1) as [-> Hc2]. m_step. eexists _, cs1. split; [done|]. rewrite slot_put.
  split_and!; [exact Hc2|done| |exact Hsame|exact Hfr|].
  - intros k' Hk'. rewrite slot_put_ne by (by apply later_ne). auto.
  - intros k' Hk'. rewrite slot_put_ne by set_solver. rewrite Hout by done. apply Hs0ne. set_solver.
Qed.

(** Freeing the argument of [d] takes it from the arguments that are left, and nothing else. *)
Lemma freed_by_args d l a : a ∈ args (freed_by d l) ↔ a ∈ args l ∧ live_arg d ≠ Some a.
Proof.
  unfold freed_by. destruct (live_arg d) as [b|]; [|naive_solver]. rewrite args_wiped. naive_solver.
Qed.

Lemma args_cons d l a : a ∈ args (d :: l) ↔ live_arg d = Some a ∨ a ∈ args l.
Proof. unfold args. cbn [omap list_omap]. destruct (live_arg d) as [b|]; [rewrite elem_of_cons|]; naive_solver. Qed.

Lemma clear_one_list fuel s m cs :
  slot_holds 1 (slot_at s k) [] cs → lists_of s later m → (length cs < fuel)%nat →
  ∃ s' m' F, clear_list_loop fuel s k = Ok s' ∧ slot_holds 1 (slot_at s' k) [] [] ∧ lists_of s' later m' ∧
    same_rest s s' ∧ cb_freed s' = cb_freed s ++ F ∧ NoDup F ∧
    (∀ a, a ∈ F → ¬ args_of later m' a) ∧
    (∀ a, a ∈ args cs.*2 ∨ args_of later m a ↔ a ∈ F ∨ args_of later m' a) ∧
    (∀ k', k' ∉ k :: later → slot_at s' k' = slot_at s k').
Proof.
  revert fuel s m cs. induction fuel as [|fuel IH]; intros s m cs Hc Hl Hf; [lia|]. destruct cs as [|[p d] cs].
  { exists s, m, []. cbn [clear_list_loop]. rewrite cb_get_slot by apply k_range. m_step.
    pose proof Hc as (_ & _ & -> & _). rewrite app_nil_r. unfold same_rest. split_and!; try done; [constructor|set_solver..]. }
  destruct (clear_node s m p d cs fuel) as (s1 & cs1 & E & Hc1 & Ecs1 & Hl1 & [Hi1 Hcl1] & Hfr1 & Hout1); [done..|].
  destruct (IH s1 _ cs1 Hc1 Hl1) as (s' & m' & F & E' & Hc' & Hl' & [Hi Hcl] & Hfr & HndF & Hdis & Hall & Hout).
  { pose proof (f_equal length Ecs1) as Hlen. unfold freed_by in Hlen. destruct (live_arg d);
      rewrite ?length_fmap in Hlen; cbn [length] in Hf; lia. }
  rewrite Ecs1 in Hall. setoid_rewrite freed_by_args in Hall.
  assert (∀ a, args_of later (freed_by d ∘ m) a ↔ args_of later m a ∧ live_arg d ≠ Some a) as Hm.
  { intros a. unfold args_of. cbn [compose]. setoid_rewrite freed_by_args. naive_solver. }
  setoid_rewrite Hm in Hall.
  exists s', m', (option_list (live_arg d) ++ F). rewrite fmap_cons, E. cbn [snd]. setoid_rewrite args_cons.
  setoid_rewrite elem_of_app. split_and!; [done|done|done|unfold same_rest; split; congruence| | | | |].
  - by rewrite Hfr, Hfr1, app_assoc.
  - destruct (live_arg d) as [b|]; [|done]. cbn. constructor; [|done]. intros Hb. specialize (Hall b). naive_solver.
  - intros a [Ha|Ha]; [|auto]. destruct (live_arg d) as [b|]; cbn in Ha; [|set_solver].
    apply list_elem_of_singleton in Ha as ->. intros Hb. specialize (Hall b). naive_solver.
  - intros a. specialize (Hall a). destruct (live_arg d) as [b|].
    + change (option_list (Some b)) with [b]. rewrite list_elem_of_singleton. destruct (decide (b = a)) as [->|Hne]; [naive_solver|].
      assert (Some b ≠ Some a) by congruence. naive_solver.
    + change (option_list None) with (@nil Z). rewrite elem_of_nil. naive_solver.
  - intros k' Hk'. by rewrite Hout, Hout1.
Qed.
End OneList.

(** The search for the other uses of an argument starts at the list that is being cleared. *)
Lemma keys_suffix before k later :
  keys_from 0 0 = before ++ k :: later → keys_from k.1 k.2 = k :: later.
Proof.
  intros E.
  assert (forallb (λ i, match drop i (keys_from 0 0) with
                        | k :: later => bool_decide (keys_from k.1 k.2 = k :: later)
                        | [] => true
                        end) (seq 0 (length (keys_from 0 0))) = true) as H by (vm_compute; reflexivity).
  rewrite forallb_forall in H. specialize (H (length before)). rewrite E in H at 2.
  rewrite drop_app_length in H. eapply bool_decide_eq_true_1, H.
  apply in_seq. rewrite E, length_app. cbn. lia.
Qed.

Lemma keys_all : NoDup (keys_from 0 0) ∧ Forall in_range (keys_from 0 0).
Proof.
  split; [apply (bool_decide_eq_true_1 _); vm_compute; reflexivity|].
  unfold in_range. apply (bool_decide_eq_true_1 _). vm_compute. reflexivity.
Qed.

Lemma lists_lock s m k keys :
  k ∉ keys → lists_of s (k :: keys) m →
  let s1 := cb_put s k (_callback_lock (slot_at s k)).1 in
  (∃ cs, slot_holds 1 (slot_at s1 k) [] cs ∧ cs.*2 = m k ∧ size (cs_nodes (slot_at s k)) = length cs) ∧ lists_of s1 keys m.
Proof.
  intros Hk Hl s1. split.
  - destruct (Hl k) as (cs & Hc & E); [by left|]. exists cs. unfold s1. rewrite slot_put, (lock_free _ [] cs) by done.
    destruct Hc as (Hn & En & Eh & _). rewrite En, sl_build_size by done. by unfold slot_holds.
  - intros k' Hk'. unfold s1. rewrite slot_put_ne by congruence. apply Hl. by right.
Qed.

Lemma clear_slots_spec keys before s m :
  keys_from 0 0 = before ++ keys → lists_of s keys m →
  ∃ s' F, clear_slots s keys = Ok s' ∧ (∀ k, k ∈ keys → slot_holds 0 (slot_at s' k) [] []) ∧
    same_rest s s' ∧ cb_freed s' = cb_freed s ++ F ∧ NoDup F ∧ (∀ a, a ∈ F ↔ args_of keys m a) ∧
    (∀ k, k ∉ keys → slot_at s' k = slot_at s k).
Proof.
  revert before s m. induction keys as [|k keys IH]; intros before s m Ek Hl.
  { exists s, []. rewrite app_nil_r. split_and!; try done; [set_solver|constructor|].
    intros a. split; [set_solver|]. by intros (k & ?%elem_of_nil & _). }
  destruct keys_all as [Hnd Hr]. rewrite Ek in Hnd, Hr. apply NoDup_app in Hnd as (_ & _ & Hnd). apply Forall_app in Hr as [_ Hr].
  pose proof Hnd as [Hk _]%NoDup_cons. pose proof Hr as [Hkr _]%Forall_cons.
  cbn [clear_slots]. rewrite cb_get_slot by done. m_step.
  destruct (lists_lock s m k keys Hk Hl) as [(cs & Hc & Ecs & Hsz) Hl1]. set (s1 := cb_put s k _) in *. rewrite Hsz.
  destruct (clear_one_list k keys Hnd Hr (keys_suffix _ _ _ Ek) (S (length cs)) s1 m cs)
    as (s2 & m' & F & E & Hc2 & Hl2 & [Hi2 Hcl2] & Hfr2 & HndF & Hdis & Hall & Hout2); [done|done|lia|].
  rewrite E. m_step. rewrite cb_get_slot by done. m_step. set (s3 := cb_put s2 k _).
  assert (∀ k', k' ≠ k → slot_at s3 k' = slot_at s2 k') as Hs3 by (intros k' Hne; unfold s3; by rewrite slot_put_ne).
  destruct (IH (before ++ [k]) s3 m') as (s' & F' & E' & Hin & [Hi Hcl] & Hfr & HndF' & Hall' & Hout).
  { by rewrite <- app_assoc. }
  { intros k' Hk'. rewrite Hs3 by (intros ->; done). auto. }
  exists s', (F ++ F'). split_and!.
  - done.
  - intros k' [->|Hk']%elem_of_cons; [|auto]. rewrite Hout by done. unfold s3. rewrite slot_put. by apply unlock_holds.
  - split; [rewrite Hi; exact Hi2|rewrite Hcl; exact Hcl2].
  - rewrite Hfr. cbn [s3 cb_put cb_freed]. rewrite Hfr2. by rewrite <- app_assoc.
  - apply NoDup_app. split_and!; [done| |done]. intros a Ha Ha'. apply (Hdis a Ha). by apply Hall'.
  - intros a. rewrite elem_of_app, Hall'. specialize (Hall a). rewrite Ecs in Hall. unfold args_of in *.
    setoid_rewrite elem_of_cons. naive_solver.
  - intros k' Hk'. apply not_elem_of_cons in Hk' as [Hne Hk']. rewrite Hout, Hs3, Hout2 by set_solver. unfold s1. by rewrite slot_put_ne.
Qed.

Lemma all_keys_range k : in_range k → k ∈ keys_from 0 0.
Proof.
  intros [H1 H2]. destruct k as [i j]. cbn [fst snd] in *. unfold MAX_CALLBACK_IDS, MAX_CALLBACK_SUBIDS in *.
  assert (i ∈ seqZ 0 2 ∧ j ∈ seqZ 0 16) as [Hi Hj] by (rewrite !elem_of_seqZ; lia).
  assert (Forall (λ i, Forall (λ j, (i, j) ∈ keys_from 0 0) (seqZ 0 16)) (seqZ 0 2)) as H.
  { apply (bool_decide_eq_true_1 _). vm_compute. reflexivity. }
  rewrite Forall_forall in H. specialize (H i Hi). rewrite Forall_forall in H. auto.
Qed.

(** C21: clearing the registry always succeeds, leaves no callback and no node behind, and
    frees the client arguments of the callbacks that are not disabled: every one of them,
    and once however many callbacks of whichever identifiers share it. *)
Theorem clear_callback_frees_once s m :
  cb_rep None s m →
  ∃ s' F, clear_callback s = Ok s' ∧ cb_freed s' = cb_freed s ++ F ∧ NoDup F ∧
    (∀ a, a ∈ F ↔ ∃ k d, in_range k ∧ d ∈ reg m k ∧ live_arg d = Some a) ∧
    (∀ k, in_range k → slot_at s' k = empty_slot) ∧ cb_called s' = cb_called s.
Proof.
  intros Hs. unfold clear_callback. pose proof (cb_rep_init _ _ _ Hs) as [_ Hl].
  destruct (clear_slots_spec (keys_from 0 0) [] (init_callbacks s) (reg m)) as (s' & F & E & Hin & [_ Hc] & Hfr & Hnd & Ha & _).
  { done. }
  { intros k Hk. apply (Hl k). destruct keys_all as [_ Hr]. rewrite Forall_forall in Hr. auto. }
  destruct (init_called s) as [Hc0 Hf0]. exists s', F. split_and!; [done|congruence|done| | |congruence].
  - intros a. rewrite Ha. unfold args_of, args. setoid_rewrite list_elem_of_omap. split.
    + intros (k & Hk & d & Hd & Hl'). exists k, d. split_and!; [|done..].
      destruct keys_all as [_ Hr]. rewrite Forall_forall in Hr. auto.
    + intros (k & d & Hk & Hd & Hl'). exists k. split; [by apply all_keys_range|]. by exists d.
  - intros k Hk. destruct (Hin k) as (_ & En & Eh & El); [by apply all_keys_range|].
    destruct (slot_at s' k). cbn in *. by subst.
Qed.

(** ** A run *)

(** Function 2 registers function 7 under (1, 3) and takes function 5 out there. *)
Definition sample_body (f : nat) (k : Z * Z) (arg : option Z) : list cb_op :=
  if bool_decide (f = 2%nat ∧ k = (0, 1))
  then [CRegister 1 3 (Some 7%nat) arg 4; CUnregister 1 3 (Some 5%nat) None false] else [].

Definition sample_events : list cb_event :=
  [EDo (CRegister 0 1 (Some 1%nat) (Some 10) 0); EDo (CRegister 0 1 (Some 2%nat) (Some 20) 5);
   EDo (CRegister 0 1 (Some 3%nat) None (-1)); EDo (CRegister 0 1 (Some 4%nat) (Some 10) 0);
   EDo (CRegister 1 3 (Some 5%nat) (Some 30) 0); EDo (CRegister 2 0 (Some 1%nat) None 0);
   ECall 0 1; ECount 0 1; EAvailable 1 3; EDo (CUnregister 0 1 (Some 4%nat) (Some 11) true);
   EDo (CUnregister 0 1 (Some 4%nat) (Some 10) true); ECall 1 3; ECall 0 1; EAvailable 1 4].

Lemma callbacks_refine_lists_witness :
  let '(m, vs, calls) := r_run (λ _ _, true) sample_body ∅ sample_events in
  ordered m ∧
  ∃ n, ∀ fuel, (n ≤ fuel)%nat →
    ∃ s, cb_run (λ _ _, true) first_free sample_body fuel cb_start sample_events = Ok (s, vs) ∧
      cb_rep None s m ∧ cb_called s = calls.
Proof.
  apply (callbacks_refine_lists (λ _ _, true) first_free first_free_fresh sample_body).
  - intros f k arg. unfold sample_body. case_bool_decide as H; [|constructor]. destruct H as [_ ->].
    repeat constructor; cbn; unfold in_range; cbn; first [lia|congruence].
  - repeat constructor; cbn; unfold in_range; cbn; lia.
Defined.

Example sample_calls :
  match cb_run (λ _ _, true) first_free sample_body 9 cb_start sample_events with
  | Ok (s, vs) => vs = [0; 0; 0; 0; 0; -1; 0; 4; 0; 0; 1; 0; 0; -1] ∧
      cb_called s = [(3%nat, None); (1%nat, Some 10); (4%nat, Some 10); (2%nat, Some 20); (7%nat, Some 20);
                     (3%nat, None); (1%nat, Some 10); (2%nat, Some 20)]
  | _ => False
  end.
Proof. vm_compute. by split. Qed.

(** A callback that unregisters itself: the list is held, but its count is still 1, so
    that the node is freed and the loop reads it. *)
Definition once_body (f : nat) (k : Z * Z) (arg : option Z) : list cb_op :=
  [CUnregister k.1 k.2 (Some f) arg true].

Example unregisters_itself :
  cb_run (λ _ _, true) first_free once_body 9 cb_start [EDo (CRegister 0 1 (Some 1%nat) None 0); ECall 0 1] = UB.
Proof. vm_compute. reflexivity. Qed.

(** A callback that registers another one leaves the count of its list at -1, and
    unregistering from then on only disables callbacks, which are counted for ever. *)
Definition adding_body (f : nat) (k : Z * Z) (arg : option Z) : list cb_op :=
  if bool_decide (f = 1%nat) then [CRegister k.1 k.2 (Some 2%nat) arg 0] else [].

Example lock_drifts :
  match cb_run (λ _ _, true) first_free adding_body 9 cb_start
          [EDo (CRegister 0 1 (Some 1%nat) None 0); ECall 0 1; EDo (CUnregister 0 1 (Some 1%nat) None false);
           ECount 0 1; ECall 0 1] with
  | Ok (s, vs) => vs = [0; 0; 1; 2; 0] ∧ cs_lock (slot_at s (0, 1)) = -1 ∧
                  cb_called s = [(1%nat, None); (2%nat, None); (2%nat, None)]
  | _ => False
  end.
Proof. vm_compute. by split_and!. Qed.

(** Three callbacks with two client arguments, and one that is disabled. *)
Definition cells_a : cb_cells := [(4%nat, GenCallback (Some 1%nat) (Some 10) 0); (2%nat, GenCallback (Some 2%nat) (Some 30) 5)].
Definition cells_b : cb_cells := [(0%nat, GenCallback (Some 5%nat) (Some 10) 0); (1%nat, GenCallback None (Some 40) 0)].

Definition filled : cb_state :=
  CbState false {[ (0, 1) := CbSlot (sl_build cells_a) (Some 4%nat) 0; (1, 3) := CbSlot (sl_build cells_b) (Some 0%nat) 0 ]} [] [].

Definition filled_lists : registry := {[ (0, 1) := cells_a.*2; (1, 3) := cells_b.*2 ]}.

Lemma filled_rep : cb_rep None filled filled_lists.
Proof.
  split; [done|]. intros k _. unfold slot_at, reg, filled, filled_lists. cbn [cb_table].
  assert (∀ (l : cb_cells) h, NoDup l.*1 → h = head l.*1 → slot_holds 0 (CbSlot (sl_build l) h 0) [] l) as Hh.
  { intros l h Hn ->. by unfold slot_holds. }
  destruct (decide (k = (0, 1))) as [->|Ha].
  { exists cells_a. rewrite !lookup_insert_eq. split; [|done]. apply Hh; [|done].
    apply (bool_decide_eq_true_1 _). vm_compute. reflexivity. }
  rewrite !(lookup_insert_ne _ (0, 1)) by done. destruct (decide (k = (1, 3))) as [->|Hb].
  { exists cells_b. rewrite !lookup_singleton_eq. split; [|done]. apply Hh; [|done].
    apply (bool_decide_eq_true_1 _). vm_compute. reflexivity. }
  rewrite !lookup_singleton_ne by done. exists []. split; [|done]. by apply (Hh [] None); [constructor|].
Qed.

Lemma clear_callback_frees_once_witness :
  ∃ s' F, clear_callback filled = Ok s' ∧ cb_freed s' = cb_freed filled ++ F ∧ NoDup F ∧
    (∀ a, a ∈ F ↔ ∃ k d, in_range k ∧ d ∈ reg filled_lists k ∧ live_arg d = Some a) ∧
    (∀ k, in_range k → slot_at s' k = empty_slot) ∧ cb_called s' = cb_called filled.
Proof. apply (clear_callback_frees_once filled filled_lists filled_rep). Defined.

Example filled_freed :
  match clear_callback filled with Ok s => cb_freed s = [10; 30] | _ => False end.
Proof. vm_compute. reflexivity. Qed.
