(* ===== verification/Md5.v ===== *)
(** * Message digests: snmplib/md5.c

    The library's own MD5 and its keyed form, which scapi.c uses in builds without
    OpenSSL.  A message is a list of octets; [unsigned int] has 32 bits, the machine is
    little-endian, and an array of words is read from octets.  The sixty-four lines of
    MDblock are a table of the macro calls they consist of.

    The reference is RFC 1321 with a loop over the sixty-four operations and a padded
    message, with the constants of the sine table computed from the series of the
    sine, and RFC 2104 for the keyed digest.  The theorems: MDchecksum computes the digest of
    any message that is shorter than 2^32 octets, MDsign the keyed digest. *)

From S2P Require Import Prelude.
From stdpp Require Import prelude numbers list.
From Stdlib Require Import ZArith Lia.
Open Scope Z_scope.

(** ** The code *)

Definition I0 : Z := 0x67452301.
Definition I1 : Z := 0xefcdab89.
Definition I2 : Z := 0x98badcfe.
Definition I3 : Z := 0x10325476.
Definition fs1 : Z := 7.
Definition fs2 : Z := 12.
Definition fs3 : Z := 17.
Definition fs4 : Z := 22.
Definition gs1 : Z := 5.
Definition gs2 : Z := 9.
Definition gs3 : Z := 14.
Definition gs4 : Z := 20.
Definition hs1 : Z := 4.
Definition hs2 : Z := 11.
Definition hs3 : Z := 16.
Definition hs4 : Z := 23.
Definition is1 : Z := 6.
Definition is2 : Z := 10.
Definition is3 : Z := 15.
Definition is4 : Z := 21.
Definition HASHKEYLEN : Z := 64.

Record MDstruct := MkMD {
  md_buffer : list Z;
  md_count : list Z;
  md_done : Z;
}.

Definition MDbegin : MDstruct := MkMD [I0; I1; I2; I3] (replicate 8 0) 0.

(** The macros [f], [g], [h] and [i_]. *)
Inductive md_fun := MF | MG | MH | MI.

Definition md_apply (m : md_fun) (X Y W : Z) : Z :=
  match m with
  | MF => Z.lor (Z.land X Y) (Z.land (u32 (Z.lnot X)) W)
  | MG => Z.lor (Z.land X W) (Z.land Y (u32 (Z.lnot W)))
  | MH => Z.lxor (Z.lxor X Y) W
  | MI => Z.lxor Y (Z.lor X (u32 (Z.lnot W)))
  end.

Definition rot (X S : Z) : Z := let tmp := u32 X in Z.lor (u32 (Z.shiftl tmp S)) (Z.shiftr tmp (32 - S)).

(** The variables [A], [B], [C] and [D]. *)
Inductive md_reg := RA | RB | RC | RD.

Definition md_regs : Type := Z * Z * Z * Z.

Definition get_reg (r : md_regs) (x : md_reg) : Z :=
  let '(a, b, c, d) := r in match x with RA => a | RB => b | RC => c | RD => d end.

Definition set_reg (r : md_regs) (x : md_reg) (v : Z) : md_regs :=
  let '(a, b, c, d) := r in
  match x with RA => (v, b, c, d) | RB => (a, v, c, d) | RC => (a, b, v, d) | RD => (a, b, c, v) end.

(** A call of one of the macros [ff], [gg], [hh] and [ii]. *)
Record md_step := MdStep {
  ms_fun : md_fun;
  ms_regs : md_reg * md_reg * md_reg * md_reg;
  ms_index : nat;
  ms_shift : Z;
  ms_lp : Z;
}.

Definition ff (A B C D : md_reg) (i : nat) (s lp : Z) : md_step := MdStep MF (A, B, C, D) i s lp.
Definition gg (A B C D : md_reg) (i : nat) (s lp : Z) : md_step := MdStep MG (A, B, C, D) i s lp.
Definition hh (A B C D : md_reg) (i : nat) (s lp : Z) : md_step := MdStep MH (A, B, C, D) i s lp.
Definition ii (A B C D : md_reg) (i : nat) (s lp : Z) : md_step := MdStep MI (A, B, C, D) i s lp.

Definition run_step (X : list Z) (r : md_regs) (st : md_step) : M md_regs :=
  let '(A, B, C, D) := ms_regs st in
  x ← rd X (ms_index st);
  Ok (set_reg r A
    (u32 (rot (get_reg r A + md_apply (ms_fun st) (get_reg r B) (get_reg r C) (get_reg r D) + x + ms_lp st) (ms_shift st)
          + get_reg r B))).

Fixpoint run_steps (X : list Z) (r : md_regs) (l : list md_step) : M md_regs :=
  match l with [] => Ok r | st :: l => r ← run_step X r st; run_steps X r l end.

Definition md_program : list md_step :=
  [ff RA RB RC RD 0 fs1 3614090360; ff RD RA RB RC 1 fs2 3905402710;
   ff RC RD RA RB 2 fs3 606105819; ff RB RC RD RA 3 fs4 3250441966;
   ff RA RB RC RD 4 fs1 4118548399; ff RD RA RB RC 5 fs2 1200080426;
   ff RC RD RA RB 6 fs3 2821735955; ff RB RC RD RA 7 fs4 4249261313;
   ff RA RB RC RD 8 fs1 1770035416; ff RD RA RB RC 9 fs2 2336552879;
   ff RC RD RA RB 10 fs3 4294925233; ff RB RC RD RA 11 fs4 2304563134;
   ff RA RB RC RD 12 fs1 1804603682; ff RD RA RB RC 13 fs2 4254626195;
   ff RC RD RA RB 14 fs3 2792965006; ff RB RC RD RA 15 fs4 1236535329;
   gg RA RB RC RD 1 gs1 4129170786; gg RD RA RB RC 6 gs2 3225465664;
   gg RC RD RA RB 11 gs3 643717713; gg RB RC RD RA 0 gs4 3921069994;
   gg RA RB RC RD 5 gs1 3593408605; gg RD RA RB RC 10 gs2 38016083;
   gg RC RD RA RB 15 gs3 3634488961; gg RB RC RD RA 4 gs4 3889429448;
   gg RA RB RC RD 9 gs1 568446438; gg RD RA RB RC 14 gs2 3275163606;
   gg RC RD RA RB 3 gs3 4107603335; gg RB RC RD RA 8 gs4 1163531501;
   gg RA RB RC RD 13 gs1 2850285829; gg RD RA RB RC 2 gs2 4243563512;
   gg RC RD RA RB 7 gs3 1735328473; gg RB RC RD RA 12 gs4 2368359562;
   hh RA RB RC RD 5 hs1 4294588738; hh RD RA RB RC 8 hs2 2272392833;
   hh RC RD RA RB 11 hs3 1839030562; hh RB RC RD RA 14 hs4 4259657740;
   hh RA RB RC RD 1 hs1 2763975236; hh RD RA RB RC 4 hs2 1272893353;
   hh RC RD RA RB 7 hs3 4139469664; hh RB RC RD RA 10 hs4 3200236656;
   hh RA RB RC RD 13 hs1 681279174; hh RD RA RB RC 0 hs2 3936430074;
   hh RC RD RA RB 3 hs3 3572445317; hh RB RC RD RA 6 hs4 76029189;
   hh RA RB RC RD 9 hs1 3654602809; hh RD RA RB RC 12 hs2 3873151461;
   hh RC RD RA RB 15 hs3 530742520; hh RB RC RD RA 2 hs4 3299628645;
   ii RA RB RC RD 0 is1 4096336452; ii RD RA RB RC 7 is2 1126891415;
   ii RC RD RA RB 14 is3 2878612391; ii RB RC RD RA 5 is4 4237533241;
   ii RA RB RC RD 12 is1 1700485571; ii RD RA RB RC 3 is2 2399980690;
   ii RC RD RA RB 10 is3 4293915773; ii RB RC RD RA 1 is4 2240044497;
   ii RA RB RC RD 8 is1 1873313359; ii RD RA RB RC 15 is2 4264355552;
   ii RC RD RA RB 6 is3 2734768916; ii RB RC RD RA 13 is4 1309151649;
   ii RA RB RC RD 4 is1 4149444226; ii RD RA RB RC 11 is2 3174756917;
   ii RC RD RA RB 2 is3 718787259; ii RB RC RD RA 9 is4 3951481745].

Definition MDblock (MDp : MDstruct) (X : list Z) : M MDstruct :=
  a ← rd (md_buffer MDp) 0;
  b ← rd (md_buffer MDp) 1;
  c ← rd (md_buffer MDp) 2;
  d ← rd (md_buffer MDp) 3;
  '(A, B, C, D) ← run_steps X (a, b, c, d) md_program;
  Ok (MkMD [u32 (a + A); u32 (b + B); u32 (c + C); u32 (d + D)] (md_count MDp) (md_done MDp)).

(** [(unsigned int * ) X] for the sixty-four octets at [X]. *)
Fixpoint le_value (l : list Z) : Z := match l with [] => 0 | b :: l => b + 256 * le_value l end.

Definition as_words (l : list Z) : list Z := (λ i, le_value (take 4 (drop (4 * i) l))) <$> seq 0 16.

(** The bits are added to [count]; a carry beyond it would overwrite [done]. *)
Fixpoint add_count (tmp : Z) (count : list Z) : M (list Z) :=
  if tmp =? 0 then Ok count
  else
    match count with
    | [] => UB
    | p :: count =>
        let tmp := u32 (tmp + p) in
        r ← add_count (Z.shiftr tmp 8) count;
        Ok (u8 tmp :: r)
    end.

(** The last block, with fewer than 512 bits. *)
Definition md_finish (MDp : MDstruct) (X : list Z) (count : Z) : M MDstruct :=
  let byte := Z.shiftr count 3 in
  let bit := Z.land count 7 in
  let copycount := if bit =? 0 then byte else byte + 1 in
  src ← rd_list X 0 (Z.to_nat copycount);
  XX ← wr_list (replicate 64 0) 0 src;
  let mask := Z.shiftl 1 (7 - bit) in
  x ← rd XX (Z.to_nat byte);
  XX ← wr XX (Z.to_nat byte) (u8 (Z.land (Z.lor x mask) (u32 (Z.lnot (mask - 1)))));
  MDp ← (if byte <=? 55 then
           XX ← wr_list XX 56 (md_count MDp);
           MDblock MDp (as_words XX)
         else
           MDp ← MDblock MDp (as_words XX);
           XX ← wr_list XX 0 (replicate 56 0);
           XX ← wr_list XX 56 (md_count MDp);
           MDblock MDp (as_words XX));
  Ok (MkMD (md_buffer MDp) (md_count MDp) 1).

(** [X] is the memory from the pointer on. *)
Definition MDupdate (MDp : MDstruct) (X : list Z) (count : Z) : M (MDstruct * Z) :=
  if (count =? 0) && negb (md_done MDp =? 0) then Ok (MDp, 0)
  else if negb (md_done MDp =? 0) then Ok (MDp, -1)
  else
    cnt ← add_count count (md_count MDp);
    let MDp := MkMD (md_buffer MDp) cnt (md_done MDp) in
    if count =? 512 then
      XX ← rd_list X 0 64;
      MDp ← MDblock MDp (as_words XX);
      Ok (MDp, 0)
    else if 512 <? count then Ok (MDp, -2)
    else
      MDp ← md_finish MDp X count;
      Ok (MDp, 0).

(** The octets that are copied for [buflen]. *)
Definition md_octets (MDp : MDstruct) (buflen : Z) : list Z :=
  (λ n, Z.land (Z.shiftr (default 0 (md_buffer MDp !! (n / 4)%nat)) (Z.of_nat (n mod 4) * 8)) 0xff)
  <$> seq 0 (Z.to_nat (Z.min 16 (s32 buflen))).

Definition MDget (MDp : MDstruct) (buf : list Z) (buflen : Z) : M (list Z) :=
  wr_list buf 0 (md_octets MDp buflen).

(** The loop over the full blocks, then the rest.  A result other than 0 ends it. *)
Fixpoint update_loop (fuel : nat) (MDp : MDstruct) (data : list Z) (len : Z) : M (MDstruct * Z) :=
  match fuel with
  | O => UB
  | S fuel =>
      if 64 <=? len then
        '(MDp, rc) ← MDupdate MDp data (64 * 8);
        if rc =? 0 then update_loop fuel MDp (drop 64 data) (len - 64) else Ok (MDp, rc)
      else MDupdate MDp data (len * 8)
  end.

Definition MDchecksum (data : list Z) (len : Z) (mac : list Z) (maclen : Z) : M (list Z * Z) :=
  '(MD, rc) ← update_loop (S (Z.to_nat (len / 64))) MDbegin data len;
  if rc =? 0 then mac ← MDget MD mac maclen; Ok (mac, 0) else Ok (mac, rc).

(** [memdup] of tools.c, for a pointer to write to. *)
Definition memdup (malloc_ok : Z → bool) (from : option (list Z)) (size : Z) : M (option (list Z) * Z) :=
  match from with
  | None => Ok (None, 0)
  | Some from =>
      if malloc_ok size then l ← rd_list from 0 (Z.to_nat size); Ok (Some l, 0) else Ok (None, -1)
  end.

(** Whether [data] is aligned is an argument, as is [malloc]; the result of [memdup] is not
    tested, so that its failure is an access through a null pointer. *)
Definition MDsign (malloc_ok : Z → bool) (aligned : bool) (data : option (list Z)) (len : Z)
    (mac : option (list Z)) (maclen : Z) (secret : option (list Z)) (secretlen : Z) : M (option (list Z) * Z) :=
  match secret, mac, data with
  | Some secret, Some mac', Some data' =>
      if negb (secretlen =? 16) || (len <=? 0) || (maclen <=? 0) then Ok (mac, -1)
      else
        key ← rd_list secret 0 (Z.to_nat secretlen);
        extendedAuthKey ← wr_list (replicate (Z.to_nat HASHKEYLEN) 0) 0 key;
        let K1 := (λ b, Z.lxor b 0x36) <$> extendedAuthKey in
        let K2 := (λ b, Z.lxor b 0x5c) <$> extendedAuthKey in
        '(MD, rc) ← MDupdate MDbegin K1 (HASHKEYLEN * 8);
        if negb (rc =? 0) then Ok (mac, rc)
        else
          '(newdata, _) ← (if aligned then Ok (Some data', 0) else memdup malloc_ok (Some data') len);
          match newdata with
          | None => UB
          | Some cp =>
              '(MD, rc) ← update_loop (S (Z.to_nat (len / 64))) MD cp len;
              if negb (rc =? 0) then Ok (mac, rc)
              else
                buf ← MDget MD (replicate (Z.to_nat HASHKEYLEN) 0) HASHKEYLEN;
                '(MD, rc) ← MDupdate MDbegin K2 (HASHKEYLEN * 8);
                if negb (rc =? 0) then Ok (mac, rc)
                else
                  '(MD, rc) ← MDupdate MD buf (16 * 8);
                  if negb (rc =? 0) then Ok (mac, rc)
                  else mac' ← MDget MD mac' maclen; Ok (Some mac', 0)
          end
  | _, _, _ => Ok (mac, -1)
  end.

(** ** RFC 1321 *)

(** The sine of [n] times 2^256, by [terms] terms of its series from [term] = n^k / k! on. *)
Fixpoint sine_series (terms : nat) (n k term : Z) : Z :=
  match terms with
  | O => 0
  | S terms => term - sine_series terms n (k + 2) (term * n * n / ((k + 1) * (k + 2)))
  end.

Definition sine (n : Z) : Z := sine_series 160 n 1 (n * 2 ^ 256).

(** The integer parts of 2^32 times the absolute values of the sines of 1 to 64. *)
Definition sine_table : list Z := (λ i, Z.abs (sine (Z.of_nat i + 1)) / 2 ^ 224) <$> seq 0 64.

Definition T (i : nat) : Z := nth i sine_table 0.

Definition F_ (x y z : Z) : Z := Z.lor (Z.land x y) (Z.land (u32 (Z.lnot x)) z).
Definition G_ (x y z : Z) : Z := Z.lor (Z.land x z) (Z.land y (u32 (Z.lnot z))).
Definition H_ (x y z : Z) : Z := Z.lxor (Z.lxor x y) z.
Definition I_ (x y z : Z) : Z := Z.lxor y (Z.lor x (u32 (Z.lnot z))).

Definition rotl (x s : Z) : Z := u32 (x * 2 ^ s) + x / 2 ^ (32 - s).

(** Function, word and shift of operation [i]. *)
Definition round_fun (i : nat) : md_fun :=
  match (i / 16)%nat with 0%nat => MF | 1%nat => MG | 2%nat => MH | _ => MI end.

Definition round_word (i : nat) : nat :=
  (match i / 16 with 0 => i | 1 => 5 * i + 1 | 2 => 3 * i + 5 | _ => 7 * i end mod 16)%nat.

Definition round_shift (i : nat) : Z :=
  nth (i mod 4) (nth (i / 16) [[7; 12; 17; 22]; [5; 9; 14; 20]; [4; 11; 16; 23]; [6; 10; 15; 21]] []) 0.

Definition rfc_fun (m : md_fun) : Z → Z → Z → Z :=
  match m with MF => F_ | MG => G_ | MH => H_ | MI => I_ end.

(** One operation: the four words move on by one place. *)
Definition rfc_step (X : list Z) (s : md_regs) (i : nat) : md_regs :=
  let '(a, b, c, d) := s in
  (d, u32 (b + rotl (u32 (a + rfc_fun (round_fun i) b c d + default 0 (X !! round_word i) + T i)) (round_shift i)), b, c).

Definition rfc_compress (s : md_regs) (X : list Z) : md_regs :=
  let '(a, b, c, d) := s in
  let '(a', b', c', d') := foldl (rfc_step X) s (seq 0 64) in
  (u32 (a + a'), u32 (b + b'), u32 (c + c'), u32 (d + d')).

Fixpoint le_octets (n : nat) (v : Z) : list Z :=
  match n with O => [] | S n => v mod 256 :: le_octets n (v / 256) end.

(** The message, a one bit, zeros up to 8 octets before the end of a block, and the
    number of bits. *)
Definition rfc_pad (msg : list Z) : list Z :=
  msg ++ [128] ++ replicate (Z.to_nat ((55 - Z.of_nat (length msg)) mod 64)) 0 ++ le_octets 8 (8 * Z.of_nat (length msg) mod 2 ^ 64).

Fixpoint rfc_blocks (n : nat) (s : md_regs) (l : list Z) : md_regs :=
  match n with O => s | S n => rfc_blocks n (rfc_compress s (as_words (take 64 l))) (drop 64 l) end.

Definition rfc_output (s : md_regs) : list Z :=
  let '(a, b, c, d) := s in le_octets 4 a ++ le_octets 4 b ++ le_octets 4 c ++ le_octets 4 d.

Definition MD5 (msg : list Z) : list Z :=
  let l := rfc_pad msg in
  rfc_output (rfc_blocks (length l / 64) (0x67452301, 0xefcdab89, 0x98badcfe, 0x10325476) l).

(** RFC 2104, for a key of at most 64 octets. *)
Definition HMAC_MD5 (key text : list Z) : list Z :=
  let k := key ++ replicate (64 - length key) 0 in
  MD5 (((λ b, Z.lxor b 0x5c) <$> k) ++ MD5 (((λ b, Z.lxor b 0x36) <$> k) ++ text)).

(** The test suite of RFC 1321: the empty message and abc; RFC 2104, test 1. *)
Example md5_empty : MD5 [] = [0xd4; 0x1d; 0x8c; 0xd9; 0x8f; 0x00; 0xb2; 0x04; 0xe9; 0x80; 0x09; 0x98; 0xec; 0xf8; 0x42; 0x7e].
Proof. vm_compute. reflexivity. Qed.

Example md5_abc : MD5 [97; 98; 99] = [0x90; 0x01; 0x50; 0x98; 0x3c; 0xd2; 0x4f; 0xb0; 0xd6; 0x96; 0x3f; 0x7d; 0x28; 0xe1; 0x7f; 0x72].
Proof. vm_compute. reflexivity. Qed.

Example hmac_hi_there :
  HMAC_MD5 (replicate 16 0x0b) [0x48; 0x69; 0x20; 0x54; 0x68; 0x65; 0x72; 0x65]
  = [0x92; 0x94; 0x72; 0x7a; 0x36; 0x38; 0xbb; 0x1c; 0x13; 0xf4; 0x8e; 0xf8; 0x15; 0x8b; 0xfc; 0x9d].
Proof. vm_compute. reflexivity. Qed.

(** ** The table of MDblock *)

(** The variables in the order in which operation [i] names them. *)
Definition round_regs (i : nat) : md_reg * md_reg * md_reg * md_reg :=
  match (i mod 4)%nat with
  | 0%nat => (RA, RB, RC, RD)
  | 1%nat => (RD, RA, RB, RC)
  | 2%nat => (RC, RD, RA, RB)
  | _ => (RB, RC, RD, RA)
  end.

Definition rfc_line (i : nat) : md_step := MdStep (round_fun i) (round_regs i) (round_word i) (round_shift i) (T i).

Lemma md_program_rfc : md_program = rfc_line <$> seq 0 64.
Proof. vm_compute. reflexivity. Qed.

Lemma rot_rotl x s : 0 < s < 32 → rot x s = rotl (u32 x) s.
Proof.
  intros Hs. unfold rot, rotl. pose proof (u32_range x) as Hx. set (t := u32 x) in *. clearbody t.
  rewrite shiftl_mul, shiftr_div by lia.
  assert (0 < 2 ^ s ∧ 0 < 2 ^ (32 - s) ∧ 2 ^ 32 = 2 ^ (32 - s) * 2 ^ s) as (P1 & P2 & P3).
  { split; [|split]; [apply Z.pow_pos_nonneg; lia..|]. rewrite <- Z.pow_add_r by lia. f_equal. lia. }
  assert (u32 (t * 2 ^ s) = (t mod 2 ^ (32 - s)) * 2 ^ s) as ->.
  { unfold u32. rewrite P3. apply Z.mul_mod_distr_r; lia. }
  rewrite <- (shiftl_mul _ s) at 1 by lia. apply lor_shift_low; [lia|].
  split; [apply Z.div_pos; lia|]. apply Z.div_lt_upper_bound; lia.
Qed.

(** The four variables as operation [i] sees them. *)
Definition view (i : nat) (r : md_regs) : md_regs :=
  let '(a, b, c, d) := round_regs i in (get_reg r a, get_reg r b, get_reg r c, get_reg r d).

Lemma shifts_in_range i : (i < 64)%nat → 0 < round_shift i < 32.
Proof.
  intros Hi. assert (Forall (λ i, 0 < round_shift i < 32) (seq 0 64)) as H.
  { apply (bool_decide_eq_true_1 _). vm_compute. reflexivity. }
  rewrite Forall_forall in H. apply H. apply elem_of_seq. lia.
Qed.

Lemma words_in_range i : (round_word i < 16)%nat.
Proof. unfold round_word. apply Nat.mod_upper_bound. lia. Qed.

Lemma md_apply_rfc m x y z : md_apply m x y z = rfc_fun m x y z.
Proof. by destruct m. Qed.

#[local] Opaque T.

(** One line is one operation on the variables in their order. *)
Lemma run_step_rfc X r i :
  length X = 16%nat → (i < 64)%nat →
  ∃ r', run_step X r (rfc_line i) = Ok r' ∧ view (S i) r' = rfc_step X (view i r) i.
Proof.
  intros HX Hi. unfold run_step, rfc_line. cbn [ms_regs ms_index ms_fun ms_shift ms_lp].
  destruct (rd_lt X (round_word i)) as (x & Ex & Hx); [pose proof (words_in_range i); lia|].
  unfold view, rfc_step. rewrite Ex, Hx. cbn [default]. destruct r as [[[a b] c] d]. unfold round_regs.
  assert (i mod 4 < 4)%nat as Hm by (apply Nat.mod_upper_bound; lia).
  assert (S i mod 4 = S (i mod 4) mod 4)%nat as ->.
  { rewrite <- (Nat.add_1_l i), <- (Nat.add_1_l (i mod 4)). by rewrite Nat.Div0.add_mod_idemp_r. }
  destruct (i mod 4)%nat as [|[|[|[|?]]]]; [..|lia]; (eexists; split; [reflexivity|]); cbn -[rot rotl u32 md_apply rfc_fun round_fun round_shift];
    rewrite md_apply_rfc, rot_rotl, (Z.add_comm (rotl _ _)) by (by apply shifts_in_range); reflexivity.
Qed.

Lemma run_steps_rfc X n : ∀ i r,
  length X = 16%nat → (i + n ≤ 64)%nat →
  ∃ r', run_steps X r (rfc_line <$> seq i n) = Ok r' ∧ view (i + n) r' = foldl (rfc_step X) (view i r) (seq i n).
Proof.
  induction n as [|n IH]; intros i r HX Hi; cbn [seq fmap list_fmap run_steps foldl].
  { exists r. by rewrite Nat.add_0_r. }
  destruct (run_step_rfc X r i HX) as (r1 & -> & E1); [lia|]. m_step.
  destruct (IH (S i) r1 HX) as (r' & -> & E'); [lia|]. exists r'. split; [done|].
  rewrite <- E1. rewrite <- E'. f_equal. lia.
Qed.

Definition regs_list (s : md_regs) : list Z := let '(a, b, c, d) := s in [a; b; c; d].

(** A block is one application of the compression function. *)
Lemma MDblock_rfc s cnt done X :
  length X = 16%nat → MDblock (MkMD (regs_list s) cnt done) X = Ok (MkMD (regs_list (rfc_compress s X)) cnt done).
Proof.
  intros HX. destruct s as [[[a b] c] d]. unfold MDblock. cbn [md_buffer regs_list md_count md_done].
  change (rd [a; b; c; d] 0) with (Ok a). change (rd [a; b; c; d] 1) with (Ok b).
  change (rd [a; b; c; d] 2) with (Ok c). change (rd [a; b; c; d] 3) with (Ok d). m_step.
  destruct (run_steps_rfc X 64 0 (a, b, c, d) HX) as (r & E & Ev); [lia|].
  rewrite md_program_rfc. rewrite E. m_step. unfold rfc_compress.
  change (view 0 (a, b, c, d)) with (a, b, c, d) in Ev. rewrite <- Ev. destruct r as [[[A B] C] D']. reflexivity.
Qed.

Lemma as_words_length l : length (as_words l) = 16%nat.
Proof. done. Qed.

(** ** The number of bits *)

Lemma le_octets_length n v : length (le_octets n v) = n.
Proof. revert v. induction n as [|n IH]; intros v; cbn; [done|]. by rewrite IH. Qed.

Lemma add_count_octets n : ∀ v tmp,
  0 ≤ v → 0 ≤ tmp < 2 ^ 31 → v + tmp < 256 ^ Z.of_nat n →
  add_count tmp (le_octets n v) = Ok (le_octets n (v + tmp)).
Proof.
  induction n as [|n IH]; intros v tmp Hv Ht Hlt.
  { assert (tmp = 0) as -> by (cbn in Hlt; lia). done. }
  destruct (Z.eqb_spec tmp 0) as [->|Hne]; [unfold add_count; by rewrite Z.add_0_r|].
  cbn [le_octets add_count]. replace (tmp =? 0) with false by lia.
  pose proof (Z.mod_pos_bound v 256). rewrite u32_id by lia. rewrite shiftr_div by lia. change (2 ^ 8) with 256.
  rewrite Nat2Z.inj_succ, Z.pow_succ_r in Hlt by lia.
  assert ((v + tmp) / 256 = v / 256 + (tmp + v mod 256) / 256) as Ediv.
  { rewrite <- Z.div_add_l by lia. f_equal. pose proof (Z.div_mod v 256). lia. }
  assert ((v + tmp) / 256 < 256 ^ Z.of_nat n) as Hd by (apply Z.div_lt_upper_bound; lia).
  rewrite IH; [|apply Z.div_pos; lia| |lia].
  - m_step. rewrite <- Ediv. do 2 f_equal. unfold u8. change (2 ^ 8) with 256.
    rewrite Z.add_mod_idemp_r by lia. f_equal. lia.
  - split; [apply Z.div_pos; lia|]. apply Z.div_lt_upper_bound; lia.
Qed.

(** ** The last block *)

Definition zeros (r : nat) : nat := if decide (r ≤ 55)%nat then (55 - r)%nat else (119 - r)%nat.

Definition last_part (rest cnt : list Z) : list Z := rest ++ [128] ++ replicate (zeros (length rest)) 0 ++ cnt.

(** The message octets and the one bit behind them. *)
Lemma first_fill rest beyond :
  (length rest < 64)%nat →
  rd_list (rest ++ beyond) 0 (length rest) = Ok rest ∧
  wr_list (replicate 64 0) 0 rest = Ok (rest ++ replicate (64 - length rest) 0) ∧
  rd (rest ++ replicate (64 - length rest) 0) (length rest) = Ok 0 ∧
  wr (rest ++ replicate (64 - length rest) 0) (length rest) 128 = Ok (rest ++ 128 :: replicate (63 - length rest) 0).
Proof.
  intros Hr. split_and!.
  - apply (rd_list_app rest [] beyond).
  - rewrite wr_list_eq by (rewrite length_replicate; lia). cbn [take app]. by rewrite drop_replicate.
  - replace (64 - length rest)%nat with (S (63 - length rest)) by lia. apply rd_app_l.
  - replace (64 - length rest)%nat with (S (63 - length rest)) by lia. apply wr_app.
Qed.

(** The block that only has the number of bits. *)
Lemma second_fill l zs cnt :
  length l = 64%nat → length zs = 56%nat → length cnt = 8%nat →
  wr_list l 0 zs = Ok (zs ++ drop 56 l) ∧ wr_list (zs ++ drop 56 l) 56 cnt = Ok (zs ++ cnt).
Proof.
  intros Hl Hz Hc. split.
  - rewrite wr_list_eq by lia. cbn [take app Nat.add]. by rewrite Hz.
  - pose proof (wr_list_app cnt zs (drop 56 l) []) as H. rewrite !app_nil_r, Hz in H. apply H. rewrite length_drop. lia.
Qed.

Lemma one_block s l : length l = 64%nat → rfc_blocks (length l / 64) s l = rfc_compress s (as_words l).
Proof. intros Hl. rewrite Hl. change (64 / 64)%nat with 1%nat. cbn [rfc_blocks]. by rewrite take_ge by lia. Qed.

Lemma next_block s l l' :
  length l = 64%nat → rfc_blocks (length (l ++ l') / 64) s (l ++ l')
  = rfc_blocks (length l' / 64) (rfc_compress s (as_words l)) l'.
Proof.
  intros Hl. rewrite length_app, Hl. replace (64 + length l')%nat with (1 * 64 + length l')%nat by lia.
  rewrite Nat.div_add_l by lia. cbn [Nat.add rfc_blocks].
  by rewrite <- Hl, take_app_length, drop_app_length.
Qed.

Lemma md_finish_spec s cnt rest beyond :
  (length rest < 64)%nat → length cnt = 8%nat →
  md_finish (MkMD (regs_list s) cnt 0) (rest ++ beyond) (Z.of_nat (length rest) * 8)
  = Ok (MkMD (regs_list (rfc_blocks (length (last_part rest cnt) / 64) s (last_part rest cnt))) cnt 1).
Proof.
  intros Hr Hc. unfold md_finish. set (r := length rest) in *.
  assert (Z.shiftr (Z.of_nat r * 8) 3 = Z.of_nat r) as ->.
  { rewrite shiftr_div by lia. change (2 ^ 3) with 8. by rewrite Z.div_mul by lia. }
  assert (Z.land (Z.of_nat r * 8) 7 = 0) as ->.
  { change 7 with (2 ^ 3 - 1). rewrite land_ones_mod by lia. change (2 ^ 3) with 8. apply Z.mod_mul. lia. }
  cbn [Z.eqb]. rewrite Nat2Z.id. destruct (first_fill rest beyond Hr) as (E1 & E2 & E3 & E4). fold r in E1, E2, E3, E4.
  rewrite E1. m_step. rewrite E2. m_step. rewrite E3. m_step.
  change (u8 (Z.land (Z.lor 0 (Z.shiftl 1 (7 - 0))) (u32 (Z.lnot (Z.shiftl 1 (7 - 0) - 1))))) with 128.
  rewrite E4. m_step. cbn [md_count]. unfold last_part, zeros. fold r. destruct (Z.leb_spec (Z.of_nat r) 55) as [Hle|Hgt].
  - rewrite decide_True by lia. replace (63 - r)%nat with (55 - r + 8)%nat by lia. rewrite replicate_add.
    assert (length (rest ++ 128 :: replicate (55 - r) 0) = 56%nat) as Hlen.
    { rewrite length_app. cbn [length]. rewrite length_replicate. fold r. lia. }
    replace (rest ++ 128 :: replicate (55 - r) 0 ++ replicate 8 0) with
      ((rest ++ 128 :: replicate (55 - r) 0) ++ replicate 8 0 ++ []) by (by rewrite app_nil_r, <- app_assoc).
    rewrite <- Hlen at 1. rewrite wr_list_app by (rewrite Hc; done). m_step. rewrite MDblock_rfc by done. m_step.
    cbn [md_buffer md_count]. do 2 f_equal.
    rewrite app_nil_r, <- app_assoc. cbn [app]. rewrite one_block; [done|].
    rewrite app_comm_cons, app_assoc, length_app, Hlen, Hc. done.
  - rewrite decide_False by lia. rewrite MDblock_rfc by done. m_step. cbn [md_count].
    assert (length (rest ++ 128 :: replicate (63 - r) 0) = 64%nat) as Hlen.
    { rewrite length_app. cbn [length]. rewrite length_replicate. fold r. lia. }
    assert (length (replicate 56 0) = 56%nat) as Hz by apply length_replicate. remember (replicate 56 0) as zs eqn:Ez.
    destruct (second_fill _ zs cnt Hlen Hz Hc) as [-> E6]. m_step. rewrite E6. m_step.
    rewrite MDblock_rfc by done. m_step. cbn [md_buffer md_count]. do 2 f_equal.
    replace (119 - r)%nat with (63 - r + 56)%nat by lia. rewrite replicate_add, <- Ez.
    replace (rest ++ [128] ++ (replicate (63 - r) 0 ++ zs) ++ cnt) with
      ((rest ++ 128 :: replicate (63 - r) 0) ++ zs ++ cnt) by (by rewrite <- !app_assoc).
    rewrite next_block by done. rewrite one_block; [done|]. by rewrite length_app, Hz, Hc.
Qed.

(** ** Whole messages *)

Definition bits (n : nat) : list Z := le_octets 8 (8 * Z.of_nat n).

Lemma add_bits n r :
  Z.of_nat (n + r) < 2 ^ 61 → (r ≤ 64)%nat → add_count (Z.of_nat r * 8) (bits n) = Ok (bits (n + r)).
Proof.
  intros Hn Hr. unfold bits. rewrite add_count_octets; [do 2 f_equal; lia|lia|lia|].
  change (256 ^ Z.of_nat 8) with (2 ^ 64). lia.
Qed.

Lemma update_full s n l beyond :
  Z.of_nat (n + 64) < 2 ^ 61 → length l = 64%nat →
  MDupdate (MkMD (regs_list s) (bits n) 0) (l ++ beyond) (64 * 8)
  = Ok (MkMD (regs_list (rfc_compress s (as_words l))) (bits (n + 64)) 0, 0).
Proof.
  intros Hn Hl. unfold MDupdate. cbn [md_done Z.eqb negb andb md_count md_buffer]. change (64 * 8) with 512. cbn [Z.eqb Pos.eqb andb].
  change 512 with (Z.of_nat 64 * 8) at 1. rewrite add_bits by lia. m_step.
  pose proof (rd_list_app l [] beyond) as Hrd. rewrite Hl in Hrd. cbn [app length] in Hrd.
  rewrite Hrd. m_step. by rewrite MDblock_rfc.
Qed.

Lemma update_last s n rest beyond :
  Z.of_nat (n + length rest) < 2 ^ 61 → (length rest < 64)%nat →
  MDupdate (MkMD (regs_list s) (bits n) 0) (rest ++ beyond) (Z.of_nat (length rest) * 8)
  = let l := last_part rest (bits (n + length rest)) in
    Ok (MkMD (regs_list (rfc_blocks (length l / 64) s l)) (bits (n + length rest)) 1, 0).
Proof.
  intros Hn Hr. unfold MDupdate. cbn [md_done Z.eqb negb md_count md_buffer]. rewrite andb_false_r.
  rewrite add_bits by lia. m_step. replace (Z.of_nat (length rest) * 8 =? 512) with false by lia.
  replace (512 <? Z.of_nat (length rest) * 8) with false by lia. rewrite md_finish_spec; [done|done|apply le_octets_length].
Qed.

(** The loop over a message behind [n] octets that were full blocks. *)
Lemma update_loop_spec fuel : ∀ s n msg beyond,
  Z.of_nat (n + length msg) < 2 ^ 61 → (length msg / 64 < fuel)%nat →
  ∃ r, (length msg = 64 * (length msg / 64) + length r)%nat ∧ (length r < 64)%nat ∧
    r = drop (64 * (length msg / 64)) msg ∧
    update_loop fuel (MkMD (regs_list s) (bits n) 0) (msg ++ beyond) (Z.of_nat (length msg))
    = let l := take (64 * (length msg / 64)) msg ++ last_part r (bits (n + length msg)) in
      Ok (MkMD (regs_list (rfc_blocks (length l / 64) s l)) (bits (n + length msg)) 1, 0).
Proof.
  induction fuel as [|fuel IH]; intros s n msg beyond Hn Hf; [lia|]. cbn [update_loop].
  destruct (Z.leb_spec 64 (Z.of_nat (length msg))) as [Hge|Hlt].
  - assert (∃ l msg', msg = l ++ msg' ∧ length l = 64%nat) as (l & msg' & -> & Hl).
    { exists (take 64 msg), (drop 64 msg). rewrite take_drop, length_take. split; [done|lia]. }
    rewrite length_app, Hl in *. rewrite <- app_assoc, update_full by lia. m_step.
    assert ((64 + length msg') / 64 = S (length msg' / 64))%nat as Ediv.
    { replace (64 + length msg')%nat with (1 * 64 + length msg')%nat by lia. by rewrite Nat.div_add_l by lia. }
    rewrite Ediv in *. destruct (IH (rfc_compress s (as_words l)) (n + 64)%nat msg' beyond) as (r & E1 & E2 & E3 & E4); [lia|lia|].
    exists r. replace (64 * S (length msg' / 64))%nat with (length l + 64 * (length msg' / 64))%nat by lia.
    rewrite take_app_add, drop_app_add. split_and!; [lia|done|done|].
    replace (drop 64 (l ++ msg' ++ beyond)) with (msg' ++ beyond) by (by rewrite <- Hl, drop_app_length).
    replace (Z.of_nat (64 + length msg') - 64) with (Z.of_nat (length msg')) by lia. cbn [Z.eqb]. rewrite E4. cbn zeta.
    rewrite <- (app_assoc l), (next_block s l) by done. by replace (n + 64 + length msg')%nat with (n + (64 + length msg'))%nat by lia.
  - assert (length msg / 64 = 0)%nat as -> by (apply Nat.div_small; lia). exists msg.
    rewrite Nat.mul_0_r. cbn [drop take app Nat.add]. split_and!; [done|lia|done|]. rewrite update_last by lia. done.
Qed.

(** The padded message ends with the last part. *)
Lemma zeros_mod n r : (r < 64)%nat → Z.to_nat ((55 - Z.of_nat (64 * n + r)) mod 64) = zeros r.
Proof.
  intros Hr. unfold zeros. replace (55 - Z.of_nat (64 * n + r)) with (55 - Z.of_nat r + (- Z.of_nat n) * 64) by lia.
  rewrite Z.mod_add by lia. destruct (decide (r ≤ 55)%nat).
  - rewrite Z.mod_small by lia. lia.
  - replace (55 - Z.of_nat r) with (119 - Z.of_nat r + (-1) * 64) by lia. rewrite Z.mod_add by lia.
    rewrite Z.mod_small by lia. lia.
Qed.

Lemma rfc_pad_last n msg pre r :
  Z.of_nat (length msg) < 2 ^ 61 → msg = pre ++ r → length pre = (64 * n)%nat → (length r < 64)%nat →
  rfc_pad msg = pre ++ last_part r (bits (length msg)).
Proof.
  intros Hm E Hp Hr. unfold rfc_pad, last_part, bits. rewrite (Z.mod_small (8 * _)) by lia.
  assert (Z.to_nat ((55 - Z.of_nat (length msg)) mod 64) = zeros (length r)) as ->.
  { rewrite E, length_app, Hp. by apply zeros_mod. }
  rewrite E at 1. by rewrite <- app_assoc.
Qed.

(** The loop, behind [k] full blocks, computes the digest of everything. *)
Lemma update_loop_MD5 pre msg beyond k :
  length pre = (64 * k)%nat → Z.of_nat (length pre + length msg) < 2 ^ 61 →
  ∃ s, update_loop (S (Z.to_nat (Z.of_nat (length msg) / 64)))
         (MkMD (regs_list (rfc_blocks k (I0, I1, I2, I3) pre)) (bits (length pre)) 0) (msg ++ beyond) (Z.of_nat (length msg))
       = Ok (MkMD (regs_list s) (bits (length pre + length msg)) 1, 0) ∧ rfc_output s = MD5 (pre ++ msg).
Proof.
  intros Hp Hm. assert (Z.to_nat (Z.of_nat (length msg) / 64) = length msg / 64)%nat as ->.
  { change 64 with (Z.of_nat 64). rewrite <- Nat2Z.inj_div. apply Nat2Z.id. }
  destruct (update_loop_spec (S (length msg / 64)) (rfc_blocks k (I0, I1, I2, I3) pre) (length pre) msg beyond)
    as (r & E1 & E2 & E3 & E4); [lia|lia|]. rewrite E4. cbn zeta. eexists. split; [reflexivity|].
  unfold MD5. rewrite (rfc_pad_last (k + length msg / 64) (pre ++ msg) (pre ++ take (64 * (length msg / 64)) msg) r).
  - rewrite (length_app pre msg), <- (app_assoc pre). set (l := take _ msg ++ last_part _ _). clearbody l. f_equal. clear -Hp.
    change (0x67452301, 0xefcdab89, 0x98badcfe, 0x10325476) with (I0, I1, I2, I3). generalize (I0, I1, I2, I3). intros s.
    revert pre s Hp. induction k as [|k IH]; intros pre s Hp.
    { assert (pre = []) as -> by (apply nil_length_inv; lia). done. }
    assert (pre = take 64 pre ++ drop 64 pre) as E by (by rewrite take_drop).
    assert (length (take 64 pre) = 64%nat) as H64 by (rewrite length_take; lia).
    cbn [rfc_blocks]. rewrite (IH (drop 64 pre)) by (rewrite length_drop; lia). symmetry. rewrite E at 1 2.
    rewrite <- app_assoc. by rewrite next_block.
  - rewrite length_app. lia.
  - rewrite <- app_assoc, E3. by rewrite take_drop.
  - rewrite length_app, length_take, Hp. lia.
  - done.
Qed.

(** ** The digest *)

Lemma octet_of w j : 0 ≤ j → Z.land (Z.shiftr w j) 0xff = w / 2 ^ j mod 256.
Proof. intros Hj. rewrite shiftr_div by done. apply (land_ones_mod _ 8). lia. Qed.

Lemma octets_word w :
  le_octets 4 w = (λ j, Z.land (Z.shiftr w (Z.of_nat j * 8)) 0xff) <$> seq 0 4.
Proof.
  cbn [le_octets seq fmap list_fmap]. rewrite !octet_of by lia. cbn [Z.of_nat Pos.of_succ_nat Pos.succ Z.mul Pos.mul Pos.add].
  rewrite !Z.div_div by lia. by rewrite Z.div_1_r.
Qed.

Lemma md_octets_output s cnt done n :
  0 ≤ n < 2 ^ 31 → md_octets (MkMD (regs_list s) cnt done) n = take (Z.to_nat (Z.min 16 n)) (rfc_output s).
Proof.
  intros Hn. unfold md_octets. rewrite s32_id by lia. cbn [md_buffer].
  assert (Z.to_nat (Z.min 16 n) = Z.to_nat (Z.min 16 n) `min` 16)%nat as E by lia. rewrite E at 1.
  rewrite <- take_seq, fmap_take. f_equal. clear. destruct s as [[[a b] c] d]. unfold rfc_output. rewrite !octets_word.
  reflexivity.
Qed.

Lemma rfc_output_length s : length (rfc_output s) = 16%nat.
Proof. by destruct s as [[[a b] c] d]. Qed.

Lemma MDget_output s cnt done buf n :
  0 ≤ n < 2 ^ 31 → Z.min 16 n ≤ Z.of_nat (length buf) →
  let m := Z.to_nat (Z.min 16 n) in
  MDget (MkMD (regs_list s) cnt done) buf n = Ok (take m (rfc_output s) ++ drop m buf).
Proof.
  intros Hn Hb m. unfold MDget. rewrite md_octets_output by done. fold m.
  assert (length (take m (rfc_output s)) = m) as Hl by (rewrite length_take, rfc_output_length; lia).
  rewrite wr_list_eq by lia. rewrite Hl. done.
Qed.

Lemma MDbegin_rfc : MDbegin = MkMD (regs_list (I0, I1, I2, I3)) (bits 0) 0.
Proof. reflexivity. Qed.

(** C35: MDchecksum computes the MD5 digest of RFC 1321: for every message of fewer than 2^32
    octets, whatever lies behind it in memory, it succeeds, and the buffer for the digest
    gets its first maclen octets, at most sixteen, and nothing else. *)
Theorem MDchecksum_is_MD5 msg beyond mac maclen :
  Z.of_nat (length msg) < 2 ^ 32 → 0 ≤ maclen < 2 ^ 31 → Z.min 16 maclen ≤ Z.of_nat (length mac) →
  let m := Z.to_nat (Z.min 16 maclen) in
  MDchecksum (msg ++ beyond) (Z.of_nat (length msg)) mac maclen = Ok (take m (MD5 msg) ++ drop m mac, 0).
Proof.
  intros Hm Hl Hmac m. unfold MDchecksum.
  destruct (update_loop_MD5 [] msg beyond 0) as (s & E & Hs); [done|cbn [length]; lia|].
  cbn [rfc_blocks length] in E. rewrite <- MDbegin_rfc in E. rewrite E. m_step. cbn [Z.eqb].
  rewrite MDget_output by done. m_step. by rewrite Hs.
Qed.

Lemma rfc_blocks_one s l : length l = 64%nat → rfc_blocks 1 s l = rfc_compress s (as_words l).
Proof. intros Hl. cbn [rfc_blocks]. by rewrite take_ge by lia. Qed.

(** The loop started behind one block. *)
Lemma sign_block K msg beyond :
  length K = 64%nat → Z.of_nat (length msg) < 2 ^ 32 →
  ∃ MD s, MDupdate MDbegin K (64 * 8) = Ok (MD, 0) ∧
    update_loop (S (Z.to_nat (Z.of_nat (length msg) / 64))) MD (msg ++ beyond) (Z.of_nat (length msg))
      = Ok (MkMD (regs_list s) (bits (64 + length msg)) 1, 0) ∧
    rfc_output s = MD5 (K ++ msg).
Proof.
  intros HK Hm. destruct (update_loop_MD5 K msg beyond 1) as (s & E & Hs); [lia|lia|].
  rewrite (rfc_blocks_one _ K HK), HK in E.
  assert (Z.of_nat (0 + 64) < 2 ^ 61) as H0 by lia.
  pose proof (update_full (I0, I1, I2, I3) 0 K [] H0 HK) as E1. rewrite app_nil_r, <- MDbegin_rfc, Nat.add_0_l in E1.
  eexists _, s. split; [exact E1|]. split; [exact E|done].
Qed.

Lemma key_block key rest :
  length key = 16%nat →
  rd_list (key ++ rest) 0 (Z.to_nat 16) = Ok key ∧
  wr_list (replicate (Z.to_nat HASHKEYLEN) 0) 0 key = Ok (key ++ replicate (64 - length key) 0) ∧
  length (key ++ replicate (64 - length key) 0) = 64%nat.
Proof.
  intros Hk. split_and!.
  - change (Z.to_nat 16) with 16%nat. rewrite <- Hk. apply (rd_list_app key [] rest).
  - change (Z.to_nat HASHKEYLEN) with 64%nat. rewrite wr_list_eq by (rewrite length_replicate; lia).
    cbn [take app Nat.add]. by rewrite drop_replicate.
  - rewrite length_app, length_replicate, Hk. done.
Qed.

(** What the second half of MDsign does: the digest of the key and the first digest. *)
Lemma sign_outer K digest beyond :
  length K = 64%nat → length digest = 16%nat →
  ∃ MD MD' s, MDupdate MDbegin K (64 * 8) = Ok (MD, 0) ∧ MDupdate MD (digest ++ beyond) (16 * 8) = Ok (MD', 0) ∧
    MD' = MkMD (regs_list s) (bits 80) 1 ∧ rfc_output s = MD5 (K ++ digest).
Proof.
  intros HK Hd. destruct (sign_block K digest beyond HK) as (MD & s & E1 & E2 & Hs); [lia|].
  rewrite Hd in E2. change (S (Z.to_nat (Z.of_nat 16 / 64))) with 1%nat in E2. cbn [update_loop] in E2.
  change (64 <=? Z.of_nat 16) with false in E2. change (Z.of_nat 16) with 16 in E2. cbn match in E2.
  eexists MD, _, s. split; [exact E1|]. split; [exact E2|]. by change (64 + 16)%nat with 80%nat.
Qed.

(** C36: MDsign computes the keyed digest HMAC-MD5 of RFC 2104: for a secret of sixteen
    octets and every message that is not empty, aligned or copied, it succeeds, and the
    buffer gets the first maclen octets of the digest, at most sixteen. *)
Theorem MDsign_is_HMAC malloc_ok aligned key rest text beyond mac maclen :
  length key = 16%nat → 0 < Z.of_nat (length text) < 2 ^ 32 → 0 < maclen < 2 ^ 31 →
  Z.min 16 maclen ≤ Z.of_nat (length mac) → (aligned = false → malloc_ok (Z.of_nat (length text)) = true) →
  let m := Z.to_nat (Z.min 16 maclen) in
  MDsign malloc_ok aligned (Some (text ++ beyond)) (Z.of_nat (length text)) (Some mac) maclen (Some (key ++ rest)) 16
  = Ok (Some (take m (HMAC_MD5 key text) ++ drop m mac), 0).
Proof.
  intros Hk Ht Hm Hmac Hal m. unfold MDsign, HMAC_MD5. destruct (key_block key rest Hk) as (E1 & E2 & Hlen).
  change (negb (16 =? 16)) with false. replace (Z.of_nat (length text) <=? 0) with false by lia.
  replace (maclen <=? 0) with false by lia. cbn [orb]. rewrite E1. m_step. rewrite E2. m_step.
  change (HASHKEYLEN * 8) with (64 * 8). change (Z.to_nat HASHKEYLEN) with 64%nat. change HASHKEYLEN with 64.
  set (k := key ++ replicate (64 - length key) 0) in *. clearbody k.
  set (K1 := (λ b, Z.lxor b 0x36) <$> k). set (K2 := (λ b, Z.lxor b 0x5c) <$> k).
  assert (length K1 = 64%nat ∧ length K2 = 64%nat) as [HK1 HK2] by (unfold K1, K2; by rewrite !length_fmap).
  clearbody K1 K2. clear E1 E2.
  assert (∃ tail, (if aligned then Ok (Some (text ++ beyond), 0) else memdup malloc_ok (Some (text ++ beyond)) (Z.of_nat (length text)))
    = Ok (Some (text ++ tail), 0)) as (tail & Ecp).
  { destruct aligned; [by exists beyond|]. exists []. unfold memdup. rewrite Hal by done. rewrite Nat2Z.id.
    pose proof (rd_list_app text [] beyond) as Hrd. cbn [app length] in Hrd. rewrite Hrd. m_step. by rewrite app_nil_r. }
  destruct (sign_block K1 text tail HK1) as (MD & s & E1 & E2 & Hs); [lia|].
  rewrite E1. m_step. cbn [Z.eqb negb]. rewrite Ecp. m_step. rewrite E2. m_step. cbn [Z.eqb negb].
  rewrite MDget_output by (rewrite ?length_replicate; lia). m_step.
  change (Z.to_nat (Z.min 16 64)) with 16%nat. rewrite take_ge by (rewrite rfc_output_length; lia).
  destruct (sign_outer K2 (rfc_output s) (drop 16 (replicate 64 0)) HK2 (rfc_output_length s)) as (MD1 & MD2 & s' & E3 & E4 & -> & Hs').
  rewrite E3. m_step. cbn [Z.eqb negb]. rewrite E4. m_step. cbn [Z.eqb negb].
  rewrite MDget_output by (done || lia). m_step. by rewrite Hs', Hs.
Qed.

(** After the last block MDupdate refuses more bits, and a block of more than 512 bits always. *)
Lemma MDupdate_rejects MDp X count :
  (md_done MDp ≠ 0 → count ≠ 0 → MDupdate MDp X count = Ok (MDp, -1)) ∧
  (md_done MDp = 0 → 512 < count → ∀ cnt, add_count count (md_count MDp) = Ok cnt →
   MDupdate MDp X count = Ok (MkMD (md_buffer MDp) cnt 0, -2)).
Proof.
  unfold MDupdate. split.
  - intros Hd Hc. replace (count =? 0) with false by lia. by replace (md_done MDp =? 0) with false by lia.
  - intros Hd Hc cnt E. rewrite Hd, andb_false_r. cbn [Z.eqb negb]. rewrite E. m_step.
    replace (count =? 512) with false by lia. by replace (512 <? count) with true by lia.
Qed.

(** ** Witnesses *)

Lemma MDchecksum_is_MD5_witness :
  MDchecksum ([97; 98; 99] ++ [7]) 3 (replicate 12 0) 12
  = Ok (take 12 (MD5 [97; 98; 99]) ++ drop 12 (replicate 12 0), 0).
Proof. apply (MDchecksum_is_MD5 [97; 98; 99] [7] (replicate 12 0) 12); cbn; lia. Defined.

Lemma MDsign_is_HMAC_witness :
  MDsign (λ _, true) false (Some ([72; 105] ++ [])) 2 (Some (replicate 20 1)) 20 (Some (replicate 16 11 ++ [])) 16
  = Ok (Some (take 16 (HMAC_MD5 (replicate 16 11) [72; 105]) ++ drop 16 (replicate 20 1)), 0).
Proof.
  apply (MDsign_is_HMAC (λ _, true) false (replicate 16 11) [] [72; 105] [] (replicate 20 1) 20); cbn; first [done|lia].
Defined.

(** Without memory for the copy of a message that is not aligned the copy is used all the same. *)
Example sign_without_memory :
  MDsign (λ _, false) false (Some [72; 105]) 2 (Some (replicate 16 1)) 16 (Some (replicate 16 11)) 16 = UB.
Proof. vm_compute. reflexivity. Qed.

(** A secret of another length is refused. *)
Example sign_short_secret :
  MDsign (λ _, true) true (Some [72; 105]) 2 (Some [0]) 1 (Some (replicate 8 11)) 8 = Ok (Some [0], -1).
Proof. vm_compute. reflexivity. Qed.
