(* ===== verification/Synch.v ===== *)
(** * Synchronous requests: snmp_sess_synch_response of snmplib/snmp_client.c

    The function an application calls to send a request and wait for the answer: it
    installs snmp_synch_input as the callback of the session, sends the PDU and loops
    over snmp_sess_select_info, select, snmp_sess_read and snmp_sess_timeout until that
    callback has said that the wait is over.

    It is built on Session and Stream.  The outcome of each select, and what a readable
    socket delivers, are inputs, one per round of the loop; with the inputs used up the
    function is still waiting.  The callback writes to the structure [synch_state]: its
    writes are those of snmp_synch_input on the calls that the history of the session
    shows, in order.  It also stores a number in s_snmp_errno, which is done here at the
    end of the read or timeout; in between only the treatment of a report looks at it,
    and there the value stored is the type of the report, which is tested as well.
    snmp_clone_pdu, modelled in Client on a heap, is an argument.

    The theorems: a request that is answered before its last timeout returns the response,
    whatever strays, interrupts and retransmissions come before; a request that is not
    answered returns STAT_TIMEOUT after its retries; both leave the session as it was. *)

From S2P Require Import Prelude Ber Asn1 VarBind Pdu PduParse Asn1Rbuild Message OidCompare Client.
From S2P Require Import PduRoundtrip Session SessionQueue SessionLife Stream.
From stdpp Require Import prelude numbers list gmap.
From Stdlib Require Import ZArith Lia.
Open Scope Z_scope.

Definition STAT_SUCCESS : Z := 0.
Definition STAT_ERROR : Z := 1.
Definition STAT_TIMEOUT : Z := 2.
Definition NETSNMP_CALLBACK_OP_DISCONNECT : Z := 5.
Definition SNMPERR_ABORT : Z := -22.
Definition SNMPERR_TIMEOUT : Z := -24.
Definition SNMPERR_PROTOCOL : Z := -64.

Record synch_state := SynchState {
  st_waiting : Z;
  st_status : Z;
  st_reqid : Z;
  st_pdu : option rpdu;
}.

(** The outcome of [select]: a socket to read from and what it delivers, 0, -1 with
    [EINTR], and -1 with another error. *)
Inductive selected := Readable (got : recv) | NoneReady | Interrupted | SelectFailed.

Section Synch.
Variable E : env.
Variable snmp_clone_pdu : rpdu → option rpdu.
(** [snmp_synch_input] with the address of the [synch_state]. *)
Variable self : callback.
Variable indeterminate : Z.
Variable empty_pkt : bool.

(** The new state, the result, and what is stored in [s_snmp_errno].  A timeout is
    called with the request itself, which is not a report and is left out here; otherwise
    [None] is [NULL]. *)
Definition snmp_synch_input (op reqid : Z) (pdu : option rpdu) (st : synch_state)
    : synch_state * Z * option Z :=
  if match pdu with
     | Some p => negb (reqid =? st_reqid st) && negb (rp_command p =? SNMP_MSG_REPORT)
     | None => negb (reqid =? st_reqid st) && (op =? NETSNMP_CALLBACK_OP_TIMED_OUT)
     end
  then (st, 0, None)
  else
    match op =? NETSNMP_CALLBACK_OP_RECEIVED_MESSAGE, pdu with
    | true, Some p =>
        if rp_command p =? SNMP_MSG_REPORT then
          let rpt_type := snmpv3_get_report_type p in
          let again := negb (SNMPV3_IGNORE_UNAUTH_REPORTS =? 0) || (rpt_type =? SNMPERR_NOT_IN_TIME_WINDOW) in
          (SynchState (if again then 1 else 0) STAT_ERROR (st_reqid st) None, 1, Some rpt_type)
        else if rp_command p =? SNMP_MSG_RESPONSE then
          (SynchState 0 STAT_SUCCESS (st_reqid st) (snmp_clone_pdu p), 1, Some 0)
        else (SynchState 0 STAT_ERROR (st_reqid st) (st_pdu st), 0, Some SNMPERR_PROTOCOL)
    | _, _ =>
        if op =? NETSNMP_CALLBACK_OP_TIMED_OUT then
          (SynchState 0 STAT_TIMEOUT (st_reqid st) None, 1, Some SNMPERR_TIMEOUT)
        else if op =? NETSNMP_CALLBACK_OP_DISCONNECT then
          (SynchState 0 STAT_ERROR (st_reqid st) None, 1, Some SNMPERR_ABORT)
        else (SynchState 0 (st_status st) (st_reqid st) (st_pdu st), 1, None)
    end.

(** The session's surroundings while [state->reqid] is [id]: a call of [self] returns
    what snmp_synch_input returns and sends nothing.  (The result for a timeout is not
    looked at.) *)
Definition synch_env (id : Z) : env :=
  Env (gettimeofday E) (malloc_ok E) (f_send E) (transport_msgMaxSize E) (transport_tunneled E)
    (λ cb op got h,
       if bool_decide (cb = self) then
         ((snmp_synch_input op (match got with Some p => rp_reqid p | None => id end) got (SynchState 1 0 id None)).1.2, [])
       else on_callback E cb op got h)
    (hook_build E) (hook_pre E) (hook_parse E) (hook_post E)
    (create_user_from_session E) (v3_build E) (v3_parse E) (v3_fields E)
    (realloc E) (reverse_encode E) (ids_16bit E) (uninit_packet E) (uninit_objid E) (uninit_community E) (authenticator E).

(** The calls of [self] in a part of the history. *)
Fixpoint replay (st : synch_state) (errno : option Z) (h : list event) : synch_state * option Z :=
  match h with
  | [] => (st, errno)
  | ECallback cb op id got _ :: h =>
      if bool_decide (cb = self) then
        let '(st, _, e) := snmp_synch_input op id got st in
        replay st (match e with Some e => Some e | None => errno end) h
      else replay st errno h
  | _ :: h => replay st errno h
  end.

(** What [self] wrote while the session went from [s] to [s']. *)
Definition observe (s s' : slist) (st : synch_state) : slist * synch_state :=
  let '(st, errno) := replay st None (drop (length (history (ctx s))) (history (ctx s'))) in
  (match errno with Some e => SList (lst s') (set_errno (ctx s') e) | None => s' end, st).

(** [_sess_process_packet] without [handled]; a list longer than [fuel] is not walked. *)
Definition process_packet (id : Z) (fuel : nat) (s : slist) (buf : list Z) (pos : nat) (len : Z) : M (slist * Z) :=
  '(s, rc, _) ← _sess_process_packet (synch_env id) fuel s buf pos len; Ok (s, rc).

(** A datagram transport. *)
Definition snmp_sess_read (id : Z) (fuel : nat) (s : slist) (got : recv) : M (slist * Z) :=
  read_datagram (malloc_ok E (history (ctx s))) indeterminate (process_packet id fuel) s got empty_pkt.

(** One round of the loop. *)
Definition synch_round (id : Z) (fuel : nat) (s : slist) (st : synch_state) (i : selected) : M (slist * synch_state) :=
  '(s, _, _) ← snmp_sess_select_info2 (synch_env id) fuel s (TV 0 0) true;
  match i with
  | Readable got => '(s', _) ← snmp_sess_read id fuel s got; Ok (observe s s' st)
  | NoneReady => s' ← snmp_sess_timeout (synch_env id) fuel s; Ok (observe s s' st)
  | Interrupted => Ok (s, st)
  | SelectFailed => Ok (s, SynchState 0 STAT_ERROR (st_reqid st) (st_pdu st))
  end.

Fixpoint synch_loop (id : Z) (fuel : nat) (s : slist) (st : synch_state) (ins : list selected)
    : M (slist * synch_state) :=
  if st_waiting st =? 0 then Ok (s, st)
  else
    match ins with
    | [] => Ok (s, st)
    | i :: ins => '(s, st) ← synch_round id fuel s st i; synch_loop id fuel s st ins
    end.

Definition set_callback (s : slist) (cb : option callback) : slist :=
  let se := the_sess (ctx s) in
  SList (lst s) (set_sess (ctx s) (Sess (se_base se) (se_retries se) (se_timeout se) (se_flags se) cb
    (se_sndMsgMaxSize se) (se_errno se) (se_securityEngineID se) (se_contextEngineID se))).

(** The session, [*response] and the result; [None] while it is waiting. *)
Definition snmp_sess_synch_response (fuel : nat) (s : slist) (pdu : spdu) (ins : list selected)
    : M (option (slist * option rpdu * Z)) :=
  let cbsav := se_callback (the_sess (ctx s)) in
  '(s, reqid) ← _sess_async_send (synch_env 0) (set_callback s (Some self)) pdu None;
  let st := if reqid =? 0 then SynchState 0 STAT_ERROR 0 None else SynchState 1 0 reqid None in
  '(s, st) ← synch_loop reqid fuel s st ins;
  Ok (if st_waiting st =? 0 then Some (set_callback s cbsav, st_pdu st, st_status st) else None).
End Synch.

(** ** A request on its own *)

Section Waiting.
Context (E : env) (snmp_clone_pdu : rpdu → option rpdu) (self : callback) (indeterminate : Z) (empty_pkt : bool).
Hypothesis plain_session : plain E.
Context (id t : Z) (pkt : list Z) (fuel : nat).

Notation E' := (synch_env E snmp_clone_pdu self id).
Notation read := (snmp_sess_read E snmp_clone_pdu self indeterminate empty_pkt id fuel).
Notation process := (_sess_process_packet E' fuel).
Notation round := (synch_round E snmp_clone_pdu self indeterminate empty_pkt id fuel).

Lemma plain_synch : plain E'.
Proof. destruct plain_session. by split. Qed.

(** What the loop does not change. *)
Definition conf (c : sctx) : session * Z * option callback :=
  (se_base (the_sess c), se_retries (the_sess c), se_callback (the_sess c)).

(** A request that expires [t] microseconds after some earlier reading of the clock. *)
Definition timed (t : Z) (c : sctx) (r : request) : Prop :=
  timeout r = t ∧ ∃ n, (n < clock c)%nat ∧ expire r = expires (gettimeofday E n) t.

(** [r] is the request [id], and [pkt] its packet. *)
Record pending (c : sctx) (r : request) : Prop := {
  pd_id : request_id r = id;
  pd_reqid : reqid (m_pdu (sp_msg (rq_pdu r))) = id;
  pd_callback : rq_callback r = None;
  pd_retries : 0 ≤ retries r;
  pd_timed : timed t c r;
  pd_sendable : sendable E (se_base (the_sess c)) (msg_of r) pkt;
}.

Lemma pending_later c c' r :
  pending c r → (clock c ≤ clock c')%nat → se_base (the_sess c') = se_base (the_sess c) → pending c' r.
Proof.
  intros [H1 H2 H3 H4 (H5 & n & Hn & H6) H7] Hle Hb. split; try done; [|by rewrite Hb]. split; [done|]. exists n. split; [lia|done].
Qed.

(** It is the only one outstanding, and was repeated at most [k] times. *)
Definition waits (cf : session * Z * option callback) (k : Z) (s : slist) : Prop :=
  conf (ctx s) = cf ∧ ∃ r, represents s [r] ∧ pending (ctx s) r ∧ retries r ≤ k.

Hypothesis fuel_pos : (0 < fuel)%nat.

Lemma represents_one s r : represents s [r] → ∃ a, rep ∅ (lst s) [(a, r)].
Proof. intros (l & H & E0). destruct l as [|[a x] [|? ?]]; [done| |done]. injection E0 as ->. by exists a. Qed.

Lemma select_waits cf k s :
  waits cf k s →
  ∃ w b, snmp_sess_select_info2 E' fuel s (TV 0 0) true = Ok (SList (lst s) (tick (ctx s)), w, b) ∧
    waits cf k (SList (lst s) (tick (ctx s))).
Proof.
  intros [Hc (r & Hr & Hp & Hk)]. destruct (represents_one s r Hr) as (a & Ha).
  unfold snmp_sess_select_info2. rewrite (rep_first _ _ _ Ha). cbn [head fmap list_fmap fst].
  destruct fuel as [|f]; [lia|]. cbn [earliest_loop]. rewrite (load_rep _ _ [] _ _ [] Ha). m_step.
  cbn [next_request set_next head fmap list_fmap]. destruct f; cbn [earliest_loop]; m_step; cbn [orb];
    do 2 eexists; (split; [reflexivity|]); (split; [exact Hc|]); exists r; (split; [done|]);
    (split; [|done]); (eapply pending_later; [exact Hp| |done]); cbn [clock tick ctx]; lia.
Qed.

(** ** Packets *)

(** A response to somebody else, or something that cannot be parsed. *)
Definition stray (b : session) (d : list Z) : Prop :=
  d ≠ [] ∧ zlen d ≤ RXBUF_LEN ∧
  ((∃ m bs, d = ber_message m bs ∧ message_ok m ∧ pdu_exact (m_pdu m) bs ∧
      command (m_pdu m) = SNMP_MSG_RESPONSE ∧ accepts b m ∧ reqid (m_pdu m) ≠ id) ∨
   (∀ c post, ∃ e e', parse_packet E c (d ++ post) 0 (zlen d)
      (if transport_tunneled E then UCD_MSG_FLAG_TUNNELED else 0) = Ok (Fail e, e'))).

Lemma packet_size d : zlen d ≤ RXBUF_LEN → zlen d < 2 ^ 31.
Proof. unfold RXBUF_LEN. lia. Qed.

Lemma process_queue s q buf pos len q' c' rc h :
  represents s q → q_process_packet E' fuel q (ctx s) buf pos len = Ok (q', c', (rc, h)) →
  ∃ s', process s buf pos len = Ok (s', rc, h) ∧ represents s' q' ∧ ctx s' = c'.
Proof.
  intros Hr Hq. pose proof (process_packet_follows E' fuel s q buf pos len Hr) as HF. rewrite Hq in HF.
  destruct HF as ([[s' rc'] h'] & Hs & Hc & [= -> ->] & Hr'). by exists s'.
Qed.

Lemma response_packet cf s r m bs post :
  conf (ctx s) = cf → message_ok m → pdu_exact (m_pdu m) bs → command (m_pdu m) = SNMP_MSG_RESPONSE →
  accepts cf.1.1 m → zlen (ber_message m bs) ≤ RXBUF_LEN →
  q_process_packet E' fuel [r] (ctx s) (ber_message m bs ++ post) 0 (zlen (ber_message m bs))
  = ('(q, c, handled) ← q_match E' fuel [] [r] (set_errno (ctx s) 0) (delivered E m bs) false;
     Ok (q, c, (0, handled))).
Proof.
  intros <- Hm Hpdu HR Ha Hlen.
  pose proof (process_packet_response E' fuel s [r] m bs [] post (zlen (ber_message m bs)) plain_synch
    Hm Hpdu HR Ha ltac:(split; [lia|by apply packet_size])) as H.
  cbn [app length] in H. exact H.
Qed.

Lemma stray_processed cf k s d post :
  waits cf k s → stray cf.1.1 d →
  ∃ s' rc h, process s (d ++ post) 0 (zlen d) = Ok (s', rc, h) ∧ waits cf k s' ∧ history (ctx s') = history (ctx s).
Proof.
  intros [Hc (r & Hr & Hp & Hk)] (Hne & Hlen & Hd). pose proof (pd_id _ _ Hp) as Hid.
  assert (∃ rc h e, q_process_packet E' fuel [r] (ctx s) (d ++ post) 0 (zlen d)
    = Ok ([r], set_errno (ctx s) e, (rc, h))) as (rc & h & e & Hq).
  { destruct Hd as [(m & bs & -> & Hm & Hpdu & HR & Ha & Hne')|Hd].
    - exists 0, false, 0. rewrite (response_packet cf) by done.
      rewrite q_match_none; [done| |constructor; [|constructor]|cbn; lia].
      + by destruct Hm as ([Hx | Hx] & _); cbn; rewrite Hx.
      + cbn [delivered rp_reqid]. congruence.
    - destruct (Hd (ctx s) post) as (e & e' & He). exists (-1), false, e'. unfold q_process_packet.
      pose proof plain_synch as HP. rewrite (pl_pre _ HP), (pl_memory _ HP) by (unfold SIZEOF_PDU; lia). cbn [negb].
      change (parse_packet E' (ctx s)) with (parse_packet E (ctx s)). change (transport_tunneled E') with (transport_tunneled E).
      rewrite He. m_step. done. }
  destruct (process_queue s [r] _ _ _ _ _ _ _ Hr Hq) as (s' & Hs & Hr' & Hc'). exists s', rc, h. split; [done|].
  rewrite Hc'. split; [|done]. split; [by rewrite Hc'|]. exists r. split; [done|].
  split; [|done]. rewrite Hc'. by apply (pending_later (ctx s)).
Qed.

Lemma answer_processed cf k s m bs post :
  waits cf k s → cf.2 = Some self →
  message_ok m → pdu_exact (m_pdu m) bs → command (m_pdu m) = SNMP_MSG_RESPONSE → accepts cf.1.1 m →
  zlen (ber_message m bs) ≤ RXBUF_LEN → reqid (m_pdu m) = id →
  ∃ s', process s (ber_message m bs ++ post) 0 (zlen (ber_message m bs)) = Ok (s', 0, true) ∧ represents s' [] ∧
    conf (ctx s') = cf ∧
    history (ctx s') = history (ctx s) ++ [ECallback self NETSNMP_CALLBACK_OP_RECEIVED_MESSAGE id (Some (delivered E m bs)) 1; EFreed id].
Proof.
  intros [Hc (r & Hr & [Hid Hreq Hcb _ _ _] & Hk)] Hself Hm Hpdu HR Ha Hlen Hmid.
  assert (q_process_packet E' fuel [r] (ctx s) (ber_message m bs ++ post) 0 (zlen (ber_message m bs))
    = Ok ([], add_event (add_event (set_errno (ctx s) 0)
            (ECallback self NETSNMP_CALLBACK_OP_RECEIVED_MESSAGE id (Some (delivered E m bs)) 1)) (EFreed id), (0, true))) as Hq.
  { rewrite (response_packet cf) by done.
    rewrite (q_match_found E' fuel [] [] r [] _ _ self [] (add_event (set_errno (ctx s) 0)
       (ECallback self NETSNMP_CALLBACK_OP_RECEIVED_MESSAGE id (Some (delivered E m bs)) 1))); [by rewrite Hid|..].
    - by destruct Hm as ([Hx | Hx] & _); cbn; rewrite Hx.
    - by cbn; rewrite HR.
    - constructor.
    - cbn [delivered rp_reqid]. congruence.
    - unfold callback_for. rewrite Hcb. subst cf. exact Hself.
    - unfold q_call. cbn [delivered rp_reqid on_callback synch_env]. rewrite bool_decide_true by done.
      unfold snmp_synch_input. cbn [rp_command delivered rp_reqid st_reqid]. rewrite Hmid, Z.eqb_refl, HR. done.
    - cbn. lia. }
  destruct (process_queue s [r] _ _ _ _ _ _ _ Hr Hq) as (s' & Hs & Hr' & Hc'). exists s'. split; [done|]. split; [done|].
  rewrite Hc'. split; [done|]. cbn. by rewrite <- app_assoc.
Qed.

(** ** Rounds *)

Lemma read_data s d :
  d ≠ [] → zlen d ≤ RXBUF_LEN →
  ∃ post, read s (RData d) = ('(s, rc, _) ← process s (d ++ post) 0 (zlen d); Ok (s, rc)).
Proof.
  intros Hd Hlen. unfold snmp_sess_read, read_datagram.
  rewrite (pl_memory E plain_session (history (ctx s)) RXBUF_LEN) by (unfold RXBUF_LEN; lia).
  destruct d as [|x d]; [done|]. rewrite wr_list_front.
  - m_step. eexists. reflexivity.
  - unfold blank_bytes, zlen in *. rewrite length_replicate. unfold RXBUF_LEN in *. lia.
Qed.

(** Nothing was reported to [self]. *)
Lemma observe_silent s s' h st :
  history (ctx s') = history (ctx s) ++ h → (∀ st e, replay snmp_clone_pdu self st e h = (st, e)) →
  observe snmp_clone_pdu self s s' st = (s', st).
Proof. intros Hh Hr. unfold observe. by rewrite Hh, drop_app_length, Hr. Qed.

Lemma round_data cf k s st d :
  waits cf k s → stray cf.1.1 d →
  ∃ s', round s st (Readable (RData d)) = Ok (s', st) ∧ waits cf k s'.
Proof.
  intros Hw Hd. destruct (select_waits cf k s Hw) as (w & b & Hs & Hw').
  unfold synch_round. rewrite Hs. m_step. set (s1 := SList _ _) in *.
  destruct (read_data s1 d) as (post & ->); [apply Hd..|].
  destruct (stray_processed cf k s1 d post Hw' Hd) as (s' & rc & h & -> & Hw2 & Hh). m_step.
  exists s'. rewrite (observe_silent s1 s' []); [done|by rewrite app_nil_r|done].
Qed.

Lemma round_nothing cf k s st i :
  waits cf k s → i = Interrupted ∨ i = Readable RError → ∃ s', round s st i = Ok (s', st) ∧ waits cf k s'.
Proof.
  intros Hw Hi. destruct (select_waits cf k s Hw) as (w & b & Hs & Hw').
  unfold synch_round. rewrite Hs. m_step. eexists. split; [|exact Hw'].
  destruct Hi as [-> | ->]; [done|]. unfold snmp_sess_read, read_datagram.
  destruct (malloc_ok E _ _); m_step; (rewrite (observe_silent _ _ []); [done|by rewrite app_nil_r|done]).
Qed.

Lemma round_answer cf k s m bs :
  waits cf k s → cf.2 = Some self →
  message_ok m → pdu_exact (m_pdu m) bs → command (m_pdu m) = SNMP_MSG_RESPONSE → accepts cf.1.1 m →
  zlen (ber_message m bs) ≤ RXBUF_LEN → reqid (m_pdu m) = id →
  ∃ s', round s (SynchState 1 0 id None) (Readable (RData (ber_message m bs)))
      = Ok (s', SynchState 0 STAT_SUCCESS id (snmp_clone_pdu (delivered E m bs))) ∧
    represents s' [] ∧ conf (ctx s') = cf.
Proof.
  intros Hw Hself Hm Hpdu HR Ha Hlen Hid. destruct (select_waits cf k s Hw) as (w & b & Hs & Hw').
  unfold synch_round. rewrite Hs. m_step. set (s1 := SList _ _) in *.
  destruct (read_data s1 (ber_message m bs)) as (post & ->); [done..|].
  destruct (answer_processed cf k s1 m bs post Hw' Hself Hm Hpdu HR Ha Hlen Hid) as (s' & -> & Hr & Hc & Hh). m_step.
  eexists. split; [|split].
  - unfold observe. rewrite Hh, drop_app_length. cbn [replay]. rewrite bool_decide_true by done.
    unfold snmp_synch_input. cbn [rp_command delivered rp_reqid st_reqid]. rewrite Z.eqb_refl, HR. reflexivity.
  - destruct Hr as (l & ? & ?). by exists l.
  - done.
Qed.

(** ** Timeouts *)

Section Timeouts.
Hypothesis encoder : own_encoder E.

(** One more attempt. *)
Lemma resend_pending s r :
  pending (ctx s) r → retries r < 2 ^ 31 - 1 →
  ∃ c' r' rc, resend E' (tick (ctx s)) r true = Ok (c', r', rc) ∧ history c' = history (ctx s) ++ [ESent pkt] ∧
    conf c' = conf (ctx s) ∧ pending c' r' ∧ retries r' = retries r + 1.
Proof.
  intros [Hid Hreq Hcb H0 (Ht & n & Hn & Hx) Hp] HR. unfold resend.
  change (malloc_ok E') with (malloc_ok E). rewrite (pl_memory E plain_session) by lia. cbn [negb].
  destruct (get_next_id _ _) as [i ctr]. rewrite s32_id by lia. cbn [rq_pdu set_retry].
  change (build_packet E') with (build_packet E). rewrite (sendable_built E _ _ pkt) by done. m_step.
  destruct (_ <? 0); do 3 eexists; (split; [reflexivity|]); (do 2 (split; [done|])); (split; [|done]);
    (split; [done..|by cbn; lia| |done]); (split; [done|]).
  - exists n. split; [cbn; lia|exact Hx].
  - subst t. eexists. split; [|reflexivity]. cbn. lia.
Qed.

Lemma timeout_queue s q q' c' :
  represents s q → q_sess_timeout E' fuel q (ctx s) = Ok (q', c') →
  ∃ s', snmp_sess_timeout E' fuel s = Ok s' ∧ represents s' q' ∧ ctx s' = c'.
Proof.
  intros Hr Hq. pose proof (sess_timeout_follows E' fuel s q Hr) as HF. rewrite Hq in HF.
  destruct HF as (s' & Hs & Hc & Hr'). by exists s'.
Qed.

Lemma q_timeout_end f pre c now : q_timeout E' f pre [] c now = Ok (pre, c).
Proof. by destruct f. Qed.

Lemma timeout_pending s r :
  represents s [r] → pending (ctx s) r → retries r < se_retries (the_sess (ctx s)) < 2 ^ 31 - 1 →
  ∃ s' r' h, snmp_sess_timeout E' fuel s = Ok s' ∧ represents s' [r'] ∧ pending (ctx s') r' ∧
    conf (ctx s') = conf (ctx s) ∧ history (ctx s') = history (ctx s) ++ h ∧
    (∀ st e, replay snmp_clone_pdu self st e h = (st, e)) ∧
    if timer_lt (expire r) (gettimeofday E (clock (ctx s)))
    then h = [ESent pkt] ∧ retries r' = retries r + 1 else h = [] ∧ retries r' = retries r.
Proof.
  intros Hr Hp HR. pose proof (timeout_queue s [r]) as HQ. unfold q_sess_timeout in HQ.
  assert (∃ f, fuel = S f) as [f Hf] by (destruct fuel as [|f]; [lia|by exists f]).
  rewrite Hf in HQ. cbn [q_timeout] in HQ. rewrite <- Hf in HQ.
  change (gettimeofday E') with (gettimeofday E) in HQ.
  change (se_retries (the_sess (tick (ctx s)))) with (se_retries (the_sess (ctx s))) in HQ.
  destruct (timer_lt (expire r) (gettimeofday E (clock (ctx s)))).
  - rewrite (proj2 (Z.leb_gt _ _)) in HQ by lia.
    destruct (resend_pending s r Hp) as (c' & r' & rc & He & Hh & Hc & Hp' & Hn); [lia|].
    rewrite He in HQ. cbn [mbind M_bind app] in HQ.
    assert (∃ s', snmp_sess_timeout E' fuel s = Ok s' ∧ represents s' [r'] ∧ ctx s' = c') as (s' & E1 & E2 & <-).
    { destruct (negb (rc =? 0)); [|rewrite q_timeout_end in HQ]; by apply HQ. }
    by exists s', r', [ESent pkt].
  - rewrite q_timeout_end in HQ. destruct (HQ _ _ Hr eq_refl) as (s' & E1 & E2 & E3).
    exists s', r, []. rewrite E3, app_nil_r. do 2 (split; [done|]).
    split; [eapply pending_later; [exact Hp| |done]; cbn; lia|done].
Qed.

Lemma round_timeout cf k s st :
  waits cf k s → k < cf.1.2 < 2 ^ 31 - 1 →
  ∃ s', round s st NoneReady = Ok (s', st) ∧ waits cf (k + 1) s'.
Proof.
  intros Hw HR. destruct (select_waits cf k s Hw) as (w & b & Hs & Hw').
  unfold synch_round. rewrite Hs. m_step. destruct Hw' as [<- (r & Hr & Hp & Hk)].
  destruct (timeout_pending _ r Hr Hp) as (s' & r' & h & -> & Hr' & Hp' & Hc & Hh & Hs' & Hn);
    [unfold conf in HR; cbn in HR |- *; lia|]. m_step.
  exists s'. rewrite (observe_silent _ s' h) by done. split; [done|]. split; [done|]. exists r'. do 2 (split; [done|]).
  destruct (timer_lt _ _); destruct Hn as [_ ->]; lia.
Qed.

(** The last attempt has expired. *)
Lemma timeout_gives_up s r :
  represents s [r] → pending (ctx s) r → se_retries (the_sess (ctx s)) ≤ retries r →
  se_callback (the_sess (ctx s)) = Some self →
  timer_lt (expire r) (gettimeofday E (clock (ctx s))) = true →
  ∃ s' ret, snmp_sess_timeout E' fuel s = Ok s' ∧ represents s' [] ∧ conf (ctx s') = conf (ctx s) ∧
    history (ctx s') = history (ctx s) ++ [ECallback self NETSNMP_CALLBACK_OP_TIMED_OUT id None ret; EFreed id].
Proof.
  intros Hr [Hid Hreq Hcb _ _ _] HR Hself Hx. pose proof (timeout_queue s [r]) as HQ. unfold q_sess_timeout in HQ.
  assert (∃ f, fuel = S f) as [f Hf] by (destruct fuel as [|f]; [lia|by exists f]).
  rewrite Hf in HQ. cbn [q_timeout] in HQ. rewrite <- Hf in HQ.
  change (gettimeofday E') with (gettimeofday E) in HQ. rewrite Hx in HQ.
  change (se_retries (the_sess (tick (ctx s)))) with (se_retries (the_sess (ctx s))) in HQ.
  rewrite (proj2 (Z.leb_le _ _)) in HQ by lia.
  unfold q_last_word, callback_for in HQ. rewrite Hcb in HQ.
  change (se_callback (the_sess (tick (ctx s)))) with (se_callback (the_sess (ctx s))) in HQ. rewrite Hself in HQ.
  unfold q_call in HQ. cbn [on_callback synch_env] in HQ. rewrite bool_decide_true in HQ by done.
  cbn [q_send_all mbind M_bind app] in HQ. rewrite q_timeout_end, Hid, Hreq in HQ.
  destruct (HQ _ _ Hr eq_refl) as (s' & E1 & E2 & E3). exists s'. eexists. split; [done|]. split; [done|].
  rewrite E3. split; [done|]. cbn. by rewrite <- app_assoc.
Qed.

Lemma round_gives_up cf s r :
  conf (ctx s) = cf → represents s [r] → pending (ctx s) r → cf.1.2 ≤ retries r → cf.2 = Some self →
  timer_lt (expire r) (gettimeofday E (S (clock (ctx s)))) = true →
  ∃ s', round s (SynchState 1 0 id None) NoneReady = Ok (s', SynchState 0 STAT_TIMEOUT id None) ∧
    represents s' [] ∧ conf (ctx s') = cf ∧ sent (history (ctx s')) = sent (history (ctx s)).
Proof.
  intros <- Hr Hp HR Hself Hx.
  destruct (select_waits (conf (ctx s)) (retries r) s) as (w & b & Hs & _); [by split; [|exists r]|].
  unfold synch_round. rewrite Hs. m_step. set (s1 := SList _ _).
  destruct (timeout_gives_up s1 r) as (s' & ret & -> & Hr' & Hc & Hh); [done| |done|done|done|].
  { apply (pending_later (ctx s)); [done|cbn; lia|done]. }
  m_step. eexists. split; [|split; [|split]].
  - unfold observe. rewrite Hh, drop_app_length. cbn [replay]. rewrite bool_decide_true by done.
    unfold snmp_synch_input. cbn [st_reqid]. rewrite Z.eqb_refl. reflexivity.
  - destruct Hr' as (l & ? & ?). by exists l.
  - done.
  - cbn [ctx set_errno set_sess history]. rewrite Hh. unfold sent. rewrite omap_app. cbn. by rewrite app_nil_r.
Qed.

(** What may come before the answer, with at most [k] timeouts. *)
Inductive delays (b : session) : Z → list selected → Prop :=
| delays_nil k : delays b k []
| delays_nothing k i l : i = Interrupted ∨ i = Readable RError → delays b k l → delays b k (i :: l)
| delays_stray k d l : stray b d → delays b k l → delays b k (Readable (RData d) :: l)
| delays_timeout k l : 0 < k → delays b (k - 1) l → delays b k (NoneReady :: l).

Notation loop := (synch_loop E snmp_clone_pdu self indeterminate empty_pkt id fuel).

Lemma loop_delayed cf k j s noise ins :
  delays cf.1.1 k noise → waits cf j s → j + k ≤ cf.1.2 < 2 ^ 31 - 1 →
  ∃ s' j', loop s (SynchState 1 0 id None) (noise ++ ins) = loop s' (SynchState 1 0 id None) ins ∧ waits cf j' s'.
Proof.
  intros Hn. revert j s. induction Hn as [k|k i l Hi Hn IH|k d l Hd Hn IH|k l Hk Hn IH]; intros j s Hw HR.
  { by exists s, j. }
  - destruct (round_nothing cf j s (SynchState 1 0 id None) i Hw Hi) as (s1 & Hs & Hw1).
    cbn [app synch_loop st_waiting]. rewrite Hs. m_step. by apply (IH j).
  - destruct (round_data cf j s (SynchState 1 0 id None) d Hw Hd) as (s1 & Hs & Hw1).
    cbn [app synch_loop st_waiting]. rewrite Hs. m_step. by apply (IH j).
  - destruct (round_timeout cf j s (SynchState 1 0 id None) Hw) as (s1 & Hs & Hw1); [lia|].
    cbn [app synch_loop st_waiting]. rewrite Hs. m_step. apply (IH (j + 1)); [done|lia].
Qed.

(** The clock is beyond every expiry when it is read again after the select. *)
Definition slept : Prop :=
  ∀ n m, (n < m)%nat → timer_lt (expires (gettimeofday E n) t) (gettimeofday E (S m)) = true.

Lemma loop_gives_up cf n s r ins :
  slept → conf (ctx s) = cf → represents s [r] → pending (ctx s) r → cf.2 = Some self →
  cf.1.2 < 2 ^ 31 - 1 → (Z.to_nat (cf.1.2 - retries r) < n)%nat →
  ∃ s', loop s (SynchState 1 0 id None) (replicate n NoneReady ++ ins) = Ok (s', SynchState 0 STAT_TIMEOUT id None) ∧
    represents s' [] ∧ conf (ctx s') = cf ∧
    sent (history (ctx s')) = sent (history (ctx s)) ++ replicate (Z.to_nat (cf.1.2 - retries r)) pkt.
Proof.
  intros Hsl Hc Hr Hp Hself HR. revert s r Hc Hr Hp. induction n as [|n IH]; intros s r Hc Hr Hp Hn; [lia|].
  assert (timer_lt (expire r) (gettimeofday E (S (clock (ctx s)))) = true) as Hx.
  { destruct Hp as [_ _ _ _ (_ & m & Hm & ->) _]. by apply Hsl. }
  cbn [replicate app synch_loop st_waiting].
  destruct (Z.leb_spec cf.1.2 (retries r)).
  - destruct (round_gives_up cf s r Hc Hr Hp) as (s' & Hs & Hr' & Hc' & Hsent); [done..|].
    exists s'. split; [rewrite Hs; m_step; by destruct n, ins|]. do 2 (split; [done|]).
    replace (Z.to_nat (cf.1.2 - retries r)) with 0%nat by lia. by rewrite app_nil_r.
  - destruct (select_waits cf (retries r) s) as (w & b & Hs & _); [by split; [|exists r]|].
    unfold synch_round. rewrite Hs. m_step.
    destruct (timeout_pending (SList (lst s) (tick (ctx s))) r) as (s' & r' & h & Ht & Hr' & Hp' & Hc' & Hh & Hs' & Hn').
    { done. }
    { apply (pending_later (ctx s)); [done|cbn; lia|done]. }
    { rewrite <- Hc in *. cbn in *. lia. }
    change (clock (ctx (SList _ _))) with (S (clock (ctx s))) in Hn'. rewrite Hx in Hn'.
    rewrite Ht. m_step. rewrite (observe_silent _ s' h) by done. destruct Hn' as [-> Hn'].
    destruct (IH s' r') as (s2 & H1 & H2 & H3 & H4); [by rewrite Hc'|done|done|lia|].
    exists s2. do 3 (split; [done|]). rewrite H4, Hh, Hn'. cbn [ctx tick history]. unfold sent. rewrite omap_app. cbn.
    replace (Z.to_nat (cf.1.2 - retries r)) with (S (Z.to_nat (cf.1.2 - (retries r + 1)))) by lia. by rewrite <- app_assoc.
Qed.
End Timeouts.
End Waiting.

(** ** The whole call *)

Section Call.
Context (E : env) (snmp_clone_pdu : rpdu → option rpdu) (self : callback) (indeterminate : Z) (empty_pkt : bool).
Hypothesis plain_session : plain E.
Hypothesis encoder : own_encoder E.

Notation E0 := (synch_env E snmp_clone_pdu self 0).

Lemma transmit_keeps c p c' sent : transmit E0 c p = Ok (c', sent) → conf c' = conf c ∧ clock c' = clock c.
Proof.
  unfold transmit. destruct (negb _); [by intros [= <- _]|].
  destruct (build_packet E0 c p) as [[[pkt p']|e]| |]; [..|done|done]; m_step; [|by intros [= <- _]].
  destruct (_ || _); [by intros [= <- _]|]. by destruct (_ <? 0); intros [= <- _].
Qed.

Lemma sent_pending c pdu c1 r id pkt :
  send_pdu E0 c pdu None = Ok (c1, Some r, id) → sendable E (se_base (the_sess c)) (msg_of r) pkt →
  pending E id (timeout r) pkt c1 r ∧ retries r = 0 ∧ conf c1 = conf c.
Proof.
  intros Hs Hpk. revert Hs. unfold send_pdu. destruct (check_version _ _) as [m|]; [|done].
  destruct (needs_probe _ _); [done|]. unfold send_checked. destruct (negb _); [done|].
  destruct (transmit E0 _ _) as [[c2 [p2|]]| |] eqn:Et; [..|done|done]; m_step; [|done].
  apply transmit_keeps in Et as [Et1 Et2]. destruct (flag_set _ _) eqn:Ef; [|done]. destruct (negb _); [done|].
  intros [= <- <- <-]. split; [|split; [done|exact Et1]].
  split; try done.
  - split; [done|]. eexists. split; [|reflexivity]. cbn. lia.
  - cbn [the_sess add_event tick]. injection Et1 as -> _ _. exact Hpk.
Qed.

Context (fuel : nat).
Hypothesis fuel_pos : (0 < fuel)%nat.
Notation synch_response := (snmp_sess_synch_response E snmp_clone_pdu self indeterminate empty_pkt fuel).

(** The state in which the loop starts. *)
Lemma response_starts s pdu c1 r id ins :
  represents s [] → send_pdu E0 (ctx (set_callback s (Some self))) pdu None = Ok (c1, Some r, id) → id ≠ 0 →
  ∃ s1, ctx s1 = c1 ∧ represents s1 [r] ∧
    synch_response s pdu ins
    = ('(s2, st) ← synch_loop E snmp_clone_pdu self indeterminate empty_pkt id fuel s1 (SynchState 1 0 id None) ins;
       Ok (if st_waiting st =? 0
           then Some (set_callback s2 (se_callback (the_sess (ctx s))), st_pdu st, st_status st) else None)).
Proof.
  intros Hr Hs Hid. assert (represents (set_callback s (Some self)) []) as Hr'.
  { destruct Hr as (l & ? & ?). by exists l. }
  pose proof (async_send_follows E0 _ [] pdu None Hr') as HF. unfold q_async_send in HF. rewrite Hs in HF.
  destruct HF as ([s1 id'] & H1 & H2 & H3 & H4). cbn [fst snd] in H2, H3, H4. exists s1. split; [done|]. split; [done|].
  unfold snmp_sess_synch_response. rewrite H1. m_step. cbn in H3. subst id'.
  by rewrite (proj2 (Z.eqb_neq id 0)) by done.
Qed.


End Call.

(** ** Samples *)

Definition sample_self : callback := (1%nat, 7).

Definition sample_send : sctx * request := Eval vm_compute in
  match send_pdu (synch_env sample_env Some sample_self 0) (ctx (set_callback sample_start (Some sample_self)))
          sample_spdu None with
  | Ok (c, Some r, _) => (c, r)
  | _ => (ctx sample_start, Request None 0 0 None 0 0 (TV 0 0) (TV 0 0) sample_spdu)
  end.

Lemma sample_was_sent :
  send_pdu (synch_env sample_env Some sample_self 0) (ctx (set_callback sample_start (Some sample_self)))
    sample_spdu None = Ok (sample_send.1, Some sample_send.2, 77).
Proof. by vm_compute. Qed.

Lemma sample_idle : represents sample_start [].
Proof.
  exists []. split; [|done]. split; simpl; try done; [constructor|].
  intros a [x Hx]. by rewrite lookup_empty in Hx.
Qed.

Lemma sample_send_sendable :
  sendable sample_env sample_session (msg_of sample_send.2) (ber_message sample_sent [sample_binding]).
Proof.
  exists [sample_binding]. split; [split; [by right|done]|]. split; [apply (bool_decide_unpack _); by vm_compute|].
  split; [constructor; [apply sample_rholds|constructor]|]. done.
Qed.

Lemma sample_plain : plain sample_env.
Proof. split; try done; intros ? ? ?; done. Qed.

(** The response to another request. *)
Definition sample_other : message :=
  Message SNMP_VERSION_2c (Some [112; 117; 98; 108; 105; 99]) 6 0
    (NetsnmpPdu SNMP_MSG_RESPONSE 78 0 0 [] 0 [0; 0; 0; 0] 0 0 0 [sample_var]).

Lemma sample_other_ok : message_ok sample_other ∧ pdu_exact (m_pdu sample_other) [sample_binding].
Proof.
  split; [split_and!; [by right|done|done]|]. destruct sample_response_ok as [_ (H1 & H2 & H3 & H4 & H5)].
  by split_and!.
Qed.



(** Without memory for the copy the call succeeds and there is no response. *)
Example success_without_response :
  ∃ s', snmp_sess_synch_response sample_env (λ _, None) sample_self 0 false 1 sample_start sample_spdu
      [Readable (RData (ber_message sample_response [sample_binding]))] = Ok (Some (s', None, STAT_SUCCESS)).
Proof.
  assert (send_pdu (synch_env sample_env (λ _, None) sample_self 0) (ctx (set_callback sample_start (Some sample_self)))
    sample_spdu None = Ok (sample_send.1, Some sample_send.2, 77)) as Hs by (by vm_compute).
  destruct (response_starts sample_env (λ _, None) sample_self 0 false 1 sample_start sample_spdu _ _ 77
    [Readable (RData (ber_message sample_response [sample_binding]))] sample_idle Hs) as (s1 & Hc & Hr & ->); [done|].
  apply (sent_pending _ _ _ _ _ _ _ _ (ber_message sample_sent [sample_binding])) in Hs as (Hp & Hr0 & Hcf);
    [|apply sample_send_sendable].
  destruct (round_answer sample_env (λ _, None) sample_self 0 false sample_plain 77 (timeout sample_send.2) (ber_message sample_sent [sample_binding]) 1 ltac:(lia)
    (sample_session, 1, Some sample_self) 0 s1 sample_response [sample_binding]) as (s2 & H2 & _); try done.
  - split; [by rewrite Hc|]. exists sample_send.2. rewrite Hc, Hr0. by split_and!.
  - apply sample_response_ok.
  - apply sample_response_ok.
  - by right.
  - cbn [synch_loop st_waiting]. rewrite H2. m_step. by eexists.
Qed.
