(* ===== verification/Probe.v ===== *)
(** * Asking for an engine identifier: snmpv3_engineID_probe of snmplib/snmp_api.c

    A send on an SNMPv3 session that does not know the engine identifier of its peer first
    sends a request of its own, synchronously: snmpv3_engineID_probe builds a PDU for the
    empty user, forbids itself to be called again, and waits in snmp_sess_synch_response for
    the report from which _sess_process_packet learns the identifier.

    This file has that call and the whole of _sess_async_send with it, over Session and
    Synch.  The security model has no probe of its own (probe_engineid), as the user-based
    model has none; whether the empty user exists already, and the next request identifier,
    are arguments; the time of the engine that the session may bring along goes to LcdTime
    and is left out.  The inputs of the wait are those of Synch; [None] is a call that is
    still waiting.

    The theorem is the invariant of a session under every operation on it. *)

From S2P Require Import Prelude Ber Asn1 VarBind Pdu PduParse Asn1Rbuild Message OidCompare Client.
From S2P Require Import PduRoundtrip Session SessionQueue SessionLife Stream Synch.
From stdpp Require Import prelude numbers list gmap.
From Stdlib Require Import ZArith Lia.
Open Scope Z_scope.

Definition SEC_LEVEL_NOAUTH : Z := 1.
Definition SIZEOF_EMPTY_USER : Z := 88.

Section Probe.
Variable E : env.
Variable snmp_clone_pdu : rpdu → option rpdu.
Variable self : callback.
Variable indeterminate : Z.
Variable empty_pkt : bool.

(** snmp_pdu_create and the fields that are set; [None] is a [return -1].  The copies of
    the empty string are granted. *)
Definition snmpv3_build_probe_pdu (c : sctx) (next_reqid : Z) (user_known : bool) : sctx * option spdu :=
  if malloc_ok E (history c) SIZEOF_PDU then
    let '(msgid, ctr) := get_next_id (ids_16bit E) (Msgid c) in
    let c := set_Msgid c ctr in
    if user_known || malloc_ok E (history c) SIZEOF_EMPTY_USER then
      (c, Some (SPdu (Message SNMP_VERSION_3 None 0 0
                        (NetsnmpPdu SNMP_MSG_GET next_reqid SNMP_DEFAULT_ERRSTAT SNMP_DEFAULT_ERRINDEX [] 0
                           [0; 0; 0; 0] 0 0 0 []))
                  msgid (V3Id SNMP_SEC_MODEL_USM SEC_LEVEL_NOAUTH [] [] [] [])))
    else (c, None)
  else (c, None).

Definition set_flags (s : slist) (f : Z) : slist :=
  let se := the_sess (ctx s) in
  SList (lst s) (set_sess (ctx s) (Sess (se_base se) (se_retries se) (se_timeout se) f (se_callback se)
    (se_sndMsgMaxSize se) (se_errno se) (se_securityEngineID se) (se_contextEngineID se))).

Definition list_errno (s : slist) (e : Z) : slist := SList (lst s) (set_errno (ctx s) e).

(** What the outcome of the wait leaves in [s_snmp_errno]. *)
Definition probe_errno (s : slist) (response : option rpdu) (status : Z) : slist :=
  let status := if bool_decide (response = None) && (status =? STAT_SUCCESS) then STAT_ERROR else status in
  if status =? STAT_SUCCESS then list_errno s SNMPERR_INVALID_MSG
  else if status =? STAT_ERROR then list_errno s SNMPERR_UNKNOWN_ENG_ID
  else if status =? STAT_TIMEOUT then list_errno s SNMPERR_TIMEOUT
  else s.

(** The end of the function, on an SNMPv3 session. *)
Definition probe_user (s : slist) : slist * bool :=
  if create_user_from_session E (the_sess (ctx s)) then (s, true)
  else (list_errno s SNMPERR_UNKNOWN_USER_NAME, false).

Definition snmpv3_engineID_probe (fuel : nat) (s : slist) (next_reqid : Z) (user_known : bool) (ins : list selected)
    : M (option (slist * bool)) :=
  let se := the_sess (ctx s) in
  if flag_set (se_flags se) SNMP_FLAGS_DONT_PROBE then Ok (Some (s, true))
  else if s_version (se_base se) =? SNMP_VERSION_3 then
    if zlen (se_securityEngineID se) =? 0 then
      let '(c, pdu) := snmpv3_build_probe_pdu (ctx s) next_reqid user_known in
      match pdu with
      | None => Ok (Some (SList (lst s) c, false))
      | Some pdu =>
          let s := set_flags (SList (lst s) c) (Z.lor (se_flags se) SNMP_FLAGS_DONT_PROBE) in
          r ← snmp_sess_synch_response E snmp_clone_pdu self indeterminate empty_pkt fuel s pdu ins;
          match r with
          | None => Ok None
          | Some (s, response, status) =>
              let s := probe_errno s response status in
              if zlen (se_securityEngineID (the_sess (ctx s))) =? 0 then Ok (Some (s, false))
              else Ok (Some (probe_user (list_errno s 0)))
          end
      end
    else Ok (Some (probe_user s))
  else Ok (Some (s, true)).

(** [_sess_async_send]. *)
Definition sess_async_send (fuel : nat) (s : slist) (pdu : spdu) (cb : option callback)
    (next_reqid : Z) (user_known : bool) (ins : list selected) : M (option (slist * Z)) :=
  let s := list_errno s 0 in
  match check_version (the_sess (ctx s)) (sp_msg pdu) with
  | None => Ok (Some (list_errno s SNMPERR_BAD_VERSION, 0))
  | Some m =>
      let m := expect_flags m in
      probed ← (if needs_probe (the_sess (ctx s)) m then snmpv3_engineID_probe fuel s next_reqid user_known ins
                else Ok (Some (s, true)));
      match probed with
      | None => Ok None
      | Some (s, false) => Ok (Some (s, 0))
      | Some (s, true) =>
          '(c, node, id) ← send_checked E (ctx s) m pdu cb;
          match node with
          | None => Ok (Some (SList (lst s) c, id))
          | Some r => l ← enqueue (lst s) r; Ok (Some (SList l c, id))
          end
      end
  end.

(** Without a probe it is the function of Session. *)
Lemma sess_async_send_known fuel s pdu cb next_reqid user_known ins m :
  check_version (the_sess (ctx s)) (sp_msg pdu) = Some m → needs_probe (the_sess (ctx s)) (expect_flags m) = false →
  sess_async_send fuel s pdu cb next_reqid user_known ins
  = ('(s, id) ← _sess_async_send E s pdu cb; Ok (Some (s, id))).
Proof.
  intros Hv Hp. unfold sess_async_send, _sess_async_send, send_pdu, list_errno. cbn [ctx lst].
  change (check_version (the_sess (set_errno (ctx s) 0)) (sp_msg pdu))
    with (check_version (the_sess (ctx s)) (sp_msg pdu)). rewrite Hv.
  change (needs_probe (the_sess (set_errno (ctx s) 0)) (expect_flags m))
    with (needs_probe (the_sess (ctx s)) (expect_flags m)). rewrite Hp. m_step. cbn [ctx lst].
  destruct (send_checked E _ _ _ _) as [[[c [r|]] id]| |]; [|done..]. m_step. by destruct (enqueue _ _).
Qed.

(** The operations on a session. *)
Inductive session_step : slist → slist → Prop :=
| ss_send fuel s pdu cb next_reqid user_known ins s' id :
    sess_async_send fuel s pdu cb next_reqid user_known ins = Ok (Some (s', id)) → session_step s s'
| ss_synch fuel s pdu ins s' response status :
    snmp_sess_synch_response E snmp_clone_pdu self indeterminate empty_pkt fuel s pdu ins
      = Ok (Some (s', response, status)) → session_step s s'
| ss_packet fuel s buf pos len s' rc h :
    _sess_process_packet E fuel s buf pos len = Ok (s', rc, h) → session_step s s'
| ss_timeout fuel s s' : snmp_sess_timeout E fuel s = Ok s' → session_step s s'.

(** ** The invariant *)

Lemma sound_ctx R s c :
  sound R s → se_retries (the_sess c) = se_retries (the_sess (ctx s)) → history c = history (ctx s) →
  sound R (SList (lst s) c).
Proof.
  intros (q & Hq & [H1 H2 H3]) Hr Hh. exists q. split; [exact Hq|]. split; [by cbn; rewrite Hr|done|by cbn; rewrite Hh].
Qed.

Lemma sound_errno R s e : sound R s → sound R (list_errno s e).
Proof. intros H. by apply (sound_ctx R s). Qed.

Lemma sound_callback R s cb : sound R s → sound R (set_callback s cb).
Proof. intros H. by apply (sound_ctx R s). Qed.

Lemma sound_observe R s s' st : sound R s' → sound R (observe snmp_clone_pdu self s s' st).1.
Proof. intros H. unfold observe. destruct (replay _ _ _ _ _) as [st' [e|]]; [by apply sound_errno|done]. Qed.

Section Sound.
Context (R : Z).
Hypothesis limit : R < 2 ^ 31 - 1.

Lemma sess_read_sound id fuel s got s' rc :
  sound R s → snmp_sess_read E snmp_clone_pdu self indeterminate empty_pkt id fuel s got = Ok (s', rc) → sound R s'.
Proof.
  intros H. unfold snmp_sess_read, read_datagram.
  assert (∀ buf pos len, process_packet E snmp_clone_pdu self id fuel s buf pos len = Ok (s', rc) → sound R s') as Hp.
  { intros buf pos len. unfold process_packet.
    destruct (_sess_process_packet _ _ _ _ _ _) as [[[s1 rc1] h1]| |] eqn:Es; [|done..]. m_step. intros [= <- _].
    eapply step_sound; [done|exact H|]. by eapply step_packet. }
  destruct (malloc_ok E _ _); [|by intros [= <- _]].
  destruct got as [[|x d]| |]; [destruct empty_pkt; [by intros [= <- _]|apply Hp]| |by intros [= <- _]|
    destruct empty_pkt; [by intros [= <- _]|apply Hp]].
  destruct (wr_list _ _ _); [|done..]. m_step. apply Hp.
Qed.

Lemma round_sound id fuel s st i s' st' :
  sound R s → synch_round E snmp_clone_pdu self indeterminate empty_pkt id fuel s st i = Ok (s', st') → sound R s'.
Proof.
  intros H. unfold synch_round.
  destruct (snmp_sess_select_info2 _ _ _ _ _) as [[[s1 w] b]| |] eqn:Es; [|done..]. m_step.
  assert (sound R s1) as H1.
  { revert Es. unfold snmp_sess_select_info2. destruct (requests (lst s)); [|by intros [= <- _ _]].
    destruct (earliest_loop _ _ _ _); [|done..]. m_step. intros Es.
    assert (s1 = SList (lst s) (tick (ctx s))) as ->; [|by apply (sound_ctx R s)].
    by injection Es. }
  destruct i as [got| | |]; [| |by intros [= <- _]..].
  - destruct (snmp_sess_read _ _ _ _ _ _ _ _ _) as [[s2 rc]| |] eqn:Er; [|done..]. m_step.
    apply sess_read_sound in Er; [|done]. intros Ho. injection Ho as Ho.
    pose proof (sound_observe R s1 s2 st Er) as Hobs. by rewrite Ho in Hobs.
  - destruct (snmp_sess_timeout _ _ _) as [s2| |] eqn:Et; [|done..]. m_step. intros Ho. injection Ho as Ho.
    assert (sound R s2) as H2 by (eapply step_sound; [done|exact H1|by eapply step_timeout]).
    pose proof (sound_observe R s1 s2 st H2) as Hobs. by rewrite Ho in Hobs.
Qed.

Lemma loop_sound id fuel s st ins s' st' :
  sound R s → synch_loop E snmp_clone_pdu self indeterminate empty_pkt id fuel s st ins = Ok (s', st') → sound R s'.
Proof.
  revert s st. induction ins as [|i ins IH]; intros s st H; cbn [synch_loop]; destruct (_ =? 0); try by intros [= <- _].
  destruct (synch_round _ _ _ _ _ _ _ _ _ _) as [[s1 st1]| |] eqn:Er; [|done..]. m_step.
  apply round_sound in Er; [|done]. by apply IH.
Qed.

Lemma synch_sound fuel s pdu ins s' response status :
  sound R s → snmp_sess_synch_response E snmp_clone_pdu self indeterminate empty_pkt fuel s pdu ins
    = Ok (Some (s', response, status)) → sound R s'.
Proof.
  intros H. unfold snmp_sess_synch_response.
  destruct (_sess_async_send _ _ _ _) as [[s1 id]| |] eqn:Es; [|done..]. m_step.
  assert (sound R s1) as H1.
  { eapply step_sound; [done|by apply (sound_callback R s (Some self))|]. by eapply step_send. }
  destruct (synch_loop _ _ _ _ _ _ _ _ _ _) as [[s2 st]| |] eqn:El; [|done..]. m_step.
  apply loop_sound in El; [|done]. destruct (_ =? 0); [|done]. intros [= <- _ _]. by apply sound_callback.
Qed.

Lemma probe_sound fuel s next_reqid user_known ins s' ok :
  sound R s → snmpv3_engineID_probe fuel s next_reqid user_known ins = Ok (Some (s', ok)) → sound R s'.
Proof.
  intros H. unfold snmpv3_engineID_probe.
  assert (∀ s1, sound R s1 → ∀ s' ok, Ok (Some (probe_user s1)) = Ok (Some (s', ok)) → sound R s') as Hu.
  { intros s1 H1 s2 ok'. unfold probe_user. destruct (create_user_from_session _ _); intros [= <- _]; [done|].
    by apply sound_errno. }
  destruct (flag_set _ _); [by intros [= <- _]|]. destruct (_ =? SNMP_VERSION_3); [|by intros [= <- _]].
  destruct (_ =? 0); [|by apply Hu].
  destruct (snmpv3_build_probe_pdu _ _ _) as [c pdu] eqn:Eb.
  assert (sound R (SList (lst s) c)) as Hc.
  { apply (sound_ctx R s); [done|..]; revert Eb; unfold snmpv3_build_probe_pdu;
      destruct (malloc_ok E _ _); [|by intros [= <- _]| |by intros [= <- _]];
      destruct (get_next_id _ _); destruct (_ || _); by intros [= <- _]. }
  destruct pdu as [pdu|]; [|by intros [= <- _]].
  destruct (snmp_sess_synch_response _ _ _ _ _ _ _ _ _) as [[[[s1 response] status]|]| |] eqn:Er; [|done..]. m_step.
  apply synch_sound in Er; [|by apply (sound_ctx R (SList (lst s) c))].
  assert (sound R (probe_errno s1 response status)) as Hp.
  { unfold probe_errno. repeat (destruct (_ =? _)); try done; try by apply sound_errno. }
  destruct (_ =? 0); [by intros [= <- _]|]. by apply Hu, sound_errno.
Qed.

Lemma send_sound fuel s pdu cb next_reqid user_known ins s' id :
  sound R s → sess_async_send fuel s pdu cb next_reqid user_known ins = Ok (Some (s', id)) → sound R s'.
Proof.
  intros H. apply (sound_errno R s 0) in H. unfold sess_async_send. set (s0 := list_errno s 0) in *.
  destruct (check_version _ _) as [m|]; [|intros [= <- _]; by apply sound_errno].
  assert (∀ o, (if needs_probe (the_sess (ctx s0)) (expect_flags m)
      then snmpv3_engineID_probe fuel s0 next_reqid user_known ins else Ok (Some (s0, true))) = Ok (Some o) →
    sound R o.1) as Hpr.
  { intros [s1 ok]. destruct (needs_probe _ _); [by apply probe_sound|by intros [= <- _]]. }
  destruct (if needs_probe _ _ then _ else _) as [[[s1 [|]]|]| |]; [..|done|done]; m_step;
    [specialize (Hpr _ eq_refl)|specialize (Hpr _ eq_refl); by intros [= <- _]|done].
  cbn [fst] in Hpr. destruct Hpr as (q & (l & Hl & <-) & Hi).
  destruct (send_checked E _ _ _ _) as [[[c node] i]| |] eqn:Es; [|done..]. m_step.
  apply (send_checked_inv E R _ _ _ _ _ _ _ _ Hi) in Es. destruct node as [r|].
  - destruct (enqueue_rep _ _ _ r Hl) as (l' & -> & Hl'). m_step. intros [= <- _].
    exists (l.*2 ++ [r]). split; [|done]. exists (l ++ [(brk (lst s1), r)]). by rewrite fmap_app.
  - cbn [option_list] in Es. rewrite app_nil_r in Es. intros [= <- _]. exists l.*2. split; [by exists l|done].
Qed.

Lemma session_step_sound s s' : sound R s → session_step s s' → sound R s'.
Proof.
  intros H Hs. destruct Hs.
  - by eapply send_sound.
  - by eapply synch_sound.
  - eapply step_sound; [done|exact H|]. by eapply step_packet.
  - eapply step_sound; [done|exact H|]. by eapply step_timeout.
Qed.
End Sound.

(** C9: in every state a session can reach by sending, with or without asking for an
    engine identifier first, by synchronous requests, by receiving and by timing out,
    whatever the callbacks send meanwhile, the heap is exactly a well-formed linked list
    (the next pointers in order, [requestsEnd] its last node, no leaked and no dangling
    node), no request was repeated more often than once beyond the retry limit (the
    limit, and once more when a report asks for it), and the requests queued are those
    still in the list and those released, each exactly once. *)
Theorem session_invariant R s0 s :
  R < 2 ^ 31 - 1 → lst s0 = ReqList ∅ None None (brk (lst s0)) → history (ctx s0) = [] →
  se_retries (the_sess (ctx s0)) = R → rtc session_step s0 s →
  ∃ l, rep ∅ (lst s) l ∧ Forall (λ r, 0 ≤ retries r ≤ Z.max 0 (R + 1)) l.*2 ∧
    queued (history (ctx s)) ≡ₚ (request_id <$> l.*2) ++ freed (history (ctx s)).
Proof.
  intros HR Hl Hh HR0 Hrtc.
  assert (sound R s0) as Hs0.
  { exists []. split.
    - exists []. split; [|done]. rewrite Hl. split; simpl; try done; [constructor|].
      intros a [x Hx]. by rewrite lookup_empty in Hx.
    - split; [done|constructor|]. by rewrite Hh. }
  assert (sound R s) as (q & (l & Hr & <-) & [_ H2 H3]).
  { clear Hl Hh HR0. induction Hrtc as [|x y z Hxy Hyz IH]; [done|]. apply IH.
    by eapply session_step_sound. }
  exists l. done.
Qed.
End Probe.

(** ** Samples *)

(** An SNMPv3 session that does not know its peer; the peer answers with a report. *)
Definition sample_report : rpdu :=
  RPdu SNMP_VERSION_3 SNMP_MSG_REPORT UCD_MSG_FLAG_RESPONSE_PDU 0 1
    (V3Id SNMP_SEC_MODEL_USM SEC_LEVEL_NOAUTH [] [] [128; 0; 31; 136] [])
    [PVar [1; 3; 6; 1; 6; 3; 15; 1; 1; 4; 0] (PUlong ASN_COUNTER 1)].

Definition sample_v3_env : env :=
  Env (λ n, TV (Z.of_nat n * 1000) 0) (λ _ _, true) (λ _ _, 0) 0 false (λ _ _ _ _, (1, []))
    None None (Some (λ _ _ _ _, Ok (Done sample_report))) None (λ _, true)
    (λ m _ _, Ok (Done (Built [48; 0] 2 2 m))) (λ _ _ _, Err) (λ _ _ _, (0, no_v3, 0)) malloc_all true false
    (replicate 2048 0) (replicate 128 0) (replicate 256 0) None.

Definition sample_v3_start : slist :=
  SList (ReqList ∅ None None 0)
    (SCtx (Sess (Session SNMP_VERSION_3 None 0) 1 1000000 0 (Some (0%nat, 5)) 0 0 [] []) 0 0 []).

Definition sample_v3_spdu : spdu :=
  SPdu (Message SNMP_VERSION_3 None 0 0 (NetsnmpPdu SNMP_MSG_GET 77 0 0 [] 0 [0; 0; 0; 0] 0 0 0 [])) 9 no_v3.

Definition sample_v3_send (ins : list selected) : M (option (slist * Z)) :=
  sess_async_send sample_v3_env Some sample_self 0 false 1 sample_v3_start sample_v3_spdu None 76 true ins.

(** The report tells the engine identifier, and the request goes out. *)
Example probe_learns :
  match sample_v3_send [Readable (RData [48; 0])] with
  | Ok (Some (s, id)) =>
      bool_decide (id = 77 ∧ se_securityEngineID (the_sess (ctx s)) = [128; 0; 31; 136] ∧
        queued (history (ctx s)) = [76; 77] ∧ freed (history (ctx s)) = [76])
  | _ => false
  end = true.
Proof. by vm_compute. Qed.

(** Without an answer the send fails; and the next one is sent without the identifier, as
    the flag that forbids a probe within the probe stays set. *)
Example probe_given_up_once :
  match sample_v3_send [NoneReady; NoneReady] with
  | Ok (Some (s, id)) =>
      match sess_async_send sample_v3_env Some sample_self 0 false 1 s sample_v3_spdu None 78 true [] with
      | Ok (Some (s', id')) =>
          bool_decide (id = 0 ∧ id' = 77 ∧ se_securityEngineID (the_sess (ctx s')) = [] ∧
            queued (history (ctx s')) = [76; 77] ∧ timed_out (history (ctx s')) = [76])
      | _ => false
      end
  | _ => false
  end = true.
Proof. by vm_compute. Qed.

Definition sample_v3_known : slist := Eval vm_compute in
  match sample_v3_send [Readable (RData [48; 0])] with Ok (Some (s, _)) => s | _ => sample_v3_start end.

Lemma session_invariant_witness :
  ∃ l, rep ∅ (lst sample_v3_known) l ∧ Forall (λ r, 0 ≤ retries r ≤ Z.max 0 (1 + 1)) l.*2 ∧
    queued (history (ctx sample_v3_known))
      ≡ₚ (request_id <$> l.*2) ++ freed (history (ctx sample_v3_known)).
Proof.
  apply (session_invariant sample_v3_env Some sample_self 0 false 1 sample_v3_start sample_v3_known); [lia|done..|].
  apply rtc_once. apply (ss_send _ _ _ _ _ 1 _ sample_v3_spdu None 76 true [Readable (RData [48; 0])] _ 77).
  by vm_compute.
Defined.
