(* ===== verification/DefaultStore.v ===== *)
(** * The default store: snmplib/default_store.c

    The settings of the library and its applications: three stores with 48 slots each for
    booleans (packed eight to a [char]), integers, strings and pointers, and the list of
    configuration tokens that set them.

    The arrays are lists of rows.  Strings live in a heap, so that the ownership of the
    pointers in the array shows: a string that is replaced is freed, one that is stored is
    a copy.  The list of registrations is only ever extended at its end and is a list here,
    whose nodes hold the copies of the token and the file type ([None] when strdup failed).
    The calls of register_config_handler and unregister_config_handler are recorded.

    The theorems: under any sequence of calls and configuration lines the store is four
    independent finite maps, with no string leaked, shared or freed twice; shutting down
    frees every string. *)

From S2P Require Import Prelude Ber Asn1 Session OidStash Scapi ConfigText.
From stdpp Require Import prelude numbers list gmap.
From Stdlib Require Import ZArith Lia.
Open Scope Z_scope.

Definition NETSNMP_DS_MAX_IDS : Z := 3.
Definition NETSNMP_DS_MAX_SUBIDS : Z := 48.

(** [netsnmp_ds_read_config] and its size. *)
Record ds_read_config := DsReadConfig {
  rc_type : Z;
  rc_token : option (list Z);
  rc_ftype : option (list Z);
  rc_storeid : Z;
  rc_which : Z;
}.
Definition SIZEOF_DS_READ_CONFIG : Z := 24.

(** Calls of read_config.c: [register_config_handler] or, before the MIBs,
    [register_prenetsnmp_mib_handler], with the help text of the type; and
    [unregister_config_handler]. *)
Inductive handler_call :=
| HRegister (premib : bool) (ftype token : list Z) (type : Z)
| HUnregister (ftype token : list Z).

Record ds_state := DsState {
  ds_configs : list ds_read_config;
  ds_integers : list (list Z);
  ds_booleans : list (list Z);
  ds_strings : list (list (option nat));
  ds_voids : list (list Z);
  ds_heap : gmap nat (list Z);
  ds_calls : list handler_call;
}.

Definition set_integers (s : ds_state) a :=
  DsState (ds_configs s) a (ds_booleans s) (ds_strings s) (ds_voids s) (ds_heap s) (ds_calls s).
Definition set_booleans (s : ds_state) a :=
  DsState (ds_configs s) (ds_integers s) a (ds_strings s) (ds_voids s) (ds_heap s) (ds_calls s).
Definition set_strings (s : ds_state) a h :=
  DsState (ds_configs s) (ds_integers s) (ds_booleans s) a (ds_voids s) h (ds_calls s).
Definition set_voids (s : ds_state) a :=
  DsState (ds_configs s) (ds_integers s) (ds_booleans s) (ds_strings s) a (ds_heap s) (ds_calls s).
Definition set_configs (s : ds_state) l c :=
  DsState l (ds_integers s) (ds_booleans s) (ds_strings s) (ds_voids s) (ds_heap s) c.

(** The static arrays, zero before the program starts. *)
Definition ds_init : ds_state :=
  DsState [] (replicate 3 (replicate 48 0)) (replicate 3 (replicate 6 0))
    (replicate 3 (replicate 48 None)) (replicate 3 (replicate 48 0)) ∅ [].

(** [a[i][j]] *)
Definition ds_cell {A} (a : list (list A)) (i j : Z) : option A := row ← a !! Z.to_nat i; row !! Z.to_nat j.

Definition rd_cell {A} (a : list (list A)) (i j : Z) : M A :=
  match ds_cell a i j with Some x => Ok x | None => UB end.

Definition wr_cell {A} (a : list (list A)) (i j : Z) (x : A) : M (list (list A)) :=
  match ds_cell a i j with
  | Some _ => Ok (alter <[Z.to_nat j := x]> (Z.to_nat i) a)
  | None => UB
  end.

(** The test of every function. *)
Definition no_slot (storeid which : Z) : bool :=
  (storeid <? 0) || (NETSNMP_DS_MAX_IDS <=? storeid) || (which <? 0) || (NETSNMP_DS_MAX_SUBIDS <=? which).

(** ** Booleans *)

(** The conversion to [char], which is signed. *)
Definition s8 (z : Z) : Z := (z + 128) mod 256 - 128.

Definition with_bit (b n : Z) : Z := s8 (Z.lor b (Z.shiftl 1 n)).
Definition without_bit (b n : Z) : Z := s8 (Z.land b (Z.shiftr 0xff7f (7 - n))).

Definition netsnmp_ds_set_boolean (s : ds_state) (storeid which value : Z) : M (ds_state * Z) :=
  if no_slot storeid which then Ok (s, SNMPERR_GENERR)
  else
    b ← rd_cell (ds_booleans s) storeid (which / 8);
    a ← wr_cell (ds_booleans s) storeid (which / 8)
          (if 0 <? value then with_bit b (which mod 8) else without_bit b (which mod 8));
    Ok (set_booleans s a, SNMPERR_SUCCESS).

Definition netsnmp_ds_toggle_boolean (s : ds_state) (storeid which : Z) : M (ds_state * Z) :=
  if no_slot storeid which then Ok (s, SNMPERR_GENERR)
  else
    b ← rd_cell (ds_booleans s) storeid (which / 8);
    a ← wr_cell (ds_booleans s) storeid (which / 8)
          (if Z.land b (Z.shiftl 1 (which mod 8)) =? 0
           then with_bit b (which mod 8) else without_bit b (which mod 8));
    Ok (set_booleans s a, SNMPERR_SUCCESS).

Definition netsnmp_ds_get_boolean (s : ds_state) (storeid which : Z) : M Z :=
  if no_slot storeid which then Ok SNMPERR_GENERR
  else
    b ← rd_cell (ds_booleans s) storeid (which / 8);
    Ok (if Z.land b (Z.shiftl 1 (which mod 8)) =? 0 then 0 else 1).

(** ** Integers and pointers *)

Definition netsnmp_ds_set_int (s : ds_state) (storeid which value : Z) : M (ds_state * Z) :=
  if no_slot storeid which then Ok (s, SNMPERR_GENERR)
  else a ← wr_cell (ds_integers s) storeid which value; Ok (set_integers s a, SNMPERR_SUCCESS).

Definition netsnmp_ds_get_int (s : ds_state) (storeid which : Z) : M Z :=
  if no_slot storeid which then Ok SNMPERR_GENERR else rd_cell (ds_integers s) storeid which.

Definition netsnmp_ds_set_void (s : ds_state) (storeid which value : Z) : M (ds_state * Z) :=
  if no_slot storeid which then Ok (s, SNMPERR_GENERR)
  else a ← wr_cell (ds_voids s) storeid which value; Ok (set_voids s a, SNMPERR_SUCCESS).

Definition netsnmp_ds_get_void (s : ds_state) (storeid which : Z) : M Z :=
  if no_slot storeid which then Ok 0 else rd_cell (ds_voids s) storeid which.

(** ** Strings *)

(** The [const char *] argument: [NULL], a string of the caller, or a pointer that
    netsnmp_ds_get_string returned. *)
Inductive ds_arg := ANull | ACaller (t : list Z) | AOwn (p : nat).

Definition same_pointer (cur : option nat) (value : ds_arg) : bool :=
  match cur, value with
  | None, ANull => true
  | Some p, AOwn q => bool_decide (p = q)
  | _, _ => false
  end.

Section Memory.
Variable malloc_ok : Z → bool.

(** What strdup copies; a pointer to freed memory is [UB]. *)
Definition arg_text (h : gmap nat (list Z)) (value : ds_arg) : M (option (list Z)) :=
  match value with
  | ANull => Ok None
  | ACaller t => Ok (Some t)
  | AOwn p => match h !! p with Some t => Ok (Some t) | None => UB end
  end.

Definition heap_free (h : gmap nat (list Z)) (p : option nat) : M (gmap nat (list Z)) :=
  match p with
  | None => Ok h
  | Some p => match h !! p with Some _ => Ok (delete p h) | None => UB end
  end.

Definition heap_strdup (h : gmap nat (list Z)) (t : option (list Z)) : gmap nat (list Z) * option nat :=
  match t with
  | None => (h, None)
  | Some t => if malloc_ok (zlen t + 1) then let p := fresh (dom h) in (<[p := t]> h, Some p) else (h, None)
  end.

Definition netsnmp_ds_set_string (s : ds_state) (storeid which : Z) (value : ds_arg) : M (ds_state * Z) :=
  if no_slot storeid which then Ok (s, SNMPERR_GENERR)
  else
    cur ← rd_cell (ds_strings s) storeid which;
    if same_pointer cur value then Ok (s, SNMPERR_SUCCESS)
    else
      h ← heap_free (ds_heap s) cur;
      t ← arg_text h value;
      let '(h, p) := heap_strdup h t in
      a ← wr_cell (ds_strings s) storeid which p;
      Ok (set_strings s a h, SNMPERR_SUCCESS).

Definition netsnmp_ds_get_string (s : ds_state) (storeid which : Z) : M (option nat) :=
  if no_slot storeid which then Ok None else rd_cell (ds_strings s) storeid which.

(** ** Configuration lines *)

(** [strtok_r(line, " \t\n", &st)], the first word. *)
Definition is_delim (c : Z) : bool := (c =? 32) || (c =? 9) || (c =? 10).

Fixpoint take_word (s : list Z) : list Z :=
  match s with
  | [] => []
  | c :: s => if is_delim c then [] else c :: take_word s
  end.

Definition strtok_r (line : list Z) : option (list Z) :=
  match drop_while is_delim line with
  | [] => None
  | s => Some (take_word s)
  end.

Definition tolower (c : Z) : Z := if (65 <=? c) && (c <=? 90) then c + 32 else c.

(** [strcasecmp(a, b) == 0] *)
Definition strcaseeq (a b : list Z) : bool := bool_decide (tolower <$> a = tolower <$> b).

(** [strtol(value, &endptr, 10)] with a [long] of 32 bits: the number, cut to the range,
    and the rest. *)
Fixpoint digits_value (s : list Z) (acc : Z) : Z * list Z :=
  match s with
  | c :: s' => if is_digit c then digits_value s' (acc * 10 + (c - 48)) else (acc, s)
  | [] => (acc, [])
  end.

Definition strtol (value : list Z) : Z * list Z :=
  let s := drop_while is_space value in
  let '(neg, s) := match s with
                   | 45 :: s => (true, s)
                   | 43 :: s => (false, s)
                   | _ => (false, s)
                   end in
  match s with
  | c :: _ =>
      if is_digit c then
        let '(n, rest) := digits_value s 0 in
        (Z.max (- 2 ^ 31) (Z.min (2 ^ 31 - 1) (if neg : bool then - n else n)), rest)
      else (0, value)
  | [] => (0, value)
  end.

Definition YES : list Z := [121; 101; 115].
Definition TRUE : list Z := [116; 114; 117; 101].
Definition NO : list Z := [110; 111].
Definition FALSE : list Z := [102; 97; 108; 115; 101].

Definition netsnmp_ds_parse_boolean (line : list Z) : M Z :=
  match strtok_r line with
  | None => UB
  | Some value =>
      if strcaseeq value YES || strcaseeq value TRUE then Ok 1
      else if strcaseeq value NO || strcaseeq value FALSE then Ok 0
      else
        let '(itmp, endptr) := strtol value in
        if negb (match endptr with [] => true | _ => false end) || (itmp <? 0) || (1 <? itmp) then Ok (-1)
        else Ok itmp
  end.

(** The search through the registrations. *)
Fixpoint find_config (l : list ds_read_config) (token : list Z) : M (option ds_read_config) :=
  match l with
  | [] => Ok None
  | d :: l =>
      match rc_token d with
      | None => UB
      | Some t => if strcaseeq token t then Ok (Some d) else find_config l token
      end
  end.

(** [garbage]: what [buf] holds at first. *)
Definition netsnmp_ds_handle_config (garbage : list Z) (s : ds_state) (token line : list Z) : M ds_state :=
  drsp ← find_config (ds_configs s) token;
  match drsp with
  | None => Ok s
  | Some d =>
      if rc_type d =? ASN_BOOLEAN then
        itmp ← netsnmp_ds_parse_boolean line;
        if negb (itmp =? -1)
        then '(s, _) ← netsnmp_ds_set_boolean s (rc_storeid d) (rc_which d) itmp; Ok s
        else Ok s
      else if rc_type d =? ASN_INTEGER then
        match strtok_r line with
        | None => UB
        | Some value =>
            match strtol value with
            | (itmp, []) => '(s, _) ← netsnmp_ds_set_int s (rc_storeid d) (rc_which d) itmp; Ok s
            | _ => Ok s
            end
        end
      else if rc_type d =? ASN_OCTET_STR then
        if bool_decide (head line = Some QUOTE) then
          '(_, buf) ← copy_nword (Some line) (Some garbage) SNMP_MAXBUF;
          let buf := default [] buf in
          n ← array_strlen buf;
          '(s, _) ← netsnmp_ds_set_string s (rc_storeid d) (rc_which d) (ACaller (take (Z.to_nat n) buf)); Ok s
        else '(s, _) ← netsnmp_ds_set_string s (rc_storeid d) (rc_which d) (ACaller line); Ok s
      else Ok s
  end.

Definition ds_strdup (t : list Z) : option (list Z) := if malloc_ok (zlen t + 1) then Some t else None.

(** [netsnmp_ds_register_config] and, with [premib], [netsnmp_ds_register_premib]; the
    file type is not [NULL]. *)
Definition register_slot (premib : bool) (s : ds_state) (type : Z) (ftype : list Z) (token : option (list Z))
    (storeid which : Z) : ds_state * Z :=
  match token with
  | None => (s, SNMPERR_GENERR)
  | Some token =>
      if no_slot storeid which then (s, SNMPERR_GENERR)
      else if malloc_ok SIZEOF_DS_READ_CONFIG then
        (set_configs s (ds_configs s ++ [DsReadConfig type (ds_strdup token) (ds_strdup ftype) storeid which])
           (ds_calls s ++ if (type =? ASN_BOOLEAN) || (type =? ASN_INTEGER) || (type =? ASN_OCTET_STR)
                          then [HRegister premib ftype token type] else []),
         SNMPERR_SUCCESS)
      else (s, SNMPERR_GENERR)
  end.

Definition netsnmp_ds_register_config := register_slot false.
Definition netsnmp_ds_register_premib := register_slot true.

(** ** Shutting down *)

Definition unregister_calls (l : list ds_read_config) : list handler_call :=
  omap (λ d, match rc_ftype d, rc_token d with
             | Some f, Some t => Some (HUnregister f t)
             | _, _ => None
             end) l.

Definition free_string (m : M (gmap nat (list Z))) (p : option nat) : M (gmap nat (list Z)) :=
  h ← m; heap_free h p.

Definition netsnmp_ds_shutdown (s : ds_state) : M ds_state :=
  let s := set_configs s [] (ds_calls s ++ unregister_calls (ds_configs s)) in
  h ← (foldl (foldl free_string) (Ok (ds_heap s)) (ds_strings s) : M (gmap nat (list Z)));
  Ok (set_strings s ((λ row : list (option nat), (λ _, None) <$> row) <$> ds_strings s) h).
End Memory.

(** ** Four finite maps *)

Definition ds_slot : Type := Z * Z.

Record dstore := DStore {
  a_bool : gset ds_slot;
  a_int : gmap ds_slot Z;
  a_str : gmap ds_slot (list Z);
  a_void : gmap ds_slot Z;
  a_conf : list (Z * list Z * ds_slot);
}.

Definition set_a_bool (a : dstore) x := DStore x (a_int a) (a_str a) (a_void a) (a_conf a).
Definition set_a_int (a : dstore) x := DStore (a_bool a) x (a_str a) (a_void a) (a_conf a).
Definition set_a_str (a : dstore) x := DStore (a_bool a) (a_int a) x (a_void a) (a_conf a).
Definition set_a_void (a : dstore) x := DStore (a_bool a) (a_int a) (a_str a) x (a_conf a).
Definition set_a_conf (a : dstore) x := DStore (a_bool a) (a_int a) (a_str a) (a_void a) x.

(** The value for a string: none, a string of the caller, or what another slot holds. *)
Inductive ds_value := VNull | VText (t : list Z) | VFrom (k : ds_slot).

Inductive ds_op :=
| SetBoolean (k : ds_slot) (value : Z)
| ToggleBoolean (k : ds_slot)
| GetBoolean (k : ds_slot)
| SetInt (k : ds_slot) (value : Z)
| GetInt (k : ds_slot)
| SetVoid (k : ds_slot) (value : Z)
| GetVoid (k : ds_slot)
| SetString (k : ds_slot) (value : ds_value)
| GetString (k : ds_slot)
| RegisterToken (premib : bool) (type : Z) (ftype : list Z) (token : option (list Z)) (k : ds_slot)
| ConfigLine (token line : list Z).

Inductive ds_answer := DsNone | DsNum (n : Z) | DsText (t : option (list Z)).

Definition put_bool (a : dstore) (k : ds_slot) (v : bool) : dstore :=
  set_a_bool a (if v then {[k]} ∪ a_bool a else a_bool a ∖ {[k]}).

Definition put_str (a : dstore) (k : ds_slot) (t : option (list Z)) : dstore :=
  set_a_str a (partial_alter (λ _, t) k (a_str a)).

(** What a word says for a boolean. *)
Definition boolean_of (w : list Z) : option bool :=
  if strcaseeq w YES || strcaseeq w TRUE then Some true
  else if strcaseeq w NO || strcaseeq w FALSE then Some false
  else match strtol w with
       | (0, []) => Some false
       | (1, []) => Some true
       | _ => None
       end.

(** What a line says for a string. *)
Definition string_of (line : list Z) : list Z :=
  if bool_decide (head line = Some QUOTE) then take (Z.to_nat (SNMP_MAXBUF - 1)) (next_word line).1 else line.

Definition spec_config (a : dstore) (token line : list Z) : dstore :=
  match list_find (λ c, strcaseeq token c.1.2 = true) (a_conf a) with
  | None => a
  | Some (_, (ty, _, k)) =>
      if ty =? ASN_BOOLEAN then
        match boolean_of (default [] (strtok_r line)) with Some v => put_bool a k v | None => a end
      else if ty =? ASN_INTEGER then
        match strtol (default [] (strtok_r line)) with (n, []) => set_a_int a (<[k := n]> (a_int a)) | _ => a end
      else if ty =? ASN_OCTET_STR then put_str a k (Some (string_of line))
      else a
  end.

Definition guarded (a a' : dstore) (k : ds_slot) : dstore * ds_answer :=
  if no_slot k.1 k.2 then (a, DsNum SNMPERR_GENERR) else (a', DsNum SNMPERR_SUCCESS).

Definition spec_str (a : dstore) (k : ds_slot) : option (list Z) :=
  if no_slot k.1 k.2 then None else a_str a !! k.

Definition spec_do (a : dstore) (op : ds_op) : dstore * ds_answer :=
  match op with
  | SetBoolean k v => guarded a (put_bool a k (0 <? v)) k
  | ToggleBoolean k => guarded a (put_bool a k (negb (bool_decide (k ∈ a_bool a)))) k
  | GetBoolean k =>
      (a, DsNum (if no_slot k.1 k.2 then SNMPERR_GENERR else if bool_decide (k ∈ a_bool a) then 1 else 0))
  | SetInt k v => guarded a (set_a_int a (<[k := v]> (a_int a))) k
  | GetInt k => (a, DsNum (if no_slot k.1 k.2 then SNMPERR_GENERR else default 0 (a_int a !! k)))
  | SetVoid k v => guarded a (set_a_void a (<[k := v]> (a_void a))) k
  | GetVoid k => (a, DsNum (if no_slot k.1 k.2 then 0 else default 0 (a_void a !! k)))
  | SetString k v =>
      guarded a (put_str a k (match v with VNull => None | VText t => Some t | VFrom k' => spec_str a k' end)) k
  | GetString k => (a, DsText (spec_str a k))
  | RegisterToken _ ty _ token k =>
      match token with
      | None => (a, DsNum SNMPERR_GENERR)
      | Some t => guarded a (set_a_conf a (a_conf a ++ [(ty, t, k)])) k
      end
  | ConfigLine token line => (spec_config a token line, DsNone)
  end.

Fixpoint spec_run (a : dstore) (ops : list ds_op) : dstore * list ds_answer :=
  match ops with
  | [] => (a, [])
  | op :: ops => let '(a, x) := spec_do a op in let '(a, l) := spec_run a ops in (a, x :: l)
  end.

Definition dstore_empty : dstore := DStore ∅ ∅ ∅ ∅ [].

(** ** The calls *)

Section Calls.
Variable malloc_ok : Z → bool.
Variable garbage : list Z.

Definition arg_of (s : ds_state) (v : ds_value) : M ds_arg :=
  match v with
  | VNull => Ok ANull
  | VText t => Ok (ACaller t)
  | VFrom k => p ← netsnmp_ds_get_string s k.1 k.2; Ok (match p with Some p => AOwn p | None => ANull end)
  end.

Definition numbered (m : M (ds_state * Z)) : M (ds_state * ds_answer) := '(s, n) ← m; Ok (s, DsNum n).

Definition ds_do (s : ds_state) (op : ds_op) : M (ds_state * ds_answer) :=
  match op with
  | SetBoolean k v => numbered (netsnmp_ds_set_boolean s k.1 k.2 v)
  | ToggleBoolean k => numbered (netsnmp_ds_toggle_boolean s k.1 k.2)
  | GetBoolean k => n ← netsnmp_ds_get_boolean s k.1 k.2; Ok (s, DsNum n)
  | SetInt k v => numbered (netsnmp_ds_set_int s k.1 k.2 v)
  | GetInt k => n ← netsnmp_ds_get_int s k.1 k.2; Ok (s, DsNum n)
  | SetVoid k v => numbered (netsnmp_ds_set_void s k.1 k.2 v)
  | GetVoid k => n ← netsnmp_ds_get_void s k.1 k.2; Ok (s, DsNum n)
  | SetString k v => x ← arg_of s v; numbered (netsnmp_ds_set_string malloc_ok s k.1 k.2 x)
  | GetString k =>
      p ← netsnmp_ds_get_string s k.1 k.2;
      t ← arg_text (ds_heap s) (match p with Some p => AOwn p | None => ANull end);
      Ok (s, DsText t)
  | RegisterToken premib ty ftype token k =>
      let '(s, n) := (if premib : bool then netsnmp_ds_register_premib malloc_ok s ty ftype token k.1 k.2
                      else netsnmp_ds_register_config malloc_ok s ty ftype token k.1 k.2) in
      Ok (s, DsNum n)
  | ConfigLine token line => s ← netsnmp_ds_handle_config malloc_ok garbage s token line; Ok (s, DsNone)
  end.

Fixpoint ds_run (s : ds_state) (ops : list ds_op) : M (ds_state * list ds_answer) :=
  match ops with
  | [] => Ok (s, [])
  | op :: ops => '(s, x) ← ds_do s op; '(s, l) ← ds_run s ops; Ok (s, x :: l)
  end.
End Calls.

(** ** Bits *)

Lemma s8_bit z n : 0 ≤ n < 8 → Z.testbit (s8 z) n = Z.testbit z n.
Proof.
  intros Hn. rewrite <- (Z.mod_pow2_bits_low (s8 z) 8 n), <- (Z.mod_pow2_bits_low z 8 n) by lia. f_equal.
  unfold s8. change (2 ^ 8) with 256. rewrite Zminus_mod_idemp_l. f_equal. lia.
Qed.

Lemma bit_test b n : 0 ≤ n → (Z.land b (Z.shiftl 1 n) =? 0) = negb (Z.testbit b n).
Proof.
  intros Hn. rewrite Z.shiftl_1_l. destruct (Z.testbit b n) eqn:Eb; cbn [negb].
  - apply Z.eqb_neq. intros H. assert (Z.testbit (Z.land b (2 ^ n)) n = false) as H' by (by rewrite H, Z.bits_0).
    by rewrite Z.land_spec, Eb, Z.pow2_bits_true in H'.
  - apply Z.eqb_eq, Z.bits_inj. intros m. rewrite Z.land_spec, Z.bits_0, Z.pow2_bits_eqb by done.
    destruct (Z.eqb_spec n m) as [->|]; [by rewrite Eb|by rewrite andb_false_r].
Qed.

Lemma with_bit_spec b n m : 0 ≤ n < 8 → 0 ≤ m < 8 → Z.testbit (with_bit b n) m = (n =? m) || Z.testbit b m.
Proof.
  intros Hn Hm. unfold with_bit. rewrite s8_bit, Z.lor_spec, Z.shiftl_1_l, Z.pow2_bits_eqb by lia. apply orb_comm.
Qed.

Lemma without_bit_spec b n m :
  0 ≤ n < 8 → 0 ≤ m < 8 → Z.testbit (without_bit b n) m = negb (n =? m) && Z.testbit b m.
Proof.
  intros Hn Hm. unfold without_bit. rewrite s8_bit, Z.land_spec, Z.shiftr_spec by lia. rewrite andb_comm. f_equal.
  assert (n ∈ [0; 1; 2; 3; 4; 5; 6; 7]) as Hn' by (rewrite !elem_of_cons; lia).
  assert (m ∈ [0; 1; 2; 3; 4; 5; 6; 7]) as Hm' by (rewrite !elem_of_cons; lia).
  clear Hn Hm. revert n Hn' m Hm'.
  assert (Forall (λ n, Forall (λ m, Z.testbit 0xff7f (m + (7 - n)) = negb (n =? m)) [0; 1; 2; 3; 4; 5; 6; 7])
    [0; 1; 2; 3; 4; 5; 6; 7]) as H by (apply (bool_decide_unpack _); by vm_compute).
  intros n Hn m Hm. rewrite Forall_forall in H. specialize (H n Hn). by rewrite Forall_forall in H; apply H.
Qed.

(** ** Arrays *)

(** [n] columns in each of the three rows. *)
Definition array_of {A} (n : Z) (a : list (list A)) : Prop :=
  length a = 3%nat ∧ Forall (λ row, Z.of_nat (length row) = n) a.

Definition in_array (n i j : Z) : Prop := 0 ≤ i < 3 ∧ 0 ≤ j < n.

Lemma cell_inside {A} n (a : list (list A)) i j : array_of n a → in_array n i j → ∃ x, ds_cell a i j = Some x.
Proof.
  intros [Hl Hr] [Hi Hj]. unfold ds_cell. destruct (lookup_lt_is_Some_2 a (Z.to_nat i)) as [row Hrow]; [lia|].
  rewrite Hrow. cbn. apply lookup_lt_is_Some_2. rewrite Forall_forall in Hr.
  specialize (Hr row). rewrite <- Hr in Hj by (by eapply list_elem_of_lookup_2). lia.
Qed.

Lemma write_cell {A} n (a : list (list A)) i j x :
  array_of n a → in_array n i j →
  ∃ a', wr_cell a i j x = Ok a' ∧ array_of n a' ∧
    ∀ i' j', in_array n i' j' → ds_cell a' i' j' = if bool_decide ((i, j) = (i', j')) then Some x else ds_cell a i' j'.
Proof.
  intros Ha Hin. destruct (cell_inside n a i j Ha Hin) as [y Hy]. unfold wr_cell. rewrite Hy.
  eexists. split; [done|]. destruct Ha as [Hl Hr], Hin as [Hi Hj]. split.
  - split; [by rewrite length_alter|]. apply Forall_lookup. intros k row Hk.
    rewrite Forall_lookup in Hr. destruct (decide (k = Z.to_nat i)) as [->|Hne].
    + rewrite list_lookup_alter_eq in Hk. apply fmap_Some in Hk as (row' & Hk & ->).
      rewrite length_insert. by apply (Hr _ _ Hk).
    + rewrite list_lookup_alter_ne in Hk by done. by apply (Hr _ _ Hk).
  - intros i' j' [Hi' Hj']. unfold ds_cell in *. destruct (decide (i = i')) as [<-|Hne].
    + rewrite list_lookup_alter_eq. destruct (a !! Z.to_nat i) as [row|] eqn:Er; [|done]. cbn in *.
      case_bool_decide as Hb; [injection Hb as <-; rewrite list_lookup_insert_eq; [done|]|].
      { by eapply lookup_lt_Some. }
      rewrite list_lookup_insert_ne; [done|]. intros ?. apply Hb. f_equal. lia.
    + rewrite list_lookup_alter_ne by lia. rewrite bool_decide_false; [done|congruence].
Qed.

Lemma read_cell {A} n (a : list (list A)) i j : array_of n a → in_array n i j →
  ∃ x, ds_cell a i j = Some x ∧ rd_cell a i j = Ok x.
Proof. intros Ha Hi. destruct (cell_inside n a i j Ha Hi) as [x Hx]. exists x. unfold rd_cell. by rewrite Hx. Qed.

Lemma slot_inside i j : no_slot i j = false ↔ in_array 48 i j.
Proof. unfold no_slot, in_array, NETSNMP_DS_MAX_IDS, NETSNMP_DS_MAX_SUBIDS. lia. Qed.

Lemma byte_inside i j : in_array 48 i j → in_array 6 i (j / 8) ∧ 0 ≤ j mod 8 < 8.
Proof. unfold in_array. intros [? ?]. pose proof (Z.div_mod j 8). pose proof (Z.mod_pos_bound j 8). lia. Qed.

(** ** The store as maps *)

Record ds_rep (s : ds_state) (a : dstore) : Prop := {
  dr_booleans : array_of 6 (ds_booleans s);
  dr_integers : array_of 48 (ds_integers s);
  dr_strings : array_of 48 (ds_strings s);
  dr_voids : array_of 48 (ds_voids s);
  dr_bool : ∀ i j, in_array 48 i j → ∃ b, ds_cell (ds_booleans s) i (j / 8) = Some b ∧
    Z.testbit b (j mod 8) = bool_decide ((i, j) ∈ a_bool a);
  dr_int : ∀ i j, in_array 48 i j → ds_cell (ds_integers s) i j = Some (default 0 (a_int a !! (i, j)));
  dr_void : ∀ i j, in_array 48 i j → ds_cell (ds_voids s) i j = Some (default 0 (a_void a !! (i, j)));
  dr_str : ∀ i j, in_array 48 i j → ∃ p, ds_cell (ds_strings s) i j = Some p ∧
    a_str a !! (i, j) = (p ≫= (λ p, ds_heap s !! p)) ∧ (is_Some p → is_Some (a_str a !! (i, j)));
  dr_own : ∀ i j i' j' p, in_array 48 i j → in_array 48 i' j' → ds_cell (ds_strings s) i j = Some (Some p) →
    ds_cell (ds_strings s) i' j' = Some (Some p) → (i, j) = (i', j');
  dr_heap : ∀ p, is_Some (ds_heap s !! p) → ∃ i j, in_array 48 i j ∧ ds_cell (ds_strings s) i j = Some (Some p);
  dr_conf : (λ d, (rc_type d, rc_token d, (rc_storeid d, rc_which d))) <$> ds_configs s
    = (λ c, (c.1.1, Some c.1.2, c.2)) <$> a_conf a;
  dr_slots : Forall (λ c, in_array 48 c.2.1 c.2.2) (a_conf a);
}.

Lemma rep_init : ds_rep ds_init dstore_empty.
Proof.
  assert (∀ A (x : A) n, array_of n (replicate 3 (replicate (Z.to_nat n) x)) ∨ n < 0) as Harr.
  { intros A x n. destruct (Z.ltb_spec n 0); [by right|left]. split; [done|]. repeat constructor;
      rewrite length_replicate; lia. }
  assert (∀ A (x : A) n i j, in_array n i j → ds_cell (replicate 3 (replicate (Z.to_nat n) x)) i j = Some x) as Hcell.
  { intros A x n i j [Hi Hj]. unfold ds_cell. rewrite lookup_replicate_2 by lia. cbn. apply lookup_replicate_2. lia. }
  split; unfold ds_init, dstore_empty; cbn [ds_booleans ds_integers ds_strings ds_voids ds_heap ds_configs a_conf a_bool a_int a_str a_void].
  - by destruct (Harr Z 0 6).
  - by destruct (Harr Z 0 48).
  - by destruct (Harr (option nat) None 48).
  - by destruct (Harr Z 0 48).
  - intros i j H. exists 0. split; [by apply (Hcell Z 0 6), byte_inside|].
    rewrite Z.bits_0, bool_decide_false; [done|set_solver].
  - intros i j H. rewrite lookup_empty. by apply (Hcell Z 0 48).
  - intros i j H. rewrite lookup_empty. by apply (Hcell Z 0 48).
  - intros i j H. exists None. split; [by apply (Hcell _ None 48)|]. split; [done|by intros []].
  - intros i j i' j' p H _ H1. pose proof (Hcell (option nat) None 48 i j H) as H2. change (Z.to_nat 48) with 48%nat in H2. rewrite H2 in H1. done.
  - intros p [t Ht]. by rewrite lookup_empty in Ht.
  - done.
  - constructor.
Qed.

(** ** Each call *)

Lemma put_bool_rep s a i j v b :
  ds_rep s a → in_array 48 i j → ds_cell (ds_booleans s) i (j / 8) = Some b →
  ∃ arr, wr_cell (ds_booleans s) i (j / 8) (if v : bool then with_bit b (j mod 8) else without_bit b (j mod 8)) = Ok arr ∧
    ds_rep (set_booleans s arr) (put_bool a (i, j) v).
Proof.
  intros H Hin Hb. destruct (byte_inside i j Hin) as [Hin8 Hm].
  destruct (write_cell 6 (ds_booleans s) i (j / 8) (if v then with_bit b (j mod 8) else without_bit b (j mod 8))
    (dr_booleans _ _ H) Hin8) as (arr & E1 & Harr & Hc).
  exists arr. split; [done|]. destruct H as [H1 H2 H3 H4 HB H6 H7 H8 H9 H10 H11 H12]. split; try done.
  intros i' j' Hin'. destruct (byte_inside i' j' Hin') as [Hin8' Hm']. cbn [ds_booleans set_booleans]. rewrite Hc by done.
  destruct (HB i' j' Hin') as (b' & Hb' & Hbit).
  destruct (bool_decide_reflect ((i, j / 8) = (i', j' / 8))) as [Heq|Heq].
  - injection Heq as <- Hd. exists (if v then with_bit b (j mod 8) else without_bit b (j mod 8)). split; [done|].
    rewrite <- Hd, Hb in Hb'. injection Hb' as <-.
    assert ((j mod 8 =? j' mod 8) = bool_decide ((i, j) = (i, j'))) as He.
    { destruct (bool_decide_reflect ((i, j) = (i, j'))) as [Hx|Hx]; [injection Hx as <-; apply Z.eqb_refl|].
      apply Z.eqb_neq. intros Hmm. apply Hx. f_equal. pose proof (Z.div_mod j 8). pose proof (Z.div_mod j' 8). lia. }
    unfold put_bool. cbn [a_bool set_a_bool]. destruct v.
    + rewrite with_bit_spec by done. rewrite He, Hbit. repeat case_bool_decide; set_solver.
    + rewrite without_bit_spec by done. rewrite He, Hbit. repeat case_bool_decide; set_solver.
  - exists b'. split; [done|]. rewrite Hbit. apply bool_decide_ext. unfold put_bool. cbn [a_bool set_a_bool].
    assert ((i, j) ≠ (i', j')) by (intros [= -> ->]; done). destruct v; set_solver.
Qed.

Lemma put_int_rep s a i j v :
  ds_rep s a → in_array 48 i j →
  ∃ arr, wr_cell (ds_integers s) i j v = Ok arr ∧
    ds_rep (set_integers s arr) (set_a_int a (<[(i, j) := v]> (a_int a))).
Proof.
  intros H Hin. destruct (write_cell 48 (ds_integers s) i j v (dr_integers _ _ H) Hin) as (arr & E1 & Harr & Hc).
  exists arr. split; [done|]. destruct H as [H1 H2 H3 H4 H5 HI H7 H8 H9 H10 H11 H12]. split; try done.
  intros i' j' Hin'. cbn [ds_integers set_integers a_int set_a_int]. rewrite Hc by done. case_bool_decide as Heq.
  - injection Heq as <- <-. by rewrite lookup_insert_eq.
  - rewrite lookup_insert_ne by done. by apply HI.
Qed.

Lemma put_void_rep s a i j v :
  ds_rep s a → in_array 48 i j →
  ∃ arr, wr_cell (ds_voids s) i j v = Ok arr ∧
    ds_rep (set_voids s arr) (set_a_void a (<[(i, j) := v]> (a_void a))).
Proof.
  intros H Hin. destruct (write_cell 48 (ds_voids s) i j v (dr_voids _ _ H) Hin) as (arr & E1 & Harr & Hc).
  exists arr. split; [done|]. destruct H as [H1 H2 H3 H4 H5 H6 HV H8 H9 H10 H11 H12]. split; try done.
  intros i' j' Hin'. cbn [ds_voids set_voids a_void set_a_void]. rewrite Hc by done. case_bool_decide as Heq.
  - injection Heq as <- <-. by rewrite lookup_insert_eq.
  - rewrite lookup_insert_ne by done. by apply HV.
Qed.

(** A string is replaced: [h1] is the heap without the old one, [q] and [h2] the copy of
    the new one. *)
Lemma put_str_rep s a i j cur h1 q h2 t :
  ds_rep s a → in_array 48 i j → ds_cell (ds_strings s) i j = Some cur →
  h1 = match cur with Some p => delete p (ds_heap s) | None => ds_heap s end →
  match q with Some q => q ∉ dom h1 ∧ ∃ u, t = Some u ∧ h2 = <[q := u]> h1 | None => t = None ∧ h2 = h1 end →
  ∃ arr, wr_cell (ds_strings s) i j q = Ok arr ∧ ds_rep (set_strings s arr h2) (put_str a (i, j) t).
Proof.
  intros H Hin Hcur Hh1 Hq. destruct (write_cell 48 (ds_strings s) i j q (dr_strings _ _ H) Hin) as (arr & E1 & Harr & Hc).
  exists arr. split; [done|]. destruct H as [H1 H2 H3 H4 H5 H6 H7 HS HO HH H11 H12].
  assert (∀ i' j' p, in_array 48 i' j' → (i, j) ≠ (i', j') → ds_cell (ds_strings s) i' j' = Some (Some p) →
    is_Some (h1 !! p) ∧ h2 !! p = ds_heap s !! p) as Hother.
  { intros i' j' p Hin' Hne Hp. destruct (HS i' j' Hin') as (p' & Hp' & Ha & Hsome). rewrite Hp in Hp'.
    injection Hp' as <-. cbn in Ha. rewrite Ha in Hsome. specialize (Hsome ltac:(by eexists)).
    assert (h1 !! p = ds_heap s !! p) as Hh.
    { subst h1. destruct cur as [c|]; [|done]. apply lookup_delete_ne. intros ->. apply Hne. by apply (HO i j i' j' p). }
    split; [by rewrite Hh|]. destruct q as [q|]; [|destruct Hq as [_ ->]; done].
    destruct Hq as (Hfresh & u & _ & ->). rewrite lookup_insert_ne; [done|]. intros ->. apply Hfresh, elem_of_dom. by rewrite Hh. }
  assert (∀ p, q = Some p → h1 !! p = None) as Hfresh.
  { intros p ->. by apply not_elem_of_dom, Hq. }
  split; try done; cbn [ds_strings ds_heap set_strings put_str a_str set_a_str].
  - intros i' j' Hin'. rewrite Hc by done. case_bool_decide as Heq.
    + injection Heq as <- <-. exists q. split; [done|]. rewrite lookup_partial_alter_eq.
      destruct q as [q|]; [destruct Hq as (_ & u & -> & ->); cbn; rewrite lookup_insert_eq; split; [done|by eexists]|].
      destruct Hq as [-> _]. split; [done|by intros []].
    + destruct (HS i' j' Hin') as (p & Hp & Ha & Hsome). exists p. split; [done|].
      rewrite lookup_partial_alter_ne by done. split; [|done]. rewrite Ha. destruct p as [p|]; [|done]. cbn.
      by destruct (Hother i' j' p Hin' Heq Hp) as [_ ->].
  - intros i1 j1 i2 j2 p Hin1 Hin2. rewrite !Hc by done. case_bool_decide as He1; case_bool_decide as He2.
    + congruence.
    + intros [= ->] Hp. destruct (Hother i2 j2 p Hin2 He2 Hp) as [[? Hx] _]. by rewrite (Hfresh p eq_refl) in Hx.
    + intros Hp [= ->]. destruct (Hother i1 j1 p Hin1 He1 Hp) as [[? Hx] _]. by rewrite (Hfresh p eq_refl) in Hx.
    + by apply HO.
  - intros p Hp. destruct (decide (q = Some p)) as [->|Hne].
    { exists i, j. split; [done|]. rewrite Hc by done. by rewrite bool_decide_true. }
    assert (is_Some (h1 !! p)) as Hp1.
    { destruct q as [q|]; [|by destruct Hq as [_ ->]]. destruct Hq as (_ & u & _ & ->).
      rewrite lookup_insert_ne in Hp by congruence. done. }
    destruct (HH p) as (i' & j' & Hin' & Hcell).
    { subst h1. destruct cur; [|done]. destruct Hp1 as [x Hx]. apply lookup_delete_Some in Hx as [_ Hx]. by exists x. }
    exists i', j'. split; [done|]. rewrite Hc by done. rewrite bool_decide_false; [done|]. intros [= <- <-].
    rewrite Hcell in Hcur. injection Hcur as <-. subst h1. rewrite lookup_delete_eq in Hp1. by destruct Hp1.
Qed.

Section Refines.
Context (malloc_ok : Z → bool) (garbage : list Z).
Hypothesis memory : ∀ n, malloc_ok n = true.
Hypothesis buffer : zlen garbage = SNMP_MAXBUF.

(** The argument [v] reads as the string [t]. *)
Definition reads (s : ds_state) (v : ds_arg) (t : option (list Z)) : Prop :=
  match v with
  | ANull => t = None
  | ACaller u => t = Some u
  | AOwn p => ∃ u, ds_heap s !! p = Some u ∧ t = Some u
  end.

Lemma set_string_rep s a i j v t :
  ds_rep s a → in_array 48 i j → reads s v t →
  ∃ s', netsnmp_ds_set_string malloc_ok s i j v = Ok (s', SNMPERR_SUCCESS) ∧ ds_rep s' (put_str a (i, j) t).
Proof.
  intros H Hin Hv. unfold netsnmp_ds_set_string. rewrite (proj2 (slot_inside i j) Hin).
  destruct (read_cell 48 _ i j (dr_strings _ _ H) Hin) as (cur & Hcur & ->). m_step.
  destruct (dr_str _ _ H i j Hin) as (p & Hp & Ha & Hsome). rewrite Hcur in Hp. injection Hp as <-.
  destruct (same_pointer cur v) eqn:Es.
  { exists s. split; [done|]. assert (t = a_str a !! (i, j)) as ->.
    { rewrite Ha. destruct cur as [p|], v as [|u|q]; try done. cbn in Es. apply bool_decide_eq_true in Es as <-.
      destruct Hv as (u & Hu & ->). done. }
    destruct H. split; try done; cbn [put_str a_str set_a_str]; by rewrite partial_alter_self. }
  assert (∃ h1, heap_free (ds_heap s) cur = Ok h1 ∧
    h1 = match cur with Some p => delete p (ds_heap s) | None => ds_heap s end) as (h1 & -> & Hh1).
  { destruct cur as [p|]; [|by eexists]. destruct (Hsome ltac:(by eexists)) as [x Hx]. cbn in Ha. rewrite Hx in Ha.
    exists (delete p (ds_heap s)). cbn. by rewrite <- Ha. }
  m_step. assert (arg_text h1 v = Ok t) as ->.
  { destruct v as [|u|q]; cbn in Hv |- *; [by subst t..|]. destruct Hv as (u & Hu & ->). subst h1.
    destruct cur as [p|]; [|by rewrite Hu]. cbn in Es. apply bool_decide_eq_false in Es. by rewrite lookup_delete_ne, Hu. }
  m_step. destruct (heap_strdup malloc_ok h1 t) as [h2 q] eqn:Ed.
  destruct (put_str_rep s a i j cur h1 q h2 t H Hin Hcur Hh1) as (arr & -> & Hrep); [|by m_step; eexists].
  unfold heap_strdup in Ed. destruct t as [u|]; [rewrite memory in Ed|]; injection Ed as <- <-; [|done].
  split; [apply is_fresh|by eexists].
Qed.

Lemma get_string_rep s a i j :
  ds_rep s a → ∃ p, netsnmp_ds_get_string s i j = Ok p ∧
    reads s (match p with Some p => AOwn p | None => ANull end) (spec_str a (i, j)).
Proof.
  intros H. unfold netsnmp_ds_get_string, spec_str. cbn [fst snd]. destruct (no_slot i j) eqn:En; [by exists None|].
  apply slot_inside in En. destruct (dr_str _ _ H i j En) as (p & Hp & Ha & Hsome).
  exists p. unfold rd_cell. rewrite Hp. split; [done|]. destruct p as [p|]; cbn in *; [|done].
  destruct (Hsome ltac:(by eexists)) as [u Hu]. exists u. by rewrite <- Ha.
Qed.

Lemma set_boolean_rep s a i j v :
  ds_rep s a → in_array 48 i j →
  ∃ s', netsnmp_ds_set_boolean s i j v = Ok (s', SNMPERR_SUCCESS) ∧ ds_rep s' (put_bool a (i, j) (0 <? v)).
Proof.
  intros H Hin. unfold netsnmp_ds_set_boolean. rewrite (proj2 (slot_inside i j) Hin).
  destruct (dr_bool _ _ H i j Hin) as (b & Hb & _). unfold rd_cell. rewrite Hb. m_step.
  destruct (put_bool_rep s a i j (0 <? v) b H Hin Hb) as (arr & -> & Hr). m_step. by eexists.
Qed.

Lemma set_int_rep s a i j v :
  ds_rep s a → in_array 48 i j →
  ∃ s', netsnmp_ds_set_int s i j v = Ok (s', SNMPERR_SUCCESS) ∧ ds_rep s' (set_a_int a (<[(i, j) := v]> (a_int a))).
Proof.
  intros H Hin. unfold netsnmp_ds_set_int. rewrite (proj2 (slot_inside i j) Hin).
  destruct (put_int_rep s a i j v H Hin) as (arr & -> & Hr). m_step. by eexists.
Qed.

(** ** Configuration *)

Lemma find_config_rep token l l' :
  (λ d, (rc_type d, rc_token d, (rc_storeid d, rc_which d))) <$> l = (λ c, (c.1.1, Some c.1.2, c.2)) <$> l' →
  ∃ d, find_config l token = Ok d ∧
    match list_find (λ c, strcaseeq token c.1.2 = true) l' with
    | Some (_, (ty, _, k)) => ∃ d', d = Some d' ∧ rc_type d' = ty ∧ (rc_storeid d', rc_which d') = k
    | None => d = None
    end.
Proof.
  revert l'. induction l as [|d l IH]; intros [|[[ty t] k] l'] E; try done; [by exists None|].
  rewrite !fmap_cons in E. injection E as E1 E2 E3 E4. cbn [fst snd] in *.
  cbn [find_config list_find fst snd]. rewrite E2. destruct (strcaseeq token t) eqn:Et.
  - exists (Some d). split; [done|]. rewrite decide_True by done. by exists d.
  - rewrite decide_False by done. destruct (IH l' E4) as (x & -> & Hx). exists x. split; [done|].
    cbn [fmap option_fmap option_map]. destruct (list_find _ l') as [[n [[ty' t'] k']]|]; cbn; done.
Qed.

Lemma parse_boolean_spec line w :
  strtok_r line = Some w →
  ∃ n, netsnmp_ds_parse_boolean line = Ok n ∧
    match boolean_of w with Some v => n = (if v then 1 else 0) | None => n = -1 end.
Proof.
  intros Hw. unfold netsnmp_ds_parse_boolean, boolean_of. rewrite Hw.
  destruct (_ || _); [by eexists|]. destruct (_ || _); [by eexists|].
  destruct (strtol w) as [n rest]. destruct rest as [|c rest]; cbn [negb orb].
  - destruct (Z.ltb_spec n 0); cbn [orb]; [eexists; split; [done|]; by destruct n|].
    destruct (Z.ltb_spec 1 n); cbn [orb]; eexists; (split; [done|]).
    + destruct n as [|[| |]|]; try done; lia.
    + assert (n = 0 ∨ n = 1) as [-> | ->] by lia; done.
  - eexists. split; [done|]. by destruct n as [|[]|].
Qed.

Lemma word_part P stop line : Forall P line → Forall P (word stop line).1.
Proof.
  remember (length line) as n eqn:Hn. revert line Hn. induction n as [n IH] using lt_wf_ind. intros line -> HP.
  destruct HP as [|c rest Hc HP]; [constructor|]. cbn [word]. destruct (stop c); [constructor|].
  destruct HP as [|e rest' He HP]; [by repeat constructor|]. destruct (c =? BACKSLASH).
  - pose proof (IH (length rest') ltac:(simpl; lia) rest' eq_refl HP) as H. destruct (word stop rest'). by constructor.
  - pose proof (IH (length (e :: rest')) ltac:(simpl; lia) (e :: rest') eq_refl ltac:(by constructor)) as H.
    destruct (word stop (e :: rest')). by constructor.
Qed.

Lemma next_word_part P line : Forall P line → Forall P (next_word line).1.
Proof.
  intros HP. unfold next_word. destruct HP as [|c rest Hc HP]; [constructor|].
  pose proof (word_part P (λ x, x =? c) rest HP) as H.
  destruct (_ || _); [by destruct (word _ rest)|]. by apply word_part; constructor.
Qed.

Lemma string_of_spec line :
  Forall (λ c, c ≠ 0) line → bool_decide (head line = Some QUOTE) = true →
  ∃ rest buf, copy_nword (Some line) (Some garbage) SNMP_MAXBUF = Ok (rest, Some buf) ∧
    array_strlen buf = Ok (zlen (string_of line)) ∧ take (Z.to_nat (zlen (string_of line))) buf = string_of line.
Proof.
  intros Hz Hq. pose proof (copy_nword_bounded line garbage SNMP_MAXBUF) as Hc.
  assert (Forall (λ c, c ≠ 0) (next_word line).1) as Hn by (by apply next_word_part).
  unfold string_of. rewrite Hq. destruct (next_word line) as [w rest]. cbn [fst] in *.
  destruct Hc as (buf & E1 & _ & _ & Hbuf); [by rewrite buffer|]. destruct (Hbuf eq_refl) as (junk & ->).
  exists (skip_white (Some rest)). eexists. split; [exact E1|]. set (t := take _ w).
  assert (Forall (λ c, c ≠ 0) t) as Ht by (by apply Forall_take). split.
  - clearbody t. clear -Ht. induction Ht as [|c t Hc Ht IH]; [done|]. cbn [app array_strlen].
    rewrite (proj2 (Z.eqb_neq c 0)) by done. rewrite IH. m_step. rewrite zlen_cons. f_equal. lia.
  - unfold zlen. rewrite Nat2Z.id. apply take_app_length.
Qed.

(** A configuration line is a C string with a word in it. *)
Definition line_ok (op : ds_op) : Prop :=
  match op with
  | ConfigLine _ line => Forall (λ c, c ≠ 0) line ∧ is_Some (strtok_r line)
  | _ => True
  end.

Lemma handle_config_rep s a token line :
  ds_rep s a → line_ok (ConfigLine token line) →
  ∃ s', netsnmp_ds_handle_config malloc_ok garbage s token line = Ok s' ∧ ds_rep s' (spec_config a token line).
Proof.
  intros H [Hz [w Hw]]. unfold netsnmp_ds_handle_config, spec_config.
  destruct (find_config_rep token _ _ (dr_conf _ _ H)) as (d & -> & Hd). m_step.
  destruct (list_find _ _) as [[n [[ty t] k]]|] eqn:Ef; [|subst d; by exists s].
  destruct Hd as (d' & -> & <- & <-). cbn match.
  assert (in_array 48 (rc_storeid d') (rc_which d')) as Hin.
  { apply list_find_Some in Ef as (Hn & _). pose proof (dr_slots _ _ H) as HS.
    rewrite Forall_lookup in HS. exact (HS _ _ Hn). }
  rewrite Hw. change (default [] (Some w)) with w. destruct (rc_type d' =? ASN_BOOLEAN); [|destruct (rc_type d' =? ASN_INTEGER);
    [|destruct (rc_type d' =? ASN_OCTET_STR); [|by exists s]]].
  - destruct (parse_boolean_spec line w Hw) as (v & -> & Hv). m_step.
    destruct (boolean_of w) as [b|]; [|subst v; by exists s].
    assert (negb (v =? -1) = true ∧ (0 <? v) = b) as [-> <-] by (by destruct b; subst v).
    destruct (set_boolean_rep s a _ _ v H Hin) as (s' & -> & Hr). m_step. by exists s'.
  - destruct (strtol w) as [v [|c rest]]; [|by exists s].
    destruct (set_int_rep s a _ _ v H Hin) as (s' & -> & Hr). m_step. by exists s'.
  - destruct (bool_decide (head line = Some QUOTE)) eqn:Eq.
    + destruct (string_of_spec line Hz Eq) as (rest & buf & -> & E1 & E2). m_step.
      change (default [] (Some buf)) with buf. rewrite E1. m_step. rewrite E2.
      destruct (set_string_rep s a _ _ (ACaller (string_of line)) (Some (string_of line)) H Hin eq_refl) as (s' & -> & Hr).
      m_step. by exists s'.
    + assert (string_of line = line) as -> by (unfold string_of; by rewrite Eq).
      destruct (set_string_rep s a _ _ (ACaller line) (Some line) H Hin eq_refl) as (s' & -> & Hr). m_step. by exists s'.
Qed.

Lemma register_rep s a premib ty ftype t i j :
  ds_rep s a → in_array 48 i j →
  ∃ s', register_slot malloc_ok premib s ty ftype (Some t) i j = (s', SNMPERR_SUCCESS) ∧
    ds_rep s' (set_a_conf a (a_conf a ++ [(ty, t, (i, j))])).
Proof.
  intros H Hin. unfold register_slot, ds_strdup. rewrite (proj2 (slot_inside i j) Hin), !memory.
  eexists. split; [done|]. destruct H as [H1 H2 H3 H4 H5 H6 H7 H8 H9 H10 H11 H12]. split; try done.
  - cbn [ds_configs set_configs a_conf set_a_conf]. by rewrite !fmap_app, H11.
  - cbn [a_conf set_a_conf]. apply Forall_app. split; [done|]. by apply Forall_singleton.
Qed.

(** A call that fails on a bad slot and otherwise succeeds. *)
Lemma guarded_rep s a a' k (m : M (ds_state * Z)) :
  ds_rep s a → (no_slot k.1 k.2 = true → m = Ok (s, SNMPERR_GENERR)) →
  (in_array 48 k.1 k.2 → ∃ s', m = Ok (s', SNMPERR_SUCCESS) ∧ ds_rep s' a') →
  ∃ s', numbered m = Ok (s', (guarded a a' k).2) ∧ ds_rep s' (guarded a a' k).1.
Proof.
  intros H Hbad Hgood. unfold guarded, numbered. destruct (no_slot k.1 k.2) eqn:En.
  - rewrite Hbad by done. m_step. by exists s.
  - destruct Hgood as (s' & -> & Hr); [by apply slot_inside|]. m_step. by exists s'.
Qed.

Lemma ds_do_rep s a op :
  ds_rep s a → line_ok op →
  ∃ s', ds_do malloc_ok garbage s op = Ok (s', (spec_do a op).2) ∧ ds_rep s' (spec_do a op).1.
Proof.
  intros H Hok. destruct op as [k v|k|k|k v|k|k v|k|[i j] v|[i j]|premib ty ftype token k|token line]; cbn [ds_do spec_do].
  - apply (guarded_rep s); [done| |].
    + intros Hn. unfold netsnmp_ds_set_boolean. by rewrite Hn.
    + destruct k as [i j]. by apply set_boolean_rep.
  - apply (guarded_rep s); [done| |].
    + intros Hn. unfold netsnmp_ds_toggle_boolean. by rewrite Hn.
    + destruct k as [i j]. cbn [fst snd]. intros Hin. unfold netsnmp_ds_toggle_boolean.
      rewrite (proj2 (slot_inside i j) Hin). destruct (dr_bool _ _ H i j Hin) as (b & Hb & Hbit).
      unfold rd_cell. rewrite Hb. m_step. rewrite bit_test, Hbit by (apply Z.mod_pos_bound; lia).
      destruct (put_bool_rep s a i j (negb (bool_decide ((i, j) ∈ a_bool a))) b H Hin Hb) as (arr & -> & Hr).
      m_step. by eexists.
  - exists s. split; [|done]. unfold netsnmp_ds_get_boolean. destruct (no_slot k.1 k.2) eqn:En; [done|].
    destruct k as [i j]. apply slot_inside in En. destruct (dr_bool _ _ H i j En) as (b & Hb & Hbit).
    unfold rd_cell. cbn [fst snd] in *. rewrite Hb. m_step. rewrite bit_test, Hbit by (apply Z.mod_pos_bound; lia).
    by destruct (bool_decide _).
  - apply (guarded_rep s); [done| |].
    + intros Hn. unfold netsnmp_ds_set_int. by rewrite Hn.
    + destruct k as [i j]. by apply set_int_rep.
  - exists s. split; [|done]. unfold netsnmp_ds_get_int. destruct (no_slot k.1 k.2) eqn:En; [done|].
    destruct k as [i j]. apply slot_inside in En. unfold rd_cell. cbn [fst snd] in *. by rewrite (dr_int _ _ H i j En).
  - apply (guarded_rep s); [done| |].
    + intros Hn. unfold netsnmp_ds_set_void. by rewrite Hn.
    + destruct k as [i j]. intros Hin. unfold netsnmp_ds_set_void. cbn [fst snd] in *.
      rewrite (proj2 (slot_inside i j) Hin).
      destruct (put_void_rep s a i j v H Hin) as (arr & -> & Hr). m_step. by eexists.
  - exists s. split; [|done]. unfold netsnmp_ds_get_void. destruct (no_slot k.1 k.2) eqn:En; [done|].
    destruct k as [i j]. apply slot_inside in En. unfold rd_cell. cbn [fst snd] in *. by rewrite (dr_void _ _ H i j En).
  - assert (∃ x, arg_of s v = Ok x ∧
      reads s x (match v with VNull => None | VText t => Some t | VFrom k' => spec_str a k' end)) as (x & -> & Hx).
    { destruct v as [|t|[i' j']]; [by eexists..|]. cbn [arg_of fst snd].
      destruct (get_string_rep s a i' j' H) as (p & -> & Hp). m_step. by eexists. }
    m_step. apply (guarded_rep s); [done| |].
    + intros Hn. unfold netsnmp_ds_set_string. by rewrite Hn.
    + intros Hin. by apply set_string_rep.
  - cbn [fst snd]. destruct (get_string_rep s a i j H) as (p & -> & Hp). m_step. exists s. split; [|done].
    destruct p as [p|]; cbn in Hp |- *; [destruct Hp as (u & -> & ->)|rewrite Hp]; done.
  - assert ((if premib then netsnmp_ds_register_premib malloc_ok s ty ftype token k.1 k.2
       else netsnmp_ds_register_config malloc_ok s ty ftype token k.1 k.2)
      = register_slot malloc_ok premib s ty ftype token k.1 k.2) as -> by (by destruct premib).
    destruct token as [t|]; [|by exists s]. unfold guarded. destruct k as [i j]. cbn [fst snd].
    destruct (no_slot i j) eqn:En.
    + exists s. unfold register_slot. by rewrite En.
    + apply slot_inside in En. destruct (register_rep s a premib ty ftype t i j H En) as (s' & -> & Hr). by exists s'.
  - destruct (handle_config_rep s a token line H Hok) as (s' & -> & Hr). m_step. by exists s'.
Qed.

Lemma ds_run_rep s a ops :
  ds_rep s a → Forall line_ok ops →
  ∃ s', ds_run malloc_ok garbage s ops = Ok (s', (spec_run a ops).2) ∧ ds_rep s' (spec_run a ops).1.
Proof.
  intros H Hok. revert s a H. induction Hok as [|op ops Hop Hok IH]; intros s a H; [by exists s|].
  destruct (ds_do_rep s a op H Hop) as (s1 & E1 & H1). cbn [ds_run spec_run]. rewrite E1. m_step.
  destruct (spec_do a op) as [a1 x]. cbn [fst snd] in *. destruct (IH s1 a1 H1) as (s2 & -> & H2). m_step.
  destruct (spec_run a1 ops) as [a2 l]. by exists s2.
Qed.

(** ** Shutting down *)

Lemma concat_lookup {A} (a : list (list A)) n m :
  Forall (λ row, length row = m) a → (0 < m)%nat →
  concat a !! n = (row ← a !! (n / m)%nat; row !! (n mod m)%nat).
Proof.
  intros Ha Hm. revert n. induction Ha as [|row a Hr Ha IH]; intros n; [done|]. cbn [concat].
  destruct (decide (n < m)%nat).
  - rewrite lookup_app_l by lia. by rewrite Nat.div_small, Nat.mod_small.
  - rewrite lookup_app_r by lia. rewrite Hr, IH. assert (∃ k, n - m = k ∧ n = k + 1 * m)%nat as (k & -> & ->) by (exists (n - m)%nat; lia).
    rewrite Nat.div_add, Nat.Div0.mod_add by lia. by rewrite Nat.add_1_r.
Qed.

Lemma pointers_NoDup (l : list (option nat)) :
  (∀ n m p, l !! n = Some (Some p) → l !! m = Some (Some p) → n = m) → NoDup (omap id l).
Proof.
  induction l as [|[p|] l IH]; intros H; [constructor| |].
  - cbn. constructor.
    + intros ([q|] & Hq & [= <-])%list_elem_of_omap. apply list_elem_of_lookup in Hq as (n & Hn).
      discriminate (H 0%nat (S n) q eq_refl Hn).
    + apply IH. intros n m q Hn Hm. by injection (H (S n) (S m) q Hn Hm).
  - apply IH. intros n m q Hn Hm. by injection (H (S n) (S m) q Hn Hm).
Qed.

Lemma free_strings l h :
  NoDup (omap id l) → (∀ p, p ∈ omap id l → is_Some (h !! p)) →
  ∃ h', foldl free_string (Ok h) l = Ok h' ∧ ∀ p, is_Some (h' !! p) ↔ is_Some (h !! p) ∧ p ∉ omap id l.
Proof.
  revert h. induction l as [|[p|] l IH]; intros h Hnd Hin.
  { exists h. split; [done|]. intros p. split; [|by intros []]. intros ?. split; [done|]. apply not_elem_of_nil. }
  - cbn in Hnd, Hin. apply NoDup_cons in Hnd as [Hp Hnd]. destruct (Hin p) as [t Ht]; [apply list_elem_of_here|].
    cbn [foldl]. assert (free_string (Ok h) (Some p) = Ok (delete p h)) as -> by (cbn; by rewrite Ht).
    destruct (IH (delete p h) Hnd) as (h' & -> & Hh').
    { intros q Hq. rewrite lookup_delete_ne by (by intros ->). apply Hin. by apply list_elem_of_further. }
    exists h'. split; [done|]. intros q. rewrite Hh'. cbn. rewrite not_elem_of_cons. destruct (decide (p = q)) as [<-|Hne].
    + rewrite lookup_delete_eq. split; [intros [[? [=]] _]|by intros [_ [[] _]]].
    + rewrite lookup_delete_ne by done. naive_solver.
  - by apply IH.
Qed.

Lemma foldl_rows {A B} (f : B → A → B) (a : list (list A)) x : foldl (foldl f) x a = foldl f x (concat a).
Proof. revert x. induction a as [|row a IH]; intros x; [done|]. cbn. by rewrite IH, foldl_app. Qed.

Lemma shutdown_rep s a :
  ds_rep s a →
  ∃ s', netsnmp_ds_shutdown s = Ok s' ∧ ds_heap s' = ∅ ∧ ds_configs s' = [] ∧
    ∀ i j, in_array 48 i j → ds_cell (ds_strings s') i j = Some None.
Proof.
  intros H. unfold netsnmp_ds_shutdown. rewrite foldl_rows. destruct (dr_strings _ _ H) as [Hl Hr].
  assert (∀ n, concat (ds_strings s) !! n = ds_cell (ds_strings s) (Z.of_nat (n / 48)) (Z.of_nat (n mod 48))) as Hat.
  { intros n. rewrite (concat_lookup _ n 48); [|by eapply Forall_impl; [exact Hr|]; intros; simpl in *; lia|lia].
    unfold ds_cell. by rewrite !Nat2Z.id. }
  assert (∀ n x, concat (ds_strings s) !! n = Some x → in_array 48 (Z.of_nat (n / 48)) (Z.of_nat (n mod 48))) as Hins.
  { intros n x Hx. rewrite Hat in Hx. unfold ds_cell in Hx. apply bind_Some in Hx as (row & Hrow & _).
    apply lookup_lt_Some in Hrow. rewrite Nat2Z.id in Hrow. pose proof (Nat.mod_upper_bound n 48). unfold in_array. lia. }
  destruct (free_strings (concat (ds_strings s)) (ds_heap s)) as (h & Eh & Hh).
  - apply pointers_NoDup. intros n m p Hn Hm. pose proof (Hins _ _ Hn) as In. pose proof (Hins _ _ Hm) as Im.
    rewrite Hat in Hn, Hm. pose proof (dr_own _ _ H _ _ _ _ p In Im Hn Hm) as E1. apply pair_eq in E1 as [E1 E2].
    apply Nat2Z.inj in E1, E2. rewrite (Nat.div_mod_eq n 48), (Nat.div_mod_eq m 48). by rewrite E1, E2.
  - intros p ([q|] & Hq & [= <-])%list_elem_of_omap. apply list_elem_of_lookup in Hq as (n & Hn).
    pose proof (Hins _ _ Hn) as In. rewrite Hat in Hn. destruct (dr_str _ _ H _ _ In) as (x & Hx & Ha & Hs).
    rewrite Hn in Hx. injection Hx as <-. rewrite Ha in Hs. apply Hs. by eexists.
  - eexists. cbn [ds_heap ds_strings set_configs]. rewrite Eh. m_step. split; [done|].
    cbn [ds_heap ds_configs ds_strings set_strings set_configs]. split; [|split; [done|]].
    + apply map_empty. intros p. apply eq_None_not_Some. intros [Hp Hn]%Hh. apply Hn.
      destruct (dr_heap _ _ H p Hp) as (i & j & [Hi Hj] & Hc). apply list_elem_of_omap. exists (Some p). split; [|done].
      apply (list_elem_of_lookup_2 _ (Z.to_nat i * 48 + Z.to_nat j)). rewrite Hat, <- Hc.
      rewrite <- (Nat.div_unique (Z.to_nat i * 48 + Z.to_nat j) 48 (Z.to_nat i) (Z.to_nat j)) by lia.
      rewrite <- (Nat.mod_unique (Z.to_nat i * 48 + Z.to_nat j) 48 (Z.to_nat i) (Z.to_nat j)) by lia.
      by rewrite !Z2Nat.id by lia.
    + intros i j Hin. destruct (cell_inside 48 _ i j (dr_strings _ _ H) Hin) as [x Hx]. unfold ds_cell in *.
      rewrite list_lookup_fmap. apply bind_Some in Hx as (row & Hrow & Hx). rewrite Hrow. cbn.
      by rewrite list_lookup_fmap, Hx.
Qed.

(** C23: under any sequence of calls and configuration lines the default store behaves as
    four finite maps, one each for booleans, integers, strings and pointers: the booleans
    that share a [char] do not disturb each other, a slot that does not exist is refused,
    a line sets the slot of the first token registered under its name to what it says, and
    a string may be taken from a slot of the store itself.  No pointer is shared or
    dangling, every string in memory belongs to a slot, and shutting down frees them all. *)
Theorem default_store_refines_maps ops :
  Forall line_ok ops →
  ∃ s s', ds_run malloc_ok garbage ds_init ops = Ok (s, (spec_run dstore_empty ops).2) ∧
    (∀ p, is_Some (ds_heap s !! p) → ∃ i j, in_array 48 i j ∧ ds_cell (ds_strings s) i j = Some (Some p) ∧
      ∀ i' j', in_array 48 i' j' → ds_cell (ds_strings s) i' j' = Some (Some p) → (i', j') = (i, j)) ∧
    netsnmp_ds_shutdown s = Ok s' ∧ ds_heap s' = ∅ ∧ ds_configs s' = [] ∧
    ∀ i j, in_array 48 i j → ds_cell (ds_strings s') i j = Some None.
Proof.
  intros Hok. destruct (ds_run_rep _ _ ops rep_init Hok) as (s & Hs & Hr).
  destruct (shutdown_rep _ _ Hr) as (s' & Hs'). exists s, s'. split; [done|]. split; [|done].
  intros p Hp. destruct (dr_heap _ _ Hr p Hp) as (i & j & Hin & Hc). exists i, j. split; [done|]. split; [done|].
  intros i' j' Hin' Hc'. by apply (dr_own _ _ Hr i' j' i j p).
Qed.
End Refines.

(** ** Samples *)

Definition sample_settings : list ds_op :=
  [ RegisterToken false ASN_OCTET_STR [115] (Some [99; 116; 120]) (0, 1);
    RegisterToken false ASN_BOOLEAN [115] (Some [100; 117; 109; 112]) (0, 4);
    SetBoolean (0, 5) 1; ConfigLine [68; 85; 77; 80] [89; 101; 115]; ToggleBoolean (0, 5);
    GetBoolean (0, 4); GetBoolean (0, 5); GetBoolean (0, 48);
    ConfigLine [99; 116; 120] [34; 97; 32; 98; 34]; SetString (2, 47) (VFrom (0, 1)); SetString (0, 1) VNull;
    GetString (2, 47); GetString (0, 1) ].

Lemma default_store_refines_maps_witness :
  (spec_run dstore_empty sample_settings).2
    = [DsNum 0; DsNum 0; DsNum 0; DsNone; DsNum 0; DsNum 1; DsNum 0; DsNum (-1); DsNone; DsNum 0; DsNum 0;
       DsText (Some [97; 32; 98]); DsText None] ∧
  ∃ s s', ds_run (λ _, true) (replicate (Z.to_nat SNMP_MAXBUF) 0) ds_init sample_settings
      = Ok (s, (spec_run dstore_empty sample_settings).2) ∧
    (∀ p, is_Some (ds_heap s !! p) → ∃ i j, in_array 48 i j ∧ ds_cell (ds_strings s) i j = Some (Some p) ∧
      ∀ i' j', in_array 48 i' j' → ds_cell (ds_strings s) i' j' = Some (Some p) → (i', j') = (i, j)) ∧
    netsnmp_ds_shutdown s = Ok s' ∧ ds_heap s' = ∅ ∧ ds_configs s' = [] ∧
    ∀ i j, in_array 48 i j → ds_cell (ds_strings s') i j = Some None.
Proof.
  split; [by vm_compute|].
  apply (default_store_refines_maps (λ _, true) (replicate (Z.to_nat SNMP_MAXBUF) 0) (λ _, eq_refl)
    ltac:(unfold zlen; rewrite length_replicate; done) sample_settings).
  repeat constructor; try (by eexists); apply (bool_decide_unpack _); by vm_compute.
Defined.

(** Without memory for the copy the call succeeds and the old string is gone. *)
Example set_string_without_memory :
  match ds_run (λ _, true) [] ds_init [SetString (0, 0) (VText [97])] with
  | Ok (s, _) =>
      match netsnmp_ds_set_string (λ _, false) s 0 0 (ACaller [98]) with
      | Ok (s', rc) => bool_decide (rc = SNMPERR_SUCCESS ∧ ds_cell (ds_strings s') 0 0 = Some None)
      | _ => false
      end
  | _ => false
  end = true.
Proof. by vm_compute. Qed.

(** A token that was registered without memory for its copy is compared through a null
    pointer by every later configuration line. *)
Example register_without_memory :
  let '(s, rc) := netsnmp_ds_register_config (λ n, n =? SIZEOF_DS_READ_CONFIG) ds_init ASN_INTEGER [115] (Some [97]) 0 0 in
  rc = SNMPERR_SUCCESS ∧ netsnmp_ds_handle_config (λ _, true) [] s [98] [49] = UB.
Proof. done. Qed.
